(* ===== verification/_CoqProject ===== *)
-Q . S2P
Prelude.v
Decode.v
Rvc.v
Device.v
DeviceInv.v
DeviceThms.v
Memory.v
NetRx.v
Cache.v
Pipeline.v
Softfloat.v
SoftfloatRange.v
Cpu.v
Mmu.v
See.v
Trap.v
Alu.v
Exec.v
Fpu.v
Step.v
CpuInv.v
Isa.v
AluSem.v
AluThms.v
Elf.v
ElfThms.v
Dtb.v
DtbThms.v
Engine.v
EngineInv.v
EngineFile.v
EngineReach.v
DtbFits.v
EngineThms.v
EngineSnap.v
EngineBoot.v
Netstack.v
NetWire.v
NetstackInv.v
NetStream.v
NetBackend.v
NetstackThms.v
NetFlush.v
CLib.v
Gdb.v
GdbWire.v
GdbSession.v
GdbThms.v
GdbExec.v
Disasm.v
Asm.v
DisasmRead.v
DisasmThms.v
MmuThms.v
X86.v
Jit.v
JitCode.v
JitExec.v
JitSim.v
JitCall.v
JitRef.v
JitInsn.v
JitTerm.v
JitBlock.v
JitRun.v
JitTable.v
