(* ===== verification/Prelude.v ===== *)
(** * Quanta: a verification development

    Quanta is a RISC-V system emulator in C: RV32/RV64 IMAFDC with Zba/Zbb/Zbc/Zbs,
    M/S/U privilege, Sv32/Sv39 paging, several harts, an SBI firmware and a newlib
    environment, the usual platform devices, a cache and a pipeline model, a soft-float
    library, a decode cache, a JIT for x86-64, an ELF loader, a device-tree builder, a
    disassembler, a GDB stub and a usermode network stack.  This library is a shallow
    embedding of that program and the theorems that make its parts correct.

    ** How the program is put together, and where it is modelled

    The engine handle ([Quanta]) owns one [Memory] with the [Platform] of devices behind it,
    and an array of [CPU]s.  A host program creates the handle, configures it, loads a
    program and runs it; [cpu_step] runs one instruction of one hart: interrupts first, then
    a translated fetch through the decode cache and the compressed-instruction expander,
    dispatch to a handler, and the retire or trap epilogue.

    - [Prelude]: machine integers, bits, arrays, the state monad with its invariant
      ([pres], [keeps]) and range ([rng]) automation, equality of low bits ([eqw]).
    - [Decode] ([decode.h]): fields and immediates.  [Rvc] ([rvc.c]): the expander, against
      the encoding tables of the ISA manual.
    - [Device], [DeviceInv], [DeviceThms] ([device.c]): CLINT, PLIC, UART, finisher,
      virtio-blk and virtio-net with their DMA; the bus invariant; the theorems.  [NetRx]: the
      receive queue of virtio-net against a list of frames and the guest's descriptor chains.
    - [Memory] ([memory.c]): bounded little-endian access and MMIO dispatch.
    - [Cache] ([cache.c]), [Pipeline] ([pipeline.c]): the observers, each against a
      reference model.  The pipeline's is the operand table of the manual, restricted to the
      opcodes the code classifies.
    - [Softfloat], [SoftfloatRange] ([softfloat.c]): all of the IEEE-754 arithmetic.
    - [Cpu] ([cpu.h], [decodecache.h]): the state; [Mmu] ([mmu.c]); [See] ([syscall.c],
      [sbi.c]); [Trap], [Alu], [Exec], [Fpu], [Step] ([cpu.c]) in the order of that file.
    - [CpuInv]: the invariant of the whole machine and that every operation keeps it.
      [MmuThms]: a translation repeated is the same translation and changes nothing.
    - [Isa], [AluSem], [AluThms]: the integer instructions against the ISA.
    - [Elf], [ElfThms] ([elf.c]): the loader; what it places where, and that no file makes it
      read outside the image but by the wrap-arounds shown; a symbol lookup gives the first
      entry of that name.
    - [Dtb], [DtbThms], [DtbFits] ([dtb.c]): the tree builder, byte for byte; a reader of the
      format gets the tree back, the interrupt wiring of each hart included; more harts than
      the interrupt array holds are the outcome [Overrun]; the tree of any machine fits its
      buffer.
    - [Engine] ([quanta.c]): configuration, loaders, boot state, scheduler, run and step,
      snapshots, host access.  [EngineInv]: the invariant of a handle and what keeps it.
      [EngineFile]: the snapshot file reads back.  [EngineReach]: the handles a host program
      can reach, by configuring, loading, reloading a program that replaces the old one,
      running, restoring, and loading the snapshot files of such handles; every one satisfies
      the invariant.  [EngineThms]: running terminates and counts right.  [EngineSnap]:
      snapshots in memory and on disk round trip.  [EngineBoot]: the state the guest is
      started in.
    - [Netstack] ([netstack.c]): ARP, ICMP, DHCP, UDP and TCP NAT.  [NetWire]: its frames
      and checksums; [NetstackInv]: no frame makes it read or write out of bounds;
      [NetStream], [NetFlush]: the byte streams; [NetBackend]: a stack whose backend stays
      attached never calls a missing one (a call through NULL is the latch [ns_null]);
      [NetstackThms]: what the guest receives.
    - [CLib]: the C library functions the text-handling parts use.
    - [Gdb] ([gdbstub.c]): framing, packets, breakpoints, continue, checkpoints and reverse
      execution.  [GdbWire], [GdbSession], [GdbThms], [GdbExec]: the wire format round
      trips, a session always ends, memory and register access round trip, where continue
      stops, where it goes wrong.
    - [Disasm] ([disasm.c]): the text of every instruction.  [Asm], [DisasmRead],
      [DisasmThms]: an assembler that reads the text back to the instruction, branch targets
      in the first 4 GiB.
    - [Jit] ([jit.c]): the code generator of the x86-64 build: emission, translation of an
      instruction and of a block, the helpers, the block table and the dispatcher.  [X86] is
      the host: a decoder and the effect of the instructions the generator uses.  [JitCode]:
      what is emitted decodes to what was meant.  [JitExec], [JitCall]: running it.
      [JitRef]: the interpreter on the instructions of a block, the reference.  [JitSim],
      [JitInsn], [JitTerm]: each instruction's code simulates the interpreter; [JitBlock]: so
      does a block's; [JitRun]: so does calling it in the arena; [JitTable]: the block table
      always maps to such code, and the dispatcher does what the interpreter does.

    ** Conventions

    An unsigned [w]-bit value is a [Z] in [[0, 2^w)] ([rng w]); [u8] .. [u64] write out the
    wrap-around of an operation and [s8] .. [s64] the cast to a signed type.  A C array is
    a finite map from indices to [Z], absent cells reading as zero.  A function that
    mutates state is a [st S A] action on the state it reaches: [Bus] for memory and
    devices, [World] for the machine, [Quanta] for the engine.  A [CPU *] is the index of a
    hart in [World], so aliasing between harts (LR/SC reservations, SBI hart management) is
    what it is in C.  What the machine sends to the host (console bytes, disk write-through,
    frames, messages) is a log in [Bus].  A file is its contents, or nothing when it cannot
    be opened; a socket is a script of what its calls return; the host behind the network
    stack is a function of the calls so far.

    ** Bounds and fuel

    Loops of the source are structural recursions on a bound the source has (array lengths,
    bit counts).  Elsewhere there is fuel, with a theorem that it is enough: the virtqueue
    drain has the distance of two 16-bit ring indices; [quanta_run] has one round of the
    scheduler per instruction of its step limit and one more; the packet reader of the GDB
    stub has the length of the script; the DHCP option scan has the length of the packet;
    generated code has the size of the buffer it was emitted into, more than the at most 64
    host instructions of each of the at most 128 guest instructions of a block.

    ** What is not modelled

    The printing of reports and register dumps ([cache_report], [pipeline_report],
    [quanta_dump_regs]): text for a reader, which changes no state.  Opening, reading and
    closing files and sockets and mapping the JIT arena: host calls, of which only the
    results enter the model.  [Engine] models the build without the code generator, where
    [jit_run] answers 0 ([jit.c] 663-666); [Jit] and the files after it model [jit_run] of
    the x86-64 build on the same machine state.  The command line ([main.c]): argument
    parsing, terminal modes, and the select loops over the host's sockets. *)

From Stdlib Require Export ZArith Lia.
From Stdlib Require Import Btauto.
From stdpp Require Export base gmap list numbers.
Open Scope Z_scope.

(** ** Notations that read like the C operators *)

Declare Scope cint_scope.
Delimit Scope cint_scope with cint.
Notation "a << n" := (Z.shiftl a n) (at level 51, left associativity) : cint_scope.
Notation "a >> n" := (Z.shiftr a n) (at level 51, left associativity) : cint_scope.
Notation "a .& b" := (Z.land a b) (at level 54, left associativity) : cint_scope.
Notation "a .^ b" := (Z.lxor a b) (at level 56, left associativity) : cint_scope.
Notation "a .| b" := (Z.lor a b) (at level 58, left associativity) : cint_scope.
Notation "x |> f" := (f x) (at level 62, left associativity, only parsing) : cint_scope.
Open Scope cint_scope.

(** ** Machine-width integers

    An unsigned [w]-bit C value is a [Z] in [[0, 2^w)]; [wrap w] is the
    reduction every unsigned operation ends with, and [sgn w] is the
    two's-complement reading of its low [w] bits (the cast to [intN_t]). *)

Definition wrap (w z : Z) : Z := Z.land z (Z.ones w).
Definition sgn (w z : Z) : Z :=
  let u := wrap w z in if u <? 2 ^ (w - 1) then u else u - 2 ^ w.

Definition u8 : Z -> Z := wrap 8.
Definition u16 : Z -> Z := wrap 16.
Definition u32 : Z -> Z := wrap 32.
Definition u64 : Z -> Z := wrap 64.
Definition s8 : Z -> Z := sgn 8.
Definition s16 : Z -> Z := sgn 16.
Definition s32 : Z -> Z := sgn 32.
Definition s64 : Z -> Z := sgn 64.

(** The unsigned range of width [w]. *)
Definition rng (w z : Z) : Prop := 0 <= z < 2 ^ w.

Create Rewrite HintDb zbits.

(** For a width, [wrap] is the remainder modulo [2^w]. *)
Lemma wrap_mod w z : 0 <= w -> wrap w z = z mod 2 ^ w.
Proof. intros. by apply Z.land_ones. Qed.

Lemma wrap_range w z : 0 <= w -> rng w (wrap w z).
Proof. intros. rewrite wrap_mod by lia. apply Z.mod_pos_bound. lia. Qed.

Lemma wrap_small w z : 0 <= w -> rng w z -> wrap w z = z.
Proof. intros. rewrite wrap_mod by lia. by apply Z.mod_small. Qed.

Lemma wrap_wrap w v z : 0 <= w <= v -> wrap w (wrap v z) = wrap w z.
Proof.
  intros. rewrite !wrap_mod by lia. apply Z.mod_mod_divide.
  exists (2 ^ (v - w)). rewrite <- Z.pow_add_r by lia. f_equal. lia.
Qed.

Lemma wrap_add_l w a b : 0 <= w -> wrap w (wrap w a + b) = wrap w (a + b).
Proof. intros. rewrite !wrap_mod by lia. apply Zplus_mod_idemp_l. Qed.

Lemma wrap_add_r w a b : 0 <= w -> wrap w (a + wrap w b) = wrap w (a + b).
Proof. intros. rewrite !wrap_mod by lia. apply Zplus_mod_idemp_r. Qed.

Lemma wrap_sub_l w a b : 0 <= w -> wrap w (wrap w a - b) = wrap w (a - b).
Proof. intros. rewrite !wrap_mod by lia. apply Zminus_mod_idemp_l. Qed.

Lemma wrap_sub_r w a b : 0 <= w -> wrap w (a - wrap w b) = wrap w (a - b).
Proof. intros. rewrite !wrap_mod by lia. apply Zminus_mod_idemp_r. Qed.

Lemma wrap_mul_l w a b : 0 <= w -> wrap w (wrap w a * b) = wrap w (a * b).
Proof. intros. rewrite !wrap_mod by lia. apply Zmult_mod_idemp_l. Qed.

Lemma wrap_mul_r w a b : 0 <= w -> wrap w (a * wrap w b) = wrap w (a * b).
Proof. intros. rewrite !wrap_mod by lia. apply Zmult_mod_idemp_r. Qed.

Lemma wrap_shift w z k : 0 <= w -> wrap w (z + k * 2 ^ w) = wrap w z.
Proof. intros. rewrite !wrap_mod by lia. apply Z.mod_add. lia. Qed.

Lemma sgn_range w z : 0 < w -> - 2 ^ (w - 1) <= sgn w z < 2 ^ (w - 1).
Proof.
  intros. unfold sgn. pose proof (wrap_range w z ltac:(lia)) as Hr. unfold rng in Hr.
  replace (2 ^ w) with (2 * 2 ^ (w - 1)) in *
    by (rewrite <- Z.pow_succ_r by lia; f_equal; lia).
  destruct (Z.ltb_spec (wrap w z) (2 ^ (w - 1))); lia.
Qed.

Lemma sgn_wrap w v z : 0 < w <= v -> sgn w (wrap v z) = sgn w z.
Proof. intros. unfold sgn. rewrite wrap_wrap by lia. done. Qed.

Lemma wrap_sgn w z : 0 < w -> wrap w (sgn w z) = wrap w z.
Proof.
  intros. unfold sgn. destruct (_ <? _); [apply wrap_wrap; lia|].
  replace (wrap w z - 2 ^ w) with (wrap w z + (-1) * 2 ^ w) by lia.
  rewrite wrap_shift by lia. apply wrap_wrap. lia.
Qed.

Lemma sgn_small w z : 0 < w -> - 2 ^ (w - 1) <= z < 2 ^ (w - 1) -> sgn w z = z.
Proof.
  intros. unfold sgn.
  assert (2 ^ w = 2 * 2 ^ (w - 1)) as Hw
    by (rewrite <- Z.pow_succ_r by lia; f_equal; lia).
  destruct (Z.ltb_spec z 0).
  - replace (wrap w z) with (z + 2 ^ w).
    + destruct (Z.ltb_spec (z + 2 ^ w) (2 ^ (w - 1))); lia.
    + rewrite <- (wrap_small w (z + 2 ^ w)) by (lia || (unfold rng; lia)).
      replace (z + 2 ^ w) with (z + 1 * 2 ^ w) by lia. apply wrap_shift. lia.
  - rewrite wrap_small by (lia || (unfold rng; lia)).
    destruct (Z.ltb_spec z (2 ^ (w - 1))); lia.
Qed.

(** Two residues with the same signed reading are equal. *)
Lemma sgn_inj w a b : 0 < w -> rng w a -> rng w b -> sgn w a = sgn w b -> a = b.
Proof.
  intros ? Ha Hb E. apply (f_equal (wrap w)) in E. rewrite !wrap_sgn in E by lia.
  by rewrite !wrap_small in E by (lia || done).
Qed.

(** ** Bit-level lemmas *)

Lemma wrap_testbit w z i :
  0 <= w -> 0 <= i -> Z.testbit (wrap w z) i = (i <? w) && Z.testbit z i.
Proof.
  intros. rewrite wrap_mod by lia. destruct (Z.ltb_spec i w).
  - by rewrite Z.mod_pow2_bits_low.
  - by rewrite Z.mod_pow2_bits_high by lia.
Qed.

Lemma rng_testbit w z i : rng w z -> 0 <= w <= i -> Z.testbit z i = false.
Proof.
  intros Hr Hi. rewrite <- (wrap_small w z) by (lia || done). rewrite wrap_testbit by lia.
  by destruct (Z.ltb_spec i w); [lia|].
Qed.

Lemma testbit_rng w z :
  0 <= w -> 0 <= z -> (forall i, w <= i -> Z.testbit z i = false) -> rng w z.
Proof.
  intros Hw Hz Hb. assert (wrap w z = z) as <-; [|by apply wrap_range].
  apply Z.bits_inj'. intros i Hi. rewrite wrap_testbit by lia.
  destruct (Z.ltb_spec i w); [done|]. by rewrite Hb.
Qed.

Lemma sgn_testbit w z i : 0 < w -> 0 <= i ->
  Z.testbit (sgn w z) i = Z.testbit z (if i <? w then i else w - 1).
Proof.
  intros. unfold sgn.
  assert (2 ^ w = 2 * 2 ^ (w - 1)) as Hw
    by (rewrite <- Z.pow_succ_r by lia; f_equal; lia).
  pose proof (wrap_range w z ltac:(lia)) as Hr. unfold rng in Hr.
  assert (Z.testbit z (w - 1) = negb (wrap w z <? 2 ^ (w - 1))) as Hm.
  { transitivity (Z.testbit (wrap w z) (w - 1)).
    { rewrite wrap_testbit by lia. by destruct (Z.ltb_spec (w - 1) w); [|lia]. }
    rewrite Z.testbit_eqb by lia.
    destruct (Z.ltb_spec (wrap w z) (2 ^ (w - 1))).
    - by rewrite Z.div_small by lia.
    - replace (wrap w z / 2 ^ (w - 1)) with 1; [done|].
      apply Z.div_unique with (wrap w z - 2 ^ (w - 1)); lia. }
  destruct (Z.ltb_spec (wrap w z) (2 ^ (w - 1))) as [Hlt|Hge]; simpl in Hm.
  - rewrite wrap_testbit by lia. by destruct (Z.ltb_spec i w); [|rewrite Hm].
  - destruct (Z.ltb_spec i w).
    + replace (wrap w z - 2 ^ w) with (wrap w z + (-1) * 2 ^ w) by lia.
      rewrite <- (Z.mod_pow2_bits_low _ w), <- wrap_mod, wrap_shift, wrap_wrap by lia.
      rewrite wrap_testbit by lia. by destruct (Z.ltb_spec i w); [|lia].
    + rewrite Hm. rewrite Z.testbit_eqb by lia.
      assert (2 ^ w <= 2 ^ i) by (apply Z.pow_le_mono_r; lia).
      replace ((wrap w z - 2 ^ w) / 2 ^ i) with (-1); [done|].
      apply Z.div_unique with (wrap w z - 2 ^ w + 2 ^ i); lia.
Qed.

Lemma shiftl_testbit a n i :
  0 <= i -> Z.testbit (a << n) i = Z.testbit a (i - n).
Proof. intros. by apply Z.shiftl_spec. Qed.

Lemma shiftr_testbit a n i :
  0 <= i -> Z.testbit (a >> n) i = Z.testbit a (i + n).
Proof. intros. by apply Z.shiftr_spec. Qed.

Lemma lnot_testbit a i : 0 <= i -> Z.testbit (Z.lnot a) i = negb (Z.testbit a i).
Proof. intros. by apply Z.lnot_spec. Qed.

Lemma ones_testbit n i : 0 <= n -> 0 <= i -> Z.testbit (Z.ones n) i = (i <? n).
Proof. intros. rewrite Z.testbit_ones_nonneg by lia. done. Qed.

Lemma pow2_testbit n i : 0 <= n -> Z.testbit (2 ^ n) i = (n =? i).
Proof. apply Z.pow2_bits_eqb. Qed.

Lemma lor_rng w a b : 0 <= w -> rng w a -> rng w b -> rng w (a .| b).
Proof.
  intros Hw Ha Hb. apply testbit_rng; [done| |].
  - apply Z.lor_nonneg. destruct Ha, Hb. lia.
  - intros i Hi. by rewrite Z.lor_spec, (rng_testbit w a), (rng_testbit w b) by (done || lia).
Qed.

Lemma lxor_rng w a b : 0 <= w -> rng w a -> rng w b -> rng w (a .^ b).
Proof.
  intros Hw Ha Hb. apply testbit_rng; [done| |].
  - apply Z.lxor_nonneg. destruct Ha, Hb. lia.
  - intros i Hi. by rewrite Z.lxor_spec, (rng_testbit w a), (rng_testbit w b) by (done || lia).
Qed.

Lemma land_rng_l w a b : 0 <= w -> rng w a -> rng w (a .& b).
Proof.
  intros Hw Ha. apply testbit_rng; [done| |].
  - apply Z.land_nonneg. destruct Ha. lia.
  - intros i Hi. by rewrite Z.land_spec, (rng_testbit w a) by (done || lia).
Qed.

Lemma land_rng_r w a b : 0 <= w -> rng w b -> rng w (a .& b).
Proof. rewrite Z.land_comm. apply land_rng_l. Qed.

Lemma shiftr_rng w n a : 0 <= n -> 0 <= w -> rng (w + n) a -> rng w (a >> n).
Proof.
  intros Hn Hw [H0 H1]. rewrite Z.shiftr_div_pow2 by lia. split.
  - apply Z.div_pos; lia.
  - apply Z.div_lt_upper_bound; [lia|]. rewrite <- Z.pow_add_r by lia.
    by rewrite Z.add_comm.
Qed.

Lemma rng_mono w v a : 0 <= w <= v -> rng w a -> rng v a.
Proof.
  intros. unfold rng in *. assert (2 ^ w <= 2 ^ v) by (apply Z.pow_le_mono_r; lia). lia.
Qed.

(** Disjoint bit fields: or is addition. *)
Lemma lor_add a b : a .& b = 0 -> a .| b = a + b.
Proof.
  intros. rewrite <- Z.lxor_lor by done. symmetry. by apply Z.add_nocarry_lxor.
Qed.

Lemma lor_shiftl_add w a b : 0 <= w -> rng w a -> a .| (b << w) = a + b * 2 ^ w.
Proof.
  intros. rewrite lor_add; [by rewrite Z.shiftl_mul_pow2|].
  apply Z.bits_inj'. intros i Hi. rewrite Z.land_spec, shiftl_testbit, Z.bits_0 by lia.
  destruct (Z.ltb_spec i w).
  - by rewrite (Z.testbit_neg_r _ (i - w)), andb_false_r by lia.
  - by rewrite (rng_testbit w a) by (done || lia).
Qed.

#[export] Hint Rewrite Z.land_spec Z.lor_spec Z.lxor_spec Z.ldiff_spec Z.bits_0 : zbits.
#[export] Hint Rewrite wrap_testbit sgn_testbit shiftl_testbit shiftr_testbit
  lnot_testbit ones_testbit pow2_testbit using lia : zbits.

(** Case split on every boolean comparison of the goal, discharging the
    contradictory combinations. *)
Ltac zcase :=
  repeat match goal with
  | |- context [?a <? ?b] => destruct (Z.ltb_spec a b); try lia
  | |- context [?a <=? ?b] => destruct (Z.leb_spec a b); try lia
  | |- context [?a =? ?b] => destruct (Z.eqb_spec a b); try lia
  end.

(** Drop the test bits known to be zero: negative positions, and positions
    above the range of a bounded value. *)
Ltac zbit_known :=
  match goal with
  | |- context [Z.testbit ?v ?k] => rewrite (Z.testbit_neg_r v k) by lia
  | H : rng ?w ?v |- context [Z.testbit ?v ?k] => rewrite (rng_testbit w v k H) by lia
  end.

(** Split on the sign of a bit position when nothing decides it. *)
Ltac zbit_sign :=
  match goal with
  | |- context [Z.testbit ?v ?k] =>
    assert_fails (is_var v); assert_fails (assert (0 <= k) by lia);
    assert_fails (assert (k < 0) by lia);
    destruct (Z.lt_ge_cases k 0)
  end.

(** A literal mask [2^k - 1] (or such a run of ones shifted left) is rewritten to
    [Z.ones] form, whose bits [ones_testbit] knows. *)
Fixpoint trailing (p : positive) : Z := match p with xO p => 1 + trailing p | _ => 0 end.
Ltac mask_of c :=
  lazymatch c with
  | Zpos ?p =>
    let n := eval vm_compute in (trailing p) in
    let k := eval vm_compute in (Z.log2 c + 1 - n) in
    let ok := eval vm_compute in (Z.shiftl (Z.ones k) n =? c) in
    lazymatch ok with
    | true => lazymatch n with
              | 0 => constr:(Z.ones k)
              | _ => constr:(Z.shiftl (Z.ones k) n)
              end
    end
  end.
Ltac zmask :=
  repeat match goal with
  | |- context [Z.land ?x (Zpos ?p)] =>
    let m := mask_of (Zpos p) in change (Z.land x (Zpos p)) with (Z.land x m)
  | |- context [Z.lor ?x (Zpos ?p)] =>
    let m := mask_of (Zpos p) in change (Z.lor x (Zpos p)) with (Z.lor x m)
  | |- context [Z.lxor ?x (Zpos ?p)] =>
    let m := mask_of (Zpos p) in change (Z.lxor x (Zpos p)) with (Z.lxor x m)
  end.

(** Equality of two integers bit by bit: push [Z.testbit] to the leaves, split
    on the index comparisons, and compare what is left. *)
Ltac zbit_eq :=
  cbv delta [u8 u16 u32 u64 s8 s16 s32 s64]; zmask;
  repeat first [progress autorewrite with zbits | progress zcase | zbit_known | zbit_sign];
  rewrite ?andb_false_r, ?andb_true_r, ?orb_false_r, ?andb_false_l, ?andb_true_l,
    ?orb_false_l, ?orb_true_r, ?xorb_false_r, ?xorb_false_l;
  try reflexivity;
  try (f_equal; lia).
Ltac zbits :=
  apply Z.bits_inj'; let i := fresh "i" in let Hi := fresh "Hi" in
  intros i Hi; zbit_eq.

(** ** Equality of the low [w] bits

    The operations a two's-complement machine computes modulo [2^w] are morphisms for
    [eqw w], so the reductions inside an expression can be rewritten away. *)

Class Width (w : Z) : Prop := width_pos : 0 < w.
#[export] Instance width_32 : Width 32.
Proof. done. Qed.
#[export] Instance width_64 : Width 64.
Proof. done. Qed.

Definition eqw (w a b : Z) : Prop := wrap w a = wrap w b.

#[export] Instance eqw_equiv w : Equivalence (eqw w).
Proof. split; unfold eqw; congruence. Qed.

Section Eqw.
Context (w : Z) {Hw : Width w}.

Lemma eqw_bits a b : (forall i, 0 <= i < w -> Z.testbit a i = Z.testbit b i) <-> eqw w a b.
Proof.
unfold Width in Hw. split.
- intros H. apply Z.bits_inj'. intros i Hi. rewrite !wrap_testbit by lia.
  destruct (Z.ltb_spec i w); [|done]. by rewrite H.
- intros H i Hi. apply (f_equal (fun z => Z.testbit z i)) in H. rewrite !wrap_testbit in H by lia.
  destruct (Z.ltb_spec i w); [done|lia].
Qed.

#[export] Instance eqw_add : Proper (eqw w ==> eqw w ==> eqw w) Z.add.
Proof.
unfold Width in Hw. intros a a' Ha b b' Hb. unfold eqw in *.
rewrite <- wrap_add_l, <- wrap_add_r, Ha, Hb, wrap_add_l, wrap_add_r by lia. done.
Qed.
#[export] Instance eqw_sub : Proper (eqw w ==> eqw w ==> eqw w) Z.sub.
Proof.
unfold Width in Hw. intros a a' Ha b b' Hb. unfold eqw in *.
rewrite <- wrap_sub_l, <- wrap_sub_r, Ha, Hb, wrap_sub_l, wrap_sub_r by lia. done.
Qed.
#[export] Instance eqw_mul : Proper (eqw w ==> eqw w ==> eqw w) Z.mul.
Proof.
unfold Width in Hw. intros a a' Ha b b' Hb. unfold eqw in *.
rewrite <- wrap_mul_l, <- wrap_mul_r, Ha, Hb, wrap_mul_l, wrap_mul_r by lia. done.
Qed.
#[export] Instance eqw_land : Proper (eqw w ==> eqw w ==> eqw w) Z.land.
Proof.
intros a a' Ha b b' Hb. rewrite <- eqw_bits in *. intros. by rewrite !Z.land_spec, Ha, Hb.
Qed.
#[export] Instance eqw_lor : Proper (eqw w ==> eqw w ==> eqw w) Z.lor.
Proof.
intros a a' Ha b b' Hb. rewrite <- eqw_bits in *. intros. by rewrite !Z.lor_spec, Ha, Hb.
Qed.
#[export] Instance eqw_lxor : Proper (eqw w ==> eqw w ==> eqw w) Z.lxor.
Proof.
intros a a' Ha b b' Hb. rewrite <- eqw_bits in *. intros. by rewrite !Z.lxor_spec, Ha, Hb.
Qed.
#[export] Instance eqw_lnot : Proper (eqw w ==> eqw w) Z.lnot.
Proof. intros a a' Ha. rewrite <- eqw_bits in *. intros. by rewrite !Z.lnot_spec, Ha by lia. Qed.
Lemma eqw_shiftl a a' n : 0 <= n -> eqw w a a' -> eqw w (a << n) (a' << n).
Proof.
intros Hn Ha. rewrite <- eqw_bits in *. intros i Hi. rewrite !shiftl_testbit by lia.
destruct (Z.lt_ge_cases i n); [by rewrite !Z.testbit_neg_r by lia|]. apply Ha. lia.
Qed.

Lemma eqw_wrap v a : w <= v -> eqw w (wrap v a) a.
Proof. intros. unfold Width in Hw. apply wrap_wrap. lia. Qed.
Lemma eqw_sgn a : eqw w (sgn w a) a.
Proof. by apply wrap_sgn. Qed.
End Eqw.

(** ** Zero-initialised arrays

    A C array is a finite map from index to value; an absent index reads as
    zero, as the memory [calloc]/[memset] hands out does. *)

Abbreviation arr := (gmap Z Z).
Definition aget (a : arr) (i : Z) : Z := default 0 (a !! i).
Definition aset (i v : Z) (a : arr) : arr := <[i := v]> a.
Notation "a .[ i ]" := (aget a i) (at level 1, left associativity, format "a .[ i ]") : cint_scope.

Lemma aget_aset_eq a i v : (aset i v a).[i] = v.
Proof. unfold aget, aset. by rewrite lookup_insert_eq. Qed.

Lemma aget_aset_ne a i j v : i <> j -> (aset i v a).[j] = a.[j].
Proof. intros. unfold aget, aset. by rewrite lookup_insert_ne. Qed.

Lemma aget_aset a i j v : (aset i v a).[j] = if i =? j then v else a.[j].
Proof.
  destruct (Z.eqb_spec i j) as [->|]; [apply aget_aset_eq|by apply aget_aset_ne].
Qed.

Lemma aget_empty i : (∅ : arr).[i] = 0.
Proof. unfold aget. by rewrite lookup_empty. Qed.

Lemma aset_comm a i j v u : i <> j -> aset i v (aset j u a) = aset j u (aset i v a).
Proof. intros. apply insert_insert_ne. congruence. Qed.

(** [a] holds [w]-bit values only. *)
Definition arr_rng (w : Z) (a : arr) : Prop := forall i, rng w a.[i].

Lemma arr_rng_aset w a i v : arr_rng w a -> rng w v -> arr_rng w (aset i v a).
Proof. intros Ha Hv j. rewrite aget_aset. by destruct (i =? j). Qed.

Lemma arr_rng_empty w : 0 <= w -> arr_rng w ∅.
Proof. intros ? i. rewrite aget_empty. unfold rng. lia. Qed.

(** ** Range automation

    [rng_auto] proves that a C expression stays in the range of its type, from the
    shape of the expression and the range hypotheses at hand. *)

Lemma u8_rng z : rng 8 (u8 z).
Proof. by apply wrap_range. Qed.
Lemma u16_rng z : rng 16 (u16 z).
Proof. by apply wrap_range. Qed.
Lemma u32_rng z : rng 32 (u32 z).
Proof. by apply wrap_range. Qed.
Lemma u64_rng z : rng 64 (u64 z).
Proof. by apply wrap_range. Qed.

Lemma rng_if w (b : bool) x y : rng w x -> rng w y -> rng w (if b then x else y).
Proof. by destruct b. Qed.

Lemma shiftr_rng_same w n a : 0 <= n -> rng w a -> rng w (a >> n).
Proof.
  intros Hn [H0 H1]. rewrite Z.shiftr_div_pow2 by lia.
  assert (0 < 2 ^ n) by lia. split; [apply Z.div_pos; lia|].
  apply Z.le_lt_trans with a; [|done]. apply Z.div_le_upper_bound; nia.
Qed.

Lemma rng_const w c : (0 <=? c) && (c <? 2 ^ w) = true -> rng w c.
Proof. intros [?%Z.leb_le ?%Z.ltb_lt]%andb_true_iff. done. Qed.

Create HintDb rng discriminated.
#[export] Hint Constants Opaque : rng.
#[export] Hint Resolve u8_rng u16_rng u32_rng u64_rng : rng.
#[export] Hint Extern 1 (rng _ (u8 _)) => apply (rng_mono 8); [lia|apply u8_rng] : rng.
#[export] Hint Extern 1 (rng _ (u16 _)) => apply (rng_mono 16); [lia|apply u16_rng] : rng.
#[export] Hint Extern 1 (rng _ (u32 _)) => apply (rng_mono 32); [lia|apply u32_rng] : rng.
#[export] Hint Extern 1 (rng _ (if _ then _ else _)) => apply rng_if : rng.
#[export] Hint Extern 1 (rng _ (wrap _ _)) => apply wrap_range; lia : rng.
#[export] Hint Extern 1 (rng _ (Z.lor _ _)) => apply lor_rng; [lia| |] : rng.
#[export] Hint Extern 1 (rng _ (Z.lxor _ _)) => apply lxor_rng; [lia| |] : rng.
#[export] Hint Extern 1 (rng _ (Z.land _ _)) => apply land_rng_l; [lia|] : rng.
#[export] Hint Extern 2 (rng _ (Z.land _ _)) => apply land_rng_r; [lia|] : rng.
#[export] Hint Extern 1 (rng _ (Z.shiftr _ _)) => apply shiftr_rng_same; [lia|] : rng.
#[export] Hint Extern 1 (rng _ (aget _ _)) =>
  match goal with
  | H : arr_rng ?v ?a |- rng ?w (aget ?a _) => apply (rng_mono v w); [lia|apply H]
  end : rng.
Ltac is_literal c :=
  first [is_const c | lazymatch c with
                      | Z0 => idtac
                      | Zpos _ => idtac
                      | Z.shiftl ?a ?b => is_literal a; is_literal b
                      end].
#[export] Hint Extern 0 (rng ?w ?c) => (is_literal c; apply rng_const; vm_compute; reflexivity) : rng.
#[export] Hint Extern 3 (rng _ _) =>
  match goal with
  | H : rng ?v ?x |- rng ?w ?x => apply (rng_mono v w x); [lia|exact H]
  end : rng.
#[export] Hint Extern 1 (arr_rng _ (aset _ _ _)) => apply arr_rng_aset : rng.
Ltac rng_auto := solve [eauto 40 with rng nocore].

(** ** A state monad

    [st S A] is a computation over a mutable state [S]; the C functions that
    update the machine in place are terms of this type. *)

Definition st (S A : Type) : Type := S -> A * S.
#[export] Instance st_ret S : MRet (st S) := fun A a s => (a, s).
#[export] Instance st_bind S : MBind (st S) := fun A B k m s => let '(a, s') := m s in k a s'.
Definition gets {S A} (f : S -> A) : st S A := fun s => (f s, s).
Definition modify {S} (f : S -> S) : st S unit := fun s => (tt, f s).
Definition when {S} (b : bool) (m : st S unit) : st S unit := if b then m else mret tt.

(** [exec m s] is the final state, [run m s] the value. *)
Definition exec {S A} (m : st S A) (s : S) : S := snd (m s).
Definition run {S A} (m : st S A) (s : S) : A := fst (m s).

Lemma exec_bind {S A B} (m : st S A) (k : A -> st S B) s :
  exec (m ≫= k) s = exec (k (run m s)) (exec m s).
Proof. unfold exec, run, mbind, st_bind. by destruct (m s). Qed.

Lemma run_bind {S A B} (m : st S A) (k : A -> st S B) s :
  run (m ≫= k) s = run (k (run m s)) (exec m s).
Proof. unfold exec, run, mbind, st_bind. by destruct (m s). Qed.

Lemma run_ret {S A} (a : A) (s : S) : run (mret a) s = a.
Proof. done. Qed.
Lemma exec_ret {S A} (a : A) (s : S) : exec (mret a) s = s.
Proof. done. Qed.
Lemma run_gets {S A} (f : S -> A) s : run (gets f) s = f s.
Proof. done. Qed.
Lemma exec_gets {S A} (f : S -> A) s : exec (gets f) s = s.
Proof. done. Qed.
Lemma exec_modify {S} (f : S -> S) s : exec (modify f) s = f s.
Proof. done. Qed.
Create Rewrite HintDb st.
#[export] Hint Rewrite @exec_bind @run_bind @run_ret @exec_ret @run_gets @exec_gets @exec_modify : st.
(** Run the straight-line part of a computation. *)
Ltac st_simpl := autorewrite with st.

(** Running an action step by step. *)
Lemma bind_gets {S A B} (f : S -> A) (k : A -> st S B) s : (gets f ≫= k) s = k (f s) s.
Proof. done. Qed.
Lemma bind_modify {S B} (f : S -> S) (k : unit -> st S B) s : (modify f ≫= k) s = k tt (f s).
Proof. done. Qed.
Lemma bind_ret {S A B} (a : A) (k : A -> st S B) s : (mret a ≫= k) s = k a s.
Proof. done. Qed.
Lemma bind_assoc {S A B C} (m : st S A) (k : A -> st S B) (l : B -> st S C) s :
  ((m ≫= k) ≫= l) s = (m ≫= (fun a => k a ≫= l)) s.
Proof. unfold mbind, st_bind. by destruct (m s). Qed.
Lemma bind_run {S A B} (m : st S A) (k : A -> st S B) s : (m ≫= k) s = k (run m s) (exec m s).
Proof. unfold mbind, st_bind, run, exec. by destruct (m s). Qed.
Ltac st_run := repeat first
  [rewrite bind_assoc | rewrite bind_gets | rewrite bind_modify | rewrite bind_ret]; cbv beta.

(** Partial-correctness triples over [st]: the body of every invariant proof. *)
Definition hoare {S A} (P : S -> Prop) (m : st S A) (Q : A -> S -> Prop) : Prop :=
  forall s, P s -> Q (run m s) (exec m s).

(** [pres I m]: the computation [m] keeps the invariant [I]. *)
Definition pres {S A} (I : S -> Prop) (m : st S A) : Prop := forall s, I s -> I (exec m s).

Section Pres.
Context {S : Type} (I : S -> Prop).

Lemma pres_ret {A} (a : A) : pres I (mret a).
Proof. by intros s. Qed.

Lemma pres_bind {A B} (m : st S A) (k : A -> st S B) :
pres I m -> (forall a, pres I (k a)) -> pres I (m ≫= k).
Proof. intros Hm Hk s Hs. rewrite exec_bind. by apply Hk, Hm. Qed.

Lemma pres_gets {A} (f : S -> A) : pres I (gets f).
Proof. by intros s. Qed.

(** A read hands its value on together with the invariant it was read under. *)
Lemma pres_gets_bind {A B} (f : S -> A) (k : A -> st S B) :
(forall s, I s -> pres I (k (f s))) -> pres I (gets f ≫= k).
Proof. intros Hk s Hs. rewrite exec_bind. by apply Hk. Qed.

(** Sequencing with a fact about the value passed on. *)
Lemma pres_bind_val {A B} (P : A -> Prop) (m : st S A) (k : A -> st S B) :
pres I m -> (forall s, I s -> P (run m s)) -> (forall a, P a -> pres I (k a)) ->
pres I (m ≫= k).
Proof. intros Hm HP Hk s Hs. rewrite exec_bind. apply Hk; [by apply HP|by apply Hm]. Qed.

Lemma pres_modify f : (forall s, I s -> I (f s)) -> pres I (modify f).
Proof. intros Hf s. apply Hf. Qed.

Lemma pres_if {A} (b : bool) (m n : st S A) :
pres I m -> pres I n -> pres I (if b then m else n).
Proof. by destruct b. Qed.

Lemma pres_when b (m : st S unit) : pres I m -> pres I (when b m).
Proof. intros. by destruct b; [|apply pres_ret]. Qed.
End Pres.

(** [for_ n i f]: the C loop [for (k = i; k < i + n; k++) f(k)]. *)
Fixpoint for_ {S} (n : nat) (i : Z) (f : Z -> st S unit) : st S unit :=
  match n with
  | O => mret tt
  | Datatypes.S n => f i ;; for_ n (i + 1) f
  end.

Lemma pres_for {S} (I : S -> Prop) (f : Z -> st S unit) n : forall i,
  (forall k, i <= k < i + Z.of_nat n -> pres I (f k)) -> pres I (for_ n i f).
Proof.
  induction n as [|n IH]; intros i H; [apply pres_ret|].
  apply pres_bind; [apply H; lia|]. intros _. apply IH. intros. apply H. lia.
Qed.

(** The integers [i, i+1, ..., i+n-1]. *)
Fixpoint zseq (i : Z) (n : nat) : list Z :=
  match n with O => [] | Datatypes.S n => i :: zseq (i + 1) n end.

Lemma elem_of_zseq x n : forall i, x ∈ zseq i n <-> i <= x < i + Z.of_nat n.
Proof.
  induction n as [|n IH]; intros i; simpl.
  - split; [by intros ?%elem_of_nil|lia].
  - rewrite elem_of_cons, IH. lia.
Qed.

Lemma Forall_zseq (P : Z -> Prop) n : forall i,
  (forall x, i <= x < i + Z.of_nat n -> P x) -> Forall P (zseq i n).
Proof.
  induction n as [|n IH]; intros i H; simpl; constructor; [apply H; lia|].
  apply IH. intros. apply H. lia.
Qed.

Lemma zseq_app i n m : zseq i (n + m) = zseq i n ++ zseq (i + Z.of_nat n) m.
Proof.
  revert i. induction n as [|n IH]; intros i; simpl; [by rewrite Z.add_0_r|].
  rewrite IH. do 2 f_equal. f_equal. lia.
Qed.

Lemma NoDup_zseq n : forall i, NoDup (zseq i n).
Proof.
  induction n as [|n IH]; intros i; cbn [zseq]; constructor; [|apply IH]. rewrite elem_of_zseq. lia.
Qed.

Lemma length_zseq i n : length (zseq i n) = n.
Proof. revert i. induction n; intros; simpl; auto. Qed.

Lemma pres_conj {S A} (I J : S -> Prop) (m : st S A) :
  pres I m -> pres J m -> pres (fun s => I s /\ J s) m.
Proof. intros HI HJ s []. split; auto. Qed.

Create HintDb pres discriminated.
#[export] Hint Constants Opaque : pres.
#[export] Hint Resolve pres_ret pres_gets : pres.

(** Decompose an invariant goal along the program's structure, leaving the
    primitive updates that no [pres] hint covers. *)
Ltac pres_step :=
  match goal with
  | |- pres _ (mbind _ _) => apply pres_bind; [|intro]
  | |- pres _ (if _ then _ else _) => apply pres_if
  | |- pres _ (when _ _) => apply pres_when
  | |- pres _ (match ?x with _ => _ end) => destruct x
  | |- pres _ (let _ := _ in _) => cbv zeta
  | |- pres _ _ => solve [eauto 2 with pres nocore]
  end.
Ltac pres_auto := repeat pres_step.

(** [keeps I m P]: from a state satisfying [I], [m] returns a value satisfying [P] and
    ends in a state satisfying [I]. *)
Definition keeps {S A} (I : S -> Prop) (m : st S A) (P : A -> Prop) : Prop :=
  forall s, I s -> P (run m s) /\ I (exec m s).

Section Keeps.
Context {S : Type} (I : S -> Prop).

Lemma keeps_ret {A} (a : A) (P : A -> Prop) : P a -> keeps I (mret a) P.
Proof. by intros ? s. Qed.

Lemma keeps_bind {A B} (m : st S A) (k : A -> st S B) (P : A -> Prop) (Q : B -> Prop) :
keeps I m P -> (forall a, P a -> keeps I (k a) Q) -> keeps I (m ≫= k) Q.
Proof.
intros Hm Hk s Hs. rewrite run_bind, exec_bind. destruct (Hm s Hs). by apply Hk.
Qed.

Lemma keeps_gets {A} (f : S -> A) (P : A -> Prop) : (forall s, I s -> P (f s)) -> keeps I (gets f) P.
Proof. intros Hf s Hs. split; [by apply Hf|done]. Qed.

Lemma keeps_modify f (P : unit -> Prop) : P tt -> (forall s, I s -> I (f s)) -> keeps I (modify f) P.
Proof. intros ? Hf s Hs. split; [done|by apply Hf]. Qed.

Lemma keeps_if {A} (b : bool) (m n : st S A) P : keeps I m P -> keeps I n P -> keeps I (if b then m else n) P.
Proof. by destruct b. Qed.

Lemma keeps_when b (m : st S unit) (P : unit -> Prop) : P tt -> keeps I m P -> keeps I (when b m) P.
Proof. intros. destruct b; [done|by apply keeps_ret]. Qed.

Lemma keeps_weaken {A} (m : st S A) (P Q : A -> Prop) : keeps I m P -> (forall a, P a -> Q a) -> keeps I m Q.
Proof. intros Hm HPQ s Hs. destruct (Hm s Hs). auto. Qed.

(** Looking at the state and going on from what was seen in it. *)
Lemma keeps_look {A B} (f : S -> A) (k : A -> st S B) (Q : B -> Prop) :
(forall s, I s -> Q (run (k (f s)) s) /\ I (exec (k (f s)) s)) -> keeps I (gets f ≫= k) Q.
Proof. intros H s Hs. rewrite run_bind, exec_bind, run_gets, exec_gets. by apply H. Qed.

Lemma keeps_pres {A} (m : st S A) (P : A -> Prop) : keeps I m P -> pres I m.
Proof. intros Hm s Hs. by apply Hm. Qed.

Lemma keeps_for (f : Z -> st S unit) n : forall i,
(forall k, i <= k < i + Z.of_nat n -> keeps I (f k) (fun _ => True)) -> keeps I (for_ n i f) (fun _ => True).
Proof.
induction n as [|n IH]; intros i H; [by apply keeps_ret|].
apply keeps_bind with (fun _ => True); [apply H; lia|]. intros _ _. apply IH. intros. apply H. lia.
Qed.
End Keeps.
