(* ===== verification/Decode.v ===== *)
(** * Instruction decoding ([src/decode.h])

    Field extraction, the five immediate formats, the opcode map and the CSR
    address map.  An instruction word is a [Z] in [[0, 2^32)]; the immediates
    are the signed [int32_t] values the C helpers return. *)

From S2P Require Import Prelude.

(** ** Instruction fields *)

(** [src/decode.h 35-35] opcode *)
Definition opcode (inst : Z) : Z := inst .& 0x7f.
(** [src/decode.h 36-36] rd *)
Definition rd (inst : Z) : Z := inst >> 7 .& 0x1f.
(** [src/decode.h 37-37] funct3 *)
Definition funct3 (inst : Z) : Z := inst >> 12 .& 0x07.
(** [src/decode.h 38-38] rs1 *)
Definition rs1 (inst : Z) : Z := inst >> 15 .& 0x1f.
(** [src/decode.h 39-39] rs2 *)
Definition rs2 (inst : Z) : Z := inst >> 20 .& 0x1f.
(** [src/decode.h 40-40] funct7 *)
Definition funct7 (inst : Z) : Z := inst >> 25 .& 0x7f.

(** ** Immediates *)

(** [src/decode.h 53-55] imm_i *)
Definition imm_i (inst : Z) : Z := s32 inst >> 20.

(** [src/decode.h 58-64] imm_s *)
Definition imm_s (inst : Z) : Z :=
  let imm := u32 ((inst >> 25 .& 0x7f) << 5) .| (inst >> 7 .& 0x1f) in
  let imm := if imm .& 0x800 =? 0 then imm else imm .| 0xfffff000 in
  s32 imm.

(** [src/decode.h 67-74] imm_b *)
Definition imm_b (inst : Z) : Z :=
  let imm := u32 ((inst >> 31 .& 0x1) << 12)
          .| u32 ((inst >> 7 .& 0x1) << 11)
          .| u32 ((inst >> 25 .& 0x3f) << 5)
          .| u32 ((inst >> 8 .& 0xf) << 1) in
  let imm := if imm .& 0x1000 =? 0 then imm else imm .| 0xffffe000 in
  s32 imm.

(** [src/decode.h 77-79] imm_u *)
Definition imm_u (inst : Z) : Z := s32 (inst .& 0xfffff000).

(** [src/decode.h 82-89] imm_j *)
Definition imm_j (inst : Z) : Z :=
  let imm := u32 ((inst >> 31 .& 0x1) << 20)
          .| u32 ((inst >> 12 .& 0xff) << 12)
          .| u32 ((inst >> 20 .& 0x1) << 11)
          .| u32 ((inst >> 21 .& 0x3ff) << 1) in
  let imm := if imm .& 0x100000 =? 0 then imm else imm .| 0xffe00000 in
  s32 imm.

(** ** Major opcodes *)

(** [src/decode.h 96-96] OP_LUI *)
Definition OP_LUI : Z := 0x37.
(** [src/decode.h 97-97] OP_AUIPC *)
Definition OP_AUIPC : Z := 0x17.
(** [src/decode.h 98-98] OP_JAL *)
Definition OP_JAL : Z := 0x6f.
(** [src/decode.h 99-99] OP_JALR *)
Definition OP_JALR : Z := 0x67.
(** [src/decode.h 100-100] OP_BRANCH *)
Definition OP_BRANCH : Z := 0x63.
(** [src/decode.h 101-101] OP_LOAD *)
Definition OP_LOAD : Z := 0x03.
(** [src/decode.h 102-102] OP_STORE *)
Definition OP_STORE : Z := 0x23.
(** [src/decode.h 103-103] OP_FENCE *)
Definition OP_FENCE : Z := 0x0f.
(** [src/decode.h 104-104] OP_IMM *)
Definition OP_IMM : Z := 0x13.
(** [src/decode.h 105-105] OP_IMM_32 *)
Definition OP_IMM_32 : Z := 0x1b.
(** [src/decode.h 106-106] OP_REG *)
Definition OP_REG : Z := 0x33.
(** [src/decode.h 107-107] OP_REG_32 *)
Definition OP_REG_32 : Z := 0x3b.
(** [src/decode.h 108-108] OP_AMO *)
Definition OP_AMO : Z := 0x2f.
(** [src/decode.h 109-109] OP_LOAD_FP *)
Definition OP_LOAD_FP : Z := 0x07.
(** [src/decode.h 110-110] OP_STORE_FP *)
Definition OP_STORE_FP : Z := 0x27.
(** [src/decode.h 111-111] OP_MADD *)
Definition OP_MADD : Z := 0x43.
(** [src/decode.h 112-112] OP_MSUB *)
Definition OP_MSUB : Z := 0x47.
(** [src/decode.h 113-113] OP_NMSUB *)
Definition OP_NMSUB : Z := 0x4b.
(** [src/decode.h 114-114] OP_NMADD *)
Definition OP_NMADD : Z := 0x4f.
(** [src/decode.h 115-115] OP_FP *)
Definition OP_FP : Z := 0x53.
(** [src/decode.h 116-116] OP_SYSTEM *)
Definition OP_SYSTEM : Z := 0x73.

(** ** CSR addresses *)

(** [src/decode.h 132-132] CSR_FFLAGS *)
Definition CSR_FFLAGS : Z := 0x001.
(** [src/decode.h 132-132] CSR_FRM *)
Definition CSR_FRM : Z := 0x002.
(** [src/decode.h 132-132] CSR_FCSR *)
Definition CSR_FCSR : Z := 0x003.
(** [src/decode.h 135-135] CSR_CYCLE *)
Definition CSR_CYCLE : Z := 0xc00.
(** [src/decode.h 135-135] CSR_TIME *)
Definition CSR_TIME : Z := 0xc01.
(** [src/decode.h 135-135] CSR_INSTRET *)
Definition CSR_INSTRET : Z := 0xc02.
(** [src/decode.h 136-136] CSR_CYCLEH *)
Definition CSR_CYCLEH : Z := 0xc80.
(** [src/decode.h 136-136] CSR_TIMEH *)
Definition CSR_TIMEH : Z := 0xc81.
(** [src/decode.h 136-136] CSR_INSTRETH *)
Definition CSR_INSTRETH : Z := 0xc82.
(** [src/decode.h 140-140] CSR_SSTATUS *)
Definition CSR_SSTATUS : Z := 0x100.
(** [src/decode.h 140-140] CSR_SIE *)
Definition CSR_SIE : Z := 0x104.
(** [src/decode.h 140-140] CSR_STVEC *)
Definition CSR_STVEC : Z := 0x105.
(** [src/decode.h 141-141] CSR_SCOUNTEREN *)
Definition CSR_SCOUNTEREN : Z := 0x106.
(** [src/decode.h 142-142] CSR_SSCRATCH *)
Definition CSR_SSCRATCH : Z := 0x140.
(** [src/decode.h 142-142] CSR_SEPC *)
Definition CSR_SEPC : Z := 0x141.
(** [src/decode.h 142-142] CSR_SCAUSE *)
Definition CSR_SCAUSE : Z := 0x142.
(** [src/decode.h 143-143] CSR_STVAL *)
Definition CSR_STVAL : Z := 0x143.
(** [src/decode.h 143-143] CSR_SIP *)
Definition CSR_SIP : Z := 0x144.
(** [src/decode.h 144-144] CSR_STIMECMP *)
Definition CSR_STIMECMP : Z := 0x14d.
(** [src/decode.h 144-144] CSR_STIMECMPH *)
Definition CSR_STIMECMPH : Z := 0x15d.
(** [src/decode.h 145-145] CSR_SATP *)
Definition CSR_SATP : Z := 0x180.
(** [src/decode.h 148-148] CSR_MVENDORID *)
Definition CSR_MVENDORID : Z := 0xf11.
(** [src/decode.h 148-148] CSR_MARCHID *)
Definition CSR_MARCHID : Z := 0xf12.
(** [src/decode.h 148-148] CSR_MIMPID *)
Definition CSR_MIMPID : Z := 0xf13.
(** [src/decode.h 149-149] CSR_MHARTID *)
Definition CSR_MHARTID : Z := 0xf14.
(** [src/decode.h 152-152] CSR_MSTATUS *)
Definition CSR_MSTATUS : Z := 0x300.
(** [src/decode.h 152-152] CSR_MISA *)
Definition CSR_MISA : Z := 0x301.
(** [src/decode.h 152-152] CSR_MEDELEG *)
Definition CSR_MEDELEG : Z := 0x302.
(** [src/decode.h 153-153] CSR_MIDELEG *)
Definition CSR_MIDELEG : Z := 0x303.
(** [src/decode.h 153-153] CSR_MIE *)
Definition CSR_MIE : Z := 0x304.
(** [src/decode.h 153-153] CSR_MTVEC *)
Definition CSR_MTVEC : Z := 0x305.
(** [src/decode.h 154-154] CSR_MCOUNTEREN *)
Definition CSR_MCOUNTEREN : Z := 0x306.
(** [src/decode.h 154-154] CSR_MSTATUSH *)
Definition CSR_MSTATUSH : Z := 0x310.
(** [src/decode.h 155-155] CSR_MENVCFG *)
Definition CSR_MENVCFG : Z := 0x30a.
(** [src/decode.h 155-155] CSR_MENVCFGH *)
Definition CSR_MENVCFGH : Z := 0x31a.
(** [src/decode.h 156-156] CSR_MSCRATCH *)
Definition CSR_MSCRATCH : Z := 0x340.
(** [src/decode.h 156-156] CSR_MEPC *)
Definition CSR_MEPC : Z := 0x341.
(** [src/decode.h 156-156] CSR_MCAUSE *)
Definition CSR_MCAUSE : Z := 0x342.
(** [src/decode.h 157-157] CSR_MTVAL *)
Definition CSR_MTVAL : Z := 0x343.
(** [src/decode.h 157-157] CSR_MIP *)
Definition CSR_MIP : Z := 0x344.
(** [src/decode.h 162-162] CSR_STOPI *)
Definition CSR_STOPI : Z := 0xdb0.
(** [src/decode.h 162-162] CSR_MTOPI *)
Definition CSR_MTOPI : Z := 0xfb0.

(** ** Decoding lemmas *)

(** The "place the sign bits, then cast" idiom of the S, B and J immediates is
    the two's-complement reading of the low [n] bits. *)
Lemma sign_place n imm :
  0 < n < 32 -> rng n imm ->
  s32 (if imm .& 2 ^ (n - 1) =? 0 then imm else imm .| (Z.ones (32 - n) << n)) = sgn n imm.
Proof.
  intros Hn Hr. apply Z.bits_inj'. intros i Hi.
  assert ((imm .& 2 ^ (n - 1) =? 0) = negb (Z.testbit imm (n - 1))) as ->.
  { destruct (Z.testbit imm (n - 1)) eqn:E.
    - apply Z.eqb_neq. intros H0. apply (f_equal (fun z => Z.testbit z (n - 1))) in H0.
      by rewrite Z.land_spec, pow2_testbit, E, Z.eqb_refl, Z.bits_0 in H0 by lia.
    - apply Z.eqb_eq. zbits. by subst. }
  destruct (Z.testbit imm (n - 1)) eqn:E; simpl.
  - zbit_eq. all: by rewrite E, ?orb_true_r.
  - zbit_eq; by rewrite E.
Qed.

Lemma field_rng inst n w : 0 <= w -> rng w (inst >> n .& Z.ones w).
Proof. intros. rewrite Z.land_ones by lia. apply Z.mod_pos_bound. lia. Qed.

Lemma rd_rng inst : rng 5 (rd inst).
Proof. by apply (field_rng inst 7 5). Qed.
Lemma rs1_rng inst : rng 5 (rs1 inst).
Proof. by apply (field_rng inst 15 5). Qed.
Lemma rs2_rng inst : rng 5 (rs2 inst).
Proof. by apply (field_rng inst 20 5). Qed.
Lemma funct3_rng inst : rng 3 (funct3 inst).
Proof. by apply (field_rng inst 12 3). Qed.
