(* ===== verification/Rvc.v ===== *)
(** * The compressed-instruction expander ([src/rvc.c])

    [rvc_expand] widens a 16-bit RVC halfword to the 32-bit word it
    abbreviates.  The section [Spec] states the RVC encoding tables of the ISA
    manual as bit permutations and instruction forms; the refinement theorem
    relates the expansion, read back through [Decode], to those tables. *)

From S2P Require Import Prelude Decode.

(** ** Bit helpers *)

(** [src/rvc.c 13-13] BIT *)
Definition BIT (c n : Z) : Z := c >> n .& 1.
(** [src/rvc.c 14-14] BITS *)
Definition BITS (c hi lo : Z) : Z := c >> lo .& (u32 (1 << (hi - lo + 1)) - 1).

(** [src/rvc.c 17-20] sext *)
Definition sext (v bits : Z) : Z :=
  let m := u32 (1 << (bits - 1)) in u32 ((v .^ m) - m).

(** [src/rvc.c 24-24] OPC_LOAD *)
Definition OPC_LOAD : Z := 0x03.
(** [src/rvc.c 24-24] OPC_IMM *)
Definition OPC_IMM : Z := 0x13.
(** [src/rvc.c 24-24] OPC_STORE *)
Definition OPC_STORE : Z := 0x23.
(** [src/rvc.c 24-24] OPC_OP *)
Definition OPC_OP : Z := 0x33.
(** [src/rvc.c 25-25] OPC_LUI *)
Definition OPC_LUI : Z := 0x37.
(** [src/rvc.c 25-25] OPC_BRANCH *)
Definition OPC_BRANCH : Z := 0x63.
(** [src/rvc.c 25-25] OPC_JALR *)
Definition OPC_JALR : Z := 0x67.
(** [src/rvc.c 25-25] OPC_JAL *)
Definition OPC_JAL : Z := 0x6f.
(** [src/rvc.c 26-26] OPC_SYSTEM *)
Definition OPC_SYSTEM : Z := 0x73.
(** [src/rvc.c 27-27] OPC_IMM_32 *)
Definition OPC_IMM_32 : Z := 0x1b.
(** [src/rvc.c 27-27] OPC_OP_32 *)
Definition OPC_OP_32 : Z := 0x3b.
(** [src/rvc.c 28-28] OPC_LOAD_FP *)
Definition OPC_LOAD_FP : Z := 0x07.
(** [src/rvc.c 28-28] OPC_STORE_FP *)
Definition OPC_STORE_FP : Z := 0x27.
(** [src/rvc.h 27-27] RVC_ILLEGAL *)
Definition RVC_ILLEGAL : Z := 0.

(** ** 32-bit format builders *)

(** [src/rvc.c 32-35] r_type *)
Definition r_type (f7 rs2 rs1 f3 rd op : Z) : Z :=
  u32 (f7 << 25) .| u32 (rs2 << 20) .| u32 (rs1 << 15) .| u32 (f3 << 12) .| u32 (rd << 7) .| op.
(** [src/rvc.c 36-39] i_type *)
Definition i_type (imm rs1 f3 rd op : Z) : Z :=
  u32 ((imm .& 0xfff) << 20) .| u32 (rs1 << 15) .| u32 (f3 << 12) .| u32 (rd << 7) .| op.
(** [src/rvc.c 40-44] s_type *)
Definition s_type (imm rs2 rs1 f3 op : Z) : Z :=
  u32 ((imm >> 5 .& 0x7f) << 25) .| u32 (rs2 << 20) .| u32 (rs1 << 15) .|
  u32 (f3 << 12) .| u32 ((imm .& 0x1f) << 7) .| op.
(** [src/rvc.c 45-50] b_type *)
Definition b_type (imm rs2 rs1 f3 op : Z) : Z :=
  u32 ((imm >> 12 .& 1) << 31) .| u32 ((imm >> 5 .& 0x3f) << 25) .|
  u32 (rs2 << 20) .| u32 (rs1 << 15) .| u32 (f3 << 12) .|
  u32 ((imm >> 1 .& 0xf) << 8) .| u32 ((imm >> 11 .& 1) << 7) .| op.
(** [src/rvc.c 51-53] u_type *)
Definition u_type (imm20 rd op : Z) : Z :=
  u32 ((imm20 .& 0xfffff) << 12) .| u32 (rd << 7) .| op.
(** [src/rvc.c 54-58] j_type *)
Definition j_type (imm rd op : Z) : Z :=
  u32 ((imm >> 20 .& 1) << 31) .| u32 ((imm >> 1 .& 0x3ff) << 21) .|
  u32 ((imm >> 11 .& 1) << 20) .| u32 ((imm >> 12 .& 0xff) << 12) .|
  u32 (rd << 7) .| op.

(** [src/rvc.c 61-61] rdp *)
Definition rdp (c : Z) : Z := BITS c 4 2 + 8.
(** [src/rvc.c 62-62] rs1p *)
Definition rs1p (c : Z) : Z := BITS c 9 7 + 8.

(** ** The three quadrants *)

(** [src/rvc.c 66-105] expand_q0 *)
Definition expand_q0 (c : Z) (rv64 : bool) : Z :=
  let f := BITS c 15 13 in
  if f =? 0 then
    let imm := (BITS c 12 11 << 4) .| (BITS c 10 7 << 6) .| (BIT c 6 << 2) .| (BIT c 5 << 3) in
    if imm =? 0 then RVC_ILLEGAL else i_type imm 2 0x0 (rdp c) OPC_IMM
  else if f =? 1 then
    let imm := (BITS c 12 10 << 3) .| (BITS c 6 5 << 6) in
    i_type imm (rs1p c) 0x3 (rdp c) OPC_LOAD_FP
  else if f =? 2 then
    let imm := (BITS c 12 10 << 3) .| (BIT c 6 << 2) .| (BIT c 5 << 6) in
    i_type imm (rs1p c) 0x2 (rdp c) OPC_LOAD
  else if f =? 3 then
    if rv64 then
      let imm := (BITS c 12 10 << 3) .| (BITS c 6 5 << 6) in
      i_type imm (rs1p c) 0x3 (rdp c) OPC_LOAD
    else
      let imm := (BITS c 12 10 << 3) .| (BIT c 6 << 2) .| (BIT c 5 << 6) in
      i_type imm (rs1p c) 0x2 (rdp c) OPC_LOAD_FP
  else if f =? 5 then
    let imm := (BITS c 12 10 << 3) .| (BITS c 6 5 << 6) in
    s_type imm (rdp c) (rs1p c) 0x3 OPC_STORE_FP
  else if f =? 6 then
    let imm := (BITS c 12 10 << 3) .| (BIT c 6 << 2) .| (BIT c 5 << 6) in
    s_type imm (rdp c) (rs1p c) 0x2 OPC_STORE
  else if f =? 7 then
    if rv64 then
      let imm := (BITS c 12 10 << 3) .| (BITS c 6 5 << 6) in
      s_type imm (rdp c) (rs1p c) 0x3 OPC_STORE
    else
      let imm := (BITS c 12 10 << 3) .| (BIT c 6 << 2) .| (BIT c 5 << 6) in
      s_type imm (rdp c) (rs1p c) 0x2 OPC_STORE_FP
  else RVC_ILLEGAL.

(** [src/rvc.c 110-196] expand_q1 *)
Definition expand_q1 (c : Z) (rv64 : bool) : Z :=
  let rd := BITS c 11 7 in
  let f := BITS c 15 13 in
  if f =? 0 then
    let imm := sext ((BIT c 12 << 5) .| BITS c 6 2) 6 in
    i_type imm rd 0x0 rd OPC_IMM
  else if f =? 1 then
    if rv64 then
      if rd =? 0 then RVC_ILLEGAL else
      let imm := sext ((BIT c 12 << 5) .| BITS c 6 2) 6 in
      i_type imm rd 0x0 rd OPC_IMM_32
    else
      let imm := sext ((BIT c 12 << 11) .| (BIT c 11 << 4) .|
                       (BITS c 10 9 << 8) .| (BIT c 8 << 10) .|
                       (BIT c 7 << 6) .| (BIT c 6 << 7) .|
                       (BITS c 5 3 << 1) .| (BIT c 2 << 5)) 12 in
      j_type imm 1 OPC_JAL
  else if f =? 2 then
    let imm := sext ((BIT c 12 << 5) .| BITS c 6 2) 6 in
    i_type imm 0 0x0 rd OPC_IMM
  else if f =? 3 then
    if rd =? 2 then
      let imm := sext ((BIT c 12 << 9) .| (BITS c 4 3 << 7) .|
                       (BIT c 5 << 6) .| (BIT c 2 << 5) .| (BIT c 6 << 4)) 10 in
      if imm =? 0 then RVC_ILLEGAL else i_type imm 2 0x0 2 OPC_IMM
    else
      let imm := sext ((BIT c 12 << 5) .| BITS c 6 2) 6 in
      if imm =? 0 then RVC_ILLEGAL else u_type imm rd OPC_LUI
  else if f =? 4 then
    let rp := rs1p c in
    let shamt := (BIT c 12 << 5) .| BITS c 6 2 in
    let g := BITS c 11 10 in
    if g =? 0 then
      if negb rv64 && negb (BIT c 12 =? 0) then RVC_ILLEGAL
      else i_type shamt rp 0x5 rp OPC_IMM
    else if g =? 1 then
      if negb rv64 && negb (BIT c 12 =? 0) then RVC_ILLEGAL
      else i_type (0x400 .| (shamt .& 0x3f)) rp 0x5 rp OPC_IMM
    else if g =? 2 then
      let imm := sext ((BIT c 12 << 5) .| BITS c 6 2) 6 in
      i_type imm rp 0x7 rp OPC_IMM
    else
      let rs2 := rdp c in
      let h := BITS c 6 5 in
      if negb (BIT c 12 =? 0) then
        if negb rv64 then RVC_ILLEGAL
        else if h =? 0 then r_type 0x20 rs2 rp 0x0 rp OPC_OP_32
        else if h =? 1 then r_type 0x00 rs2 rp 0x0 rp OPC_OP_32
        else RVC_ILLEGAL
      else if h =? 0 then r_type 0x20 rs2 rp 0x0 rp OPC_OP
      else if h =? 1 then r_type 0x00 rs2 rp 0x4 rp OPC_OP
      else if h =? 2 then r_type 0x00 rs2 rp 0x6 rp OPC_OP
      else r_type 0x00 rs2 rp 0x7 rp OPC_OP
  else if f =? 5 then
    let imm := sext ((BIT c 12 << 11) .| (BIT c 11 << 4) .|
                     (BITS c 10 9 << 8) .| (BIT c 8 << 10) .|
                     (BIT c 7 << 6) .| (BIT c 6 << 7) .|
                     (BITS c 5 3 << 1) .| (BIT c 2 << 5)) 12 in
    j_type imm 0 OPC_JAL
  else if (f =? 6) || (f =? 7) then
    let imm := sext ((BIT c 12 << 8) .| (BITS c 6 5 << 6) .|
                     (BIT c 2 << 5) .| (BITS c 11 10 << 3) .| (BITS c 4 3 << 1)) 9 in
    let f3 := if f =? 6 then 0x0 else 0x1 in
    b_type imm 0 (rs1p c) f3 OPC_BRANCH
  else RVC_ILLEGAL.

(** [src/rvc.c 200-256] expand_q2 *)
Definition expand_q2 (c : Z) (rv64 : bool) : Z :=
  let rd := BITS c 11 7 in
  let rs2 := BITS c 6 2 in
  let f := BITS c 15 13 in
  if f =? 0 then
    if negb rv64 && negb (BIT c 12 =? 0) then RVC_ILLEGAL else
    let shamt := (BIT c 12 << 5) .| rs2 in
    i_type shamt rd 0x1 rd OPC_IMM
  else if f =? 1 then
    let imm := (BIT c 12 << 5) .| (BITS c 6 5 << 3) .| (BITS c 4 2 << 6) in
    i_type imm 2 0x3 rd OPC_LOAD_FP
  else if f =? 2 then
    if rd =? 0 then RVC_ILLEGAL else
    let imm := (BIT c 12 << 5) .| (BITS c 6 4 << 2) .| (BITS c 3 2 << 6) in
    i_type imm 2 0x2 rd OPC_LOAD
  else if f =? 3 then
    if rv64 then
      if rd =? 0 then RVC_ILLEGAL else
      let imm := (BIT c 12 << 5) .| (BITS c 6 5 << 3) .| (BITS c 4 2 << 6) in
      i_type imm 2 0x3 rd OPC_LOAD
    else
      let imm := (BIT c 12 << 5) .| (BITS c 6 4 << 2) .| (BITS c 3 2 << 6) in
      i_type imm 2 0x2 rd OPC_LOAD_FP
  else if f =? 4 then
    if BIT c 12 =? 0 then
      if rs2 =? 0 then
        if rd =? 0 then RVC_ILLEGAL else i_type 0 rd 0x0 0 OPC_JALR
      else r_type 0x00 rs2 0 0x0 rd OPC_OP
    else
      if (rd =? 0) && (rs2 =? 0) then i_type 1 0 0x0 0 OPC_SYSTEM
      else if rs2 =? 0 then i_type 0 rd 0x0 1 OPC_JALR
      else r_type 0x00 rs2 rd 0x0 rd OPC_OP
  else if f =? 5 then
    let imm := (BITS c 12 10 << 3) .| (BITS c 9 7 << 6) in
    s_type imm rs2 2 0x3 OPC_STORE_FP
  else if f =? 6 then
    let imm := (BITS c 12 9 << 2) .| (BITS c 8 7 << 6) in
    s_type imm rs2 2 0x2 OPC_STORE
  else if f =? 7 then
    if rv64 then
      let imm := (BITS c 12 10 << 3) .| (BITS c 9 7 << 6) in
      s_type imm rs2 2 0x3 OPC_STORE
    else
      let imm := (BITS c 12 9 << 2) .| (BITS c 8 7 << 6) in
      s_type imm rs2 2 0x2 OPC_STORE_FP
  else RVC_ILLEGAL.

(** [src/rvc.c 258-265] rvc_expand *)
Definition rvc_expand (c : Z) (rv64 : bool) : Z :=
  let q := c .& 0x3 in
  if q =? 0 then expand_q0 c rv64
  else if q =? 1 then expand_q1 c rv64
  else if q =? 2 then expand_q2 c rv64
  else RVC_ILLEGAL.

(** ** The encoding tables of the ISA manual *)

Module Spec.
(** The base instructions an RVC form stands for: a mnemonic with its
  operands, registers first (destination, then sources) and the immediate
  last; unused operands are 0. *)
Inductive mnem :=
| ADDI | ADDIW | ANDI | SLLI | SRLI | SRAI | LUI | JAL | JALR | BEQ | BNE
| LW | LD | FLW | FLD | SW | SD | FSW | FSD
| ADD | SUB | XOR | OR | AND | ADDW | SUBW | EBREAK.

Scheme Boolean Equality for mnem.

Record insn := mk { op : mnem; x : Z; y : Z; z : Z }.

(** Reading of a 32-bit word through the field extractors of [Decode]. *)
Definition iform (m : mnem) (w : Z) : option insn := Some (mk m (rd w) (rs1 w) (imm_i w)).
Definition shform (m : mnem) (w : Z) : option insn :=
Some (mk m (rd w) (rs1 w) (imm_i w .& 0x3f)).
Definition sform (m : mnem) (w : Z) : option insn := Some (mk m (rs2 w) (rs1 w) (imm_s w)).
Definition bform (m : mnem) (w : Z) : option insn := Some (mk m (rs1 w) (rs2 w) (imm_b w)).
Definition rform (m : mnem) (w : Z) : option insn := Some (mk m (rd w) (rs1 w) (rs2 w)).

Definition decode_op (w : Z) : option insn :=
match opcode w, funct7 w, funct3 w with
| 0x33, 0, 0 => rform ADD w
| 0x33, 0x20, 0 => rform SUB w
| 0x33, 0, 4 => rform XOR w
| 0x33, 0, 6 => rform OR w
| 0x33, 0, 7 => rform AND w
| 0x3b, 0, 0 => rform ADDW w
| 0x3b, 0x20, 0 => rform SUBW w
| _, _, _ => None
end.

Definition decode (w : Z) : option insn :=
match opcode w, funct3 w with
| 0x13, 0 => iform ADDI w
| 0x13, 7 => iform ANDI w
| 0x13, 1 => if w >> 26 =? 0 then shform SLLI w else None
| 0x13, 5 => if w >> 26 =? 0 then shform SRLI w
             else if w >> 26 =? 0x10 then shform SRAI w else None
| 0x1b, 0 => iform ADDIW w
| 0x37, _ => Some (mk LUI (rd w) 0 (imm_u w))
| 0x6f, _ => Some (mk JAL (rd w) 0 (imm_j w))
| 0x67, 0 => iform JALR w
| 0x63, 0 => bform BEQ w
| 0x63, 1 => bform BNE w
| 0x03, 2 => iform LW w
| 0x03, 3 => iform LD w
| 0x07, 2 => iform FLW w
| 0x07, 3 => iform FLD w
| 0x23, 2 => sform SW w
| 0x23, 3 => sform SD w
| 0x27, 2 => sform FSW w
| 0x27, 3 => sform FSD w
| 0x73, 0 => if w =? 0x00100073 then Some (mk EBREAK 0 0 0) else None
| _, _ => decode_op w
end.

(** [scatter c n ps]: the manual's immediate notation.  Bit [n] of [c] goes to
  the first position of [ps], bit [n-1] to the second, and so on. *)
Fixpoint scatter (c n : Z) (ps : list Z) : Z :=
match ps with
| [] => 0
| p :: ps => if Z.testbit c n then 1 << p .| scatter c (n - 1) ps else scatter c (n - 1) ps
end.

(** A one-bit field at 12 followed by the fields from bit 6 down. *)
Definition ci (c p : Z) (ps : list Z) : Z := scatter c 12 [p] + scatter c 6 ps.

Definition reg (c hi : Z) : Z := scatter c hi [4; 3; 2; 1; 0].
Definition reg' (c hi : Z) : Z := 8 + scatter c hi [2; 1; 0].
Definition fct (c : Z) : Z := scatter c 15 [2; 1; 0].
Definition guard {A} (b : bool) (i : A) : option A := if b then Some i else None.

Definition imm6 (c : Z) : Z := ci c 5 [4; 3; 2; 1; 0].
Definition off_w (c : Z) : Z := scatter c 12 [5; 4; 3] + scatter c 6 [2; 6].
Definition off_d (c : Z) : Z := scatter c 12 [5; 4; 3] + scatter c 6 [7; 6].
Definition off_j (c : Z) : Z := sgn 12 (scatter c 12 [11; 4; 9; 8; 10; 6; 7; 3; 2; 1; 5]).
Definition off_b (c : Z) : Z := sgn 9 (scatter c 12 [8; 4; 3] + scatter c 6 [7; 6; 2; 1; 5]).
Definition off_lwsp (c : Z) : Z := ci c 5 [4; 3; 2; 7; 6].
Definition off_ldsp (c : Z) : Z := ci c 5 [4; 3; 8; 7; 6].
Definition off_swsp (c : Z) : Z := scatter c 12 [5; 4; 3; 2; 7; 6].
Definition off_sdsp (c : Z) : Z := scatter c 12 [5; 4; 3; 8; 7; 6].

Definition q0 (c : Z) (rv64 : bool) : option insn :=
let d := reg' c 4 in let a := reg' c 9 in
match fct c with
| 0 => let imm := scatter c 12 [5; 4; 9; 8; 7; 6; 2; 3] in
       guard (negb (imm =? 0)) (mk ADDI d 2 imm)
| 1 => Some (mk FLD d a (off_d c))
| 2 => Some (mk LW d a (off_w c))
| 3 => Some (if rv64 then mk LD d a (off_d c) else mk FLW d a (off_w c))
| 5 => Some (mk FSD d a (off_d c))
| 6 => Some (mk SW d a (off_w c))
| 7 => Some (if rv64 then mk SD d a (off_d c) else mk FSW d a (off_w c))
| _ => None
end.

Definition alu (c : Z) (rv64 : bool) : option insn :=
let r := reg' c 9 in let b := reg' c 4 in
let hi := Z.testbit c 12 in
match scatter c 11 [1; 0] with
| 0 => guard (rv64 || negb hi) (mk SRLI r r (imm6 c))
| 1 => guard (rv64 || negb hi) (mk SRAI r r (imm6 c))
| 2 => Some (mk ANDI r r (sgn 6 (imm6 c)))
| _ => match hi, scatter c 6 [1; 0] with
       | false, 0 => Some (mk SUB r r b)
       | false, 1 => Some (mk XOR r r b)
       | false, 2 => Some (mk OR r r b)
       | false, _ => Some (mk AND r r b)
       | true, 0 => guard rv64 (mk SUBW r r b)
       | true, 1 => guard rv64 (mk ADDW r r b)
       | true, _ => None
       end
end.

Definition q1 (c : Z) (rv64 : bool) : option insn :=
let d := reg c 11 in
match fct c with
| 0 => Some (mk ADDI d d (sgn 6 (imm6 c)))
| 1 => if rv64 then guard (negb (d =? 0)) (mk ADDIW d d (sgn 6 (imm6 c)))
       else Some (mk JAL 1 0 (off_j c))
| 2 => Some (mk ADDI d 0 (sgn 6 (imm6 c)))
| 3 => if d =? 2 then
         let imm := sgn 10 (ci c 9 [4; 6; 8; 7; 5]) in
         guard (negb (imm =? 0)) (mk ADDI 2 2 imm)
       else guard (negb (imm6 c =? 0)) (mk LUI d 0 (sgn 6 (imm6 c) << 12))
| 4 => alu c rv64
| 5 => Some (mk JAL 0 0 (off_j c))
| 6 => Some (mk BEQ (reg' c 9) 0 (off_b c))
| _ => Some (mk BNE (reg' c 9) 0 (off_b c))
end.

Definition q2 (c : Z) (rv64 : bool) : option insn :=
let d := reg c 11 in let b := reg c 6 in
let hi := Z.testbit c 12 in
match fct c with
| 0 => guard (rv64 || negb hi) (mk SLLI d d (imm6 c))
| 1 => Some (mk FLD d 2 (off_ldsp c))
| 2 => guard (negb (d =? 0)) (mk LW d 2 (off_lwsp c))
| 3 => if rv64 then guard (negb (d =? 0)) (mk LD d 2 (off_ldsp c))
       else Some (mk FLW d 2 (off_lwsp c))
| 4 => match hi with
       | false => if b =? 0 then guard (negb (d =? 0)) (mk JALR 0 d 0)
                  else Some (mk ADD d 0 b)
       | true => if b =? 0 then Some (if d =? 0 then mk EBREAK 0 0 0 else mk JALR 1 d 0)
                 else Some (mk ADD d d b)
       end
| 5 => Some (mk FSD b 2 (off_sdsp c))
| 6 => Some (mk SW b 2 (off_swsp c))
| _ => Some (if rv64 then mk SD b 2 (off_sdsp c) else mk FSW b 2 (off_swsp c))
end.

Definition expand (c : Z) (rv64 : bool) : option insn :=
match c .& 3 with
| 0 => q0 c rv64
| 1 => q1 c rv64
| 2 => q2 c rv64
| _ => None
end.

Definition insn_eqb (i j : insn) : bool :=
mnem_beq (op i) (op j) && (x i =? x j) && (y i =? y j) && (z i =? z j).

Lemma insn_eqb_eq i j : insn_eqb i j = true -> i = j.
Proof.
unfold insn_eqb. rewrite !andb_true_iff, !Z.eqb_eq. intros [[[Hm ?] ?] ?].
destruct i as [m ???], j as [n ???]; simpl in *.
assert (m = n) by (destruct m, n; done). congruence.
Qed.
End Spec.

(** The boolean form of the refinement statement, one halfword at a time. *)
Definition expand_ok (rv64 : bool) (c : Z) : bool :=
  let w := rvc_expand c rv64 in
  match Spec.expand c rv64 with
  | None => w =? RVC_ILLEGAL
  | Some i => (0 <=? w) && (w <? 0x100000000) && (w .& 3 =? 3) &&
              match Spec.decode w with Some j => Spec.insn_eqb j i | None => false end
  end.

(** [below n p]: [p] holds of every integer in [[0, 2^n)], by bisection. *)
Fixpoint below (n : nat) (p : Z -> bool) : bool :=
  match n with
  | O => p 0
  | S n => below n (fun z => p (2 * z) && p (2 * z + 1))
  end.

Lemma below_spec n p : below n p = true -> forall z, 0 <= z < 2 ^ Z.of_nat n -> p z = true.
Proof.
  revert p. induction n as [|n IH]; intros p H z Hz.
  - by replace z with 0 by lia.
  - rewrite Nat2Z.inj_succ, Z.pow_succ_r in Hz by lia.
    specialize (IH _ H (z / 2) ltac:(split; [apply Z.div_pos|apply Z.div_lt_upper_bound]; lia)).
    apply andb_true_iff in IH as [H0 H1].
    pose proof (Z.div_mod z 2 ltac:(lia)). pose proof (Z.mod_pos_bound z 2 ltac:(lia)).
    assert (z mod 2 = 0 \/ z mod 2 = 1) as [E|E] by lia.
    + by replace z with (2 * (z / 2)) by lia.
    + by replace z with (2 * (z / 2) + 1) by lia.
Qed.

Lemma expand_ok_all rv64 : below 16 (expand_ok rv64) = true.
Proof. destruct rv64; vm_compute; reflexivity. Qed.

Lemma rvc_expand_rng c rv64 : rng 16 c -> rng 32 (rvc_expand c rv64).
Proof.
  intros Hc. pose proof (below_spec 16 _ (expand_ok_all rv64) c Hc) as H. unfold expand_ok in H. cbv zeta in H.
  destruct (Spec.expand c rv64).
  - rewrite !andb_true_iff, Z.leb_le, Z.ltb_lt in H. unfold rng. lia.
  - apply Z.eqb_eq in H as ->. by apply rng_const.
Qed.

(** ** Properties *)

Section Formats.
Context (imm rs2_ rs1_ f3 f7 rd_ op : Z).
Context (Hrs2 : rng 5 rs2_) (Hrs1 : rng 5 rs1_) (Hf3 : rng 3 f3) (Hf7 : rng 7 f7)
      (Hrd : rng 5 rd_) (Hop : rng 7 op).

Ltac fields :=
unfold opcode, rd, funct3, rs1, rs2, funct7, r_type, i_type, s_type, b_type, u_type, j_type,
  imm_i, imm_s, imm_b, imm_u, imm_j.

(** An S, B or J immediate whose [n] bits are those of [imm]. *)
Lemma imm_field n x :
0 < n < 32 -> x = wrap n imm ->
s32 (if x .& 2 ^ (n - 1) =? 0 then x else x .| (Z.ones (32 - n) << n)) = sgn n imm.
Proof.
intros Hn ->. rewrite sign_place by (lia || (apply wrap_range; lia)).
apply sgn_wrap. lia.
Qed.

Lemma i_type_imm : imm_i (i_type imm rs1_ f3 rd_ op) = sgn 12 imm.
Proof. fields. zbits. Qed.

Lemma s_type_imm : imm_s (s_type imm rs2_ rs1_ f3 op) = sgn 12 imm.
Proof. fields. apply (imm_field 12); [done|]. zbits. Qed.

Lemma even_bit0 i : Z.even imm = true -> i = 0 -> Z.testbit imm i = false.
Proof. intros He ->. by rewrite Z.bit0_odd, <- Z.negb_even, He. Qed.

Lemma b_type_imm : Z.even imm = true -> imm_b (b_type imm rs2_ rs1_ f3 op) = sgn 13 imm.
Proof.
fields. intros He. apply (imm_field 13); [done|]. zbits.
symmetry. apply even_bit0; [done|lia].
Qed.

Lemma u_type_imm : imm_u (u_type imm rd_ op) = sgn 20 imm << 12.
Proof. fields. zbits. Qed.

Lemma j_type_imm : Z.even imm = true -> imm_j (j_type imm rd_ op) = sgn 21 imm.
Proof.
fields. intros He. apply (imm_field 21); [done|]. zbits.
symmetry. apply even_bit0; [done|lia].
Qed.

Lemma i_type_fields :
let w := i_type imm rs1_ f3 rd_ op in
opcode w = op /\ rd w = rd_ /\ funct3 w = f3 /\ rs1 w = rs1_.
Proof. fields. repeat split; zbits. Qed.

Lemma s_type_fields :
let w := s_type imm rs2_ rs1_ f3 op in
opcode w = op /\ rs2 w = rs2_ /\ funct3 w = f3 /\ rs1 w = rs1_.
Proof. fields. repeat split; zbits. Qed.

Lemma b_type_fields :
let w := b_type imm rs2_ rs1_ f3 op in
opcode w = op /\ rs2 w = rs2_ /\ funct3 w = f3 /\ rs1 w = rs1_.
Proof. fields. repeat split; zbits. Qed.

Lemma u_type_fields : let w := u_type imm rd_ op in opcode w = op /\ rd w = rd_.
Proof. fields. repeat split; zbits. Qed.

Lemma j_type_fields : let w := j_type imm rd_ op in opcode w = op /\ rd w = rd_.
Proof. fields. repeat split; zbits. Qed.

Lemma r_type_fields :
let w := r_type f7 rs2_ rs1_ f3 rd_ op in
opcode w = op /\ rd w = rd_ /\ funct3 w = f3 /\ rs1 w = rs1_ /\ rs2 w = rs2_ /\ funct7 w = f7.
Proof. fields. repeat split; zbits. Qed.
End Formats.

(** C1 [rvc_refines]: for every 16-bit halfword, on RV32 and on RV64, the expander
    agrees with the encoding tables of the ISA manual: a reserved encoding gives
    the sentinel, and a legal one gives a 32-bit word (low bits [0b11]) that
    decodes to the instruction, registers and immediate the table lists. *)
Theorem rvc_expand_refines c rv64 : 0 <= c < 2 ^ 16 ->
  match Spec.expand c rv64 with
  | None => rvc_expand c rv64 = RVC_ILLEGAL
  | Some i => rng 32 (rvc_expand c rv64) /\ rvc_expand c rv64 .& 3 = 3 /\
              Spec.decode (rvc_expand c rv64) = Some i
  end.
Proof.
  intros Hc. pose proof (below_spec 16 _ (expand_ok_all rv64) c Hc) as H.
  unfold expand_ok in H. destruct (Spec.expand c rv64) as [i|]; [|by apply Z.eqb_eq].
  destruct (Spec.decode _) as [j|]; [|by rewrite andb_false_r in H].
  rewrite !andb_true_iff, Z.leb_le, Z.ltb_lt, Z.eqb_eq in H.
  destruct H as [[[? ?] ?] ->%Spec.insn_eqb_eq]. by repeat split.
Qed.

(** [c.addi16sp -64] (0x7139) on RV64. *)
Lemma rvc_expand_refines_witness :
  Spec.decode (rvc_expand 0x7139 true) = Some (Spec.mk Spec.ADDI 2 2 (-64)).
Proof. apply (rvc_expand_refines 0x7139 true). vm_compute. split; [discriminate|reflexivity]. Defined.

(** C4 [format_roundtrip]: the field extractors of [decode.h] invert the format
    builders of [rvc.c]: every field of the I, S, B, U, J and R formats reads back
    as it was written, and each scrambled immediate reads back as the
    two's-complement value of its width (branch and jump offsets being even). *)
Theorem format_roundtrip imm rs2_ rs1_ f3 f7 rd_ op :
  rng 5 rs2_ -> rng 5 rs1_ -> rng 3 f3 -> rng 7 f7 -> rng 5 rd_ -> rng 7 op ->
  (let w := i_type imm rs1_ f3 rd_ op in
   opcode w = op /\ rd w = rd_ /\ funct3 w = f3 /\ rs1 w = rs1_ /\ imm_i w = sgn 12 imm) /\
  (let w := s_type imm rs2_ rs1_ f3 op in
   opcode w = op /\ rs2 w = rs2_ /\ funct3 w = f3 /\ rs1 w = rs1_ /\ imm_s w = sgn 12 imm) /\
  (let w := b_type imm rs2_ rs1_ f3 op in
   opcode w = op /\ rs2 w = rs2_ /\ funct3 w = f3 /\ rs1 w = rs1_ /\
   (Z.even imm = true -> imm_b w = sgn 13 imm)) /\
  (let w := u_type imm rd_ op in opcode w = op /\ rd w = rd_ /\ imm_u w = sgn 20 imm << 12) /\
  (let w := j_type imm rd_ op in
   opcode w = op /\ rd w = rd_ /\ (Z.even imm = true -> imm_j w = sgn 21 imm)) /\
  (let w := r_type f7 rs2_ rs1_ f3 rd_ op in
   opcode w = op /\ rd w = rd_ /\ funct3 w = f3 /\ rs1 w = rs1_ /\ rs2 w = rs2_ /\ funct7 w = f7).
Proof.
  intros Hb Ha H3 H7 Hd Ho. cbv zeta.
  pose proof (i_type_fields imm rs1_ f3 rd_ op Ha H3 Hd Ho).
  pose proof (s_type_fields imm rs2_ rs1_ f3 op Hb Ha H3 Ho).
  pose proof (b_type_fields imm rs2_ rs1_ f3 op Hb Ha H3 Ho).
  pose proof (u_type_fields imm rd_ op Hd Ho). pose proof (j_type_fields imm rd_ op Hd Ho).
  pose proof (r_type_fields rs2_ rs1_ f3 f7 rd_ op Hb Ha H3 H7 Hd Ho).
  cbv zeta in *. repeat split; try tauto.
  - by apply i_type_imm.
  - by apply s_type_imm.
  - by apply b_type_imm.
  - by apply u_type_imm.
  - by apply j_type_imm.
Qed.

Lemma format_roundtrip_witness : imm_b (b_type (u32 (-8)) 3 4 1 0x63) = -8.
Proof.
  apply (format_roundtrip (u32 (-8)) 3 4 1 0 0 0x63); vm_compute; try reflexivity;
    (split; [discriminate|reflexivity]).
Defined.
