(* ===== verification/Device.v ===== *)
(** * Platform devices ([src/device.h], [src/device.c])

    The memory-mapped register files (SiFive test finisher, CLINT, PLIC, 16550
    UART, virtio-mmio block and network devices), their DMA against guest RAM,
    MMIO dispatch, and the interrupt-pending bits the CPU pulls each step.

    [Bus] is what the memory layer and the devices share: the [Memory] struct
    together with the [Platform] its [plat] pointer designates.  The C code
    keeps two pointers to the guest RAM array ([mem->data] and [plat->ram]); both
    are [b_data] here, so a DMA write is visible to the next CPU load.  What
    leaves the machine (console bytes, disk write-through, transmitted frames) is
    appended to [b_host], newest event first. *)

From S2P Require Import Prelude.

(** ** Address map and constants *)

(** [src/device.h 36-36] TEST_BASE *)
Definition TEST_BASE : Z := 0x00100000.
(** [src/device.h 37-37] TEST_SIZE *)
Definition TEST_SIZE : Z := 0x00001000.
(** [src/device.h 38-38] CLINT_BASE *)
Definition CLINT_BASE : Z := 0x02000000.
(** [src/device.h 39-39] CLINT_SIZE *)
Definition CLINT_SIZE : Z := 0x00010000.
(** [src/device.h 40-40] PLIC_BASE *)
Definition PLIC_BASE : Z := 0x0c000000.
(** [src/device.h 41-41] PLIC_SIZE *)
Definition PLIC_SIZE : Z := 0x04000000.
(** [src/device.h 42-42] UART_BASE *)
Definition UART_BASE : Z := 0x10000000.
(** [src/device.h 43-43] UART_SIZE *)
Definition UART_SIZE : Z := 0x00000100.
(** [src/device.h 44-44] VIRTIO_BASE *)
Definition VIRTIO_BASE : Z := 0x10001000.
(** [src/device.h 45-45] VIRTIO_SIZE *)
Definition VIRTIO_SIZE : Z := 0x00001000.
(** [src/device.h 46-46] VIRTIO_NET_BASE *)
Definition VIRTIO_NET_BASE : Z := 0x10002000.
(** [src/device.h 47-47] VIRTIO_NET_SIZE *)
Definition VIRTIO_NET_SIZE : Z := 0x00001000.
(** [src/device.h 54-54] QUANTA_MAX_HARTS *)
Definition QUANTA_MAX_HARTS : Z := 8.
(** [src/device.h 62-62] PLIC_NSOURCES *)
Definition PLIC_NSOURCES : Z := 32.
(** [src/device.h 63-63] PLIC_NCONTEXTS *)
Definition PLIC_NCONTEXTS : Z := 2 * QUANTA_MAX_HARTS.
(** [src/device.h 64-64] UART_IRQ *)
Definition UART_IRQ : Z := 10.
(** [src/device.h 65-65] VIRTIO_IRQ *)
Definition VIRTIO_IRQ : Z := 1.
(** [src/device.h 66-66] VIRTIO_NET_IRQ *)
Definition VIRTIO_NET_IRQ : Z := 2.
(** [src/device.h 71-71] MIP_SEIP *)
Definition MIP_SEIP : Z := 1 << 9.
(** [src/device.h 72-72] MIP_MSIP *)
Definition MIP_MSIP : Z := 1 << 3.
(** [src/device.h 73-73] MIP_MTIP *)
Definition MIP_MTIP : Z := 1 << 7.
(** [src/device.h 74-74] MIP_MEIP *)
Definition MIP_MEIP : Z := 1 << 11.
(** [src/device.h 140-140] VIRTIO_NET_NQUEUES *)
Definition VIRTIO_NET_NQUEUES : Z := 2.
(** [src/device.h 141-141] VIRTIO_NET_RXQ *)
Definition VIRTIO_NET_RXQ : Z := 0.
(** [src/device.h 142-142] VIRTIO_NET_TXQ *)
Definition VIRTIO_NET_TXQ : Z := 1.
(** [src/device.h 143-143] VIRTIO_NET_FIFO *)
Definition VIRTIO_NET_FIFO : Z := 16.
(** [src/device.h 144-144] VIRTIO_NET_FRAME_MAX *)
Definition VIRTIO_NET_FRAME_MAX : Z := 1600.
(** [src/device.c 49-49] FINISHER_FAIL *)
Definition FINISHER_FAIL : Z := 0x3333.
(** [src/device.c 50-50] FINISHER_PASS *)
Definition FINISHER_PASS : Z := 0x5555.
(** [src/device.c 51-51] FINISHER_RESET *)
Definition FINISHER_RESET : Z := 0x7777.
(** [src/device.c 170-170] V_MAGIC *)
Definition V_MAGIC : Z := 0x000.
(** [src/device.c 171-171] V_VERSION *)
Definition V_VERSION : Z := 0x004.
(** [src/device.c 172-172] V_DEVICE_ID *)
Definition V_DEVICE_ID : Z := 0x008.
(** [src/device.c 173-173] V_VENDOR_ID *)
Definition V_VENDOR_ID : Z := 0x00c.
(** [src/device.c 174-174] V_DEVICE_FEAT *)
Definition V_DEVICE_FEAT : Z := 0x010.
(** [src/device.c 175-175] V_DEVICE_FEAT_SEL *)
Definition V_DEVICE_FEAT_SEL : Z := 0x014.
(** [src/device.c 176-176] V_DRIVER_FEAT *)
Definition V_DRIVER_FEAT : Z := 0x020.
(** [src/device.c 177-177] V_DRIVER_FEAT_SEL *)
Definition V_DRIVER_FEAT_SEL : Z := 0x024.
(** [src/device.c 178-178] V_QUEUE_SEL *)
Definition V_QUEUE_SEL : Z := 0x030.
(** [src/device.c 179-179] V_QUEUE_NUM_MAX *)
Definition V_QUEUE_NUM_MAX : Z := 0x034.
(** [src/device.c 180-180] V_QUEUE_NUM *)
Definition V_QUEUE_NUM : Z := 0x038.
(** [src/device.c 181-181] V_QUEUE_READY *)
Definition V_QUEUE_READY : Z := 0x044.
(** [src/device.c 182-182] V_QUEUE_NOTIFY *)
Definition V_QUEUE_NOTIFY : Z := 0x050.
(** [src/device.c 183-183] V_INT_STATUS *)
Definition V_INT_STATUS : Z := 0x060.
(** [src/device.c 184-184] V_INT_ACK *)
Definition V_INT_ACK : Z := 0x064.
(** [src/device.c 185-185] V_STATUS *)
Definition V_STATUS : Z := 0x070.
(** [src/device.c 186-186] V_DESC_LOW *)
Definition V_DESC_LOW : Z := 0x080.
(** [src/device.c 187-187] V_DESC_HIGH *)
Definition V_DESC_HIGH : Z := 0x084.
(** [src/device.c 188-188] V_AVAIL_LOW *)
Definition V_AVAIL_LOW : Z := 0x090.
(** [src/device.c 189-189] V_AVAIL_HIGH *)
Definition V_AVAIL_HIGH : Z := 0x094.
(** [src/device.c 190-190] V_USED_LOW *)
Definition V_USED_LOW : Z := 0x0a0.
(** [src/device.c 191-191] V_USED_HIGH *)
Definition V_USED_HIGH : Z := 0x0a4.
(** [src/device.c 192-192] V_CONFIG_GEN *)
Definition V_CONFIG_GEN : Z := 0x0fc.
(** [src/device.c 193-193] V_CONFIG *)
Definition V_CONFIG : Z := 0x100.
(** [src/device.c 195-195] V_MAGIC_VALUE *)
Definition V_MAGIC_VALUE : Z := 0x74726976.
(** [src/device.c 196-196] V_VENDOR_QEMU *)
Definition V_VENDOR_QEMU : Z := 0x554d4551.
(** [src/device.c 197-197] V_BLK_ID *)
Definition V_BLK_ID : Z := 2.
(** [src/device.c 198-198] V_QUEUE_MAX *)
Definition V_QUEUE_MAX : Z := 256.
(** [src/device.c 203-203] VRING_DESC_F_NEXT *)
Definition VRING_DESC_F_NEXT : Z := 1.
(** [src/device.c 204-204] VRING_DESC_F_WRITE *)
Definition VRING_DESC_F_WRITE : Z := 2.
(** [src/device.c 206-206] VIRTIO_BLK_T_IN *)
Definition VIRTIO_BLK_T_IN : Z := 0.
(** [src/device.c 207-207] VIRTIO_BLK_T_OUT *)
Definition VIRTIO_BLK_T_OUT : Z := 1.
(** [src/device.c 208-208] VIRTIO_BLK_T_FLUSH *)
Definition VIRTIO_BLK_T_FLUSH : Z := 4.
(** [src/device.c 209-209] VIRTIO_BLK_S_OK *)
Definition VIRTIO_BLK_S_OK : Z := 0.
(** [src/device.c 210-210] VIRTIO_BLK_S_IOERR *)
Definition VIRTIO_BLK_S_IOERR : Z := 1.
(** [src/device.c 211-211] SECTOR_SIZE *)
Definition SECTOR_SIZE : Z := 512.
(** [src/device.c 213-213] VIRTIO_BLK_F_FLUSH *)
Definition VIRTIO_BLK_F_FLUSH : Z := 9.
(** [src/device.c 422-422] VIRTIO_NET_ID *)
Definition VIRTIO_NET_ID : Z := 1.
(** [src/device.c 423-423] VIRTIO_NET_HDR_LEN *)
Definition VIRTIO_NET_HDR_LEN : Z := 12.
(** [src/device.c 424-424] VIRTIO_NET_F_MAC_BIT *)
Definition VIRTIO_NET_F_MAC_BIT : Z := 5.
(** The largest [long] of the LP64 host ABI ([limits.h]). *)
Definition LONG_MAX : Z := 2 ^ 63 - 1.

(** ** Device state *)

(** [src/device.h 76-80] Clint *)
Record Clint := mkClint {
  mtime : Z;
  mtimecmp : arr;
  msip : arr
}.
Definition set_mtime (v : Z) (r : Clint) : Clint :=
  mkClint v (mtimecmp r) (msip r).
Definition set_mtimecmp (v : arr) (r : Clint) : Clint :=
  mkClint (mtime r) v (msip r).
Definition set_msip (v : arr) (r : Clint) : Clint :=
  mkClint (mtime r) (mtimecmp r) v.

(** [src/device.h 82-93] Uart *)
Record Uart := mkUart {
  ier : Z;
  lcr : Z;
  mcr : Z;
  scr : Z;
  dll : Z;
  dlm : Z;
  rx_have : bool;
  rx : Z;
  thre_ip : bool
}.
Definition set_ier (v : Z) (r : Uart) : Uart :=
  mkUart v (lcr r) (mcr r) (scr r) (dll r) (dlm r) (rx_have r) (rx r) (thre_ip r).
Definition set_lcr (v : Z) (r : Uart) : Uart :=
  mkUart (ier r) v (mcr r) (scr r) (dll r) (dlm r) (rx_have r) (rx r) (thre_ip r).
Definition set_mcr (v : Z) (r : Uart) : Uart :=
  mkUart (ier r) (lcr r) v (scr r) (dll r) (dlm r) (rx_have r) (rx r) (thre_ip r).
Definition set_scr (v : Z) (r : Uart) : Uart :=
  mkUart (ier r) (lcr r) (mcr r) v (dll r) (dlm r) (rx_have r) (rx r) (thre_ip r).
Definition set_dll (v : Z) (r : Uart) : Uart :=
  mkUart (ier r) (lcr r) (mcr r) (scr r) v (dlm r) (rx_have r) (rx r) (thre_ip r).
Definition set_dlm (v : Z) (r : Uart) : Uart :=
  mkUart (ier r) (lcr r) (mcr r) (scr r) (dll r) v (rx_have r) (rx r) (thre_ip r).
Definition set_rx_have (v : bool) (r : Uart) : Uart :=
  mkUart (ier r) (lcr r) (mcr r) (scr r) (dll r) (dlm r) v (rx r) (thre_ip r).
Definition set_rx (v : Z) (r : Uart) : Uart :=
  mkUart (ier r) (lcr r) (mcr r) (scr r) (dll r) (dlm r) (rx_have r) v (thre_ip r).
Definition set_thre_ip (v : bool) (r : Uart) : Uart :=
  mkUart (ier r) (lcr r) (mcr r) (scr r) (dll r) (dlm r) (rx_have r) (rx r) v.

(** [src/device.h 95-100] Plic *)
Record Plic := mkPlic {
  priority : arr;
  enable : arr;
  threshold : arr;
  claimed : arr
}.
Definition set_priority (v : arr) (r : Plic) : Plic :=
  mkPlic v (enable r) (threshold r) (claimed r).
Definition set_enable (v : arr) (r : Plic) : Plic :=
  mkPlic (priority r) v (threshold r) (claimed r).
Definition set_threshold (v : arr) (r : Plic) : Plic :=
  mkPlic (priority r) (enable r) v (claimed r).
Definition set_claimed (v : arr) (r : Plic) : Plic :=
  mkPlic (priority r) (enable r) (threshold r) v.

(** [src/device.h 108-118] Virtio *)
Record Virtio := mkVirtio {
  v_status : Z;
  v_features_sel : Z;
  v_queue_num : Z;
  v_queue_ready : Z;
  v_desc_addr : Z;
  v_avail_addr : Z;
  v_used_addr : Z;
  v_last_avail : Z;
  v_interrupt_status : Z
}.
Definition set_v_status (v : Z) (r : Virtio) : Virtio :=
  mkVirtio v (v_features_sel r) (v_queue_num r) (v_queue_ready r) (v_desc_addr r) (v_avail_addr r) (v_used_addr r) (v_last_avail r) (v_interrupt_status r).
Definition set_v_features_sel (v : Z) (r : Virtio) : Virtio :=
  mkVirtio (v_status r) v (v_queue_num r) (v_queue_ready r) (v_desc_addr r) (v_avail_addr r) (v_used_addr r) (v_last_avail r) (v_interrupt_status r).
Definition set_v_queue_num (v : Z) (r : Virtio) : Virtio :=
  mkVirtio (v_status r) (v_features_sel r) v (v_queue_ready r) (v_desc_addr r) (v_avail_addr r) (v_used_addr r) (v_last_avail r) (v_interrupt_status r).
Definition set_v_queue_ready (v : Z) (r : Virtio) : Virtio :=
  mkVirtio (v_status r) (v_features_sel r) (v_queue_num r) v (v_desc_addr r) (v_avail_addr r) (v_used_addr r) (v_last_avail r) (v_interrupt_status r).
Definition set_v_desc_addr (v : Z) (r : Virtio) : Virtio :=
  mkVirtio (v_status r) (v_features_sel r) (v_queue_num r) (v_queue_ready r) v (v_avail_addr r) (v_used_addr r) (v_last_avail r) (v_interrupt_status r).
Definition set_v_avail_addr (v : Z) (r : Virtio) : Virtio :=
  mkVirtio (v_status r) (v_features_sel r) (v_queue_num r) (v_queue_ready r) (v_desc_addr r) v (v_used_addr r) (v_last_avail r) (v_interrupt_status r).
Definition set_v_used_addr (v : Z) (r : Virtio) : Virtio :=
  mkVirtio (v_status r) (v_features_sel r) (v_queue_num r) (v_queue_ready r) (v_desc_addr r) (v_avail_addr r) v (v_last_avail r) (v_interrupt_status r).
Definition set_v_last_avail (v : Z) (r : Virtio) : Virtio :=
  mkVirtio (v_status r) (v_features_sel r) (v_queue_num r) (v_queue_ready r) (v_desc_addr r) (v_avail_addr r) (v_used_addr r) v (v_interrupt_status r).
Definition set_v_interrupt_status (v : Z) (r : Virtio) : Virtio :=
  mkVirtio (v_status r) (v_features_sel r) (v_queue_num r) (v_queue_ready r) (v_desc_addr r) (v_avail_addr r) (v_used_addr r) (v_last_avail r) v.

(** [src/device.h 123-130] Virtqueue *)
Record Virtqueue := mkVirtqueue {
  q_num : Z;
  q_ready : Z;
  q_desc_addr : Z;
  q_avail_addr : Z;
  q_used_addr : Z;
  q_last_avail : Z
}.
Definition set_q_num (v : Z) (r : Virtqueue) : Virtqueue :=
  mkVirtqueue v (q_ready r) (q_desc_addr r) (q_avail_addr r) (q_used_addr r) (q_last_avail r).
Definition set_q_ready (v : Z) (r : Virtqueue) : Virtqueue :=
  mkVirtqueue (q_num r) v (q_desc_addr r) (q_avail_addr r) (q_used_addr r) (q_last_avail r).
Definition set_q_desc_addr (v : Z) (r : Virtqueue) : Virtqueue :=
  mkVirtqueue (q_num r) (q_ready r) v (q_avail_addr r) (q_used_addr r) (q_last_avail r).
Definition set_q_avail_addr (v : Z) (r : Virtqueue) : Virtqueue :=
  mkVirtqueue (q_num r) (q_ready r) (q_desc_addr r) v (q_used_addr r) (q_last_avail r).
Definition set_q_used_addr (v : Z) (r : Virtqueue) : Virtqueue :=
  mkVirtqueue (q_num r) (q_ready r) (q_desc_addr r) (q_avail_addr r) v (q_last_avail r).
Definition set_q_last_avail (v : Z) (r : Virtqueue) : Virtqueue :=
  mkVirtqueue (q_num r) (q_ready r) (q_desc_addr r) (q_avail_addr r) (q_used_addr r) v.

(** A host network backend, as the device sees it.  [tx] is a callback that may
    call [plat_net_rx] before it returns (the usermode stack answers an ARP
    request this way), so a backend maps the frames transmitted so far, newest
    first, to the frames it delivers synchronously in response to the newest. *)
Definition TxBackend : Type := list (list Z) -> list (list Z).

(** [src/device.h 146-163] VirtioNet *)
Record VirtioNet := mkVirtioNet {
  n_status : Z;
  n_features_sel : Z;
  n_driver_feat_sel : Z;
  n_queue_sel : Z;
  n_interrupt_status : Z;
  n_rxq : Virtqueue;
  n_txq : Virtqueue;
  n_mac : arr;
  n_fifo : arr;
  n_fifo_len : arr;
  n_fifo_head : Z;
  n_fifo_count : Z;
  n_tx : option TxBackend;
  n_txlog : list (list Z)
}.
Definition set_n_status (v : Z) (r : VirtioNet) : VirtioNet :=
  mkVirtioNet v (n_features_sel r) (n_driver_feat_sel r) (n_queue_sel r) (n_interrupt_status r) (n_rxq r) (n_txq r) (n_mac r) (n_fifo r) (n_fifo_len r) (n_fifo_head r) (n_fifo_count r) (n_tx r) (n_txlog r).
Definition set_n_features_sel (v : Z) (r : VirtioNet) : VirtioNet :=
  mkVirtioNet (n_status r) v (n_driver_feat_sel r) (n_queue_sel r) (n_interrupt_status r) (n_rxq r) (n_txq r) (n_mac r) (n_fifo r) (n_fifo_len r) (n_fifo_head r) (n_fifo_count r) (n_tx r) (n_txlog r).
Definition set_n_driver_feat_sel (v : Z) (r : VirtioNet) : VirtioNet :=
  mkVirtioNet (n_status r) (n_features_sel r) v (n_queue_sel r) (n_interrupt_status r) (n_rxq r) (n_txq r) (n_mac r) (n_fifo r) (n_fifo_len r) (n_fifo_head r) (n_fifo_count r) (n_tx r) (n_txlog r).
Definition set_n_queue_sel (v : Z) (r : VirtioNet) : VirtioNet :=
  mkVirtioNet (n_status r) (n_features_sel r) (n_driver_feat_sel r) v (n_interrupt_status r) (n_rxq r) (n_txq r) (n_mac r) (n_fifo r) (n_fifo_len r) (n_fifo_head r) (n_fifo_count r) (n_tx r) (n_txlog r).
Definition set_n_interrupt_status (v : Z) (r : VirtioNet) : VirtioNet :=
  mkVirtioNet (n_status r) (n_features_sel r) (n_driver_feat_sel r) (n_queue_sel r) v (n_rxq r) (n_txq r) (n_mac r) (n_fifo r) (n_fifo_len r) (n_fifo_head r) (n_fifo_count r) (n_tx r) (n_txlog r).
Definition set_n_rxq (v : Virtqueue) (r : VirtioNet) : VirtioNet :=
  mkVirtioNet (n_status r) (n_features_sel r) (n_driver_feat_sel r) (n_queue_sel r) (n_interrupt_status r) v (n_txq r) (n_mac r) (n_fifo r) (n_fifo_len r) (n_fifo_head r) (n_fifo_count r) (n_tx r) (n_txlog r).
Definition set_n_txq (v : Virtqueue) (r : VirtioNet) : VirtioNet :=
  mkVirtioNet (n_status r) (n_features_sel r) (n_driver_feat_sel r) (n_queue_sel r) (n_interrupt_status r) (n_rxq r) v (n_mac r) (n_fifo r) (n_fifo_len r) (n_fifo_head r) (n_fifo_count r) (n_tx r) (n_txlog r).
Definition set_n_mac (v : arr) (r : VirtioNet) : VirtioNet :=
  mkVirtioNet (n_status r) (n_features_sel r) (n_driver_feat_sel r) (n_queue_sel r) (n_interrupt_status r) (n_rxq r) (n_txq r) v (n_fifo r) (n_fifo_len r) (n_fifo_head r) (n_fifo_count r) (n_tx r) (n_txlog r).
Definition set_n_fifo (v : arr) (r : VirtioNet) : VirtioNet :=
  mkVirtioNet (n_status r) (n_features_sel r) (n_driver_feat_sel r) (n_queue_sel r) (n_interrupt_status r) (n_rxq r) (n_txq r) (n_mac r) v (n_fifo_len r) (n_fifo_head r) (n_fifo_count r) (n_tx r) (n_txlog r).
Definition set_n_fifo_len (v : arr) (r : VirtioNet) : VirtioNet :=
  mkVirtioNet (n_status r) (n_features_sel r) (n_driver_feat_sel r) (n_queue_sel r) (n_interrupt_status r) (n_rxq r) (n_txq r) (n_mac r) (n_fifo r) v (n_fifo_head r) (n_fifo_count r) (n_tx r) (n_txlog r).
Definition set_n_fifo_head (v : Z) (r : VirtioNet) : VirtioNet :=
  mkVirtioNet (n_status r) (n_features_sel r) (n_driver_feat_sel r) (n_queue_sel r) (n_interrupt_status r) (n_rxq r) (n_txq r) (n_mac r) (n_fifo r) (n_fifo_len r) v (n_fifo_count r) (n_tx r) (n_txlog r).
Definition set_n_fifo_count (v : Z) (r : VirtioNet) : VirtioNet :=
  mkVirtioNet (n_status r) (n_features_sel r) (n_driver_feat_sel r) (n_queue_sel r) (n_interrupt_status r) (n_rxq r) (n_txq r) (n_mac r) (n_fifo r) (n_fifo_len r) (n_fifo_head r) v (n_tx r) (n_txlog r).
Definition set_n_tx (v : option TxBackend) (r : VirtioNet) : VirtioNet :=
  mkVirtioNet (n_status r) (n_features_sel r) (n_driver_feat_sel r) (n_queue_sel r) (n_interrupt_status r) (n_rxq r) (n_txq r) (n_mac r) (n_fifo r) (n_fifo_len r) (n_fifo_head r) (n_fifo_count r) v (n_txlog r).
Definition set_n_txlog (v : list (list Z)) (r : VirtioNet) : VirtioNet :=
  mkVirtioNet (n_status r) (n_features_sel r) (n_driver_feat_sel r) (n_queue_sel r) (n_interrupt_status r) (n_rxq r) (n_txq r) (n_mac r) (n_fifo r) (n_fifo_len r) (n_fifo_head r) (n_fifo_count r) (n_tx r) v.

(** [src/device.h 173-178] Disk *)
Record Disk := mkDisk {
  d_present : bool;
  d_data : arr;
  d_size : Z;
  d_file : bool;
  d_writable : bool
}.
Definition set_d_present (v : bool) (r : Disk) : Disk :=
  mkDisk v (d_data r) (d_size r) (d_file r) (d_writable r).
Definition set_d_data (v : arr) (r : Disk) : Disk :=
  mkDisk (d_present r) v (d_size r) (d_file r) (d_writable r).
Definition set_d_size (v : Z) (r : Disk) : Disk :=
  mkDisk (d_present r) (d_data r) v (d_file r) (d_writable r).
Definition set_d_file (v : bool) (r : Disk) : Disk :=
  mkDisk (d_present r) (d_data r) (d_size r) v (d_writable r).
Definition set_d_writable (v : bool) (r : Disk) : Disk :=
  mkDisk (d_present r) (d_data r) (d_size r) (d_file r) v.

(** [src/device.h 182-207] Platform *)
Record Platform := mkPlatform {
  clint : Clint;
  uart : Uart;
  plic : Plic;
  virtio : Virtio;
  net : VirtioNet;
  disk : Disk;
  has_harts : bool;
  nharts : Z;
  has_ram : bool;
  ram_base : Z;
  ram_size : Z;
  poweroff : bool;
  poweroff_code : Z
}.
Definition set_clint (v : Clint) (r : Platform) : Platform :=
  mkPlatform v (uart r) (plic r) (virtio r) (net r) (disk r) (has_harts r) (nharts r) (has_ram r) (ram_base r) (ram_size r) (poweroff r) (poweroff_code r).
Definition set_uart (v : Uart) (r : Platform) : Platform :=
  mkPlatform (clint r) v (plic r) (virtio r) (net r) (disk r) (has_harts r) (nharts r) (has_ram r) (ram_base r) (ram_size r) (poweroff r) (poweroff_code r).
Definition set_plic (v : Plic) (r : Platform) : Platform :=
  mkPlatform (clint r) (uart r) v (virtio r) (net r) (disk r) (has_harts r) (nharts r) (has_ram r) (ram_base r) (ram_size r) (poweroff r) (poweroff_code r).
Definition set_virtio (v : Virtio) (r : Platform) : Platform :=
  mkPlatform (clint r) (uart r) (plic r) v (net r) (disk r) (has_harts r) (nharts r) (has_ram r) (ram_base r) (ram_size r) (poweroff r) (poweroff_code r).
Definition set_net (v : VirtioNet) (r : Platform) : Platform :=
  mkPlatform (clint r) (uart r) (plic r) (virtio r) v (disk r) (has_harts r) (nharts r) (has_ram r) (ram_base r) (ram_size r) (poweroff r) (poweroff_code r).
Definition set_disk (v : Disk) (r : Platform) : Platform :=
  mkPlatform (clint r) (uart r) (plic r) (virtio r) (net r) v (has_harts r) (nharts r) (has_ram r) (ram_base r) (ram_size r) (poweroff r) (poweroff_code r).
Definition set_has_harts (v : bool) (r : Platform) : Platform :=
  mkPlatform (clint r) (uart r) (plic r) (virtio r) (net r) (disk r) v (nharts r) (has_ram r) (ram_base r) (ram_size r) (poweroff r) (poweroff_code r).
Definition set_nharts (v : Z) (r : Platform) : Platform :=
  mkPlatform (clint r) (uart r) (plic r) (virtio r) (net r) (disk r) (has_harts r) v (has_ram r) (ram_base r) (ram_size r) (poweroff r) (poweroff_code r).
Definition set_has_ram (v : bool) (r : Platform) : Platform :=
  mkPlatform (clint r) (uart r) (plic r) (virtio r) (net r) (disk r) (has_harts r) (nharts r) v (ram_base r) (ram_size r) (poweroff r) (poweroff_code r).
Definition set_ram_base (v : Z) (r : Platform) : Platform :=
  mkPlatform (clint r) (uart r) (plic r) (virtio r) (net r) (disk r) (has_harts r) (nharts r) (has_ram r) v (ram_size r) (poweroff r) (poweroff_code r).
Definition set_ram_size (v : Z) (r : Platform) : Platform :=
  mkPlatform (clint r) (uart r) (plic r) (virtio r) (net r) (disk r) (has_harts r) (nharts r) (has_ram r) (ram_base r) v (poweroff r) (poweroff_code r).
Definition set_poweroff (v : bool) (r : Platform) : Platform :=
  mkPlatform (clint r) (uart r) (plic r) (virtio r) (net r) (disk r) (has_harts r) (nharts r) (has_ram r) (ram_base r) (ram_size r) v (poweroff_code r).
Definition set_poweroff_code (v : Z) (r : Platform) : Platform :=
  mkPlatform (clint r) (uart r) (plic r) (virtio r) (net r) (disk r) (has_harts r) (nharts r) (has_ram r) (ram_base r) (ram_size r) (poweroff r) v.

(** What the machine does to its host. *)
Inductive HostEvent :=
| Putchar (b : Z)                    (* putchar to stdout *)
| Fputc (fd b : Z)                   (* fputc to stdout (1) or stderr (2) *)
| DiskWrite (off : Z) (bs : list Z)  (* fseek + fwrite on the backing file *)
| DiskFlush                          (* fflush on the backing file *)
| NetTx (frame : list Z)             (* a frame handed to the backend *)
| TrapMessage (cause pc : Z)         (* fprintf to stderr: trap without a handler *)
| FdMessage (fd : Z)                 (* fprintf to stderr: unsupported descriptor *)
| SyscallMessage (num pc : Z).       (* fprintf to stderr: unknown system call *)

(** The [Memory] struct with the platform its [plat] pointer designates and the host
    event trace.
    [src/memory.h 19-26] Memory *)
Record Bus := mkBus {
  b_data : arr;
  b_base : Z;
  b_size : Z;
  b_fault : bool;
  b_fault_addr : Z;
  b_has_plat : bool;
  b_plat : Platform;
  b_host : list HostEvent
}.
Definition set_b_data (v : arr) (r : Bus) : Bus :=
  mkBus v (b_base r) (b_size r) (b_fault r) (b_fault_addr r) (b_has_plat r) (b_plat r) (b_host r).
Definition set_b_base (v : Z) (r : Bus) : Bus :=
  mkBus (b_data r) v (b_size r) (b_fault r) (b_fault_addr r) (b_has_plat r) (b_plat r) (b_host r).
Definition set_b_size (v : Z) (r : Bus) : Bus :=
  mkBus (b_data r) (b_base r) v (b_fault r) (b_fault_addr r) (b_has_plat r) (b_plat r) (b_host r).
Definition set_b_fault (v : bool) (r : Bus) : Bus :=
  mkBus (b_data r) (b_base r) (b_size r) v (b_fault_addr r) (b_has_plat r) (b_plat r) (b_host r).
Definition set_b_fault_addr (v : Z) (r : Bus) : Bus :=
  mkBus (b_data r) (b_base r) (b_size r) (b_fault r) v (b_has_plat r) (b_plat r) (b_host r).
Definition set_b_has_plat (v : bool) (r : Bus) : Bus :=
  mkBus (b_data r) (b_base r) (b_size r) (b_fault r) (b_fault_addr r) v (b_plat r) (b_host r).
Definition set_b_plat (v : Platform) (r : Bus) : Bus :=
  mkBus (b_data r) (b_base r) (b_size r) (b_fault r) (b_fault_addr r) (b_has_plat r) v (b_host r).
Definition set_b_host (v : list HostEvent) (r : Bus) : Bus :=
  mkBus (b_data r) (b_base r) (b_size r) (b_fault r) (b_fault_addr r) (b_has_plat r) (b_plat r) v.

(** ** Access to the parts of a bus *)

Definition upd_plat (f : Platform -> Platform) (b : Bus) : Bus := set_b_plat (f (b_plat b)) b.
Definition upd_uart (f : Uart -> Uart) : Bus -> Bus := upd_plat (fun p => set_uart (f (uart p)) p).
Definition upd_clint (f : Clint -> Clint) : Bus -> Bus := upd_plat (fun p => set_clint (f (clint p)) p).
Definition upd_plic (f : Plic -> Plic) : Bus -> Bus := upd_plat (fun p => set_plic (f (plic p)) p).
Definition upd_virtio (f : Virtio -> Virtio) : Bus -> Bus :=
  upd_plat (fun p => set_virtio (f (virtio p)) p).
Definition upd_net (f : VirtioNet -> VirtioNet) : Bus -> Bus := upd_plat (fun p => set_net (f (net p)) p).
Definition upd_disk (f : Disk -> Disk) : Bus -> Bus := upd_plat (fun p => set_disk (f (disk p)) p).
Definition emit (e : HostEvent) (b : Bus) : Bus := set_b_host (e :: b_host b) b.
Definition upd_data (f : arr -> arr) (b : Bus) : Bus := set_b_data (f (b_data b)) b.

(** ** Reset and attachment *)

(** [src/device.c 16-18] in_window *)
Definition in_window (addr base size : Z) : bool := u64 (addr - base) <? size.

Definition Clint0 : Clint := mkClint 0 ∅ ∅.
Definition Uart0 : Uart := mkUart 0 0 0 0 0 0 false 0 false.
Definition Plic0 : Plic := mkPlic ∅ ∅ ∅ ∅.
Definition Virtio0 : Virtio := mkVirtio 0 0 0 0 0 0 0 0 0.
Definition Virtqueue0 : Virtqueue := mkVirtqueue 0 0 0 0 0 0.
Definition VirtioNet0 : VirtioNet :=
  mkVirtioNet 0 0 0 0 0 Virtqueue0 Virtqueue0 ∅ ∅ ∅ 0 0 None [].
Definition Disk0 : Disk := mkDisk false ∅ 0 false false.

(** [src/device.c 27-27] default_mac *)
Definition default_mac : arr :=
  aset 0 0x52 (aset 1 0x54 (aset 2 0x00 (aset 3 0x12 (aset 4 0x34 (aset 5 0x56 ∅))))).

(** [src/device.c 20-29] plat_init *)
Definition plat_init : Platform :=
  let cmp := foldr (fun h => aset h (u64 (-1))) ∅ (zseq 0 (Z.to_nat QUANTA_MAX_HARTS)) in
  mkPlatform (set_mtimecmp cmp Clint0) Uart0 Plic0 Virtio0 (set_n_mac default_mac VirtioNet0) Disk0
    false 1 false 0 0 false 0.

(** [src/device.c 31-34] plat_set_harts *)
Definition plat_set_harts (n : Z) (p : Platform) : Platform := set_has_harts true (set_nharts n p).

(** [src/device.c 67-71] plat_attach_ram *)
Definition plat_attach_ram (base size : Z) (p : Platform) : Platform :=
  set_has_ram true (set_ram_base base (set_ram_size size p)).

(** [src/device.c 36-43] plat_contains *)
Definition plat_contains (addr : Z) : bool :=
  in_window addr TEST_BASE TEST_SIZE || in_window addr CLINT_BASE CLINT_SIZE
  || in_window addr PLIC_BASE PLIC_SIZE || in_window addr UART_BASE UART_SIZE
  || in_window addr VIRTIO_BASE VIRTIO_SIZE || in_window addr VIRTIO_NET_BASE VIRTIO_NET_SIZE.

(** ** The test finisher *)

(** [src/device.c 53-62] test_write *)
Definition test_write (value : Z) (p : Platform) : Platform :=
  let lo := value .& 0xffff in
  if lo =? FINISHER_FAIL then set_poweroff_code ((value >> 16) .& 0xff) (set_poweroff true p)
  else if (lo =? FINISHER_PASS) || (lo =? FINISHER_RESET)
  then set_poweroff_code 0 (set_poweroff true p)
  else p.

(** [src/device.h 272-276] plat_poweroff_requested *)
Definition plat_poweroff_requested (p : Platform) : option Z :=
  if poweroff p then Some (poweroff_code p) else None.

(** [src/device.h 238-240] plat_tick *)
Definition plat_tick (p : Platform) : Platform :=
  set_clint (set_mtime (u64 (mtime (clint p) + 1)) (clint p)) p.

(** ** 16550 UART *)

(** [src/device.c 79-81] uart_lsr *)
Definition uart_lsr (u : Uart) : Z := u8 (0x60 .| (if rx_have u then 0x01 else 0x00)).

(** [src/device.c 88-90] uart_asserted *)
Definition uart_asserted (u : Uart) : bool :=
  (negb (ier u .& 0x01 =? 0) && rx_have u) || (negb (ier u .& 0x02 =? 0) && thre_ip u).

(** [src/device.c 94-98] uart_iir *)
Definition uart_iir (u : Uart) : Z :=
  if negb (ier u .& 0x01 =? 0) && rx_have u then 0x04
  else if negb (ier u .& 0x02 =? 0) && thre_ip u then 0x02
  else 0x01.

(** [src/device.c 100-120] uart_read *)
Definition uart_read (off : Z) : st Bus Z :=
  u ← gets (fun b => uart (b_plat b));
  let dlab := negb (lcr u .& 0x80 =? 0) in
  if off =? 0 then
    if dlab then mret (dll u)
    else modify (upd_uart (set_rx_have false)) ;; mret (rx u)
  else if off =? 1 then mret (if dlab then dlm u else ier u)
  else if off =? 2 then
    let iir := uart_iir u in
    when (iir =? 0x02) (modify (upd_uart (set_thre_ip false))) ;; mret iir
  else if off =? 3 then mret (lcr u)
  else if off =? 4 then mret (mcr u)
  else if off =? 5 then mret (uart_lsr u)
  else if off =? 6 then mret 0
  else if off =? 7 then mret (scr u)
  else mret 0.

(** [src/device.c 122-142] uart_write *)
Definition uart_write (off val : Z) : st Bus unit :=
  u ← gets (fun b => uart (b_plat b));
  let dlab := negb (lcr u .& 0x80 =? 0) in
  if off =? 0 then
    if dlab then modify (upd_uart (set_dll val))
    else modify (emit (Putchar val)) ;; modify (upd_uart (set_thre_ip true))
  else if off =? 1 then
    if dlab then modify (upd_uart (set_dlm val))
    else
      modify (upd_uart (set_ier (u8 (val .& 0x0f)))) ;;
      when (negb (u8 (val .& 0x0f) .& 0x02 =? 0)) (modify (upd_uart (set_thre_ip true)))
  else if off =? 2 then mret tt
  else if off =? 3 then modify (upd_uart (set_lcr val))
  else if off =? 4 then modify (upd_uart (set_mcr val))
  else if off =? 7 then modify (upd_uart (set_scr val))
  else mret tt.

(** [src/device.c 148-153] plat_uart_rx *)
Definition plat_uart_rx (byte : Z) (p : Platform) : Z * Platform :=
  if rx_have (uart p) then (0, p)
  else (1, set_uart (set_rx_have true (set_rx byte (uart p))) p).

(** ** DMA against guest RAM *)

(** The offset into guest RAM a DMA of [len] bytes at [addr] starts at, or [None]
    for the NULL pointer.
    [src/device.c 219-224] dma_ptr *)
Definition dma_ptr (p : Platform) (addr len : Z) : option Z :=
  if negb (has_ram p) || (ram_size p <? len) || (addr <? ram_base p) then None
  else
    let off := u64 (addr - ram_base p) in
    if u64 (ram_size p - len) <? off then None else Some off.

(** [src/device.c 227-227] ld16 *)
Definition ld16 (m : arr) (o : Z) : Z := u16 (m.[o] .| m.[o + 1] << 8).
(** [src/device.c 228-231] ld32 *)
Definition ld32 (m : arr) (o : Z) : Z :=
  m.[o] .| u32 (m.[o + 1] << 8) .| u32 (m.[o + 2] << 16) .| u32 (m.[o + 3] << 24).
(** [src/device.c 232-234] ld64 *)
Definition ld64 (m : arr) (o : Z) : Z := ld32 m o .| u64 (ld32 m (o + 4) << 32).
(** [src/device.c 235-235] st16 *)
Definition st16 (o v : Z) (m : arr) : arr := aset (o + 1) (u8 (v >> 8)) (aset o (u8 v) m).
(** [src/device.c 236-239] st32 *)
Definition st32 (o v : Z) (m : arr) : arr :=
  aset (o + 3) (u8 (v >> 24)) (aset (o + 2) (u8 (v >> 16))
    (aset (o + 1) (u8 (v >> 8)) (aset o (u8 v) m))).

(** One descriptor of a chain: guest address and length.  Every caller passes a
    NULL [write] array, so the device-writable flag is not collected. *)
Definition Desc : Type := Z * Z.

(** The chain rooted at descriptor [head].  [n] counts the descriptors gathered; the
    [fuel] is [V_QUEUE_MAX], the bound the loop itself tests ([vq_chain_fuel]).
    [src/device.c 249-260] vq_chain *)
Fixpoint vq_chain_from (fuel : nat) (b : Bus) (desc_base qn n idx : Z) : list Desc :=
  match fuel with
  | O => []
  | S fuel =>
    if (qn <=? n) || (V_QUEUE_MAX <=? n) then []
    else match dma_ptr (b_plat b) (u64 (desc_base + idx * 16)) 16 with
    | None => []
    | Some d =>
      let m := b_data b in
      let flags := ld16 m (d + 12) in
      (ld64 m d, ld32 m (d + 8))
        :: (if flags .& VRING_DESC_F_NEXT =? 0 then []
            else vq_chain_from fuel b desc_base qn (n + 1) (ld16 m (d + 14)))
    end
  end.

(** [src/device.c 245-262] vq_chain *)
Definition vq_chain (b : Bus) (desc_base qn head : Z) : list Desc :=
  vq_chain_from (Z.to_nat V_QUEUE_MAX) b desc_base qn 0 head.

(** ** virtio-mmio block device *)

(** Bytes [off, off + n) of an array. *)
Definition slice (a : arr) (off : Z) (n : nat) : list Z := map (aget a) (zseq off n).

(** One byte of a data buffer: guest offset [buf + k], image position [off + k].
    [src/device.c 297-302] virtio_service *)
Definition blk_copy_byte (type buf off k : Z) (b : Bus) : Bus :=
  let d := disk (b_plat b) in
  let pos := u64 (off + k) in
  let in_image := d_present d && (pos <? d_size d) in
  if type =? VIRTIO_BLK_T_IN then
    upd_data (aset (buf + k) (if in_image then (d_data d).[pos] else 0)) b
  else if (type =? VIRTIO_BLK_T_OUT) && in_image then
    upd_disk (set_d_data (aset pos (b_data b).[buf + k] (d_data d))) b
  else b.

(** The write-through of a data buffer's in-image span to the backing file.
    [src/device.c 308-314] virtio_service *)
Definition blk_write_through (type off len : Z) (b : Bus) : Bus :=
  let d := disk (b_plat b) in
  if (type =? VIRTIO_BLK_T_OUT) && d_writable d && d_file d && d_present d
     && (off <? d_size d) && (off <=? LONG_MAX)
  then
    let end0 := u64 (off + len) in
    let end_ := if d_size d <? end0 then d_size d else end0 in
    emit (DiskWrite off (slice (d_data d) off (Z.to_nat (end_ - off)))) b
  else b.

(** The data descriptors: returns the bytes written to the guest and the status.
    [src/device.c 293-317] virtio_service *)
Fixpoint blk_data (type : Z) (ds : list Desc) (off written : Z) : st Bus (Z * Z) :=
  match ds with
  | [] => mret (written, VIRTIO_BLK_S_OK)
  | (addr, len) :: ds =>
    p ← gets b_plat;
    match dma_ptr p addr len with
    | None => mret (written, VIRTIO_BLK_S_IOERR)
    | Some buf =>
      for_ (Z.to_nat len) 0 (fun k => modify (blk_copy_byte type buf off k)) ;;
      modify (blk_write_through type off len) ;;
      blk_data type ds (u64 (off + len))
        (if type =? VIRTIO_BLK_T_IN then u32 (written + len) else written)
    end
  end.

(** The request header of descriptor 0: type and starting sector.
    [src/device.c 281-284] virtio_service *)
Definition blk_header (b : Bus) (addr : Z) : Z * Z :=
  match dma_ptr (b_plat b) addr 16 with
  | Some hdr => (ld32 (b_data b) hdr, ld64 (b_data b) (hdr + 8))
  | None => (VIRTIO_BLK_T_IN, 0)
  end.

(** [src/device.c 269-329] virtio_service *)
Definition virtio_service (head : Z) : st Bus Z :=
  v ← gets (fun b => virtio (b_plat b));
  let qn := v_queue_num v in
  if (qn =? 0) || (V_QUEUE_MAX <? qn) then mret 0
  else
    chain ← gets (fun b => vq_chain b (v_desc_addr v) qn head);
    match chain with
    | d0 :: d1 :: rest =>
      '(type, sector) ← gets (fun b => blk_header b d0.1);
      let status_desc := List.last (d1 :: rest) d1 in
      '(written, status) ← blk_data type (removelast (d1 :: rest)) (u64 (sector * SECTOR_SIZE)) 0;
      d ← gets (fun b => disk (b_plat b));
      when ((type =? VIRTIO_BLK_T_FLUSH) && d_writable d && d_file d) (modify (emit DiskFlush)) ;;
      p ← gets b_plat;
      match dma_ptr p status_desc.1 1 with
      | Some so => modify (upd_data (aset so status))
      | None => mret tt
      end ;;
      mret (u32 (written + 1))
    | _ => mret 0
    end.

(** Post a completion: the used element, then the producer index.  [used] is the
    offset of the used ring, [num] the ring size.
    [src/device.c 346-350] virtio_notify *)
Definition used_push (used num head wlen : Z) (b : Bus) : Bus :=
  let uidx := ld16 (b_data b) (used + 2) in
  let elem := used + 4 + (uidx mod num) * 8 in
  b |> upd_data (st32 elem head) |> upd_data (st32 (elem + 4) wlen)
    |> upd_data (st16 (used + 2) (u16 (uidx + 1))).

(** [src/device.c 341-352] virtio_notify *)
Fixpoint virtio_notify_loop (fuel : nat) (avail used avail_idx : Z) : st Bus unit :=
  match fuel with
  | O => mret tt
  | S fuel =>
    v ← gets (fun b => virtio (b_plat b));
    if v_last_avail v =? avail_idx then mret tt
    else
      let slot := u16 (v_last_avail v mod v_queue_num v) in
      head ← gets (fun b => ld16 (b_data b) (avail + 4 + slot * 2));
      wlen ← virtio_service head;
      modify (used_push used (v_queue_num v) head wlen) ;;
      modify (upd_virtio (fun v => set_v_last_avail (u16 (v_last_avail v + 1)) v)) ;;
      virtio_notify_loop fuel avail used avail_idx
  end.

(** The consumer index is a 16-bit counter that advances by one and stops at a
    fixed value: [2^16] iterations are enough ([virtio_notify_drains]).
    [src/device.c 332-354] virtio_notify *)
Definition virtio_notify : st Bus unit :=
  p ← gets b_plat;
  let v := virtio p in
  if (v_queue_ready v =? 0) || (v_queue_num v =? 0) || (V_QUEUE_MAX <? v_queue_num v) then mret tt
  else
    match dma_ptr p (v_avail_addr v) (4 + v_queue_num v * 2),
          dma_ptr p (v_used_addr v) (4 + v_queue_num v * 8) with
    | Some avail, Some used =>
      avail_idx ← gets (fun b => ld16 (b_data b) (avail + 2));
      virtio_notify_loop (Pos.to_nat 65536) avail used avail_idx ;;
      modify (upd_virtio (fun v => set_v_interrupt_status (v_interrupt_status v .| 0x1) v))
    | _, _ => mret tt
    end.

(** [src/device.c 358-360] virtio_reset *)
Definition virtio_reset : Virtio := Virtio0.

(** [src/device.c 362-386] virtio_read *)
Definition virtio_read (p : Platform) (off : Z) : Z :=
  let v := virtio p in
  if off =? V_MAGIC then V_MAGIC_VALUE
  else if off =? V_VERSION then 2
  else if off =? V_DEVICE_ID then V_BLK_ID
  else if off =? V_VENDOR_ID then V_VENDOR_QEMU
  else if off =? V_DEVICE_FEAT then
    if v_features_sel v =? 1 then 1
    else if d_writable (disk p) then 1 << VIRTIO_BLK_F_FLUSH else 0
  else if off =? V_QUEUE_NUM_MAX then V_QUEUE_MAX
  else if off =? V_QUEUE_READY then v_queue_ready v
  else if off =? V_INT_STATUS then v_interrupt_status v
  else if off =? V_STATUS then v_status v
  else if off =? V_CONFIG_GEN then 0
  else if off =? V_CONFIG then u32 (d_size (disk p) / SECTOR_SIZE)
  else if off =? V_CONFIG + 4 then u32 ((d_size (disk p) / SECTOR_SIZE) >> 32)
  else 0.

(** The two halves of a 64-bit register written as 32-bit words.
    [src/device.c 400-401] virtio_write *)
Definition set_lo (r val : Z) : Z := (r .& 0xffffffff00000000) .| val.
(** [src/device.c 401-402] virtio_write *)
Definition set_hi (r val : Z) : Z := (r .& 0x00000000ffffffff) .| u64 (val << 32).

(** [src/device.c 388-408] virtio_write *)
Definition virtio_write (off val : Z) : st Bus unit :=
  let upd f := modify (upd_virtio f) in
  if off =? V_DEVICE_FEAT_SEL then upd (set_v_features_sel val)
  else if off =? V_QUEUE_NUM then upd (set_v_queue_num val)
  else if off =? V_QUEUE_READY then upd (set_v_queue_ready (val .& 1))
  else if off =? V_QUEUE_NOTIFY then virtio_notify
  else if off =? V_INT_ACK then
    upd (fun v => set_v_interrupt_status (v_interrupt_status v .& u32 (Z.lnot val)) v)
  else if off =? V_STATUS then
    upd (set_v_status val) ;; when (val =? 0) (upd (fun _ => virtio_reset))
  else if off =? V_DESC_LOW then upd (fun v => set_v_desc_addr (set_lo (v_desc_addr v) val) v)
  else if off =? V_DESC_HIGH then upd (fun v => set_v_desc_addr (set_hi (v_desc_addr v) val) v)
  else if off =? V_AVAIL_LOW then upd (fun v => set_v_avail_addr (set_lo (v_avail_addr v) val) v)
  else if off =? V_AVAIL_HIGH then upd (fun v => set_v_avail_addr (set_hi (v_avail_addr v) val) v)
  else if off =? V_USED_LOW then upd (fun v => set_v_used_addr (set_lo (v_used_addr v) val) v)
  else if off =? V_USED_HIGH then upd (fun v => set_v_used_addr (set_hi (v_used_addr v) val) v)
  else mret tt.

(** ** virtio-mmio network device *)

(** [memcpy] of a byte list to offset [o]. *)
Fixpoint put_bytes (o : Z) (bs : list Z) (a : arr) : arr :=
  match bs with
  | [] => a
  | x :: bs => put_bytes (o + 1) bs (aset o x a)
  end.

(** [src/device.c 429-437] net_fifo_push *)
Definition net_fifo_push (frame : list Z) (n : VirtioNet) : bool * VirtioNet :=
  let len := Z.of_nat (length frame) in
  if (len =? 0) || (VIRTIO_NET_FRAME_MAX <? len) then (false, n)
  else if VIRTIO_NET_FIFO <=? n_fifo_count n then (false, n)
  else
    let tail := (n_fifo_head n + n_fifo_count n) mod VIRTIO_NET_FIFO in
    (true, n |> set_n_fifo (put_bytes (tail * VIRTIO_NET_FRAME_MAX) frame (n_fifo n))
             |> set_n_fifo_len (aset tail len (n_fifo_len n))
             |> set_n_fifo_count (n_fifo_count n + 1)).

(** The bytes gathered so far are [out]; a buffer outside RAM is skipped.
    [src/device.c 440-449] net_gather *)
Fixpoint net_gather (b : Bus) (ds : list Desc) (out : list Z) (cap : Z) : list Z :=
  match ds with
  | [] => out
  | (addr, len) :: ds =>
    let total := Z.of_nat (length out) in
    if cap <=? total then out
    else match dma_ptr (b_plat b) addr len with
         | None => net_gather b ds out cap
         | Some o => net_gather b ds (out ++ slice (b_data b) o (Z.to_nat (Z.min len (cap - total)))) cap
         end
  end.

(** [src] is what is left of header and frame, [total] what has been written.
    [src/device.c 453-468] net_scatter *)
Fixpoint net_scatter (ds : list Desc) (src : list Z) (total : Z) : st Bus Z :=
  match ds with
  | [] => mret total
  | (addr, len) :: ds =>
    p ← gets b_plat;
    match dma_ptr p addr len with
    | None => net_scatter ds src total
    | Some o =>
      let now := take (Z.to_nat len) src in
      modify (upd_data (put_bytes o now)) ;;
      net_scatter ds (drop (Z.to_nat len) src) (total + Z.of_nat (length now))
    end
  end.

(** The 12-byte header with [num_buffers = 1].
    [src/device.c 493-495] net_deliver_rx *)
Definition net_hdr : list Z := replicate 10 0 ++ [1; 0].

(** The buffered frame in FIFO slot [fi]. *)
Definition fifo_frame (n : VirtioNet) (fi : Z) : list Z :=
  slice (n_fifo n) (fi * VIRTIO_NET_FRAME_MAX) (Z.to_nat (n_fifo_len n).[fi]).

Definition net_of (b : Bus) : VirtioNet := net (b_plat b).

(** One frame per iteration leaves the FIFO, so its length bounds the loop.  The
    result tells whether a frame was delivered.
    [src/device.c 483-511] net_deliver_rx *)
Fixpoint net_rx_loop (fuel : nat) (avail used : Z) (delivered : bool) : st Bus bool :=
  match fuel with
  | O => mret delivered
  | S fuel =>
    n ← gets net_of;
    if n_fifo_count n <=? 0 then mret delivered
    else
      let q := n_rxq n in
      avail_idx ← gets (fun b => ld16 (b_data b) (avail + 2));
      if q_last_avail q =? avail_idx then mret delivered
      else
        let slot := u16 (q_last_avail q mod q_num q) in
        head ← gets (fun b => ld16 (b_data b) (avail + 4 + slot * 2));
        chain ← gets (fun b => vq_chain b (q_desc_addr q) (q_num q) head);
        let fi := n_fifo_head n in
        wlen ← net_scatter chain (net_hdr ++ fifo_frame n fi) 0;
        modify (used_push used (q_num q) head wlen) ;;
        modify (upd_net (fun n => n
          |> set_n_rxq (set_q_last_avail (u16 (q_last_avail q + 1)) (n_rxq n))
          |> set_n_fifo_head ((fi + 1) mod VIRTIO_NET_FIFO)
          |> set_n_fifo_count (n_fifo_count n - 1))) ;;
        net_rx_loop fuel avail used true
  end.

(** Raise the used-ring interrupt bit. *)
Definition net_raise : Bus -> Bus :=
  upd_net (fun n => set_n_interrupt_status (n_interrupt_status n .| 0x1) n).

(** [src/device.c 474-513] net_deliver_rx *)
Definition net_deliver_rx : st Bus unit :=
  p ← gets b_plat;
  let q := n_rxq (net p) in
  if (q_ready q =? 0) || (q_num q =? 0) || (V_QUEUE_MAX <? q_num q) then mret tt
  else
    match dma_ptr p (q_avail_addr q) (4 + q_num q * 2), dma_ptr p (q_used_addr q) (4 + q_num q * 8) with
    | Some avail, Some used =>
      delivered ← net_rx_loop (Z.to_nat (n_fifo_count (net p))) avail used false;
      when delivered (modify net_raise)
    | _, _ => mret tt
    end.

(** [src/device.c 623-627] plat_net_rx *)
Definition plat_net_rx (frame : list Z) : st Bus Z :=
  r ← gets (fun b => net_fifo_push frame (net_of b));
  if r.1 : bool then modify (upd_net (fun _ => r.2)) ;; net_deliver_rx ;; mret 1
  else mret 0.

(** [src/device.c 629-634] plat_net_set_backend *)
Definition plat_net_set_backend (tx : option TxBackend) (p : Platform) : Platform :=
  set_net (set_n_tx tx (net p)) p.

(** The frames a backend delivers before its [tx] callback returns. *)
Fixpoint net_rx_all (frames : list (list Z)) : st Bus unit :=
  match frames with
  | [] => mret tt
  | f :: fs => plat_net_rx f ;; net_rx_all fs
  end.

(** [src/device.c 517-521] net_transmit *)
Definition net_transmit (frame : list Z) : st Bus unit :=
  n ← gets net_of;
  match n_tx n with
  | Some tx =>
    modify (emit (NetTx frame)) ;;
    modify (upd_net (set_n_txlog (frame :: n_txlog n))) ;;
    net_rx_all (tx (frame :: n_txlog n))
  | None =>
    r ← gets (fun b => net_fifo_push frame (net_of b));
    when r.1 (modify (upd_net (fun _ => r.2)) ;; net_deliver_rx)
  end.

(** [src/device.c 534-554] net_process_tx *)
Fixpoint net_tx_loop (fuel : nat) (avail used avail_idx : Z) (sent : bool) : st Bus bool :=
  match fuel with
  | O => mret sent
  | S fuel =>
    q ← gets (fun b => n_txq (net_of b));
    if q_last_avail q =? avail_idx then mret sent
    else
      let slot := u16 (q_last_avail q mod q_num q) in
      head ← gets (fun b => ld16 (b_data b) (avail + 4 + slot * 2));
      buf ← gets (fun b => net_gather b (vq_chain b (q_desc_addr q) (q_num q) head) []
                             (VIRTIO_NET_HDR_LEN + VIRTIO_NET_FRAME_MAX));
      when (VIRTIO_NET_HDR_LEN <? Z.of_nat (length buf))
        (net_transmit (drop (Z.to_nat VIRTIO_NET_HDR_LEN) buf)) ;;
      modify (used_push used (q_num q) head 0) ;;
      modify (upd_net (fun n => set_n_txq (set_q_last_avail (u16 (q_last_avail q + 1)) (n_txq n)) n)) ;;
      net_tx_loop fuel avail used avail_idx true
  end.

(** [src/device.c 524-556] net_process_tx *)
Definition net_process_tx : st Bus unit :=
  p ← gets b_plat;
  let q := n_txq (net p) in
  if (q_ready q =? 0) || (q_num q =? 0) || (V_QUEUE_MAX <? q_num q) then mret tt
  else
    match dma_ptr p (q_avail_addr q) (4 + q_num q * 2), dma_ptr p (q_used_addr q) (4 + q_num q * 8) with
    | Some avail, Some used =>
      avail_idx ← gets (fun b => ld16 (b_data b) (avail + 2));
      sent ← net_tx_loop (Pos.to_nat 65536) avail used avail_idx false;
      when sent (modify net_raise)
    | _, _ => mret tt
    end.

(** [src/device.c 560-568] net_reset *)
Definition net_reset (n : VirtioNet) : VirtioNet :=
  n |> set_n_status 0 |> set_n_features_sel 0 |> set_n_driver_feat_sel 0 |> set_n_queue_sel 0
    |> set_n_interrupt_status 0 |> set_n_rxq Virtqueue0 |> set_n_txq Virtqueue0
    |> set_n_fifo_head 0 |> set_n_fifo_count 0.

(** The queue [queue_sel] selects; [None] is the NULL pointer.
    [src/device.c 572-572] virtio_net_read *)
Definition net_sel (n : VirtioNet) : option Virtqueue :=
  if n_queue_sel n =? VIRTIO_NET_RXQ then Some (n_rxq n)
  else if n_queue_sel n =? VIRTIO_NET_TXQ then Some (n_txq n)
  else None.

(** [src/device.c 570-593] virtio_net_read *)
Definition virtio_net_read (p : Platform) (off : Z) : Z :=
  let n := net p in
  let mac i := (n_mac n).[i] in
  if off =? V_MAGIC then V_MAGIC_VALUE
  else if off =? V_VERSION then 2
  else if off =? V_DEVICE_ID then VIRTIO_NET_ID
  else if off =? V_VENDOR_ID then V_VENDOR_QEMU
  else if off =? V_DEVICE_FEAT then
    if n_features_sel n =? 1 then 1 else 1 << VIRTIO_NET_F_MAC_BIT
  else if off =? V_QUEUE_NUM_MAX then V_QUEUE_MAX
  else if off =? V_QUEUE_READY then match net_sel n with Some q => q_ready q | None => 0 end
  else if off =? V_INT_STATUS then n_interrupt_status n
  else if off =? V_STATUS then n_status n
  else if off =? V_CONFIG_GEN then 0
  else if off =? V_CONFIG then
    mac 0 .| u32 (mac 1 << 8) .| u32 (mac 2 << 16) .| u32 (mac 3 << 24)
  else if off =? V_CONFIG + 4 then mac 4 .| u32 (mac 5 << 8)
  else 0.

(** Update the selected queue ([if (q) q->field = ...]). *)
Definition upd_sel (f : Virtqueue -> Virtqueue) (n : VirtioNet) : VirtioNet :=
  if n_queue_sel n =? VIRTIO_NET_RXQ then set_n_rxq (f (n_rxq n)) n
  else if n_queue_sel n =? VIRTIO_NET_TXQ then set_n_txq (f (n_txq n)) n
  else n.

(** [src/device.c 595-621] virtio_net_write *)
Definition virtio_net_write (off val : Z) : st Bus unit :=
  let upd f := modify (upd_net f) in
  let updq f := modify (upd_net (upd_sel f)) in
  if off =? V_DEVICE_FEAT_SEL then upd (set_n_features_sel val)
  else if off =? V_DRIVER_FEAT_SEL then upd (set_n_driver_feat_sel val)
  else if off =? V_QUEUE_SEL then upd (set_n_queue_sel val)
  else if off =? V_QUEUE_NUM then updq (set_q_num val)
  else if off =? V_QUEUE_READY then updq (set_q_ready (val .& 1))
  else if off =? V_QUEUE_NOTIFY then
    if val =? VIRTIO_NET_TXQ then net_process_tx
    else if val =? VIRTIO_NET_RXQ then net_deliver_rx
    else mret tt
  else if off =? V_INT_ACK then
    upd (fun n => set_n_interrupt_status (n_interrupt_status n .& u32 (Z.lnot val)) n)
  else if off =? V_STATUS then upd (set_n_status val) ;; when (val =? 0) (upd net_reset)
  else if off =? V_DESC_LOW then updq (fun q => set_q_desc_addr (set_lo (q_desc_addr q) val) q)
  else if off =? V_DESC_HIGH then updq (fun q => set_q_desc_addr (set_hi (q_desc_addr q) val) q)
  else if off =? V_AVAIL_LOW then updq (fun q => set_q_avail_addr (set_lo (q_avail_addr q) val) q)
  else if off =? V_AVAIL_HIGH then updq (fun q => set_q_avail_addr (set_hi (q_avail_addr q) val) q)
  else if off =? V_USED_LOW then updq (fun q => set_q_used_addr (set_lo (q_used_addr q) val) q)
  else if off =? V_USED_HIGH then updq (fun q => set_q_used_addr (set_hi (q_used_addr q) val) q)
  else mret tt.

(** ** PLIC *)

(** [src/device.c 642-648] plic_lines *)
Definition plic_lines (p : Platform) : Z :=
  (if uart_asserted (uart p) then 1 << UART_IRQ else 0)
  .| (if v_interrupt_status (virtio p) =? 0 then 0 else 1 << VIRTIO_IRQ)
  .| (if n_interrupt_status (net p) =? 0 then 0 else 1 << VIRTIO_NET_IRQ).

(** The guards of the scan: may source [s] be presented to context [ctx]?
    [src/device.c 659-662] plic_best *)
Definition plic_ready (p : Platform) (ctx s : Z) : bool :=
  let pl := plic p in
  negb (plic_lines p .& (1 << s) =? 0)
  && negb ((enable pl).[ctx] .& (1 << s) =? 0)
  && negb (s =? (claimed pl).[ctx])
  && ((threshold pl).[ctx] <? (priority pl).[s]).

(** [src/device.c 658-664] plic_best *)
Definition plic_scan (p : Platform) (ctx : Z) (acc : Z * Z) (s : Z) : Z * Z :=
  if plic_ready p ctx s && (acc.2 <? (priority (plic p)).[s])
  then (s, (priority (plic p)).[s]) else acc.

(** [src/device.c 654-666] plic_best *)
Definition plic_best (p : Platform) (ctx : Z) : Z :=
  (foldl (plic_scan p ctx) (0, 0) (zseq 1 (Z.to_nat (PLIC_NSOURCES - 1)))).1.

(** [src/device.c 670-674] plic_claim *)
Definition plic_claim (ctx : Z) : st Bus Z :=
  s ← gets (fun b => plic_best (b_plat b) ctx);
  when (negb (s =? 0)) (modify (upd_plic (fun pl => set_claimed (aset ctx s (claimed pl)) pl))) ;;
  mret s.

(** [src/device.c 679-695] plic_read *)
Definition plic_read (off : Z) : st Bus Z :=
  p ← gets b_plat;
  if off <? 0x1000 then
    let s := off / 4 in
    mret (if s <? PLIC_NSOURCES then (priority (plic p)).[s] else 0)
  else if off =? 0x1000 then mret (plic_lines p)
  else if (0x2000 <=? off) && (off <? 0x2000 + PLIC_NCONTEXTS * 0x80) then
    let rel := off - 0x2000 in
    mret (if rel mod 0x80 =? 0 then (enable (plic p)).[rel / 0x80] else 0)
  else if (0x200000 <=? off) && (off <? 0x200000 + PLIC_NCONTEXTS * 0x1000) then
    let rel := off - 0x200000 in
    let ctx := rel / 0x1000 in
    let reg := rel mod 0x1000 in
    if reg =? 0 then mret (threshold (plic p)).[ctx]
    else if reg =? 4 then plic_claim ctx
    else mret 0
  else mret 0.

(** [src/device.c 697-714] plic_write *)
Definition plic_write (off val : Z) (pl : Plic) : Plic :=
  if off <? 0x1000 then
    let s := off / 4 in
    if (1 <=? s) && (s <? PLIC_NSOURCES) then set_priority (aset s val (priority pl)) pl else pl
  else if (0x2000 <=? off) && (off <? 0x2000 + PLIC_NCONTEXTS * 0x80) then
    let rel := off - 0x2000 in
    if rel mod 0x80 =? 0 then set_enable (aset (rel / 0x80) val (enable pl)) pl else pl
  else if (0x200000 <=? off) && (off <? 0x200000 + PLIC_NCONTEXTS * 0x1000) then
    let rel := off - 0x200000 in
    let ctx := rel / 0x1000 in
    let reg := rel mod 0x1000 in
    if reg =? 0 then set_threshold (aset ctx val (threshold pl)) pl
    else if (reg =? 4) && (val =? (claimed pl).[ctx])
    then set_claimed (aset ctx 0 (claimed pl)) pl
    else pl
  else pl.

(** ** CLINT *)

(** [src/device.c 724-734] clint_read *)
Definition clint_read (c : Clint) (off : Z) : Z :=
  if off <? QUANTA_MAX_HARTS * 4 then (msip c).[off / 4] .& 1
  else if (0x4000 <=? off) && (off <? 0x4000 + QUANTA_MAX_HARTS * 8) then
    let rel := off - 0x4000 in
    let h := rel / 8 in
    if rel .& 4 =? 0 then u32 (mtimecmp c).[h] else u32 ((mtimecmp c).[h] >> 32)
  else if off =? 0xbff8 then u32 (mtime c)
  else if off =? 0xbffc then u32 (mtime c >> 32)
  else 0.

(** [src/device.c 736-748] clint_write *)
Definition clint_write (off val : Z) (c : Clint) : Clint :=
  if off <? QUANTA_MAX_HARTS * 4 then set_msip (aset (off / 4) (val .& 1) (msip c)) c
  else if (0x4000 <=? off) && (off <? 0x4000 + QUANTA_MAX_HARTS * 8) then
    let rel := off - 0x4000 in
    let h := rel / 8 in
    if rel .& 4 =? 0 then set_mtimecmp (aset h (set_lo (mtimecmp c).[h] val) (mtimecmp c)) c
    else set_mtimecmp (aset h (set_hi (mtimecmp c).[h] val) (mtimecmp c)) c
  else if off =? 0xbff8 then set_mtime (set_lo (mtime c) val) c
  else if off =? 0xbffc then set_mtime (set_hi (mtime c) val) c
  else c.

(** ** MMIO dispatch and interrupt pull *)

(** The word-register devices: [None] when no such window holds the address.
    [src/device.c 760-769] plat_read *)
Definition plat_read_word (addr : Z) : st Bus (option Z) :=
  p ← gets b_plat;
  if in_window addr CLINT_BASE CLINT_SIZE then
    mret (Some (clint_read (clint p) (u32 (u64 (addr - CLINT_BASE) .& u32 (Z.lnot 3)))))
  else if in_window addr PLIC_BASE PLIC_SIZE then
    w ← plic_read (u32 (u64 (addr - PLIC_BASE) .& u32 (Z.lnot 3))); mret (Some w)
  else if in_window addr VIRTIO_BASE VIRTIO_SIZE then
    mret (Some (virtio_read p (u32 (addr - VIRTIO_BASE) .& u32 (Z.lnot 3))))
  else if in_window addr VIRTIO_NET_BASE VIRTIO_NET_SIZE then
    mret (Some (virtio_net_read p (u32 (addr - VIRTIO_NET_BASE) .& u32 (Z.lnot 3))))
  else mret None.

(** [src/device.c 754-775] plat_read *)
Definition plat_read (addr size : Z) : st Bus Z :=
  if in_window addr UART_BASE UART_SIZE then uart_read (u32 (addr - UART_BASE))
  else
    w ← plat_read_word addr;
    mret match w with
         | None => 0
         | Some word =>
           let word := word >> (8 * (addr .& 3)) in
           if size =? 1 then word .& 0xff
           else if size =? 2 then word .& 0xffff
           else word
         end.

(** [src/device.c 777-791] plat_write *)
Definition plat_write (addr size value : Z) : st Bus unit :=
  if in_window addr TEST_BASE TEST_SIZE then modify (upd_plat (test_write value))
  else if in_window addr UART_BASE UART_SIZE then uart_write (u32 (addr - UART_BASE)) (u8 value)
  else if in_window addr CLINT_BASE CLINT_SIZE then
    modify (upd_clint (clint_write (u32 (u64 (addr - CLINT_BASE) .& u32 (Z.lnot 3))) value))
  else if in_window addr PLIC_BASE PLIC_SIZE then
    modify (upd_plic (plic_write (u32 (u64 (addr - PLIC_BASE) .& u32 (Z.lnot 3))) value))
  else if in_window addr VIRTIO_BASE VIRTIO_SIZE then
    virtio_write (u32 (addr - VIRTIO_BASE) .& u32 (Z.lnot 3)) value
  else if in_window addr VIRTIO_NET_BASE VIRTIO_NET_SIZE then
    virtio_net_write (u32 (addr - VIRTIO_NET_BASE) .& u32 (Z.lnot 3)) value
  else mret tt.

(** [src/device.c 793-810] plat_mip_bits *)
Definition plat_mip_bits (p : Platform) (hart : Z) : Z :=
  let c := clint p in
  let bits :=
    if hart <? QUANTA_MAX_HARTS then
      (if (mtimecmp c).[hart] <=? mtime c then MIP_MTIP else 0)
      .| (if (msip c).[hart] .& 1 =? 0 then 0 else MIP_MSIP)
    else 0 in
  if plic_lines p =? 0 then bits
  else
    bits .| (if plic_best p (2 * hart) =? 0 then 0 else MIP_MEIP)
         .| (if plic_best p (2 * hart + 1) =? 0 then 0 else MIP_SEIP).
