(* ===== verification/DeviceInv.v ===== *)
(** * The bus invariant

    Every register within its C type, the receive FIFO's ring indices in bounds, RAM
    and disk holding bytes: the invariant of the bus, and its preservation by every
    MMIO access together with the confinement of device DMA to guest RAM; the loops
    over the virtqueues and the fuel they need. *)

From S2P Require Import Prelude Device.

(** ** The bus invariant *)

Record clint_ok (c : Clint) : Prop := {
  ok_mtime : rng 64 (mtime c);
  ok_mtimecmp : arr_rng 64 (mtimecmp c);
  ok_msip : arr_rng 32 (msip c)
}.
Record uart_ok (u : Uart) : Prop := {
  ok_ier : rng 8 (ier u); ok_lcr : rng 8 (lcr u); ok_mcr : rng 8 (mcr u); ok_scr : rng 8 (scr u);
  ok_dll : rng 8 (dll u); ok_dlm : rng 8 (dlm u); ok_rx : rng 8 (rx u)
}.
Record plic_ok (p : Plic) : Prop := {
  ok_priority : arr_rng 32 (priority p);
  ok_enable : arr_rng 32 (enable p);
  ok_threshold : arr_rng 32 (threshold p);
  ok_claimed : arr_rng 32 (claimed p)
}.
Record virtio_ok (v : Virtio) : Prop := {
  ok_v_status : rng 32 (v_status v);
  ok_v_features_sel : rng 32 (v_features_sel v);
  ok_v_queue_num : rng 32 (v_queue_num v);
  ok_v_queue_ready : rng 32 (v_queue_ready v);
  ok_v_desc_addr : rng 64 (v_desc_addr v);
  ok_v_avail_addr : rng 64 (v_avail_addr v);
  ok_v_used_addr : rng 64 (v_used_addr v);
  ok_v_last_avail : rng 16 (v_last_avail v);
  ok_v_interrupt_status : rng 32 (v_interrupt_status v)
}.
Record vq_ok (q : Virtqueue) : Prop := {
  ok_q_num : rng 32 (q_num q);
  ok_q_ready : rng 32 (q_ready q);
  ok_q_desc_addr : rng 64 (q_desc_addr q);
  ok_q_avail_addr : rng 64 (q_avail_addr q);
  ok_q_used_addr : rng 64 (q_used_addr q);
  ok_q_last_avail : rng 16 (q_last_avail q)
}.

(** A frame is a list of bytes; a backend hands over frames. *)
Definition bytes (l : list Z) : Prop := Forall (rng 8) l.
Definition backend_ok (tx : TxBackend) : Prop := forall log, Forall bytes (tx log).

Record net_ok (n : VirtioNet) : Prop := {
  ok_n_status : rng 32 (n_status n);
  ok_n_features_sel : rng 32 (n_features_sel n);
  ok_n_driver_feat_sel : rng 32 (n_driver_feat_sel n);
  ok_n_queue_sel : rng 32 (n_queue_sel n);
  ok_n_interrupt_status : rng 32 (n_interrupt_status n);
  ok_n_rxq : vq_ok (n_rxq n);
  ok_n_txq : vq_ok (n_txq n);
  ok_n_mac : arr_rng 8 (n_mac n);
  ok_n_fifo : arr_rng 8 (n_fifo n);
  ok_n_fifo_len : forall i, 0 <= (n_fifo_len n).[i] <= VIRTIO_NET_FRAME_MAX;
  ok_n_fifo_head : 0 <= n_fifo_head n < VIRTIO_NET_FIFO;
  ok_n_fifo_count : 0 <= n_fifo_count n <= VIRTIO_NET_FIFO;
  ok_n_tx : match n_tx n with Some tx => backend_ok tx | None => True end
}.
Record disk_ok (d : Disk) : Prop := {
  ok_d_data : arr_rng 8 (d_data d);
  ok_d_size : rng 64 (d_size d);
  ok_d_present : d_size d <> 0 -> d_present d = true
}.
Record plat_ok (p : Platform) : Prop := {
  ok_clint : clint_ok (clint p);
  ok_uart : uart_ok (uart p);
  ok_plic : plic_ok (plic p);
  ok_virtio : virtio_ok (virtio p);
  ok_net : net_ok (net p);
  ok_disk : disk_ok (disk p);
  ok_ram_base : rng 64 (ram_base p);
  ok_ram_size : rng 64 (ram_size p);
  ok_poweroff_code : rng 8 (poweroff_code p)
}.
Record bus_ok (b : Bus) : Prop := {
  ok_b_data : arr_rng 8 (b_data b);
  ok_b_plat : plat_ok (b_plat b)
}.

(** [frame b0 b]: since [b0], the memory window, the DMA window and everything in
    the RAM array outside the DMA window are untouched. *)
Record frame (b0 b : Bus) : Prop := {
  fr_base : b_base b = b_base b0;
  fr_size : b_size b = b_size b0;
  fr_fault : b_fault b = b_fault b0;
  fr_fault_addr : b_fault_addr b = b_fault_addr b0;
  fr_has_plat : b_has_plat b = b_has_plat b0;
  fr_has_ram : has_ram (b_plat b) = has_ram (b_plat b0);
  fr_ram_base : ram_base (b_plat b) = ram_base (b_plat b0);
  fr_ram_size : ram_size (b_plat b) = ram_size (b_plat b0);
  fr_nharts : nharts (b_plat b) = nharts (b_plat b0);
  fr_data : forall o, ~ (0 <= o < ram_size (b_plat b0)) -> (b_data b).[o] = (b_data b0).[o]
}.

Definition inv (b0 b : Bus) : Prop := bus_ok b /\ frame b0 b.

#[export] Hint Resolve ok_mtime ok_mtimecmp ok_msip ok_ier ok_lcr ok_mcr ok_scr ok_dll ok_dlm ok_rx
  ok_priority ok_enable ok_threshold ok_claimed ok_v_status ok_v_features_sel ok_v_queue_num
  ok_v_queue_ready ok_v_desc_addr ok_v_avail_addr ok_v_used_addr ok_v_last_avail
  ok_v_interrupt_status ok_q_num ok_q_ready ok_q_desc_addr ok_q_avail_addr ok_q_used_addr
  ok_q_last_avail ok_n_status ok_n_features_sel ok_n_driver_feat_sel ok_n_queue_sel
  ok_n_interrupt_status ok_n_rxq ok_n_txq ok_n_mac ok_n_fifo ok_d_data ok_d_size ok_clint ok_uart
  ok_plic ok_virtio ok_net ok_disk ok_ram_base ok_ram_size ok_poweroff_code ok_b_data ok_b_plat : rng.

Lemma frame_refl b : frame b b.
Proof. by constructor. Qed.

Lemma aget_rng w a i : arr_rng w a -> rng w a.[i].
Proof. intros H. apply H. Qed.
#[export] Hint Resolve aget_rng : rng.
#[export] Hint Extern 1 (rng _ (set_lo _ _)) => unfold set_lo : rng.
#[export] Hint Extern 1 (rng _ (set_hi _ _)) => unfold set_hi : rng.

(** Updating the platform keeps the invariant when the update keeps the platform's
    and leaves the DMA window alone. *)
Lemma pres_plat b0 f :
  (forall p, plat_ok p -> plat_ok (f p)) ->
  (forall p, has_ram (f p) = has_ram p /\ ram_base (f p) = ram_base p
             /\ ram_size (f p) = ram_size p /\ nharts (f p) = nharts p) ->
  pres (inv b0) (modify (upd_plat f)).
Proof.
  intros Hok Hram b [[Hd Hp] Hf]. destruct (Hram (b_plat b)) as (E1 & E2 & E3 & E4).
  destruct Hf. split; constructor; simpl; rewrite ?E1, ?E2, ?E3, ?E4; auto.
Qed.

(** The update of one device's record, field by field. *)
Ltac plat_update :=
  intros; apply pres_plat; [|done]; intros p []; constructor; simpl; auto.

Section Updates.
Context (b0 : Bus).

Lemma pres_uart f : (forall u, uart_ok u -> uart_ok (f u)) -> pres (inv b0) (modify (upd_uart f)).
Proof. plat_update. Qed.
Lemma pres_clint f : (forall u, clint_ok u -> clint_ok (f u)) -> pres (inv b0) (modify (upd_clint f)).
Proof. plat_update. Qed.
Lemma pres_plic f : (forall u, plic_ok u -> plic_ok (f u)) -> pres (inv b0) (modify (upd_plic f)).
Proof. plat_update. Qed.
Lemma pres_virtio f : (forall u, virtio_ok u -> virtio_ok (f u)) -> pres (inv b0) (modify (upd_virtio f)).
Proof. plat_update. Qed.
Lemma pres_net f : (forall u, net_ok u -> net_ok (f u)) -> pres (inv b0) (modify (upd_net f)).
Proof. plat_update. Qed.
Lemma pres_disk f : (forall u, disk_ok u -> disk_ok (f u)) -> pres (inv b0) (modify (upd_disk f)).
Proof. plat_update. Qed.
Lemma pres_emit e : pres (inv b0) (modify (emit e)).
Proof. intros b [[] []]. by split; constructor. Qed.
End Updates.
#[export] Hint Resolve pres_emit : pres.

(** ** DMA *)

(** The window a successful [dma_ptr] returns lies inside guest RAM. *)
Lemma dma_ptr_bounds p addr len o :
  plat_ok p -> 0 <= len -> dma_ptr p addr len = Some o -> 0 <= o /\ o + len <= ram_size p.
Proof.
  intros Hp Hl. unfold dma_ptr. destruct (ok_ram_size p Hp) as [Hs0 Hs1].
  destruct (_ || _) eqn:E; [done|]. apply orb_false_iff in E as [[_ E%Z.ltb_ge]%orb_false_iff _].
  destruct (Z.ltb_spec (u64 (ram_size p - len)) (u64 (addr - ram_base p))); [done|].
  intros [= <-]. pose proof (u64_rng (addr - ram_base p)) as [? _].
  unfold u64 in *. rewrite (wrap_small 64 (ram_size p - len)) in H by (lia || (unfold rng; lia)). lia.
Qed.

Lemma dma_ptr_frame b0 b addr len :
  frame b0 b -> dma_ptr (b_plat b) addr len = dma_ptr (b_plat b0) addr len.
Proof. intros []. unfold dma_ptr. by rewrite fr_has_ram0, fr_ram_base0, fr_ram_size0. Qed.

(** A write to the RAM array that stays within [[0, sz)] and writes bytes. *)
Definition ram_op (sz : Z) (f : arr -> arr) : Prop :=
  forall a, arr_rng 8 a -> arr_rng 8 (f a) /\ forall o, ~ (0 <= o < sz) -> (f a).[o] = a.[o].

Lemma ram_op_aset sz o v : 0 <= o < sz -> rng 8 v -> ram_op sz (aset o v).
Proof.
  intros Ho Hv a Ha. split; [by apply arr_rng_aset|].
  intros k Hk. apply aget_aset_ne. lia.
Qed.

Lemma ram_op_compose sz f g : ram_op sz f -> ram_op sz g -> ram_op sz (fun a => g (f a)).
Proof.
  intros Hf Hg a Ha. destruct (Hf a Ha) as [Ha' E]. destruct (Hg _ Ha') as [? E'].
  split; [done|]. intros o Ho. by rewrite E', E.
Qed.

Lemma ram_op_st16 sz o v : 0 <= o -> o + 2 <= sz -> ram_op sz (st16 o v).
Proof.
  intros. apply ram_op_compose with (f := aset o (u8 v)); apply ram_op_aset; (lia || rng_auto).
Qed.

Lemma ram_op_st32 sz o v : 0 <= o -> o + 4 <= sz -> ram_op sz (st32 o v).
Proof.
  intros. unfold st32.
  apply ram_op_compose with (g := aset (o + 3) (u8 (v >> 24))); [|apply ram_op_aset; (lia || rng_auto)].
  apply ram_op_compose with (g := aset (o + 2) (u8 (v >> 16))); [|apply ram_op_aset; (lia || rng_auto)].
  apply ram_op_compose with (g := aset (o + 1) (u8 (v >> 8))); apply ram_op_aset; (lia || rng_auto).
Qed.

Lemma ram_op_put_bytes sz bs : forall o,
  0 <= o -> o + Z.of_nat (length bs) <= sz -> bytes bs -> ram_op sz (put_bytes o bs).
Proof.
  induction bs as [|x bs IH]; simpl; intros o H0 H1 Hb; [by intros a Ha|].
  inversion Hb; subst. apply ram_op_compose with (f := aset o x); [apply ram_op_aset; (lia || done)|].
  apply IH; (lia || done).
Qed.

Lemma pres_data b0 f :
  ram_op (ram_size (b_plat b0)) f -> pres (inv b0) (modify (upd_data f)).
Proof.
  intros Hf b [[Hd Hp] []]. destruct (Hf _ Hd) as [Hd' E].
  split; constructor; simpl; auto. intros o Ho. rewrite E by done. auto.
Qed.

(** ** Loads *)

Lemma ld16_rng m o : rng 16 (ld16 m o).
Proof. apply u16_rng. Qed.
Lemma ld32_rng m o : arr_rng 8 m -> rng 32 (ld32 m o).
Proof. intros. unfold ld32. rng_auto. Qed.
Lemma ld64_rng m o : arr_rng 8 m -> rng 64 (ld64 m o).
Proof.
  intros. unfold ld64. apply lor_rng; [lia| |rng_auto].
  apply (rng_mono 32); [lia|by apply ld32_rng].
Qed.
#[export] Hint Resolve ld16_rng ld32_rng ld64_rng : rng.

(** ** Descriptor chains *)

Definition desc_ok (d : Desc) : Prop := rng 64 d.1 /\ rng 32 d.2.

Lemma vq_chain_from_ok b base qn fuel : forall n idx,
  bus_ok b -> Forall desc_ok (vq_chain_from fuel b base qn n idx).
Proof.
  induction fuel as [|fuel IH]; intros n idx Hb; [done|]. simpl.
  destruct (_ || _); [done|]. destruct (dma_ptr _ _ _) as [d|]; [|done].
  destruct Hb as [Hd Hp]. constructor; [split; simpl; rng_auto|].
  destruct (_ =? 0); [done|]. by apply IH.
Qed.

Lemma vq_chain_ok b base qn head : bus_ok b -> Forall desc_ok (vq_chain b base qn head).
Proof. apply vq_chain_from_ok. Qed.

Lemma vq_chain_from_bound b base qn fuel : forall n idx,
  0 <= n -> Z.of_nat (length (vq_chain_from fuel b base qn n idx)) <= Z.max 0 (Z.min qn V_QUEUE_MAX - n).
Proof.
  unfold V_QUEUE_MAX.
  induction fuel as [|fuel IH]; intros n idx Hn; [simpl; lia|]. simpl.
  destruct (Z.leb_spec qn n); simpl; [lia|]. unfold V_QUEUE_MAX.
  destruct (Z.leb_spec 256 n); simpl; [lia|].
  destruct (dma_ptr _ _ _) as [d|]; simpl; [|lia].
  destruct (_ =? 0); simpl; [lia|]. specialize (IH (n + 1) (ld16 (b_data b) (d + 14)) ltac:(lia)). lia.
Qed.

(** More fuel than the loop's own bound changes nothing. *)
Lemma vq_chain_from_fuel b base qn fuel : forall fuel' n idx,
  (Z.to_nat (V_QUEUE_MAX - n) <= fuel)%nat -> (Z.to_nat (V_QUEUE_MAX - n) <= fuel')%nat ->
  vq_chain_from fuel b base qn n idx = vq_chain_from fuel' b base qn n idx.
Proof.
  unfold V_QUEUE_MAX.
  induction fuel as [|fuel IH]; intros [|fuel'] n idx H1 H2; simpl; try done.
  - assert ((256 <=? n) = true) as E by (apply Z.leb_le; lia). unfold V_QUEUE_MAX.
    by rewrite E, orb_true_r.
  - assert ((256 <=? n) = true) as E by (apply Z.leb_le; lia). unfold V_QUEUE_MAX.
    by rewrite E, orb_true_r.
  - destruct (_ || _) eqn:E; [done|]. destruct (dma_ptr _ _ _) as [d|]; [|done].
    f_equal. destruct (_ =? 0); [done|]. apply IH; lia.
Qed.

(** ** The block device keeps the invariant *)

Section Block.
Context (b0 : Bus).
Abbreviation sz := (ram_size (b_plat b0)).

Lemma dma_ptr_sz b addr len o :
inv b0 b -> 0 <= len -> dma_ptr (b_plat b) addr len = Some o -> 0 <= o /\ o + len <= sz.
Proof.
intros [Hb Hf] Hl E. rewrite <- (fr_ram_size _ _ Hf).
by apply (dma_ptr_bounds _ addr); [apply ok_b_plat| |].
Qed.

Lemma pres_blk_copy_byte type buf off k :
0 <= buf + k < sz -> pres (inv b0) (modify (blk_copy_byte type buf off k)).
Proof.
intros Hk b Hb. unfold exec, modify, blk_copy_byte; simpl.
assert (disk_ok (disk (b_plat b))) as Hd by (destruct Hb as [[_ []] _]; done).
assert (arr_rng 8 (b_data b)) as Ha by (destruct Hb as [[] _]; done).
destruct (type =? _); [|destruct (_ && _); [|done]].
- apply (pres_data b0); [|done]. apply ram_op_aset; [lia|]. rng_auto.
- apply (pres_disk b0); [|done]. intros d' [? ? ?]; constructor; simpl; [|done..].
  apply arr_rng_aset; [apply Hd|apply Ha].
Qed.

Lemma pres_write_through type off len : pres (inv b0) (modify (blk_write_through type off len)).
Proof.
intros b Hb. unfold exec, modify, blk_write_through; simpl.
destruct (_ && _); [|done]. by apply (pres_emit b0).
Qed.

Lemma pres_blk_data type ds : forall off written,
Forall desc_ok ds -> pres (inv b0) (blk_data type ds off written).
Proof.
induction ds as [|[addr len] ds IH]; intros off written Hds; [apply pres_ret|].
inversion Hds as [|? ? [_ Hl]]; subst. simpl in Hl |- *.
apply pres_gets_bind. intros b Hb. destruct (dma_ptr _ _ _) as [buf|] eqn:E; [|apply pres_ret].
destruct (dma_ptr_sz _ _ _ _ Hb (proj1 Hl) E).
apply pres_bind; [apply pres_for; intros; apply pres_blk_copy_byte; lia|]. intros _.
apply pres_bind; [apply pres_write_through|]. intros _. by apply IH.
Qed.

Lemma blk_data_status type ds : forall off written b,
rng 8 (run (blk_data type ds off written) b).2.
Proof.
induction ds as [|[addr len] ds IH]; intros off written b; cbn [blk_data]; st_simpl; [simpl; rng_auto|].
destruct (dma_ptr _ _ _); st_simpl; [apply IH|simpl; rng_auto].
Qed.

Lemma removelast_ok ds : Forall desc_ok ds -> Forall desc_ok (removelast ds).
Proof.
induction ds as [|d ds IH]; [done|]. intros H; inversion H; subst.
simpl. destruct ds; [done|]. constructor; [done|]. by apply IH.
Qed.

Lemma pres_virtio_service head : pres (inv b0) (virtio_service head).
Proof.
unfold virtio_service. apply pres_gets_bind. intros b1 H1.
destruct (_ || _); [apply pres_ret|].
apply pres_gets_bind. intros b2 H2.
pose proof (vq_chain_ok b2 (v_desc_addr (virtio (b_plat b1))) (v_queue_num (virtio (b_plat b1)))
  head (proj1 H2)) as Hc.
destruct (vq_chain _ _ _ _) as [|d0 [|d1 rest]]; [apply pres_ret..|].
destruct (Forall_cons_1 _ _ _ Hc) as [_ Hc']. apply pres_gets_bind. intros b3 H3.
destruct (blk_header _ _) as [type sector].
apply (pres_bind_val _ (fun r => rng 8 r.2));
  [by apply pres_blk_data, removelast_ok|intros; apply blk_data_status|].
intros [written status] Hst. simpl in Hst.
apply pres_gets_bind. intros b6 H6. apply pres_bind; [pres_auto|]. intros _.
apply pres_gets_bind. intros b7 H7. apply pres_bind; [|intros; apply pres_ret].
destruct (dma_ptr _ _ _) as [so|] eqn:E; [|apply pres_ret].
destruct (dma_ptr_sz _ _ 1 _ H7 ltac:(lia) E).
apply pres_data, ram_op_aset; [lia|done].
Qed.

Lemma pres_used_push used num head wlen :
0 <= used -> 0 < num -> used + (4 + num * 8) <= sz ->
pres (inv b0) (modify (used_push used num head wlen)).
Proof.
intros Hu Hn Hs b Hb. unfold used_push, exec, modify; simpl.
set (uidx := ld16 _ _). pose proof (Z.mod_pos_bound uidx num Hn).
apply (pres_data b0 (st16 _ _)); [apply ram_op_st16; lia|].
apply (pres_data b0 (st32 _ _)); [apply ram_op_st32; lia|].
apply (pres_data b0 (st32 _ _)); [apply ram_op_st32; lia|done].
Qed.
End Block.

(** *** Register files are not touched by DMA *)

Definition regs (b : Bus) := (clint (b_plat b), uart (b_plat b), plic (b_plat b),
  virtio (b_plat b), net (b_plat b)).
Definition keeps_regs {A} (m : st Bus A) : Prop := forall r, pres (fun b => regs b = r) m.

Lemma keeps_data f : keeps_regs (modify (upd_data f)).
Proof. by intros r b. Qed.
Lemma keeps_disk f : keeps_regs (modify (upd_disk f)).
Proof. by intros r b. Qed.
Lemma keeps_emit e : keeps_regs (modify (emit e)).
Proof. by intros r b. Qed.

Lemma keeps_blk_copy_byte type buf off k : keeps_regs (modify (blk_copy_byte type buf off k)).
Proof.
  intros r b Hb. unfold exec, modify, blk_copy_byte; simpl.
  destruct (type =? _); [done|]. by destruct (_ && _).
Qed.

Lemma keeps_write_through type off len : keeps_regs (modify (blk_write_through type off len)).
Proof. intros r b Hb. unfold exec, modify, blk_write_through; simpl. by destruct (_ && _). Qed.

Lemma keeps_used_push used num head wlen : keeps_regs (modify (used_push used num head wlen)).
Proof. by intros r b. Qed.

Lemma keeps_blk_data type ds : forall off written, keeps_regs (blk_data type ds off written).
Proof.
  induction ds as [|[addr len] ds IH]; intros off written r; cbn [blk_data]; [apply pres_ret|].
  pres_step; [pres_step|]. destruct (dma_ptr _ _ _); [|pres_step].
  pres_step; [apply pres_for; intros; apply keeps_blk_copy_byte|].
  pres_step; [apply keeps_write_through|]. apply IH.
Qed.

Lemma keeps_virtio_service head : keeps_regs (virtio_service head).
Proof.
  intros r. unfold virtio_service. repeat first [apply keeps_blk_data | apply keeps_data
    | apply keeps_emit | pres_step].
Qed.

Lemma regs_virtio {A} (m : st Bus A) b :
  keeps_regs m -> virtio (b_plat (exec m b)) = virtio (b_plat b).
Proof. intros H. specialize (H (regs b) b eq_refl). by injection H. Qed.

Lemma regs_net {A} (m : st Bus A) b : keeps_regs m -> net (b_plat (exec m b)) = net (b_plat b).
Proof. intros H. specialize (H (regs b) b eq_refl). by injection H. Qed.

(** *** Notification *)

Lemma virtio_last_avail_ok a v : rng 16 a -> virtio_ok v -> virtio_ok (set_v_last_avail a v).
Proof. intros ? []; by constructor. Qed.

Section Notify.
Context (b0 : Bus) (avail used qn : Z).
Hypothesis Hqn : 0 < qn.
Hypothesis Hused : 0 <= used /\ used + (4 + qn * 8) <= ram_size (b_plat b0).
Let J (b : Bus) : Prop := inv b0 b /\ v_queue_num (virtio (b_plat b)) = qn.

(** One iteration of the loop. *)
Definition notify_step (v : Virtio) : st Bus unit :=
let slot := u16 (v_last_avail v mod v_queue_num v) in
head ← gets (fun b => ld16 (b_data b) (avail + 4 + slot * 2));
wlen ← virtio_service head;
modify (used_push used (v_queue_num v) head wlen) ;;
modify (upd_virtio (fun v => set_v_last_avail (u16 (v_last_avail v + 1)) v)).

Lemma notify_step_virtio v b :
virtio (b_plat (exec (notify_step v) b))
= set_v_last_avail (u16 (v_last_avail (virtio (b_plat b)) + 1)) (virtio (b_plat b)).
Proof.
unfold notify_step. st_simpl.
match goal with |- context [exec (virtio_service ?h) b] =>
  rewrite <- (regs_virtio _ b (keeps_virtio_service h)) end. done.
Qed.

Lemma pres_notify_step v : v_queue_num v = qn -> pres J (notify_step v).
Proof.
intros Hv b [Hb Hq]. split; [|by rewrite notify_step_virtio].
revert b Hb Hq. intros b Hb _. revert b Hb.
match goal with |- forall b, _ -> _ => change (pres (inv b0) (notify_step v)) end.
unfold notify_step. pres_step; [pres_step|]. pres_step; [by apply pres_virtio_service|].
pres_step; [apply pres_used_push; rewrite ?Hv; lia|].
apply pres_virtio. intros u Hu. apply virtio_last_avail_ok; [rng_auto|done].
Qed.

Lemma notify_loop_unfold fuel avail_idx b :
exec (virtio_notify_loop (S fuel) avail used avail_idx) b =
if v_last_avail (virtio (b_plat b)) =? avail_idx then b
else exec (virtio_notify_loop fuel avail used avail_idx)
       (exec (notify_step (virtio (b_plat b))) b).
Proof.
cbn [virtio_notify_loop]. unfold notify_step. st_simpl. destruct (_ =? avail_idx); by st_simpl.
Qed.

Lemma pres_notify_loop fuel avail_idx : pres J (virtio_notify_loop fuel avail used avail_idx).
Proof.
induction fuel as [|fuel IH]; intros b Hb; [done|].
rewrite notify_loop_unfold. destruct (_ =? _); [done|].
apply IH, pres_notify_step; [apply Hb|done].
Qed.

(** [Z.to_nat (u16 (avail_idx - last_avail))] iterations reach the producer index. *)
Lemma notify_loop_drains fuel avail_idx : forall b,
rng 16 avail_idx -> rng 16 (v_last_avail (virtio (b_plat b))) ->
u16 (avail_idx - v_last_avail (virtio (b_plat b))) <= Z.of_nat fuel ->
v_last_avail (virtio (b_plat (exec (virtio_notify_loop fuel avail used avail_idx) b))) = avail_idx.
Proof.
induction fuel as [|fuel IH]; intros b Ha Hl Hd.
- cbn. pose proof (u16_rng (avail_idx - v_last_avail (virtio (b_plat b)))) as [? _].
  assert (u16 (avail_idx - v_last_avail (virtio (b_plat b))) = 0) as E by lia.
  unfold u16 in E. rewrite wrap_mod in E by lia. unfold rng in *.
  apply Z.mod_divide in E as [k Hk]; [|lia]. change (2 ^ 16) with 65536 in *. nia.
- rewrite notify_loop_unfold. destruct (Z.eqb_spec (v_last_avail (virtio (b_plat b))) avail_idx);
    [done|]. apply IH; [done|rewrite notify_step_virtio; simpl; rng_auto|].
  rewrite notify_step_virtio; simpl. unfold u16 in *. rewrite wrap_sub_r by lia.
  replace (avail_idx - (v_last_avail (virtio (b_plat b)) + 1))
    with ((avail_idx - v_last_avail (virtio (b_plat b))) - 1) by lia.
  rewrite <- wrap_sub_l by lia.
  pose proof (wrap_range 16 (avail_idx - v_last_avail (virtio (b_plat b))) ltac:(lia)) as Hr.
  assert (wrap 16 (avail_idx - v_last_avail (virtio (b_plat b))) <> 0).
  { intros E. rewrite wrap_mod in E by lia. apply Z.mod_divide in E as [k Hk]; [|lia].
    unfold rng in *. change (2 ^ 16) with 65536 in *. nia. }
  rewrite (wrap_small 16 (_ - 1)) by (lia || (unfold rng in *; lia)). lia.
Qed.
End Notify.

(** A register update that keeps a device record well formed. *)
Ltac reg_ok := let u := fresh "u" in let H := fresh "H" in
  intros u H; destruct H; constructor; simpl; first [assumption | rng_auto | idtac].

Section BlockRegs.
Context (b0 : Bus).

(** The guards of a notification: a live queue of 1 to [V_QUEUE_MAX] entries. *)
Lemma queue_guard (b : Bus) r n :
(r =? 0) || (n =? 0) || (V_QUEUE_MAX <? n) = false -> 0 <= n -> 0 < n <= V_QUEUE_MAX.
Proof.
intros [[_ E%Z.eqb_neq]%orb_false_iff E'%Z.ltb_ge]%orb_false_iff ?. lia.
Qed.

Lemma pres_virtio_notify : pres (inv b0) virtio_notify.
Proof.
intros b Hb. unfold virtio_notify. st_simpl.
destruct (_ || _) eqn:E; [done|].
apply (queue_guard b) in E; [|apply (ok_v_queue_num _ (ok_virtio _ (ok_b_plat _ (proj1 Hb))))].
destruct (dma_ptr _ _ _) as [avail|] eqn:Ea; [|done].
destruct (dma_ptr _ (v_used_addr _) _) as [used|] eqn:Eu; [|done].
set (qn := v_queue_num _) in *.
destruct (dma_ptr_sz b0 b _ (4 + qn * 8) _ Hb ltac:(lia) Eu) as [Hu0 Hu1].
st_simpl. apply (pres_virtio b0); [reg_ok|].
apply (pres_notify_loop b0 avail used qn); [lia..|done].
Qed.

Lemma pres_virtio_write off val : rng 32 val -> pres (inv b0) (virtio_write off val).
Proof.
intros Hv. unfold virtio_write.
repeat match goal with |- pres _ (if ?c then _ else _) => destruct c end;
  first [apply pres_virtio_notify | apply pres_virtio; reg_ok | apply pres_ret | idtac].
pres_step; [apply pres_virtio; reg_ok|]. apply pres_when, pres_virtio. intros _ _.
unfold virtio_reset, Virtio0. constructor; simpl; rng_auto.
Qed.

Lemma virtio_read_rng p off : plat_ok p -> rng 32 (virtio_read p off).
Proof.
intros Hp. unfold virtio_read.
repeat match goal with |- rng _ (if ?c then _ else _) => destruct c end; rng_auto.
Qed.
End BlockRegs.

(** ** The network device keeps the invariant *)

Lemma slice_bytes a o n : arr_rng 8 a -> bytes (slice a o n).
Proof. intros Ha. apply Forall_map, Forall_forall. intros x _. apply Ha. Qed.

Lemma net_hdr_bytes : bytes net_hdr.
Proof. repeat constructor; unfold rng; lia. Qed.

Lemma arr_rng_put_bytes bs : forall o a, bytes bs -> arr_rng 8 a -> arr_rng 8 (put_bytes o bs a).
Proof.
  induction bs as [|x bs IH]; intros o a Hb Ha; [done|]. inversion Hb; subst.
  simpl. apply IH; [done|]. by apply arr_rng_aset.
Qed.

Lemma net_fifo_push_ok f n : bytes f -> net_ok n -> net_ok (net_fifo_push f n).2.
Proof.
  intros Hf Hn. unfold net_fifo_push. destruct (_ || _) eqn:E; [done|].
  apply orb_false_iff in E as [E1%Z.eqb_neq E2%Z.ltb_ge].
  destruct (Z.leb_spec VIRTIO_NET_FIFO (n_fifo_count n)); [done|].
  destruct Hn; constructor; simpl; try done.
  - by apply arr_rng_put_bytes.
  - intros i. rewrite aget_aset. destruct (_ =? i); [lia|done].
  - lia.
Qed.

Lemma inv_net b0 f b : inv b0 b -> net_ok (f (net_of b)) -> inv b0 (upd_net f b).
Proof.
  intros [[Hd Hp] Hf] Hn. split; [|by destruct Hf; constructor].
  constructor; [done|]. destruct Hp. by constructor.
Qed.

Section Net.
Context (b0 : Bus).
Abbreviation sz := (ram_size (b_plat b0)).

Lemma pres_net_scatter ds : forall src total,
Forall desc_ok ds -> bytes src -> pres (inv b0) (net_scatter ds src total).
Proof.
induction ds as [|[addr len] ds IH]; intros src total Hds Hs; cbn [net_scatter]; [apply pres_ret|].
destruct (Forall_cons_1 _ _ _ Hds) as [[_ Hl] Hds']. simpl in Hl.
apply pres_gets_bind. intros b Hb. destruct (dma_ptr _ _ _) as [o|] eqn:E; [|by apply IH].
destruct (dma_ptr_sz b0 b _ len _ Hb (proj1 Hl) E) as [Ho0 Ho1].
apply pres_bind; [|intros _; apply IH; [done|by apply Forall_drop]].
apply pres_data, ram_op_put_bytes; [lia| |by apply Forall_take].
rewrite length_take. destruct Hl. lia.
Qed.

Lemma keeps_net_scatter ds : forall src total, keeps_regs (net_scatter ds src total).
Proof.
induction ds as [|[addr len] ds IH]; intros src total r; cbn [net_scatter]; [apply pres_ret|].
pres_step; [pres_step|]. destruct (dma_ptr _ _ _); [|apply IH].
pres_step; [apply keeps_data|apply IH].
Qed.

(** One delivered frame. *)
Definition rx_step (avail used : Z) (n : VirtioNet) : st Bus unit :=
let q := n_rxq n in
let slot := u16 (q_last_avail q mod q_num q) in
head ← gets (fun b => ld16 (b_data b) (avail + 4 + slot * 2));
chain ← gets (fun b => vq_chain b (q_desc_addr q) (q_num q) head);
wlen ← net_scatter chain (net_hdr ++ fifo_frame n (n_fifo_head n)) 0;
modify (used_push used (q_num q) head wlen) ;;
modify (upd_net (fun m => m
  |> set_n_rxq (set_q_last_avail (u16 (q_last_avail q + 1)) (n_rxq m))
  |> set_n_fifo_head ((n_fifo_head n + 1) mod VIRTIO_NET_FIFO)
  |> set_n_fifo_count (n_fifo_count m - 1))).

Lemma rx_loop_unfold fuel avail used d b :
net_rx_loop (S fuel) avail used d b =
let n := net_of b in
if (n_fifo_count n <=? 0) || (q_last_avail (n_rxq n) =? ld16 (b_data b) (avail + 2)) then (d, b)
else net_rx_loop fuel avail used true (exec (rx_step avail used n) b).
Proof.
cbn [net_rx_loop]. unfold rx_step, exec, mbind, st_bind, gets, modify; simpl.
destruct (_ <=? 0); [done|]. destruct (_ =? ld16 _ _); [done|]. by destruct (net_scatter _ _ _ _).
Qed.

Lemma rx_step_net avail used b :
let n := net_of b in
net_of (exec (rx_step avail used n) b)
= n |> set_n_rxq (set_q_last_avail (u16 (q_last_avail (n_rxq n) + 1)) (n_rxq n))
    |> set_n_fifo_head ((n_fifo_head n + 1) mod VIRTIO_NET_FIFO)
    |> set_n_fifo_count (n_fifo_count n - 1).
Proof.
cbv zeta. unfold rx_step. st_simpl.
match goal with |- context [exec (net_scatter ?a ?c ?t) b] =>
  pose proof (regs_net _ b (keeps_net_scatter a c t)) as E end.
unfold net_of in *. simpl in *. by rewrite E.
Qed.

Lemma pres_rx_step avail used b :
inv b0 b -> 0 < n_fifo_count (net_of b) -> 0 < q_num (n_rxq (net_of b)) ->
0 <= used -> used + (4 + q_num (n_rxq (net_of b)) * 8) <= sz ->
inv b0 (exec (rx_step avail used (net_of b)) b).
Proof.
intros Hb Hc Hq Hu0 Hu1.
assert (net_ok (net_of b)) as Hn by (apply ok_net, ok_b_plat, Hb).
unfold rx_step. st_simpl.
match goal with |- context [exec (net_scatter ?a ?c ?t) b] =>
  pose proof (regs_net _ b (keeps_net_scatter a c t)) as E;
  assert (inv b0 (exec (net_scatter a c t) b)) as H1; [apply pres_net_scatter; [| |done]|] end.
{ apply vq_chain_ok, Hb. }
{ apply Forall_app. split; [apply net_hdr_bytes|]. apply slice_bytes. by apply ok_n_fifo. }
match goal with |- context [used_push used ?q ?h ?w ?s] =>
  assert (inv b0 (used_push used q h w s)) as H2
    by (apply (pres_used_push b0 used q h w); [lia..|done]);
  set (b1 := used_push used q h w s) in * end. clear H1. rename H2 into H1.
assert (net_of b1 = net_of b) as E1 by apply E. clearbody b1. clear E.
apply inv_net; [done|]. rewrite E1. destruct Hn; constructor; simpl; try done.
- destruct ok_n_rxq0. constructor; simpl; first [done|rng_auto].
- apply Z.mod_pos_bound. unfold VIRTIO_NET_FIFO. lia.
- lia.
Qed.

Lemma pres_rx_loop avail used fuel : forall d b,
inv b0 b -> 0 < q_num (n_rxq (net_of b)) -> 0 <= used ->
used + (4 + q_num (n_rxq (net_of b)) * 8) <= sz -> inv b0 (exec (net_rx_loop fuel avail used d) b).
Proof.
induction fuel as [|fuel IH]; intros d b Hb Hq Hu0 Hu1; [done|].
unfold exec. rewrite rx_loop_unfold. cbv zeta.
destruct (_ || _) eqn:E; [done|]. apply orb_false_iff in E as [E%Z.leb_gt _].
pose proof (rx_step_net avail used b) as En. cbv zeta in En.
apply IH; [by apply pres_rx_step|rewrite ?En; simpl; lia..].
Qed.

Lemma pres_net_deliver_rx : pres (inv b0) net_deliver_rx.
Proof.
intros b Hb. unfold net_deliver_rx. st_simpl.
destruct (_ || _) eqn:E; [done|].
apply (queue_guard b) in E; [|apply (ok_q_num _ (ok_n_rxq _ (ok_net _ (ok_b_plat _ (proj1 Hb)))))].
destruct (dma_ptr _ _ _) as [avail|] eqn:Ea; [|done].
destruct (dma_ptr _ (q_used_addr _) _) as [used|] eqn:Eu; [|done].
destruct (dma_ptr_sz b0 b _ (4 + q_num (n_rxq (net (b_plat b))) * 8) _ Hb ltac:(lia) Eu) as [Hu0 Hu1].
st_simpl. apply pres_when; [apply pres_net; reg_ok|].
apply pres_rx_loop; [done|unfold net_of; lia..].
Qed.

Lemma pres_plat_net_rx f : bytes f -> pres (inv b0) (plat_net_rx f).
Proof.
intros Hf b Hb. unfold plat_net_rx. st_simpl.
pose proof (net_fifo_push_ok f _ Hf (ok_net _ (ok_b_plat _ (proj1 Hb)))) as Hn.
fold (net_of b) in Hn. destruct (net_fifo_push f (net_of b)) as [[] n']; [|done].
cbn [fst snd]. st_simpl. apply pres_net_deliver_rx, inv_net; done.
Qed.

Lemma pres_net_rx_all fs : Forall bytes fs -> pres (inv b0) (net_rx_all fs).
Proof.
induction 1; simpl; [apply pres_ret|]. apply pres_bind; [by apply pres_plat_net_rx|done].
Qed.

Lemma pres_net_transmit f : bytes f -> pres (inv b0) (net_transmit f).
Proof.
intros Hf b Hb. unfold net_transmit. st_simpl.
assert (net_ok (net_of b)) as Hn by (apply ok_net, ok_b_plat, Hb).
destruct (n_tx (net_of b)) as [tx|] eqn:Etx.
- st_simpl. apply pres_net_rx_all.
  + pose proof (ok_n_tx _ Hn) as Ht. rewrite Etx in Ht. apply Ht.
  + apply inv_net; [by apply (pres_emit b0)|]. destruct Hn; by constructor.
- st_simpl. pose proof (net_fifo_push_ok f _ Hf Hn) as Hn'.
  destruct (net_fifo_push f (net_of b)) as [[] n']; [|done]. cbn [when fst snd].
  st_simpl. apply pres_net_deliver_rx, inv_net; done.
Qed.

Lemma net_gather_bytes b ds : forall out cap,
bus_ok b -> bytes out -> bytes (net_gather b ds out cap).
Proof.
induction ds as [|[addr len] ds IH]; intros out cap Hb Ho; simpl; [done|].
destruct (_ <=? _); [done|]. destruct (dma_ptr _ _ _); apply IH; try done.
apply Forall_app. split; [done|]. by apply slice_bytes, ok_b_data.
Qed.
End Net.

(** *** Transmission does not disturb the transmit queue's registers *)

Definition keeps_txq {A} (m : st Bus A) : Prop := forall t, pres (fun b => n_txq (net_of b) = t) m.

Lemma keeps_txq_rx_loop avail used fuel : forall d, keeps_txq (net_rx_loop fuel avail used d).
Proof.
  induction fuel as [|fuel IH]; intros d t b Hb; [done|].
  unfold exec. rewrite rx_loop_unfold. cbv zeta. destruct (_ || _); [done|].
  apply IH. pose proof (rx_step_net avail used b) as En. cbv zeta in En. by rewrite En.
Qed.

Lemma keeps_txq_deliver_rx : keeps_txq net_deliver_rx.
Proof.
  intros t. unfold net_deliver_rx. repeat first [apply keeps_txq_rx_loop | pres_step]. by intros b.
Qed.

Lemma net_fifo_push_txq f n : n_txq (net_fifo_push f n).2 = n_txq n.
Proof. unfold net_fifo_push. destruct (_ || _); [done|]. by destruct (_ <=? _). Qed.

Lemma keeps_txq_plat_net_rx f : keeps_txq (plat_net_rx f).
Proof.
  intros t b Hb. unfold plat_net_rx. st_simpl. pose proof (net_fifo_push_txq f (net_of b)) as E.
  destruct (net_fifo_push f (net_of b)) as [[] n']; [|done]. cbn [fst snd]. st_simpl.
  apply keeps_txq_deliver_rx. simpl in *. unfold net_of in *. simpl. congruence.
Qed.

Lemma keeps_txq_transmit f : keeps_txq (net_transmit f).
Proof.
  intros t b Hb. unfold net_transmit. st_simpl. destruct (n_tx (net_of b)) as [tx|].
  - st_simpl. generalize (tx (f :: n_txlog (net_of b))). intros fs.
    set (b1 := upd_net _ _). assert (n_txq (net_of b1) = t) as H1 by done. clearbody b1.
    revert b1 H1. change (pres (fun b => n_txq (net_of b) = t) (net_rx_all fs)).
    induction fs; simpl; [apply pres_ret|]. apply pres_bind; [apply keeps_txq_plat_net_rx|done].
  - st_simpl. pose proof (net_fifo_push_txq f (net_of b)) as E.
    destruct (net_fifo_push f (net_of b)) as [[] n']; [|done]. cbn [when fst snd]. st_simpl.
    apply keeps_txq_deliver_rx. simpl in *. unfold net_of in *. simpl. congruence.
Qed.

(** One transmitted chain. *)
Definition tx_step (avail used : Z) (q : Virtqueue) : st Bus unit :=
  let slot := u16 (q_last_avail q mod q_num q) in
  head ← gets (fun b => ld16 (b_data b) (avail + 4 + slot * 2));
  buf ← gets (fun b => net_gather b (vq_chain b (q_desc_addr q) (q_num q) head) []
                         (VIRTIO_NET_HDR_LEN + VIRTIO_NET_FRAME_MAX));
  when (VIRTIO_NET_HDR_LEN <? Z.of_nat (length buf))
    (net_transmit (drop (Z.to_nat VIRTIO_NET_HDR_LEN) buf)) ;;
  modify (used_push used (q_num q) head 0) ;;
  modify (upd_net (fun n => set_n_txq (set_q_last_avail (u16 (q_last_avail q + 1)) (n_txq n)) n)).

Lemma tx_loop_unfold fuel avail used idx sent b :
  net_tx_loop (S fuel) avail used idx sent b =
  let q := n_txq (net_of b) in
  if q_last_avail q =? idx then (sent, b)
  else net_tx_loop fuel avail used idx true (exec (tx_step avail used q) b).
Proof.
  cbn [net_tx_loop]. unfold tx_step, exec, mbind, st_bind, gets, modify.
  destruct (_ =? idx); [done|]. by destruct (when _ _ b).
Qed.

Lemma tx_step_txq avail used b :
  let q := n_txq (net_of b) in
  n_txq (net_of (exec (tx_step avail used q) b)) = set_q_last_avail (u16 (q_last_avail q + 1)) q.
Proof.
  cbv zeta. unfold tx_step. st_simpl.
  match goal with |- context [exec (when ?c (net_transmit ?f)) b] =>
    assert (n_txq (net_of (exec (when c (net_transmit f)) b)) = n_txq (net_of b)) as E
      by (by apply (pres_when (fun b' => n_txq (net_of b') = n_txq (net_of b)) c);
            [apply keeps_txq_transmit|])
  end.
  unfold net_of in *. simpl in *. by rewrite E.
Qed.

Lemma pres_tx_step b0 avail used b :
  inv b0 b -> 0 < q_num (n_txq (net_of b)) -> 0 <= used ->
  used + (4 + q_num (n_txq (net_of b)) * 8) <= ram_size (b_plat b0) ->
  inv b0 (exec (tx_step avail used (n_txq (net_of b))) b).
Proof.
  intros Hb Hq Hu0 Hu1. unfold tx_step. st_simpl.
  apply (pres_net b0).
  { intros n Hn. destruct Hn; constructor; simpl; try done.
    destruct ok_n_txq0. constructor; simpl; first [done|rng_auto]. }
  rewrite <- exec_modify. apply pres_used_push; [lia..|].
  apply pres_when; [|done]. apply pres_net_transmit, Forall_drop, net_gather_bytes; [apply Hb|constructor].
Qed.

Lemma pres_tx_loop b0 avail used idx fuel : forall d b,
  inv b0 b -> 0 < q_num (n_txq (net_of b)) -> 0 <= used ->
  used + (4 + q_num (n_txq (net_of b)) * 8) <= ram_size (b_plat b0) ->
  inv b0 (exec (net_tx_loop fuel avail used idx d) b).
Proof.
  induction fuel as [|fuel IH]; intros d b Hb Hq Hu0 Hu1; [done|].
  unfold exec. rewrite tx_loop_unfold. cbv zeta. destruct (_ =? _); [done|].
  pose proof (tx_step_txq avail used b) as En. cbv zeta in En.
  apply IH; [by apply pres_tx_step|rewrite ?En; simpl; lia..].
Qed.

Lemma pres_net_process_tx b0 : pres (inv b0) net_process_tx.
Proof.
  intros b Hb. unfold net_process_tx. st_simpl.
  destruct (_ || _) eqn:E; [done|].
  apply (queue_guard b) in E; [|apply (ok_q_num _ (ok_n_txq _ (ok_net _ (ok_b_plat _ (proj1 Hb)))))].
  destruct (dma_ptr _ _ _) as [avail|] eqn:Ea; [|done].
  destruct (dma_ptr _ (q_used_addr _) _) as [used|] eqn:Eu; [|done].
  destruct (dma_ptr_sz b0 b _ (4 + q_num (n_txq (net (b_plat b))) * 8) _ Hb ltac:(lia) Eu) as [Hu0 Hu1].
  st_simpl. apply pres_when; [apply pres_net; reg_ok|].
  apply pres_tx_loop; [done|unfold net_of; lia..].
Qed.

Lemma upd_sel_ok f n : (forall q, vq_ok q -> vq_ok (f q)) -> net_ok n -> net_ok (upd_sel f n).
Proof.
  intros Hf []. unfold upd_sel.
  destruct (_ =? _); [constructor; simpl; auto|]. destruct (_ =? _); constructor; simpl; auto.
Qed.

Lemma net_reset_ok n : net_ok n -> net_ok (net_reset n).
Proof.
  assert (vq_ok Virtqueue0) by (constructor; simpl; rng_auto).
  intros []. constructor; simpl; first [done | rng_auto | unfold VIRTIO_NET_FIFO; lia].
Qed.

Lemma pres_virtio_net_write b0 off val : rng 32 val -> pres (inv b0) (virtio_net_write off val).
Proof.
  intros Hv. unfold virtio_net_write.
  repeat match goal with |- pres _ (if ?c then _ else _) => destruct c end;
    first [apply pres_net_process_tx | apply pres_net_deliver_rx | apply pres_ret
          | apply pres_net; intros n Hn; apply upd_sel_ok; [reg_ok|done]
          | apply pres_net; reg_ok; done | idtac].
  pres_step; [apply pres_net; reg_ok|]. apply pres_when, pres_net. apply net_reset_ok.
Qed.

Lemma virtio_net_read_rng p off : plat_ok p -> rng 32 (virtio_net_read p off).
Proof.
  intros Hp. unfold virtio_net_read, net_sel.
  assert (arr_rng 8 (n_mac (net p))) by (apply ok_n_mac, ok_net, Hp).
  repeat match goal with
  | |- rng _ (if ?c then _ else _) => destruct c
  | |- rng _ (match (if ?c then _ else _) with _ => _ end) => destruct c
  end; rng_auto.
Qed.

(** ** UART, PLIC, CLINT and the finisher keep the invariant *)

Lemma plic_lines_rng p : rng 32 (plic_lines p).
Proof. unfold plic_lines. rng_auto. Qed.

Lemma plic_best_range p ctx : 0 <= plic_best p ctx < PLIC_NSOURCES.
Proof.
  unfold plic_best. change (Z.to_nat (PLIC_NSOURCES - 1)) with 31%nat. unfold PLIC_NSOURCES.
  assert (forall l acc, 0 <= acc.1 < 32 -> Forall (fun s => 1 <= s < 32) l ->
    0 <= (foldl (plic_scan p ctx) acc l).1 < 32) as H.
  { induction l as [|s l IH]; intros acc Ha Hl; [done|]. simpl.
    destruct (Forall_cons_1 _ _ _ Hl). apply IH; [|done].
    unfold plic_scan. destruct (_ && _); simpl; lia. }
  apply H; [simpl; lia|]. apply Forall_zseq. intros. lia.
Qed.

Section Dispatch.
Context (b0 : Bus).

Lemma pres_uart_read off : pres (inv b0) (uart_read off).
Proof. unfold uart_read. pres_auto; apply pres_uart; reg_ok. Qed.

Lemma uart_read_rng off b : bus_ok b -> rng 32 (run (uart_read off) b).
Proof.
intros [_ [_ [] _ _ _ _ _ _ _]]. unfold uart_read. st_simpl.
repeat match goal with |- rng _ (run (if ?c then _ else _) _) => destruct c end; st_simpl;
  unfold uart_lsr, uart_iir; rng_auto || (apply (rng_mono 8); [lia|rng_auto]).
Qed.

Lemma pres_uart_write off val : rng 8 val -> pres (inv b0) (uart_write off val).
Proof. intros Hv. unfold uart_write. pres_auto; apply pres_uart; reg_ok. Qed.

Lemma plic_claim_rng ctx b : rng 32 (run (plic_claim ctx) b).
Proof.
unfold plic_claim. st_simpl. pose proof (plic_best_range (b_plat b) ctx).
unfold PLIC_NSOURCES in *. split; lia.
Qed.

Lemma pres_plic_claim ctx : pres (inv b0) (plic_claim ctx).
Proof.
unfold plic_claim. apply pres_gets_bind. intros b Hb. pres_step; [|pres_step].
apply pres_when, pres_plic. pose proof (plic_best_range (b_plat b) ctx).
assert (rng 32 (plic_best (b_plat b) ctx)) by (unfold PLIC_NSOURCES in *; split; lia).
reg_ok.
Qed.

Lemma pres_plic_read off : pres (inv b0) (plic_read off).
Proof. unfold plic_read. pres_auto. apply pres_plic_claim. Qed.

Lemma plic_read_rng off b : bus_ok b -> rng 32 (run (plic_read off) b).
Proof.
intros [_ [_ _ [] _ _ _ _ _ _]]. pose proof (plic_lines_rng (b_plat b)). unfold plic_read. st_simpl.
repeat match goal with |- rng _ (run (if ?c then _ else _) _) => destruct c end; st_simpl;
  first [apply plic_claim_rng | rng_auto].
Qed.

Lemma pres_plic_write off val : rng 32 val -> pres (inv b0) (modify (upd_plic (plic_write off val))).
Proof.
intros Hv. apply pres_plic. intros u []. unfold plic_write.
repeat match goal with |- plic_ok (if ?c then _ else _) => destruct c end; constructor; simpl; rng_auto.
Qed.

Lemma pres_clint_write off val : rng 32 val -> pres (inv b0) (modify (upd_clint (clint_write off val))).
Proof.
intros Hv. apply pres_clint. intros u []. unfold clint_write.
repeat match goal with |- clint_ok (if ?c then _ else _) => destruct c end; constructor; simpl; rng_auto.
Qed.

Lemma clint_read_rng c off : clint_ok c -> rng 32 (clint_read c off).
Proof. intros []. unfold clint_read. rng_auto. Qed.

Lemma pres_test_write val : pres (inv b0) (modify (upd_plat (test_write val))).
Proof.
apply pres_plat; unfold test_write.
- intros p Hp. destruct (_ =? _); [|destruct (_ || _); [|done]]; destruct Hp; constructor; simpl; rng_auto.
- intros p. destruct (_ =? _); [done|]. by destruct (_ || _).
Qed.

Lemma pres_plat_read addr size : pres (inv b0) (plat_read addr size).
Proof.
unfold plat_read, plat_read_word. repeat first [apply pres_uart_read | apply pres_plic_read | pres_step].
Qed.

Lemma plat_read_rng addr size b : bus_ok b -> rng 32 (run (plat_read addr size) b).
Proof.
intros Hb. unfold plat_read. destruct (in_window _ UART_BASE _); [by apply uart_read_rng|].
st_simpl. assert (from_option (rng 32) True (run (plat_read_word addr) b)) as Hw.
{ unfold plat_read_word. st_simpl. destruct Hb as [Hd Hp].
  repeat match goal with |- context [if in_window ?a ?x ?y then _ else _] =>
    destruct (in_window a x y) end; st_simpl; simpl;
    first [apply clint_read_rng, Hp | by apply plic_read_rng | by apply virtio_read_rng
          | by apply virtio_net_read_rng | done]. }
destruct (run (plat_read_word addr) b) as [w|]; [|rng_auto]. simpl in Hw.
assert (0 <= 8 * (addr .& 3)).
{ destruct (land_rng_r 2 addr 3) as [? _]; [lia|rng_auto|lia]. }
assert (rng 32 (w >> (8 * (addr .& 3)))) by (by apply shiftr_rng_same). rng_auto.
Qed.

Lemma pres_plat_write addr size val : rng 32 val -> pres (inv b0) (plat_write addr size val).
Proof.
intros Hv. unfold plat_write.
repeat match goal with |- pres _ (if ?c then _ else _) => destruct c end;
  first [apply pres_test_write | apply pres_uart_write; rng_auto | by apply pres_clint_write
        | by apply pres_plic_write | by apply pres_virtio_write | by apply pres_virtio_net_write
        | apply pres_ret].
Qed.
End Dispatch.

(** ** The reset platform is well formed *)

Lemma bytes_forallb l : forallb (fun x => (0 <=? x) && (x <? 256)) l = true -> bytes l.
Proof.
  induction l as [|x l IH]; intros H; constructor; cbn in H; apply andb_true_iff in H as [H1 H2].
  - by apply rng_const.
  - by apply IH.
Qed.

Ltac closed_rng := repeat match goal with
  | |- arr_rng _ (aset _ _ _) => apply arr_rng_aset
  | |- arr_rng _ (put_bytes _ _ _) => apply arr_rng_put_bytes
  | |- arr_rng _ ∅ => apply arr_rng_empty; lia
  | |- bytes _ => apply bytes_forallb; vm_compute; reflexivity
  | |- rng _ _ => apply rng_const; vm_compute; reflexivity
  end.

Lemma plat_init_ok : plat_ok plat_init.
Proof.
  assert (vq_ok Virtqueue0) by (constructor; closed_rng).
  assert (arr_rng 64 (mtimecmp (clint plat_init))).
  { cbn [clint plat_init set_mtimecmp mtimecmp]. change (Z.to_nat QUANTA_MAX_HARTS) with 8%nat.
    cbn [zseq foldr]. closed_rng. }
  constructor; [by constructor; closed_rng|..]; try (constructor; cbn -[rng arr_rng u64]; closed_rng; done).
  constructor; cbn -[rng arr_rng aget]; unfold default_mac; closed_rng; done.
Qed.
