(* ===== verification/DeviceThms.v ===== *)
(** * Theorems on the platform devices

    MMIO accesses keep the bus well formed and DMA inside guest RAM; notification
    consumes the whole available ring; the PLIC presents the best source and its
    claim protocol; the interrupt-pending bits; the receive FIFO as a queue of
    frames; block transfers write and read back. *)

From S2P Require Import Prelude Device DeviceInv.

(** ** PLIC arbitration *)

(** [better p s k]: [s] wins over [k], by priority and then by the lower number. *)
Definition better (p : Platform) (s k : Z) : Prop :=
  (priority (plic p)).[k] < (priority (plic p)).[s]
  \/ (priority (plic p)).[k] = (priority (plic p)).[s] /\ s <= k.

(** What the scan has found after the sources below [hi]. *)
Definition scanned (p : Platform) (ctx hi s prio : Z) : Prop :=
  (s = 0 /\ prio = 0 /\ forall k, 1 <= k < hi -> plic_ready p ctx k = false)
  \/ (1 <= s < hi /\ plic_ready p ctx s = true /\ prio = (priority (plic p)).[s]
      /\ forall k, 1 <= k < hi -> plic_ready p ctx k = true -> better p s k).

Lemma plic_scan_step p ctx hi s prio :
  plat_ok p -> 1 <= hi -> scanned p ctx hi s prio ->
  let acc := plic_scan p ctx (s, prio) hi in scanned p ctx (hi + 1) acc.1 acc.2.
Proof.
  intros Hp Hhi Hs. unfold plic_scan. cbn [snd]. destruct (plic_ready p ctx hi) eqn:E; cbn [andb].
  - assert (0 < (priority (plic p)).[hi]).
    { unfold plic_ready in E. apply andb_true_iff in E as [_ E%Z.ltb_lt].
      destruct (ok_threshold _ (ok_plic _ Hp) ctx). lia. }
    destruct Hs as [(-> & -> & Hn)|(H1 & H2 & H3 & H4)].
    + destruct (Z.ltb_spec 0 (priority (plic p)).[hi]); [|lia]. right; cbn [fst snd].
      split; [lia|]. split; [done|]. split; [done|]. intros k Hk Hr.
      destruct (Z.eq_dec k hi) as [->|]; [right; lia|]. rewrite Hn in Hr by lia. done.
    + rewrite H3. destruct (Z.ltb_spec (priority (plic p)).[s] (priority (plic p)).[hi]);
        right; cbn [fst snd]; (split; [lia|]); (split; [done|]); (split; [done|]); intros k Hk Hr.
      * destruct (Z.eq_dec k hi) as [->|]; [right; lia|].
        destruct (H4 k ltac:(lia) Hr) as [|[]]; left; lia.
      * destruct (Z.eq_dec k hi) as [->|]; [|apply H4; [lia|done]]. unfold better. lia.
  - cbn [fst snd]. destruct Hs as [(-> & -> & Hn)|(H1 & H2 & H3 & H4)]; [left|right].
    + split; [done|]. split; [done|]. intros k Hk. destruct (Z.eq_dec k hi) as [->|]; [done|]. apply Hn; lia.
    + split; [lia|]. split; [done|]. split; [done|]. intros k Hk Hr.
      destruct (Z.eq_dec k hi) as [->|]; [congruence|]. apply H4; [lia|done].
Qed.

Lemma plic_best_scanned p ctx :
  plat_ok p -> exists prio, scanned p ctx PLIC_NSOURCES (plic_best p ctx) prio.
Proof.
  intros Hp. unfold plic_best.
  assert (forall n i acc, 1 <= i -> scanned p ctx i acc.1 acc.2 ->
    let acc' := foldl (plic_scan p ctx) acc (zseq i n) in
    scanned p ctx (i + Z.of_nat n) acc'.1 acc'.2) as H.
  { induction n as [|n IH]; intros i [s prio] Hi Ha; cbn [zseq foldl].
    - by rewrite Z.add_0_r.
    - replace (i + Z.of_nat (S n)) with ((i + 1) + Z.of_nat n) by lia.
      apply IH; [lia|]. by apply plic_scan_step. }
  specialize (H (Z.to_nat (PLIC_NSOURCES - 1)) 1 (0, 0) ltac:(lia)).
  change (1 + Z.of_nat (Z.to_nat (PLIC_NSOURCES - 1))) with PLIC_NSOURCES in H.
  eexists. apply H. left. split; [done|]. split; [done|lia].
Qed.

(** With no line asserted nothing is presented. *)
Lemma plic_best_quiet p ctx : plic_lines p = 0 -> plic_best p ctx = 0.
Proof.
  intros E. unfold plic_best.
  assert (forall l acc, foldl (plic_scan p ctx) acc l = acc) as ->; [|done].
  induction l as [|s l IH]; intros acc; [done|]. simpl. rewrite IH.
  unfold plic_scan, plic_ready. by rewrite E, Z.land_0_l.
Qed.

Lemma set_lo_hi r v : rng 64 v -> set_hi (set_lo r (u32 v)) (u32 (v >> 32)) = v.
Proof. intros Hv. unfold set_hi, set_lo. zbits. Qed.

Lemma set_hi_lo r v : rng 64 v -> set_lo (set_hi r (u32 (v >> 32))) (u32 v) = v.
Proof. intros Hv. unfold set_hi, set_lo. zbits. Qed.

(** ** The receive FIFO as a queue of frames *)

Lemma put_bytes_out bs : forall o a i, (i < o \/ o + Z.of_nat (length bs) <= i) ->
  (put_bytes o bs a).[i] = a.[i].
Proof.
  induction bs as [|x bs IH]; intros o a i Hi; [done|]. cbn [put_bytes length] in *.
  rewrite IH by lia. apply aget_aset_ne. lia.
Qed.

Lemma slice_ext a a' o n :
  (forall i, o <= i < o + Z.of_nat n -> a.[i] = a'.[i]) -> slice a o n = slice a' o n.
Proof.
  unfold slice. revert o. induction n as [|n IH]; intros o H; [done|].
  cbn [zseq map]. f_equal; [apply H; lia|]. apply IH. intros. apply H. lia.
Qed.

Lemma slice_put_bytes bs : forall o a, slice (put_bytes o bs a) o (length bs) = bs.
Proof.
  induction bs as [|x bs IH]; intros o a; [done|]. cbn [put_bytes length].
  unfold slice. cbn [zseq map]. f_equal; [|apply IH].
  rewrite put_bytes_out by lia. apply aget_aset_eq.
Qed.

Lemma slice_split a o n m : slice a o (n + m) = slice a o n ++ slice a (o + Z.of_nat n) m.
Proof. unfold slice. by rewrite zseq_app, map_app. Qed.
Lemma length_slice a o n : length (slice a o n) = n.
Proof. unfold slice. by rewrite length_map, length_zseq. Qed.
Lemma nth_slice a n k : (k < n)%nat -> nth k (slice a 0 n) 0 = a.[Z.of_nat k].
Proof.
  intros Hk. replace n with (k + (1 + (n - k - 1)))%nat by lia. rewrite !slice_split, app_nth2 by (rewrite length_slice; lia).
  by rewrite length_slice, Nat.sub_diag.
Qed.

(** The abstract queue: the buffered frames, oldest first. *)
Definition fifo_abs (n : VirtioNet) : list (list Z) :=
  map (fun i => fifo_frame n ((n_fifo_head n + i) mod VIRTIO_NET_FIFO))
      (zseq 0 (Z.to_nat (n_fifo_count n))).

(** Does the FIFO take the frame? *)
Definition fifo_takes (f : list Z) (n : VirtioNet) : bool :=
  (0 <? length f)%nat && (Z.of_nat (length f) <=? VIRTIO_NET_FRAME_MAX)
  && (length (fifo_abs n) <? Z.to_nat VIRTIO_NET_FIFO)%nat.

Lemma mod16_inj h i j : 0 <= i < 16 -> 0 <= j < 16 -> (h + i) mod 16 = (h + j) mod 16 -> i = j.
Proof.
  intros Hi Hj E. apply (f_equal (fun z => (z - h) mod 16)) in E.
  rewrite !Zminus_mod_idemp_l in E.
  replace (h + i - h) with i in E by lia. replace (h + j - h) with j in E by lia.
  by rewrite !Z.mod_small in E by lia.
Qed.

Lemma net_fifo_push_abs f n : net_ok n ->
  (net_fifo_push f n).1 = fifo_takes f n
  /\ fifo_abs (net_fifo_push f n).2 = if fifo_takes f n then fifo_abs n ++ [f] else fifo_abs n.
Proof.
  intros Hn. destruct (ok_n_fifo_count _ Hn) as [Hc0 Hc1]. unfold VIRTIO_NET_FIFO in Hc1.
  assert (length (fifo_abs n) = Z.to_nat (n_fifo_count n)) as El
    by (unfold fifo_abs; by rewrite length_map, length_zseq).
  unfold fifo_takes, net_fifo_push. rewrite El.
  destruct (Z.eqb_spec (Z.of_nat (length f)) 0).
  { by destruct (Nat.ltb_spec 0 (length f)); [lia|]. }
  destruct (Nat.ltb_spec 0 (length f)); [|lia]. rewrite andb_true_l.
  destruct (Z.ltb_spec VIRTIO_NET_FRAME_MAX (Z.of_nat (length f))) as [Hl|Hl];
    destruct (Z.leb_spec (Z.of_nat (length f)) VIRTIO_NET_FRAME_MAX); try lia; cbn [orb]; [done|].
  unfold VIRTIO_NET_FIFO. rewrite andb_true_l.
  destruct (Z.leb_spec 16 (n_fifo_count n)) as [Hf|Hf];
    destruct (Nat.ltb_spec (Z.to_nat (n_fifo_count n)) (Z.to_nat 16)); try lia; [done|].
  split; [done|]. cbn [snd]. unfold fifo_abs. cbn -[Z.to_nat zseq].
  replace (Z.to_nat (n_fifo_count n + 1)) with (Z.to_nat (n_fifo_count n) + 1)%nat by lia.
  rewrite zseq_app, map_app. cbn [zseq map]. unfold VIRTIO_NET_FIFO.
  replace (0 + Z.of_nat (Z.to_nat (n_fifo_count n))) with (n_fifo_count n) by lia.
  set (tail := (n_fifo_head n + n_fifo_count n) mod 16).
  f_equal; [|f_equal].
  - apply map_ext_Forall, Forall_zseq. intros i Hi. unfold fifo_frame. cbn.
    assert ((n_fifo_head n + i) mod 16 <> tail)
      by (intros E; apply mod16_inj in E; lia).
    rewrite aget_aset_ne by done. apply slice_ext. intros k Hk.
    pose proof (ok_n_fifo_len _ Hn ((n_fifo_head n + i) mod 16)) as Hlen.
    unfold VIRTIO_NET_FRAME_MAX in *. apply put_bytes_out. lia.
  - unfold fifo_frame. cbn. rewrite aget_aset_eq, Nat2Z.id. apply slice_put_bytes.
Qed.

(** Delivering a frame removes the oldest one. *)
Lemma rx_step_abs avail used b : net_ok (net_of b) -> 0 < n_fifo_count (net_of b) ->
  fifo_abs (net_of (exec (rx_step avail used (net_of b)) b)) = drop 1 (fifo_abs (net_of b)).
Proof.
  intros Hn Hc. pose proof (rx_step_net avail used b) as E. cbv zeta in E. rewrite E. clear E.
  unfold fifo_abs. cbn -[Z.to_nat zseq].
  replace (Z.to_nat (n_fifo_count (net_of b))) with (S (Z.to_nat (n_fifo_count (net_of b) - 1))) by lia.
  cbn [zseq map drop].
  assert (forall g h n i, (forall k, g k = h (k + 1)) -> map g (zseq i n) = map h (zseq (i + 1) n) :> list (list Z)) as Hm.
  { intros g h n. induction n as [|n IH]; intros i Hg; [done|]. cbn [zseq map]. f_equal; auto. }
  apply Hm. intros k. unfold fifo_frame. cbn.
  rewrite Zplus_mod_idemp_l. by replace (n_fifo_head (net_of b) + 1 + k) with (n_fifo_head (net_of b) + (k + 1)) by lia.
Qed.

Lemma fifo_abs_nil n : n_fifo_count n <= 0 -> fifo_abs n = [].
Proof. intros. unfold fifo_abs. by replace (Z.to_nat (n_fifo_count n)) with O by lia. Qed.

(** ** Block transfers *)

(** What an IN transfer reads at image position [pos]. *)
Definition image_byte (d : Disk) (pos : Z) : Z :=
  if d_present d && (u64 pos <? d_size d) then (d_data d).[u64 pos] else 0.

Lemma blk_in_copy buf off n : forall i b,
  let b' := exec (for_ n i (fun k => modify (blk_copy_byte VIRTIO_BLK_T_IN buf off k))) b in
  b_plat b' = b_plat b /\ b_host b' = b_host b
  /\ forall o, (b_data b').[o] =
       if (buf + i <=? o) && (o <? buf + i + Z.of_nat n)
       then image_byte (disk (b_plat b)) (off + (o - buf)) else (b_data b).[o].
Proof.
  induction n as [|n IH]; intros i b; cbv zeta; cbn [for_].
  { split; [done|]. split; [done|]. intros o. zcase; done. }
  st_simpl. set (b1 := blk_copy_byte _ _ _ _ b).
  assert (b1 = upd_data (aset (buf + i) (image_byte (disk (b_plat b)) (off + i))) b) as E1 by done.
  clearbody b1. subst b1.
  destruct (IH (i + 1) (upd_data (aset (buf + i) (image_byte (disk (b_plat b)) (off + i))) b))
    as (Hp & Hh & Hd). cbv zeta in *.
  split; [by rewrite Hp|]. split; [by rewrite Hh|]. intros o. rewrite Hd. cbn -[Z.of_nat image_byte].
  rewrite aget_aset. destruct (Z.eqb_spec (buf + i) o) as [<-|].
  - zcase; cbn [andb]; try lia. by replace (off + (buf + i - buf)) with (off + i) by lia.
  - zcase; done.
Qed.

Lemma blk_out_copy buf off n : forall i b,
  0 <= off + i -> off + i + Z.of_nat n <= d_size (disk (b_plat b)) -> rng 64 (d_size (disk (b_plat b))) ->
  d_present (disk (b_plat b)) = true ->
  let b' := exec (for_ n i (fun k => modify (blk_copy_byte VIRTIO_BLK_T_OUT buf off k))) b in
  b_data b' = b_data b /\ b_host b' = b_host b
  /\ exists img, b_plat b' = set_disk (set_d_data img (disk (b_plat b))) (b_plat b)
     /\ forall pos, img.[pos] =
          if (off + i <=? pos) && (pos <? off + i + Z.of_nat n)
          then (b_data b).[buf + (pos - off)] else (d_data (disk (b_plat b))).[pos].
Proof.
  induction n as [|n IH]; intros i b Hi Hn Hs Hp; cbv zeta; cbn [for_].
  { split; [done|]. split; [done|]. exists (d_data (disk (b_plat b))). split.
    - cbn. destruct (b_plat b) as [? ? ? ? ? [] ? ? ? ? ? ? ?]. done.
    - intros pos. zcase; done. }
  st_simpl. set (b1 := blk_copy_byte _ _ _ _ b).
  assert (b1 = upd_disk (set_d_data (aset (off + i) (b_data b).[buf + i] (d_data (disk (b_plat b))))) b) as E1.
  { unfold b1, blk_copy_byte. change (VIRTIO_BLK_T_OUT =? VIRTIO_BLK_T_IN) with false.
    assert (u64 (off + i) = off + i) as E by (apply wrap_small; [lia|unfold rng in *; lia]).
    rewrite E, Hp. destruct (Z.ltb_spec (off + i) (d_size (disk (b_plat b)))); [done|lia]. }
  clearbody b1. subst b1.
  destruct (IH (i + 1) (upd_disk (set_d_data (aset (off + i) (b_data b).[buf + i] (d_data (disk (b_plat b))))) b))
    as (Hd & Hh & img & Himg & Hg); [cbn -[Z.of_nat]; first [lia | done]..|]. cbv zeta in *.
  split; [by rewrite Hd|]. split; [by rewrite Hh|]. exists img. split; [by rewrite Himg|].
  intros pos. rewrite Hg. cbn -[Z.of_nat]. rewrite aget_aset. destruct (Z.eqb_spec (off + i) pos) as [<-|].
  - zcase; cbn [andb]; try lia. by replace (buf + (off + i - off)) with (buf + i) by lia.
  - zcase; done.
Qed.

(** ** MMIO addresses of the per-hart and per-context registers *)

Definition claim_addr (ctx : Z) : Z := PLIC_BASE + 0x200004 + ctx * 0x1000.
Definition mtimecmp_addr (h : Z) : Z := CLINT_BASE + 0x4000 + h * 8.

(** [forall] over a small index range, decided by evaluation. *)
Lemma below_forallb n (f : Z -> bool) :
  forallb f (zseq 0 n) = true -> forall i, 0 <= i < Z.of_nat n -> f i = true.
Proof.
  intros H i Hi. rewrite forallb_forall in H. apply H.
  apply list_elem_of_In, elem_of_zseq. lia.
Qed.

Lemma plat_read_claim ctx b : 0 <= ctx < PLIC_NCONTEXTS ->
  plat_read (claim_addr ctx) 4 b = plic_claim ctx b.
Proof.
  intros Hc. pose proof (below_forallb 16 (fun ctx =>
    negb (in_window (claim_addr ctx) UART_BASE UART_SIZE)
    && negb (in_window (claim_addr ctx) CLINT_BASE CLINT_SIZE)
    && in_window (claim_addr ctx) PLIC_BASE PLIC_SIZE
    && (claim_addr ctx .& 3 =? 0)
    && (u32 (u64 (claim_addr ctx - PLIC_BASE) .& u32 (Z.lnot 3)) =? 0x200004 + ctx * 0x1000)
    && ((0x200004 + ctx * 0x1000 - 0x200000) / 0x1000 =? ctx)
    && ((0x200004 + ctx * 0x1000 - 0x200000) mod 0x1000 =? 4)) ltac:(vm_compute; reflexivity)
    ctx Hc) as H. cbv beta in H.
  rewrite !andb_true_iff, !negb_true_iff, !Z.eqb_eq in H. destruct H as ((((((H1 & H2) & H3) & H4) & H5) & H6) & H7).
  unfold plat_read, plat_read_word. rewrite H1. unfold mbind, st_bind, gets. rewrite H2, H3, H5.
  unfold plic_read. unfold mbind, st_bind, gets. unfold PLIC_NCONTEXTS, QUANTA_MAX_HARTS in *.
  repeat match goal with
  | |- context [?x <? ?y] => destruct (Z.ltb_spec x y); [try lia|try lia]
  | |- context [?x <=? ?y] => destruct (Z.leb_spec x y); [try lia|try lia]
  | |- context [0x200004 + ctx * 0x1000 =? 0x1000] => destruct (Z.eqb_spec (0x200004 + ctx * 0x1000) 0x1000); [lia|]
  end; cbn [andb]; try lia.
  rewrite H7, H6, H4. rewrite Z.mul_0_r. cbn [Z.eqb Pos.eqb]. unfold plic_claim.
  unfold mbind, st_bind, gets. destruct (when _ _ b) as [[] b']. cbn. done.
Qed.

Lemma plat_write_claim ctx s b : 0 <= ctx < PLIC_NCONTEXTS ->
  exec (plat_write (claim_addr ctx) 4 s) b =
  upd_plic (fun pl => if s =? (claimed pl).[ctx] then set_claimed (aset ctx 0 (claimed pl)) pl else pl) b.
Proof.
  intros Hc. pose proof (below_forallb 16 (fun ctx =>
    negb (in_window (claim_addr ctx) UART_BASE UART_SIZE)
    && negb (in_window (claim_addr ctx) CLINT_BASE CLINT_SIZE)
    && negb (in_window (claim_addr ctx) TEST_BASE TEST_SIZE)
    && in_window (claim_addr ctx) PLIC_BASE PLIC_SIZE
    && (u32 (u64 (claim_addr ctx - PLIC_BASE) .& u32 (Z.lnot 3)) =? 0x200004 + ctx * 0x1000)
    && ((0x200004 + ctx * 0x1000 - 0x200000) / 0x1000 =? ctx)
    && ((0x200004 + ctx * 0x1000 - 0x200000) mod 0x1000 =? 4)) ltac:(vm_compute; reflexivity)
    ctx Hc) as H. cbv beta in H.
  rewrite !andb_true_iff, !negb_true_iff, !Z.eqb_eq in H. destruct H as ((((((H1 & H2) & H3) & H4) & H5) & H6) & H7).
  unfold plat_write. rewrite H3, H1, H2, H4, H5. st_simpl.
  unfold upd_plic, upd_plat. do 3 f_equal. unfold plic_write.
  unfold PLIC_NCONTEXTS, QUANTA_MAX_HARTS in *.
  repeat match goal with
  | |- context [?x <? ?y] => destruct (Z.ltb_spec x y); [try lia|try lia]
  | |- context [?x <=? ?y] => destruct (Z.leb_spec x y); [try lia|try lia]
  end; cbn [andb]; try lia.
  rewrite H7, H6. done.
Qed.

(** ** An example machine

    64 KiB of RAM at [0x80000000] and a two-sector writable disk.  The block queue
    holds one request: a header at [+0x4000] (write, sector 1), 512 data bytes at
    [+0x5000] and a status byte at [+0x6000]; the descriptor table is at [+0x3000],
    the available ring at [+0x1000], the used ring at [+0x2000]. *)

Definition le_bytes (n : nat) (v : Z) : list Z := map (fun i => u8 (v >> (8 * i))) (zseq 0 n).
Definition desc_bytes (addr len flags next : Z) : list Z :=
  le_bytes 8 addr ++ le_bytes 4 len ++ le_bytes 2 flags ++ le_bytes 2 next.
Definition ex_ram : arr :=
  ∅ |> put_bytes 0x1000 [0; 0; 1; 0; 0; 0]
    |> put_bytes 0x3000 (desc_bytes 0x80004000 16 1 1 ++ desc_bytes 0x80005000 512 1 2
                           ++ desc_bytes 0x80006000 1 2 0)
    |> put_bytes 0x4000 (le_bytes 4 1 ++ le_bytes 4 0 ++ le_bytes 8 1)
    |> put_bytes 0x5000 [0xde; 0xad; 0xbe; 0xef].
Definition ex_virtio : Virtio := mkVirtio 15 0 8 1 0x80003000 0x80001000 0x80002000 0 0.
Definition ex_plat : Platform :=
  plat_init |> plat_attach_ram 0x80000000 0x10000 |> set_virtio ex_virtio
    |> set_disk (mkDisk true ∅ 1024 true true).
Definition ex_bus : Bus := mkBus ex_ram 0x80000000 0x10000 false 0 true ex_plat [].

Lemma ex_bus_ok : bus_ok ex_bus.
Proof.
  constructor; [cbn [ex_bus b_data]; unfold ex_ram; closed_rng|].
  destruct plat_init_ok. constructor; try done; try (constructor; cbn -[rng arr_rng]; closed_rng; done);
    cbn -[rng]; closed_rng.
Qed.

(** ** Properties *)

(** C5 [mmio_safe]: an MMIO access of any device window, at any address and width,
    keeps the bus well formed (every register within its C type, ring indices in
    bounds, RAM and disk bytes) and changes nothing of the RAM array outside the DMA
    window nor the window itself, whatever virtqueue contents the guest has built; a
    read returns a 32-bit value. *)
Theorem mmio_access_safe b addr size val : bus_ok b -> rng 32 val ->
  inv b (exec (plat_write addr size val) b) /\ inv b (exec (plat_read addr size) b)
  /\ rng 32 (run (plat_read addr size) b).
Proof.
  intros Hb Hv. assert (inv b b) by (split; [done|apply frame_refl]).
  split; [by apply pres_plat_write|]. split; [by apply pres_plat_read|by apply plat_read_rng].
Qed.

Lemma mmio_access_safe_witness :
  inv ex_bus (exec (plat_write (VIRTIO_BASE + V_QUEUE_NOTIFY) 4 0) ex_bus).
Proof.
  exact (proj1 (mmio_access_safe ex_bus (VIRTIO_BASE + V_QUEUE_NOTIFY) 4 0 ex_bus_ok
    (rng_const 32 0 eq_refl))).
Defined.

Lemma notify_loop_virtio avail used idx fuel : forall b, exists a,
  virtio (b_plat (exec (virtio_notify_loop fuel avail used idx) b))
  = set_v_last_avail a (virtio (b_plat b)).
Proof.
  induction fuel as [|fuel IH]; intros b.
  - exists (v_last_avail (virtio (b_plat b))). by cbn; destruct (virtio (b_plat b)).
  - rewrite notify_loop_unfold. destruct (_ =? _).
    + exists (v_last_avail (virtio (b_plat b))). by cbn; destruct (virtio (b_plat b)).
    + destruct (IH (exec (notify_step avail used (virtio (b_plat b))) b)) as [a ->].
      rewrite notify_step_virtio. by exists a.
Qed.

(** C6 [notify_drains]: a notification of a live block queue terminates having
    consumed the whole available ring (the device's index is the driver's producer
    index) and raises the used-ring interrupt; no other register changes. *)
Theorem virtio_notify_drains b avail used :
  bus_ok b -> let v := virtio (b_plat b) in
  v_queue_ready v <> 0 -> 0 < v_queue_num v <= V_QUEUE_MAX ->
  dma_ptr (b_plat b) (v_avail_addr v) (4 + v_queue_num v * 2) = Some avail ->
  dma_ptr (b_plat b) (v_used_addr v) (4 + v_queue_num v * 8) = Some used ->
  virtio (b_plat (exec virtio_notify b)) =
  v |> set_v_last_avail (ld16 (b_data b) (avail + 2))
    |> set_v_interrupt_status (v_interrupt_status v .| 1).
Proof.
  intros Hb v Hr Hq Ea Eu. unfold virtio_notify. st_simpl. fold v.
  destruct (Z.eqb_spec (v_queue_ready v) 0); [done|].
  destruct (Z.eqb_spec (v_queue_num v) 0); [lia|].
  destruct (Z.ltb_spec V_QUEUE_MAX (v_queue_num v)); [lia|]. cbn [orb]. rewrite Ea, Eu. st_simpl.
  set (idx := ld16 _ _). assert (rng 16 idx) as Hidx by apply ld16_rng.
  assert (rng 16 (v_last_avail v)) as Hl by (apply ok_v_last_avail, ok_virtio, ok_b_plat, Hb).
  pose proof (notify_loop_drains avail used (Pos.to_nat 65536) idx b Hidx Hl) as Hd.
  destruct (notify_loop_virtio avail used idx (Pos.to_nat 65536) b) as [a Ha].
  unfold upd_virtio, upd_plat. cbn -[virtio_notify_loop Pos.to_nat]. rewrite Ha in Hd |- *.
  cbn in Hd. rewrite Hd; [done|].
  pose proof (u16_rng (idx - v_last_avail (virtio (b_plat b)))) as [_ Hu].
  change (2 ^ 16) with 65536 in Hu. lia.
Qed.

Lemma virtio_notify_drains_witness :
  ld16 ex_ram 0x1002 = 1 /\
  virtio (b_plat (exec virtio_notify ex_bus)) =
  virtio (b_plat ex_bus) |> set_v_last_avail (ld16 (b_data ex_bus) (0x1000 + 2))
    |> set_v_interrupt_status (v_interrupt_status (virtio (b_plat ex_bus)) .| 1).
Proof.
  split; [vm_compute; reflexivity|].
  refine (virtio_notify_drains ex_bus 0x1000 0x2000 ex_bus_ok _ _ _ _); vm_compute;
    first [reflexivity | discriminate | (split; [reflexivity|discriminate])].
Defined.

(** The interrupt line of a source: the UART on 10 while it holds a received byte or an
    empty transmitter with that interrupt enabled, the block device on 1 and the network
    device on 2 while an interrupt is pending in them. *)
Definition asserting (p : Platform) (s : Z) : Prop :=
  (s = 10 /\ ((Z.testbit (ier (uart p)) 0 = true /\ rx_have (uart p) = true) \/
             (Z.testbit (ier (uart p)) 1 = true /\ thre_ip (uart p) = true)))
  \/ (s = 1 /\ v_interrupt_status (virtio p) <> 0) \/ (s = 2 /\ n_interrupt_status (net p) <> 0).
(** A source the controller may present to a context. *)
Definition eligible (p : Platform) (ctx s : Z) : Prop :=
  asserting p s /\ Z.testbit (enable (plic p)).[ctx] s = true /\ (claimed (plic p)).[ctx] <> s /\
  (threshold (plic p)).[ctx] < (priority (plic p)).[s].

Lemma mask_bit x i : 0 <= i -> negb (x .& (1 << i) =? 0) = Z.testbit x i.
Proof.
  intros Hi. destruct (Z.testbit x i) eqn:E.
  - apply negb_true_iff, Z.eqb_neq. intros H. apply (f_equal (fun z => Z.testbit z i)) in H.
    rewrite Z.land_spec, Z.shiftl_spec, Z.sub_diag, E, Z.bits_0 in H by lia. done.
  - apply negb_false_iff, Z.eqb_eq, Z.bits_inj'. intros n Hn. rewrite Z.land_spec, Z.shiftl_spec, Z.bits_0 by lia.
    destruct (decide (n = i)) as [->|]; [by rewrite E|]. destruct (Z.ltb_spec n i); [rewrite (Z.testbit_neg_r _ (n - i)) by lia; apply andb_false_r|].
    change 1 with (2 ^ 0). rewrite Z.pow2_bits_false by lia. apply andb_false_r.
Qed.
Lemma lines_bit p s : 0 <= s -> Z.testbit (plic_lines p) s = true <-> asserting p s.
Proof.
  intros Hs. unfold plic_lines, asserting, UART_IRQ, VIRTIO_IRQ, VIRTIO_NET_IRQ. rewrite !Z.lor_spec.
  assert (forall (c : bool) i, 0 <= i -> Z.testbit (if c then 1 << i else 0) s = true <-> s = i /\ c = true) as Hb.
  { intros c i Hi. destruct c; [|rewrite Z.bits_0; split; [done|by intros [_ ?]]]. rewrite Z.shiftl_1_l, pow2_testbit, Z.eqb_eq by lia. split; [by intros ->|by intros [-> _]]. }
  assert (forall (c : bool) i, (if c then 0 else 1 << i) = (if negb c then 1 << i else 0)) as Hn by by intros [] i.
  rewrite !Hn, !orb_true_iff, !Hb, !negb_true_iff, !Z.eqb_neq by lia. unfold uart_asserted.
  change 0x01 with (1 << 0). change 0x02 with (1 << 1). rewrite !mask_bit, orb_true_iff, !andb_true_iff by lia. tauto.
Qed.
Lemma plic_ready_eligible p ctx s : 0 <= s -> plic_ready p ctx s = true <-> eligible p ctx s.
Proof.
  intros Hs. unfold plic_ready, eligible. rewrite !mask_bit, !andb_true_iff, negb_true_iff, Z.eqb_neq, Z.ltb_lt, lines_bit by done. split; [|]; intuition congruence.
Qed.
Lemma eligible_range p ctx s : eligible p ctx s -> 1 <= s < PLIC_NSOURCES.
Proof. unfold PLIC_NSOURCES. intros [[[-> _]|[[-> _]|[-> _]]] _]; lia. Qed.


(** The example machine with both virtio devices and the UART asserting; context 1
    enables sources 1, 2 and 10. *)
Definition ex_irq_plat : Platform :=
  ex_plat |> set_virtio (set_v_interrupt_status 1 ex_virtio)
    |> set_net (set_n_interrupt_status 1 (net ex_plat))
    |> set_uart (mkUart 1 0 0 0 0 0 true 65 false)
    |> set_plic (mkPlic (aset 1 3 (aset 2 7 (aset 10 7 ∅))) (aset 1 0x406 ∅) (aset 1 2 ∅) ∅).

Lemma ex_irq_ok : plat_ok ex_irq_plat.
Proof.
  destruct (ok_b_plat _ ex_bus_ok) as [Hc _ _ Hv Hn Hd ? ? ?].
  assert (uart_ok (uart ex_irq_plat)) by (constructor; cbn -[rng]; closed_rng).
  assert (plic_ok (plic ex_irq_plat)) by (constructor; cbn -[rng arr_rng]; closed_rng).
  assert (virtio_ok (virtio ex_irq_plat)).
  { destruct Hv. constructor; first [assumption | cbn -[rng]; closed_rng]. }
  assert (net_ok (net ex_irq_plat)).
  { destruct Hn. constructor; first [assumption | cbn -[rng]; closed_rng]. }
  by constructor.
Qed.


(** Arbitration depends on the asserted lines and the four register banks only. *)
Lemma plic_best_ext p p' ctx :
  plic_lines p' = plic_lines p -> priority (plic p') = priority (plic p) ->
  (enable (plic p')).[ctx] = (enable (plic p)).[ctx] ->
  (threshold (plic p')).[ctx] = (threshold (plic p)).[ctx] ->
  (claimed (plic p')).[ctx] = (claimed (plic p)).[ctx] ->
  plic_best p' ctx = plic_best p ctx.
Proof.
  intros El Ep Ee Et Ec. unfold plic_best. f_equal. generalize (0, 0) as acc.
  generalize (zseq 1 (Z.to_nat (PLIC_NSOURCES - 1))) as l.
  induction l as [|s l IH]; intros acc; [reflexivity|]. cbn [foldl]. rewrite <- IH. f_equal.
  unfold plic_scan, plic_ready. by rewrite El, Ep, Ee, Et, Ec.
Qed.

(** A source in service is not presented again. *)
Lemma plic_best_claimed p ctx : plat_ok p -> plic_best p ctx <> 0 ->
  plic_best p ctx <> (claimed (plic p)).[ctx].
Proof.
  intros Hp H0. destruct (plic_best_scanned p ctx Hp) as [prio [[H _]|(_ & H & _)]]; [contradiction|].
  unfold plic_ready in H. apply andb_true_iff in H as [H _].
  apply andb_true_iff in H as [_ H%negb_true_iff]. by apply Z.eqb_neq in H.
Qed.

(** C10 [plic_claim]: reading a context's claim register when nothing is in service
    there returns the source the PLIC presents and takes it out of arbitration for
    that context; completing it restores what every context is presented. *)
Theorem plic_claim_complete b ctx :
  bus_ok b -> 0 <= ctx < PLIC_NCONTEXTS -> (claimed (plic (b_plat b))).[ctx] = 0 ->
  let s := plic_best (b_plat b) ctx in
  let b1 := exec (plat_read (claim_addr ctx) 4) b in
  let b2 := exec (plat_write (claim_addr ctx) 4 s) b1 in
  run (plat_read (claim_addr ctx) 4) b = s
  /\ (s <> 0 -> plic_best (b_plat b1) ctx <> s)
  /\ (forall c, plic_best (b_plat b2) c = plic_best (b_plat b) c).
Proof.
  intros Hb Hc H0. cbv zeta.
  assert (exec (plat_read (claim_addr ctx) 4) b = exec (plic_claim ctx) b) as ->
    by (unfold exec; by rewrite plat_read_claim).
  assert (run (plat_read (claim_addr ctx) 4) b = run (plic_claim ctx) b) as ->
    by (unfold run; by rewrite plat_read_claim).
  rewrite plat_write_claim by done. unfold plic_claim. st_simpl.
  pose proof (plic_best_range (b_plat b) ctx) as Hr.
  set (s := plic_best (b_plat b) ctx) in *. split; [reflexivity|]. clearbody s.
  set (b1 := exec (when _ _) b).
  assert (claimed (plic (b_plat b1)) = if s =? 0 then claimed (plic (b_plat b))
    else aset ctx s (claimed (plic (b_plat b)))) as Ec by (unfold b1; by destruct (s =? 0)).
  assert (forall cl, plic_lines (set_plic (set_claimed cl (plic (b_plat b1))) (b_plat b1))
    = plic_lines (b_plat b)) as El by (intros; unfold b1; by destruct (s =? 0)).
  assert (bus_ok b1) as Hb1.
  { assert (rng 32 s) by (unfold PLIC_NSOURCES in *; split; lia).
    apply (pres_when (inv b) (negb (s =? 0))); [apply pres_plic; reg_ok|].
    split; [done|apply frame_refl]. }
  split.
  - intros Hs E. apply (plic_best_claimed (b_plat b1) ctx); [apply Hb1|congruence|].
    rewrite Ec, E. destruct (Z.eqb_spec s 0); [done|]. by rewrite aget_aset_eq.
  - intros c.
    assert (forall cl, cl.[c] = (claimed (plic (b_plat b))).[c] ->
      plic_best (set_plic (set_claimed cl (plic (b_plat b1))) (b_plat b1)) c = plic_best (b_plat b) c) as Hx.
    { intros cl Hcl. apply plic_best_ext; [apply El|unfold b1; by destruct (s =? 0)..|exact Hcl]. }
    unfold upd_plic, upd_plat. cbn [b_plat set_b_plat]. rewrite Ec.
    destruct (Z.eqb_spec s 0) as [E|E]; [rewrite H0|rewrite aget_aset_eq]; rewrite ?E, ?Z.eqb_refl.
    + cbn [Z.eqb]. apply Hx. rewrite aget_aset. destruct (Z.eqb_spec ctx c); congruence.
    + apply Hx. rewrite !aget_aset. destruct (Z.eqb_spec ctx c); congruence.
Qed.

Lemma plic_claim_complete_witness :
  plic_best ex_irq_plat 1 = 2 /\
  run (plat_read (claim_addr 1) 4) (set_b_plat ex_irq_plat ex_bus) = plic_best ex_irq_plat 1.
Proof.
  split; [vm_compute; reflexivity|].
  refine (proj1 (plic_claim_complete (set_b_plat ex_irq_plat ex_bus) 1 _ _ _)).
  - constructor; [apply ex_bus_ok|apply ex_irq_ok].
  - unfold PLIC_NCONTEXTS, QUANTA_MAX_HARTS. lia.
  - vm_compute. reflexivity.
Defined.

Lemma testbit_if (b : bool) x i : Z.testbit (if b then x else 0) i = b && Z.testbit x i.
Proof. destruct b; [done|]. apply Z.bits_0. Qed.

(** C11 [mip_bits]: the pending bits a hart pulls.  MTIP is the timer comparison, MSIP
    the hart's software-interrupt bit, MEIP and SEIP whether the PLIC presents a source
    to the hart's two contexts, and no other bit is ever set: skipping both scans when
    no line is asserted changes nothing. *)
Theorem plat_mip_bits_spec p h i : 0 <= h < QUANTA_MAX_HARTS -> 0 <= i ->
  Z.testbit (plat_mip_bits p h) i =
  if i =? 7 then (mtimecmp (clint p)).[h] <=? mtime (clint p)
  else if i =? 3 then negb ((msip (clint p)).[h] .& 1 =? 0)
  else if i =? 11 then negb (plic_best p (2 * h) =? 0)
  else if i =? 9 then negb (plic_best p (2 * h + 1) =? 0)
  else false.
Proof.
  intros Hh Hi. unfold plat_mip_bits.
  assert ((if plic_lines p =? 0 then 0 else
      (if plic_best p (2 * h) =? 0 then 0 else MIP_MEIP)
      .| (if plic_best p (2 * h + 1) =? 0 then 0 else MIP_SEIP))
    = (if negb (plic_best p (2 * h) =? 0) then MIP_MEIP else 0)
      .| (if negb (plic_best p (2 * h + 1) =? 0) then MIP_SEIP else 0)) as E.
  { destruct (Z.eqb_spec (plic_lines p) 0) as [E|E].
    - rewrite !plic_best_quiet by exact E. reflexivity.
    - destruct (plic_best p (2 * h) =? 0), (plic_best p (2 * h + 1) =? 0); reflexivity. }
  destruct (Z.ltb_spec h QUANTA_MAX_HARTS); [|lia].
  replace (if (msip (clint p)).[h] .& 1 =? 0 then 0 else MIP_MSIP)
    with (if negb ((msip (clint p)).[h] .& 1 =? 0) then MIP_MSIP else 0)
    by (destruct ((msip (clint p)).[h] .& 1 =? 0); reflexivity).
  match goal with |- Z.testbit (if _ then ?x else ?x .| ?y .| ?z) _ = _ =>
    transitivity (Z.testbit (x .| (if plic_lines p =? 0 then 0 else y .| z)) i);
      [destruct (plic_lines p =? 0); [by rewrite Z.lor_0_r|by rewrite Z.lor_assoc]|] end.
  rewrite E, !Z.lor_spec, !testbit_if. unfold MIP_MTIP, MIP_MSIP, MIP_MEIP, MIP_SEIP.
  rewrite !Z.shiftl_1_l, !pow2_testbit by lia. rewrite !(Z.eqb_sym _ i).
  destruct (Z.eqb_spec i 7) as [->|]; [by rewrite !andb_false_r, !orb_false_r, andb_true_r|].
  destruct (Z.eqb_spec i 3) as [->|]; [by rewrite !andb_false_r, !orb_false_r, andb_true_r, orb_false_l|].
  destruct (Z.eqb_spec i 11) as [->|]; [by rewrite !andb_false_r, !orb_false_r, andb_true_r|].
  destruct (Z.eqb_spec i 9) as [->|]; [by rewrite !andb_false_r, andb_true_r|].
  by rewrite !andb_false_r.
Qed.

Lemma plat_mip_bits_spec_witness :
  Z.testbit (plat_mip_bits ex_irq_plat 0) 9 = negb (plic_best ex_irq_plat 1 =? 0)
  /\ plic_best ex_irq_plat 1 = 2.
Proof.
  split; [|vm_compute; reflexivity].
  refine (plat_mip_bits_spec ex_irq_plat 0 9 _ _); [unfold QUANTA_MAX_HARTS|]; lia.
Defined.

(** A word write to the CLINT's compare register of hart [h]. *)
Lemma plat_write_mtimecmp h hi val b : 0 <= h < QUANTA_MAX_HARTS ->
  exec (plat_write (mtimecmp_addr h + (if hi : bool then 4 else 0)) 4 val) b =
  upd_clint (fun c => set_mtimecmp
    (aset h ((if hi then set_hi else set_lo) (mtimecmp c).[h] val) (mtimecmp c)) c) b.
Proof.
  intros Hh. pose proof (below_forallb 8 (fun h => forallb (fun hi : bool =>
    let a := mtimecmp_addr h + (if hi then 4 else 0) in
    let off := 0x4000 + h * 8 + (if hi then 4 else 0) in
    negb (in_window a TEST_BASE TEST_SIZE) && negb (in_window a UART_BASE UART_SIZE)
    && in_window a CLINT_BASE CLINT_SIZE
    && (u32 (u64 (a - CLINT_BASE) .& u32 (Z.lnot 3)) =? off)
    && ((off - 0x4000) / 8 =? h) && eqb ((off - 0x4000) .& 4 =? 0) (negb hi)) [true; false])
    ltac:(vm_compute; reflexivity) h Hh) as H.
  rewrite forallb_forall in H. specialize (H hi ltac:(destruct hi; simpl; auto)). cbv beta zeta in H.
  rewrite !andb_true_iff, !negb_true_iff, !Z.eqb_eq, eqb_true_iff in H.
  destruct H as (((((H1 & H2) & H3) & H4) & H5) & H6).
  unfold plat_write. rewrite H1, H2, H3, H4. st_simpl. unfold upd_clint, upd_plat. do 3 f_equal.
  unfold clint_write, QUANTA_MAX_HARTS in *. cbv zeta. rewrite H5, H6.
  assert (0 <= (if hi : bool then 4 else 0) <= 4) by (destruct hi; lia).
  repeat match goal with
  | |- context [?x <? ?y] => destruct (Z.ltb_spec x y); [try lia|try lia]
  | |- context [?x <=? ?y] => destruct (Z.leb_spec x y); [try lia|try lia]
  end; cbn [andb]; try lia. by destruct hi.
Qed.

(** C12 [timer]: storing a 64-bit deadline to a hart's [mtimecmp] as two words, in
    either order, programs exactly that deadline: MTIP is then [mtime >= deadline] for
    that hart, and the other harts' compares keep their values. *)
Theorem mtimecmp_program b h v (hi_first : bool) :
  bus_ok b -> 0 <= h < QUANTA_MAX_HARTS -> rng 64 v ->
  let w b hi := exec (plat_write (mtimecmp_addr h + (if hi : bool then 4 else 0)) 4
                        (if hi then u32 (v >> 32) else u32 v)) b in
  let p' := b_plat (w (w b hi_first) (negb hi_first)) in
  (mtimecmp (clint p')).[h] = v
  /\ Z.testbit (plat_mip_bits p' h) 7 = (v <=? mtime (clint (b_plat b)))
  /\ forall h', h' <> h -> (mtimecmp (clint p')).[h'] = (mtimecmp (clint (b_plat b))).[h'].
Proof.
  intros Hb Hh Hv w p'.
  assert (clint p' = set_mtimecmp (mtimecmp (clint p')) (clint (b_plat b))
    /\ (mtimecmp (clint p')).[h] = v
    /\ forall h', h' <> h -> (mtimecmp (clint p')).[h'] = (mtimecmp (clint (b_plat b))).[h']) as (E & Ev & Eo).
  { unfold p', w. rewrite !plat_write_mtimecmp by done. cbn -[set_hi set_lo u32 mtimecmp_addr].
    split; [done|]. split.
    - rewrite !aget_aset_eq. destruct hi_first; [by apply set_hi_lo|by apply set_lo_hi].
    - intros h' Hne. by rewrite !aget_aset_ne by done. }
  split; [exact Ev|]. split; [|exact Eo].
  assert (Z.testbit (plat_mip_bits p' h) 7 = ((mtimecmp (clint p')).[h] <=? mtime (clint p'))) as ->.
  { clearbody p'. clear -Hh. unfold plat_mip_bits.
    destruct (Z.ltb_spec h QUANTA_MAX_HARTS); [|lia]. rewrite Z.eqb_sym.
    destruct (0 =? _); rewrite ?Z.lor_spec; destruct (_ <=? _), (_ =? 0); cbn -[plic_best]; try done;
      by destruct (plic_best p' _ =? 0), (plic_best p' (2 * h + 1) =? 0). }
  rewrite Ev, E. done.
Qed.

Lemma mtimecmp_program_witness :
  let w b hi := exec (plat_write (mtimecmp_addr 3 + (if hi : bool then 4 else 0)) 4
                        (if hi then u32 (0x123456789 >> 32) else u32 0x123456789)) b in
  (mtimecmp (clint (b_plat (w (w ex_bus false) (negb false))))).[3] = 0x123456789.
Proof.
  refine (proj1 (mtimecmp_program ex_bus 3 0x123456789 false ex_bus_ok _ _)).
  - unfold QUANTA_MAX_HARTS. lia.
  - apply rng_const. vm_compute. reflexivity.
Defined.

(** C7 [blk_roundtrip]: writing a guest buffer to the disk image and reading the same
    sectors into another buffer copies the first buffer's bytes, for any buffers in RAM
    (overlapping ones included) and any span inside the image; a writable image also
    has exactly those bytes written through to its file. *)
Theorem blk_roundtrip b a1 a2 len off o1 o2 :
  let d := disk (b_plat b) in
  0 <= len -> 0 <= off -> off + len <= d_size d -> off < d_size d -> d_size d <= LONG_MAX ->
  d_present d = true ->
  dma_ptr (b_plat b) a1 len = Some o1 -> dma_ptr (b_plat b) a2 len = Some o2 ->
  let b1 := exec (blk_data VIRTIO_BLK_T_OUT [(a1, len)] off 0) b in
  let b2 := exec (blk_data VIRTIO_BLK_T_IN [(a2, len)] off 0) b1 in
  (forall k, 0 <= k < len -> (b_data b2).[o2 + k] = (b_data b).[o1 + k])
  /\ (d_writable d = true -> d_file d = true ->
      b_host b1 = DiskWrite off (slice (b_data b) o1 (Z.to_nat len)) :: b_host b).
Proof.
  intros d Hl Ho Hol Hod Hs Hp E1 E2 b1 b2.
  unfold LONG_MAX in Hs. assert (rng 64 (d_size d)) as Hr by (split; lia).
  destruct (blk_out_copy o1 off (Z.to_nat len) 0 b) as (Hd & Hh & img & Himg & Hg);
    [fold d; lia..|done|done|]. cbv zeta in *.
  unfold b2, b1. cbn [blk_data]. st_simpl. rewrite E1. st_simpl.
  set (c1 := exec (for_ _ _ _) b) in *. clearbody c1.
  assert (forall t, b_data (blk_write_through t off len c1) = b_data c1
    /\ b_plat (blk_write_through t off len c1) = b_plat c1) as Hw.
  { intros t. unfold blk_write_through. by destruct (_ && _). }
  destruct (Hw VIRTIO_BLK_T_OUT) as [Hw1 Hw2]. rewrite Hw2, Himg.
  assert (dma_ptr (set_disk (set_d_data img (disk (b_plat b))) (b_plat b)) a2 len = Some o2) as -> by exact E2.
  st_simpl. set (c2 := blk_write_through _ off len c1).
  destruct (blk_in_copy o2 off (Z.to_nat len) 0 c2) as (Hp3 & Hh3 & Hd3). cbv zeta in *.
  split.
  - intros k Hk. unfold blk_write_through at 1. cbn [Z.eqb VIRTIO_BLK_T_IN VIRTIO_BLK_T_OUT andb].
    rewrite Hd3. zcase; try lia; cbn [andb]. unfold image_byte. unfold c2. rewrite Hw2, Himg.
    cbn [disk set_disk d_present set_d_data d_size d_data]. fold d. rewrite Hp.
    replace (off + (o2 + k - o2)) with (off + k) by lia.
    unfold u64. rewrite wrap_small by (lia || (unfold rng in *; lia)).
    destruct (Z.ltb_spec (off + k) (d_size d)); [|lia]. cbn [andb]. rewrite Hg.
    zcase; try lia; cbn [andb]. f_equal. lia.
  - intros Hwr Hfi. unfold c2, blk_write_through.
    rewrite Himg. cbn [disk set_disk d_present set_d_data d_size d_data d_writable d_file].
    fold d. rewrite Hwr, Hfi, Hp.
    destruct (Z.ltb_spec off (d_size d)); [|lia].
    destruct (Z.leb_spec off LONG_MAX); [|unfold LONG_MAX in *; lia]. cbn [Z.eqb VIRTIO_BLK_T_OUT andb Pos.eqb].
    unfold u64. rewrite (wrap_small 64 (off + len)) by (lia || (unfold rng in *; lia)).
    destruct (Z.ltb_spec (d_size d) (off + len)); [lia|].
    cbn [emit b_host set_b_host]. rewrite Hh. f_equal. f_equal.
    replace (off + len - off) with len by lia. unfold slice.
    assert (forall n i, 0 <= i -> i + Z.of_nat n <= len ->
      map (aget img) (zseq (off + i) n) = map (aget (b_data b)) (zseq (o1 + i) n)) as Hm.
    { induction n as [|n IH]; intros i Hi Hn; [done|]. cbn [zseq map]. f_equal.
      - rewrite Hg. zcase; try lia; cbn [andb]. f_equal. lia.
      - rewrite <- !Z.add_assoc. apply IH; lia. }
    specialize (Hm (Z.to_nat len) 0 ltac:(lia) ltac:(lia)). by rewrite !Z.add_0_r in Hm.
Qed.

Lemma blk_roundtrip_witness :
  let b1 := exec (blk_data VIRTIO_BLK_T_OUT [(0x80005000, 4)] 512 0) ex_bus in
  let b2 := exec (blk_data VIRTIO_BLK_T_IN [(0x80005002, 4)] 512 0) b1 in
  (forall k, 0 <= k < 4 -> (b_data b2).[0x5002 + k] = (b_data ex_bus).[0x5000 + k])
  /\ (b_data ex_bus).[0x5003] = 0xef.
Proof.
  split; [|vm_compute; reflexivity].
  refine (proj1 (blk_roundtrip ex_bus 0x80005000 0x80005002 4 512 0x5000 0x5002 _ _ _ _ _ _ _ _));
    vm_compute; first [reflexivity | discriminate].
Defined.
