(* ===== verification/Memory.v ===== *)
(** * Guest memory ([src/memory.h], [src/memory.c])

    Little-endian loads and stores of a flat RAM region with bounds checking, MMIO
    dispatch to the devices, and the fault flag the CPU turns into a trap. *)

From S2P Require Import Prelude Device DeviceInv.

(** ** Operations *)

(** The index into [data] of an access of [width] bytes, or [None] after recording a
    fault.
    [src/memory.c 13-22] translate *)
Definition translate (addr width : Z) : st Bus (option Z) :=
  b ← gets id;
  if (addr <? b_base b) || (b_size b <? width)
     || (u64 (b_size b - width) <? u64 (addr - b_base b))
  then modify (fun b => set_b_fault_addr addr (set_b_fault true b)) ;; mret None
  else mret (Some (u64 (addr - b_base b))).

(** The successful path of [mem_init]: [calloc] hands out zeroed storage.
    [src/memory.c 24-35] mem_init *)
Definition mem_init (base size : Z) (p : Platform) (host : list HostEvent) : Bus :=
  mkBus ∅ base size false 0 false p host.

(** Does the address go to a device?
    [src/memory.c 49-49] mem_read64 *)
Definition mmio (addr : Z) (b : Bus) : bool := b_has_plat b && plat_contains addr.

(** [src/memory.c 80-85] mem_read8 *)
Definition mem_read8 (addr : Z) : st Bus Z :=
  dev ← gets (mmio addr);
  if dev : bool then v ← plat_read addr 1; mret (u8 v)
  else
    i ← translate addr 1;
    match i with
    | None => mret 0
    | Some i => gets (fun b => (b_data b).[i])
    end.

(** [src/memory.c 73-78] mem_read16 *)
Definition mem_read16 (addr : Z) : st Bus Z :=
  dev ← gets (mmio addr);
  if dev : bool then v ← plat_read addr 2; mret (u16 v)
  else
    i ← translate addr 2;
    match i with
    | None => mret 0
    | Some i => gets (fun b => u16 ((b_data b).[i] .| (b_data b).[i + 1] << 8))
    end.

(** [src/memory.c 63-71] mem_read32 *)
Definition mem_read32 (addr : Z) : st Bus Z :=
  dev ← gets (mmio addr);
  if dev : bool then plat_read addr 4
  else
    i ← translate addr 4;
    match i with
    | None => mret 0
    | Some i => gets (fun b =>
        let d k := (b_data b).[i + k] in
        (b_data b).[i] .| u32 (d 1 << 8) .| u32 (d 2 << 16) .| u32 (d 3 << 24))
    end.

(** [src/memory.c 47-61] mem_read64 *)
Definition mem_read64 (addr : Z) : st Bus Z :=
  dev ← gets (mmio addr);
  if dev : bool then
    lo ← plat_read addr 4;
    hi ← plat_read (u64 (addr + 4)) 4;
    mret (lo .| u64 (hi << 32))
  else
    i ← translate addr 8;
    match i with
    | None => mret 0
    | Some i => gets (fun b =>
        let d k := (b_data b).[i + k] in
        (b_data b).[i] .| u64 (d 1 << 8) .| u64 (d 2 << 16) .| u64 (d 3 << 24) .| u64 (d 4 << 32)
          .| u64 (d 5 << 40) .| u64 (d 6 << 48) .| u64 (d 7 << 56))
    end.

(** [src/memory.c 118-123] mem_write8 *)
Definition mem_write8 (addr value : Z) : st Bus unit :=
  dev ← gets (mmio addr);
  if dev : bool then plat_write addr 1 value
  else
    i ← translate addr 1;
    match i with
    | None => mret tt
    | Some i => modify (upd_data (aset i value))
    end.

(** [src/memory.c 110-116] mem_write16 *)
Definition mem_write16 (addr value : Z) : st Bus unit :=
  dev ← gets (mmio addr);
  if dev : bool then plat_write addr 2 value
  else
    i ← translate addr 2;
    match i with
    | None => mret tt
    | Some i => modify (upd_data (fun m => aset (i + 1) (u8 (value >> 8)) (aset i (u8 value) m)))
    end.

(** [src/memory.c 100-108] mem_write32 *)
Definition mem_write32 (addr value : Z) : st Bus unit :=
  dev ← gets (mmio addr);
  if dev : bool then plat_write addr 4 value
  else
    i ← translate addr 4;
    match i with
    | None => mret tt
    | Some i => modify (upd_data (fun m =>
        aset (i + 3) (u8 (value >> 24)) (aset (i + 2) (u8 (value >> 16))
          (aset (i + 1) (u8 (value >> 8)) (aset i (u8 value) m)))))
    end.

(** [src/memory.c 89-98] mem_write64 *)
Definition mem_write64 (addr value : Z) : st Bus unit :=
  dev ← gets (mmio addr);
  if dev : bool then
    plat_write addr 4 (u32 value) ;;
    plat_write (u64 (addr + 4)) 4 (u32 (value >> 32))
  else
    i ← translate addr 8;
    match i with
    | None => mret tt
    | Some i => for_ 8 0 (fun b => modify (upd_data (aset (i + b) (u8 (value >> (8 * b))))))
    end.

(** [src/memory.c 125-130] mem_load *)
Definition mem_load (addr : Z) (src : list Z) : st Bus Z :=
  i ← translate addr (Z.of_nat (length src));
  match i with
  | None => mret (-1)
  | Some i => modify (upd_data (put_bytes i src)) ;; mret 0
  end.

(** ** Little-endian values

    The reference meaning of an access: the [n] bytes from index [i] as a number, and
    the array with the low [n] bytes of [v] stored at [i]. *)

Fixpoint le_get (a : arr) (i : Z) (n : nat) : Z :=
  match n with O => 0 | S n => a.[i] + 256 * le_get a (i + 1) n end.
Fixpoint le_put (i : Z) (n : nat) (v : Z) (a : arr) : arr :=
  match n with O => a | S n => le_put (i + 1) n (v >> 8) (aset i (u8 v) a) end.

Lemma le_get_rng a i n : arr_rng 8 a -> rng (8 * Z.of_nat n) (le_get a i n).
Proof.
  intros Ha. revert i. induction n as [|n IH]; intros i; [split; simpl; lia|].
  cbn [le_get]. destruct (IH (i + 1)), (Ha i).
  replace (8 * Z.of_nat (S n)) with (8 + 8 * Z.of_nat n) by lia.
  split; [lia|]. rewrite Z.pow_add_r by lia. change (2 ^ 8) with 256 in *. nia.
Qed.

Lemma le_put_out n : forall i v a j, j < i \/ i + Z.of_nat n <= j -> (le_put i n v a).[j] = a.[j].
Proof.
  induction n as [|n IH]; intros i v a j Hj; [done|]. cbn [le_put].
  rewrite IH by lia. apply aget_aset_ne. lia.
Qed.

Lemma le_get_ext n : forall a a' i,
  (forall k, i <= k < i + Z.of_nat n -> a.[k] = a'.[k]) -> le_get a i n = le_get a' i n.
Proof.
  induction n as [|n IH]; intros a a' i H; [done|]. cbn [le_get].
  rewrite (H i) by lia. f_equal. f_equal. apply IH. intros. apply H. lia.
Qed.

Lemma le_get_put n : forall i v a, le_get (le_put i n v a) i n = wrap (8 * Z.of_nat n) v.
Proof.
  induction n as [|n IH]; intros i v a; [symmetry; apply Z.land_0_r|].
  cbn [le_get le_put]. rewrite le_put_out by lia. rewrite aget_aset_eq, IH.
  unfold u8. rewrite !wrap_mod by lia.
  replace (8 * Z.of_nat (S n)) with (8 + 8 * Z.of_nat n) by lia.
  rewrite Z.shiftr_div_pow2, Z.pow_add_r by lia. rewrite Z.rem_mul_r by lia. done.
Qed.

Lemma arr_rng_le_put n : forall i v a, arr_rng 8 a -> arr_rng 8 (le_put i n v a).
Proof.
  induction n as [|n IH]; intros; cbn [le_put]; [done|]. apply IH. apply arr_rng_aset; [done|apply u8_rng].
Qed.

(** ** What the accesses compute on RAM *)

(** The range [[addr, addr + w)] lies in the mapped region (no wrap-around). *)
Definition in_ram (b : Bus) (addr w : Z) : bool :=
  (b_base b <=? addr) && (addr - b_base b + w <=? b_size b).

(** The state a rejected access leaves. *)
Definition faulted (addr : Z) (b : Bus) : Bus := set_b_fault_addr addr (set_b_fault true b).

Record mem_ok (b : Bus) : Prop := {
  ok_bus : bus_ok b;
  ok_base : rng 64 (b_base b);
  ok_size : rng 64 (b_size b);
  ok_fault_addr : rng 64 (b_fault_addr b)
}.

Lemma translate_spec b addr w : mem_ok b -> rng 64 addr -> 0 <= w ->
  translate addr w b =
  if in_ram b addr w then (Some (addr - b_base b), b) else (None, faulted addr b).
Proof.
  intros [_ Hb Hs _] Ha Hw. unfold translate, in_ram, mbind, st_bind, gets, modify, rng in *. cbn [id].
  destruct (Z.ltb_spec addr (b_base b)); destruct (Z.leb_spec (b_base b) addr); try lia; cbn [orb andb]; [done|].
  unfold u64. rewrite (wrap_small 64 (addr - b_base b)) by (lia || (unfold rng; lia)).
  destruct (Z.ltb_spec (b_size b) w); cbn [orb].
  { destruct (Z.leb_spec (addr - b_base b + w) (b_size b)); [lia|done]. }
  rewrite wrap_small by (lia || (unfold rng; lia)).
  destruct (Z.ltb_spec (b_size b - w) (addr - b_base b));
    destruct (Z.leb_spec (addr - b_base b + w) (b_size b)); try lia; done.
Qed.

(** One access per width, so that the theorems quantify over it. *)
Inductive width := W8 | W16 | W32 | W64.
Definition nbytes (w : width) : nat := match w with W8 => 1 | W16 => 2 | W32 => 4 | W64 => 8 end.
Definition mem_read (w : width) : Z -> st Bus Z :=
  match w with W8 => mem_read8 | W16 => mem_read16 | W32 => mem_read32 | W64 => mem_read64 end.
Definition mem_write (w : width) : Z -> Z -> st Bus unit :=
  match w with W8 => mem_write8 | W16 => mem_write16 | W32 => mem_write32 | W64 => mem_write64 end.

Lemma byte_shl a i k : arr_rng 8 a -> 0 <= k -> k + 8 <= 64 -> wrap 64 (a.[i] << k) = a.[i] << k.
Proof.
  intros Ha Hk Hk'. destruct (Ha i) as [H0 H1]. apply wrap_small; [lia|].
  rewrite Z.shiftl_mul_pow2 by lia. split; [nia|].
  assert (2 ^ 64 = 2 ^ 8 * 2 ^ k * 2 ^ (56 - k)) as ->
    by (rewrite <- !Z.pow_add_r by lia; f_equal; lia).
  assert (0 < 2 ^ k /\ 0 < 2 ^ (56 - k)) by lia. nia.
Qed.

Lemma byte_shl32 a i k : arr_rng 8 a -> 0 <= k -> k + 8 <= 32 -> wrap 32 (a.[i] << k) = a.[i] << k.
Proof.
  intros Ha Hk Hk'. rewrite <- (byte_shl a i k) at 1 by (done || lia).
  destruct (Ha i) as [H0 H1]. rewrite byte_shl by (done || lia). apply wrap_small; [lia|].
  rewrite Z.shiftl_mul_pow2 by lia. split; [nia|].
  assert (2 ^ 32 = 2 ^ 8 * 2 ^ k * 2 ^ (24 - k)) as ->
    by (rewrite <- !Z.pow_add_r by lia; f_equal; lia).
  assert (0 < 2 ^ k /\ 0 < 2 ^ (24 - k)) by lia. nia.
Qed.

Lemma le_get_snoc a n : forall i,
  le_get a i (S n) = le_get a i n + a.[i + Z.of_nat n] * 2 ^ (8 * Z.of_nat n).
Proof.
  induction n as [|n IH]; intros i.
  { cbn [le_get]. replace (i + Z.of_nat 0) with i by lia. change (2 ^ (8 * Z.of_nat 0)) with 1. lia. }
  cbn [le_get]. cbn [le_get] in IH. rewrite (IH (i + 1)).
  replace (i + 1 + Z.of_nat n) with (i + Z.of_nat (S n)) by lia.
  replace (8 * Z.of_nat (S n)) with (8 + 8 * Z.of_nat n) by lia.
  rewrite Z.pow_add_r by lia. change (2 ^ 8) with 256. lia.
Qed.

(** Or-ing in the next byte extends the little-endian value. *)
Lemma le_get_lor a i n k s : arr_rng 8 a -> k = Z.of_nat n -> s = 8 * k ->
  le_get a i n .| (a.[i + k] << s) = le_get a i (S n).
Proof.
  intros Ha -> ->. rewrite le_get_snoc. apply lor_shiftl_add; [lia|]. by apply le_get_rng.
Qed.

Lemma le_get_1 a i : a.[i] = le_get a i 1.
Proof. cbn [le_get]. lia. Qed.

Lemma read8_spec a i : arr_rng 8 a -> a.[i] = le_get a i 1.
Proof. intros. apply le_get_1. Qed.

Lemma read16_spec a i : arr_rng 8 a -> u16 (a.[i] .| a.[i + 1] << 8) = le_get a i 2.
Proof.
  intros Ha. rewrite (le_get_1 a i).
  rewrite le_get_lor by (done || lia).
  apply wrap_small; [lia|]. by apply (le_get_rng a i 2).
Qed.

Lemma read32_spec a i : arr_rng 8 a ->
  a.[i] .| u32 (a.[i + 1] << 8) .| u32 (a.[i + 2] << 16) .| u32 (a.[i + 3] << 24) = le_get a i 4.
Proof.
  intros Ha. unfold u32. rewrite !byte_shl32 by (done || lia). rewrite (le_get_1 a i).
  rewrite !le_get_lor by (done || lia). done.
Qed.

Lemma read64_spec a i : arr_rng 8 a ->
  a.[i] .| u64 (a.[i + 1] << 8) .| u64 (a.[i + 2] << 16) .| u64 (a.[i + 3] << 24)
    .| u64 (a.[i + 4] << 32) .| u64 (a.[i + 5] << 40) .| u64 (a.[i + 6] << 48) .| u64 (a.[i + 7] << 56)
  = le_get a i 8.
Proof.
  intros Ha. unfold u64. rewrite !byte_shl by (done || lia). rewrite (le_get_1 a i).
  rewrite !le_get_lor by (done || lia). done.
Qed.

Lemma le_put_2 i v a : le_put i 2 v a = aset (i + 1) (u8 (v >> 8)) (aset i (u8 v) a).
Proof. done. Qed.
Lemma le_put_4 i v a : le_put i 4 v a =
  aset (i + 3) (u8 (v >> 24)) (aset (i + 2) (u8 (v >> 16)) (aset (i + 1) (u8 (v >> 8)) (aset i (u8 v) a))).
Proof. cbn [le_put]. rewrite !Z.shiftr_shiftr, <- !Z.add_assoc by lia. done. Qed.

(** A RAM load returns the little-endian value of its bytes; a rejected one returns 0
    and records the fault. *)
Lemma mem_read_ram w b addr : mem_ok b -> rng 64 addr -> mmio addr b = false ->
  mem_read w addr b =
  if in_ram b addr (Z.of_nat (nbytes w))
  then (le_get (b_data b) (addr - b_base b) (nbytes w), b) else (0, faulted addr b).
Proof.
  intros Hb Ha Hm. pose proof (ok_b_data _ (ok_bus _ Hb)) as Hd.
  pose proof (fun w => translate_spec b addr w Hb Ha) as Ht.
  destruct w; cbn [mem_read nbytes]; unfold mem_read8, mem_read16, mem_read32, mem_read64;
    unfold mbind, st_bind, gets; rewrite Hm, Ht by lia; destruct (in_ram _ _ _); try done;
    unfold mret, st_ret; f_equal;
    [apply read8_spec|apply read16_spec|apply read32_spec|apply read64_spec]; done.
Qed.

Lemma for8_put i v b :
  for_ 8 0 (fun k => modify (upd_data (aset (i + k) (u8 (v >> (8 * k)))))) b
  = (tt, upd_data (le_put i 8 v) b).
Proof.
  cbn [for_ le_put]. unfold mbind, st_bind, modify, mret, st_ret, upd_data. cbn.
  rewrite !Z.shiftr_shiftr, <- !Z.add_assoc, Z.add_0_r by lia. cbn. done.
Qed.

(** The value a store of width [w] is handed (the C parameter type). *)
Definition store_arg (w : width) (v : Z) : Prop := rng (8 * Z.of_nat (nbytes w)) v.

Lemma mem_write_ram w b addr v : mem_ok b -> rng 64 addr -> store_arg w v -> mmio addr b = false ->
  mem_write w addr v b =
  if in_ram b addr (Z.of_nat (nbytes w))
  then (tt, upd_data (le_put (addr - b_base b) (nbytes w) v) b) else (tt, faulted addr b).
Proof.
  intros Hb Ha Hv Hm. pose proof (fun w => translate_spec b addr w Hb Ha) as Ht.
  destruct w; cbn [mem_write nbytes]; unfold mem_write8, mem_write16, mem_write32, mem_write64;
    unfold mbind, st_bind, gets; rewrite Hm, Ht by lia; destruct (in_ram _ _ _); try done.
  - unfold modify, upd_data. cbn [le_put]. unfold u8. by rewrite wrap_small.
  - unfold modify, upd_data. by rewrite le_put_4.
  - by rewrite for8_put.
Qed.

(** ** Accesses keep memory well formed *)

(** What no access changes: the memory map. *)
Record same_map (b0 b : Bus) : Prop := {
  sm_base : b_base b = b_base b0;
  sm_size : b_size b = b_size b0;
  sm_has_plat : b_has_plat b = b_has_plat b0;
  sm_has_ram : has_ram (b_plat b) = has_ram (b_plat b0);
  sm_ram_base : ram_base (b_plat b) = ram_base (b_plat b0);
  sm_ram_size : ram_size (b_plat b) = ram_size (b_plat b0);
  sm_nharts : nharts (b_plat b) = nharts (b_plat b0)
}.
Definition mem_inv (b0 b : Bus) : Prop := mem_ok b /\ same_map b0 b.

Lemma same_map_refl b : same_map b b.
Proof. by constructor. Qed.

Lemma same_map_trans a b c : same_map a b -> same_map b c -> same_map a c.
Proof. intros [] []. constructor; congruence. Qed.

Lemma pres_mem_inv {A} (m : st Bus A) b1 :
  (forall b0, pres (inv b0) m) -> pres (mem_inv b1) m.
Proof.
  intros Hm b [[Hb Hba Hs Hfa] Hmap]. destruct (Hm b b) as [Hb' Hf]; [split; [done|apply frame_refl]|].
  split; [|apply same_map_trans with b; [done|by destruct Hf; constructor]].
  destruct Hf. constructor; congruence.
Qed.

Lemma pres_mem_inv_data b1 f :
  (forall a, arr_rng 8 a -> arr_rng 8 (f a)) -> pres (mem_inv b1) (modify (upd_data f)).
Proof.
  intros Hf b [[[Hd Hp] Hba Hs Hfa] []]. split; [|by constructor]. constructor; try done.
  constructor; [by apply Hf|done].
Qed.

Lemma pres_translate b1 addr w : rng 64 addr -> pres (mem_inv b1) (translate addr w).
Proof.
  intros. unfold translate. pres_auto. intros b [[[] ? ? ?] []]. split; [|by constructor].
  by constructor.
Qed.

Lemma pres_mem_read b1 w addr : rng 64 addr -> pres (mem_inv b1) (mem_read w addr).
Proof.
  intros. destruct w; cbn [mem_read]; unfold mem_read8, mem_read16, mem_read32, mem_read64;
    repeat first [by apply pres_translate | apply pres_mem_inv; intro; apply pres_plat_read | pres_step].
Qed.

Lemma pres_mem_write b1 w addr v : rng 64 addr -> store_arg w v -> pres (mem_inv b1) (mem_write w addr v).
Proof.
  intros Ha Hv. unfold store_arg in Hv.
  destruct w; cbn [mem_write nbytes] in *; unfold mem_write8, mem_write16, mem_write32, mem_write64;
    repeat first [by apply pres_translate
      | apply pres_mem_inv; intro; apply pres_plat_write; solve [rng_auto | apply (rng_mono (8 * Z.of_nat (nbytes W8))); [cbn; lia|done] | apply (rng_mono (8 * Z.of_nat (nbytes W16))); [cbn; lia|done]]
      | apply pres_for; intros | apply pres_mem_inv_data; intros | pres_step];
    repeat apply arr_rng_aset; first [done | apply u8_rng].
Qed.

Lemma pres_mem_load b1 addr src : rng 64 addr -> bytes src -> pres (mem_inv b1) (mem_load addr src).
Proof.
  intros Ha Hs. unfold mem_load. pres_step; [by apply pres_translate|]. destruct a; [|pres_step].
  pres_step; [|pres_step]. apply pres_mem_inv_data. intros. by apply arr_rng_put_bytes.
Qed.

(** A load returns a value of its width, whatever it hits. *)
Lemma mem_read_rng w b addr : mem_ok b -> rng 64 addr ->
  rng (8 * Z.of_nat (nbytes w)) (run (mem_read w addr) b).
Proof.
  intros Hb Ha. destruct (mmio addr b) eqn:Hm.
  - pose proof (plat_read_rng addr) as Hr.
    destruct w; cbn [mem_read nbytes]; unfold mem_read8, mem_read16, mem_read32, mem_read64; st_simpl;
      rewrite Hm; st_simpl; [apply u8_rng|apply u16_rng|apply Hr, Hb|].
    apply lor_rng; [lia| |apply u64_rng]. apply (rng_mono 32); [lia|]. apply Hr, Hb.
  - unfold run. rewrite mem_read_ram by done. destruct (in_ram _ _ _).
    + apply le_get_rng, ok_b_data, Hb.
    + cbn [fst]. split; [lia|apply Z.pow_pos_nonneg; lia].
Qed.

(** ** Properties *)

(** C13 [mem_bounds]: an access of any width to a non-device address faults exactly when
    some byte of it lies outside the mapped region, for every 64-bit address, region base
    and size (no wrap-around); the fault address is recorded, a faulting load returns 0
    and a faulting store changes nothing else. *)
Theorem mem_access_faults w b addr v :
  mem_ok b -> rng 64 addr -> store_arg w v -> mmio addr b = false ->
  let ok := forall k, 0 <= k < Z.of_nat (nbytes w) -> b_base b <= addr + k < b_base b + b_size b in
  (ok -> b_fault (exec (mem_read w addr) b) = b_fault b
         /\ b_fault (exec (mem_write w addr v) b) = b_fault b)
  /\ (~ ok -> mem_read w addr b = (0, faulted addr b)
             /\ mem_write w addr v b = (tt, faulted addr b)).
Proof.
  intros Hb Ha Hv Hm ok. unfold exec. rewrite mem_read_ram, mem_write_ram by done.
  assert (ok <-> in_ram b addr (Z.of_nat (nbytes w)) = true) as Hok.
  { unfold ok, in_ram. rewrite andb_true_iff, !Z.leb_le. split.
    - intros H. pose proof (H 0). pose proof (H (Z.of_nat (nbytes w) - 1)). destruct w; cbn in *; lia.
    - intros [? ?] k Hk. lia. }
  split.
  - intros ->%Hok. done.
  - intros Hn. destruct (in_ram _ _ _); [by destruct Hn; apply Hok|done].
Qed.

(** C14 [mem_roundtrip]: a store to RAM is read back unchanged at the same address and
    width, and every load of other bytes, at any address and width outside the device
    regions, gives what it gave before. *)
Theorem mem_store_load w b addr v :
  mem_ok b -> rng 64 addr -> store_arg w v -> mmio addr b = false ->
  in_ram b addr (Z.of_nat (nbytes w)) = true ->
  let b' := exec (mem_write w addr v) b in
  run (mem_read w addr) b' = v
  /\ forall w' addr', rng 64 addr' -> mmio addr' b = false ->
       (addr' + Z.of_nat (nbytes w') <= addr \/ addr + Z.of_nat (nbytes w) <= addr') ->
       run (mem_read w' addr') b' = run (mem_read w' addr') b.
Proof.
  intros Hb Ha Hv Hm Hr. cbv zeta.
  assert (mem_ok (exec (mem_write w addr v) b)) as Hb'
    by (apply (pres_mem_write b w addr v Ha Hv); split; [done|apply same_map_refl]).
  revert Hb'. unfold exec, run. rewrite mem_write_ram, Hr by done. cbn [snd]. intros Hb'.
  split.
  - rewrite mem_read_ram by done. unfold in_ram in *. cbn [upd_data b_base b_size set_b_data b_data].
    rewrite Hr. cbn [fst]. rewrite le_get_put. apply wrap_small; [lia|done].
  - intros w' addr' Ha' Hm' Hdis. rewrite !mem_read_ram by done. unfold in_ram.
    cbn [upd_data b_base b_size set_b_data b_data]. destruct (_ && _); [|done]. cbn [fst].
    apply le_get_ext. intros k Hk. apply le_put_out. lia.
Qed.

(** A machine for the witnesses: 64 KiB of RAM below the top of the address space,
    the devices attached. *)
Definition ex_mem : Bus := set_b_has_plat true (mem_init 0xffffffffffff0000 0x10000 plat_init []).

Lemma ex_mem_ok : mem_ok ex_mem.
Proof.
  constructor; [constructor; [apply arr_rng_empty; lia|apply plat_init_ok]|..];
    apply rng_const; vm_compute; reflexivity.
Qed.

Lemma mem_access_faults_witness :
  mem_read W64 0xfffffffffffffffc ex_mem = (0, faulted 0xfffffffffffffffc ex_mem)
  /\ mem_write W64 0xfffffffffffffffc 0x1122334455667788 ex_mem = (tt, faulted 0xfffffffffffffffc ex_mem).
Proof.
  refine (proj2 (mem_access_faults W64 ex_mem 0xfffffffffffffffc 0x1122334455667788 ex_mem_ok _ _ _) _).
  - apply rng_const. reflexivity.
  - apply rng_const. reflexivity.
  - vm_compute. reflexivity.
  - intros H. specialize (H 4). cbn in H. lia.
Defined.

Lemma mem_store_load_witness :
  let b' := exec (mem_write W32 0xfffffffffffffff0 0xdeadbeef) ex_mem in
  run (mem_read W32 0xfffffffffffffff0) b' = 0xdeadbeef
  /\ run (mem_read W8 0xfffffffffffffff4) b' = run (mem_read W8 0xfffffffffffffff4) ex_mem.
Proof.
  destruct (mem_store_load W32 ex_mem 0xfffffffffffffff0 0xdeadbeef ex_mem_ok) as [H1 H2];
    [apply rng_const; reflexivity|apply rng_const; reflexivity|vm_compute; reflexivity..|].
  split; [exact H1|]. apply H2; [apply rng_const; reflexivity|vm_compute; reflexivity|cbn; lia].
Defined.
