(* ===== verification/NetRx.v ===== *)
(** * Delivery of received frames

    The receive side of the network device against the split virtqueue of the virtio
    specification, said over guest memory alone: where a buffer of the ring lies, the chain of
    descriptors it is made of, the bytes that arrive in it, and the entry of the used ring. *)

From S2P Require Import Prelude Device DeviceInv DeviceThms Memory.

(** ** The ring in guest memory *)

(** The offset in guest RAM of [len] bytes at a guest address, when they all lie in it. *)
Definition ram_offset (p : Platform) (addr len : Z) : option Z :=
  if has_ram p && (ram_base p <=? addr) && (addr + len <=? ram_base p + ram_size p) then Some (addr - ram_base p) else None.

(** The buffers of the chain that starts at descriptor [i] of the table: each descriptor is
    16 bytes, a 64-bit address, a 32-bit length, 16 bits of flags of which the lowest says
    that the chain goes on, and the next index.  A chain is cut after [n] descriptors, and
    where its table leaves RAM. *)
Inductive Chain (p : Platform) (m : arr) (table : Z) : nat -> Z -> list (Z * Z) -> Prop :=
| chain_cut i : Chain p m table 0 i []
| chain_outside n i : ram_offset p ((table + 16 * i) mod 2 ^ 64) 16 = None -> Chain p m table (S n) i []
| chain_last n i d : ram_offset p ((table + 16 * i) mod 2 ^ 64) 16 = Some d ->
    Z.testbit (le_get m (d + 12) 2) 0 = false -> Chain p m table (S n) i [(le_get m d 8, le_get m (d + 8) 4)]
| chain_next n i d l : ram_offset p ((table + 16 * i) mod 2 ^ 64) 16 = Some d ->
    Z.testbit (le_get m (d + 12) 2) 0 = true -> Chain p m table n (le_get m (d + 14) 2) l ->
    Chain p m table (S n) i ((le_get m d 8, le_get m (d + 8) 4) :: l).

(** The cells of the buffers in order; a buffer outside RAM has none. *)
Definition cells (p : Platform) (l : list (Z * Z)) : list Z :=
  l ≫= (fun '(addr, len) => match ram_offset p addr len with Some o => zseq o (Z.to_nat len) | None => [] end).
(** The bytes stored one by one in the cells, as many as there are of both. *)
Definition store_cells (cs bs : list Z) (m : arr) : arr := foldl (fun m '(c, b) => aset c b m) m (zip cs bs).

(** What precedes a frame: twelve bytes, of which the last two count the one buffer used. *)
Definition frame_header : list Z := [0; 0; 0; 0; 0; 0; 0; 0; 0; 0; 1; 0].

(** The receive ring is live, with the offsets of its two rings. *)
Definition live_ring (b : Bus) (avail used : Z) : Prop :=
  let q := n_rxq (net_of b) in
  q_ready q <> 0 /\ 0 < q_num q <= V_QUEUE_MAX /\
  ram_offset (b_plat b) (q_avail_addr q) (4 + 2 * q_num q) = Some avail /\
  ram_offset (b_plat b) (q_used_addr q) (4 + 8 * q_num q) = Some used.
(** The driver has posted a buffer the device has not used. *)
Definition posted (b : Bus) (avail : Z) : Prop := q_last_avail (n_rxq (net_of b)) <> le_get (b_data b) (avail + 2) 2.

(** One frame goes to the buffer posted next: its chain, the bytes in its cells, the used
    element with the head and the count of bytes, and the indices after it.  Nothing else of
    the bus changes. *)
Record delivery (avail used : Z) (l : list (Z * Z)) (f : list Z) (b b' : Bus) : Prop := {
  dl_ring : live_ring b avail used;
  dl_posted : posted b avail;
  dl_oldest : fifo_abs (net_of b) = f :: fifo_abs (net_of b');
  dl_chain : let q := n_rxq (net_of b) in
    Chain (b_plat b) (b_data b) (q_desc_addr q) (Z.to_nat (q_num q)) (le_get (b_data b) (avail + 4 + 2 * (q_last_avail q mod q_num q)) 2) l;
  dl_data : let q := n_rxq (net_of b) in
    let cs := cells (b_plat b) l in
    let m := store_cells cs (frame_header ++ f) (b_data b) in
    let uidx := le_get m (used + 2) 2 in
    let elem := used + 4 + 8 * (uidx mod q_num q) in
    b_data b' = m |> le_put elem 4 (le_get (b_data b) (avail + 4 + 2 * (q_last_avail q mod q_num q)) 2)
      |> le_put (elem + 4) 4 (Z.of_nat (length cs `min` length (frame_header ++ f)))
      |> le_put (used + 2) 2 (uidx + 1);
  dl_net : exists head count, net_of b' = net_of b |> set_n_rxq (set_q_last_avail ((q_last_avail (n_rxq (net_of b)) + 1) mod 2 ^ 16) (n_rxq (net_of b)))
    |> set_n_fifo_head head |> set_n_fifo_count count;
  dl_rest : b' = b |> set_b_data (b_data b') |> upd_net (fun _ => net_of b')
}.
(** Frames delivered one after the other. *)
Inductive deliveries : Bus -> list (list Z) -> Bus -> Prop :=
| no_delivery b : deliveries b [] b
| one_delivery avail used l f fs b b1 b2 : delivery avail used l f b b1 -> deliveries b1 fs b2 -> deliveries b (f :: fs) b2.
(** Nothing more to deliver: no live ring, no frame, or no buffer. *)
Definition exhausted (b : Bus) : Prop :=
  fifo_abs (net_of b) = [] \/ (forall avail used, ~ live_ring b avail used) \/ exists avail used, live_ring b avail used /\ ~ posted b avail.

(** ** The code on the ring *)

Lemma dma_ptr_offset p addr len : plat_ok p -> rng 64 addr -> 0 <= len -> dma_ptr p addr len = ram_offset p addr len.
Proof.
  intros Hp Ha Hl. unfold dma_ptr, ram_offset. destruct (has_ram p); [|done]. cbn [negb orb andb]. pose proof (ok_ram_base _ Hp) as Hb. pose proof (ok_ram_size _ Hp) as Hs.
  unfold rng in *. destruct (Z.ltb_spec (ram_size p) len); cbn [orb].
  { destruct (Z.leb_spec (ram_base p) addr); [|done]. by destruct (Z.leb_spec (addr + len) (ram_base p + ram_size p)); [lia|]. }
  destruct (Z.ltb_spec addr (ram_base p)), (Z.leb_spec (ram_base p) addr); try lia; [done|]. cbn [andb].
  unfold u64. rewrite !wrap_small by (lia || (unfold rng; lia)).
  destruct (Z.ltb_spec (ram_size p - len) (addr - ram_base p)), (Z.leb_spec (addr + len) (ram_base p + ram_size p)); try lia; done.
Qed.

Lemma ld16_le m o : arr_rng 8 m -> ld16 m o = le_get m o 2.
Proof.
  intros Hm. unfold ld16. cbn [le_get]. pose proof (Hm o) as H0. pose proof (Hm (o + 1)) as H1. unfold rng in *. change (2 ^ 8) with 256 in *.
  rewrite (lor_shiftl_add 8) by (lia || (unfold rng; lia)). unfold u16. rewrite wrap_small by (lia || (unfold rng; lia)). lia.
Qed.
Lemma u32_byte x k : rng 8 x -> 0 <= k <= 24 -> u32 (x << k) = x << k.
Proof.
  intros Hx Hk. unfold u32. apply wrap_small; [lia|]. rewrite Z.shiftl_mul_pow2 by lia. unfold rng in *. change (2 ^ 8) with 256 in Hx.
  pose proof (Z.pow_le_mono_r 2 k 24 ltac:(lia) ltac:(lia)). change (2 ^ 24) with 16777216 in *. change (2 ^ 32) with 4294967296.
  assert (0 < 2 ^ k) by (apply Z.pow_pos_nonneg; lia). nia.
Qed.
Lemma ld32_le m o : arr_rng 8 m -> ld32 m o = le_get m o 4.
Proof.
  intros Hm. unfold ld32. rewrite !u32_byte by (apply Hm || lia). cbn [le_get]. rewrite <- !Z.add_assoc. change (1 + 1) with 2. change (1 + 2) with 3.
  pose proof (Hm o) as H0. pose proof (Hm (o + 1)) as H1. pose proof (Hm (o + 2)) as H2. pose proof (Hm (o + 3)) as H3. unfold rng in *. change (2 ^ 8) with 256 in *.
  rewrite (lor_shiftl_add 8), (lor_shiftl_add 16), (lor_shiftl_add 24) by (lia || (unfold rng; lia)). change (2 ^ 8) with 256. change (2 ^ 16) with 65536. change (2 ^ 24) with 16777216. lia.
Qed.
Lemma le_get_split m o k n : le_get m o (k + n) = le_get m o k + 2 ^ (8 * Z.of_nat k) * le_get m (o + Z.of_nat k) n.
Proof.
  revert o. induction k as [|k IH]; intros o; cbn [le_get Nat.add]; [rewrite Z.add_0_r; cbn; lia|]. rewrite IH.
  replace (8 * Z.of_nat (S k)) with (8 + 8 * Z.of_nat k) by lia. rewrite Z.pow_add_r by lia. change (2 ^ 8) with 256.
  replace (o + 1 + Z.of_nat k) with (o + Z.of_nat (S k)) by lia. lia.
Qed.
Lemma ld64_le m o : arr_rng 8 m -> ld64 m o = le_get m o 8.
Proof.
  intros Hm. unfold ld64. rewrite !ld32_le by done. pose proof (le_get_split m o 4 4) as E. cbn [Nat.add] in E. rewrite E. clear E. pose proof (le_get_rng m o 4 Hm) as H0. pose proof (le_get_rng m (o + 4) 4 Hm) as H1.
  change (8 * Z.of_nat 4) with 32 in *. change (o + Z.of_nat 4) with (o + 4). assert (u64 (le_get m (o + 4) 4 << 32) = le_get m (o + 4) 4 << 32) as ->.
  { unfold u64. apply wrap_small; [lia|]. rewrite Z.shiftl_mul_pow2 by lia. unfold rng in *. lia. }
  rewrite (lor_shiftl_add 32) by (lia || done). lia.
Qed.
Lemma st16_le o v m : st16 o v m = le_put o 2 v m.
Proof. done. Qed.
Lemma st32_le o v m : st32 o v m = le_put o 4 v m.
Proof. unfold st32. cbn [le_put]. rewrite !Z.shiftr_shiftr, <- !Z.add_assoc by lia. done. Qed.

Lemma chain_spec b table qn fuel : forall n idx, bus_ok b -> 0 <= n -> qn <= V_QUEUE_MAX -> rng 16 idx -> qn - n <= Z.of_nat fuel ->
  Chain (b_plat b) (b_data b) table (Z.to_nat (qn - n)) idx (vq_chain_from fuel b table qn n idx).
Proof.
  induction fuel as [|fuel IH]; intros n idx Hb Hn Hq Hi Hf; cbn [vq_chain_from].
  { replace (Z.to_nat (qn - n)) with O by lia. constructor. }
  destruct (Z.leb_spec qn n); cbn [orb]; [replace (Z.to_nat (qn - n)) with O by lia; constructor|].
  destruct (Z.leb_spec V_QUEUE_MAX n); [lia|]. replace (Z.to_nat (qn - n)) with (S (Z.to_nat (qn - (n + 1)))) by lia.
  rewrite dma_ptr_offset by (apply Hb || apply u64_rng || lia). unfold u64. rewrite wrap_mod by lia. replace (idx * 16) with (16 * idx) by lia.
  destruct (ram_offset _ _ 16) as [d|] eqn:E; [|by constructor]. cbv zeta. pose proof (ok_b_data _ Hb) as Hd. rewrite ld64_le, ld32_le, !ld16_le by done.
  assert (forall x, (x .& VRING_DESC_F_NEXT =? 0) = negb (Z.testbit x 0)) as ->.
  { intros x. unfold VRING_DESC_F_NEXT. rewrite <- (mask_bit x 0) by lia. by rewrite negb_involutive. }
  destruct (Z.testbit (le_get (b_data b) (d + 12) 2) 0) eqn:Ef; cbn [negb]; [|by constructor]. eapply chain_next; [done|done|]. apply IH; try lia; [done|].
  apply (le_get_rng _ _ 2 Hd).
Qed.

Lemma put_bytes_cells o bs : forall m, put_bytes o bs m = store_cells (zseq o (length bs)) bs m.
Proof. revert o. induction bs as [|x bs IH]; intros o m; [done|]. cbn [put_bytes length zseq]. rewrite IH. done. Qed.
Lemma store_cells_app cs cs' bs m : store_cells (cs ++ cs') bs m = store_cells cs' (drop (length cs) bs) (store_cells cs (take (length cs) bs) m).
Proof.
  revert bs m. induction cs as [|c cs IH]; intros bs m; [by rewrite drop_0|]. destruct bs as [|x bs]; cbn [app length drop take].
  - unfold store_cells. cbn. by destruct cs'.
  - unfold store_cells. cbn [zip_with foldl]. apply IH.
Qed.
Lemma store_cells_short o n bs m : store_cells (zseq o n) (take n bs) m = put_bytes o (take n bs) m.
Proof.
  rewrite put_bytes_cells, length_take. revert o bs m. induction n as [|n IH]; intros o bs m; [done|]. destruct bs as [|x bs]; [done|].
  cbn [take zseq length Nat.min]. unfold store_cells. cbn [zseq zip_with foldl]. apply IH.
Qed.
Lemma scatter_spec p ds : forall src total b, plat_ok p -> b_plat b = p -> Forall desc_ok ds ->
  net_scatter ds src total b = (total + Z.of_nat (length (cells p ds) `min` length src), upd_data (store_cells (cells p ds) src) b).
Proof.
  induction ds as [|[addr len] ds IH]; intros src total b Hp Hb Hd; cbn [net_scatter].
  { unfold store_cells. cbn. rewrite Z.add_0_r. by destruct b. }
  apply Forall_cons_1 in Hd as [[Ha Hl] Hd]. cbn [fst snd] in *. unfold mbind, st_bind, gets, modify. rewrite Hb, dma_ptr_offset by (done || apply Hl).
  unfold cells. cbn [mbind list_bind]. destruct (ram_offset p addr len) as [o|]; [|by apply IH].
  rewrite IH by done. unfold cells. set (rest := _ ≫= _). rewrite length_app, length_zseq, length_drop, length_take. f_equal; [lia|].
  unfold upd_data. rewrite store_cells_app, length_zseq, store_cells_short. done.
Qed.

(** ** The loop delivers *)

Lemma net_hdr_eq : net_hdr = frame_header.
Proof. reflexivity. Qed.
Lemma fifo_head_abs n : 0 < n_fifo_count n -> 0 <= n_fifo_head n < VIRTIO_NET_FIFO -> exists fs, fifo_abs n = fifo_frame n (n_fifo_head n) :: fs.
Proof.
  intros Hc Hh. unfold fifo_abs. replace (Z.to_nat (n_fifo_count n)) with (S (Z.to_nat (n_fifo_count n - 1))) by lia. cbn [zseq map].
  rewrite Z.add_0_r, Z.mod_small by lia. by eexists.
Qed.
Lemma le_put_u16 o v m : le_put o 2 (u16 v) m = le_put o 2 v m.
Proof.
  cbn [le_put]. unfold u8, u16. rewrite wrap_wrap by lia. f_equal. rewrite !wrap_mod, !Z.shiftr_div_pow2 by lia.
  change (2 ^ 16) with (2 ^ 8 * 2 ^ 8). rewrite Z.rem_mul_r by lia. rewrite (Z.mul_comm (2 ^ 8) (_ mod _)), Z.div_add, Z.div_small, Z.add_0_l by (lia || (apply Z.mod_pos_bound; lia)).
  by rewrite Z.mod_mod by lia.
Qed.
Lemma arr_rng_store cs bs m : bytes bs -> arr_rng 8 m -> arr_rng 8 (store_cells cs bs m).
Proof.
  unfold store_cells. revert bs m. induction cs as [|c cs IH]; intros bs m Hb Hm; [done|]. destruct bs as [|x bs]; [done|]. cbn [zip_with foldl].
  apply Forall_cons_1 in Hb as [Hx Hb]. apply IH; [done|]. by apply arr_rng_aset.
Qed.
Lemma only_net b m g : let b' := upd_net g (set_b_data m b) in b' = b |> set_b_data (b_data b') |> upd_net (fun _ => net_of b').
Proof. done. Qed.
Lemma rx_step_delivers b avail used : bus_ok b -> 0 < n_fifo_count (net_of b) -> live_ring b avail used -> posted b avail ->
  exists l, delivery avail used l (fifo_frame (net_of b) (n_fifo_head (net_of b))) b (exec (rx_step avail used (net_of b)) b).
Proof.
  intros Hb Hc Hr Hp. pose proof (ok_b_data _ Hb) as Hd. pose proof (ok_net _ (ok_b_plat _ Hb)) as Hn. fold (net_of b) in Hn. set (n := net_of b) in *. set (q := n_rxq n) in *.
  pose proof (ok_q_last_avail _ (ok_n_rxq _ Hn)) as Hla. fold q in Hla. destruct Hr as (Hrdy & Hnum & Ha & Hu). fold n q in Hrdy, Hnum, Ha, Hu.
  assert (u16 (q_last_avail q mod q_num q) = q_last_avail q mod q_num q) as Es.
  { unfold u16. apply wrap_small; [lia|]. pose proof (Z.mod_pos_bound (q_last_avail q) (q_num q) ltac:(lia)). pose proof (Z.mod_le (q_last_avail q) (q_num q)). unfold rng in *. lia. }
  set (head := le_get (b_data b) (avail + 4 + 2 * (q_last_avail q mod q_num q)) 2).
  set (l := vq_chain b (q_desc_addr q) (q_num q) head).
  exists l. pose proof (rx_step_net avail used b) as En. cbv zeta in En. fold n in En. pose proof (rx_step_abs avail used b Hn Hc) as Eq. fold n in Eq.
  assert (rx_step avail used n b = (tt, b |> upd_data (store_cells (cells (b_plat b) l) (frame_header ++ fifo_frame n (n_fifo_head n)))
    |> used_push used (q_num q) head (Z.of_nat (length (cells (b_plat b) l) `min` length (frame_header ++ fifo_frame n (n_fifo_head n))))
    |> upd_net (fun m => m |> set_n_rxq (set_q_last_avail (u16 (q_last_avail q + 1)) (n_rxq m))
        |> set_n_fifo_head ((n_fifo_head n + 1) mod VIRTIO_NET_FIFO) |> set_n_fifo_count (n_fifo_count m - 1)))) as E.
  { unfold rx_step, mbind, st_bind, gets, modify. fold q. rewrite Es, ld16_le by done. replace (q_last_avail q mod q_num q * 2) with (2 * (q_last_avail q mod q_num q)) by lia.
    fold head. fold l. rewrite (scatter_spec (b_plat b)), net_hdr_eq; [done|apply Hb|done|apply vq_chain_ok, Hb]. }
  unfold exec in *. rewrite E in En, Eq |- *. cbn [snd] in *. set (b' := upd_net _ _) in *.
  destruct (fifo_head_abs n Hc (ok_n_fifo_head _ Hn)) as [fs Ef]. constructor; fold n q; [done|exact Hp|..].
  - fold head. rewrite Ef in Eq |- *. by rewrite Eq.
  - fold head. cbv zeta. pose proof (chain_spec b (q_desc_addr q) (q_num q) (Z.to_nat V_QUEUE_MAX) 0 head Hb ltac:(lia) ltac:(lia) (le_get_rng _ _ 2 Hd) ltac:(lia)) as H.
    by rewrite Z.sub_0_r in H.
  - fold head. cbv zeta. unfold b', used_push. cbn [b_data upd_net upd_plat upd_data set_b_plat set_b_data]. rewrite !st32_le, !st16_le.
    assert (arr_rng 8 (store_cells (cells (b_plat b) l) (frame_header ++ fifo_frame n (n_fifo_head n)) (b_data b))) as Hm.
    { apply arr_rng_store; [|done]. apply Forall_app. split; [rewrite <- net_hdr_eq; apply net_hdr_bytes|]. apply slice_bytes. by apply ok_n_fifo. }
    rewrite !ld16_le, le_put_u16 by done. by replace (8 * _) with (le_get (store_cells (cells (b_plat b) l) (frame_header ++ fifo_frame n (n_fifo_head n)) (b_data b)) (used + 2) 2 mod q_num q * 8) by lia.
  - rewrite En. unfold u16. rewrite wrap_mod by lia. by eexists _, _.
  - exact (only_net b _ _).
Qed.
Lemma ram_offset_frame b b' addr len : frame b b' -> ram_offset (b_plat b') addr len = ram_offset (b_plat b) addr len.
Proof. intros []. unfold ram_offset. by rewrite fr_has_ram, fr_ram_base, fr_ram_size. Qed.
Lemma ring_step b b' avail used : frame b b' -> (exists v, n_rxq (net_of b') = set_q_last_avail v (n_rxq (net_of b))) ->
  live_ring b avail used -> live_ring b' avail used.
Proof. intros Hf [v E]. unfold live_ring. rewrite E, !(ram_offset_frame b b') by done. done. Qed.
Lemma ring_bounds b avail used : bus_ok b -> live_ring b avail used ->
  0 <= used /\ used + (4 + q_num (n_rxq (net_of b)) * 8) <= ram_size (b_plat b).
Proof.
  intros Hb (_ & _ & _ & E). unfold ram_offset in E. destruct (_ && _) eqn:Eg; [|done]. injection E as <-. rewrite !andb_true_iff, !Z.leb_le in Eg. lia.
Qed.

Lemma rx_loop_delivers fuel : forall d b avail used, bus_ok b -> live_ring b avail used -> n_fifo_count (net_of b) <= Z.of_nat fuel ->
  let '(r, b') := net_rx_loop fuel avail used d b in
  exists fs, deliveries b fs b' /\ r = d || negb (bool_decide (fs = [])) /\ bus_ok b' /\ exhausted b'.
Proof.
  induction fuel as [|fuel IH]; intros d b avail used Hb Hr Hf.
  { cbn. exists []. split; [constructor|]. rewrite orb_false_r. split; [done|]. split; [done|]. left. apply fifo_abs_nil. lia. }
  rewrite rx_loop_unfold. cbv zeta. pose proof (ok_b_data _ Hb) as Hd. rewrite ld16_le by done. destruct (Z.leb_spec (n_fifo_count (net_of b)) 0) as [Hc|Hc]; cbn [orb].
  { exists []. split; [constructor|]. rewrite orb_false_r. split; [done|]. split; [done|]. left. by apply fifo_abs_nil. }
  destruct (Z.eqb_spec (q_last_avail (n_rxq (net_of b))) (le_get (b_data b) (avail + 2) 2)) as [E|E].
  { exists []. split; [constructor|]. rewrite orb_false_r. split; [done|]. split; [done|]. right. right. exists avail, used. split; [done|]. by intros []. }
  destruct (rx_step_delivers b avail used Hb Hc Hr E) as [l Hl]. destruct (ring_bounds b avail used Hb Hr) as [Hu0 Hu1].
  assert (inv b (exec (rx_step avail used (net_of b)) b)) as [Hb1 Hf1].
  { apply pres_rx_step; [split; [done|apply frame_refl]|done|apply Hr|done|done]. }
  set (b1 := exec _ b) in *. clearbody b1. destruct (dl_net _ _ _ _ _ _ Hl) as (hd & c & En).
  assert (live_ring b1 avail used) as Hr1 by (apply (ring_step b); [done|rewrite En; by eexists|done]).
  assert (n_fifo_count (net_of b1) <= Z.of_nat fuel) as Hf'.
  { assert (length (fifo_abs (net_of b)) = S (length (fifo_abs (net_of b1)))) as El by by rewrite (dl_oldest _ _ _ _ _ _ Hl).
    unfold fifo_abs in El. rewrite !length_map, !length_zseq in El. lia. }
  specialize (IH true b1 avail used Hb1 Hr1 Hf'). destruct (net_rx_loop fuel avail used true b1) as [r b2]. destruct IH as (fs & H1 & H2 & H3).
  exists (fifo_frame (net_of b) (n_fifo_head (net_of b)) :: fs). split; [by econstructor|]. rewrite orb_true_r. split; [by rewrite H2|done].
Qed.

(** The interrupt after a delivery. *)
Definition interrupted (b : Bus) : Bus := upd_net (fun n => set_n_interrupt_status (n_interrupt_status n .| 1) n) b.
Lemma exhausted_raise b : exhausted b -> exhausted (interrupted b).
Proof. done. Qed.
Lemma deliver_rx_spec b : bus_ok b ->
  exists fs b1, deliveries b fs b1 /\ exhausted b1 /\ exec net_deliver_rx b = if bool_decide (fs = []) then b1 else interrupted b1.
Proof.
  intros Hb. pose proof (ok_net _ (ok_b_plat _ Hb)) as Hn. pose proof (ok_n_rxq _ Hn) as Hq. unfold exec, net_deliver_rx, mbind, st_bind, gets. cbv zeta.
  fold (net_of b). set (q := n_rxq (net_of b)) in *. change (n_rxq (net (b_plat b))) with q in Hq.
  assert (forall P : Prop, (forall avail used, ~ live_ring b avail used) -> exists fs b1, deliveries b fs b1 /\ exhausted b1 /\ b = (if bool_decide (fs = []) then b1 else interrupted b1)) as Hno.
  { intros _ H. exists [], b. split; [constructor|]. split; [by right; left|done]. }
  destruct (_ || _) eqn:E.
  { cbn [snd mret st_ret]. apply (Hno True). intros avail used (H1 & H2 & _). fold q in H1, H2.
    apply orb_true_iff in E as [[E%Z.eqb_eq|E%Z.eqb_eq]%orb_true_iff|E%Z.ltb_lt]; [done|lia..]. }
  pose proof (ok_q_num _ Hq) as Hqn. assert (0 < q_num q <= V_QUEUE_MAX) as Hqr by (apply (queue_guard b) in E; [done|apply Hqn]).
  rewrite !dma_ptr_offset by (apply Hb || apply Hq || lia). replace (q_num q * 2) with (2 * q_num q) by lia. replace (q_num q * 8) with (8 * q_num q) by lia.
  destruct (ram_offset (b_plat b) (q_avail_addr q) _) as [avail|] eqn:Ea; [|cbn [snd mret st_ret]; apply (Hno True); intros a u (_ & _ & H & _); by fold q in H; rewrite Ea in H].
  destruct (ram_offset (b_plat b) (q_used_addr q) _) as [used|] eqn:Eu; [|cbn [snd mret st_ret]; apply (Hno True); intros a u (_ & _ & _ & H); by fold q in H; rewrite Eu in H].
  assert (live_ring b avail used) as Hr.
  { split; [|done]. apply orb_false_iff in E as [E _]. apply orb_false_iff in E as [E%Z.eqb_neq _]. done. }
  pose proof (rx_loop_delivers (Z.to_nat (n_fifo_count (net_of b))) false b avail used Hb Hr) as H. pose proof (ok_n_fifo_count _ Hn).
  destruct (net_rx_loop _ avail used false b) as [r b1]. destruct H as (fs & H1 & H2 & _ & H3); [unfold net_of; lia|]. exists fs, b1. split; [done|]. split; [done|].
  rewrite H2. by destruct (bool_decide (fs = [])).
Qed.

Lemma push_fields f n : (net_fifo_push f n).1 = true -> exists x y z, (net_fifo_push f n).2 = n |> set_n_fifo x |> set_n_fifo_len y |> set_n_fifo_count z.
Proof. unfold net_fifo_push. destruct (_ || _); [done|]. destruct (_ <=? _); [done|]. intros _. by eexists _, _, _. Qed.

(** C8 [net_queue]: the receive side is a bounded FIFO of whole frames that is emptied into
    the driver's buffers.  A frame that is nonempty, fits a slot and finds room is appended
    unaltered; then the oldest frames go, one by one, each to the buffer the driver posted
    next: header and frame byte by byte over the cells of its descriptor chain, a used element
    with its head and the number of bytes, the indices advanced, nothing else touched; until no
    frame, no live ring or no posted buffer is left, and with an interrupt raised when any was
    delivered.  Any other frame is refused and leaves the bus as it was. *)
Theorem plat_net_rx_queue b f : bus_ok b -> bytes f ->
  let b' := exec (plat_net_rx f) b in
  if fifo_takes f (net_of b)
  then run (plat_net_rx f) b = 1 /\ exhausted b' /\
       exists x y z fs b1, let n := net_of b |> set_n_fifo x |> set_n_fifo_len y |> set_n_fifo_count z in
         fifo_abs n = fifo_abs (net_of b) ++ [f] /\
         deliveries (upd_net (fun _ => n) b) fs b1 /\ b' = if bool_decide (fs = []) then b1 else interrupted b1
  else run (plat_net_rx f) b = 0 /\ b' = b.
Proof.
  intros Hb Hf. cbv zeta. assert (net_ok (net_of b)) as Hn by (apply ok_net, ok_b_plat, Hb).
  destruct (net_fifo_push_abs f _ Hn) as [E1 E2]. pose proof (net_fifo_push_ok f _ Hf Hn) as Hn'.
  unfold plat_net_rx. st_simpl. rewrite E1. destruct (fifo_takes f (net_of b)) eqn:Et; [|done].
  st_simpl. split; [done|]. set (n := (net_fifo_push f (net_of b)).2) in *.
  assert (bus_ok (upd_net (fun _ => n) b)) as Hb1.
  { apply (inv_net b (fun _ => n)); [|done]. split; [done|apply frame_refl]. }
  destruct (deliver_rx_spec _ Hb1) as (fs & b1 & H1 & H2 & ->). split; [by destruct (bool_decide (fs = []))|].
  destruct (push_fields f (net_of b)) as (x & y & z & E); [done|]. fold n in E. exists x, y, z, fs, b1. cbv zeta. rewrite <- E. done.
Qed.

(** The example machine with a ring of four: one buffer of eight and one of sixteen bytes
    posted as a chain, at 0x80007000 and 0x80007100. *)
Definition ex_rx_bus : Bus :=
  ex_bus |> upd_data (fun m => m |> put_bytes 0x8000 (desc_bytes 0x80007000 8 3 1 ++ desc_bytes 0x80007100 16 2 0)
                                |> put_bytes 0x8100 [0; 0; 1; 0; 0; 0])
    |> upd_net (set_n_rxq (mkVirtqueue 4 1 0x80008000 0x80008100 0x80008200 0)).
Lemma ex_rx_ok : bus_ok ex_rx_bus.
Proof.
  constructor; [cbn [ex_rx_bus upd_data upd_net upd_plat set_b_data set_b_plat b_data ex_bus]; unfold ex_ram; closed_rng|].
  destruct (ok_b_plat _ ex_bus_ok) as [H1 H2 H3 H4 Hn H6 H7 H8 H9]. constructor; [exact H1|exact H2|exact H3|exact H4| |exact H6|exact H7|exact H8|exact H9].
  destruct Hn. constructor; first [assumption | constructor; cbn -[rng]; closed_rng].
Qed.
(** The frame arrives behind the header, across the two buffers, and the used element says
    fifteen bytes. *)
Lemma ex_rx_arrives : let b' := exec (plat_net_rx [1; 2; 3]) ex_rx_bus in
  slice (b_data b') 0x7000 8 = [0; 0; 0; 0; 0; 0; 0; 0] /\ slice (b_data b') 0x7100 8 = [0; 0; 1; 0; 1; 2; 3; 0] /\
  slice (b_data b') 0x8202 10 = [1; 0; 0; 0; 0; 0; 15; 0; 0; 0].
Proof. vm_compute. done. Qed.
Lemma plat_net_rx_queue_witness :
  fifo_takes [1; 2; 3] (net_of ex_rx_bus) = true /\ run (plat_net_rx [1; 2; 3]) ex_rx_bus = 1 /\
  slice (b_data (exec (plat_net_rx [1; 2; 3]) ex_rx_bus)) 0x7104 3 = [1; 2; 3] /\
  exists x y z fs b1, deliveries (upd_net (fun _ => net_of ex_rx_bus |> set_n_fifo x |> set_n_fifo_len y |> set_n_fifo_count z) ex_rx_bus) fs b1.
Proof.
  assert (bytes [1; 2; 3]) as Hf by (apply bytes_forallb; reflexivity).
  pose proof (plat_net_rx_queue ex_rx_bus [1; 2; 3] ex_rx_ok Hf) as H. cbv zeta in H.
  assert (fifo_takes [1; 2; 3] (net_of ex_rx_bus) = true) as Et by (vm_compute; reflexivity). rewrite Et in H.
  destruct H as (H1 & _ & x & y & z & fs & b1 & _ & H2 & _). split; [exact Et|]. split; [exact H1|]. split; [vm_compute; reflexivity|]. exists x, y, z, fs, b1. exact H2.
Defined.
