(* ===== verification/Cache.v ===== *)
(** * The data-cache model ([src/cache.h], [src/cache.c])

    A set-associative cache with LRU replacement that observes load and store
    addresses.  The implementation keeps per-line timestamps; the specification
    keeps, per set, the list of resident tags in order of recency. *)

From Stdlib Require Import Sorting.Sorted.
From S2P Require Import Prelude.

(** ** State *)

(** [src/cache.h 29-33] CacheLine *)
Record CacheLine := mkCacheLine {
  valid : bool;
  tag : Z;
  used : Z
}.
Definition set_valid (v : bool) (r : CacheLine) : CacheLine :=
  mkCacheLine v (tag r) (used r).
Definition set_tag (v : Z) (r : CacheLine) : CacheLine :=
  mkCacheLine (valid r) v (used r).
Definition set_used (v : Z) (r : CacheLine) : CacheLine :=
  mkCacheLine (valid r) (tag r) v.

(** [src/cache.h 37-46] Cache *)
Record Cache := mkCache {
  block_size : Z;
  num_sets : Z;
  assoc : Z;
  offset_bits : Z;
  index_bits : Z;
  lines : gmap Z CacheLine;
  tick : Z;
  loads : Z;
  stores : Z;
  hits : Z;
  misses : Z
}.
Definition set_block_size (v : Z) (r : Cache) : Cache :=
  mkCache v (num_sets r) (assoc r) (offset_bits r) (index_bits r) (lines r) (tick r) (loads r) (stores r) (hits r) (misses r).
Definition set_num_sets (v : Z) (r : Cache) : Cache :=
  mkCache (block_size r) v (assoc r) (offset_bits r) (index_bits r) (lines r) (tick r) (loads r) (stores r) (hits r) (misses r).
Definition set_assoc (v : Z) (r : Cache) : Cache :=
  mkCache (block_size r) (num_sets r) v (offset_bits r) (index_bits r) (lines r) (tick r) (loads r) (stores r) (hits r) (misses r).
Definition set_offset_bits (v : Z) (r : Cache) : Cache :=
  mkCache (block_size r) (num_sets r) (assoc r) v (index_bits r) (lines r) (tick r) (loads r) (stores r) (hits r) (misses r).
Definition set_index_bits (v : Z) (r : Cache) : Cache :=
  mkCache (block_size r) (num_sets r) (assoc r) (offset_bits r) v (lines r) (tick r) (loads r) (stores r) (hits r) (misses r).
Definition set_lines (v : gmap Z CacheLine) (r : Cache) : Cache :=
  mkCache (block_size r) (num_sets r) (assoc r) (offset_bits r) (index_bits r) v (tick r) (loads r) (stores r) (hits r) (misses r).
Definition set_tick (v : Z) (r : Cache) : Cache :=
  mkCache (block_size r) (num_sets r) (assoc r) (offset_bits r) (index_bits r) (lines r) v (loads r) (stores r) (hits r) (misses r).
Definition set_loads (v : Z) (r : Cache) : Cache :=
  mkCache (block_size r) (num_sets r) (assoc r) (offset_bits r) (index_bits r) (lines r) (tick r) v (stores r) (hits r) (misses r).
Definition set_stores (v : Z) (r : Cache) : Cache :=
  mkCache (block_size r) (num_sets r) (assoc r) (offset_bits r) (index_bits r) (lines r) (tick r) (loads r) v (hits r) (misses r).
Definition set_hits (v : Z) (r : Cache) : Cache :=
  mkCache (block_size r) (num_sets r) (assoc r) (offset_bits r) (index_bits r) (lines r) (tick r) (loads r) (stores r) v (misses r).
Definition set_misses (v : Z) (r : Cache) : Cache :=
  mkCache (block_size r) (num_sets r) (assoc r) (offset_bits r) (index_bits r) (lines r) (tick r) (loads r) (stores r) (hits r) v.

(** A line of the [calloc]ed array. *)
Definition line (m : gmap Z CacheLine) (i : Z) : CacheLine := default (mkCacheLine false 0 0) (m !! i).

(** ** Operations *)

(** [src/cache.c 10-12] is_pow2 *)
Definition is_pow2 (x : Z) : bool := negb (x =? 0) && (x .& u32 (x - 1) =? 0).

(** [1u << 31] is the largest power of two of the type, so 31 steps are enough
    ([log2u_pow2]).
    [src/cache.c 17-19] log2u *)
Fixpoint log2u_from (fuel : nat) (x n : Z) : Z :=
  match fuel with
  | O => n
  | S fuel => if u32 (1 << n) <? x then log2u_from fuel x (n + 1) else n
  end.

(** [src/cache.c 15-21] log2u *)
Definition log2u (x : Z) : Z := log2u_from 31 x 0.

(** The outcomes of initialisation; [InitUndefined] is the division by a zero
    [per_set], which C leaves undefined. *)
Inductive InitResult := InitOk (c : Cache) | InitError | InitUndefined.

(** Allocation is taken to succeed.
    [src/cache.c 23-62] cache_init *)
Definition cache_init (size_bytes assoc block_size : Z) : InitResult :=
  if negb (is_pow2 block_size) || (block_size <? 4) then InitError
  else if negb (is_pow2 assoc) then InitError
  else
    let per_set := u32 (assoc * block_size) in
    if size_bytes =? 0 then InitError
    else if per_set =? 0 then InitUndefined
    else if negb (size_bytes mod per_set =? 0) then InitError
    else
      let num_sets := size_bytes / per_set in
      if negb (is_pow2 num_sets) then InitError
      else InitOk (mkCache block_size num_sets assoc (log2u block_size) (log2u num_sets) ∅ 0 0 0 0 0).

(** The first way holding [t], scanning from way [w].
    [src/cache.c 82-88] cache_access *)
Fixpoint find_hit (set : Z -> CacheLine) (t : Z) (fuel : nat) (w : Z) : option Z :=
  match fuel with
  | O => None
  | S fuel =>
    if valid (set w) && (tag (set w) =? t) then Some w else find_hit set t fuel (w + 1)
  end.

(** [src/cache.c 94-102] cache_access *)
Fixpoint find_victim (set : Z -> CacheLine) (fuel : nat) (w victim : Z) : Z :=
  match fuel with
  | O => victim
  | S fuel =>
    if negb (valid (set w)) then w
    else find_victim set fuel (w + 1) (if used (set w) <? used (set victim) then w else victim)
  end.

(** [src/cache.c 77-77] cache_access *)
Definition cache_index (c : Cache) (addr : Z) : Z := (addr >> offset_bits c) .& u32 (num_sets c - 1).
(** [src/cache.c 78-78] cache_access *)
Definition cache_tag (c : Cache) (addr : Z) : Z := addr >> (offset_bits c + index_bits c).

(** [src/cache.c 69-106] cache_access *)
Definition cache_access (addr : Z) (is_store : bool) (c : Cache) : Cache :=
  let c := if is_store then set_stores (u64 (stores c + 1)) c else set_loads (u64 (loads c + 1)) c in
  let c := set_tick (u64 (tick c + 1)) c in
  let t := cache_tag c addr in
  let base := cache_index c addr * assoc c in
  let set w := line (lines c) (base + w) in
  match find_hit set t (Z.to_nat (assoc c)) 0 with
  | Some w =>
    c |> set_lines (<[base + w := set_used (tick c) (set w)]> (lines c))
      |> set_hits (u64 (hits c + 1))
  | None =>
    let v := find_victim set (Z.to_nat (assoc c)) 0 0 in
    c |> set_misses (u64 (misses c + 1))
      |> set_lines (<[base + v := mkCacheLine true t (tick c)]> (lines c))
  end.

(** ** Specification: recency lists *)

(** Touch tag [t] in a set of [n] ways: it becomes the most recent, and the least
    recent one falls out of a full set. *)
Definition lru_touch (n : nat) (t : Z) (l : list Z) : list Z :=
  take n (t :: filter (fun x => x <> t) l).
Definition lru_hit (t : Z) (l : list Z) : bool := bool_decide (t ∈ l).

(** ** The representation of one set

    [ways] lists the valid ways of the set, most recently used first; [l] is the
    list of their tags. *)
Section OneSet.
Context (n : nat).

Record set_repr (set : Z -> CacheLine) (now : Z) (ways : list Z) (l : list Z) : Prop := {
sr_nodup : NoDup ways;
sr_range : forall w, w ∈ ways -> 0 <= w < Z.of_nat n;
sr_valid : forall w, 0 <= w < Z.of_nat n -> (valid (set w) = true <-> w ∈ ways);
sr_tags : l = map (fun w => tag (set w)) ways;
sr_tags_nodup : NoDup l;
sr_order : StronglySorted (fun a b => used (set b) < used (set a)) ways;
sr_now : forall w, w ∈ ways -> used (set w) <= now
}.

Lemma find_hit_spec set t fuel : forall w,
match find_hit set t fuel w with
| Some v => w <= v < w + Z.of_nat fuel /\ valid (set v) = true /\ tag (set v) = t
| None => forall v, w <= v < w + Z.of_nat fuel -> ~ (valid (set v) = true /\ tag (set v) = t)
end.
Proof.
induction fuel as [|fuel IH]; intros w; cbn [find_hit]; [lia|].
destruct (valid (set w) && (tag (set w) =? t)) eqn:E.
- apply andb_true_iff in E as [E1 E2%Z.eqb_eq]. split; [lia|done].
- specialize (IH (w + 1)). destruct (find_hit set t fuel (w + 1)) as [v|].
  + destruct IH as (? & ? & ?). split; [lia|done].
  + intros v Hv [H1 H2]. destruct (Z.eq_dec v w) as [->|]; [|by apply (IH v); [lia|]].
    rewrite H1 in E. cbn in E. by apply Z.eqb_neq in E.
Qed.

Lemma find_victim_spec set fuel : forall w victim,
0 <= victim < w + Z.of_nat fuel -> 0 <= w ->
(forall v, 0 <= v < w -> valid (set v) = true /\ used (set victim) <= used (set v)) ->
(victim < w \/ victim = 0 /\ w = 0) ->
let r := find_victim set fuel w victim in
0 <= r < w + Z.of_nat fuel
/\ (valid (set r) = false
    \/ forall v, 0 <= v < w + Z.of_nat fuel -> valid (set v) = true /\ used (set r) <= used (set v)).
Proof.
induction fuel as [|fuel IH]; intros w victim Hv Hw Hmin Hlt; cbv zeta; cbn [find_victim].
{ split; [lia|]. right. intros v Hv'. apply Hmin. lia. }
destruct (valid (set w)) eqn:E; cbn [negb]; [|by split; [lia|left]].
specialize (IH (w + 1) (if used (set w) <? used (set victim) then w else victim)).
cbv zeta in IH. replace (w + 1 + Z.of_nat fuel) with (w + Z.of_nat (S fuel)) in IH by lia.
apply IH; [destruct (_ <? _); lia|lia| |destruct (_ <? _); lia].
intros v Hv'. destruct (Z.eq_dec v w) as [->|].
- split; [done|]. destruct (Z.ltb_spec (used (set w)) (used (set victim))); lia.
- destruct (Hmin v ltac:(lia)). split; [done|].
  destruct (Z.ltb_spec (used (set w)) (used (set victim))); lia.
Qed.

Lemma ways_length set now ways l : set_repr set now ways l -> (length ways <= n)%nat.
Proof.
intros H. rewrite <- (length_zseq 0 n). apply submseteq_length, NoDup_submseteq; [apply H|].
intros w Hw. apply elem_of_zseq. apply (sr_range _ _ _ _ H) in Hw. lia.
Qed.

(** Stamp way [v] with tag [t] at time [now']. *)
Definition stamp (set : Z -> CacheLine) (v t now' : Z) (w : Z) : CacheLine :=
if w =? v then mkCacheLine true t now' else set w.

Lemma sorted_filter (R : Z -> Z -> Prop) (P : Z -> Prop) `{!forall x, Decision (P x)} (l : list Z) :
StronglySorted R l -> StronglySorted R (filter P l).
Proof.
induction 1 as [|x l Hs IH Hf]; [constructor|]. rewrite filter_cons. destruct (decide (P x)); [|done].
constructor; [done|]. rewrite Forall_forall in Hf |- *. intros y Hy. apply Hf.
apply list_elem_of_In in Hy. apply list_elem_of_filter in Hy as [_ ?]. by apply list_elem_of_In.
Qed.

Lemma stamp_repr set now now' ways l v t :
set_repr set now ways l -> 0 <= v < Z.of_nat n -> now < now' ->
(forall w, w ∈ ways -> w <> v -> tag (set w) <> t) ->
let rest := filter (fun w => w <> v) ways in
set_repr (stamp set v t now') now' (v :: rest) (t :: map (fun w => tag (set w)) rest).
Proof.
intros [Hnd Hr Hv Ht Htn Ho Hn] Hvr Hnow Hfresh rest.
assert (forall w, w ∈ rest -> w ∈ ways /\ w <> v) as Hrest.
{ intros w [??]%list_elem_of_filter. done. }
assert (forall w, w <> v -> stamp set v t now' w = set w) as Hne.
{ intros w Hw. unfold stamp. destruct (Z.eqb_spec w v); [done|done]. }
assert (stamp set v t now' v = mkCacheLine true t now') as Hv'.
{ unfold stamp. by rewrite Z.eqb_refl. }
assert (map (fun w => tag (stamp set v t now' w)) rest = map (fun w => tag (set w)) rest) as Hmap.
{ apply map_ext_in. intros w Hw%list_elem_of_In. rewrite Hne; [done|]. by apply Hrest. }
constructor.
- constructor; [|by apply list.NoDup_filter]. intros Hx%Hrest. by destruct Hx.
- intros w [->|Hw]%elem_of_cons; [done|]. by apply Hr, Hrest.
- intros w Hw. rewrite elem_of_cons. destruct (Z.eq_dec w v) as [->|].
  + rewrite Hv'. cbn. split; [by left|done].
  + rewrite Hne by done. rewrite Hv by done. unfold rest. rewrite list_elem_of_filter.
    split; [by right|]. intros [?|[]]; done.
- cbn [map]. by rewrite Hv', Hmap.
- constructor.
  + intros (w & Hw & Hw')%list_elem_of_In%in_map_iff. apply list_elem_of_In, Hrest in Hw' as [??].
    by apply (Hfresh w).
  + subst l. clear -Htn. unfold rest. induction ways as [|w ways IH]; [constructor|].
    cbn [map] in Htn. apply list.NoDup_cons in Htn as [Hw Htn]. rewrite filter_cons.
    destruct (decide (w <> v)); [|by apply IH]. cbn [map]. constructor; [|by apply IH].
    intros (x & Hx & Hx')%list_elem_of_In%in_map_iff. apply Hw. apply list_elem_of_In.
    rewrite <- Hx. apply (in_map (fun w => tag (set w))). apply list_elem_of_In in Hx'.
    apply list_elem_of_filter in Hx' as [_ ?]. by apply list_elem_of_In.
- constructor.
  + assert (StronglySorted (fun a b => used (set b) < used (set a)) rest) as Hs by by apply sorted_filter.
    assert (forall w, w ∈ rest -> w <> v) as Hrv by (intros w Hw; by apply Hrest).
    clear -Hs Hne Hrv. induction Hs as [|w ws Hs IH Hf]; [constructor|]. constructor.
    * apply IH. intros x Hx. apply Hrv. by right.
    * rewrite Forall_forall in Hf |- *. intros x Hx. rewrite !Hne; [by apply Hf| |].
      -- apply Hrv. by left.
      -- apply Hrv. right. by apply list_elem_of_In.
  + apply Forall_forall. intros w Hw%list_elem_of_In%Hrest. rewrite Hv', Hne by apply Hw. cbn.
    specialize (Hn w (proj1 Hw)). lia.
- intros w [->|Hw]%elem_of_cons; [rewrite Hv'; done|]. apply Hrest in Hw as [Hw Hwv].
  rewrite Hne by done. specialize (Hn w Hw). lia.
Qed.
End OneSet.

Lemma set_repr_ext n set set' now ways l :
  (forall w, 0 <= w < Z.of_nat n -> set' w = set w) ->
  set_repr n set now ways l -> set_repr n set' now ways l.
Proof.
  intros E [Hnd Hr Hv Ht Htn Ho Hn].
  assert (forall w, w ∈ ways -> set' w = set w) as E' by (intros w Hw; by apply E, Hr).
  constructor; try done.
  - intros w Hw. rewrite E by done. by apply Hv.
  - subst l. apply map_ext_in. intros w Hw%list_elem_of_In. by rewrite E'.
  - clear -Ho E'. induction Ho as [|w ws Hs IH Hf]; [constructor|]. constructor.
    + apply IH. intros x Hx. apply E'. by right.
    + rewrite Forall_forall in Hf |- *. intros x Hx. rewrite !E'; [by apply Hf|by left|by right; apply list_elem_of_In].
  - intros w Hw. rewrite E' by done. by apply Hn.
Qed.

Lemma set_repr_now n set now now' ways l :
  now <= now' -> set_repr n set now ways l -> set_repr n set now' ways l.
Proof. intros Hle []. constructor; try done. intros w Hw. specialize (sr_now0 w Hw). lia. Qed.

Lemma filter_all (P : Z -> Prop) `{!forall x, Decision (P x)} (l : list Z) :
  (forall x, x ∈ l -> P x) -> filter P l = l.
Proof.
  induction l as [|x l IH]; intros Hx; [done|]. rewrite filter_cons_True by (apply Hx; by left).
  f_equal. apply IH. intros y Hy. apply Hx. by right.
Qed.

Lemma tag_in (set : Z -> CacheLine) (ways : list Z) w :
  w ∈ ways -> tag (set w) ∈ map (fun w => tag (set w)) ways.
Proof. intros Hw. apply list_elem_of_In, (in_map (fun w => tag (set w))), list_elem_of_In, Hw. Qed.

Lemma tag_inj (set : Z -> CacheLine) (ways : list Z) v w :
  NoDup (map (fun w => tag (set w)) ways) -> v ∈ ways -> w ∈ ways -> tag (set v) = tag (set w) -> v = w.
Proof.
  induction ways as [|x ways IH]; intros Hnd Hv Hw E; [by apply elem_of_nil in Hw|].
  cbn [map] in Hnd. apply list.NoDup_cons in Hnd as [Hx Hnd].
  apply elem_of_cons in Hw as [->|Hw], Hv as [->|Hv]; try done.
  - destruct Hx. rewrite <- E. by apply tag_in.
  - destruct Hx. rewrite E. by apply tag_in.
  - by apply IH.
Qed.

(** A set all of whose ways are in [ways] is full. *)
Lemma full_length n (ways : list Z) :
  (length ways <= n)%nat -> (forall w, 0 <= w < Z.of_nat n -> w ∈ ways) -> length ways = n.
Proof.
  intros Hle Hcov. apply Nat.le_antisymm; [done|]. rewrite <- (length_zseq 0 n) at 1.
  apply submseteq_length, NoDup_submseteq; [apply NoDup_zseq|].
  intros w Hw%elem_of_zseq. apply Hcov. lia.
Qed.

(** Tags determine ways in a set, so removing a way removes its tag. *)
Lemma filter_tags (set : Z -> CacheLine) (ways : list Z) v : NoDup (map (fun w => tag (set w)) ways) -> v ∈ ways ->
  map (fun w => tag (set w)) (filter (fun w => w <> v) ways)
  = filter (fun x => x <> tag (set v)) (map (fun w => tag (set w)) ways).
Proof.
  induction ways as [|w ways IH]; intros Hnd Hv; [done|]. cbn [map] in *.
  apply list.NoDup_cons in Hnd as [Hw Hnd].
  rewrite !filter_cons. destruct (decide (w <> v)) as [Hne|Heq]; cbn [map].
  - apply elem_of_cons in Hv as [->|Hv]; [done|].
    destruct (decide (tag (set w) <> tag (set v))) as [|E].
    + f_equal. by apply IH.
    + destruct E. intros E. apply Hw. rewrite E. by apply tag_in.
  - destruct (decide (w = v)) as [->|]; [|done]. destruct (decide (tag (set v) <> tag (set v))); [done|].
    rewrite !filter_all; [done| |].
    + intros x Hx ->. done.
    + intros x Hx ->. apply Hw. by apply tag_in.
Qed.

(** The least recently used way of a full set is the last of [ways]. *)
Lemma filter_last (set : Z -> CacheLine) (ways : list Z) v :
  NoDup ways -> v ∈ ways -> StronglySorted (fun a b => used (set b) < used (set a)) ways ->
  (forall w, w ∈ ways -> used (set v) <= used (set w)) ->
  filter (fun w => w <> v) ways = take (length ways - 1) ways.
Proof.
  intros Hnd Hv Hs Hmin. induction Hs as [|w ws Hs IH Hf]; [done|].
  apply list.NoDup_cons in Hnd as [Hw Hnd]. rewrite Forall_forall in Hf.
  destruct ws as [|w' ws].
  - apply elem_of_cons in Hv as [->|Hv]; [|by apply elem_of_nil in Hv].
    rewrite filter_cons_False by tauto. done.
  - assert (w <> v) as Hne.
    { intros ->. specialize (Hf w' ltac:(by left)). specialize (Hmin w' ltac:(right; by left)). lia. }
    rewrite filter_cons_True by done.
    replace (length (w :: w' :: ws) - 1)%nat with (S (length (w' :: ws) - 1)) by (cbn; lia).
    cbn [take]. f_equal. apply IH; [done| |].
    + apply elem_of_cons in Hv as [->|]; done.
    + intros x Hx. apply Hmin. by right.
Qed.

Definition chosen (n : nat) (set : Z -> CacheLine) (t : Z) : Z :=
  match find_hit set t n 0 with Some w => w | None => find_victim set n 0 0 end.

(** On a hit the line becomes the most recent one. *)
Lemma access_hit n set now now' ways l v :
  set_repr n set now ways l -> now < now' -> 0 <= v < Z.of_nat n -> valid (set v) = true ->
  tag (set v) ∈ l
  /\ exists ways', set_repr n (stamp set v (tag (set v)) now') now' ways' (lru_touch n (tag (set v)) l).
Proof.
  intros Hr Hnow Hv Hval. pose proof (ways_length _ _ _ _ _ Hr) as Hlen.
  pose proof (sr_tags _ _ _ _ _ Hr) as Hl. pose proof (sr_tags_nodup _ _ _ _ _ Hr) as Hnd.
  assert (v ∈ ways) as Hin by (apply (sr_valid _ _ _ _ _ Hr); [lia|done]).
  assert (tag (set v) ∈ l) as Htl by (rewrite Hl; by apply tag_in).
  split; [done|]. rewrite Hl in Hnd.
  eexists. eapply eq_ind; [apply (stamp_repr n set now now' ways l v); [done|lia|done|]|].
  - intros w Hw Hne E. by apply Hne, (tag_inj set ways).
  - unfold lru_touch. rewrite filter_tags, <- Hl by done. rewrite take_ge; [done|]. cbn [length].
    assert (length (filter (fun x => x <> tag (set v)) l) < length l)%nat as Hlt
      by (apply (length_filter_lt _ _ (tag (set v))); [done|tauto]).
    rewrite Hl in Hlt at 2. rewrite length_map in Hlt. lia.
Qed.

(** On a miss an empty way, or the least recently used one, takes the block. *)
Lemma access_miss n set now now' ways l t :
  (0 < n)%nat -> set_repr n set now ways l -> now < now' -> t ∉ l ->
  let v := find_victim set n 0 0 in
  0 <= v < Z.of_nat n
  /\ exists ways', set_repr n (stamp set v t now') now' ways' (lru_touch n t l).
Proof.
  intros Hn Hr Hnow Htl. pose proof (ways_length _ _ _ _ _ Hr) as Hlen.
  pose proof (sr_tags _ _ _ _ _ Hr) as Hl. assert (length l = length ways) as Hll by (by rewrite Hl, length_map).
  assert (filter (fun x => x <> t) l = l) as Hfl by (apply filter_all; intros x Hx ->; done).
  destruct (find_victim_spec set n 0 0) as [Hv Hc]; [lia..|]. cbv zeta in *.
  set (v := find_victim set n 0 0) in *. split; [lia|].
  eexists. eapply eq_ind; [apply (stamp_repr n set now now' ways l v t); [done|lia|done|]|].
  { intros w Hw _ E. apply Htl. rewrite Hl, <- E. by apply tag_in. }
  unfold lru_touch. rewrite Hfl. destruct Hc as [Hinv|Hall].
  - assert (v ∉ ways) as Hvw.
    { intros Hin. apply (sr_valid _ _ _ _ _ Hr) in Hin; [congruence|lia]. }
    rewrite filter_all by (intros w Hw ->; done). rewrite <- Hl, take_ge; [done|]. cbn [length].
    assert (length (v :: ways) <= n)%nat; [|cbn in *; lia].
    rewrite <- (length_zseq 0 n). apply submseteq_length, NoDup_submseteq; [constructor; [done|apply Hr]|].
    intros w [->|Hw]%elem_of_cons; apply elem_of_zseq; [lia|]. apply (sr_range _ _ _ _ _ Hr) in Hw. lia.
  - assert (forall w, 0 <= w < Z.of_nat n -> w ∈ ways) as Hcov.
    { intros w Hw. apply (sr_valid _ _ _ _ _ Hr); [done|]. by apply Hall. }
    pose proof (full_length n ways Hlen Hcov) as Hlw.
    rewrite (filter_last set); [|apply Hr|by apply Hcov|apply Hr|].
    + rewrite <- firstn_map, <- Hl, Hlw. destruct n as [|m]; [lia|]. cbn [take]. f_equal. f_equal. lia.
    + intros w Hw. apply Hall. apply (sr_range _ _ _ _ _ Hr) in Hw. lia.
Qed.

(** One access to a set implements [lru_touch], and hits exactly when the tag is
    resident. *)
Lemma access_set n set now now' ways l t :
  (0 < n)%nat -> set_repr n set now ways l -> now < now' ->
  0 <= chosen n set t < Z.of_nat n
  /\ (exists ways', set_repr n (stamp set (chosen n set t) t now') now' ways' (lru_touch n t l))
  /\ (bool_decide (is_Some (find_hit set t n 0)) = lru_hit t l).
Proof.
  intros Hn Hr Hnow. pose proof (find_hit_spec set t n 0) as Hf. unfold chosen, lru_hit.
  destruct (find_hit set t n 0) as [v|].
  - destruct Hf as (Hv & Hval & <-). destruct (access_hit n set now now' ways l v) as [Hin Hw]; [done|done|lia|done|].
    split; [lia|]. split; [done|]. by rewrite !bool_decide_true by done.
  - assert (t ∉ l) as Htl.
    { rewrite (sr_tags _ _ _ _ _ Hr). intros (w & Hw & Hin)%list_elem_of_In%in_map_iff.
      apply list_elem_of_In in Hin. pose proof (sr_range _ _ _ _ _ Hr w Hin).
      apply (Hf w); [lia|]. split; [|done]. by apply (sr_valid _ _ _ _ _ Hr). }
    destruct (access_miss n set now now' ways l t) as [Hv Hw]; [done..|].
    split; [done|]. split; [done|]. rewrite !bool_decide_false; [done|done|by intros []].
Qed.

(** ** The abstract cache *)

Record Lru := mkLru {
  l_sets : Z -> list Z;
  l_hits : Z;
  l_misses : Z;
  l_loads : Z;
  l_stores : Z
}.
Definition Lru0 : Lru := mkLru (fun _ => []) 0 0 0 0.

(** An access to byte [addr] of a cache of [nsets] sets of [n] blocks of [block] bytes. *)
Definition lru_access (block nsets : Z) (n : nat) (s : Lru) (a : Z * bool) : Lru :=
  let '(addr, is_store) := a in
  let idx := (addr / block) mod nsets in
  let t := addr / (block * nsets) in
  let hit := lru_hit t (l_sets s idx) in
  mkLru (fun i => if i =? idx then lru_touch n t (l_sets s idx) else l_sets s i)
    (if hit then l_hits s + 1 else l_hits s) (if hit then l_misses s else l_misses s + 1)
    (if is_store then l_loads s else l_loads s + 1) (if is_store then l_stores s + 1 else l_stores s).

Definition cache_run (c : Cache) (tr : list (Z * bool)) : Cache :=
  foldl (fun c a => cache_access a.1 a.2 c) c tr.
Definition lru_run (block nsets : Z) (n : nat) (s : Lru) (tr : list (Z * bool)) : Lru :=
  foldl (lru_access block nsets n) s tr.

(** *** Geometry *)

Lemma is_pow2_spec x : rng 32 x -> is_pow2 x = true -> exists k, 0 <= k <= 31 /\ x = 2 ^ k.
Proof.
  intros [H0 H1] [E1%negb_true_iff%Z.eqb_neq E2%Z.eqb_eq]%andb_true_iff.
  exists (Z.log2 x). destruct (Z.log2_spec x) as [Hlo Hhi]; [lia|].
  assert (Z.log2 x < 32) by (apply Z.log2_lt_pow2; lia).
  split; [pose proof (Z.log2_nonneg x); lia|].
  destruct (Z.eq_dec x (2 ^ Z.log2 x)) as [|Hne]; [done|]. exfalso.
  unfold u32 in E2. rewrite wrap_small in E2 by (lia || (unfold rng; lia)).
  assert (0 < 2 ^ Z.log2 x) by (apply Z.pow_pos_nonneg; [lia|apply Z.log2_nonneg]).
  assert (Z.testbit (x .& (x - 1)) (Z.log2 x) = true) as Hb.
  { rewrite Z.land_spec, Z.bit_log2 by lia. cbn [andb].
    replace (Z.log2 x) with (Z.log2 (x - 1)); [apply Z.bit_log2; lia|].
    apply Z.log2_unique; [apply Z.log2_nonneg|lia]. }
  by rewrite E2, Z.bits_0 in Hb.
Qed.

Lemma log2u_from_pow2 fuel k : forall n,
  0 <= n <= k -> k <= 31 -> k - n <= Z.of_nat fuel -> log2u_from fuel (2 ^ k) n = k.
Proof.
  induction fuel as [|fuel IH]; intros n Hn Hk Hf; cbn [log2u_from]; [lia|].
  assert (u32 (1 << n) = 2 ^ n) as ->.
  { rewrite Z.shiftl_1_l. apply wrap_small; [lia|]. split; [lia|]. apply Z.pow_lt_mono_r; lia. }
  destruct (Z.ltb_spec (2 ^ n) (2 ^ k)) as [Hlt|Hge].
  - apply Z.pow_lt_mono_r_iff in Hlt; [|lia..]. apply IH; lia.
  - apply Z.pow_le_mono_r_iff in Hge; lia.
Qed.

Lemma log2u_pow2 k : 0 <= k <= 31 -> log2u (2 ^ k) = k.
Proof. intros. apply log2u_from_pow2; cbn; lia. Qed.

(** The geometry of an initialised cache. *)
Record geometry (c : Cache) (kb ks : Z) : Prop := {
  g_bits : 0 <= kb /\ 0 <= ks /\ kb + ks <= 31;
  g_block : block_size c = 2 ^ kb;
  g_sets : num_sets c = 2 ^ ks;
  g_offset : offset_bits c = kb;
  g_index : index_bits c = ks;
  g_assoc : 0 < assoc c
}.

Lemma cache_index_spec c kb ks addr : geometry c kb ks -> rng 32 addr ->
  cache_index c addr = (addr / block_size c) mod num_sets c /\ 0 <= cache_index c addr < num_sets c.
Proof.
  intros [(? & ? & ?) Eb Es Eo Ei Ha] Haddr. unfold cache_index. rewrite Eo, Eb, Es.
  assert (u32 (2 ^ ks - 1) = Z.ones ks) as ->.
  { rewrite Z.ones_equiv, <- Z.sub_1_r. apply wrap_small; [lia|].
    assert (2 ^ ks <= 2 ^ 31) by (apply Z.pow_le_mono_r; lia). split; lia. }
  rewrite Z.land_ones, Z.shiftr_div_pow2 by lia. split; [done|]. apply Z.mod_pos_bound. lia.
Qed.

Lemma cache_tag_spec c kb ks addr : geometry c kb ks ->
  cache_tag c addr = addr / (block_size c * num_sets c).
Proof.
  intros [(? & ? & ?) Eb Es Eo Ei Ha]. unfold cache_tag.
  rewrite Eo, Ei, Eb, Es, Z.shiftr_div_pow2, Z.pow_add_r by lia. done.
Qed.

Lemma cache_init_geometry size a bs c :
  rng 32 size -> rng 32 a -> rng 32 bs -> cache_init size a bs = InitOk c ->
  (exists kb ks, geometry c kb ks) /\ size = num_sets c * assoc c * block_size c
  /\ lines c = ∅ /\ tick c = 0 /\ loads c = 0 /\ stores c = 0 /\ hits c = 0 /\ misses c = 0.
Proof.
  intros Hs Ha Hb. unfold cache_init.
  destruct (negb (is_pow2 bs) || (bs <? 4)) eqn:E1; [done|].
  apply orb_false_iff in E1 as [E1%negb_false_iff _].
  destruct (is_pow2 a) eqn:E2; [|done]. cbn [negb].
  destruct (Z.eqb_spec size 0); [done|]. destruct (Z.eqb_spec (u32 (a * bs)) 0) as [|Hp]; [done|].
  destruct (Z.eqb_spec (size mod u32 (a * bs)) 0) as [Hm|]; [|done]. cbn [negb].
  destruct (is_pow2 (size / u32 (a * bs))) eqn:E3; [|done]. cbn [negb]. intros [= <-].
  destruct (is_pow2_spec _ Hb E1) as (kb & Hkb & ->). destruct (is_pow2_spec _ Ha E2) as (ka & Hka & ->).
  assert (u32 (2 ^ ka * 2 ^ kb) = 2 ^ ka * 2 ^ kb) as Ep.
  { rewrite <- Z.pow_add_r in * by lia. destruct (Z.le_gt_cases (ka + kb) 31).
    - apply wrap_small; [lia|]. split; [lia|]. apply Z.pow_lt_mono_r; lia.
    - destruct Hp. unfold u32. rewrite wrap_mod by lia. apply Z.mod_divide; [lia|].
      exists (2 ^ (ka + kb - 32)). rewrite <- Z.pow_add_r by lia. f_equal. lia. }
  rewrite Ep in *.
  assert (rng 32 (size / (2 ^ ka * 2 ^ kb))) as Hq.
  { destruct Hs. split; [apply Z.div_pos; lia|]. apply Z.div_lt_upper_bound; nia. }
  destruct (is_pow2_spec _ Hq E3) as (ks & Hks & Es).
  assert (size = 2 ^ ka * 2 ^ kb * 2 ^ ks) as Hsz.
  { rewrite <- Es. rewrite (Z.div_mod size (2 ^ ka * 2 ^ kb)) at 1 by lia. lia. }
  assert (ka + kb + ks < 32).
  { destruct Hs as [_ Hs]. rewrite Hsz, <- !Z.pow_add_r in Hs by lia.
    apply Z.pow_lt_mono_r_iff in Hs; lia. }
  cbn -[log2u Z.div]. rewrite Es, !log2u_pow2 by lia. split; [|split; [rewrite Hsz; lia|done]].
  exists kb, ks. constructor; cbn; try done; lia.
Qed.

(** *** Refinement *)

Record refines (c : Cache) (s : Lru) : Prop := {
  rf_geom : exists kb ks, geometry c kb ks;
  rf_sets : forall idx, 0 <= idx < num_sets c -> exists ways,
    set_repr (Z.to_nat (assoc c)) (fun w => line (lines c) (idx * assoc c + w)) (tick c) ways (l_sets s idx);
  rf_hits : hits c = l_hits s;
  rf_misses : misses c = l_misses s;
  rf_loads : loads c = l_loads s;
  rf_stores : stores c = l_stores s;
  rf_tick : tick c = l_loads s + l_stores s;
  rf_total : l_hits s + l_misses s = l_loads s + l_stores s;
  rf_pos : 0 <= l_hits s /\ 0 <= l_misses s /\ 0 <= l_loads s /\ 0 <= l_stores s
}.

Lemma line_insert m i j l : line (<[i := l]> m) j = if j =? i then l else line m j.
Proof.
  unfold line. destruct (Z.eqb_spec j i) as [->|]; [by rewrite lookup_insert_eq|by rewrite lookup_insert_ne].
Qed.

(** The access, with the line it writes made explicit. *)
Lemma cache_access_chosen addr is_store c :
  let t := cache_tag c addr in
  let base := cache_index c addr * assoc c in
  let set w := line (lines c) (base + w) in
  let n := Z.to_nat (assoc c) in
  let hit := bool_decide (is_Some (find_hit set t n 0)) in
  let now := u64 (tick c + 1) in
  cache_access addr is_store c =
  c |> set_loads (if is_store then loads c else u64 (loads c + 1))
    |> set_stores (if is_store then u64 (stores c + 1) else stores c)
    |> set_tick now
    |> set_lines (<[base + chosen n set t := mkCacheLine true t now]> (lines c))
    |> set_hits (if hit then u64 (hits c + 1) else hits c)
    |> set_misses (if hit then misses c else u64 (misses c + 1)).
Proof.
  cbv zeta. unfold chosen. destruct c as [bs ns a ob ib ls tk ld sr hi mi].
  unfold cache_access. destruct is_store; cbn -[u64 cache_tag cache_index find_hit find_victim].
  all: change (cache_tag _ addr) with (cache_tag (mkCache bs ns a ob ib ls tk ld sr hi mi) addr);
    change (cache_index _ addr) with (cache_index (mkCache bs ns a ob ib ls tk ld sr hi mi) addr).
  all: set (t := cache_tag _ _); set (idx := cache_index _ _).
  all: pose proof (find_hit_spec (fun w => line ls (idx * a + w)) t (Z.to_nat a) 0) as Hf.
  all: destruct (find_hit _ _ _ _) as [w|]; [|done].
  all: destruct Hf as (_ & Hv & Ht); rewrite bool_decide_true by done.
  all: cbn -[u64]; do 2 f_equal; unfold set_used; by rewrite Hv, Ht.
Qed.

Lemma refines_step c s addr is_store :
  refines c s -> rng 32 addr -> tick c + 1 < 2 ^ 64 ->
  refines (cache_access addr is_store c)
    (lru_access (block_size c) (num_sets c) (Z.to_nat (assoc c)) s (addr, is_store)).
Proof.
  intros [(kb & ks & Hg) Hsets Hh Hm Hl Hs Ht Htot (? & ? & ? & ?)] Ha Hov.
  destruct (cache_index_spec c kb ks addr Hg Ha) as [Ei Hir].
  pose proof (cache_tag_spec c kb ks addr Hg) as Et. pose proof (g_assoc _ _ _ Hg) as Has.
  assert (forall x, 0 <= x <= tick c -> u64 (x + 1) = x + 1) as Hu
    by (intros; apply wrap_small; [lia|unfold rng; lia]).
  rewrite cache_access_chosen. rewrite !Hu by lia. unfold lru_access. rewrite <- Ei, <- Et.
  set (t := cache_tag c addr). set (idx := cache_index c addr) in *.
  destruct (Hsets idx Hir) as [ways Hr].
  destruct (access_set (Z.to_nat (assoc c)) _ _ (tick c + 1) _ _ t ltac:(lia) Hr ltac:(lia))
    as (Hc & [ways' Hr'] & Hhit).
  set (set := fun w => line (lines c) (idx * assoc c + w)) in *.
  set (v := chosen (Z.to_nat (assoc c)) set t) in *. rewrite Hhit.
  constructor; cbn -[Z.add]; try (destruct is_store; lia); try (destruct (lru_hit _ _); lia).
  - exists kb, ks. by destruct Hg.
  - intros i Hi. destruct (Z.eqb_spec i idx) as [->|Hne].
    + exists ways'. eapply set_repr_ext; [|exact Hr']. intros w Hw. cbn. rewrite line_insert. unfold stamp.
      destruct (Z.eqb_spec w v) as [->|]; [by rewrite Z.eqb_refl|].
      destruct (Z.eqb_spec (idx * assoc c + w) (idx * assoc c + v)); [lia|done].
    + destruct (Hsets i Hi) as [wi Hri]. exists wi. eapply set_repr_now; [|eapply set_repr_ext; [|exact Hri]]; [lia|].
      intros w Hw. cbn. rewrite line_insert.
      destruct (Z.eqb_spec (i * assoc c + w) (idx * assoc c + v)) as [E|]; [|done].
      exfalso. apply Hne. nia.
  - destruct is_store, (lru_hit _ _); lia.
  - destruct is_store, (lru_hit _ _); lia.
Qed.

Lemma access_shape addr is_store c :
  block_size (cache_access addr is_store c) = block_size c
  /\ num_sets (cache_access addr is_store c) = num_sets c
  /\ assoc (cache_access addr is_store c) = assoc c
  /\ tick (cache_access addr is_store c) = u64 (tick c + 1).
Proof. rewrite cache_access_chosen. done. Qed.

Lemma refines_run tr : forall c s,
  refines c s -> Forall (fun a => rng 32 a.1) tr -> tick c + Z.of_nat (length tr) < 2 ^ 64 ->
  refines (cache_run c tr) (lru_run (block_size c) (num_sets c) (Z.to_nat (assoc c)) s tr).
Proof.
  induction tr as [|[addr is_store] tr IH]; intros c s Hr Htr Hov; [done|].
  destruct (Forall_cons_1 _ _ _ Htr) as [Ha Htr']. cbn [length] in Hov.
  destruct (access_shape addr is_store c) as (E1 & E2 & E3 & E4).
  cbn [cache_run lru_run foldl fst snd]. fold (cache_run (cache_access addr is_store c) tr).
  rewrite <- E1, <- E2, <- E3. apply IH; [| done|].
  - rewrite E1, E2, E3. apply refines_step; [done|done|lia].
  - rewrite E4. unfold u64. destruct (rf_pos _ _ Hr) as (? & ? & ? & ?).
    rewrite wrap_small; [lia|lia|]. rewrite (rf_tick _ _ Hr) in *. unfold rng. lia.
Qed.

(** C15 [cache_lru]: for every geometry [cache_init] accepts and every sequence of data
    accesses, the timestamp-based cache reports exactly the hits and misses of a cache
    of recency lists (least recently used block replaced), every access is counted once
    as a load or a store and once as a hit or a miss, and the lines add up to the
    requested size. *)
Theorem cache_refines_lru size a bs c tr :
  rng 32 size -> rng 32 a -> rng 32 bs -> cache_init size a bs = InitOk c ->
  Forall (fun x => rng 32 x.1) tr -> Z.of_nat (length tr) < 2 ^ 64 ->
  let c' := cache_run c tr in
  let s' := lru_run bs (num_sets c) (Z.to_nat a) Lru0 tr in
  size = num_sets c * a * bs
  /\ hits c' = l_hits s' /\ misses c' = l_misses s' /\ loads c' = l_loads s' /\ stores c' = l_stores s'
  /\ hits c' + misses c' = Z.of_nat (length tr) /\ loads c' + stores c' = Z.of_nat (length tr).
Proof.
  intros Hs Ha Hb Hc Htr Hlen. cbv zeta.
  destruct (cache_init_geometry size a bs c Hs Ha Hb Hc) as ((kb & ks & Hg) & Hsz & Hl & Ht & H1 & H2 & H3 & H4).
  assert (assoc c = a /\ block_size c = bs) as [Ea Eb].
  { revert Hc. unfold cache_init. repeat (destruct (_ : bool); [done|]). by intros [= <-]. }
  assert (refines c Lru0) as Hr0.
  { constructor; cbn; try lia; [by exists kb, ks|]. intros idx _. exists []. constructor.
    - constructor.
    - intros w Hw. by apply elem_of_nil in Hw.
    - intros w _. rewrite Hl. unfold line. rewrite lookup_empty. cbn. split; [done|by intros ?%elem_of_nil].
    - done.
    - constructor.
    - constructor.
    - intros w Hw. by apply elem_of_nil in Hw. }
  pose proof (refines_run tr c Lru0 Hr0 Htr ltac:(lia)) as Hr. rewrite Ea, Eb in Hr.
  assert (forall s, l_loads (lru_run bs (num_sets c) (Z.to_nat a) s tr) + l_stores (lru_run bs (num_sets c) (Z.to_nat a) s tr)
    = l_loads s + l_stores s + Z.of_nat (length tr)) as Hcount.
  { clear. induction tr as [|[addr st] tr IH]; intros s; cbn [lru_run foldl length]; [lia|].
    fold (lru_run bs (num_sets c) (Z.to_nat a)) in *. unfold lru_run in IH. rewrite IH. cbn. destruct st; lia. }
  specialize (Hcount Lru0). cbn [l_loads l_stores Lru0] in Hcount.
  destruct Hr as [_ _ Rh Rm Rl Rs _ Rt _]. rewrite <- Ea, <- Eb at 1. repeat split; try done; lia.
Qed.

Lemma cache_refines_lru_witness :
  exists c, cache_init 64 2 16 = InitOk c /\
  let tr := [(0, false); (32, false); (64, true); (0, false); (32, true)] in
  let c' := cache_run c tr in
  hits c' + misses c' = Z.of_nat (length tr) /\ (hits c', misses c') = (0, 5).
Proof.
  eexists. split; [vm_compute; reflexivity|]. cbv zeta. split; [|vm_compute; reflexivity].
  refine (proj1 (proj2 (proj2 (proj2 (proj2 (proj2
    (cache_refines_lru 64 2 16 _ [(0, false); (32, false); (64, true); (0, false); (32, true)]
      _ _ _ _ _ _))))))); try (apply rng_const; reflexivity).
  - vm_compute. reflexivity.
  - repeat (apply Forall_cons_2; [apply rng_const; reflexivity|]). apply Forall_nil_2.
Defined.

(** The product of associativity and block size is reduced modulo [2^32], so two
    powers of two that pass the checks can give a zero divisor. *)
Lemma cache_init_zero_divisor : cache_init 65536 65536 65536 = InitUndefined.
Proof. vm_compute. reflexivity. Qed.
