(* ===== verification/Pipeline.v ===== *)
(** * The pipeline timing model ([src/pipeline.h], [src/pipeline.c])

    The overlay that watches retired instructions and charges load-use and control
    stalls; the theorem ties its counters to the hazards of the whole trace. *)

From S2P Require Import Prelude Decode.

(** ** State and operations *)

(** [src/pipeline.c 10-10] PIPELINE_DEPTH *)
Definition PIPELINE_DEPTH : Z := 5.

(** [src/pipeline.h 31-38] Pipeline *)
Record Pipeline := mkPipeline {
  instrs : Z;
  load_use_stalls : Z;
  control_events : Z;
  control_cycles : Z;
  prev_load_rd : Z
}.
Definition set_instrs (v : Z) (r : Pipeline) : Pipeline :=
  mkPipeline v (load_use_stalls r) (control_events r) (control_cycles r) (prev_load_rd r).
Definition set_load_use_stalls (v : Z) (r : Pipeline) : Pipeline :=
  mkPipeline (instrs r) v (control_events r) (control_cycles r) (prev_load_rd r).
Definition set_control_events (v : Z) (r : Pipeline) : Pipeline :=
  mkPipeline (instrs r) (load_use_stalls r) v (control_cycles r) (prev_load_rd r).
Definition set_control_cycles (v : Z) (r : Pipeline) : Pipeline :=
  mkPipeline (instrs r) (load_use_stalls r) (control_events r) v (prev_load_rd r).
Definition set_prev_load_rd (v : Z) (r : Pipeline) : Pipeline :=
  mkPipeline (instrs r) (load_use_stalls r) (control_events r) (control_cycles r) v.

(** [src/pipeline.c 14-29] reads_reg *)
Definition reads_reg (inst r : Z) : bool :=
  if r =? 0 then false
  else
    let op := opcode inst in
    let uses_rs1 := (op =? OP_IMM) || (op =? OP_REG) || (op =? OP_LOAD)
                    || (op =? OP_STORE) || (op =? OP_BRANCH) || (op =? OP_JALR) in
    let uses_rs2 := (op =? OP_REG) || (op =? OP_STORE) || (op =? OP_BRANCH) in
    if uses_rs1 && (rs1 inst =? r) then true
    else if uses_rs2 && (rs2 inst =? r) then true
    else false.

(** [src/pipeline.c 31-37] pipeline_init *)
Definition pipeline_init : Pipeline := mkPipeline 0 0 0 0 0.

(** [src/pipeline.c 39-57] pipeline_observe *)
Definition pipeline_observe (inst : Z) (redirected : bool) (p : Pipeline) : Pipeline :=
  let p := if negb (prev_load_rd p =? 0) && reads_reg inst (prev_load_rd p)
           then set_load_use_stalls (u64 (load_use_stalls p + 1)) p else p in
  let p := if redirected then
             let pen := if opcode inst =? OP_JAL then 1 else 2 in
             p |> set_control_events (u64 (control_events p + 1))
               |> set_control_cycles (u64 (control_cycles p + pen))
           else p in
  p |> set_instrs (u64 (instrs p + 1))
    |> set_prev_load_rd (if opcode inst =? OP_LOAD then rd inst else 0).

(** The cycle estimate of the report.
    [src/pipeline.c 60-61] pipeline_report *)
Definition pipeline_cycles (p : Pipeline) : Z :=
  let fill := if 0 <? instrs p then PIPELINE_DEPTH - 1 else 0 in
  u64 (instrs p + fill + load_use_stalls p + control_cycles p).

(** ** Specification on a trace

    A trace lists the retired instructions, oldest first, with whether each one
    redirected control.  The hazards are those of the instruction formats of the
    RISC-V manual, read off the instruction word by plain arithmetic. *)

Definition trace : Type := list (Z * bool).

(** Five bits of a word. *)
Definition field5 (lo inst : Z) : Z := (inst / 2 ^ lo) mod 32.
Definition major (inst : Z) : Z := inst mod 128.
Definition minor (inst : Z) : Z := (inst / 2 ^ 12) mod 8.

(** The integer registers an instruction reads, by the manual: the R, S and B formats
    read both fields, the I format the first, and U, J and FENCE none.  Floating-point
    loads and stores address with an integer register, the CSR instructions with a
    register operand read one, and so do the moves and conversions into the
    floating-point file. *)
Definition isa_sources (inst : Z) : list Z :=
  let one := [field5 15 inst] in
  let two := [field5 15 inst; field5 20 inst] in
  match major inst with
  | 0x33 | 0x3b | 0x2f | 0x23 | 0x63 => two
  | 0x13 | 0x1b | 0x03 | 0x67 | 0x07 | 0x27 => one
  | 0x73 => if (1 <=? minor inst) && (minor inst <=? 3) then one else []
  | 0x53 => if bool_decide ((inst / 2 ^ 25) mod 128 ∈ [0x68; 0x69; 0x78; 0x79]) then one else []
  | _ => []
  end.

(** The opcodes the timing model classifies: LOAD, OP-IMM, STORE, OP, BRANCH, JALR. *)
Definition classified (inst : Z) : Prop := major inst ∈ [0x03; 0x13; 0x23; 0x33; 0x63; 0x67].
Definition is_load (inst : Z) : Prop := major inst = 0x03.

(** Instruction [j], of a classified opcode, comes right after load [i] and reads its
    destination, which is not [x0]. *)
Definition load_use (i j : Z) : Prop :=
  is_load i /\ field5 7 i <> 0 /\ classified j /\ field5 7 i ∈ isa_sources j.
#[global] Instance classified_dec i : Decision (classified i).
Proof. unfold classified. apply _. Defined.
#[global] Instance load_use_dec i j : Decision (load_use i j).
Proof. unfold load_use, is_load. apply _. Defined.

Fixpoint load_uses (t : trace) : Z :=
  match t with
  | i :: (j :: _) as t' => (if decide (load_use i.1 j.1) then 1 else 0) + load_uses t'
  | _ => 0
  end.
Definition penalty (i : Z * bool) : Z :=
  if i.2 then if decide (major i.1 = 0x6f) then 1 else 2 else 0.
Fixpoint penalties (t : trace) : Z :=
  match t with [] => 0 | i :: t => penalty i + penalties t end.

Definition pipeline_run (p : Pipeline) (t : trace) : Pipeline :=
  foldl (fun p i => pipeline_observe i.1 i.2 p) p t.

(** The code's reading of a word against the manual's. *)
Lemma opcode_major i : opcode i = major i.
Proof. unfold opcode, major. change 0x7f with (Z.ones 7). by rewrite Z.land_ones. Qed.

Lemma field_land i lo : 0 <= lo -> Z.land (Z.shiftr i lo) 0x1f = field5 lo i.
Proof. intros. unfold field5. change 0x1f with (Z.ones 5). by rewrite Z.land_ones, Z.shiftr_div_pow2. Qed.

Lemma rd_field i : rd i = field5 7 i.
Proof. by apply field_land. Qed.
Lemma rs1_field i : rs1 i = field5 15 i.
Proof. by apply field_land. Qed.
Lemma rs2_field i : rs2 i = field5 20 i.
Proof. by apply field_land. Qed.

(** The source registers the code knows about are those of the classified opcodes. *)
Lemma reads_reg_sources inst r :
  r <> 0 -> reads_reg inst r = bool_decide (classified inst /\ r ∈ isa_sources inst).
Proof.
  intros Hr. unfold reads_reg. rewrite (proj2 (Z.eqb_neq r 0) Hr), opcode_major, rs1_field, rs2_field.
  apply eq_true_iff_eq. rewrite bool_decide_eq_true. unfold classified, isa_sources.
  unfold OP_IMM, OP_REG, OP_LOAD, OP_STORE, OP_BRANCH, OP_JALR.
  generalize (major inst), (field5 15 inst), (field5 20 inst). intros op x y. split.
  - intros H.
    repeat match type of H with context [op =? ?k] => destruct (Z.eqb_spec op k) as [->|] end;
      cbn [orb andb] in H; try discriminate H;
      destruct (Z.eqb_spec x r), (Z.eqb_spec y r); subst; try discriminate H; set_solver.
  - intros [Hc Hs]. rewrite !elem_of_cons in Hc.
    destruct Hc as [->|[->|[->|[->|[->|[->|Hc]]]]]]; [..|by apply not_elem_of_nil in Hc];
      rewrite !elem_of_cons, elem_of_nil in Hs; cbn [Z.eqb Pos.eqb orb andb];
      destruct (Z.eqb_spec x r), (Z.eqb_spec y r); intuition congruence.
Qed.

(** What the load buffer makes of the first instruction of the rest of the trace. *)
Definition pending (r : Z) (t : trace) : Z :=
  match t with [] => 0 | j :: _ => if negb (r =? 0) && reads_reg j.1 r then 1 else 0 end.

Lemma penalty_bound i : 0 <= penalty i <= 2.
Proof. unfold penalty. destruct i.2, (decide (major i.1 = 0x6f)); lia. Qed.

Lemma load_uses_bound t : 0 <= load_uses t <= Z.of_nat (length t).
Proof. induction t as [|i [|j t] IH]; cbn -[Z.of_nat] in *; try lia. destruct (decide (load_use i.1 j.1)); lia. Qed.

Lemma penalties_bound t : 0 <= penalties t <= 2 * Z.of_nat (length t).
Proof. induction t as [|i t IH]; cbn -[Z.of_nat]; [lia|]. pose proof (penalty_bound i). lia. Qed.

Lemma load_uses_cons i t :
  load_uses (i :: t) = pending (if opcode i.1 =? OP_LOAD then rd i.1 else 0) t + load_uses t.
Proof.
  destruct t as [|j t]; [done|]. cbn [load_uses pending]. rewrite opcode_major, rd_field.
  f_equal. unfold OP_LOAD. destruct (Z.eqb_spec (major i.1) 0x03) as [E|E].
  - destruct (Z.eqb_spec (field5 7 i.1) 0) as [E0|E0]; cbn [negb andb].
    + rewrite decide_False by (intros (_ & H & _); done). done.
    + rewrite reads_reg_sources by done. case_bool_decide as H.
      * rewrite decide_True by (destruct H; split_and!; done). done.
      * rewrite decide_False by (intros (? & ? & ? & ?); apply H; done). done.
  - cbn [negb andb Z.eqb]. rewrite decide_False by (intros (H & _); done). done.
Qed.

Lemma pipeline_run_spec t : forall p,
  0 <= instrs p -> 0 <= load_use_stalls p -> 0 <= control_cycles p ->
  instrs p + Z.of_nat (length t) < 2 ^ 64 ->
  load_use_stalls p + 1 + Z.of_nat (length t) < 2 ^ 64 ->
  control_cycles p + 2 * Z.of_nat (length t) < 2 ^ 64 ->
  let p' := pipeline_run p t in
  instrs p' = instrs p + Z.of_nat (length t)
  /\ load_use_stalls p' = load_use_stalls p + pending (prev_load_rd p) t + load_uses t
  /\ control_cycles p' = control_cycles p + penalties t.
Proof.
  induction t as [|[inst redir] t IH]; intros p H1 H2 H3 H4 H5 H6; cbv zeta.
  { cbn. lia. }
  change (pipeline_run p ((inst, redir) :: t)) with (pipeline_run (pipeline_observe inst redir p) t).
  cbn [length] in *. rewrite load_uses_cons. cbn [penalties pending fst snd].
  pose proof (penalty_bound (inst, redir)) as Hp.
  assert (forall x, 0 <= x < 2 ^ 64 -> u64 x = x) as Hu by (intros; apply wrap_small; [lia|done]).
  set (stall := negb (prev_load_rd p =? 0) && reads_reg inst (prev_load_rd p)).
  assert (exists ev, pipeline_observe inst redir p =
    mkPipeline (instrs p + 1) (load_use_stalls p + (if stall then 1 else 0))
      ev (control_cycles p + penalty (inst, redir))
      (if opcode inst =? OP_LOAD then rd inst else 0)) as [ev E].
  { exists (control_events (pipeline_observe inst redir p)). unfold penalty in Hp |- *. unfold pipeline_observe. fold stall.
    unfold set_prev_load_rd, set_instrs, set_control_cycles, set_control_events, set_load_use_stalls.
    assert ((if opcode inst =? OP_JAL then 1 else 2) = (if decide (major inst = 0x6f) then 1 else 2)) as EJ.
    { rewrite opcode_major. unfold OP_JAL. by destruct (Z.eqb_spec (major inst) 0x6f), (decide (major inst = 0x6f)). }
    destruct stall, redir; cbn -[u64 Z.add Z.mul Z.of_nat major] in *; rewrite ?EJ;
      rewrite ?(Hu (instrs p + 1)), ?(Hu (load_use_stalls p + 1)), ?(Hu (control_cycles p + _))
        by (destruct (decide (major inst = 0x6f)); lia); f_equal; first [reflexivity | lia]. }
  rewrite E. specialize (IH (pipeline_observe inst redir p)). rewrite E in IH.
  cbn -[Z.add Z.mul Z.of_nat penalty] in IH.
  destruct IH as (I1 & I2 & I3); [destruct stall; lia..|]. rewrite I1, I2, I3. lia.
Qed.

(** A load followed by a reader the code does not classify: [ld x5; addiw x6, x5, 0],
    and likewise for [addw], [amoadd.w], [csrrw] and [flw], each of which reads [x5]. *)
Lemma unclassified_readers_not_charged :
  Forall (fun j => 5 ∈ isa_sources j /\ ~ classified j
                   /\ load_use_stalls (pipeline_run pipeline_init [(0x00033283, false); (j, false)]) = 0)
    [0x0002831b; 0x0062833b; 0x0062a32f; 0x30029373; 0x0002a307].
Proof.
  repeat apply Forall_cons_2; [..|apply Forall_nil_2]; split_and!;
    first [by apply (bool_decide_unpack _); vm_compute | by vm_compute].
Qed.

(** C16 [pipeline]: over any trace of retired instructions the estimate is one cycle per
    instruction, four to fill the pipeline, the redirect penalties (1 for JAL, 2
    otherwise), and one bubble for each load with a destination other than [x0] whose
    next instruction has opcode LOAD, OP-IMM, STORE, OP, BRANCH or JALR and reads that
    destination by the instruction formats of the manual; nothing else is charged.
    Readers of any other opcode (OP-IMM-32, OP-32, AMO, SYSTEM, floating-point loads and
    stores) are free, although [pipeline.h] promises a bubble for every reader. *)
Theorem pipeline_trace_cycles t :
  Z.of_nat (length t) < 2 ^ 61 ->
  pipeline_cycles (pipeline_run pipeline_init t) =
  Z.of_nat (length t) + (if bool_decide (t = []) then 0 else 4) + load_uses t + penalties t.
Proof.
  intros Hl. pose proof (load_uses_bound t). pose proof (penalties_bound t).
  destruct (pipeline_run_spec t pipeline_init) as (E1 & E2 & E3); cbn -[Z.of_nat Z.mul Z.add]; [lia..|].
  cbv zeta in *. cbn -[Z.of_nat Z.mul Z.add pipeline_run] in E1, E2, E3.
  unfold pipeline_cycles. rewrite E1, E2, E3. unfold PIPELINE_DEPTH.
  replace (pending 0 t) with 0 by (by destruct t).
  rewrite !Z.add_0_l. destruct t as [|i t].
  - done.
  - rewrite bool_decide_false by done. destruct (Z.ltb_spec 0 (Z.of_nat (length (i :: t)))); [|cbn in *; lia].
    apply wrap_small; [lia|]. unfold rng. lia.
Qed.

(** [lw x5, 0(x6); addi x5, x5, 1; jal x0, 8]: one load-use stall, one redirect. *)
Lemma pipeline_trace_cycles_witness :
  let t := [(0x00032283, false); (0x00128293, false); (0x0080006f, true)] in
  pipeline_cycles (pipeline_run pipeline_init t)
  = Z.of_nat (length t) + (if bool_decide (t = []) then 0 else 4) + load_uses t + penalties t
  /\ load_uses t = 1 /\ penalties t = 1.
Proof.
  split; [|split; vm_compute; reflexivity].
  apply (pipeline_trace_cycles [(0x00032283, false); (0x00128293, false); (0x0080006f, true)]).
  vm_compute. reflexivity.
Defined.
