(* ===== verification/Softfloat.v ===== *)
(** * Software floating point ([src/softfloat.h], [src/softfloat.c])

    IEEE-754 binary32/binary64 arithmetic generic over a format descriptor, on
    two- and four-word integers.  The accrued-exception flags, which the C code
    or-s into [*flags], are the state of the monad. *)

From S2P Require Import Prelude.

(** ** Constants *)

(** [src/softfloat.h 33-33] SF_RNE *)
Definition SF_RNE : Z := 0.
(** [src/softfloat.h 34-34] SF_RTZ *)
Definition SF_RTZ : Z := 1.
(** [src/softfloat.h 35-35] SF_RDN *)
Definition SF_RDN : Z := 2.
(** [src/softfloat.h 36-36] SF_RUP *)
Definition SF_RUP : Z := 3.
(** [src/softfloat.h 37-37] SF_RMM *)
Definition SF_RMM : Z := 4.
(** [src/softfloat.h 42-42] SF_NX *)
Definition SF_NX : Z := 0x01.
(** [src/softfloat.h 43-43] SF_UF *)
Definition SF_UF : Z := 0x02.
(** [src/softfloat.h 44-44] SF_OF *)
Definition SF_OF : Z := 0x04.
(** [src/softfloat.h 45-45] SF_DZ *)
Definition SF_DZ : Z := 0x08.
(** [src/softfloat.h 46-46] SF_NV *)
Definition SF_NV : Z := 0x10.
(** [src/softfloat.h 50-50] F32_QNAN *)
Definition F32_QNAN : Z := 0x7fc00000.
(** [src/softfloat.h 51-51] F64_QNAN *)
Definition F64_QNAN : Z := 0x7ff8000000000000.
(** [src/softfloat.h 55-55] FCLASS_NEG_INF *)
Definition FCLASS_NEG_INF : Z := 1 << 0.
(** [src/softfloat.h 56-56] FCLASS_NEG_NORMAL *)
Definition FCLASS_NEG_NORMAL : Z := 1 << 1.
(** [src/softfloat.h 57-57] FCLASS_NEG_SUBNRM *)
Definition FCLASS_NEG_SUBNRM : Z := 1 << 2.
(** [src/softfloat.h 58-58] FCLASS_NEG_ZERO *)
Definition FCLASS_NEG_ZERO : Z := 1 << 3.
(** [src/softfloat.h 59-59] FCLASS_POS_ZERO *)
Definition FCLASS_POS_ZERO : Z := 1 << 4.
(** [src/softfloat.h 60-60] FCLASS_POS_SUBNRM *)
Definition FCLASS_POS_SUBNRM : Z := 1 << 5.
(** [src/softfloat.h 61-61] FCLASS_POS_NORMAL *)
Definition FCLASS_POS_NORMAL : Z := 1 << 6.
(** [src/softfloat.h 62-62] FCLASS_POS_INF *)
Definition FCLASS_POS_INF : Z := 1 << 7.
(** [src/softfloat.h 63-63] FCLASS_SNAN *)
Definition FCLASS_SNAN : Z := 1 << 8.
(** [src/softfloat.h 64-64] FCLASS_QNAN *)
Definition FCLASS_QNAN : Z := 1 << 9.

(** ** 128-bit helpers *)

(** [src/softfloat.c 25-25] u128 *)
Record u128 := mk128 { hi : Z; lo : Z }.

(** [src/softfloat.c 28-28] is0_128 *)
Definition is0_128 (a : u128) : bool := (hi a .| lo a) =? 0.

(** One halving step: if [x] is at most [m], add [k] to the count and shift left.
    [src/softfloat.c 33-37] clz64 *)
Definition clz_step (m k : Z) (s : Z * Z) : Z * Z :=
  let '(n, x) := s in if x <=? m then (n + k, u64 (x << k)) else (n, x).

(** [src/softfloat.c 30-40] clz64 *)
Definition clz64 (x : Z) : Z :=
  if x =? 0 then 64
  else
    let '(n, x) := (0, x)
      |> clz_step 0x00000000FFFFFFFF 32 |> clz_step 0x0000FFFFFFFFFFFF 16
      |> clz_step 0x00FFFFFFFFFFFFFF 8 |> clz_step 0x0FFFFFFFFFFFFFFF 4
      |> clz_step 0x3FFFFFFFFFFFFFFF 2 in
    if x <=? 0x7FFFFFFFFFFFFFFF then n + 1 else n.

(** [src/softfloat.c 41-41] clz128 *)
Definition clz128 (a : u128) : Z := if hi a =? 0 then 64 + clz64 (lo a) else clz64 (hi a).
(** [src/softfloat.c 42-42] msb128 *)
Definition msb128 (a : u128) : Z := 127 - clz128 a.

(** [src/softfloat.c 44-47] get_bit128 *)
Definition get_bit128 (a : u128) (i : Z) : Z :=
  if (i <? 0) || (127 <? i) then 0
  else (if 64 <=? i then hi a >> (i - 64) else lo a >> i) .& 1.

(** [src/softfloat.c 50-54] cmp128 *)
Definition cmp128 (a b : u128) : Z :=
  if negb (hi a =? hi b) then (if hi a <? hi b then -1 else 1)
  else if negb (lo a =? lo b) then (if lo a <? lo b then -1 else 1)
  else 0.

(** A C comparison used as an integer. *)
Definition b2z (b : bool) : Z := if b then 1 else 0.

(** [src/softfloat.c 55-60] add128 *)
Definition add128 (a b : u128) : u128 :=
  let l := u64 (lo a + lo b) in
  mk128 (u64 (hi a + hi b + b2z (l <? lo a))) l.

(** [src/softfloat.c 61-66] sub128 *)
Definition sub128 (a b : u128) : u128 :=
  mk128 (u64 (hi a - hi b - b2z (lo a <? lo b))) (u64 (lo a - lo b)).

(** [src/softfloat.c 68-72] shl128 *)
Definition shl128 (a : u128) (n : Z) : u128 :=
  if n <=? 0 then a
  else if 64 <=? n then mk128 (u64 (lo a << (n - 64))) 0
  else mk128 (u64 (hi a << n) .| (lo a >> (64 - n))) (u64 (lo a << n)).

(** The shifted value and whether a one fell off.
    [src/softfloat.c 74-89] shr128_jam *)
Definition shr128_jam (a : u128) (n : Z) : u128 * bool :=
  if n <=? 0 then (a, false)
  else if 128 <=? n then (mk128 0 0, negb (is0_128 a))
  else if 64 <=? n then
    let m := n - 64 in
    let lostbits := lo a .| (if m =? 0 then 0 else hi a .& u64 (u64 (1 << m) - 1)) in
    (mk128 0 (if m =? 0 then hi a else hi a >> m), negb (lostbits =? 0))
  else
    let lostbits := lo a .& u64 (u64 (1 << n) - 1) in
    (mk128 (hi a >> n) ((lo a >> n) .| u64 (hi a << (64 - n))), negb (lostbits =? 0)).

(** [src/softfloat.c 91-99] mul64 *)
Definition mul64 (a b : Z) : u128 :=
  let al := u32 a in let ah := a >> 32 in let bl := u32 b in let bh := b >> 32 in
  let ll := u64 (al * bl) in let lh := u64 (al * bh) in
  let hl := u64 (ah * bl) in let hh := u64 (ah * bh) in
  let cross := u64 ((ll >> 32) + u32 lh + u32 hl) in
  mk128 (u64 (hh + (lh >> 32) + (hl >> 32) + (cross >> 32))) ((ll .& 0xffffffff) .| u64 (cross << 32)).

(** One bit of the long division: quotient and remainder after bit [i].
    [src/softfloat.c 104-106] udiv128by64 *)
Definition div_step (num : u128) (den : Z) (i : Z) (s : Z * Z) : Z * Z :=
  let '(q, r) := s in
  let carry := r >> 63 in
  let r := u64 (r << 1) .| ((lo num >> i) .& 1) in
  if negb (carry =? 0) || (den <=? r) then (q .| u64 (1 << i), u64 (r - den)) else (q, r).

(** [for (int i = n - 1; i >= 0; i--)] *)
Fixpoint down {A} (n : nat) (f : Z -> A -> A) (a : A) : A :=
  match n with O => a | S n => down n f (f (Z.of_nat n) a) end.

(** The quotient and the remainder.
    [src/softfloat.c 101-110] udiv128by64 *)
Definition udiv128by64 (num : u128) (den : Z) : Z * Z := down 64 (div_step num den) (0, hi num).

(** [src/softfloat.c 117-124] isqrt128 *)
Definition sqrt_step (x : u128) (i : Z) (s : Z * u128) : Z * u128 :=
  let '(root, rem) := s in
  let rem := add128 (shl128 rem 2)
    (mk128 0 (u64 (get_bit128 x (2 * i + 1) << 1) .| get_bit128 x (2 * i))) in
  let trial := add128 (shl128 (mk128 0 root) 2) (mk128 0 1) in
  if 0 <=? cmp128 rem trial then (u64 (root << 1) .| 1, sub128 rem trial)
  else (u64 (root << 1), rem).

(** The root, and whether the remainder is nonzero.
    [src/softfloat.c 113-128] isqrt128 *)
Definition isqrt128 (x : u128) : Z * bool :=
  let '(root, rem) := down 64 (sqrt_step x) (0, mk128 0 0) in (root, negb (is0_128 rem)).

(** [src/softfloat.c 130-134] srjam64 *)
Definition srjam64 (a dist : Z) : Z :=
  if dist =? 0 then a
  else if 64 <=? dist then b2z (negb (a =? 0))
  else (a >> dist) .| b2z (negb (a .& u64 (u64 (1 << dist) - 1) =? 0)).

(** ** Formats and unpacking *)

(** [src/softfloat.c 139-139] Fmt *)
Record Fmt := mkFmt {
  mantbits : Z;
  expbits : Z;
  bias : Z;
  width : Z
}.
(** [src/softfloat.c 140-140] F32 *)
Definition F32 : Fmt := mkFmt 23 8 127 32.
(** [src/softfloat.c 141-141] F64 *)
Definition F64 : Fmt := mkFmt 52 11 1023 64.

(** [src/softfloat.c 143-143] CLS_ZERO *)
Inductive Cls := CLS_ZERO | CLS_NORMAL | CLS_INF | CLS_NAN.
#[global] Instance Cls_eq_dec : EqDecision Cls.
Proof. solve_decision. Defined.
Definition is_zero (c : Cls) : bool := match c with CLS_ZERO => true | _ => false end.
Definition is_inf (c : Cls) : bool := match c with CLS_INF => true | _ => false end.
Definition is_nan (c : Cls) : bool := match c with CLS_NAN => true | _ => false end.
Definition is_normal (c : Cls) : bool := match c with CLS_NORMAL => true | _ => false end.

(** [src/softfloat.c 144-150] Up *)
Record Up := mkUp {
  u_sign : bool;
  u_cls : Cls;
  u_snan : bool;
  u_sig : u128;
  u_exp2 : Z
}.

(** [src/softfloat.c 152-152] qnan_bits *)
Definition qnan_bits (f : Fmt) : Z := if width f =? 32 then F32_QNAN else F64_QNAN.
(** [src/softfloat.c 153-153] sign_bit *)
Definition sign_bit (f : Fmt) : Z := u64 (1 << (width f - 1)).
(** [src/softfloat.c 155-159] pack_raw *)
Definition pack_raw (f : Fmt) (sign : bool) (expfield frac : Z) : Z :=
  u64 (b2z sign << (width f - 1)) .| u64 (expfield << mantbits f) .| frac.
(** [src/softfloat.c 160-162] make_inf *)
Definition make_inf (f : Fmt) (sign : bool) : Z := pack_raw f sign (u64 (u64 (1 << expbits f) - 1)) 0.
(** [src/softfloat.c 163-163] make_zero *)
Definition make_zero (f : Fmt) (sign : bool) : Z := if sign then sign_bit f else 0.

(** The significand and exponent of an infinity or NaN, which C leaves
    uninitialised and never reads, are zero here.
    [src/softfloat.c 165-188] unpack *)
Definition unpack (f : Fmt) (bits : Z) : Up :=
  let allones := u64 (1 << expbits f) - 1 in
  let fracmask := u64 (1 << mantbits f) - 1 in
  let sign := negb ((bits >> (width f - 1)) .& 1 =? 0) in
  let exp := (bits >> mantbits f) .& allones in
  let frac := bits .& fracmask in
  if exp =? 0 then
    if frac =? 0 then mkUp sign CLS_ZERO false (mk128 0 0) 0
    else mkUp sign CLS_NORMAL false (mk128 0 frac) ((1 - bias f) - mantbits f)
  else if exp =? allones then
    if frac =? 0 then mkUp sign CLS_INF false (mk128 0 0) 0
    else mkUp sign CLS_NAN ((frac >> (mantbits f - 1)) .& 1 =? 0) (mk128 0 0) 0
  else mkUp sign CLS_NORMAL false (mk128 0 (u64 (1 << mantbits f) .| frac)) ((exp - bias f) - mantbits f).

(** ** Rounding and packing *)

(** [*flags |= fl] *)
Definition raise_flags (fl : Z) : st Z unit := modify (fun s => s .| fl).

(** [src/softfloat.c 198-232] roundpack *)
Definition roundpack (f : Fmt) (sign : bool) (exp sigp rm : Z) : st Z Z :=
  let R := if width f =? 32 then 7 else 10 in
  let roundMask := u64 (u64 (1 << R) - 1) in
  let half := u64 (1 << (R - 1)) in
  let roundInc :=
    if negb (rm =? SF_RNE) && negb (rm =? SF_RMM)
    then (if rm =? (if sign then SF_RDN else SF_RUP) then roundMask else 0)
    else half in
  let infExp := u64 (1 << expbits f) - 1 in
  let overflowBit := if width f =? 32 then 0x80000000 else 0x8000000000000000 in
  (* the tail shared by the normal and the denormalised path *)
  let pack exp sigp roundBits :=
    when (negb (roundBits =? 0)) (raise_flags SF_NX) ;;
    let sig := u64 (sigp + roundInc) >> R in
    let sig := if (rm =? SF_RNE) && (roundBits =? half) then sig .& u64 (Z.lnot 1) else sig in
    let exp := if sig =? 0 then 0 else exp in
    mret (u64 (u64 (b2z sign << (width f - 1)) + u64 (u64 exp << mantbits f) + sig)) in
  if u32 (infExp - 2) <=? u32 exp then
    if exp <? 0 then
      let isTiny := (exp <? -1) || (u64 (sigp + roundInc) <? overflowBit) in
      let sigp := srjam64 sigp (- exp) in
      let roundBits := sigp .& roundMask in
      when (isTiny && negb (roundBits =? 0)) (raise_flags SF_UF) ;;
      pack 0 sigp roundBits
    else if (infExp - 2 <? exp) || (overflowBit <=? u64 (sigp + roundInc)) then
      raise_flags (SF_OF .| SF_NX) ;;
      let inf := make_inf f sign in
      mret (if roundInc =? 0 then u64 (inf - 1) else inf)
    else pack exp sigp (sigp .& roundMask)
  else pack exp sigp (sigp .& roundMask).

(** [src/softfloat.c 236-254] round_mag *)
Definition round_mag (f : Fmt) (sign : bool) (mant : u128) (exp2 : Z) (sticky : bool) (rm : Z) : st Z Z :=
  if is0_128 mant then mret (make_zero f sign)
  else
    let leadpos := if width f =? 32 then 30 else 62 in
    let mb := msb128 mant in
    let expB := exp2 + mb + bias f in
    let shift := leadpos - mb in
    let sigp :=
      if 0 <=? shift then lo (shl128 mant shift) .| b2z sticky
      else let '(r, lost) := shr128_jam mant (- shift) in lo r .| b2z (lost || sticky) in
    roundpack f sign (expB - 1) sigp rm.

(** ** 256-bit accumulator *)

(** [src/softfloat.c 262-262] u256 *)
Record u256 := mk256 { w0 : Z; w1 : Z; w2 : Z; w3 : Z }.
(** [a.w[i]] for [i] in [[0, 3]]. *)
Definition word (a : u256) (i : Z) : Z :=
  if i =? 0 then w0 a else if i =? 1 then w1 a else if i =? 2 then w2 a else w3 a.

(** [src/softfloat.c 263-263] u256_from128 *)
Definition u256_from128 (a : u128) : u256 := mk256 (lo a) (hi a) 0 0.
(** [src/softfloat.c 264-264] is0_256 *)
Definition is0_256 (a : u256) : bool := (w0 a .| w1 a .| w2 a .| w3 a) =? 0.
(** [src/softfloat.c 265-268] msb256 *)
Definition msb256 (a : u256) : Z :=
  if negb (w3 a =? 0) then 3 * 64 + (63 - clz64 (w3 a))
  else if negb (w2 a =? 0) then 2 * 64 + (63 - clz64 (w2 a))
  else if negb (w1 a =? 0) then 1 * 64 + (63 - clz64 (w1 a))
  else if negb (w0 a =? 0) then 0 * 64 + (63 - clz64 (w0 a))
  else -1.
(** [src/softfloat.c 269-272] cmp256 *)
Definition cmp256 (a b : u256) : Z :=
  if negb (w3 a =? w3 b) then (if w3 a <? w3 b then -1 else 1)
  else if negb (w2 a =? w2 b) then (if w2 a <? w2 b then -1 else 1)
  else if negb (w1 a =? w1 b) then (if w1 a <? w1 b then -1 else 1)
  else if negb (w0 a =? w0 b) then (if w0 a <? w0 b then -1 else 1)
  else 0.

(** One word of the addition: sum and carry out.
    [src/softfloat.c 276-278] add256 *)
Definition add_word (a b carry : Z) : Z * Z :=
  let s := u64 (a + carry) in
  let c1 := b2z (s <? carry) in
  let s := u64 (s + b) in
  let c2 := b2z (s <? b) in
  (s, c1 + c2).
(** [src/softfloat.c 273-281] add256 *)
Definition add256 (a b : u256) : u256 :=
  let '(r0, c) := add_word (w0 a) (w0 b) 0 in
  let '(r1, c) := add_word (w1 a) (w1 b) c in
  let '(r2, c) := add_word (w2 a) (w2 b) c in
  let '(r3, _) := add_word (w3 a) (w3 b) c in
  mk256 r0 r1 r2 r3.

(** One word of the subtraction: difference and borrow out.
    [src/softfloat.c 285-287] sub256 *)
Definition sub_word (a b borrow : Z) : Z * Z :=
  let bi := u64 (b + borrow) in
  let b0 := b2z (bi <? borrow) in
  let d := u64 (a - bi) in
  let b1 := b2z (a <? bi) in
  (d, b0 + b1).
(** [src/softfloat.c 282-290] sub256 *)
Definition sub256 (a b : u256) : u256 :=
  let '(r0, c) := sub_word (w0 a) (w0 b) 0 in
  let '(r1, c) := sub_word (w1 a) (w1 b) c in
  let '(r2, c) := sub_word (w2 a) (w2 b) c in
  let '(r3, _) := sub_word (w3 a) (w3 b) c in
  mk256 r0 r1 r2 r3.

(** [src/softfloat.c 291-301] shl128_256 *)
Definition shl128_256 (a : u128) (n : Z) : u256 :=
  if 256 <=? n then mk256 0 0 0 0
  else
    let s := u256_from128 a in
    let wd := n >> 6 in
    let bit := n .& 63 in
    let out i :=
      if wd <=? i then
        u64 (word s (i - wd) << bit)
        .| (if negb (bit =? 0) && (0 <=? i - wd - 1) then word s (i - wd - 1) >> (64 - bit) else 0)
      else 0 in
    mk256 (out 0) (out 1) (out 2) (out 3).

(** [src/softfloat.c 302-316] shr256_jam *)
Definition shr256_jam (a : u256) (n : Z) : u256 * bool :=
  if n <=? 0 then (a, false)
  else if 256 <=? n then (mk256 0 0 0 0, negb (is0_256 a))
  else
    let wd := n >> 6 in
    let bit := n .& 63 in
    let lost :=
      existsb (fun i => (i <? wd) && negb (word a i =? 0)) [0; 1; 2; 3]
      || (negb (bit =? 0) && negb (word a wd .& u64 (u64 (1 << bit) - 1) =? 0)) in
    let out i :=
      if i + wd <? 4 then
        (word a (i + wd) >> bit)
        .| (if negb (bit =? 0) && (i + wd + 1 <? 4) then u64 (word a (i + wd + 1) << (64 - bit)) else 0)
      else 0 in
    (mk256 (out 0) (out 1) (out 2) (out 3), lost).

(** Reduce the exact 256-bit sum [M] for rounding.
    [src/softfloat.c 351-360] add_core *)
Definition add_finish (f : Fmt) (sign : bool) (M : u256) (wbot : Z) (sticky : bool) (rm : Z) : st Z Z :=
  if is0_256 M && negb sticky then mret (make_zero f (rm =? SF_RDN))
  else
    let mb := msb256 M in
    if mb <=? 127 then round_mag f sign (mk128 (w1 M) (w0 M)) wbot sticky rm
    else
      let '(red, lost) := shr256_jam M (mb - 127) in
      round_mag f sign (mk128 (w1 red) (w0 red)) (wbot + (mb - 127)) (lost || sticky) rm.

(** Both operands, the one with the higher leading bit first.
    [src/softfloat.c 331-361] add_core *)
Definition add_ordered (f : Fmt) (sX : bool) (sigX : u128) (eX : Z)
    (sY : bool) (sigY : u128) (eY : Z) (lX rm : Z) : st Z Z :=
  let wbot := lX - 253 in
  let A := shl128_256 sigX (eX - wbot) in
  let shY := eY - wbot in
  let '(B, stickyY) :=
    if 0 <=? shY then (shl128_256 sigY shY, false) else shr256_jam (u256_from128 sigY) (- shY) in
  if eqb sX sY then add_finish f sX (add256 A B) wbot stickyY rm
  else
    let c := cmp256 A B in
    if 0 <? c then
      if stickyY : bool
      then add_finish f sX (sub256 (sub256 A B) (u256_from128 (mk128 0 1))) wbot true rm
      else add_finish f sX (sub256 A B) wbot false rm
    else if c <? 0 then add_finish f sY (sub256 B A) wbot stickyY rm
    else mret (make_zero f (rm =? SF_RDN)).

(** [src/softfloat.c 322-361] add_core *)
Definition add_core (f : Fmt) (sX : bool) (sigX : u128) (eX : Z)
    (sY : bool) (sigY : u128) (eY : Z) (rm : Z) : st Z Z :=
  let lX := eX + msb128 sigX in
  let lY := eY + msb128 sigY in
  if lX <? lY then add_ordered f sY sigY eY sX sigX eX lY rm
  else add_ordered f sX sigX eX sY sigY eY lX rm.

(** ** Arithmetic *)

(** The canonical NaN, raising NV.
    [src/softfloat.c 377-377] fp_add *)
Definition invalid (f : Fmt) : st Z Z := raise_flags SF_NV ;; mret (qnan_bits f).

(** [src/softfloat.c 366-391] fp_add *)
Definition fp_add (f : Fmt) (a b : Z) (sub : bool) (rm : Z) : st Z Z :=
  let ua := unpack f a in
  let ub := unpack f b in
  let bsign := xorb (u_sign ub) sub in
  if is_nan (u_cls ua) || is_nan (u_cls ub) then
    when (u_snan ua || u_snan ub) (raise_flags SF_NV) ;; mret (qnan_bits f)
  else if is_inf (u_cls ua) || is_inf (u_cls ub) then
    if is_inf (u_cls ua) && is_inf (u_cls ub) then
      if negb (eqb (u_sign ua) bsign) then invalid f else mret (make_inf f (u_sign ua))
    else mret (make_inf f (if is_inf (u_cls ua) then u_sign ua else bsign))
  else if is_zero (u_cls ua) && is_zero (u_cls ub) then
    mret (if eqb (u_sign ua) bsign then make_zero f (u_sign ua) else make_zero f (rm =? SF_RDN))
  else if is_zero (u_cls ua) then mret (if sub then b .^ sign_bit f else b)
  else if is_zero (u_cls ub) then mret a
  else add_core f (u_sign ua) (u_sig ua) (u_exp2 ua) bsign (u_sig ub) (u_exp2 ub) rm.

(** [src/softfloat.c 393-407] fp_mul *)
Definition fp_mul (f : Fmt) (a b rm : Z) : st Z Z :=
  let ua := unpack f a in
  let ub := unpack f b in
  let sign := xorb (u_sign ua) (u_sign ub) in
  if is_nan (u_cls ua) || is_nan (u_cls ub) then
    when (u_snan ua || u_snan ub) (raise_flags SF_NV) ;; mret (qnan_bits f)
  else if is_inf (u_cls ua) || is_inf (u_cls ub) then
    if is_zero (u_cls ua) || is_zero (u_cls ub) then invalid f else mret (make_inf f sign)
  else if is_zero (u_cls ua) || is_zero (u_cls ub) then mret (make_zero f sign)
  else round_mag f sign (mul64 (lo (u_sig ua)) (lo (u_sig ub))) (u_exp2 ua + u_exp2 ub) false rm.

(** [src/softfloat.c 413-417] norm_operand *)
Definition norm_operand (f : Fmt) (u : Up) : Up :=
  if negb (is_normal (u_cls u)) || is0_128 (u_sig u) then u
  else
    let shift := mantbits f - msb128 (u_sig u) in
    if 0 <? shift
    then mkUp (u_sign u) (u_cls u) (u_snan u) (shl128 (u_sig u) shift) (u_exp2 u - shift)
    else u.

(** [src/softfloat.c 419-441] fp_div *)
Definition fp_div (f : Fmt) (a b rm : Z) : st Z Z :=
  let ua := unpack f a in
  let ub := unpack f b in
  let sign := xorb (u_sign ua) (u_sign ub) in
  if is_nan (u_cls ua) || is_nan (u_cls ub) then
    when (u_snan ua || u_snan ub) (raise_flags SF_NV) ;; mret (qnan_bits f)
  else if is_inf (u_cls ua) then
    if is_inf (u_cls ub) then invalid f else mret (make_inf f sign)
  else if is_inf (u_cls ub) then mret (make_zero f sign)
  else if is_zero (u_cls ub) then
    if is_zero (u_cls ua) then invalid f
    else raise_flags SF_DZ ;; mret (make_inf f sign)
  else if is_zero (u_cls ua) then mret (make_zero f sign)
  else
    let ua := norm_operand f ua in
    let ub := norm_operand f ub in
    let P := if width f =? 32 then 28 else 61 in
    let num := shl128 (u_sig ua) P in
    let '(q, rem) := udiv128by64 num (lo (u_sig ub)) in
    round_mag f sign (mk128 0 q) (u_exp2 ua - u_exp2 ub - P) (negb (rem =? 0)) rm.

(** [src/softfloat.c 443-458] fp_sqrt *)
Definition fp_sqrt (f : Fmt) (a rm : Z) : st Z Z :=
  let ua := unpack f a in
  if is_nan (u_cls ua) then when (u_snan ua) (raise_flags SF_NV) ;; mret (qnan_bits f)
  else if is_zero (u_cls ua) then mret a
  else if u_sign ua then invalid f
  else if is_inf (u_cls ua) then mret (make_inf f false)
  else
    let ua := norm_operand f ua in
    let odd := negb (u_exp2 ua .& 1 =? 0) in
    let e := if odd then u_exp2 ua - 1 else u_exp2 ua in
    let s := if odd then shl128 (u_sig ua) 1 else u_sig ua in
    let P := if width f =? 32 then 28 else 35 in
    let rad := shl128 s (2 * P) in
    let '(root, rem_nz) := isqrt128 rad in
    round_mag f false (mk128 0 root) (Z.quot e 2 - P) rem_nz rm.

(** [src/softfloat.c 460-484] fp_muladd *)
Definition fp_muladd (f : Fmt) (a b c rm : Z) : st Z Z :=
  let ua := unpack f a in
  let ub := unpack f b in
  let uc := unpack f c in
  let psign := xorb (u_sign ua) (u_sign ub) in
  let prod_invalid := (is_inf (u_cls ua) && is_zero (u_cls ub))
                      || (is_zero (u_cls ua) && is_inf (u_cls ub)) in
  if is_nan (u_cls ua) || is_nan (u_cls ub) || is_nan (u_cls uc) || prod_invalid then
    when (u_snan ua || u_snan ub || u_snan uc || prod_invalid) (raise_flags SF_NV) ;;
    mret (qnan_bits f)
  else if is_inf (u_cls ua) || is_inf (u_cls ub) then
    if is_inf (u_cls uc) && negb (eqb (u_sign uc) psign) then invalid f
    else mret (make_inf f psign)
  else if is_inf (u_cls uc) then mret (make_inf f (u_sign uc))
  else if is_zero (u_cls ua) || is_zero (u_cls ub) then
    if is_zero (u_cls uc)
    then mret (if eqb psign (u_sign uc) then make_zero f psign else make_zero f (rm =? SF_RDN))
    else mret c
  else
    let sigP := mul64 (lo (u_sig ua)) (lo (u_sig ub)) in
    let eP := u_exp2 ua + u_exp2 ub in
    if is_zero (u_cls uc) then round_mag f psign sigP eP false rm
    else add_core f psign sigP eP (u_sign uc) (u_sig uc) (u_exp2 uc) rm.

(** ** Comparisons, minimum and maximum, classification *)

(** [src/softfloat.c 490-506] fcmp *)
Definition fcmp (f : Fmt) (a b : Z) : Z :=
  let ua := unpack f a in
  let ub := unpack f b in
  if is_zero (u_cls ua) && is_zero (u_cls ub) then 0
  else if negb (eqb (u_sign ua) (u_sign ub)) then (if u_sign ua then -1 else 1)
  else
    let mag :=
      if is_inf (u_cls ua) || is_inf (u_cls ub) then b2z (is_inf (u_cls ua)) - b2z (is_inf (u_cls ub))
      else
        let la := u_exp2 ua + (if is_zero (u_cls ua) then -100000 else msb128 (u_sig ua)) in
        let lb := u_exp2 ub + (if is_zero (u_cls ub) then -100000 else msb128 (u_sig ub)) in
        if negb (la =? lb) then (if la <? lb then -1 else 1)
        else cmp128 (shl128 (u_sig ua) (127 - msb128 (u_sig ua)))
                    (shl128 (u_sig ub) (127 - msb128 (u_sig ub))) in
    if u_sign ua then - mag else mag.

(** A quiet comparison: NV only on a signalling NaN.
    [src/softfloat.c 508-512] f32_eq *)
Definition fp_eq (f : Fmt) (a b : Z) : st Z Z :=
  let ua := unpack f a in
  let ub := unpack f b in
  if is_nan (u_cls ua) || is_nan (u_cls ub)
  then when (u_snan ua || u_snan ub) (raise_flags SF_NV) ;; mret 0
  else mret (b2z (fcmp f a b =? 0)).
(** A signalling comparison: NV on any NaN.
    [src/softfloat.c 513-517] f32_lt *)
Definition fp_lt (f : Fmt) (a b : Z) : st Z Z :=
  if is_nan (u_cls (unpack f a)) || is_nan (u_cls (unpack f b))
  then raise_flags SF_NV ;; mret 0
  else mret (b2z (fcmp f a b <? 0)).
(** [src/softfloat.c 518-522] f32_le *)
Definition fp_le (f : Fmt) (a b : Z) : st Z Z :=
  if is_nan (u_cls (unpack f a)) || is_nan (u_cls (unpack f b))
  then raise_flags SF_NV ;; mret 0
  else mret (b2z (fcmp f a b <=? 0)).

(** [src/softfloat.c 539-553] fp_minmax *)
Definition fp_minmax (f : Fmt) (a b : Z) (want_max : bool) : st Z Z :=
  let ua := unpack f a in
  let ub := unpack f b in
  if is_nan (u_cls ua) || is_nan (u_cls ub) then
    when (u_snan ua || u_snan ub) (raise_flags SF_NV) ;;
    mret (if is_nan (u_cls ua) && is_nan (u_cls ub) then qnan_bits f
          else if is_nan (u_cls ua) then b else a)
  else
    let c := fcmp f a b in
    mret (if c =? 0 then (if eqb (u_sign ua) (negb want_max) then a else b)
          else if want_max then (if 0 <? c then a else b)
          else (if c <? 0 then a else b)).

(** [src/softfloat.c 559-571] fp_classify *)
Definition fp_classify (f : Fmt) (a : Z) : Z :=
  let u := unpack f a in
  match u_cls u with
  | CLS_INF => if u_sign u then FCLASS_NEG_INF else FCLASS_POS_INF
  | CLS_ZERO => if u_sign u then FCLASS_NEG_ZERO else FCLASS_POS_ZERO
  | CLS_NAN => if u_snan u then FCLASS_SNAN else FCLASS_QNAN
  | CLS_NORMAL =>
    if (a >> mantbits f) .& (u64 (1 << expbits f) - 1) =? 0
    then (if u_sign u then FCLASS_NEG_SUBNRM else FCLASS_POS_SUBNRM)
    else (if u_sign u then FCLASS_NEG_NORMAL else FCLASS_POS_NORMAL)
  end.

(** ** Conversions *)

(** [src/softfloat.c 594-600] f32_to_f64 *)
Definition f32_to_f64 (a : Z) : st Z Z :=
  let u := unpack F32 a in
  match u_cls u with
  | CLS_NAN => when (u_snan u) (raise_flags SF_NV) ;; mret F64_QNAN
  | CLS_INF => mret (make_inf F64 (u_sign u))
  | CLS_ZERO => mret (make_zero F64 (u_sign u))
  | CLS_NORMAL => round_mag F64 (u_sign u) (u_sig u) (u_exp2 u) false SF_RNE
  end.
(** [src/softfloat.c 601-607] f64_to_f32 *)
Definition f64_to_f32 (a rm : Z) : st Z Z :=
  let u := unpack F64 a in
  match u_cls u with
  | CLS_NAN => when (u_snan u) (raise_flags SF_NV) ;; mret F32_QNAN
  | CLS_INF => mret (u32 (make_inf F32 (u_sign u)))
  | CLS_ZERO => mret (u32 (make_zero F32 (u_sign u)))
  | CLS_NORMAL => r ← round_mag F32 (u_sign u) (u_sig u) (u_exp2 u) false rm; mret (u32 r)
  end.

(** The rounded magnitude, overflow and inexactness.
    [src/softfloat.c 611-636] to_int_mag *)
Definition to_int_mag (sig exp2 : Z) (sign : bool) (rm : Z) : Z * bool * bool :=
  if sig =? 0 then (0, false, false)
  else if 0 <=? exp2 then
    if 63 <? 63 - clz64 sig + exp2 then (0, true, false) else (u64 (sig << exp2), false, false)
  else
    let rsh := - exp2 in
    let floorv := if 64 <=? rsh then 0 else sig >> rsh in
    let roundbit := if (1 <=? rsh) && (rsh <=? 64) then negb ((sig >> (rsh - 1)) .& 1 =? 0) else false in
    let belowmask := if 64 <=? rsh - 1 then u64 (-1)
                     else if 1 <=? rsh then u64 (1 << (rsh - 1)) - 1 else 0 in
    let sticky := negb (sig .& belowmask =? 0) in
    let inexact := roundbit || sticky in
    let inc :=
      if rm =? SF_RNE then roundbit && (sticky || negb (floorv .& 1 =? 0))
      else if rm =? SF_RTZ then false
      else if rm =? SF_RDN then sign && inexact
      else if rm =? SF_RUP then negb sign && inexact
      else if rm =? SF_RMM then roundbit
      else false in
    (u64 (floorv + b2z inc), false, inexact).

(** [src/softfloat.c 638-663] fp_to_int *)
Definition fp_to_int (f : Fmt) (a : Z) (is_signed : bool) (intbits rm : Z) : st Z Z :=
  let u := unpack f a in
  let mask := if 64 <=? intbits then u64 (-1) else u64 (1 << intbits) - 1 in
  let maxpos := if is_signed then u64 (1 << (intbits - 1)) - 1 else mask in
  let minneg := if is_signed then u64 (1 << (intbits - 1)) else 0 in
  match u_cls u with
  | CLS_NAN => raise_flags SF_NV ;; mret maxpos
  | CLS_ZERO => mret 0
  | CLS_INF => raise_flags SF_NV ;; mret (if u_sign u then minneg else maxpos)
  | CLS_NORMAL =>
    let '(mag, overflow, inexact) := to_int_mag (lo (u_sig u)) (u_exp2 u) (u_sign u) rm in
    if u_sign u then
      if overflow || (minneg <? mag) then raise_flags SF_NV ;; mret minneg
      else if negb is_signed && negb (mag =? 0) then raise_flags SF_NV ;; mret 0
      else when inexact (raise_flags SF_NX) ;; mret (u64 (- mag) .& mask)
    else if overflow || (maxpos <? mag) then raise_flags SF_NV ;; mret maxpos
    else when inexact (raise_flags SF_NX) ;; mret mag
  end.

(** [src/softfloat.c 674-677] int_to_fp *)
Definition int_to_fp (f : Fmt) (mag : Z) (sign : bool) (rm : Z) : st Z Z :=
  if mag =? 0 then mret 0 else round_mag f sign (mk128 0 mag) 0 false rm.

(** The magnitude a signed argument is converted from.
    [src/softfloat.c 679-679] i32_to_f32 *)
Definition int_mag (a : Z) : Z := if a <? 0 then u64 (- u64 a) else u64 a.

(** ** The typed entry points *)

(** The result cast to [f32]. *)
Definition as32 (m : st Z Z) : st Z Z := r ← m; mret (u32 r).

(** [src/softfloat.c 508-512] f32_eq *)
Definition f32_eq (a b : Z) : st Z Z := fp_eq F32 a b.
(** [src/softfloat.c 513-517] f32_lt *)
Definition f32_lt (a b : Z) : st Z Z := fp_lt F32 a b.
(** [src/softfloat.c 518-522] f32_le *)
Definition f32_le (a b : Z) : st Z Z := fp_le F32 a b.
(** [src/softfloat.c 523-527] f64_eq *)
Definition f64_eq (a b : Z) : st Z Z := fp_eq F64 a b.
(** [src/softfloat.c 528-532] f64_lt *)
Definition f64_lt (a b : Z) : st Z Z := fp_lt F64 a b.
(** [src/softfloat.c 533-537] f64_le *)
Definition f64_le (a b : Z) : st Z Z := fp_le F64 a b.
(** [src/softfloat.c 554-554] f32_min *)
Definition f32_min (a b : Z) : st Z Z := as32 (fp_minmax F32 a b false).
(** [src/softfloat.c 555-555] f32_max *)
Definition f32_max (a b : Z) : st Z Z := as32 (fp_minmax F32 a b true).
(** [src/softfloat.c 556-556] f64_min *)
Definition f64_min (a b : Z) : st Z Z := fp_minmax F64 a b false.
(** [src/softfloat.c 557-557] f64_max *)
Definition f64_max (a b : Z) : st Z Z := fp_minmax F64 a b true.
(** [src/softfloat.c 572-572] f32_classify *)
Definition f32_classify (a : Z) : Z := fp_classify F32 a.
(** [src/softfloat.c 573-573] f64_classify *)
Definition f64_classify (a : Z) : Z := fp_classify F64 a.
(** [src/softfloat.c 578-578] f32_add *)
Definition f32_add (a b rm : Z) : st Z Z := as32 (fp_add F32 a b false rm).
(** [src/softfloat.c 584-584] f64_add *)
Definition f64_add (a b rm : Z) : st Z Z := fp_add F64 a b false rm.
(** [src/softfloat.c 579-579] f32_sub *)
Definition f32_sub (a b rm : Z) : st Z Z := as32 (fp_add F32 a b true rm).
(** [src/softfloat.c 585-585] f64_sub *)
Definition f64_sub (a b rm : Z) : st Z Z := fp_add F64 a b true rm.
(** [src/softfloat.c 580-580] f32_mul *)
Definition f32_mul (a b rm : Z) : st Z Z := as32 (fp_mul F32 a b rm).
(** [src/softfloat.c 586-586] f64_mul *)
Definition f64_mul (a b rm : Z) : st Z Z := fp_mul F64 a b rm.
(** [src/softfloat.c 581-581] f32_div *)
Definition f32_div (a b rm : Z) : st Z Z := as32 (fp_div F32 a b rm).
(** [src/softfloat.c 587-587] f64_div *)
Definition f64_div (a b rm : Z) : st Z Z := fp_div F64 a b rm.
(** [src/softfloat.c 582-582] f32_sqrt *)
Definition f32_sqrt (a rm : Z) : st Z Z := as32 (fp_sqrt F32 a rm).
(** [src/softfloat.c 588-588] f64_sqrt *)
Definition f64_sqrt (a rm : Z) : st Z Z := fp_sqrt F64 a rm.
(** [src/softfloat.c 583-583] f32_muladd *)
Definition f32_muladd (a b c rm : Z) : st Z Z := as32 (fp_muladd F32 a b c rm).
(** [src/softfloat.c 589-589] f64_muladd *)
Definition f64_muladd (a b c rm : Z) : st Z Z := fp_muladd F64 a b c rm.
(** [src/softfloat.c 665-665] f32_to_i32 *)
Definition f32_to_i32 (a rm : Z) : st Z Z := r ← fp_to_int F32 a true 32 rm; mret (s32 r).
(** [src/softfloat.c 666-666] f32_to_u32 *)
Definition f32_to_u32 (a rm : Z) : st Z Z := r ← fp_to_int F32 a false 32 rm; mret (u32 r).
(** [src/softfloat.c 667-667] f32_to_i64 *)
Definition f32_to_i64 (a rm : Z) : st Z Z := r ← fp_to_int F32 a true 64 rm; mret (s64 r).
(** [src/softfloat.c 668-668] f32_to_u64 *)
Definition f32_to_u64 (a rm : Z) : st Z Z := fp_to_int F32 a false 64 rm.
(** [src/softfloat.c 669-669] f64_to_i32 *)
Definition f64_to_i32 (a rm : Z) : st Z Z := r ← fp_to_int F64 a true 32 rm; mret (s32 r).
(** [src/softfloat.c 670-670] f64_to_u32 *)
Definition f64_to_u32 (a rm : Z) : st Z Z := r ← fp_to_int F64 a false 32 rm; mret (u32 r).
(** [src/softfloat.c 671-671] f64_to_i64 *)
Definition f64_to_i64 (a rm : Z) : st Z Z := r ← fp_to_int F64 a true 64 rm; mret (s64 r).
(** [src/softfloat.c 672-672] f64_to_u64 *)
Definition f64_to_u64 (a rm : Z) : st Z Z := fp_to_int F64 a false 64 rm.
(** [src/softfloat.c 678-680] i32_to_f32 *)
Definition i32_to_f32 (a rm : Z) : st Z Z := as32 (int_to_fp F32 (int_mag a) (a <? 0) rm).
(** [src/softfloat.c 681-681] u32_to_f32 *)
Definition u32_to_f32 (a rm : Z) : st Z Z := as32 (int_to_fp F32 a false rm).
(** [src/softfloat.c 682-684] i64_to_f32 *)
Definition i64_to_f32 (a rm : Z) : st Z Z := as32 (int_to_fp F32 (int_mag a) (a <? 0) rm).
(** [src/softfloat.c 685-685] u64_to_f32 *)
Definition u64_to_f32 (a rm : Z) : st Z Z := as32 (int_to_fp F32 a false rm).
(** [src/softfloat.c 686-688] i32_to_f64 *)
Definition i32_to_f64 (a rm : Z) : st Z Z := int_to_fp F64 (int_mag a) (a <? 0) rm.
(** [src/softfloat.c 689-689] u32_to_f64 *)
Definition u32_to_f64 (a rm : Z) : st Z Z := int_to_fp F64 a false rm.
(** [src/softfloat.c 690-692] i64_to_f64 *)
Definition i64_to_f64 (a rm : Z) : st Z Z := int_to_fp F64 (int_mag a) (a <? 0) rm.
(** [src/softfloat.c 693-693] u64_to_f64 *)
Definition u64_to_f64 (a rm : Z) : st Z Z := int_to_fp F64 a false rm.
