(* ===== verification/SoftfloatRange.v ===== *)
(** * Ranges of the soft-float results

    Every operation of [src/softfloat.c] returns a bit pattern of at most 64 bits, for
    any rounding mode and any operands, which is what writing it to a register needs. *)

From S2P Require Import Prelude Softfloat.

#[local] Abbreviation any := (fun _ : Z => True).
#[local] Abbreviation bits64 m := (keeps any m (rng 64)).

Create HintDb frng discriminated.
#[export] Hint Constants Opaque : frng.

(** Decompose an operation down to the values it returns. *)
Ltac fstep :=
  cbv zeta;
  match goal with
  | |- keeps _ (mbind _ (when _ _)) _ => apply (keeps_bind _ _ _ (fun _ => True)); [by apply keeps_when|intros _ _]
  | |- keeps _ (mbind _ (raise_flags _)) _ => apply (keeps_bind _ _ _ (fun _ => True)); [done|intros _ _]
  | |- keeps _ (mret _) _ => apply keeps_ret
  | |- keeps _ (if ?b then _ else _) _ => destruct b
  | |- keeps _ (match ?x with _ => _ end) _ => destruct x
  | |- keeps _ _ _ => solve [eauto 3 with frng nocore]
  end.
Ltac frange := repeat fstep; try rng_auto.

Lemma b2z_rng b w : 1 <= w -> rng w (b2z b).
Proof. intros. apply (rng_mono 1 w); [lia|]. destruct b; unfold rng; simpl; lia. Qed.

Lemma make_inf_rng f s : rng 64 (make_inf f s).
Proof. unfold make_inf, pack_raw. rng_auto. Qed.

Lemma make_zero_rng f s : rng 64 (make_zero f s).
Proof. unfold make_zero, sign_bit. rng_auto. Qed.

Lemma qnan_bits_rng f : rng 64 (qnan_bits f).
Proof. unfold qnan_bits. rng_auto. Qed.
#[export] Hint Resolve make_inf_rng make_zero_rng qnan_bits_rng : rng.
#[export] Hint Extern 1 (rng _ (b2z _)) => apply b2z_rng; lia : rng.

Lemma roundpack_rng f s e g rm : bits64 (roundpack f s e g rm).
Proof. unfold roundpack. frange. Qed.
#[export] Hint Resolve roundpack_rng : frng.

Lemma round_mag_rng f s m e st rm : bits64 (round_mag f s m e st rm).
Proof. unfold round_mag. frange. Qed.
#[export] Hint Resolve round_mag_rng : frng.

Lemma add_finish_rng f s M w st rm : bits64 (add_finish f s M w st rm).
Proof. unfold add_finish. frange. Qed.
#[export] Hint Resolve add_finish_rng : frng.

Lemma add_core_rng f sX gX eX sY gY eY rm : bits64 (add_core f sX gX eX sY gY eY rm).
Proof.
  unfold add_core, add_ordered. cbv zeta. destruct (_ <? _);
    (destruct (if _ : bool then _ else _) as [B []]; frange).
Qed.
#[export] Hint Resolve add_core_rng : frng.

Lemma invalid_rng f : bits64 (invalid f).
Proof. unfold invalid. frange. Qed.
#[export] Hint Resolve invalid_rng : frng.

Section Ops.
Context (f : Fmt) (a b c rm : Z) (Ha : rng 64 a) (Hb : rng 64 b) (Hc : rng 64 c).

Lemma fp_add_rng sub : bits64 (fp_add f a b sub rm).
Proof. unfold fp_add, sign_bit. frange. Qed.
Lemma fp_mul_rng : bits64 (fp_mul f a b rm).
Proof. unfold fp_mul. frange. Qed.
Lemma fp_div_rng : bits64 (fp_div f a b rm).
Proof. unfold fp_div. frange. Qed.
Lemma fp_sqrt_rng : bits64 (fp_sqrt f a rm).
Proof. unfold fp_sqrt. frange. Qed.
Lemma fp_muladd_rng : bits64 (fp_muladd f a b c rm).
Proof. unfold fp_muladd. frange. Qed.
Lemma fp_minmax_rng want_max : bits64 (fp_minmax f a b want_max).
Proof. unfold fp_minmax. frange. Qed.
Lemma fp_eq_rng : bits64 (fp_eq f a b).
Proof. unfold fp_eq. frange. Qed.
Lemma fp_lt_rng : bits64 (fp_lt f a b).
Proof. unfold fp_lt. frange. Qed.
Lemma fp_le_rng : bits64 (fp_le f a b).
Proof. unfold fp_le. frange. Qed.
Lemma int_to_fp_rng mag s : bits64 (int_to_fp f mag s rm).
Proof. unfold int_to_fp. frange. Qed.
Lemma f32_to_f64_rng : bits64 (f32_to_f64 a).
Proof. unfold f32_to_f64. frange. Qed.
Lemma f64_to_f32_rng : keeps any (f64_to_f32 a rm) (rng 32).
Proof.
unfold f64_to_f32. cbv zeta. destruct (u_cls _); repeat fstep; try rng_auto.
eapply keeps_bind; [apply round_mag_rng|]. intros. apply keeps_ret. rng_auto.
Qed.
End Ops.

Lemma to_int_mag_rng sig e s rm : rng 64 (to_int_mag sig e s rm).1.1.
Proof.
  unfold to_int_mag. cbv zeta.
  repeat match goal with |- context [if ?c then (_, _, _) else _] => destruct c end; cbn [fst]; rng_auto.
Qed.

Lemma fp_to_int_rng f a sg n rm : n = 32 \/ n = 64 -> bits64 (fp_to_int f a sg n rm).
Proof.
  intros Hn. unfold fp_to_int. cbv zeta. pose proof (to_int_mag_rng (lo (u_sig (unpack f a))) (u_exp2 (unpack f a))
    (u_sign (unpack f a)) rm) as Ht.
  destruct (to_int_mag _ _ _ _) as [[mag ov] ix]. cbn [fst] in Ht.
  destruct Hn as [-> | ->], sg; frange; try destruct (u_sign _); apply rng_const; vm_compute; reflexivity.
Qed.

Lemma as32_rng m : keeps any (as32 m) (rng 32).
Proof. unfold as32. apply (keeps_bind _ _ _ (fun _ => True)); [by intros ?|]. intros. apply keeps_ret. rng_auto. Qed.

#[export] Hint Resolve fp_add_rng fp_mul_rng fp_div_rng fp_sqrt_rng fp_muladd_rng fp_minmax_rng
  fp_eq_rng fp_lt_rng fp_le_rng int_to_fp_rng f32_to_f64_rng : frng.
