(* ===== verification/Cpu.v ===== *)
(** * The hart and the machine it runs in ([src/cpu.h], [src/cpu.c], [src/decodecache.h])

    The architectural state of a hart, the state its operations reach (the shared
    memory and devices, the sibling harts, the cache model, the decode caches, the JIT)
    and the register-file primitives. *)

From S2P Require Import Prelude Decode Device Memory Cache.

(** ** Constants *)

(** [src/cpu.h 31-31] PRIV_U *)
Definition PRIV_U : Z := 0.
(** [src/cpu.h 32-32] PRIV_S *)
Definition PRIV_S : Z := 1.
(** [src/cpu.h 33-33] PRIV_M *)
Definition PRIV_M : Z := 3.
(** [src/cpu.h 41-41] MSTATUS_SIE *)
Definition MSTATUS_SIE : Z := 1 << 1.
(** [src/cpu.h 42-42] MSTATUS_MIE *)
Definition MSTATUS_MIE : Z := 1 << 3.
(** [src/cpu.h 43-43] MSTATUS_SPIE *)
Definition MSTATUS_SPIE : Z := 1 << 5.
(** [src/cpu.h 44-44] MSTATUS_MPIE *)
Definition MSTATUS_MPIE : Z := 1 << 7.
(** [src/cpu.h 45-45] MSTATUS_SPP *)
Definition MSTATUS_SPP : Z := 1 << 8.
(** [src/cpu.h 46-46] MSTATUS_MPP *)
Definition MSTATUS_MPP : Z := 3 << 11.
(** [src/cpu.h 47-47] MSTATUS_MPRV *)
Definition MSTATUS_MPRV : Z := 1 << 17.
(** [src/cpu.h 48-48] MSTATUS_SUM *)
Definition MSTATUS_SUM : Z := 1 << 18.
(** [src/cpu.h 49-49] MSTATUS_MXR *)
Definition MSTATUS_MXR : Z := 1 << 19.
(** [src/cpu.h 50-50] MSTATUS_MPP_SHIFT *)
Definition MSTATUS_MPP_SHIFT : Z := 11.
(** [src/cpu.h 55-55] MSTATUS_FS *)
Definition MSTATUS_FS : Z := 3 << 13.
(** [src/cpu.h 56-56] MSTATUS_FS_SHIFT *)
Definition MSTATUS_FS_SHIFT : Z := 13.
(** [src/cpu.h 64-64] CAUSE_INSN_MISALIGNED *)
Definition CAUSE_INSN_MISALIGNED : Z := 0.
(** [src/cpu.h 65-65] CAUSE_INSN_ACCESS *)
Definition CAUSE_INSN_ACCESS : Z := 1.
(** [src/cpu.h 66-66] CAUSE_ILLEGAL_INSN *)
Definition CAUSE_ILLEGAL_INSN : Z := 2.
(** [src/cpu.h 67-67] CAUSE_BREAKPOINT *)
Definition CAUSE_BREAKPOINT : Z := 3.
(** [src/cpu.h 68-68] CAUSE_LOAD_MISALIGNED *)
Definition CAUSE_LOAD_MISALIGNED : Z := 4.
(** [src/cpu.h 69-69] CAUSE_LOAD_ACCESS *)
Definition CAUSE_LOAD_ACCESS : Z := 5.
(** [src/cpu.h 70-70] CAUSE_STORE_MISALIGNED *)
Definition CAUSE_STORE_MISALIGNED : Z := 6.
(** [src/cpu.h 71-71] CAUSE_STORE_ACCESS *)
Definition CAUSE_STORE_ACCESS : Z := 7.
(** [src/cpu.h 72-72] CAUSE_ECALL_U *)
Definition CAUSE_ECALL_U : Z := 8.
(** [src/cpu.h 73-73] CAUSE_ECALL_S *)
Definition CAUSE_ECALL_S : Z := 9.
(** [src/cpu.h 74-74] CAUSE_ECALL_M *)
Definition CAUSE_ECALL_M : Z := 11.
(** [src/cpu.h 75-75] CAUSE_INSN_PAGE_FAULT *)
Definition CAUSE_INSN_PAGE_FAULT : Z := 12.
(** [src/cpu.h 76-76] CAUSE_LOAD_PAGE_FAULT *)
Definition CAUSE_LOAD_PAGE_FAULT : Z := 13.
(** [src/cpu.h 77-77] CAUSE_STORE_PAGE_FAULT *)
Definition CAUSE_STORE_PAGE_FAULT : Z := 15.
(** [src/cpu.h 120-120] HSM_STARTED *)
Definition HSM_STARTED : Z := 0.
(** [src/cpu.h 121-121] HSM_STOPPED *)
Definition HSM_STOPPED : Z := 1.
(** [src/cpu.h 122-122] HSM_START_PENDING *)
Definition HSM_START_PENDING : Z := 2.
(** [src/cpu.h 123-123] HSM_STOP_PENDING *)
Definition HSM_STOP_PENDING : Z := 3.
(** [src/cpu.h 124-124] HSM_SUSPENDED *)
Definition HSM_SUSPENDED : Z := 4.
(** [src/cpu.h 125-125] HSM_SUSPEND_PENDING *)
Definition HSM_SUSPEND_PENDING : Z := 5.
(** [src/cpu.h 126-126] HSM_RESUME_PENDING *)
Definition HSM_RESUME_PENDING : Z := 6.
(** [src/cpu.h 89-89] TLB_ENTRIES *)
Definition TLB_ENTRIES : Z := 16.
(** [src/decodecache.h 53-53] DC_SIZE *)
Definition DC_SIZE : Z := 1 << 16.

(** ** Data *)

(** [src/cpu.h 82-82] AccessType *)
Inductive AccessType := ACC_FETCH | ACC_LOAD | ACC_STORE.

(** [src/cpu.h 104-112] HaltReason *)
Inductive HaltReason :=
| HALT_NONE
| HALT_EXIT
| HALT_EBREAK
| HALT_ILLEGAL_INSN
| HALT_UNIMP_SYSTEM
| HALT_UNKNOWN_SYSCALL
| HALT_MEM_FAULT.

#[export] Instance HaltReason_eq_dec : EqDecision HaltReason.
Proof. solve_decision. Defined.
#[export] Instance AccessType_eq_dec : EqDecision AccessType.
Proof. solve_decision. Defined.

(** [src/cpu.h 90-96] TlbEntry *)
Record TlbEntry := mkTlbEntry {
  t_valid : bool;
  t_vpn : Z;
  t_asid : Z;
  t_ppn : Z;
  t_flags : Z
}.
Definition set_t_valid (v : bool) (r : TlbEntry) : TlbEntry :=
  mkTlbEntry v (t_vpn r) (t_asid r) (t_ppn r) (t_flags r).
Definition set_t_vpn (v : Z) (r : TlbEntry) : TlbEntry :=
  mkTlbEntry (t_valid r) v (t_asid r) (t_ppn r) (t_flags r).
Definition set_t_asid (v : Z) (r : TlbEntry) : TlbEntry :=
  mkTlbEntry (t_valid r) (t_vpn r) v (t_ppn r) (t_flags r).
Definition set_t_ppn (v : Z) (r : TlbEntry) : TlbEntry :=
  mkTlbEntry (t_valid r) (t_vpn r) (t_asid r) v (t_flags r).
Definition set_t_flags (v : Z) (r : TlbEntry) : TlbEntry :=
  mkTlbEntry (t_valid r) (t_vpn r) (t_asid r) (t_ppn r) v.

(** [src/decodecache.h 41-46] DecodedInsn *)
Record DecodedInsn := mkDecodedInsn {
  di_gen : Z;
  di_pa : Z;
  di_inst : Z;
  di_ilen : Z
}.

(** [src/decodecache.h 56-59] DecodeCache *)
Record DecodeCache := mkDecodeCache {
  dc_gen : Z;
  dc_slots : gmap Z DecodedInsn
}.
Definition set_dc_gen (v : Z) (r : DecodeCache) : DecodeCache :=
  mkDecodeCache v (dc_slots r).
Definition set_dc_slots (v : gmap Z DecodedInsn) (r : DecodeCache) : DecodeCache :=
  mkDecodeCache (dc_gen r) v.

(** The part of the JIT a hart reaches: FENCE.I flushes it. *)
(** [src/jit.c 85-91] Jit *)
Record Jit := mkJit {
  j_gen : Z;
  j_used : Z
}.

(** A hart.  The pointers [cache], [dcache] and [jit] are present or NULL; what they
    designate is in [World].
    [src/cpu.h 129-155] CPU *)
Record CPU := mkCPU {
  c_regs : arr;
  c_fregs : arr;
  c_pc : Z;
  c_xlen : Z;
  c_hartid : Z;
  c_cache : bool;
  c_dcache : bool;
  c_jit : bool;
  c_halted : bool;
  c_halt_reason : HaltReason;
  c_exit_code : Z;
  c_instret : Z;
  c_priv : Z;
  c_trapped : bool;
  c_sbi_timer_armed : bool;
  c_hsm_state : Z;
  c_reserve_valid : bool;
  c_reserve_addr : Z;
  c_tlb : gmap Z TlbEntry;
  c_tlb_next : Z;
  c_csr : arr
}.
Definition set_c_regs (v : arr) (r : CPU) : CPU :=
  mkCPU v (c_fregs r) (c_pc r) (c_xlen r) (c_hartid r) (c_cache r) (c_dcache r) (c_jit r) (c_halted r) (c_halt_reason r) (c_exit_code r) (c_instret r) (c_priv r) (c_trapped r) (c_sbi_timer_armed r) (c_hsm_state r) (c_reserve_valid r) (c_reserve_addr r) (c_tlb r) (c_tlb_next r) (c_csr r).
Definition set_c_fregs (v : arr) (r : CPU) : CPU :=
  mkCPU (c_regs r) v (c_pc r) (c_xlen r) (c_hartid r) (c_cache r) (c_dcache r) (c_jit r) (c_halted r) (c_halt_reason r) (c_exit_code r) (c_instret r) (c_priv r) (c_trapped r) (c_sbi_timer_armed r) (c_hsm_state r) (c_reserve_valid r) (c_reserve_addr r) (c_tlb r) (c_tlb_next r) (c_csr r).
Definition set_c_pc (v : Z) (r : CPU) : CPU :=
  mkCPU (c_regs r) (c_fregs r) v (c_xlen r) (c_hartid r) (c_cache r) (c_dcache r) (c_jit r) (c_halted r) (c_halt_reason r) (c_exit_code r) (c_instret r) (c_priv r) (c_trapped r) (c_sbi_timer_armed r) (c_hsm_state r) (c_reserve_valid r) (c_reserve_addr r) (c_tlb r) (c_tlb_next r) (c_csr r).
Definition set_c_xlen (v : Z) (r : CPU) : CPU :=
  mkCPU (c_regs r) (c_fregs r) (c_pc r) v (c_hartid r) (c_cache r) (c_dcache r) (c_jit r) (c_halted r) (c_halt_reason r) (c_exit_code r) (c_instret r) (c_priv r) (c_trapped r) (c_sbi_timer_armed r) (c_hsm_state r) (c_reserve_valid r) (c_reserve_addr r) (c_tlb r) (c_tlb_next r) (c_csr r).
Definition set_c_hartid (v : Z) (r : CPU) : CPU :=
  mkCPU (c_regs r) (c_fregs r) (c_pc r) (c_xlen r) v (c_cache r) (c_dcache r) (c_jit r) (c_halted r) (c_halt_reason r) (c_exit_code r) (c_instret r) (c_priv r) (c_trapped r) (c_sbi_timer_armed r) (c_hsm_state r) (c_reserve_valid r) (c_reserve_addr r) (c_tlb r) (c_tlb_next r) (c_csr r).
Definition set_c_cache (v : bool) (r : CPU) : CPU :=
  mkCPU (c_regs r) (c_fregs r) (c_pc r) (c_xlen r) (c_hartid r) v (c_dcache r) (c_jit r) (c_halted r) (c_halt_reason r) (c_exit_code r) (c_instret r) (c_priv r) (c_trapped r) (c_sbi_timer_armed r) (c_hsm_state r) (c_reserve_valid r) (c_reserve_addr r) (c_tlb r) (c_tlb_next r) (c_csr r).
Definition set_c_dcache (v : bool) (r : CPU) : CPU :=
  mkCPU (c_regs r) (c_fregs r) (c_pc r) (c_xlen r) (c_hartid r) (c_cache r) v (c_jit r) (c_halted r) (c_halt_reason r) (c_exit_code r) (c_instret r) (c_priv r) (c_trapped r) (c_sbi_timer_armed r) (c_hsm_state r) (c_reserve_valid r) (c_reserve_addr r) (c_tlb r) (c_tlb_next r) (c_csr r).
Definition set_c_jit (v : bool) (r : CPU) : CPU :=
  mkCPU (c_regs r) (c_fregs r) (c_pc r) (c_xlen r) (c_hartid r) (c_cache r) (c_dcache r) v (c_halted r) (c_halt_reason r) (c_exit_code r) (c_instret r) (c_priv r) (c_trapped r) (c_sbi_timer_armed r) (c_hsm_state r) (c_reserve_valid r) (c_reserve_addr r) (c_tlb r) (c_tlb_next r) (c_csr r).
Definition set_c_halted (v : bool) (r : CPU) : CPU :=
  mkCPU (c_regs r) (c_fregs r) (c_pc r) (c_xlen r) (c_hartid r) (c_cache r) (c_dcache r) (c_jit r) v (c_halt_reason r) (c_exit_code r) (c_instret r) (c_priv r) (c_trapped r) (c_sbi_timer_armed r) (c_hsm_state r) (c_reserve_valid r) (c_reserve_addr r) (c_tlb r) (c_tlb_next r) (c_csr r).
Definition set_c_halt_reason (v : HaltReason) (r : CPU) : CPU :=
  mkCPU (c_regs r) (c_fregs r) (c_pc r) (c_xlen r) (c_hartid r) (c_cache r) (c_dcache r) (c_jit r) (c_halted r) v (c_exit_code r) (c_instret r) (c_priv r) (c_trapped r) (c_sbi_timer_armed r) (c_hsm_state r) (c_reserve_valid r) (c_reserve_addr r) (c_tlb r) (c_tlb_next r) (c_csr r).
Definition set_c_exit_code (v : Z) (r : CPU) : CPU :=
  mkCPU (c_regs r) (c_fregs r) (c_pc r) (c_xlen r) (c_hartid r) (c_cache r) (c_dcache r) (c_jit r) (c_halted r) (c_halt_reason r) v (c_instret r) (c_priv r) (c_trapped r) (c_sbi_timer_armed r) (c_hsm_state r) (c_reserve_valid r) (c_reserve_addr r) (c_tlb r) (c_tlb_next r) (c_csr r).
Definition set_c_instret (v : Z) (r : CPU) : CPU :=
  mkCPU (c_regs r) (c_fregs r) (c_pc r) (c_xlen r) (c_hartid r) (c_cache r) (c_dcache r) (c_jit r) (c_halted r) (c_halt_reason r) (c_exit_code r) v (c_priv r) (c_trapped r) (c_sbi_timer_armed r) (c_hsm_state r) (c_reserve_valid r) (c_reserve_addr r) (c_tlb r) (c_tlb_next r) (c_csr r).
Definition set_c_priv (v : Z) (r : CPU) : CPU :=
  mkCPU (c_regs r) (c_fregs r) (c_pc r) (c_xlen r) (c_hartid r) (c_cache r) (c_dcache r) (c_jit r) (c_halted r) (c_halt_reason r) (c_exit_code r) (c_instret r) v (c_trapped r) (c_sbi_timer_armed r) (c_hsm_state r) (c_reserve_valid r) (c_reserve_addr r) (c_tlb r) (c_tlb_next r) (c_csr r).
Definition set_c_trapped (v : bool) (r : CPU) : CPU :=
  mkCPU (c_regs r) (c_fregs r) (c_pc r) (c_xlen r) (c_hartid r) (c_cache r) (c_dcache r) (c_jit r) (c_halted r) (c_halt_reason r) (c_exit_code r) (c_instret r) (c_priv r) v (c_sbi_timer_armed r) (c_hsm_state r) (c_reserve_valid r) (c_reserve_addr r) (c_tlb r) (c_tlb_next r) (c_csr r).
Definition set_c_sbi_timer_armed (v : bool) (r : CPU) : CPU :=
  mkCPU (c_regs r) (c_fregs r) (c_pc r) (c_xlen r) (c_hartid r) (c_cache r) (c_dcache r) (c_jit r) (c_halted r) (c_halt_reason r) (c_exit_code r) (c_instret r) (c_priv r) (c_trapped r) v (c_hsm_state r) (c_reserve_valid r) (c_reserve_addr r) (c_tlb r) (c_tlb_next r) (c_csr r).
Definition set_c_hsm_state (v : Z) (r : CPU) : CPU :=
  mkCPU (c_regs r) (c_fregs r) (c_pc r) (c_xlen r) (c_hartid r) (c_cache r) (c_dcache r) (c_jit r) (c_halted r) (c_halt_reason r) (c_exit_code r) (c_instret r) (c_priv r) (c_trapped r) (c_sbi_timer_armed r) v (c_reserve_valid r) (c_reserve_addr r) (c_tlb r) (c_tlb_next r) (c_csr r).
Definition set_c_reserve_valid (v : bool) (r : CPU) : CPU :=
  mkCPU (c_regs r) (c_fregs r) (c_pc r) (c_xlen r) (c_hartid r) (c_cache r) (c_dcache r) (c_jit r) (c_halted r) (c_halt_reason r) (c_exit_code r) (c_instret r) (c_priv r) (c_trapped r) (c_sbi_timer_armed r) (c_hsm_state r) v (c_reserve_addr r) (c_tlb r) (c_tlb_next r) (c_csr r).
Definition set_c_reserve_addr (v : Z) (r : CPU) : CPU :=
  mkCPU (c_regs r) (c_fregs r) (c_pc r) (c_xlen r) (c_hartid r) (c_cache r) (c_dcache r) (c_jit r) (c_halted r) (c_halt_reason r) (c_exit_code r) (c_instret r) (c_priv r) (c_trapped r) (c_sbi_timer_armed r) (c_hsm_state r) (c_reserve_valid r) v (c_tlb r) (c_tlb_next r) (c_csr r).
Definition set_c_tlb (v : gmap Z TlbEntry) (r : CPU) : CPU :=
  mkCPU (c_regs r) (c_fregs r) (c_pc r) (c_xlen r) (c_hartid r) (c_cache r) (c_dcache r) (c_jit r) (c_halted r) (c_halt_reason r) (c_exit_code r) (c_instret r) (c_priv r) (c_trapped r) (c_sbi_timer_armed r) (c_hsm_state r) (c_reserve_valid r) (c_reserve_addr r) v (c_tlb_next r) (c_csr r).
Definition set_c_tlb_next (v : Z) (r : CPU) : CPU :=
  mkCPU (c_regs r) (c_fregs r) (c_pc r) (c_xlen r) (c_hartid r) (c_cache r) (c_dcache r) (c_jit r) (c_halted r) (c_halt_reason r) (c_exit_code r) (c_instret r) (c_priv r) (c_trapped r) (c_sbi_timer_armed r) (c_hsm_state r) (c_reserve_valid r) (c_reserve_addr r) (c_tlb r) v (c_csr r).
Definition set_c_csr (v : arr) (r : CPU) : CPU :=
  mkCPU (c_regs r) (c_fregs r) (c_pc r) (c_xlen r) (c_hartid r) (c_cache r) (c_dcache r) (c_jit r) (c_halted r) (c_halt_reason r) (c_exit_code r) (c_instret r) (c_priv r) (c_trapped r) (c_sbi_timer_armed r) (c_hsm_state r) (c_reserve_valid r) (c_reserve_addr r) (c_tlb r) (c_tlb_next r) v.

(** Everything a [CPU *] reaches: the array of harts (an absent entry is the zeroed
    memory of [calloc]), the shared memory with its devices, the cache model, the decode
    cache of each hart (absent: not allocated) and the JIT.  A [CPU *] is an index. *)
Record World := mkWorld {
  w_harts : gmap Z CPU;
  w_bus : Bus;
  w_cache : Cache;
  w_dcaches : gmap Z DecodeCache;
  w_jit : Jit
}.
Definition set_w_harts (v : gmap Z CPU) (r : World) : World :=
  mkWorld v (w_bus r) (w_cache r) (w_dcaches r) (w_jit r).
Definition set_w_bus (v : Bus) (r : World) : World :=
  mkWorld (w_harts r) v (w_cache r) (w_dcaches r) (w_jit r).
Definition set_w_cache (v : Cache) (r : World) : World :=
  mkWorld (w_harts r) (w_bus r) v (w_dcaches r) (w_jit r).
Definition set_w_dcaches (v : gmap Z DecodeCache) (r : World) : World :=
  mkWorld (w_harts r) (w_bus r) (w_cache r) v (w_jit r).
Definition set_w_jit (v : Jit) (r : World) : World :=
  mkWorld (w_harts r) (w_bus r) (w_cache r) (w_dcaches r) v.

(** A zeroed [CPU]. *)
Definition CPU0 : CPU :=
  mkCPU ∅ ∅ 0 0 0 false false false false HALT_NONE 0 0 0 false false 0 false 0 ∅ 0 ∅.
Definition hart (h : Z) (w : World) : CPU := default CPU0 (w_harts w !! h).
Definition upd_hart (h : Z) (f : CPU -> CPU) (w : World) : World :=
  set_w_harts (<[h := f (hart h w)]> (w_harts w)) w.
Definition tlb_slot (c : CPU) (i : Z) : TlbEntry := default (mkTlbEntry false 0 0 0 0) (c_tlb c !! i).
Definition dc_slot (d : DecodeCache) (i : Z) : DecodedInsn := default (mkDecodedInsn 0 0 0 0) (dc_slots d !! i).

(** A hart-local update, and an access to the shared memory. *)
Definition cpu_upd (h : Z) (f : CPU -> CPU) : st World unit := modify (upd_hart h f).
Definition bus {A} (m : st Bus A) : st World A :=
  fun w => let '(a, b) := m (w_bus w) in (a, set_w_bus b w).

(** The CSR file. *)
Definition csr (c : CPU) (i : Z) : Z := (c_csr c).[i].
Definition set_csr (i v : Z) (c : CPU) : CPU := set_c_csr (aset i v (c_csr c)) c.

(** The C cast [(uint64_t)(int64_t)(intN_t)v]. *)
Definition sx (n v : Z) : Z := u64 (sgn n v).

(** ** Register file and reset *)

(** [src/cpu.c 52-54] sext_xlen *)
Definition sext_xlen (c : CPU) (v : Z) : Z := if c_xlen c =? 32 then u64 (s32 v) else v.

(** [src/cpu.c 59-61] cause_interrupt *)
Definition cause_interrupt (c : CPU) : Z := u64 (1 << (c_xlen c - 1)).

(** [src/cpu.c 94-96] reg_read *)
Definition reg_read (c : CPU) (i : Z) : Z := if i =? 0 then 0 else (c_regs c).[i].

(** [src/cpu.c 98-100] reg_write *)
Definition reg_write (i value : Z) (c : CPU) : CPU :=
  if i =? 0 then c else set_c_regs (aset i (sext_xlen c value) (c_regs c)) c.

(** [src/mmu.c 198-201] mmu_flush *)
Definition mmu_flush (c : CPU) : CPU :=
  set_c_tlb_next 0 (foldl (fun c i => set_c_tlb (<[i := set_t_valid false (tlb_slot c i)]> (c_tlb c)) c)
                          c (zseq 0 16)).

(** The zeroing loops of the register files and the [memset] of the CSRs leave every
    entry 0.
    [src/cpu.c 63-92] cpu_init *)
Definition cpu_init (entry_pc xl : Z) (c : CPU) : CPU :=
  let mxl := if xl =? 64 then 2 else 1 in
  c |> set_c_xlen xl |> set_c_regs ∅ |> set_c_fregs ∅ |> set_c_pc entry_pc |> set_c_hartid 0
    |> set_c_cache false |> set_c_dcache false |> set_c_jit false
    |> set_c_halted false |> set_c_halt_reason HALT_NONE |> set_c_exit_code 0 |> set_c_instret 0
    |> set_c_priv PRIV_M |> set_c_trapped false |> set_c_sbi_timer_armed false
    |> set_c_hsm_state HSM_STARTED |> set_c_reserve_valid false |> set_c_reserve_addr 0
    |> mmu_flush |> set_c_csr ∅
    |> set_csr CSR_MISA (u64 (mxl << (xl - 2))
         .| (1 << 1) .| (1 << 2) .| (1 << 3) .| (1 << 5)
         .| (1 << 8) .| (1 << 12) .| (1 << 18) .| (1 << 20)).

(** [src/cpu.c 113-113] break_reservation *)
Definition break_one (word : Z) (c : CPU) : CPU :=
  if c_reserve_valid c && (c_reserve_addr c =? word) then set_c_reserve_valid false c else c.

(** [src/cpu.c 107-118] break_reservation *)
Definition break_reservation (h addr : Z) : st World unit :=
  let word := addr .& u64 (Z.lnot 3) in
  b ← gets w_bus;
  if b_has_plat b && has_harts (b_plat b) && (1 <? nharts (b_plat b)) then
    for_ (Z.to_nat (nharts (b_plat b))) 0 (fun i => cpu_upd i (break_one word))
  else cpu_upd h (break_one word).

(** [if (cpu->cache) cache_access(cpu->cache, pa, is_store)]
    [src/cpu.c 669-669] exec_load *)
Definition observe_cache (h pa : Z) (is_store : bool) : st World unit :=
  c ← gets (hart h);
  when (c_cache c) (modify (fun w => set_w_cache (cache_access (u32 pa) is_store (w_cache w)) w)).

(** [src/decodecache.c 10-14] dcache_new *)
Definition dcache_new : DecodeCache := mkDecodeCache 1 ∅.

(** [src/decodecache.h 54-54] DC_INDEX *)
Definition DC_INDEX (pa : Z) : Z := u32 (pa >> 1) .& u32 (DC_SIZE - 1).

(** [src/decodecache.h 71-73] dcache_flush *)
Definition dcache_flush (d : DecodeCache) : DecodeCache := set_dc_gen (u64 (dc_gen d + 1)) d.

(** [src/jit.c 123-127] jit_flush *)
Definition jit_flush (j : Jit) : Jit := mkJit (u64 (j_gen j + 1)) 0.
