(* ===== verification/Mmu.v ===== *)
(** * Virtual memory ([src/mmu.c], [src/mmu.h])

    Sv32 and Sv39 address translation: the page-table walk with hardware
    accessed/dirty maintenance, and the direct-mapped TLB in front of it. *)

From S2P Require Import Prelude Decode Device Memory Cpu.

(** ** Operations *)

(** [src/mmu.c 37-37] PT_BARE *)
Inductive Scheme := PT_BARE | PT_SV32 | PT_SV39 | PT_UNSUPPORTED.

(** [src/mmu.c 40-40] SATP32_MODE *)
Definition SATP32_MODE : Z := 0x80000000.
(** [src/mmu.c 41-41] SATP64_MODE_SV39 *)
Definition SATP64_MODE_SV39 : Z := 8.
(** [src/mmu.c 45-45] PTE_V *)
Definition PTE_V : Z := 1 << 0.
(** [src/mmu.c 45-45] PTE_R *)
Definition PTE_R : Z := 1 << 1.
(** [src/mmu.c 45-45] PTE_W *)
Definition PTE_W : Z := 1 << 2.
(** [src/mmu.c 45-45] PTE_X *)
Definition PTE_X : Z := 1 << 3.
(** [src/mmu.c 46-46] PTE_U *)
Definition PTE_U : Z := 1 << 4.
(** [src/mmu.c 46-46] PTE_A *)
Definition PTE_A : Z := 1 << 6.
(** [src/mmu.c 46-46] PTE_D *)
Definition PTE_D : Z := 1 << 7.

(** The C truth value of a masked word. *)
Definition has (x m : Z) : bool := negb (x .& m =? 0).

(** [src/mmu.c 50-58] satp_mode *)
Definition satp_mode (c : CPU) (satp : Z) : Scheme :=
  if c_xlen c =? 32 then if has (u32 satp) SATP32_MODE then PT_SV32 else PT_BARE
  else
    let m := (satp >> 60) .& 0xf in
    if m =? 0 then PT_BARE
    else if m =? SATP64_MODE_SV39 then PT_SV39
    else PT_UNSUPPORTED.

(** [src/mmu.c 60-62] mmu_satp_supported *)
Definition mmu_satp_supported (c : CPU) (val : Z) : bool :=
  match satp_mode c val with PT_UNSUPPORTED => false | _ => true end.

(** [src/mmu.c 65-69] pf_cause *)
Definition pf_cause (acc : AccessType) : Z :=
  match acc with
  | ACC_FETCH => CAUSE_INSN_PAGE_FAULT
  | ACC_STORE => CAUSE_STORE_PAGE_FAULT
  | ACC_LOAD => CAUSE_LOAD_PAGE_FAULT
  end.

(** [src/mmu.c 74-79] eff_priv *)
Definition eff_priv (c : CPU) (acc : AccessType) : Z :=
  let s := u32 (csr c CSR_MSTATUS) in
  if negb (bool_decide (acc = ACC_FETCH)) && has s MSTATUS_MPRV
  then (s .& MSTATUS_MPP) >> MSTATUS_MPP_SHIFT
  else c_priv c.

(** [src/mmu.c 85-101] perm_ok *)
Definition perm_ok (c : CPU) (pte : Z) (acc : AccessType) (priv : Z) : bool :=
  let s := u32 (csr c CSR_MSTATUS) in
  let denied :=
    if priv =? PRIV_U then negb (has pte PTE_U)
    else has pte PTE_U && (bool_decide (acc = ACC_FETCH) || negb (has s MSTATUS_SUM)) in
  if denied then false
  else match acc with
       | ACC_FETCH => has pte PTE_X
       | ACC_LOAD => has pte PTE_R || (has s MSTATUS_MXR && has pte PTE_X)
       | ACC_STORE => has pte PTE_W
       end.

(** The parameters of a paging scheme. *)
Record Paging := mkPaging {
  levels : nat;
  ptesize : Z;
  vpnbits : Z;
  ppnmask : Z
}.

(** [src/mmu.c 120-129] mmu_translate *)
Definition paging (s : Scheme) : Paging :=
  match s with
  | PT_SV32 => mkPaging 2 4 10 0x3fffff
  | _ => mkPaging 3 8 9 0xfffffffffff
  end.

(** [src/mmu.c 122-129] mmu_translate *)
Definition satp_asid (s : Scheme) (satp : Z) : Z :=
  match s with PT_SV32 => (satp >> 22) .& 0x1ff | _ => (satp >> 44) .& 0xffff end.

(** The canonical-address check of Sv39.
    [src/mmu.c 132-133] mmu_translate *)
Definition canonical (s : Scheme) (va : Z) : bool :=
  match s with PT_SV39 => u64 (s64 (u64 (va << 25)) >> 25) =? va | _ => true end.

(** [src/mmu.c 160-161] mmu_translate *)
Definition read_pte (pg : Paging) (pte_addr : Z) : st Bus Z :=
  if ptesize pg =? 4 then mem_read32 pte_addr else mem_read64 pte_addr.

(** [src/mmu.c 185-186] mmu_translate *)
Definition write_pte (pg : Paging) (pte_addr newpte : Z) : st Bus unit :=
  if ptesize pg =? 4 then mem_write32 pte_addr (u32 newpte) else mem_write64 pte_addr newpte.

(** [src/mmu.c 158-159] mmu_translate *)
Definition pte_address (pg : Paging) (va : Z) (level : nat) (a : Z) : Z :=
  let idx := (va >> (12 + Z.of_nat level * vpnbits pg)) .& u32 (u32 (1 << vpnbits pg) - 1) in
  u64 (a + idx * ptesize pg).

(** The table an entry points to.
    [src/mmu.c 167-167] mmu_translate *)
Definition pte_next (pg : Paging) (pte : Z) : Z := u64 (((pte >> 10) .& ppnmask pg) << 12).

(** The walk from level [level] with the table at [a]: the leaf with its level and its
    address, or [None] for a page fault.
    [src/mmu.c 157-168] mmu_translate *)
Fixpoint mmu_walk (pg : Paging) (va : Z) (level : nat) (a : Z) : st Bus (option (nat * Z * Z)) :=
  let pte_addr := pte_address pg va level a in
  pte ← read_pte pg pte_addr;
  f ← gets b_fault;
  if f : bool then modify (set_b_fault false) ;; mret None
  else if negb (has pte PTE_V) || (negb (has pte PTE_R) && has pte PTE_W) then mret None
  else if has pte (PTE_R .| PTE_X) then mret (Some (level, pte, pte_addr))
  else match level with
       | O => mret None
       | S level' => mmu_walk pg va level' (pte_next pg pte)
       end.

(** The physical page number a leaf at [level] gives, or [None] for a misaligned
    superpage.
    [src/mmu.c 175-180] mmu_translate *)
Definition leaf_ppn (pg : Paging) (va : Z) (level : nat) (pte : Z) : option Z :=
  let ppn := (pte >> 10) .& ppnmask pg in
  match level with
  | O => Some ppn
  | S _ =>
    let low := u64 (u64 (1 << (Z.of_nat level * vpnbits pg)) - 1) in
    if has ppn low then None
    else Some ((ppn .& u64 (Z.lnot low)) .| ((va >> 12) .& low))
  end.

(** [src/mmu.c 183-183] mmu_translate *)
Definition new_pte (pte : Z) (acc : AccessType) : Z :=
  pte .| PTE_A .| (if bool_decide (acc = ACC_STORE) then PTE_D else 0).

(** The outcome of a translation: a page-fault cause or a physical address. *)
Inductive Trans := Fault (cause : Z) | Phys (pa : Z).

(** [src/mmu.c 144-144] mmu_translate *)
Definition tlb_index (vpn : Z) : Z := vpn .& (TLB_ENTRIES - 1).

(** [src/mmu.c 145-146] mmu_translate *)
Definition tlb_hit (e : TlbEntry) (vpn asid : Z) (acc : AccessType) : bool :=
  t_valid e && (t_vpn e =? vpn) && (t_asid e =? asid)
  && (negb (bool_decide (acc = ACC_STORE)) || has (t_flags e) PTE_D).

(** From a successful walk on: permissions, the physical page, accessed/dirty, the TLB
    fill.
    [src/mmu.c 170-195] mmu_translate *)
Definition finish_walk (h : Z) (s : Scheme) (va : Z) (acc : AccessType) (priv asid : Z)
    (leaf : nat * Z * Z) : st World Trans :=
  let '(level, pte, pte_addr) := leaf in
  let pg := paging s in
  let vpn := va >> 12 in
  c ← gets (hart h);
  if negb (perm_ok c (u32 pte) acc priv) then mret (Fault (pf_cause acc))
  else
    match leaf_ppn pg va level pte with
    | None => mret (Fault (pf_cause acc))
    | Some ppn =>
      let newpte := new_pte pte acc in
      when (negb (newpte =? pte)) (bus (write_pte pg pte_addr newpte)) ;;
      cpu_upd h (fun c => set_c_tlb (<[tlb_index vpn :=
        mkTlbEntry true vpn (u32 asid) ppn (u32 (newpte .& 0xff))]> (c_tlb c)) c) ;;
      mret (Phys (u64 (ppn << 12) .| (va .& 0xfff)))
    end.

(** [src/mmu.c 103-196] mmu_translate *)
Definition mmu_translate (h va : Z) (acc : AccessType) : st World Trans :=
  c ← gets (hart h);
  let satp := csr c CSR_SATP in
  let priv := eff_priv c acc in
  let va := if c_xlen c =? 32 then va .& 0xffffffff else va in
  let s := satp_mode c satp in
  if (priv =? PRIV_M) || match s with PT_BARE | PT_UNSUPPORTED => true | _ => false end then
    mret (Phys va)
  else
    let pg := paging s in
    let asid := satp_asid s satp in
    if negb (canonical s va) then mret (Fault (pf_cause acc))
    else
      let vpn := va >> 12 in
      let e := tlb_slot c (tlb_index vpn) in
      if tlb_hit e vpn asid acc then
        if negb (perm_ok c (t_flags e) acc priv) then mret (Fault (pf_cause acc))
        else mret (Phys (u64 (t_ppn e << 12) .| (va .& 0xfff)))
      else
        leaf ← bus (mmu_walk pg va (levels pg - 1) (u64 ((satp .& ppnmask pg) << 12)));
        match leaf with
        | None => mret (Fault (pf_cause acc))
        | Some l => finish_walk h s va acc priv asid l
        end.
