(* ===== verification/See.v ===== *)
(** * The built-in execution environment ([src/syscall.c], [src/sbi.c])

    What an environment call does when the guest has installed no trap handler: the
    newlib system calls for bare U/M-mode programs, and the SBI firmware interface for
    S-mode ones. *)

From S2P Require Import Prelude Decode Device Memory Cpu.

(** ** Constants *)

(** [src/sbi.c 17-17] REG_A0 *)
Definition REG_A0 : Z := 10.
(** [src/sbi.c 17-17] REG_A1 *)
Definition REG_A1 : Z := 11.
(** [src/sbi.c 17-17] REG_A2 *)
Definition REG_A2 : Z := 12.
(** [src/sbi.c 17-17] REG_A6 *)
Definition REG_A6 : Z := 16.
(** [src/sbi.c 17-17] REG_A7 *)
Definition REG_A7 : Z := 17.
(** [src/syscall.c 20-20] SYS_write *)
Definition SYS_write : Z := 64.
(** [src/syscall.c 21-21] SYS_exit *)
Definition SYS_exit : Z := 93.
(** [src/syscall.c 22-22] SYS_exit_group *)
Definition SYS_exit_group : Z := 94.
(** [src/sbi.c 21-21] SBI_SUCCESS *)
Definition SBI_SUCCESS : Z := 0.
(** [src/sbi.c 22-22] SBI_ERR_FAILED *)
Definition SBI_ERR_FAILED : Z := -1.
(** [src/sbi.c 23-23] SBI_ERR_NOT_SUPPORTED *)
Definition SBI_ERR_NOT_SUPPORTED : Z := -2.
(** [src/sbi.c 24-24] SBI_ERR_INVALID_PARAM *)
Definition SBI_ERR_INVALID_PARAM : Z := -3.
(** [src/sbi.c 27-27] SBI_ERR_ALREADY_AVAILABLE *)
Definition SBI_ERR_ALREADY_AVAILABLE : Z := -6.
(** [src/sbi.c 34-34] EXT_SET_TIMER *)
Definition EXT_SET_TIMER : Z := 0x00.
(** [src/sbi.c 35-35] EXT_PUTCHAR *)
Definition EXT_PUTCHAR : Z := 0x01.
(** [src/sbi.c 36-36] EXT_GETCHAR *)
Definition EXT_GETCHAR : Z := 0x02.
(** [src/sbi.c 37-37] EXT_SHUTDOWN *)
Definition EXT_SHUTDOWN : Z := 0x08.
(** [src/sbi.c 38-38] EXT_BASE *)
Definition EXT_BASE : Z := 0x10.
(** [src/sbi.c 39-39] EXT_TIME *)
Definition EXT_TIME : Z := 0x54494D45.
(** [src/sbi.c 40-40] EXT_SRST *)
Definition EXT_SRST : Z := 0x53525354.
(** [src/sbi.c 41-41] EXT_HSM *)
Definition EXT_HSM : Z := 0x48534D.
(** [src/sbi.c 46-46] SBI_SPEC_VERSION *)
Definition SBI_SPEC_VERSION : Z := 1 << 24.
(** [src/sbi.c 51-51] SBI_IMPL_ID *)
Definition SBI_IMPL_ID : Z := 0x9.
(** [src/quanta.h 25-27] QUANTA_VERSION_MAJOR *)
Definition QUANTA_VERSION : Z := (0 << 16) .| (2 << 8) .| 0.
(** [src/cpu.c 39-39] IRQ_SSOFT *)
Definition IRQ_SSOFT : Z := 1.
(** [src/cpu.c 39-39] IRQ_MSOFT *)
Definition IRQ_MSOFT : Z := 3.
(** [src/cpu.c 40-40] IRQ_STIMER *)
Definition IRQ_STIMER : Z := 5.
(** [src/cpu.c 40-40] IRQ_MTIMER *)
Definition IRQ_MTIMER : Z := 7.
(** [src/cpu.c 41-41] IRQ_SEXT *)
Definition IRQ_SEXT : Z := 9.
(** [src/cpu.c 41-41] IRQ_MEXT *)
Definition IRQ_MEXT : Z := 11.

(** Stop the hart with a reason; [halt_exit] is the clean stop with a status. *)
Definition halt (r : HaltReason) (c : CPU) : CPU := set_c_halted true (set_c_halt_reason r c).
Definition halt_exit (code : Z) (c : CPU) : CPU := halt HALT_EXIT (set_c_exit_code code c).
Definition host (e : HostEvent) : st World unit := bus (modify (emit e)).

(** ** System calls *)

(** The byte loop of [sys_write].
    [src/syscall.c 39-42] sys_write *)
Definition sys_write_loop (fd buf count : Z) : st World unit :=
  for_ (Z.to_nat count) 0 (fun i =>
    v ← bus (mem_read8 (u32 (buf + i)));
    host (Fputc fd v)).

(** [src/syscall.c 28-44] sys_write *)
Definition sys_write (h : Z) : st World unit :=
  c ← gets (hart h);
  let fd := u32 (reg_read c REG_A0) in
  let buf := u32 (reg_read c REG_A1) in
  let count := u32 (reg_read c REG_A2) in
  if negb (fd =? 1) && negb (fd =? 2) then
    host (FdMessage fd) ;;
    cpu_upd h (reg_write REG_A0 (u32 (-1)))
  else
    sys_write_loop fd buf count ;;
    cpu_upd h (reg_write REG_A0 count).

(** [src/syscall.c 47-51] sys_exit *)
Definition sys_exit (c : CPU) : CPU := halt_exit (u32 (reg_read c REG_A0)) c.

(** [src/syscall.c 53-72] syscall_dispatch *)
Definition syscall_dispatch (h : Z) : st World unit :=
  c ← gets (hart h);
  let num := u32 (reg_read c REG_A7) in
  if num =? SYS_write then sys_write h
  else if (num =? SYS_exit) || (num =? SYS_exit_group) then cpu_upd h sys_exit
  else
    host (SyscallMessage num (u32 (c_pc c))) ;;
    cpu_upd h (halt HALT_UNKNOWN_SYSCALL).

(** ** The supervisor binary interface *)

(** [src/cpu.c 967-971] cpu_arm_supervisor_timer *)
Definition cpu_arm_supervisor_timer (h deadline : Z) : st World unit :=
  c ← gets (hart h);
  p ← gets (fun w => b_has_plat (w_bus w));
  when p (bus (modify (upd_clint (fun k =>
    set_mtimecmp (aset (c_hartid c) deadline (mtimecmp k)) k)))) ;;
  cpu_upd h (fun c => set_c_sbi_timer_armed true
    (set_csr CSR_MIP (csr c CSR_MIP .& u32 (Z.lnot (1 << IRQ_STIMER))) c)).

(** [src/sbi.c 57-60] sbi_return *)
Definition sbi_return (error value : Z) (c : CPU) : CPU :=
  reg_write REG_A1 value (reg_write REG_A0 (u64 error) c).

(** [src/sbi.c 63-67] sbi_halt *)
Definition sbi_halt (c : CPU) : CPU := halt_exit 0 c.

(** [src/sbi.c 72-74] sbi_set_timer *)
Definition sbi_set_timer (h lo hi : Z) : st World unit :=
  cpu_arm_supervisor_timer h (u64 (hi << 32) .| lo).

(** [src/sbi.c 77-86] sbi_probe *)
Definition sbi_probe (eid : Z) : Z :=
  if (eid =? EXT_SET_TIMER) || (eid =? EXT_PUTCHAR) || (eid =? EXT_GETCHAR)
     || (eid =? EXT_SHUTDOWN) || (eid =? EXT_BASE) || (eid =? EXT_TIME)
     || (eid =? EXT_SRST) || (eid =? EXT_HSM)
  then 1 else 0.

(** [src/sbi.c 89-102] sbi_base *)
Definition sbi_base (fid arg0 : Z) : CPU -> CPU :=
  if fid =? 0 then sbi_return SBI_SUCCESS SBI_SPEC_VERSION
  else if fid =? 1 then sbi_return SBI_SUCCESS SBI_IMPL_ID
  else if fid =? 2 then sbi_return SBI_SUCCESS QUANTA_VERSION
  else if fid =? 3 then sbi_return SBI_SUCCESS (sbi_probe arg0)
  else if (fid =? 4) || (fid =? 5) || (fid =? 6) then sbi_return SBI_SUCCESS 0
  else sbi_return SBI_ERR_NOT_SUPPORTED 0.

(** The hart a hart id names, or [None].
    [src/sbi.c 106-111] hsm_hart *)
Definition hsm_hart (w : World) (h hartid : Z) : option Z :=
  let b := w_bus w in
  if negb (b_has_plat b) || negb (has_harts (b_plat b)) then
    if hartid =? c_hartid (hart h w) then Some h else None
  else if u32 (nharts (b_plat b)) <=? hartid then None
  else Some hartid.

(** [src/sbi.c 116-128] hsm_enter *)
Definition hsm_enter (pc opaque : Z) (t : CPU) : CPU :=
  t |> set_c_pc pc |> set_c_priv PRIV_S
    |> reg_write REG_A0 (c_hartid t) |> reg_write REG_A1 opaque
    |> set_csr CSR_SATP 0
    |> (fun t => set_csr CSR_MSTATUS (csr t CSR_MSTATUS .& u64 (Z.lnot 0x2)) t)
    |> set_c_reserve_valid false |> mmu_flush
    |> set_c_hsm_state HSM_STARTED |> set_c_halt_reason HALT_NONE |> set_c_halted false.

(** [src/sbi.c 138-149] sbi_hsm *)
Definition hart_start (h : Z) : st World unit :=
  c ← gets (hart h);
  let hartid := u32 (reg_read c REG_A0) in
  let start := reg_read c REG_A1 in
  let opaque := reg_read c REG_A2 in
  t ← gets (fun w => hsm_hart w h hartid);
  match t with
  | None => cpu_upd h (sbi_return SBI_ERR_INVALID_PARAM 0)
  | Some t =>
    s ← gets (fun w => c_hsm_state (hart t w));
    if s =? HSM_STARTED then cpu_upd h (sbi_return SBI_ERR_ALREADY_AVAILABLE 0)
    else if negb (s =? HSM_STOPPED) then cpu_upd h (sbi_return SBI_ERR_FAILED 0)
    else
      cpu_upd t (hsm_enter start opaque) ;;
      cpu_upd h (sbi_return SBI_SUCCESS 0)
  end.

(** [src/sbi.c 155-160] sbi_hsm *)
Definition hart_get_status (h : Z) : st World unit :=
  c ← gets (hart h);
  t ← gets (fun w => hsm_hart w h (u32 (reg_read c REG_A0)));
  match t with
  | None => cpu_upd h (sbi_return SBI_ERR_INVALID_PARAM 0)
  | Some t =>
    s ← gets (fun w => c_hsm_state (hart t w));
    cpu_upd h (sbi_return SBI_SUCCESS (u32 s))
  end.

(** [src/sbi.c 161-170] sbi_hsm *)
Definition hart_suspend (c : CPU) : CPU :=
  let type := u32 (reg_read c REG_A0) in
  if type =? 0x00000000 then sbi_return SBI_SUCCESS 0 c
  else if type =? 0x80000000 then hsm_enter (reg_read c REG_A1) (reg_read c REG_A2) c
  else sbi_return SBI_ERR_INVALID_PARAM 0 c.

(** [src/sbi.c 136-175] sbi_hsm *)
Definition sbi_hsm (h fid : Z) : st World unit :=
  if fid =? 0 then hart_start h
  else if fid =? 1 then cpu_upd h (fun c => halt HALT_EXIT (set_c_hsm_state HSM_STOPPED c))
  else if fid =? 2 then hart_get_status h
  else if fid =? 3 then cpu_upd h hart_suspend
  else cpu_upd h (sbi_return SBI_ERR_NOT_SUPPORTED 0).

(** [src/sbi.c 177-231] sbi_call *)
Definition sbi_call (h : Z) : st World unit :=
  c ← gets (hart h);
  let eid := u32 (reg_read c REG_A7) in
  let fid := u32 (reg_read c REG_A6) in
  let a0 := u32 (reg_read c REG_A0) in
  let a1 := u32 (reg_read c REG_A1) in
  if eid =? EXT_PUTCHAR then
    host (Putchar (a0 .& 0xff)) ;; cpu_upd h (reg_write REG_A0 0)
  else if eid =? EXT_GETCHAR then cpu_upd h (reg_write REG_A0 (u32 (-1)))
  else if eid =? EXT_SET_TIMER then sbi_set_timer h a0 a1 ;; cpu_upd h (reg_write REG_A0 0)
  else if eid =? EXT_SHUTDOWN then cpu_upd h sbi_halt
  else if eid =? EXT_BASE then cpu_upd h (sbi_base fid a0)
  else if eid =? EXT_TIME then
    if fid =? 0 then sbi_set_timer h a0 a1 ;; cpu_upd h (sbi_return SBI_SUCCESS 0)
    else cpu_upd h (sbi_return SBI_ERR_NOT_SUPPORTED 0)
  else if eid =? EXT_SRST then
    if fid =? 0 then
      if a0 <=? 2 then cpu_upd h sbi_halt
      else cpu_upd h (sbi_return SBI_ERR_INVALID_PARAM 0)
    else cpu_upd h (sbi_return SBI_ERR_NOT_SUPPORTED 0)
  else if eid =? EXT_HSM then sbi_hsm h fid
  else cpu_upd h (sbi_return SBI_ERR_NOT_SUPPORTED 0).
