(* ===== verification/Trap.v ===== *)
(** * Control and status registers, traps and interrupts ([src/cpu.c])

    The CSR file with its masked views, trap entry and return with the privilege stack
    of [mstatus], delegation, interrupt selection and the two supervisor-timer relays. *)

From S2P Require Import Prelude Decode Device Memory Cpu Mmu See.

(** [src/cpu.c 30-31] SSTATUS_MASK *)
Definition SSTATUS_MASK : Z :=
  MSTATUS_SIE .| MSTATUS_SPIE .| MSTATUS_SPP .| MSTATUS_FS .| MSTATUS_SUM .| MSTATUS_MXR.
(** [src/cpu.c 32-32] S_INT_MASK *)
Definition S_INT_MASK : Z := (1 << 1) .| (1 << 5) .| (1 << 9).
(** [src/cpu.c 989-989] MENVCFG_STCE *)
Definition MENVCFG_STCE : Z := 1 << 63.

(** [s & ~m] on 64-bit values, and [(s & c) ? m : 0]. *)
Definition clr (m s : Z) : Z := s .& u64 (Z.lnot m).
Definition pick (s c m : Z) : Z := if has s c then m else 0.

(** ** The CSR file *)

(** [src/cpu.c 721-728] live_mip *)
Definition live_mip (c : CPU) (b : Bus) : Z :=
  let mip := u32 (csr c CSR_MIP) in
  if b_has_plat b then
    (mip .& u32 (Z.lnot (MIP_MSIP .| MIP_MTIP .| MIP_MEIP .| MIP_SEIP)))
    .| plat_mip_bits (b_plat b) (c_hartid c)
  else mip.

(** The first interrupt of [order] that is set in [pend].
    [src/cpu.c 746-748] topi_value *)
Fixpoint topi_scan (pend : Z) (order : list Z) : Z :=
  match order with
  | [] => 0
  | k :: order => if has pend (1 << k) then (k << 16) .| 1 else topi_scan pend order
  end.

(** [src/cpu.c 740-749] topi_value *)
Definition topi_value (c : CPU) (b : Bus) (to_s : bool) : Z :=
  let pend := live_mip c b .& u32 (csr c CSR_MIE) in
  let del := u32 (csr c CSR_MIDELEG) in
  let pend := pend .& (if to_s then del else u32 (Z.lnot del)) in
  topi_scan pend [IRQ_MEXT; IRQ_MSOFT; IRQ_MTIMER; IRQ_SEXT; IRQ_SSOFT; IRQ_STIMER; 13].

(** [src/cpu.c 756-773] csr_read *)
Definition csr_read (c : CPU) (b : Bus) (addr : Z) : Z :=
  if addr =? CSR_FFLAGS then csr c CSR_FCSR .& 0x1f
  else if addr =? CSR_FRM then (csr c CSR_FCSR >> 5) .& 0x7
  else if (addr =? CSR_CYCLE) || (addr =? CSR_TIME) || (addr =? CSR_INSTRET) then c_instret c
  else if (addr =? CSR_CYCLEH) || (addr =? CSR_TIMEH) || (addr =? CSR_INSTRETH) then c_instret c >> 32
  else if addr =? CSR_SSTATUS then csr c CSR_MSTATUS .& SSTATUS_MASK
  else if addr =? CSR_SIE then csr c CSR_MIE .& S_INT_MASK
  else if addr =? CSR_SIP then csr c CSR_MIP .& S_INT_MASK
  else if addr =? CSR_MTOPI then topi_value c b false
  else if addr =? CSR_STOPI then topi_value c b true
  else csr c addr.

(** The masked window of a view register onto the register behind it.
    [src/cpu.c 786-787] csr_write *)
Definition masked_write (mask old val : Z) : Z := clr mask old .| (val .& mask).

(** [src/cpu.c 778-808] csr_write *)
Definition csr_write (addr val : Z) (c : CPU) : CPU :=
  if addr =? CSR_FCSR then set_csr CSR_FCSR (val .& 0xff) c
  else if addr =? CSR_FFLAGS then
    set_csr CSR_FCSR ((csr c CSR_FCSR .& u64 (Z.lnot 0x1f)) .| (val .& 0x1f)) c
  else if addr =? CSR_FRM then
    set_csr CSR_FCSR ((csr c CSR_FCSR .& u64 (Z.lnot 0xe0)) .| u64 ((val .& 0x7) << 5)) c
  else if addr =? CSR_SSTATUS then
    set_csr CSR_MSTATUS (masked_write SSTATUS_MASK (csr c CSR_MSTATUS) val) c
  else if addr =? CSR_SIE then set_csr CSR_MIE (masked_write S_INT_MASK (csr c CSR_MIE) val) c
  else if addr =? CSR_SIP then set_csr CSR_MIP (masked_write S_INT_MASK (csr c CSR_MIP) val) c
  else if addr =? CSR_SATP then
    if negb (mmu_satp_supported c val) then c
    else mmu_flush (set_csr CSR_SATP val c)
  else set_csr addr val c.

(** ** Trap entry *)

(** [src/cpu.c 826-854] legacy_trap *)
Definition legacy_trap (h cause : Z) : st World unit :=
  if cause =? CAUSE_ECALL_S then sbi_call h
  else if (cause =? CAUSE_ECALL_U) || (cause =? CAUSE_ECALL_M) then syscall_dispatch h
  else if cause =? CAUSE_BREAKPOINT then cpu_upd h (halt HALT_EBREAK)
  else if (cause =? CAUSE_INSN_MISALIGNED) || (cause =? CAUSE_INSN_ACCESS)
          || (cause =? CAUSE_LOAD_MISALIGNED) || (cause =? CAUSE_LOAD_ACCESS)
          || (cause =? CAUSE_STORE_MISALIGNED) || (cause =? CAUSE_STORE_ACCESS)
  then cpu_upd h (halt HALT_MEM_FAULT)
  else
    c ← gets (hart h);
    host (TrapMessage cause (u32 (c_pc c))) ;;
    cpu_upd h (halt HALT_ILLEGAL_INSN).

(** [src/cpu.c 868-876] enter_trap *)
Definition enter_s (cause tval : Z) (c : CPU) : CPU :=
  let s := csr c CSR_MSTATUS in
  let s := clr MSTATUS_SPIE s .| pick s MSTATUS_SIE MSTATUS_SPIE in
  let s := clr MSTATUS_SIE s in
  let s := clr MSTATUS_SPP s .| (if c_priv c =? 0 then 0 else MSTATUS_SPP) in
  c |> set_csr CSR_SEPC (c_pc c) |> set_csr CSR_SCAUSE cause |> set_csr CSR_STVAL tval
    |> set_c_priv PRIV_S |> set_csr CSR_MSTATUS s.

(** [src/cpu.c 878-886] enter_trap *)
Definition enter_m (cause tval : Z) (c : CPU) : CPU :=
  let s := csr c CSR_MSTATUS in
  let s := clr MSTATUS_MPIE s .| pick s MSTATUS_MIE MSTATUS_MPIE in
  let s := clr MSTATUS_MIE s in
  let s := clr MSTATUS_MPP s .| u32 (c_priv c << MSTATUS_MPP_SHIFT) in
  c |> set_csr CSR_MEPC (c_pc c) |> set_csr CSR_MCAUSE cause |> set_csr CSR_MTVAL tval
    |> set_c_priv PRIV_M |> set_csr CSR_MSTATUS s.

(** The handler address a trap with [cause] vectors to.
    [src/cpu.c 888-891] enter_trap *)
Definition trap_target (c : CPU) (cause tvec : Z) : Z :=
  let intbit := cause_interrupt c in
  let base := clr 0x3 tvec in
  if has cause intbit && has tvec 0x1 then u64 (base + 4 * clr intbit cause) else base.

(** [src/cpu.c 864-894] enter_trap *)
Definition enter_trap (cause tval : Z) (to_s : bool) (c : CPU) : CPU :=
  let c := if to_s then enter_s cause tval c else enter_m cause tval c in
  let tvec := if to_s then csr c CSR_STVEC else csr c CSR_MTVEC in
  set_c_trapped true (set_c_pc (trap_target c cause tvec) c).

(** Is the exception delegated to supervisor mode?
    [src/cpu.c 904-905] raise_trap *)
Definition delegated (c : CPU) (cause : Z) : bool :=
  (c_priv c <=? PRIV_S) && has (csr c CSR_MEDELEG >> cause) 1.

(** [src/cpu.c 903-913] raise_trap *)
Definition raise_trap (h cause tval : Z) : st World unit :=
  c ← gets (hart h);
  let to_s := delegated c cause in
  let tvec := if to_s then csr c CSR_STVEC else csr c CSR_MTVEC in
  if clr 0x3 tvec =? 0 then legacy_trap h cause
  else cpu_upd h (enter_trap cause tval to_s).

(** ** Interrupts *)

(** [src/cpu.c 919-930] effective_mip *)
Definition effective_mip (b : Bus) (c : CPU) : CPU :=
  if b_has_plat b then set_csr CSR_MIP (live_mip c b) c else c.

(** [src/cpu.c 946-946] take_interrupt *)
Definition m_on (c : CPU) : bool :=
  (c_priv c <? PRIV_M) || ((c_priv c =? PRIV_M) && has (u32 (csr c CSR_MSTATUS)) MSTATUS_MIE).
(** [src/cpu.c 947-947] take_interrupt *)
Definition s_on (c : CPU) : bool :=
  (c_priv c <? PRIV_S) || ((c_priv c =? PRIV_S) && has (u32 (csr c CSR_MSTATUS)) MSTATUS_SIE).

(** [src/cpu.c 954-954] take_interrupt *)
Definition irq_to_s (c : CPU) (i : Z) : bool := has (u32 (csr c CSR_MIDELEG) >> i) 1.

(** [src/cpu.c 949-950] take_interrupt *)
Definition irq_order : list Z := [IRQ_MEXT; IRQ_MSOFT; IRQ_MTIMER; IRQ_SEXT; IRQ_SSOFT; IRQ_STIMER].

(** The interrupt the priority loop delivers.
    [src/cpu.c 951-959] take_interrupt *)
Fixpoint irq_scan (c : CPU) (pending : Z) (order : list Z) : option Z :=
  match order with
  | [] => None
  | i :: order =>
    if has pending (1 << i) && (if irq_to_s c i then s_on c else m_on c) then Some i
    else irq_scan c pending order
  end.

(** [src/cpu.c 940-961] take_interrupt *)
Definition take_interrupt (h : Z) : st World bool :=
  b ← gets w_bus;
  cpu_upd h (effective_mip b) ;;
  c ← gets (hart h);
  let pending := u32 (csr c CSR_MIP) .& u32 (csr c CSR_MIE) in
  if pending =? 0 then mret false
  else match irq_scan c pending irq_order with
       | None => mret false
       | Some i =>
         cpu_upd h (enter_trap (cause_interrupt c .| i) 0 (irq_to_s c i)) ;;
         mret true
       end.

(** [src/cpu.c 980-986] firmware_timer_tick *)
Definition firmware_timer_tick (b : Bus) (c : CPU) : CPU :=
  if negb (c_sbi_timer_armed c) then c
  else if has (plat_mip_bits (b_plat b) (c_hartid c)) MIP_MTIP then
    set_c_sbi_timer_armed false (set_csr CSR_MIP (csr c CSR_MIP .| (1 << IRQ_STIMER)) c)
  else c.

(** [src/cpu.c 1002-1008] sstc_tick *)
Definition sstc_tick (c : CPU) : CPU :=
  if negb (has (csr c CSR_MENVCFG) MENVCFG_STCE) then c
  else if csr c CSR_STIMECMP <=? c_instret c then
    set_csr CSR_MIP (csr c CSR_MIP .| (1 << IRQ_STIMER)) c
  else set_csr CSR_MIP (csr c CSR_MIP .& u32 (Z.lnot (1 << IRQ_STIMER))) c.

(** [src/cpu.c 1478-1492] cpu_pre_step *)
Definition cpu_pre_step (h : Z) : st World bool :=
  b ← gets w_bus;
  if negb (b_has_plat b) then mret false
  else match plat_poweroff_requested (b_plat b) with
       | Some off_code => cpu_upd h (halt_exit off_code) ;; mret true
       | None =>
         cpu_upd h (fun c => sstc_tick (firmware_timer_tick b c)) ;;
         take_interrupt h
       end.

(** ** CSR instructions *)

(** [src/cpu.c 1037-1039] exec_csr *)
Definition rv32_only_csr (addr : Z) : bool :=
  (addr =? CSR_CYCLEH) || (addr =? CSR_TIMEH) || (addr =? CSR_INSTRETH)
  || (addr =? CSR_MSTATUSH) || (addr =? CSR_MENVCFGH) || (addr =? CSR_STIMECMPH).

(** [src/cpu.c 1047-1050] exec_csr *)
Definition csr_denied (c : CPU) (addr : Z) (writes : bool) : bool :=
  (c_priv c <? ((addr >> 8) .& 0x3))
  || (writes && ((addr >> 10) .& 0x3 =? 0x3))
  || ((c_xlen c =? 64) && rv32_only_csr addr)
  || (((addr =? CSR_STIMECMP) || (addr =? CSR_STIMECMPH)) && (c_priv c =? PRIV_S)
      && negb (has (csr c CSR_MENVCFG) MENVCFG_STCE)).

(** The new CSR value of the three forms.
    [src/cpu.c 1057-1061] exec_csr *)
Definition csr_new (op old src : Z) : Z :=
  if op =? 0x1 then src else if op =? 0x2 then old .| src else old .& u64 (Z.lnot src).

(** [src/cpu.c 1026-1064] exec_csr *)
Definition exec_csr (h inst : Z) : st World unit :=
  let addr := (inst >> 20) .& 0xfff in
  let f3 := funct3 inst in
  let rs1f := rs1 inst in
  c ← gets (hart h);
  let src := if has f3 0x4 then rs1f else reg_read c rs1f in
  let op := f3 .& 0x3 in
  let writes := (op =? 0x1) || negb (rs1f =? 0) in
  let reads := negb (op =? 0x1) || negb (rd inst =? 0) in
  if csr_denied c addr writes then raise_trap h CAUSE_ILLEGAL_INSN inst
  else
    old ← gets (fun w => if reads then csr_read c (w_bus w) addr else 0);
    when (writes && negb (op =? 0)) (cpu_upd h (csr_write addr (csr_new op old src))) ;;
    cpu_upd h (reg_write (rd inst) old).

(** ** Trap return *)

(** [src/cpu.c 1403-1411] exec_mret *)
Definition mret_cpu (c : CPU) : CPU :=
  let s := csr c CSR_MSTATUS in
  let mpp := u32 ((s .& MSTATUS_MPP) >> MSTATUS_MPP_SHIFT) in
  let s := clr MSTATUS_MIE s .| pick s MSTATUS_MPIE MSTATUS_MIE in
  let s := s .| MSTATUS_MPIE in
  let s := clr MSTATUS_MPP s in
  let s := if mpp =? PRIV_M then s else clr MSTATUS_MPRV s in
  c |> set_csr CSR_MSTATUS s |> set_c_priv mpp.

(** [src/cpu.c 1401-1412] exec_mret *)
Definition exec_mret (h : Z) : st World Z :=
  c ← gets (hart h);
  if c_priv c <? PRIV_M then
    raise_trap h CAUSE_ILLEGAL_INSN 0 ;; gets (fun w => c_pc (hart h w))
  else
    cpu_upd h mret_cpu ;; gets (fun w => csr (hart h w) CSR_MEPC).

(** [src/cpu.c 1419-1427] exec_sret *)
Definition sret_cpu (c : CPU) : CPU :=
  let s := csr c CSR_MSTATUS in
  let spp := if has s MSTATUS_SPP then PRIV_S else PRIV_U in
  let s := clr MSTATUS_SIE s .| pick s MSTATUS_SPIE MSTATUS_SIE in
  let s := s .| MSTATUS_SPIE in
  let s := clr MSTATUS_SPP s in
  let s := clr MSTATUS_MPRV s in
  c |> set_csr CSR_MSTATUS s |> set_c_priv spp.

(** [src/cpu.c 1417-1428] exec_sret *)
Definition exec_sret (h : Z) : st World Z :=
  c ← gets (hart h);
  if c_priv c <? PRIV_S then
    raise_trap h CAUSE_ILLEGAL_INSN 0 ;; gets (fun w => c_pc (hart h w))
  else
    cpu_upd h sret_cpu ;; gets (fun w => csr (hart h w) CSR_SEPC).

(** [src/cpu.c 1439-1471] exec_system *)
Definition exec_system (h inst : Z) : st World Z :=
  let f3 := funct3 inst in
  let next := gets (fun w => u64 (c_pc (hart h w) + 4)) in
  c ← gets (hart h);
  if f3 =? 0 then
    if inst >> 25 =? 0x09 then
      (if c_priv c <? PRIV_S then raise_trap h CAUSE_ILLEGAL_INSN inst
       else cpu_upd h mmu_flush) ;;
      next
    else
      let f12 := inst >> 20 in
      if f12 =? 0x000 then raise_trap h (CAUSE_ECALL_U + c_priv c) 0 ;; next
      else if f12 =? 0x001 then raise_trap h CAUSE_BREAKPOINT 0 ;; next
      else if f12 =? 0x302 then exec_mret h
      else if f12 =? 0x102 then exec_sret h
      else if f12 =? 0x105 then next
      else raise_trap h CAUSE_ILLEGAL_INSN inst ;; next
  else if f3 =? 0x4 then raise_trap h CAUSE_ILLEGAL_INSN inst ;; next
  else exec_csr h inst ;; next.
