(* ===== verification/Alu.v ===== *)
(** * Integer instructions ([src/cpu.c])

    OP, OP-IMM and their RV64 word forms: the base integer operations, the M extension
    and the Zba/Zbb/Zbs/Zbc bit-manipulation extensions, and the branches.  Each group is
    a pure result function on operand values and the handler that reads and writes the
    registers. *)

From S2P Require Import Prelude Decode Device Memory Cpu Mmu See Trap.

(** ** Bit-manipulation helpers *)

(** [src/cpu.c 138-140] bm_mask *)
Definition bm_mask (bits : Z) : Z :=
  if 64 <=? bits then u64 (Z.lnot 0) else u64 (u64 (1 << (bits .& 63)) - 1).

(** The loop from bit [k - 1] down.
    [src/cpu.c 144-144] bm_clz *)
Fixpoint clz_loop (v : Z) (k : nat) : Z :=
  match k with
  | O => 0
  | S k => if (v >> Z.of_nat k) .& 1 =? 0 then 1 + clz_loop v k else 0
  end.
(** [src/cpu.c 142-146] bm_clz *)
Definition bm_clz (v bits : Z) : Z := clz_loop v (Z.to_nat bits).

(** The loop from bit [i] up over [k] bits.
    [src/cpu.c 149-149] bm_ctz *)
Fixpoint ctz_loop (v i : Z) (k : nat) : Z :=
  match k with
  | O => 0
  | S k => if (v >> i) .& 1 =? 0 then 1 + ctz_loop v (i + 1) k else 0
  end.
(** [src/cpu.c 147-151] bm_ctz *)
Definition bm_ctz (v bits : Z) : Z := ctz_loop v 0 (Z.to_nat bits).

(** [src/cpu.c 152-156] bm_cpop *)
Definition bm_cpop (v bits : Z) : Z :=
  foldl (fun n i => n + ((v >> i) .& 1)) 0 (zseq 0 (Z.to_nat bits)).

(** [src/cpu.c 158-163] bm_ror *)
Definition bm_ror (v sh bits : Z) : Z :=
  let v := v .& bm_mask bits in
  let sh := sh .& u32 (bits - 1) in
  if sh =? 0 then v
  else ((v >> sh) .| u64 (v << (bits - sh))) .& bm_mask bits.

(** [src/cpu.c 164-169] bm_rol *)
Definition bm_rol (v sh bits : Z) : Z :=
  let v := v .& bm_mask bits in
  let sh := sh .& u32 (bits - 1) in
  if sh =? 0 then v
  else (u64 (v << sh) .| (v >> (bits - sh))) .& bm_mask bits.

(** [src/cpu.c 171-176] bm_orcb *)
Definition bm_orcb (v bits : Z) : Z :=
  foldl (fun r k => let b := 8 * k in
    if (v >> b) .& 0xff =? 0 then r else r .| u64 (0xff << b)) 0 (zseq 0 (Z.to_nat (bits / 8))).

(** [src/cpu.c 178-184] bm_rev8 *)
Definition bm_rev8 (v bits : Z) : Z :=
  let nbytes := bits / 8 in
  foldl (fun r i => r .| u64 (((v >> (i * 8)) .& 0xff) << ((nbytes - 1 - i) * 8))) 0
    (zseq 0 (Z.to_nat nbytes)).

(** One iteration of the carry-less product, on [(rh, rl)].
    [src/cpu.c 191-196] bm_clmul128 *)
Definition clmul_step (a b : Z) (r : Z * Z) (i : Z) : Z * Z :=
  if (b >> i) .& 1 =? 0 then r
  else (if 0 <? i then r.1 .^ (a >> (64 - i)) else r.1, r.2 .^ u64 (a << i)).
(** [src/cpu.c 187-198] bm_clmul128 *)
Definition bm_clmul128 (a b bits : Z) : Z * Z :=
  let a := a .& bm_mask bits in
  let b := b .& bm_mask bits in
  foldl (clmul_step a b) (0, 0) (zseq 0 (Z.to_nat (Z.min bits 64))).

(** [src/cpu.c 202-209] bm_bits128 *)
Definition bm_bits128 (hi lo pos width : Z) : Z :=
  let v := if pos =? 0 then lo
           else if pos <? 64 then (lo >> pos) .| u64 (hi << (64 - pos))
           else if pos <? 128 then hi >> (pos - 64)
           else 0 in
  v .& bm_mask width.

(** ** Bit-manipulation instructions

    The result functions give [None] when the encoding is not a bit-manipulation one. *)

(** [src/cpu.c 213-281] exec_bitmanip_op *)
Definition bitmanip_op (bits inst a b : Z) : option Z :=
  let f7 := funct7 inst in
  let f3 := funct3 inst in
  let idx := u32 b .& u32 (bits - 1) in
  if f7 =? 0x10 then
    if f3 =? 0x2 then Some (u64 (u64 (a << 1) + b))
    else if f3 =? 0x4 then Some (u64 (u64 (a << 2) + b))
    else if f3 =? 0x6 then Some (u64 (u64 (a << 3) + b))
    else None
  else if f7 =? 0x20 then
    if f3 =? 0x7 then Some (a .& u64 (Z.lnot b))
    else if f3 =? 0x6 then Some (a .| u64 (Z.lnot b))
    else if f3 =? 0x4 then Some (u64 (Z.lnot (a .^ b)))
    else None
  else if f7 =? 0x30 then
    if f3 =? 0x1 then Some (bm_rol a (u32 b) bits)
    else if f3 =? 0x5 then Some (bm_ror a (u32 b) bits)
    else None
  else if f7 =? 0x05 then
    let p := bm_clmul128 a b bits in
    if f3 =? 0x1 then Some (bm_bits128 p.1 p.2 0 bits)
    else if f3 =? 0x2 then Some (bm_bits128 p.1 p.2 (bits - 1) bits)
    else if f3 =? 0x3 then Some (bm_bits128 p.1 p.2 bits bits)
    else if f3 =? 0x4 then Some (if s64 a <? s64 b then a else b)
    else if f3 =? 0x5 then Some (if a <? b then a else b)
    else if f3 =? 0x6 then Some (if s64 a <? s64 b then b else a)
    else if f3 =? 0x7 then Some (if a <? b then b else a)
    else None
  else if f7 =? 0x24 then
    if f3 =? 0x1 then Some (a .& u64 (Z.lnot (u64 (1 << idx))))
    else if f3 =? 0x5 then Some ((a >> idx) .& 1)
    else None
  else if f7 =? 0x14 then
    if f3 =? 0x1 then Some (a .| u64 (1 << idx)) else None
  else if f7 =? 0x34 then
    if f3 =? 0x1 then Some (a .^ u64 (1 << idx)) else None
  else if f7 =? 0x04 then
    if negb (bits =? 32) || negb (f3 =? 0x4) || negb (rs2 inst =? 0) then None
    else Some (a .& 0xffff)
  else None.

(** [src/cpu.c 288-320] exec_bitmanip_imm *)
Definition bitmanip_imm (bits inst a : Z) : option Z :=
  let f3 := funct3 inst in
  let f7 := funct7 inst in
  let f6 := (inst >> 26) .& 0x3f in
  let rs2f := rs2 inst in
  let shamt := (inst >> 20) .& (if bits =? 64 then 0x3f else 0x1f) in
  if f3 =? 0x1 then
    if f7 =? 0x30 then
      if rs2f =? 0x00 then Some (bm_clz a bits)
      else if rs2f =? 0x01 then Some (bm_ctz a bits)
      else if rs2f =? 0x02 then Some (bm_cpop a bits)
      else if rs2f =? 0x04 then Some (u64 (s8 a))
      else if rs2f =? 0x05 then Some (u64 (s16 a))
      else None
    else if f6 =? 0x12 then Some (a .& u64 (Z.lnot (u64 (1 << shamt))))
    else if f6 =? 0x1a then Some (a .^ u64 (1 << shamt))
    else if f6 =? 0x0a then Some (a .| u64 (1 << shamt))
    else None
  else if f3 =? 0x5 then
    if f6 =? 0x18 then Some (bm_ror a shamt bits)
    else if f6 =? 0x12 then Some ((a >> shamt) .& 1)
    else if (f7 =? 0x14) && (rs2f =? 0x07) then Some (bm_orcb a bits)
    else if ((f7 =? 0x34) || (f7 =? 0x35)) && (rs2f =? 0x18) then Some (bm_rev8 a bits)
    else None
  else None.

(** [src/cpu.c 327-357] exec_bitmanip_op32 *)
Definition bitmanip_op32 (inst a b : Z) : option Z :=
  let f7 := funct7 inst in
  let f3 := funct3 inst in
  let auw := a .& 0xffffffff in
  if f7 =? 0x04 then
    if f3 =? 0x0 then Some (u64 (auw + b))
    else if (f3 =? 0x4) && (rs2 inst =? 0) then Some (a .& 0xffff)
    else None
  else if f7 =? 0x10 then
    if f3 =? 0x2 then Some (u64 (u64 (auw << 1) + b))
    else if f3 =? 0x4 then Some (u64 (u64 (auw << 2) + b))
    else if f3 =? 0x6 then Some (u64 (u64 (auw << 3) + b))
    else None
  else if f7 =? 0x30 then
    if f3 =? 0x1 then Some (u64 (s32 (bm_rol a (u32 b) 32)))
    else if f3 =? 0x5 then Some (u64 (s32 (bm_ror a (u32 b) 32)))
    else None
  else None.

(** [src/cpu.c 364-386] exec_bitmanip_imm32 *)
Definition bitmanip_imm32 (inst a : Z) : option Z :=
  let f3 := funct3 inst in
  let f7 := funct7 inst in
  let f6 := (inst >> 26) .& 0x3f in
  let rs2f := rs2 inst in
  if f3 =? 0x1 then
    if f6 =? 0x02 then Some (u64 ((a .& 0xffffffff) << ((inst >> 20) .& 0x3f)))
    else if f7 =? 0x30 then
      let w := u32 a in
      if rs2f =? 0x00 then Some (bm_clz w 32)
      else if rs2f =? 0x01 then Some (bm_ctz w 32)
      else if rs2f =? 0x02 then Some (bm_cpop w 32)
      else None
    else None
  else if (f3 =? 0x5) && (f7 =? 0x30) then
    Some (u64 (s32 (bm_ror a ((inst >> 20) .& 0x1f) 32)))
  else None.

(** Write a recognised result to [rd]; was there one?
    [src/cpu.c 282-283] exec_bitmanip_op *)
Definition write_result (h inst : Z) (r : option Z) : st World bool :=
  match r with
  | None => mret false
  | Some r => cpu_upd h (reg_write (rd inst) r) ;; mret true
  end.

(** [src/cpu.c 213-284] exec_bitmanip_op *)
Definition exec_bitmanip_op (h inst : Z) : st World bool :=
  c ← gets (hart h);
  write_result h inst (bitmanip_op (c_xlen c) inst (reg_read c (rs1 inst)) (reg_read c (rs2 inst))).

(** [src/cpu.c 288-323] exec_bitmanip_imm *)
Definition exec_bitmanip_imm (h inst : Z) : st World bool :=
  c ← gets (hart h);
  write_result h inst (bitmanip_imm (c_xlen c) inst (reg_read c (rs1 inst))).

(** [src/cpu.c 327-360] exec_bitmanip_op32 *)
Definition exec_bitmanip_op32 (h inst : Z) : st World bool :=
  c ← gets (hart h);
  write_result h inst (bitmanip_op32 inst (reg_read c (rs1 inst)) (reg_read c (rs2 inst))).

(** [src/cpu.c 364-389] exec_bitmanip_imm32 *)
Definition exec_bitmanip_imm32 (h inst : Z) : st World bool :=
  c ← gets (hart h);
  write_result h inst (bitmanip_imm32 inst (reg_read c (rs1 inst))).

(** ** Base integer operations *)

(** [src/cpu.c 401-423] exec_op_imm *)
Definition op_imm_result (xlen inst a : Z) : Z :=
  let imm := imm_i inst in
  let shamt := u32 imm .& (if xlen =? 64 then 0x3f else 0x1f) in
  let arith := (inst >> 30) .& 1 in
  let f3 := funct3 inst in
  if f3 =? 0x0 then u64 (a + u64 imm)
  else if f3 =? 0x2 then if s64 a <? imm then 1 else 0
  else if f3 =? 0x3 then if a <? u64 imm then 1 else 0
  else if f3 =? 0x4 then a .^ u64 imm
  else if f3 =? 0x6 then a .| u64 imm
  else if f3 =? 0x7 then a .& u64 imm
  else if f3 =? 0x1 then u64 (a << shamt)
  else (* 0x5 *)
    if negb (arith =? 0)
    then if xlen =? 64 then u64 (s64 a >> shamt) else u64 (s32 a >> shamt)
    else if xlen =? 64 then a >> shamt else u32 a >> shamt.

(** [src/cpu.c 399-425] exec_op_imm *)
Definition exec_op_imm (h inst : Z) : st World unit :=
  done ← exec_bitmanip_imm h inst;
  if done : bool then mret tt
  else
    c ← gets (hart h);
    cpu_upd h (reg_write (rd inst) (op_imm_result (c_xlen c) inst (reg_read c (rs1 inst)))).

(** [src/cpu.c 430-439] mulhu64 *)
Definition mulhu64 (a b : Z) : Z :=
  let alo := u32 a in let ahi := a >> 32 in
  let blo := u32 b in let bhi := b >> 32 in
  let lo_lo := u64 (alo * blo) in
  let lo_hi := u64 (alo * bhi) in
  let hi_lo := u64 (ahi * blo) in
  let hi_hi := u64 (ahi * bhi) in
  let cross := u64 (u64 ((lo_lo >> 32) + u32 lo_hi) + u32 hi_lo) in
  u64 (u64 (u64 (hi_hi + (lo_hi >> 32)) + (hi_lo >> 32)) + (cross >> 32)).

(** [src/cpu.c 451-469] exec_muldiv64 *)
Definition muldiv64 (f3 a b : Z) : Z :=
  let sa := s64 a in
  let sb := s64 b in
  if f3 =? 0x0 then u64 (a * b)
  else if f3 =? 0x1 then
    u64 (u64 (mulhu64 a b - (if sa <? 0 then b else 0)) - (if sb <? 0 then a else 0))
  else if f3 =? 0x2 then u64 (mulhu64 a b - (if sa <? 0 then b else 0))
  else if f3 =? 0x3 then mulhu64 a b
  else if f3 =? 0x4 then
    if b =? 0 then u64 (-1)
    else if (sa =? - 2 ^ 63) && (sb =? -1) then u64 (- 2 ^ 63)
    else u64 (Z.quot sa sb)
  else if f3 =? 0x5 then if b =? 0 then u64 (-1) else a / b
  else if f3 =? 0x6 then
    if b =? 0 then a
    else if (sa =? - 2 ^ 63) && (sb =? -1) then 0
    else u64 (Z.rem sa sb)
  else (* 0x7 *) if b =? 0 then a else a mod b.

(** [src/cpu.c 445-471] exec_muldiv64 *)
Definition exec_muldiv64 (h inst : Z) : st World unit :=
  c ← gets (hart h);
  cpu_upd h (reg_write (rd inst)
    (muldiv64 (funct3 inst) (reg_read c (rs1 inst)) (reg_read c (rs2 inst)))).

(** [src/cpu.c 490-519] exec_muldiv *)
Definition muldiv32 (f3 a b : Z) : Z :=
  let sa := s32 a in
  let sb := s32 b in
  if f3 =? 0x0 then u32 (u64 (a * b))
  else if f3 =? 0x1 then u32 ((sa * sb) >> 32)
  else if f3 =? 0x2 then u32 ((sa * b) >> 32)
  else if f3 =? 0x3 then u32 (u64 (a * b) >> 32)
  else if f3 =? 0x4 then
    if b =? 0 then 0xffffffff
    else if (sa =? - 2 ^ 31) && (sb =? -1) then u32 (- 2 ^ 31)
    else u32 (Z.quot sa sb)
  else if f3 =? 0x5 then if b =? 0 then 0xffffffff else a / b
  else if f3 =? 0x6 then
    if b =? 0 then a
    else if (sa =? - 2 ^ 31) && (sb =? -1) then 0
    else u32 (Z.rem sa sb)
  else (* 0x7 *) if b =? 0 then a else a mod b.

(** [src/cpu.c 483-521] exec_muldiv *)
Definition exec_muldiv (h inst : Z) : st World unit :=
  c ← gets (hart h);
  if c_xlen c =? 64 then exec_muldiv64 h inst
  else
    cpu_upd h (reg_write (rd inst)
      (muldiv32 (funct3 inst) (u32 (reg_read c (rs1 inst))) (u32 (reg_read c (rs2 inst))))).

(** [src/cpu.c 531-553] exec_op *)
Definition op_result (xlen inst a b : Z) : Z :=
  let shamt := u32 b .& (if xlen =? 64 then 0x3f else 0x1f) in
  let alt := funct7 inst =? 0x20 in
  let f3 := funct3 inst in
  if f3 =? 0x0 then if alt then u64 (a - b) else u64 (a + b)
  else if f3 =? 0x1 then u64 (a << shamt)
  else if f3 =? 0x2 then if s64 a <? s64 b then 1 else 0
  else if f3 =? 0x3 then if a <? b then 1 else 0
  else if f3 =? 0x4 then a .^ b
  else if f3 =? 0x5 then
    if alt
    then if xlen =? 64 then u64 (s64 a >> shamt) else u64 (s32 a >> shamt)
    else if xlen =? 64 then a >> shamt else u32 a >> shamt
  else if f3 =? 0x6 then a .| b
  else (* 0x7 *) a .& b.

(** [src/cpu.c 525-555] exec_op *)
Definition exec_op (h inst : Z) : st World unit :=
  if funct7 inst =? 0x01 then exec_muldiv h inst
  else
    done ← exec_bitmanip_op h inst;
    if done : bool then mret tt
    else
      c ← gets (hart h);
      cpu_upd h (reg_write (rd inst)
        (op_result (c_xlen c) inst (reg_read c (rs1 inst)) (reg_read c (rs2 inst)))).

(** The 32-bit result, or [None] for an illegal encoding.
    [src/cpu.c 563-577] exec_op_imm32 *)
Definition op_imm32_result (inst a : Z) : option Z :=
  let imm := imm_i inst in
  let shamt := u32 imm .& 0x1f in
  let arith := (inst >> 30) .& 1 in
  let f3 := funct3 inst in
  if f3 =? 0x0 then Some (s32 (u32 (a + u32 imm)))
  else if f3 =? 0x1 then Some (s32 (u32 (a << shamt)))
  else if f3 =? 0x5 then
    Some (if negb (arith =? 0) then s32 a >> shamt else s32 (a >> shamt))
  else None.

(** Commit a word result, sign-extended, or trap.
    [src/cpu.c 576-578] exec_op_imm32 *)
Definition commit_word (h inst : Z) (r : option Z) : st World unit :=
  match r with
  | None => raise_trap h CAUSE_ILLEGAL_INSN inst
  | Some r => cpu_upd h (reg_write (rd inst) (u64 r))
  end.

(** [src/cpu.c 560-579] exec_op_imm32 *)
Definition exec_op_imm32 (h inst : Z) : st World unit :=
  c ← gets (hart h);
  if negb (c_xlen c =? 64) then raise_trap h CAUSE_ILLEGAL_INSN inst
  else
    done ← exec_bitmanip_imm32 h inst;
    if done : bool then mret tt
    else commit_word h inst (op_imm32_result inst (u32 (reg_read c (rs1 inst)))).

(** [src/cpu.c 586-604] exec_muldivw *)
Definition muldivw (f3 a b : Z) : option Z :=
  let sa := s32 a in
  let sb := s32 b in
  if f3 =? 0x0 then Some (s32 (u32 (a * b)))
  else if f3 =? 0x4 then
    Some (if b =? 0 then -1
          else if (sa =? - 2 ^ 31) && (sb =? -1) then - 2 ^ 31
          else Z.quot sa sb)
  else if f3 =? 0x5 then Some (if b =? 0 then -1 else s32 (a / b))
  else if f3 =? 0x6 then
    Some (if b =? 0 then sa
          else if (sa =? - 2 ^ 31) && (sb =? -1) then 0
          else Z.rem sa sb)
  else if f3 =? 0x7 then Some (if b =? 0 then s32 a else s32 (a mod b))
  else None.

(** [src/cpu.c 583-606] exec_muldivw *)
Definition exec_muldivw (h inst : Z) : st World unit :=
  c ← gets (hart h);
  commit_word h inst
    (muldivw (funct3 inst) (u32 (reg_read c (rs1 inst))) (u32 (reg_read c (rs2 inst)))).

(** [src/cpu.c 615-629] exec_op32 *)
Definition op32_result (inst a b : Z) : option Z :=
  let shamt := b .& 0x1f in
  let alt := funct7 inst =? 0x20 in
  let f3 := funct3 inst in
  if f3 =? 0x0 then Some (s32 (if alt then u32 (a - b) else u32 (a + b)))
  else if f3 =? 0x1 then Some (s32 (u32 (a << shamt)))
  else if f3 =? 0x5 then Some (if alt then s32 a >> shamt else s32 (a >> shamt))
  else None.

(** [src/cpu.c 611-631] exec_op32 *)
Definition exec_op32 (h inst : Z) : st World unit :=
  c ← gets (hart h);
  if negb (c_xlen c =? 64) then raise_trap h CAUSE_ILLEGAL_INSN inst
  else if funct7 inst =? 0x01 then exec_muldivw h inst
  else
    done ← exec_bitmanip_op32 h inst;
    if done : bool then mret tt
    else
      commit_word h inst
        (op32_result inst (u32 (reg_read c (rs1 inst))) (u32 (reg_read c (rs2 inst)))).

(** [src/cpu.c 644-653] exec_branch *)
Definition branch_taken (f3 a b : Z) : bool :=
  if f3 =? 0x0 then a =? b
  else if f3 =? 0x1 then negb (a =? b)
  else if f3 =? 0x4 then s64 a <? s64 b
  else if f3 =? 0x5 then s64 b <=? s64 a
  else if f3 =? 0x6 then a <? b
  else if f3 =? 0x7 then b <=? a
  else false.

(** [src/cpu.c 636-655] exec_branch *)
Definition exec_branch (c : CPU) (inst ilen : Z) : Z :=
  if branch_taken (funct3 inst) (reg_read c (rs1 inst)) (reg_read c (rs2 inst))
  then u64 (c_pc c + u64 (imm_b inst)) else u64 (c_pc c + ilen).

(** [src/cpu.c 1678-1688] cpu_exec_alu *)
Definition cpu_exec_alu (h inst : Z) : st World bool :=
  cpu_upd h (set_c_trapped false) ;;
  let op := opcode inst in
  (if op =? OP_IMM then exec_op_imm h inst
   else if op =? OP_IMM_32 then exec_op_imm32 h inst
   else if op =? OP_REG then exec_op h inst
   else if op =? OP_REG_32 then exec_op32 h inst
   else raise_trap h CAUSE_ILLEGAL_INSN inst) ;;
  gets (fun w => c_trapped (hart h w) || c_halted (hart h w)).
