(* ===== verification/Exec.v ===== *)
(** * Memory instructions ([src/cpu.c])

    Loads, stores and the A extension (LR/SC and the AMOs). *)

From S2P Require Import Prelude Decode Device Memory Cache Cpu Mmu See Trap.

(** ** Loads and stores *)

(** [src/cpu.c 671-679] exec_load *)
Definition load_value (xlen f3 pa : Z) : st Bus Z :=
  if f3 =? 0x0 then v ← mem_read8 pa; mret (sx 8 v)
  else if f3 =? 0x1 then v ← mem_read16 pa; mret (sx 16 v)
  else if f3 =? 0x2 then v ← mem_read32 pa; mret (sx 32 v)
  else if f3 =? 0x3 then if xlen =? 64 then mem_read64 pa else mret 0
  else if f3 =? 0x4 then mem_read8 pa
  else if f3 =? 0x5 then mem_read16 pa
  else if f3 =? 0x6 then if xlen =? 64 then mem_read32 pa else mret 0
  else mret 0.

(** The result is what [*pa_out] receives.
    [src/cpu.c 661-681] exec_load *)
Definition exec_load (h inst : Z) : st World (option Z) :=
  c ← gets (hart h);
  let va := u64 (reg_read c (rs1 inst) + u64 (imm_i inst)) in
  t ← mmu_translate h va ACC_LOAD;
  match t with
  | Fault fault => raise_trap h fault va ;; mret None
  | Phys pa =>
    observe_cache h pa false ;;
    result ← bus (load_value (c_xlen c) (funct3 inst) pa);
    cpu_upd h (reg_write (rd inst) result) ;;
    mret (Some pa)
  end.

(** [src/cpu.c 697-702] exec_store *)
Definition store_value (xlen f3 pa val : Z) : st Bus unit :=
  if f3 =? 0x0 then mem_write8 pa (u8 val)
  else if f3 =? 0x1 then mem_write16 pa (u16 val)
  else if f3 =? 0x2 then mem_write32 pa (u32 val)
  else if f3 =? 0x3 then if xlen =? 64 then mem_write64 pa val else mret tt
  else mret tt.

(** [src/cpu.c 686-703] exec_store *)
Definition exec_store (h inst : Z) : st World (option Z) :=
  c ← gets (hart h);
  let va := u64 (reg_read c (rs1 inst) + u64 (imm_s inst)) in
  let val := reg_read c (rs2 inst) in
  t ← mmu_translate h va ACC_STORE;
  match t with
  | Fault fault => raise_trap h fault va ;; mret None
  | Phys pa =>
    break_reservation h pa ;;
    observe_cache h pa true ;;
    bus (store_value (c_xlen c) (funct3 inst) pa val) ;;
    mret (Some pa)
  end.

(** [src/cpu.c 1693-1705] cpu_exec_mem *)
Definition cpu_exec_mem (h inst : Z) : st World (bool * option Z) :=
  bus (modify (set_b_fault false)) ;;
  cpu_upd h (set_c_trapped false) ;;
  pa ← (if opcode inst =? OP_LOAD then exec_load h inst else exec_store h inst);
  b ← gets w_bus;
  if b_fault b then
    raise_trap h (if opcode inst =? OP_STORE then CAUSE_STORE_ACCESS else CAUSE_LOAD_ACCESS)
      (b_fault_addr b) ;;
    mret (true, pa)
  else
    c ← gets (hart h);
    mret (c_trapped c || c_halted c, pa).

(** ** Atomics *)

(** The value an AMO stores, or [None] for an undefined funct5.
    [src/cpu.c 1133-1144] exec_amo *)
Definition amo64 (funct5 old b : Z) : option Z :=
  if funct5 =? 0x01 then Some b
  else if funct5 =? 0x00 then Some (u64 (old + b))
  else if funct5 =? 0x04 then Some (old .^ b)
  else if funct5 =? 0x0c then Some (old .& b)
  else if funct5 =? 0x08 then Some (old .| b)
  else if funct5 =? 0x10 then Some (if s64 old <? s64 b then old else b)
  else if funct5 =? 0x14 then Some (if s64 b <? s64 old then old else b)
  else if funct5 =? 0x18 then Some (if old <? b then old else b)
  else if funct5 =? 0x1c then Some (if b <? old then old else b)
  else None.

(** [src/cpu.c 1150-1161] exec_amo *)
Definition amo32 (funct5 o bb : Z) : option Z :=
  if funct5 =? 0x01 then Some bb
  else if funct5 =? 0x00 then Some (u32 (o + bb))
  else if funct5 =? 0x04 then Some (o .^ bb)
  else if funct5 =? 0x0c then Some (o .& bb)
  else if funct5 =? 0x08 then Some (o .| bb)
  else if funct5 =? 0x10 then Some (if s32 o <? s32 bb then o else bb)
  else if funct5 =? 0x14 then Some (if s32 bb <? s32 o then o else bb)
  else if funct5 =? 0x18 then Some (if o <? bb then o else bb)
  else if funct5 =? 0x1c then Some (if bb <? o then o else bb)
  else None.

(** [if (cpu->mem->fault) return; k]
    [src/cpu.c 1105-1105] exec_amo *)
Definition unless_fault (k : st World unit) : st World unit :=
  f ← gets (fun w => b_fault (w_bus w));
  if f : bool then mret tt else k.

(** [src/cpu.c 1102-1110] exec_amo *)
Definition exec_lr (h inst addr : Z) (is_d : bool) : st World unit :=
  v ← (if is_d then bus (mem_read64 addr) else v ← bus (mem_read32 addr); mret (sx 32 v));
  unless_fault (cpu_upd h (fun c =>
    reg_write (rd inst) v (set_c_reserve_addr addr (set_c_reserve_valid true c)))).

(** [src/cpu.c 1112-1123] exec_amo *)
Definition exec_sc (h inst addr : Z) (is_d : bool) : st World unit :=
  c ← gets (hart h);
  let fail := negb (c_reserve_valid c && (c_reserve_addr c =? addr)) in
  let finish := cpu_upd h (fun c =>
    reg_write (rd inst) (if fail then 1 else 0) (set_c_reserve_valid false c)) in
  if fail then finish
  else
    (if is_d then bus (mem_write64 addr (reg_read c (rs2 inst)))
     else bus (mem_write32 addr (u32 (reg_read c (rs2 inst))))) ;;
    unless_fault (break_reservation h addr ;; finish).

(** The common tail of an AMO after its write.
    [src/cpu.c 1165-1167] exec_amo *)
Definition amo_finish (h inst addr old : Z) : st World unit :=
  unless_fault (break_reservation h addr ;; cpu_upd h (reg_write (rd inst) old)).

(** [src/cpu.c 1127-1167] exec_amo *)
Definition exec_rmw (h inst addr : Z) (is_d : bool) : st World unit :=
  let funct5 := inst >> 27 in
  c ← gets (hart h);
  let b := reg_read c (rs2 inst) in
  if is_d then
    old ← bus (mem_read64 addr);
    unless_fault
      match amo64 funct5 old b with
      | None => raise_trap h CAUSE_ILLEGAL_INSN inst
      | Some res => bus (mem_write64 addr res) ;; amo_finish h inst addr old
      end
  else
    o ← bus (mem_read32 addr);
    unless_fault
      match amo32 funct5 o (u32 b) with
      | None => raise_trap h CAUSE_ILLEGAL_INSN inst
      | Some r => bus (mem_write32 addr r) ;; amo_finish h inst addr (sx 32 o)
      end.

(** [src/cpu.c 1080-1168] exec_amo *)
Definition exec_amo (h inst : Z) : st World unit :=
  let f3 := funct3 inst in
  let is_d := f3 =? 0x3 in
  let funct5 := inst >> 27 in
  c ← gets (hart h);
  if negb (f3 =? 0x2) && negb (is_d && (c_xlen c =? 64)) then
    raise_trap h CAUSE_ILLEGAL_INSN inst
  else
    let va := reg_read c (rs1 inst) in
    if has va (if is_d then 0x7 else 0x3) then
      raise_trap h (if funct5 =? 0x02 then CAUSE_LOAD_MISALIGNED else CAUSE_STORE_MISALIGNED) va
    else
      t ← mmu_translate h va (if funct5 =? 0x02 then ACC_LOAD else ACC_STORE);
      match t with
      | Fault fault => raise_trap h fault va
      | Phys addr =>
        observe_cache h addr true ;;
        if funct5 =? 0x02 then exec_lr h inst addr is_d
        else if funct5 =? 0x03 then exec_sc h inst addr is_d
        else exec_rmw h inst addr is_d
      end.
