(* ===== verification/Fpu.v ===== *)
(** * Floating-point instructions ([src/cpu.c])

    The F and D extensions: NaN-boxed register access, rounding-mode resolution and
    exception accrual around the soft-float operations, FP loads and stores. *)

From S2P Require Import Prelude Decode Device Memory Cache Softfloat Cpu Mmu See Trap.

(** ** Registers and flags *)

(** [src/cpu.c 1190-1193] mark_fs_dirty *)
Definition mark_fs_dirty (c : CPU) : CPU :=
  let c := set_csr CSR_MSTATUS (csr c CSR_MSTATUS .| MSTATUS_FS) c in
  set_csr CSR_MSTATUS (csr c CSR_MSTATUS .| u64 (1 << (c_xlen c - 1))) c.

(** [src/cpu.c 1197-1200] fread_s *)
Definition fread_s (c : CPU) (i : Z) : Z :=
  let v := (c_fregs c).[i] in
  if v >> 32 =? 0xffffffff then u32 v else F32_QNAN.

(** [src/cpu.c 1201-1204] fwrite_s *)
Definition fwrite_s (i v : Z) (c : CPU) : CPU :=
  mark_fs_dirty (set_c_fregs (aset i (0xffffffff00000000 .| v) (c_fregs c)) c).

(** [src/cpu.c 1205-1205] fread_d *)
Definition fread_d (c : CPU) (i : Z) : Z := (c_fregs c).[i].

(** [src/cpu.c 1206-1209] fwrite_d *)
Definition fwrite_d (i v : Z) (c : CPU) : CPU :=
  mark_fs_dirty (set_c_fregs (aset i v (c_fregs c)) c).

(** [src/cpu.c 1210-1210] faccrue *)
Definition faccrue (fl : Z) (c : CPU) : CPU :=
  set_csr CSR_FCSR (csr c CSR_FCSR .| (fl .& 0x1f)) c.

(** The rounding mode, and whether it is reserved.
    [src/cpu.c 1214-1219] resolve_rm *)
Definition resolve_rm (c : CPU) (inst : Z) : Z * bool :=
  let rm := funct3 inst in
  let rm := if rm =? 7 then (csr c CSR_FCSR >> 5) .& 0x7 else rm in
  (rm, 4 <? rm).

(** ** Loads and stores *)

(** [src/cpu.c 1221-1232] exec_load_fp *)
Definition exec_load_fp (h inst : Z) : st World unit :=
  c ← gets (hart h);
  let va := u64 (reg_read c (rs1 inst) + u64 (imm_i inst)) in
  t ← mmu_translate h va ACC_LOAD;
  match t with
  | Fault fault => raise_trap h fault va
  | Phys pa =>
    observe_cache h pa false ;;
    if funct3 inst =? 0x2 then v ← bus (mem_read32 pa); cpu_upd h (fwrite_s (rd inst) v)
    else if funct3 inst =? 0x3 then v ← bus (mem_read64 pa); cpu_upd h (fwrite_d (rd inst) v)
    else raise_trap h CAUSE_ILLEGAL_INSN inst
  end.

(** [src/cpu.c 1233-1245] exec_store_fp *)
Definition exec_store_fp (h inst : Z) : st World unit :=
  c ← gets (hart h);
  let va := u64 (reg_read c (rs1 inst) + u64 (imm_s inst)) in
  t ← mmu_translate h va ACC_STORE;
  match t with
  | Fault fault => raise_trap h fault va
  | Phys pa =>
    break_reservation h pa ;;
    observe_cache h pa true ;;
    let v := (c_fregs c).[rs2 inst] in
    if funct3 inst =? 0x2 then bus (mem_write32 pa (u32 v))
    else if funct3 inst =? 0x3 then bus (mem_write64 pa v)
    else raise_trap h CAUSE_ILLEGAL_INSN inst
  end.

(** ** Arithmetic *)

(** The destination of a result. *)
Inductive FDest := ToS | ToD | ToX.

(** [src/cpu.c 1266-1266] exec_fp *)
Definition fwrite (d : FDest) (rd_ r : Z) : CPU -> CPU :=
  match d with ToS => fwrite_s rd_ r | ToD => fwrite_d rd_ r | ToX => reg_write rd_ r end.

(** Run a soft-float operation from clear flags, write its result and accrue the
    exceptions it raised.
    [src/cpu.c 1254-1273] exec_fp *)
Definition fcommit (h : Z) (d : FDest) (rd_ : Z) (m : st Z Z) : st World unit :=
  cpu_upd h (fun c => faccrue (exec m 0) (fwrite d rd_ (run m 0) c)).

(** [src/cpu.c 1263-1270] exec_fp *)
Definition fp_arith (fmt op a b rm : Z) : st Z Z :=
  if fmt =? 0 then
    if op =? 0 then f32_add a b rm
    else if op =? 1 then f32_sub a b rm
    else if op =? 2 then f32_mul a b rm
    else f32_div a b rm
  else
    if op =? 0 then f64_add a b rm
    else if op =? 1 then f64_sub a b rm
    else if op =? 2 then f64_mul a b rm
    else f64_div a b rm.

(** [src/cpu.c 1282-1284] exec_fp *)
Definition fsgnj32 (f3 a b : Z) : Z :=
  let s := if f3 =? 0 then b >> 31
           else if f3 =? 1 then u32 (Z.lnot (b >> 31)) .& 1
           else (a .^ b) >> 31 in
  (a .& 0x7fffffff) .| u32 (s << 31).

(** [src/cpu.c 1286-1288] exec_fp *)
Definition fsgnj64 (f3 a b : Z) : Z :=
  let s := if f3 =? 0 then b >> 63
           else if f3 =? 1 then u64 (Z.lnot (b >> 63)) .& 1
           else (a .^ b) >> 63 in
  (a .& 0x7fffffffffffffff) .| u64 (s << 63).

(** [src/cpu.c 1304-1309] exec_fp *)
Definition fp_compare (fmt f3 a b : Z) : st Z Z :=
  if fmt =? 0 then
    if f3 =? 2 then f32_eq a b else if f3 =? 1 then f32_lt a b else f32_le a b
  else
    if f3 =? 2 then f64_eq a b else if f3 =? 1 then f64_lt a b else f64_le a b.

(** [src/cpu.c 1291-1297] exec_fp *)
Definition fp_minmax_op (fmt f3 a b : Z) : st Z Z :=
  if fmt =? 0 then if f3 =? 0 then f32_min a b else f32_max a b
  else if f3 =? 0 then f64_min a b else f64_max a b.

(** [src/cpu.c 1331-1346] exec_fp *)
Definition fp_to_int_op (fmt rs2_ a rm : Z) : st Z Z :=
  if fmt =? 0 then
    if rs2_ =? 0 then r ← f32_to_i32 a rm; mret (u64 r)
    else if rs2_ =? 1 then r ← f32_to_u32 a rm; mret (sx 32 r)
    else if rs2_ =? 2 then r ← f32_to_i64 a rm; mret (u64 r)
    else f32_to_u64 a rm
  else
    if rs2_ =? 0 then r ← f64_to_i32 a rm; mret (u64 r)
    else if rs2_ =? 1 then r ← f64_to_u32 a rm; mret (sx 32 r)
    else if rs2_ =? 2 then r ← f64_to_i64 a rm; mret (u64 r)
    else f64_to_u64 a rm.

(** [src/cpu.c 1353-1370] exec_fp *)
Definition int_to_fp_op (fmt rs2_ x rm : Z) : st Z Z :=
  if fmt =? 0 then
    if rs2_ =? 0 then i32_to_f32 (s32 x) rm
    else if rs2_ =? 1 then u32_to_f32 (u32 x) rm
    else if rs2_ =? 2 then i64_to_f32 (s64 x) rm
    else u64_to_f32 x rm
  else
    if rs2_ =? 0 then i32_to_f64 (s32 x) rm
    else if rs2_ =? 1 then u32_to_f64 (u32 x) rm
    else if rs2_ =? 2 then i64_to_f64 (s64 x) rm
    else u64_to_f64 x rm.

(** The FMV.X, FCLASS and FMV.F groups (no flags).
    [src/cpu.c 1313-1327] exec_fp *)
Definition exec_fmv (h inst fmt : Z) (from_x : bool) : st World unit :=
  let rd_ := rd inst in
  let rs1_ := rs1 inst in
  c ← gets (hart h);
  if from_x then
    if fmt =? 0 then cpu_upd h (fwrite_s rd_ (u32 (reg_read c rs1_)))
    else if negb (c_xlen c =? 64) then raise_trap h CAUSE_ILLEGAL_INSN inst
    else cpu_upd h (fwrite_d rd_ (reg_read c rs1_))
  else if funct3 inst =? 0 then
    if fmt =? 0 then cpu_upd h (reg_write rd_ (sx 32 (c_fregs c).[rs1_]))
    else if negb (c_xlen c =? 64) then raise_trap h CAUSE_ILLEGAL_INSN inst
    else cpu_upd h (reg_write rd_ (c_fregs c).[rs1_])
  else
    cpu_upd h (reg_write rd_ (if fmt =? 0 then f32_classify (fread_s c rs1_)
                              else f64_classify (fread_d c rs1_))).

(** [src/cpu.c 1250-1376] exec_fp *)
Definition exec_fp (h inst : Z) : st World unit :=
  let op := inst >> 27 in
  let fmt := (inst >> 25) .& 0x3 in
  let rd_ := rd inst in
  let rs2_ := rs2 inst in
  let f3 := funct3 inst in
  c ← gets (hart h);
  let rm := (resolve_rm c inst).1 in
  let bad := (resolve_rm c inst).2 in
  let illegal := raise_trap h CAUSE_ILLEGAL_INSN inst in
  let rd_f i := if fmt =? 0 then fread_s c i else fread_d c i in
  let a := rd_f (rs1 inst) in
  let b := rd_f rs2_ in
  let dest := if fmt =? 0 then ToS else ToD in
  let only64 := ((rs2_ =? 2) || (rs2_ =? 3)) && negb (c_xlen c =? 64) in
  if 1 <? fmt then illegal
  else if (op =? 0x00) || (op =? 0x01) || (op =? 0x02) || (op =? 0x03) then
    if bad : bool then illegal else fcommit h dest rd_ (fp_arith fmt op a b rm)
  else if op =? 0x0b then
    if bad : bool then illegal
    else fcommit h dest rd_ (if fmt =? 0 then f32_sqrt a rm else f64_sqrt a rm)
  else if op =? 0x04 then
    cpu_upd h (if fmt =? 0 then fwrite_s rd_ (fsgnj32 f3 a b) else fwrite_d rd_ (fsgnj64 f3 a b))
  else if op =? 0x05 then fcommit h dest rd_ (fp_minmax_op fmt f3 a b)
  else if op =? 0x08 then
    if fmt =? 0 then
      if bad : bool then illegal else fcommit h ToS rd_ (f64_to_f32 (fread_d c (rs1 inst)) rm)
    else fcommit h ToD rd_ (f32_to_f64 (fread_s c (rs1 inst)))
  else if op =? 0x14 then fcommit h ToX rd_ (fp_compare fmt f3 a b)
  else if op =? 0x1c then exec_fmv h inst fmt false
  else if op =? 0x1e then exec_fmv h inst fmt true
  else if op =? 0x18 then
    if bad || only64 then illegal else fcommit h ToX rd_ (fp_to_int_op fmt rs2_ a rm)
  else if op =? 0x1a then
    if bad || only64 then illegal
    else fcommit h dest rd_ (int_to_fp_op fmt rs2_ (reg_read c (rs1 inst)) rm)
  else illegal.

(** [src/cpu.c 1381-1399] exec_fmadd *)
Definition exec_fmadd (h inst : Z) (flipA flipC : bool) : st World unit :=
  let fmt := (inst >> 25) .& 0x3 in
  let rd_ := rd inst in
  let rs3_ := inst >> 27 in
  c ← gets (hart h);
  let rm := (resolve_rm c inst).1 in
  let bad := (resolve_rm c inst).2 in
  if (1 <? fmt) || bad then raise_trap h CAUSE_ILLEGAL_INSN inst
  else if fmt =? 0 then
    let flip (f : bool) v := if f then v .^ 0x80000000 else v in
    fcommit h ToS rd_ (f32_muladd (flip flipA (fread_s c (rs1 inst))) (fread_s c (rs2 inst))
                                  (flip flipC (fread_s c rs3_)) rm)
  else
    let flip (f : bool) v := if f then v .^ 0x8000000000000000 else v in
    fcommit h ToD rd_ (f64_muladd (flip flipA (fread_d c (rs1 inst))) (fread_d c (rs2 inst))
                                  (flip flipC (fread_d c rs3_)) rm).
