(* ===== verification/Step.v ===== *)
(** * One instruction ([src/cpu.c])

    [cpu_step]: the interrupt prologue, translated fetch through the decode cache,
    dispatch on the opcode and the retire/trap epilogue; the interrupt horizon the JIT
    consults. *)

From S2P Require Import Prelude Decode Rvc Device Memory Cache Softfloat Cpu Mmu See Trap Alu Exec Fpu.

(** The decode cache of hart [h] when it is attached. *)
Definition dcache_of (h : Z) (w : World) : option DecodeCache :=
  if c_dcache (hart h w) then w_dcaches w !! h else None.

(** A hit in the decode cache.
    [src/cpu.c 1511-1515] cpu_step *)
Definition dc_lookup (d : option DecodeCache) (lo_pa : Z) : option (Z * Z) :=
  match d with
  | None => None
  | Some dc =>
    let slot := dc_slot dc (DC_INDEX lo_pa) in
    if (di_gen slot =? dc_gen dc) && (di_pa slot =? lo_pa)
    then Some (di_inst slot, di_ilen slot) else None
  end.

(** Fill the slot of [lo_pa] of hart [h]'s decode cache.
    [src/cpu.c 1546-1547] cpu_step *)
Definition dc_fill (h lo_pa inst ilen : Z) (w : World) : World :=
  match w_dcaches w !! h with
  | None => w
  | Some dc => set_w_dcaches (<[h := set_dc_slots
      (<[DC_INDEX lo_pa := mkDecodedInsn (dc_gen dc) lo_pa inst ilen]> (dc_slots dc)) dc]> (w_dcaches w)) w
  end.

(** Does the address fall in a device window of the attached platform?
    [src/cpu.c 1545-1545] cpu_step *)
Definition on_device (b : Bus) (pa : Z) : bool := b_has_plat b && plat_contains pa.

(** The second half of a 32-bit instruction: [None] after a trap, else the halfword and
    whether it came from a device.
    [src/cpu.c 1533-1540] cpu_step *)
Definition fetch_hi (h : Z) : st World (option (Z * bool)) :=
  c ← gets (hart h);
  let pc2 := u64 (c_pc c + 2) in
  t ← mmu_translate h pc2 ACC_FETCH;
  match t with
  | Fault fch => raise_trap h fch pc2 ;; mret None
  | Phys hi_pa =>
    hi ← bus (mem_read16 hi_pa);
    b ← gets w_bus;
    if b_fault b then raise_trap h CAUSE_INSN_ACCESS pc2 ;; mret None
    else mret (Some (hi, on_device b hi_pa))
  end.

(** The miss path: read and expand the instruction at [lo_pa]; [None] after a trap, else
    the instruction, its length and whether it may be cached.
    [src/cpu.c 1522-1545] cpu_step *)
Definition fetch_miss (h lo_pa : Z) : st World (option (Z * Z * bool)) :=
  c ← gets (hart h);
  lo ← bus (mem_read16 lo_pa);
  b ← gets w_bus;
  if b_fault b then raise_trap h CAUSE_INSN_ACCESS (c_pc c) ;; mret None
  else if negb (lo .& 0x3 =? 0x3) then
    let inst := rvc_expand lo (c_xlen c =? 64) in
    if inst =? RVC_ILLEGAL then raise_trap h CAUSE_ILLEGAL_INSN lo ;; mret None
    else mret (Some (inst, 2, negb (on_device b lo_pa)))
  else
    r ← fetch_hi h;
    match r with
    | None => mret None
    | Some (hi, dev) =>
      mret (Some (lo .| u32 (hi << 16), 4, negb dev && negb (on_device b lo_pa)))
    end.

(** [src/cpu.c 1506-1548] cpu_step *)
Definition fetch (h : Z) : st World (option (Z * Z)) :=
  c ← gets (hart h);
  t ← mmu_translate h (c_pc c) ACC_FETCH;
  match t with
  | Fault fc => raise_trap h fc (c_pc c) ;; mret None
  | Phys lo_pa =>
    d ← gets (dcache_of h);
    match dc_lookup d lo_pa with
    | Some r => mret (Some r)
    | None =>
      r ← fetch_miss h lo_pa;
      match r with
      | None => mret None
      | Some (inst, ilen, cacheable) =>
        when (cacheable && bool_decide (is_Some d)) (modify (dc_fill h lo_pa inst ilen)) ;;
        mret (Some (inst, ilen))
      end
    end
  end.

(** [src/cpu.c 1624-1636] cpu_step *)
Definition exec_fence (h inst : Z) : st World unit :=
  c ← gets (hart h);
  when (funct3 inst =? 0x1)
    (when (c_dcache c) (modify (fun w => set_w_dcaches (alter dcache_flush h (w_dcaches w)) w)) ;;
     when (c_jit c) (modify (fun w => set_w_jit (jit_flush (w_jit w)) w))).

(** Decode and execute; the result is [next_pc].
    [src/cpu.c 1549-1645] cpu_step *)
Definition dispatch (h inst ilen : Z) : st World Z :=
  c ← gets (hart h);
  let next := u64 (c_pc c + ilen) in
  let op := opcode inst in
  if op =? OP_IMM then exec_op_imm h inst ;; mret next
  else if op =? OP_IMM_32 then exec_op_imm32 h inst ;; mret next
  else if op =? OP_REG then exec_op h inst ;; mret next
  else if op =? OP_REG_32 then exec_op32 h inst ;; mret next
  else if op =? OP_LUI then cpu_upd h (reg_write (rd inst) (u64 (imm_u inst))) ;; mret next
  else if op =? OP_AUIPC then
    cpu_upd h (reg_write (rd inst) (u64 (c_pc c + u64 (imm_u inst)))) ;; mret next
  else if op =? OP_JAL then
    cpu_upd h (reg_write (rd inst) next) ;; mret (u64 (c_pc c + u64 (imm_j inst)))
  else if op =? OP_JALR then
    let target := u64 (reg_read c (rs1 inst) + u64 (imm_i inst)) .& u64 (Z.lnot 1) in
    cpu_upd h (reg_write (rd inst) next) ;; mret target
  else if op =? OP_BRANCH then mret (exec_branch c inst ilen)
  else if op =? OP_LOAD then exec_load h inst ;; mret next
  else if op =? OP_STORE then exec_store h inst ;; mret next
  else if op =? OP_AMO then exec_amo h inst ;; mret next
  else if op =? OP_LOAD_FP then exec_load_fp h inst ;; mret next
  else if op =? OP_STORE_FP then exec_store_fp h inst ;; mret next
  else if op =? OP_FP then exec_fp h inst ;; mret next
  else if op =? OP_MADD then exec_fmadd h inst false false ;; mret next
  else if op =? OP_MSUB then exec_fmadd h inst false true ;; mret next
  else if op =? OP_NMSUB then exec_fmadd h inst true false ;; mret next
  else if op =? OP_NMADD then exec_fmadd h inst true true ;; mret next
  else if op =? OP_FENCE then exec_fence h inst ;; mret next
  else if op =? OP_SYSTEM then exec_system h inst
  else raise_trap h CAUSE_ILLEGAL_INSN inst ;; mret next.

(** [src/cpu.c 1647-1665] cpu_step *)
Definition retire (h inst next_pc : Z) : st World unit :=
  b ← gets w_bus;
  c ← gets (hart h);
  if b_fault b then
    let op := opcode inst in
    raise_trap h (if (op =? OP_STORE) || (op =? OP_AMO) || (op =? OP_STORE_FP)
                  then CAUSE_STORE_ACCESS else CAUSE_LOAD_ACCESS) (b_fault_addr b)
  else if c_trapped c then mret tt
  else if c_halted c then mret tt
  else if has next_pc 0x1 then raise_trap h CAUSE_INSN_MISALIGNED next_pc
  else cpu_upd h (fun c => set_c_pc (sext_xlen c next_pc) (set_c_instret (u64 (c_instret c + 1)) c)).

(** [src/cpu.c 1494-1666] cpu_step *)
Definition cpu_step (h : Z) : st World unit :=
  bus (modify (set_b_fault false)) ;;
  cpu_upd h (set_c_trapped false) ;;
  consumed ← cpu_pre_step h;
  if consumed : bool then mret tt
  else
    f ← fetch h;
    match f with
    | None => mret tt
    | Some (inst, ilen) => next_pc ← dispatch h inst ilen; retire h inst next_pc
    end.

(** [src/cpu.c 1713-1746] cpu_interrupt_horizon *)
Definition cpu_interrupt_horizon (c : CPU) (b : Bus) : Z :=
  let far := 1 << 62 in
  if negb (b_has_plat b) then far
  else
    let k := clint (b_plat b) in
    let mie := u32 (csr c CSR_MIE) in
    let mideleg := u32 (csr c CSR_MIDELEG) in
    let ms := u32 (csr c CSR_MSTATUS) in
    let m_on := (c_priv c <? PRIV_M) || has ms MSTATUS_MIE in
    let s_on := (c_priv c <? PRIV_S) || ((c_priv c =? PRIV_S) && has ms MSTATUS_SIE) in
    let cmp := (mtimecmp k).[c_hartid c] in
    let d_mtip := if cmp <=? mtime k then 0 else u64 (cmp - mtime k) in
    let gate i := if has (mideleg >> i) 1 then s_on else m_on in
    let h := if has mie (1 << IRQ_MTIMER) && gate IRQ_MTIMER && (d_mtip <? far) then d_mtip else far in
    if has mie (1 << IRQ_STIMER) && gate IRQ_STIMER then
      let h := if c_sbi_timer_armed c && (d_mtip <? h) then d_mtip else h in
      if has (csr c CSR_MENVCFG) MENVCFG_STCE then
        let cmp := csr c CSR_STIMECMP in
        let d := if cmp <=? c_instret c then 0 else u64 (cmp - c_instret c) in
        if d <? h then d else h
      else h
    else h.
