(* ===== verification/CpuInv.v ===== *)
(** * The hart invariant

    Well-formedness of a hart and of the machine around it, and that every operation of
    the core keeps it, for any guest program: registers hold 64-bit values and, on RV32,
    the sign extension of their low half; the privilege is a two-bit value; memory, the
    devices and the decode caches stay well formed; no operation changes the register
    width, the hart ids or the memory map. *)

From S2P Require Import Prelude Decode Rvc Device DeviceInv Memory Cache Softfloat SoftfloatRange Cpu Mmu See Trap Alu Exec Fpu Step.

(** ** Harts *)

Record tlb_ok (e : TlbEntry) : Prop := {
  ok_t_vpn : rng 64 (t_vpn e);
  ok_t_asid : rng 32 (t_asid e);
  ok_t_ppn : rng 64 (t_ppn e);
  ok_t_flags : rng 32 (t_flags e)
}.

(** A slot of the hart array no loader initialised is zeroed, hence width 0. *)
Record cpu_ok (c : CPU) : Prop := {
  ok_xlen : c_xlen c = 0 \/ c_xlen c = 32 \/ c_xlen c = 64;
  ok_regs : arr_rng 64 (c_regs c);
  ok_sext : c_xlen c = 32 -> forall i, (c_regs c).[i] = sx 32 (c_regs c).[i];
  ok_fregs : arr_rng 64 (c_fregs c);
  ok_pc : rng 64 (c_pc c);
  ok_hartid : rng 32 (c_hartid c);
  ok_exit_code : rng 32 (c_exit_code c);
  ok_instret : rng 64 (c_instret c);
  ok_priv : rng 2 (c_priv c);
  ok_reserve_addr : rng 64 (c_reserve_addr c);
  ok_tlb : forall i, tlb_ok (tlb_slot c i);
  ok_csr : arr_rng 64 (c_csr c)
}.

(** [cpu_inv c0 c]: well formed, with the width and id of [c0]. *)
Record cpu_inv (c0 c : CPU) : Prop := {
  ci_ok : cpu_ok c;
  ci_xlen : c_xlen c = c_xlen c0;
  ci_hartid : c_hartid c = c_hartid c0
}.

Create HintDb cinv discriminated.
#[export] Hint Constants Opaque : cinv.

Lemma cinv_set_c_cache c0 c (v : bool) : cpu_inv c0 c -> cpu_inv c0 (set_c_cache v c).
Proof. intros [[] ? ?]. constructor; [by constructor|done..]. Qed.
Lemma cinv_set_c_dcache c0 c (v : bool) : cpu_inv c0 c -> cpu_inv c0 (set_c_dcache v c).
Proof. intros [[] ? ?]. constructor; [by constructor|done..]. Qed.
Lemma cinv_set_c_jit c0 c (v : bool) : cpu_inv c0 c -> cpu_inv c0 (set_c_jit v c).
Proof. intros [[] ? ?]. constructor; [by constructor|done..]. Qed.
Lemma cinv_set_c_halted c0 c (v : bool) : cpu_inv c0 c -> cpu_inv c0 (set_c_halted v c).
Proof. intros [[] ? ?]. constructor; [by constructor|done..]. Qed.
Lemma cinv_set_c_halt_reason c0 c (v : HaltReason) : cpu_inv c0 c -> cpu_inv c0 (set_c_halt_reason v c).
Proof. intros [[] ? ?]. constructor; [by constructor|done..]. Qed.
Lemma cinv_set_c_trapped c0 c (v : bool) : cpu_inv c0 c -> cpu_inv c0 (set_c_trapped v c).
Proof. intros [[] ? ?]. constructor; [by constructor|done..]. Qed.
Lemma cinv_set_c_sbi_timer_armed c0 c (v : bool) : cpu_inv c0 c -> cpu_inv c0 (set_c_sbi_timer_armed v c).
Proof. intros [[] ? ?]. constructor; [by constructor|done..]. Qed.
Lemma cinv_set_c_hsm_state c0 c (v : Z) : cpu_inv c0 c -> cpu_inv c0 (set_c_hsm_state v c).
Proof. intros [[] ? ?]. constructor; [by constructor|done..]. Qed.
Lemma cinv_set_c_reserve_valid c0 c (v : bool) : cpu_inv c0 c -> cpu_inv c0 (set_c_reserve_valid v c).
Proof. intros [[] ? ?]. constructor; [by constructor|done..]. Qed.
Lemma cinv_set_c_tlb_next c0 c (v : Z) : cpu_inv c0 c -> cpu_inv c0 (set_c_tlb_next v c).
Proof. intros [[] ? ?]. constructor; [by constructor|done..]. Qed.
Lemma cinv_set_c_pc c0 c v : rng 64 v -> cpu_inv c0 c -> cpu_inv c0 (set_c_pc v c).
Proof. intros ? [[] ? ?]. constructor; [by constructor|done..]. Qed.
Lemma cinv_set_c_exit_code c0 c v : rng 32 v -> cpu_inv c0 c -> cpu_inv c0 (set_c_exit_code v c).
Proof. intros ? [[] ? ?]. constructor; [by constructor|done..]. Qed.
Lemma cinv_set_c_instret c0 c v : rng 64 v -> cpu_inv c0 c -> cpu_inv c0 (set_c_instret v c).
Proof. intros ? [[] ? ?]. constructor; [by constructor|done..]. Qed.
Lemma cinv_set_c_priv c0 c v : rng 2 v -> cpu_inv c0 c -> cpu_inv c0 (set_c_priv v c).
Proof. intros ? [[] ? ?]. constructor; [by constructor|done..]. Qed.
Lemma cinv_set_c_reserve_addr c0 c v : rng 64 v -> cpu_inv c0 c -> cpu_inv c0 (set_c_reserve_addr v c).
Proof. intros ? [[] ? ?]. constructor; [by constructor|done..]. Qed.
#[export] Hint Resolve cinv_set_c_cache cinv_set_c_dcache cinv_set_c_jit cinv_set_c_halted cinv_set_c_halt_reason cinv_set_c_trapped cinv_set_c_sbi_timer_armed cinv_set_c_hsm_state cinv_set_c_reserve_valid cinv_set_c_tlb_next
  cinv_set_c_pc cinv_set_c_exit_code cinv_set_c_instret cinv_set_c_priv cinv_set_c_reserve_addr : cinv.
Lemma sx_rng n v : rng 64 (sx n v).
Proof. apply u64_rng. Qed.

Lemma sx_idem n v : 0 < n <= 64 -> sx n (sx n v) = sx n v.
Proof.
  intros. unfold sx, u64. f_equal. rewrite sgn_wrap by lia.
  unfold sgn at 1. rewrite wrap_sgn by lia. done.
Qed.

Lemma sext_xlen_rng c v : rng 64 v -> rng 64 (sext_xlen c v).
Proof. intros. unfold sext_xlen; cbv zeta. rng_auto. Qed.

Lemma cinv_reg_write c0 c i v : rng 64 v -> cpu_inv c0 c -> cpu_inv c0 (reg_write i v c).
Proof.
  intros Hv [[] Hx Hh]. unfold reg_write. destruct (i =? 0); [constructor; [by constructor|done..]|].
  constructor; [|done..]. constructor; try done.
  - apply arr_rng_aset; [done|by apply sext_xlen_rng].
  - cbn. intros E j. rewrite aget_aset. destruct (i =? j); [|auto].
    unfold sext_xlen. rewrite E. cbn. change (u64 (s32 v)) with (sx 32 v). by rewrite sx_idem.
Qed.

Lemma cinv_set_c_fregs c0 c a : arr_rng 64 a -> cpu_inv c0 c -> cpu_inv c0 (set_c_fregs a c).
Proof. intros ? [[] ? ?]. constructor; [by constructor|done..]. Qed.

Lemma cinv_set_csr c0 c i v : rng 64 v -> cpu_inv c0 c -> cpu_inv c0 (set_csr i v c).
Proof.
  intros ? [[] ? ?]. constructor; [|done..]. constructor; try done. by apply arr_rng_aset.
Qed.

Lemma tlb_slot_insert c i j e :
  tlb_slot (set_c_tlb (<[i := e]> (c_tlb c)) c) j = if decide (i = j) then e else tlb_slot c j.
Proof.
  unfold tlb_slot. cbn [set_c_tlb c_tlb]. destruct (decide (i = j)) as [->|];
    [by rewrite lookup_insert_eq|by rewrite lookup_insert_ne].
Qed.

Lemma cinv_tlb_insert c0 c i e : tlb_ok e -> cpu_inv c0 c -> cpu_inv c0 (set_c_tlb (<[i := e]> (c_tlb c)) c).
Proof.
  intros ? [[] ? ?]. constructor; [|done..]. constructor; try done.
  intros j. rewrite tlb_slot_insert. by destruct (decide (i = j)).
Qed.

Lemma cinv_mmu_flush c0 c : cpu_inv c0 c -> cpu_inv c0 (mmu_flush c).
Proof.
  intros Hc. apply cinv_set_c_tlb_next. generalize (zseq 0 16). intros l. revert c Hc.
  induction l as [|i l IH]; intros c Hc; [done|]. apply IH. apply cinv_tlb_insert; [|done].
  destruct Hc as [[] _ _]. by destruct (ok_tlb0 i).
Qed.

Lemma reg_read_rng c i : cpu_ok c -> rng 64 (reg_read c i).
Proof. intros []. unfold reg_read. rng_auto. Qed.

Lemma freg_rng c i : cpu_ok c -> rng 64 (c_fregs c).[i].
Proof. intros []. rng_auto. Qed.

Lemma csr_rng c i : cpu_ok c -> rng 64 (csr c i).
Proof. intros []. unfold csr. rng_auto. Qed.


#[export] Hint Resolve cinv_reg_write cinv_set_csr cinv_tlb_insert cinv_mmu_flush cinv_set_c_fregs : cinv.
#[export] Hint Resolve reg_read_rng freg_rng csr_rng sx_rng sext_xlen_rng ok_pc ok_instret ok_hartid
  ok_exit_code ok_priv ok_reserve_addr ok_tlb ok_t_vpn ok_t_asid ok_t_ppn ok_t_flags ok_fregs ci_ok : rng.
#[export] Hint Extern 5 (rng 64 _) => apply (rng_mono 32); [lia|] : rng.

(** ** The machine *)

Definition dcache_ok (d : DecodeCache) : Prop :=
  forall i, rng 32 (di_inst (dc_slot d i)) /\ rng 3 (di_ilen (dc_slot d i)).

(** [world_inv w0 w]: [w] is well formed, and has the memory map, register widths and hart
    ids of [w0]. *)
Record world_inv (w0 w : World) : Prop := {
  wi_mem : mem_inv (w_bus w0) (w_bus w);
  wi_harts : forall h, cpu_inv (hart h w0) (hart h w);
  wi_dcaches : forall h d, w_dcaches w !! h = Some d -> dcache_ok d
}.
Definition world_ok (w : World) : Prop := world_inv w w.

Lemma hart_upd h h' f w : hart h' (upd_hart h f w) = if decide (h = h') then f (hart h w) else hart h' w.
Proof.
  unfold hart at 1. unfold upd_hart. cbn [set_w_harts w_harts]. destruct (decide (h = h')) as [->|];
    [by rewrite lookup_insert_eq|by rewrite lookup_insert_ne].
Qed.

Lemma mem_inv_rng b0 b : mem_inv b0 b -> rng 64 (b_base b) /\ rng 64 (b_size b) /\ bus_ok b.
Proof. by intros [[] _]. Qed.

Section Keep.
Context (w0 : World).
#[local] Abbreviation I := (world_inv w0).

Lemma keep_hart h : keeps I (gets (hart h)) (cpu_inv (hart h w0)).
Proof. apply keeps_gets. intros w Hw. apply Hw. Qed.

Lemma keep_w_bus : keeps I (gets w_bus) (mem_inv (w_bus w0)).
Proof. apply keeps_gets. intros w Hw. apply Hw. Qed.

Lemma keep_upd h f : (forall c, cpu_inv (hart h w0) c -> cpu_inv (hart h w0) (f c)) ->
keeps I (cpu_upd h f) (fun _ => True).
Proof.
intros Hf. apply keeps_modify; [done|]. intros w [Hm Hh Hd]. constructor; [done| |done].
intros h'. rewrite hart_upd. destruct (decide (h = h')) as [->|]; [by apply Hf|done].
Qed.

Lemma keep_bus {A} (m : st Bus A) P : keeps (mem_inv (w_bus w0)) m P -> keeps I (bus m) P.
Proof.
intros Hm w [Hb Hh Hd]. specialize (Hm _ Hb). unfold run, exec, bus in *.
destruct (m (w_bus w)) as [a b]. cbn in *. destruct Hm. split; [done|by constructor].
Qed.

Lemma keep_gets_any {A} (f : World -> A) : keeps I (gets f) (fun _ => True).
Proof. by apply keeps_gets. Qed.

Lemma keep_cache f : keeps I (modify (fun w => set_w_cache (f w) w)) (fun _ => True).
Proof. apply keeps_modify; [done|]. by intros w []. Qed.

Lemma keep_jit f : keeps I (modify (fun w => set_w_jit (f w) w)) (fun _ => True).
Proof. apply keeps_modify; [done|]. by intros w []. Qed.

Lemma keep_mem_read w a : rng 64 a -> keeps I (bus (mem_read w a)) (rng (8 * Z.of_nat (nbytes w))).
Proof.
intros Ha. apply keep_bus. intros b Hb. split; [|by apply pres_mem_read].
apply mem_read_rng; [by destruct Hb|done].
Qed.
Lemma keep_mem_read8 a : rng 64 a -> keeps I (bus (mem_read8 a)) (rng 8).
Proof. apply (keep_mem_read W8). Qed.
Lemma keep_mem_read16 a : rng 64 a -> keeps I (bus (mem_read16 a)) (rng 16).
Proof. apply (keep_mem_read W16). Qed.
Lemma keep_mem_read32 a : rng 64 a -> keeps I (bus (mem_read32 a)) (rng 32).
Proof. apply (keep_mem_read W32). Qed.
Lemma keep_mem_read64 a : rng 64 a -> keeps I (bus (mem_read64 a)) (rng 64).
Proof. apply (keep_mem_read W64). Qed.

Lemma keep_mem_write w a v : rng 64 a -> store_arg w v -> keeps I (bus (mem_write w a v)) (fun _ => True).
Proof. intros Ha Hv. apply keep_bus. intros b Hb. split; [done|by apply pres_mem_write]. Qed.
Lemma keep_mem_write8 a v : rng 64 a -> rng 8 v -> keeps I (bus (mem_write8 a v)) (fun _ => True).
Proof. apply (keep_mem_write W8). Qed.
Lemma keep_mem_write16 a v : rng 64 a -> rng 16 v -> keeps I (bus (mem_write16 a v)) (fun _ => True).
Proof. apply (keep_mem_write W16). Qed.
Lemma keep_mem_write32 a v : rng 64 a -> rng 32 v -> keeps I (bus (mem_write32 a v)) (fun _ => True).
Proof. apply (keep_mem_write W32). Qed.
Lemma keep_mem_write64 a v : rng 64 a -> rng 64 v -> keeps I (bus (mem_write64 a v)) (fun _ => True).
Proof. apply (keep_mem_write W64). Qed.

(** The updates of the shared memory's own fields. *)
Lemma keep_bus_modify f : (forall b, mem_inv (w_bus w0) b -> mem_inv (w_bus w0) (f b)) ->
keeps I (bus (modify f)) (fun _ => True).
Proof. intros. apply keep_bus. by apply keeps_modify. Qed.

Lemma keep_fault v : keeps I (bus (modify (set_b_fault v))) (fun _ => True).
Proof. apply keep_bus_modify. intros b [[[] ? ? ?] []]. split; [constructor; [by constructor|done..]|by constructor]. Qed.

Lemma keep_host e : keeps I (host e) (fun _ => True).
Proof. apply keep_bus_modify. intros b [[[] ? ? ?] []]. split; [constructor; [by constructor|done..]|by constructor]. Qed.
End Keep.

(** ** Hart-local functions *)

Lemma cinv_if c0 (b : bool) c d : cpu_inv c0 c -> cpu_inv c0 d -> cpu_inv c0 (if b then c else d).
Proof. by destruct b. Qed.
#[export] Hint Extern 1 (cpu_inv _ (if _ then _ else _)) => apply cinv_if : cinv.
#[export] Hint Extern 2 (rng _ _) => rng_auto : cinv.
#[export] Hint Extern 1 (arr_rng _ (aset _ _ _)) => apply arr_rng_aset; rng_auto : cinv.
Ltac cinv_auto := solve [eauto 40 with cinv nocore].

Lemma clr_rng w m s : 0 <= w -> rng w s -> rng w (clr m s).
Proof. intros. by apply land_rng_l. Qed.
Lemma pick_rng w s c m : 0 <= w -> rng w m -> rng w (pick s c m).
Proof. intros. unfold pick. destruct (has _ _); [done|]. split; [lia|apply Z.pow_pos_nonneg; lia]. Qed.
#[export] Hint Extern 1 (rng _ (clr _ _)) => apply clr_rng; [lia|] : rng.
#[export] Hint Extern 1 (rng _ (pick _ _ _)) => apply pick_rng; [lia|] : rng.

Lemma trap_target_rng c cause tvec : rng 64 tvec -> rng 64 (trap_target c cause tvec).
Proof. intros. unfold trap_target; cbv zeta. rng_auto. Qed.
Lemma cause_interrupt_rng c : rng 64 (cause_interrupt c).
Proof. apply u64_rng. Qed.
Lemma masked_write_rng m old v : rng 64 old -> rng 64 v -> rng 64 (masked_write m old v).
Proof. intros. unfold masked_write; cbv zeta. rng_auto. Qed.
Lemma plat_mip_bits_rng p h : rng 32 (plat_mip_bits p h).
Proof. unfold plat_mip_bits; cbv zeta. rng_auto. Qed.
#[export] Hint Resolve trap_target_rng cause_interrupt_rng masked_write_rng plat_mip_bits_rng : rng.

Lemma live_mip_rng c b : rng 32 (live_mip c b).
Proof. unfold live_mip; cbv zeta. rng_auto. Qed.
#[export] Hint Resolve live_mip_rng : rng.

Lemma topi_value_rng c b s : rng 64 (topi_value c b s).
Proof.
  unfold topi_value. cbv zeta. generalize (live_mip c b .& u32 (csr c CSR_MIE) .& (if s then u32 (csr c CSR_MIDELEG)
    else u32 (Z.lnot (u32 (csr c CSR_MIDELEG))))). intros p. cbn [topi_scan].
  repeat (destruct (has p _); [apply rng_const; reflexivity|]). apply rng_const; reflexivity.
Qed.
#[export] Hint Resolve topi_value_rng : rng.

Lemma csr_read_rng c b a : cpu_ok c -> rng 64 (csr_read c b a).
Proof.
  intros Hc. unfold csr_read. rng_auto.
Qed.
#[export] Hint Resolve csr_read_rng : rng.

Section CpuFns.
Context (c0 c : CPU) (Hc : cpu_inv c0 c).

Lemma cinv_halt r : cpu_inv c0 (halt r c).
Proof. unfold halt; cbv zeta. cinv_auto. Qed.
Lemma cinv_halt_exit r : rng 32 r -> cpu_inv c0 (halt_exit r c).
Proof. intros. unfold halt_exit, halt; cbv zeta. cinv_auto. Qed.
Lemma cinv_sbi_return e v : rng 64 v -> cpu_inv c0 (sbi_return e v c).
Proof. intros. unfold sbi_return; cbv zeta. cinv_auto. Qed.
Lemma cinv_enter_trap cause tval to_s : rng 64 cause -> rng 64 tval -> cpu_inv c0 (enter_trap cause tval to_s c).
Proof.
intros. unfold enter_trap. assert (cpu_inv c0 (if to_s then enter_s cause tval c else enter_m cause tval c)).
{ destruct to_s; unfold enter_s, enter_m; cbv zeta; cinv_auto. }
cinv_auto.
Qed.
Lemma cinv_csr_write a v : rng 64 v -> cpu_inv c0 (csr_write a v c).
Proof. intros. unfold csr_write; cbv zeta. cinv_auto. Qed.
Lemma cinv_effective_mip b : cpu_inv c0 (effective_mip b c).
Proof. unfold effective_mip; cbv zeta. cinv_auto. Qed.
Lemma cinv_firmware_timer_tick b : cpu_inv c0 (firmware_timer_tick b c).
Proof. unfold firmware_timer_tick; cbv zeta. cinv_auto. Qed.
Lemma cinv_sstc_tick : cpu_inv c0 (sstc_tick c).
Proof. unfold sstc_tick; cbv zeta. cinv_auto. Qed.
Lemma cinv_sret_cpu : cpu_inv c0 (sret_cpu c).
Proof. unfold sret_cpu; cbv zeta. cinv_auto. Qed.
Lemma cinv_break_one word : cpu_inv c0 (break_one word c).
Proof. unfold break_one; cbv zeta. cinv_auto. Qed.
Lemma cinv_mark_fs_dirty : cpu_inv c0 (mark_fs_dirty c).
Proof.
unfold mark_fs_dirty. assert (cpu_inv c0 (set_csr CSR_MSTATUS (csr c CSR_MSTATUS .| MSTATUS_FS) c)) by cinv_auto.
cinv_auto.
Qed.
End CpuFns.
#[export] Hint Resolve cinv_halt cinv_halt_exit cinv_sbi_return cinv_enter_trap cinv_csr_write
  cinv_effective_mip cinv_firmware_timer_tick cinv_sstc_tick cinv_sret_cpu cinv_break_one
  cinv_mark_fs_dirty : cinv.

Lemma cinv_mret_cpu c0 c : cpu_inv c0 c -> cpu_inv c0 (mret_cpu c).
Proof.
  intros Hc. unfold mret_cpu. cbv zeta. apply cinv_set_c_priv; [|cinv_auto].
  assert (rng 2 ((csr c CSR_MSTATUS .& MSTATUS_MPP) >> MSTATUS_MPP_SHIFT)) as Hr.
  { change MSTATUS_MPP_SHIFT with 11. apply shiftr_rng; [lia..|]. apply land_rng_r; [lia|]. apply rng_const. reflexivity. }
  unfold u32. rewrite wrap_small; [done|lia|]. apply (rng_mono 2); [lia|done].
Qed.

Lemma cinv_fwrite d r v c0 c : match d with ToS => rng 32 v | _ => rng 64 v end ->
  cpu_inv c0 c -> cpu_inv c0 (fwrite d r v c).
Proof.
  intros Hv Hc. destruct d; unfold fwrite, fwrite_s, fwrite_d; try cinv_auto;
    apply cinv_mark_fs_dirty, cinv_set_c_fregs; try done; apply arr_rng_aset; rng_auto.
Qed.

Lemma cinv_faccrue c0 c fl : cpu_inv c0 c -> cpu_inv c0 (faccrue fl c).
Proof. intros. unfold faccrue. cinv_auto. Qed.

Lemma cinv_hsm_enter c0 c pc o : rng 64 pc -> rng 64 o -> cpu_inv c0 c -> cpu_inv c0 (hsm_enter pc o c).
Proof.
  intros Hp Ho Hc. unfold hsm_enter. cbv zeta beta.
  assert (cpu_inv c0 (set_csr CSR_SATP 0 (reg_write REG_A1 o (reg_write REG_A0 (c_hartid c)
    (set_c_priv PRIV_S (set_c_pc pc c)))))) by cinv_auto.
  cinv_auto.
Qed.
#[export] Hint Resolve cinv_mret_cpu cinv_faccrue cinv_hsm_enter : cinv.

Lemma cinv_hart_suspend c0 c : cpu_inv c0 c -> cpu_inv c0 (hart_suspend c).
Proof. intros. unfold hart_suspend. cbv zeta. cinv_auto. Qed.
Lemma cinv_sbi_base c0 c fid a : cpu_inv c0 c -> cpu_inv c0 (sbi_base fid a c).
Proof.
  intros. assert (rng 64 (sbi_probe a)) by (unfold sbi_probe; rng_auto). unfold sbi_base.
  repeat match goal with |- cpu_inv _ ((if ?b then _ else _) _) => destruct b; [cinv_auto|] end. cinv_auto.
Qed.
Lemma cinv_sys_exit c0 c : cpu_inv c0 c -> cpu_inv c0 (sys_exit c).
Proof. intros. unfold sys_exit. cinv_auto. Qed.
Lemma cinv_sbi_halt c0 c : cpu_inv c0 c -> cpu_inv c0 (sbi_halt c).
Proof. intros. unfold sbi_halt. cinv_auto. Qed.
#[export] Hint Resolve cinv_hart_suspend cinv_sbi_base cinv_sys_exit cinv_sbi_halt : cinv.

(** ** Operations on the machine *)

Create HintDb keep discriminated.
#[export] Hint Constants Opaque : keep.
#[export] Hint Resolve keep_hart keep_w_bus keep_mem_read8 keep_mem_read16 keep_mem_read32 keep_mem_read64
  keep_mem_write8 keep_mem_write16 keep_mem_write32 keep_mem_write64 keep_fault keep_host keep_cache keep_jit : keep.
#[export] Hint Extern 4 (keeps _ (gets _) _) => apply keep_gets_any : keep.
#[export] Hint Extern 1 (keeps _ (cpu_upd _ _) _) => apply keep_upd; intros; cinv_auto : keep.
#[export] Hint Extern 2 (rng _ _) => rng_auto : keep.

(** Decompose an operation: the value each call returns is introduced with its range. *)
Ltac kstep :=
  cbv zeta;
  match goal with
  | |- forall _, _ => intros ? ?; cbv beta in *
  | |- keeps _ (mbind _ (if _ then _ else _)) _ => apply (keeps_bind _ _ _ (fun _ => True)); [|intros _ _]
  | |- keeps _ (mbind _ (when _ _)) _ => apply (keeps_bind _ _ _ (fun _ => True)); [|intros _ _]
  | |- keeps _ (mbind _ _) _ =>
    eapply keeps_bind; [solve [eauto 6 with keep nocore]|]; cbv beta; intros ? ?
  | |- keeps _ (mret _) _ => apply keeps_ret; try done
  | |- keeps _ (if _ then _ else _) _ => apply keeps_if
  | |- keeps _ (when _ _) _ => apply keeps_when; [done|]
  | |- keeps _ (match ?x with _ => _ end) _ => destruct x eqn:?
  | |- keeps _ _ _ => solve [eauto 6 with keep nocore]
  end.
Ltac keep_auto := repeat kstep.

Section Ops.
Context (w0 : World).
#[local] Abbreviation I := (world_inv w0).
#[local] Abbreviation kept m := (keeps I m (fun _ => True)).

Lemma keep_break_reservation h a : kept (break_reservation h a).
Proof. unfold break_reservation. keep_auto. apply keeps_for. intros. keep_auto. Qed.

Lemma keep_observe_cache h pa s : kept (observe_cache h pa s).
Proof. unfold observe_cache. keep_auto. Qed.

Lemma keep_sys_write h : kept (sys_write h).
Proof.
unfold sys_write. kstep. kstep; [keep_auto|].
apply (keeps_bind _ _ _ (fun _ => True)); [|intros _ _; keep_auto].
apply keeps_for. intros. keep_auto.
Qed.
Hint Resolve keep_sys_write : keep.

Lemma keep_syscall_dispatch h : kept (syscall_dispatch h).
Proof. unfold syscall_dispatch. keep_auto. Qed.

Lemma keep_arm_timer h d : rng 64 d -> kept (cpu_arm_supervisor_timer h d).
Proof.
intros Hd. unfold cpu_arm_supervisor_timer. keep_auto. apply keep_bus_modify.
intros b [[[Hdat Hp] ? ? ?] []]. split; [|by constructor]. constructor; [|done..]. constructor; [done|].
destruct Hp as [[Ht Hcmp Hs] ? ? ? ? ? ? ? ?]. constructor; try done. constructor; [done| |done].
by apply arr_rng_aset.
Qed.
Hint Resolve keep_arm_timer : keep.

Lemma keep_set_timer h lo hi : rng 32 lo -> kept (sbi_set_timer h lo hi).
Proof. intros. apply keep_arm_timer. rng_auto. Qed.
Hint Resolve keep_set_timer : keep.

Lemma keep_sbi_hsm h fid : kept (sbi_hsm h fid).
Proof. unfold sbi_hsm, hart_start, hart_get_status. keep_auto. Qed.
Hint Resolve keep_sbi_hsm : keep.

Lemma keep_sbi_call h : kept (sbi_call h).
Proof. unfold sbi_call. keep_auto. Qed.
Hint Resolve keep_sbi_call keep_syscall_dispatch : keep.

Lemma keep_raise_trap h cause tval : rng 64 cause -> rng 64 tval -> kept (raise_trap h cause tval).
Proof. intros. unfold raise_trap, legacy_trap. keep_auto. Qed.
End Ops.
#[export] Hint Resolve keep_break_reservation keep_observe_cache keep_raise_trap : keep.

(** ** Address translation *)

Definition trans_ok (t : Trans) : Prop := match t with Fault c => rng 64 c | Phys pa => rng 64 pa end.

Lemma pf_cause_rng acc : rng 64 (pf_cause acc).
Proof. destruct acc; apply rng_const; reflexivity. Qed.
#[export] Hint Resolve pf_cause_rng : rng.

Lemma leaf_ppn_rng pg va l pte ppn : rng 64 va -> rng 64 pte -> leaf_ppn pg va l pte = Some ppn -> rng 64 ppn.
Proof.
  intros Hv Hp. unfold leaf_ppn. destruct l; [intros [= <-]; rng_auto|]. cbv zeta.
  destruct (has _ _); [done|]. intros [= <-]. rng_auto.
Qed.

Section Mmu.
Context (w0 : World).
#[local] Abbreviation I := (world_inv w0).

Lemma keep_read_pte pg a : rng 64 a -> keeps (mem_inv (w_bus w0)) (read_pte pg a) (rng 64).
Proof.
intros Ha b Hb. unfold read_pte. destruct (_ =? 4); (split; [|by apply (pres_mem_read _ W32) || by apply (pres_mem_read _ W64)]).
- apply (rng_mono 32); [lia|]. apply (mem_read_rng W32); [apply Hb|done].
- apply (mem_read_rng W64); [apply Hb|done].
Qed.

Lemma keep_clear_fault : keeps (mem_inv (w_bus w0)) (modify (set_b_fault false)) (fun _ => True).
Proof.
apply keeps_modify; [done|]. intros b [[[] ? ? ?] []]. split; [constructor; [by constructor|done..]|by constructor].
Qed.

Lemma keep_mmu_walk pg va : rng 64 va -> forall l a, keeps (mem_inv (w_bus w0)) (mmu_walk pg va l a)
(fun r => match r with None => True | Some (_, pte, addr) => rng 64 pte /\ rng 64 addr end).
Proof.
intros Hv l. induction l as [l IH] using lt_wf_ind. intros a. destruct l as [|l]; cbn [mmu_walk];
  (eapply keeps_bind; [apply keep_read_pte, u64_rng|]; intros pte Hp; cbv beta in Hp;
   apply keeps_bind with (fun _ => True); [by apply keeps_gets|]; intros f _; apply keeps_if;
   [eapply keeps_bind; [apply keep_clear_fault|intros; by apply keeps_ret]|];
   apply keeps_if; [by apply keeps_ret|]; apply keeps_if; [apply keeps_ret; split; [done|apply u64_rng]|]).
- by apply keeps_ret.
- apply IH. lia.
Qed.

Lemma keep_write_pte pg a v : rng 64 a -> rng 64 v -> keeps I (bus (write_pte pg a v)) (fun _ => True).
Proof. intros. unfold write_pte. destruct (_ =? 4); keep_auto. Qed.
Hint Resolve keep_write_pte : keep.

Lemma keep_finish_walk h s va acc priv asid l : rng 64 va ->
(let '(_, pte, addr) := l in rng 64 pte /\ rng 64 addr) ->
keeps I (finish_walk h s va acc priv asid l) trans_ok.
Proof.
intros Hv. destruct l as [[lvl pte] addr]. intros [Hp Ha]. unfold finish_walk. kstep. kstep.
{ apply keeps_ret. simpl. rng_auto. }
kstep; [|apply keeps_ret; simpl; rng_auto].
match goal with H : leaf_ppn _ _ _ _ = Some ?p |- _ => apply leaf_ppn_rng in H; [|done..] end.
assert (rng 64 (new_pte pte acc)) by (unfold new_pte; rng_auto).
kstep; [keep_auto|]. eapply keeps_bind; [|intros; apply keeps_ret; simpl; rng_auto].
apply keep_upd. intros c Hc. apply cinv_tlb_insert; [|done]. constructor; cbn; rng_auto.
Qed.

Lemma keep_mmu_translate h va acc : rng 64 va -> keeps I (mmu_translate h va acc) trans_ok.
Proof.
intros Hv. unfold mmu_translate. kstep.
match goal with H : cpu_inv _ ?c |- _ => set (va' := if c_xlen c =? 32 then va .& 0xffffffff else va) end.
assert (rng 64 va') by (unfold va'; rng_auto). clearbody va'.
kstep; [by apply keeps_ret|]. kstep; [apply keeps_ret; simpl; rng_auto|]. kstep.
{ kstep; apply keeps_ret; simpl; rng_auto. }
eapply keeps_bind; [apply keep_bus; by apply keep_mmu_walk|]. intros [[[l pte] addr]|] Hl.
- by apply keep_finish_walk.
- apply keeps_ret. simpl. rng_auto.
Qed.
End Mmu.
#[export] Hint Resolve keep_mmu_translate : keep.

(** ** Integer results *)

Lemma foldl_ind {A B} (P : A -> Prop) (f : A -> B -> A) l : forall a,
  P a -> (forall a b, P a -> P (f a b)) -> P (foldl f a l).
Proof. induction l; simpl; auto. Qed.

Lemma shiftr_rng_any w v n a : rng v n -> rng w a -> rng w (a >> n).
Proof. intros [? _] ?. by apply shiftr_rng_same. Qed.
#[export] Hint Extern 2 (rng _ (Z.shiftr _ _)) => apply (shiftr_rng_any _ 64) : rng.

Lemma bm_mask_rng bits : rng 64 (bm_mask bits).
Proof. unfold bm_mask. rng_auto. Qed.
#[export] Hint Resolve bm_mask_rng : rng.

Lemma clz_loop_bound v k : 0 <= clz_loop v k <= Z.of_nat k.
Proof. induction k; cbn [clz_loop]; [lia|]. destruct (_ =? 0); lia. Qed.

Lemma ctz_loop_bound v k : forall i, 0 <= ctz_loop v i k <= Z.of_nat k.
Proof. induction k as [|k IH]; intros i; cbn [ctz_loop]; [lia|]. pose proof (IH (i + 1)). destruct (_ =? 0); lia. Qed.

Lemma cpop_bound v l : forall n, n <= foldl (fun n i => n + ((v >> i) .& 1)) n l <= n + Z.of_nat (length l).
Proof.
  induction l as [|i l IH]; intros n; simpl; [lia|]. pose proof (IH (n + ((v >> i) .& 1))).
  assert (rng 1 ((v >> i) .& 1)) as [? Hb] by (apply land_rng_r; [lia|]; apply rng_const; reflexivity).
  change (2 ^ 1) with 2 in Hb. lia.
Qed.

Lemma bm_count_rng v bits : bits <= 64 ->
  rng 64 (bm_clz v bits) /\ rng 64 (bm_ctz v bits) /\ rng 64 (bm_cpop v bits).
Proof.
  intros. unfold bm_clz, bm_ctz, bm_cpop, rng.
  pose proof (clz_loop_bound v (Z.to_nat bits)). pose proof (ctz_loop_bound v (Z.to_nat bits) 0).
  pose proof (cpop_bound v (zseq 0 (Z.to_nat bits)) 0) as Hc. rewrite length_zseq in Hc. lia.
Qed.

Lemma bm_ror_rng v sh bits : rng 64 v -> rng 64 sh -> rng 64 (bm_ror v sh bits).
Proof. intros. unfold bm_ror; cbv zeta. rng_auto. Qed.
Lemma bm_rol_rng v sh bits : rng 64 v -> rng 64 sh -> rng 64 (bm_rol v sh bits).
Proof. intros. unfold bm_rol; cbv zeta. rng_auto. Qed.
Lemma bm_orcb_rng v bits : rng 64 (bm_orcb v bits).
Proof. apply (foldl_ind (rng 64)); [rng_auto|]. intros. cbv zeta. rng_auto. Qed.
Lemma bm_rev8_rng v bits : rng 64 (bm_rev8 v bits).
Proof. apply (foldl_ind (rng 64)); [rng_auto|]. intros. rng_auto. Qed.
Lemma bm_bits128_rng hi lo pos w : rng 64 (bm_bits128 hi lo pos w).
Proof. unfold bm_bits128. rng_auto. Qed.
#[export] Hint Resolve bm_ror_rng bm_rol_rng bm_orcb_rng bm_rev8_rng bm_bits128_rng : rng.

(** Split an integer result function into its cases. *)
Ltac cases_of H :=
  cbv zeta in H;
  repeat match type of H with
  | (if ?b then _ else _) = _ => destruct b; [|]
  | None = Some _ => discriminate H
  | Some _ = Some _ => injection H as <-
  end.

Definition xlen_ok (x : Z) : Prop := x = 0 \/ x = 32 \/ x = 64.

Lemma bitmanip_op_rng x inst a b r : xlen_ok x -> rng 64 a -> rng 64 b ->
  bitmanip_op x inst a b = Some r -> rng 64 r.
Proof. intros Hx Ha Hb H. unfold bitmanip_op in H. cases_of H; rng_auto. Qed.

Lemma bitmanip_imm_rng x inst a r : xlen_ok x -> rng 64 a -> bitmanip_imm x inst a = Some r -> rng 64 r.
Proof.
  intros Hx Ha H. destruct (bm_count_rng a x) as (? & ? & ?); [destruct Hx as [|[]]; lia|].
  unfold bitmanip_imm in H. cases_of H; rng_auto.
Qed.

Lemma bitmanip_op32_rng inst a b r : rng 64 a -> rng 64 b -> bitmanip_op32 inst a b = Some r -> rng 64 r.
Proof. intros Ha Hb H. unfold bitmanip_op32 in H. cases_of H; rng_auto. Qed.

Lemma bitmanip_imm32_rng inst a r : rng 64 a -> bitmanip_imm32 inst a = Some r -> rng 64 r.
Proof.
  intros Ha H. destruct (bm_count_rng (u32 a) 32) as (? & ? & ?); [lia|].
  unfold bitmanip_imm32 in H. cases_of H; rng_auto.
Qed.

Lemma op_imm_result_rng x inst a : rng 64 a -> rng 64 (op_imm_result x inst a).
Proof. intros. unfold op_imm_result; cbv zeta. rng_auto. Qed.
Lemma op_result_rng x inst a b : rng 64 a -> rng 64 b -> rng 64 (op_result x inst a b).
Proof. intros. unfold op_result; cbv zeta. rng_auto. Qed.

Lemma div_rng w a b : rng w a -> 0 <= b -> rng w (a / b).
Proof.
  intros [? ?] ?. destruct (Z.eq_dec b 0) as [->|]; [rewrite Z.div_0_r; split; lia|].
  split; [apply Z.div_pos; lia|]. apply Z.le_lt_trans with a; [|done]. apply Z.div_le_upper_bound; nia.
Qed.
Lemma mod_rng w a b : rng w b -> b <> 0 -> rng w (a mod b).
Proof. intros [? ?] ?. pose proof (Z.mod_pos_bound a b). unfold rng. lia. Qed.

Lemma mulhu64_rng a b : rng 64 (mulhu64 a b).
Proof. apply u64_rng. Qed.
#[export] Hint Resolve mulhu64_rng : rng.

Lemma muldiv64_rng f3 a b : rng 64 a -> rng 64 b -> rng 64 (muldiv64 f3 a b).
Proof.
  intros Ha Hb. assert (rng 64 (a / b)) by (apply div_rng; [done|apply Hb]).
  unfold muldiv64; cbv zeta. destruct (Z.eqb_spec b 0); [rng_auto|].
  assert (rng 64 (a mod b)) by (by apply mod_rng). rng_auto.
Qed.

Lemma muldiv32_rng f3 a b : rng 32 a -> rng 32 b -> rng 64 (muldiv32 f3 a b).
Proof.
  intros Ha Hb. assert (rng 32 (a / b)) by (apply div_rng; [done|apply Hb]).
  unfold muldiv32; cbv zeta. destruct (Z.eqb_spec b 0); [rng_auto|].
  assert (rng 32 (a mod b)) by (by apply mod_rng). rng_auto.
Qed.
#[export] Hint Resolve op_imm_result_rng op_result_rng muldiv64_rng muldiv32_rng : rng.

(** ** Instruction handlers *)

Section Handlers.
Context (w0 : World) (h inst : Z) (Hi : rng 32 inst).
#[local] Abbreviation I := (world_inv w0).
#[local] Abbreviation kept m := (keeps I m (fun _ => True)).

Lemma keep_illegal cause : rng 64 cause -> kept (raise_trap h cause inst).
Proof. intros. apply keep_raise_trap; [done|rng_auto]. Qed.
Hint Resolve keep_illegal : keep.

Lemma keep_write_result r : (forall v, r = Some v -> rng 64 v) -> kept (write_result h inst r).
Proof. intros Hr. unfold write_result. destruct r; [specialize (Hr _ eq_refl)|]; keep_auto. Qed.

Lemma keep_commit_word r : kept (commit_word h inst r).
Proof. unfold commit_word. keep_auto. Qed.
Hint Resolve keep_commit_word : keep.

Lemma cpu_inv_xlen c0 c : cpu_inv c0 c -> xlen_ok (c_xlen c).
Proof. by intros [[] _ _]. Qed.

Lemma keep_exec_op_imm : kept (exec_op_imm h inst).
Proof.
unfold exec_op_imm, exec_bitmanip_imm. eapply keeps_bind; [kstep|].
- apply keep_write_result. intros v Hv. eapply bitmanip_imm_rng; [by eapply cpu_inv_xlen| |done]. rng_auto.
- keep_auto.
Qed.

Lemma keep_exec_muldiv : kept (exec_muldiv h inst).
Proof. unfold exec_muldiv, exec_muldiv64. keep_auto. Qed.
Hint Resolve keep_exec_muldiv : keep.

Lemma keep_exec_op : kept (exec_op h inst).
Proof.
unfold exec_op, exec_bitmanip_op. kstep; [keep_auto|]. eapply keeps_bind; [kstep|].
- apply keep_write_result. intros v Hv. eapply bitmanip_op_rng; [by eapply cpu_inv_xlen| | |done]; rng_auto.
- keep_auto.
Qed.

Lemma keep_exec_op_imm32 : kept (exec_op_imm32 h inst).
Proof.
unfold exec_op_imm32, exec_bitmanip_imm32. kstep. kstep; [keep_auto|]. eapply keeps_bind; [kstep|].
- apply keep_write_result. intros v Hv. eapply bitmanip_imm32_rng; [|done]. rng_auto.
- keep_auto.
Qed.

Lemma keep_exec_op32 : kept (exec_op32 h inst).
Proof.
unfold exec_op32, exec_bitmanip_op32, exec_muldivw. kstep. kstep; [keep_auto|]. kstep; [keep_auto|].
eapply keeps_bind; [kstep|].
- apply keep_write_result. intros v Hv. eapply bitmanip_op32_rng; [| |done]; rng_auto.
- keep_auto.
Qed.

Lemma keep_exec_csr : kept (exec_csr h inst).
Proof.
unfold exec_csr. kstep. kstep; [keep_auto|].
assert (rng 64 (if has (funct3 inst) 4 then rs1 inst else reg_read a (rs1 inst))).
{ unfold rs1. rng_auto. }
apply (keeps_bind _ _ _ (rng 64)); [apply keeps_gets; intros; rng_auto|]. intros old Ho.
assert (forall op src, rng 64 src -> rng 64 (csr_new op old src)).
{ intros. unfold csr_new. rng_auto. }
keep_auto.
Qed.

Lemma keep_exec_mret : keeps I (exec_mret h) (rng 64).
Proof.
unfold exec_mret. kstep. kstep;
  (eapply keeps_bind; [solve [eauto 6 with keep nocore]|]; intros _ _; apply keeps_gets; intros w Hw;
   pose proof (wi_harts _ _ Hw h); rng_auto).
Qed.

Lemma keep_exec_sret : keeps I (exec_sret h) (rng 64).
Proof.
unfold exec_sret. kstep. kstep;
  (eapply keeps_bind; [solve [eauto 6 with keep nocore]|]; intros _ _; apply keeps_gets; intros w Hw;
   pose proof (wi_harts _ _ Hw h); rng_auto).
Qed.
Hint Resolve keep_exec_csr keep_exec_mret keep_exec_sret : keep.

Lemma keep_next_pc : keeps I (gets (fun w => u64 (c_pc (hart h w) + 4))) (rng 64).
Proof. apply keeps_gets. intros. apply u64_rng. Qed.
Hint Resolve keep_next_pc : keep.

Lemma keep_exec_system : keeps I (exec_system h inst) (rng 64).
Proof.
unfold exec_system. kstep. assert (rng 64 (CAUSE_ECALL_U + c_priv a)).
{ assert (rng 2 (c_priv a)) as [? Hp] by rng_auto. change (2 ^ 2) with 4 in Hp.
  unfold rng, CAUSE_ECALL_U. lia. }
keep_auto.
Qed.

Lemma keep_load_value x f3 pa : rng 64 pa -> keeps I (bus (load_value x f3 pa)) (rng 64).
Proof.
intros Hp. apply keep_bus. intros b Hb. unfold load_value.
pose proof (mem_read_rng W8 b pa (proj1 Hb) Hp). pose proof (mem_read_rng W16 b pa (proj1 Hb) Hp).
pose proof (mem_read_rng W32 b pa (proj1 Hb) Hp). pose proof (mem_read_rng W64 b pa (proj1 Hb) Hp).
pose proof (pres_mem_read (w_bus w0) W8 pa Hp b Hb). pose proof (pres_mem_read (w_bus w0) W16 pa Hp b Hb).
pose proof (pres_mem_read (w_bus w0) W32 pa Hp b Hb). pose proof (pres_mem_read (w_bus w0) W64 pa Hp b Hb).
cbn [mem_read nbytes] in *.
repeat match goal with |- context [if ?c then _ else _] => destruct c end;
  st_simpl; (split; [|done]); rng_auto.
Qed.
Hint Resolve keep_load_value : keep.

Lemma keep_exec_load : kept (exec_load h inst).
Proof. unfold exec_load. kstep. kstep. destruct a0; cbn in *; keep_auto. Qed.

Lemma keep_store_value x f3 pa v : rng 64 pa -> rng 64 v -> kept (bus (store_value x f3 pa v)).
Proof.
intros. unfold store_value. repeat destruct (_ =? _); keep_auto; apply keep_bus; by apply keeps_ret.
Qed.
Hint Resolve keep_store_value : keep.

Lemma keep_exec_store : kept (exec_store h inst).
Proof. unfold exec_store. kstep. kstep. destruct a0; cbn in *; keep_auto. Qed.
Hint Resolve keep_exec_load keep_exec_store : keep.

Lemma keep_unless_fault k : kept k -> kept (unless_fault k).
Proof. intros. unfold unless_fault. keep_auto. Qed.

Lemma keep_amo_finish addr old : rng 64 old -> kept (amo_finish h inst addr old).
Proof. intros. unfold amo_finish. apply keep_unless_fault. keep_auto. Qed.
Hint Resolve keep_amo_finish : keep.

Lemma amo64_rng f5 o b r : rng 64 o -> rng 64 b -> amo64 f5 o b = Some r -> rng 64 r.
Proof. intros ? ? H. unfold amo64 in H. cases_of H; rng_auto. Qed.
Lemma amo32_rng f5 o b r : rng 32 o -> rng 32 b -> amo32 f5 o b = Some r -> rng 32 r.
Proof. intros ? ? H. unfold amo32 in H. cases_of H; rng_auto. Qed.

Lemma keep_exec_rmw addr d : rng 64 addr -> kept (exec_rmw h inst addr d).
Proof.
intros Ha. unfold exec_rmw. kstep. destruct d; kstep; apply keep_unless_fault; kstep;
  try (match goal with
       | H : amo64 _ _ _ = Some _ |- _ => apply amo64_rng in H; [|rng_auto..]
       | H : amo32 _ _ _ = Some _ |- _ => apply amo32_rng in H; [|rng_auto..]
       end); keep_auto.
Qed.

Lemma keep_exec_lr addr d : rng 64 addr -> kept (exec_lr h inst addr d).
Proof.
intros Ha. unfold exec_lr. apply (keeps_bind _ _ _ (rng 64)).
- destruct d; [keep_auto|]. kstep. apply keeps_ret. rng_auto.
- intros v Hv. apply keep_unless_fault. keep_auto.
Qed.

Lemma keep_exec_sc addr d : rng 64 addr -> kept (exec_sc h inst addr d).
Proof.
intros Ha. unfold exec_sc. kstep. kstep; [keep_auto|]. kstep; [keep_auto|].
apply keep_unless_fault. keep_auto.
Qed.
Hint Resolve keep_exec_rmw keep_exec_lr keep_exec_sc : keep.

Lemma keep_exec_amo : kept (exec_amo h inst).
Proof.
unfold exec_amo. kstep. kstep; [keep_auto|]. kstep; [keep_auto|]. kstep.
destruct a0; cbn in *; keep_auto.
Qed.
End Handlers.

Section FpHandlers.
Context (w0 : World) (h inst : Z) (Hi : rng 32 inst).
#[local] Abbreviation I := (world_inv w0).
#[local] Abbreviation kept m := (keeps I m (fun _ => True)).
#[local] Abbreviation any := (fun _ : Z => True).
Hint Resolve keep_illegal : keep.

Lemma keep_fwrite_s r v : rng 32 v -> kept (cpu_upd h (fwrite_s r v)).
Proof. intros. apply keep_upd. intros. by apply (cinv_fwrite ToS). Qed.
Lemma keep_fwrite_d r v : rng 64 v -> kept (cpu_upd h (fwrite_d r v)).
Proof. intros. apply keep_upd. intros. by apply (cinv_fwrite ToD). Qed.
Hint Resolve keep_fwrite_s keep_fwrite_d : keep.

Lemma keep_fcommit d r m :
keeps any m (match d with ToS => rng 32 | _ => rng 64 end) -> kept (fcommit h d r m).
Proof.
intros Hm. apply keep_upd. intros c Hc. apply cinv_faccrue, cinv_fwrite; [|done].
destruct (Hm 0 Logic.I). by destruct d.
Qed.

Lemma fread_s_rng c0 c i : cpu_inv c0 c -> rng 32 (fread_s c i).
Proof. intros. unfold fread_s; cbv zeta. rng_auto. Qed.
Hint Resolve fread_s_rng : rng.

Lemma keep_exec_load_fp : kept (exec_load_fp h inst).
Proof. unfold exec_load_fp. kstep. kstep. destruct a0; cbn in *; keep_auto. Qed.

Lemma keep_exec_store_fp : kept (exec_store_fp h inst).
Proof. unfold exec_store_fp. kstep. kstep. destruct a0; cbn in *; keep_auto. Qed.

Lemma fp_arith_rng fmt op a b rm : rng 64 a -> rng 64 b ->
keeps any (fp_arith fmt op a b rm) (match (if fmt =? 0 then ToS else ToD) with ToS => rng 32 | _ => rng 64 end).
Proof.
intros. unfold fp_arith. destruct (fmt =? 0);
  repeat (destruct (op =? _); [first [apply as32_rng|apply fp_add_rng|apply fp_mul_rng]; done|]);
  first [apply as32_rng|by apply fp_div_rng].
Qed.

Lemma fp_to_int_op_rng fmt r a rm : keeps any (fp_to_int_op fmt r a rm) (rng 64).
Proof.
unfold fp_to_int_op. destruct (fmt =? 0);
  repeat (destruct (r =? _);
    [apply (keeps_bind _ _ _ (fun _ => True)); [by intros ?|intros; apply keeps_ret; rng_auto]|]);
  apply fp_to_int_rng; lia.
Qed.

Lemma fp_compare_rng fmt f3 a b : rng 64 a -> rng 64 b -> keeps any (fp_compare fmt f3 a b) (rng 64).
Proof.
intros. unfold fp_compare. repeat destruct (_ =? _);
  first [by apply fp_eq_rng|by apply fp_lt_rng|by apply fp_le_rng].
Qed.

Lemma classify_rng f a : rng 64 (fp_classify f a).
Proof. unfold fp_classify. cbv zeta. destruct (u_cls _); rng_auto. Qed.

Lemma fsgnj_rng f3 a b : rng 32 (fsgnj32 f3 a b) /\ rng 64 (fsgnj64 f3 a b).
Proof. unfold fsgnj32, fsgnj64. split; rng_auto. Qed.

Lemma keep_exec_fmv fmt x : kept (exec_fmv h inst fmt x).
Proof.
pose proof classify_rng. unfold exec_fmv, f32_classify, f64_classify, fread_d. destruct x; keep_auto.
Qed.
Hint Resolve keep_exec_fmv : keep.

Lemma fp_unary_rng fmt a rm : rng 64 a -> keeps any (if fmt =? 0 then f32_sqrt a rm else f64_sqrt a rm)
(match (if fmt =? 0 then ToS else ToD) with ToS => rng 32 | _ => rng 64 end).
Proof. intros. destruct (fmt =? 0); [apply as32_rng|by apply fp_sqrt_rng]. Qed.

Lemma fp_minmax_op_rng fmt f3 a b : rng 64 a -> rng 64 b -> keeps any (fp_minmax_op fmt f3 a b)
(match (if fmt =? 0 then ToS else ToD) with ToS => rng 32 | _ => rng 64 end).
Proof.
intros. unfold fp_minmax_op. destruct (fmt =? 0), (f3 =? 0);
  first [apply as32_rng|by apply fp_minmax_rng].
Qed.

Lemma int_to_fp_op_rng fmt r x rm : keeps any (int_to_fp_op fmt r x rm)
(match (if fmt =? 0 then ToS else ToD) with ToS => rng 32 | _ => rng 64 end).
Proof.
unfold int_to_fp_op. destruct (fmt =? 0); repeat destruct (_ =? _);
  first [apply as32_rng|apply int_to_fp_rng].
Qed.

Lemma keep_exec_fp : kept (exec_fp h inst).
Proof.
unfold exec_fp. kstep. set (fmt := (inst >> 25) .& 3).
assert (forall i, rng 64 (if fmt =? 0 then fread_s a i else fread_d a i)) as Hr.
{ intros i. unfold fread_d. apply rng_if; [apply (rng_mono 32); [lia|by eapply fread_s_rng]|rng_auto]. }
pose proof (fsgnj_rng (funct3 inst) (if fmt =? 0 then fread_s a (rs1 inst) else fread_d a (rs1 inst))
  (if fmt =? 0 then fread_s a (rs2 inst) else fread_d a (rs2 inst))) as [? ?].
cbv zeta. repeat (apply keeps_if; [keep_auto|]).
all: repeat match goal with |- keeps _ (if _ then _ else _) _ => apply keeps_if end; try solve [keep_auto].
all: lazymatch goal with
  | |- keeps _ (fcommit _ _ _ (fp_arith _ _ _ _ _)) _ => apply keep_fcommit; by apply fp_arith_rng
  | |- keeps _ (fcommit _ _ _ (fp_minmax_op _ _ _ _)) _ => apply keep_fcommit; by apply fp_minmax_op_rng
  | |- keeps _ (fcommit _ _ _ (fp_compare _ _ _ _)) _ => apply keep_fcommit; by apply fp_compare_rng
  | |- keeps _ (fcommit _ _ _ (fp_to_int_op _ _ _ _)) _ => apply keep_fcommit, fp_to_int_op_rng
  | |- keeps _ (fcommit _ _ _ (int_to_fp_op _ _ _ _)) _ => apply keep_fcommit, int_to_fp_op_rng
  | |- keeps _ (fcommit _ _ _ (f64_to_f32 _ _)) _ => apply keep_fcommit, f64_to_f32_rng
  | |- keeps _ (fcommit _ _ _ (f32_to_f64 _)) _ => apply keep_fcommit, f32_to_f64_rng
  | |- keeps _ (fcommit _ _ _ _) _ => apply keep_fcommit; by apply fp_unary_rng
  | |- keeps _ (raise_trap _ _ _) _ => apply keep_raise_trap; rng_auto
  | |- keeps _ (cpu_upd _ _) _ => destruct (fmt =? 0); keep_auto
  end.
Qed.

Lemma keep_exec_fmadd fa fc : kept (exec_fmadd h inst fa fc).
Proof.
unfold exec_fmadd. kstep. kstep; [keep_auto|]. kstep; apply keep_fcommit; [apply as32_rng|].
unfold fread_d. apply fp_muladd_rng; rng_auto.
Qed.
End FpHandlers.

(** ** One step *)

#[export] Hint Resolve keep_exec_op_imm keep_exec_op_imm32 keep_exec_op keep_exec_op32 keep_exec_load keep_exec_store
  keep_exec_amo keep_exec_load_fp keep_exec_store_fp keep_exec_fp keep_exec_fmadd keep_exec_system : keep.
#[export] Hint Resolve rvc_expand_rng : rng.

Section Step.
Context (w0 : World) (h : Z).
#[local] Abbreviation I := (world_inv w0).
#[local] Abbreviation kept m := (keeps I m (fun _ => True)).

Lemma keep_take_interrupt : kept (take_interrupt h).
Proof.
unfold take_interrupt. repeat kstep.
match goal with H : irq_scan _ _ _ = Some ?i |- _ => assert (rng 64 i) as Hi by
  (revert H; unfold irq_order; cbn [irq_scan];
   repeat (destruct (_ && _); [intros [= <-]; apply rng_const; reflexivity|]); done) end.
keep_auto.
Qed.
Hint Resolve keep_take_interrupt : keep.

Lemma keep_pre_step : kept (cpu_pre_step h).
Proof.
unfold cpu_pre_step. kstep. kstep; [by apply keeps_ret|].
assert (rng 8 (poweroff_code (b_plat a))) by (apply ok_poweroff_code, ok_b_plat; by destruct H as [[] _]).
unfold plat_poweroff_requested. destruct (poweroff _); keep_auto.
Qed.

Lemma keep_dcaches f :
(forall d, dcache_ok d -> dcache_ok (f d)) ->
kept (modify (fun w => set_w_dcaches (alter f h (w_dcaches w)) w)).
Proof.
intros Hf. apply keeps_modify; [done|]. intros w [Hm Hh Hd]. constructor; [done..|].
cbn [set_w_dcaches w_dcaches]. intros h' d. destruct (decide (h = h')) as [->|].
- rewrite lookup_alter_eq. destruct (w_dcaches w !! h') eqn:E; simpl; [|done]. intros [= <-]. eauto.
- rewrite lookup_alter_ne by done. apply Hd.
Qed.

Lemma keep_exec_fence inst : kept (exec_fence h inst).
Proof.
unfold exec_fence. kstep. kstep. kstep; [|keep_auto]. kstep. apply keep_dcaches. by intros d.
Qed.

Lemma keep_dc_fill pa inst ilen : rng 32 inst -> rng 3 ilen -> kept (modify (dc_fill h pa inst ilen)).
Proof.
intros Hi Hl. apply keeps_modify; [done|]. intros w Hw. unfold dc_fill.
destruct (w_dcaches w !! h) as [dc|] eqn:E; [|done]. destruct Hw as [Hm Hh Hd]. constructor; [done..|].
cbn [set_w_dcaches w_dcaches]. intros h' d. destruct (decide (h = h')) as [->|].
- rewrite lookup_insert_eq. intros [= <-] i. unfold dc_slot. cbn [set_dc_slots dc_slots].
  destruct (decide (DC_INDEX pa = i)) as [->|]; [by rewrite lookup_insert_eq|].
  rewrite lookup_insert_ne by done. by apply (Hd h' dc).
- rewrite lookup_insert_ne by done. apply Hd.
Qed.
Hint Resolve keep_dc_fill keep_exec_fence : keep.

Lemma keep_fetch_hi : keeps I (fetch_hi h) (fun r => match r with None => True | Some (hi, _) => rng 16 hi end).
Proof.
unfold fetch_hi. kstep. kstep. destruct a0; cbn in *; [keep_auto|]. kstep. kstep. kstep; keep_auto.
Qed.
Hint Resolve keep_fetch_hi : keep.

Lemma keep_fetch_miss pa : rng 64 pa ->
keeps I (fetch_miss h pa) (fun r => match r with None => True | Some (i, l, _) => rng 32 i /\ rng 3 l end).
Proof.
intros Hp. unfold fetch_miss. kstep. kstep. kstep. kstep; [keep_auto|]. kstep.
{ kstep; [keep_auto|]. apply keeps_ret. split; [rng_auto|by apply rng_const]. }
kstep. destruct a2 as [[hi dev]|]; [|by apply keeps_ret]. apply keeps_ret.
split; [rng_auto|by apply rng_const].
Qed.
Hint Resolve keep_fetch_miss : keep.

Lemma keep_fetch : keeps I (fetch h) (fun r => match r with None => True | Some (i, l) => rng 32 i /\ rng 3 l end).
Proof.
unfold fetch. kstep. kstep. destruct a0; cbn in *; [keep_auto|].
apply (keeps_bind _ _ _ (fun d => forall dc, d = Some dc -> dcache_ok dc)).
{ apply keeps_gets. intros w Hw dc. unfold dcache_of. destruct (c_dcache _); [|done].
  apply (wi_dcaches _ _ Hw). }
intros d Hd. destruct (dc_lookup d pa) as [[i l]|] eqn:E.
{ apply keeps_ret. unfold dc_lookup in E. destruct d as [dc|]; [|done]. cbv zeta in E.
  destruct (_ && _); [|done]. injection E as <- <-. by apply (Hd dc). }
kstep. destruct a0 as [[[i l] ca]|]; [|by apply keeps_ret]. destruct H1. kstep; [keep_auto|].
by apply keeps_ret.
Qed.

Lemma keep_dispatch inst ilen : rng 32 inst -> keeps I (dispatch h inst ilen) (rng 64).
Proof.
intros Hi. unfold dispatch. kstep. cbv zeta.
repeat match goal with |- keeps _ (if _ then _ else _) _ => apply keeps_if end;
  try (eapply keeps_bind; [solve [eauto 6 with keep nocore]|]; intros; apply keeps_ret; rng_auto).
- apply keeps_ret. unfold exec_branch. rng_auto.
- keep_auto.
Qed.

Lemma keep_retire inst npc : rng 64 npc -> kept (retire h inst npc).
Proof.
intros Hn. unfold retire. kstep. kstep. assert (rng 64 (b_fault_addr a)) by apply H.
keep_auto.
Qed.
Hint Resolve keep_retire keep_pre_step keep_fetch keep_dispatch : keep.

Lemma keep_cpu_step : kept (cpu_step h).
Proof.
unfold cpu_step. kstep. kstep. kstep. kstep; [by apply keeps_ret|]. kstep.
destruct a2 as [[i l]|]; [|by apply keeps_ret]. destruct H2. keep_auto.
Qed.
End Step.

(** ** A machine with [code] at its entry point

    One hart just out of reset, 64 KiB of RAM at 0x80000000 and the devices attached: the
    state the witnesses start from. *)

Definition boot_bus (code : list Z) : Bus :=
  set_b_data (put_bytes 0 code ∅)
    (set_b_has_plat true (mem_init 0x80000000 0x10000
      (plat_set_harts 1 (plat_attach_ram 0x80000000 0x10000 plat_init)) [])).
Definition boot_world (xl : Z) (code : list Z) : World :=
  mkWorld {[0 := cpu_init 0x80000000 xl CPU0]} (boot_bus code) (mkCache 0 0 0 0 0 ∅ 0 0 0 0 0) ∅ (mkJit 1 0).

Lemma CPU0_ok : cpu_ok CPU0.
Proof.
  constructor; cbn; try (apply rng_const; reflexivity); try (apply arr_rng_empty; lia); [lia|done|].
  intros i. unfold tlb_slot. cbn. rewrite lookup_empty. constructor; apply rng_const; reflexivity.
Qed.

Lemma cpu_ok_set_csrs a c : arr_rng 64 a -> cpu_ok c -> cpu_ok (set_c_csr a c).
Proof. intros Ha []. by constructor. Qed.

Lemma cpu_init_ok pc xl c : rng 64 pc -> xl = 32 \/ xl = 64 -> cpu_ok c -> cpu_ok (cpu_init pc xl c).
Proof.
  intros Hp Hx Hc. unfold cpu_init. cbv zeta beta.
  match goal with |- context [mmu_flush ?d] => assert (cpu_inv d d) as Hd end.
  { constructor; [|done..]. destruct Hc. constructor; cbn; try done; try (apply arr_rng_empty; lia);
      try (apply rng_const; reflexivity). lia. }
  apply cinv_mmu_flush in Hd. eapply ci_ok. apply cinv_set_csr.
  { destruct Hx as [-> | ->]; apply rng_const; vm_compute; reflexivity. }
  split; [apply cpu_ok_set_csrs; [apply arr_rng_empty; lia|apply Hd]|done..].
Qed.

Lemma boot_world_ok xl code : xl = 32 \/ xl = 64 -> bytes code -> world_ok (boot_world xl code).
Proof.
  intros Hx Hb. constructor.
  - split; [|apply same_map_refl]. constructor; try (apply rng_const; reflexivity). constructor.
    + apply arr_rng_put_bytes; [done|apply arr_rng_empty; lia].
    + destruct plat_init_ok. constructor; try done; apply rng_const; reflexivity.
  - intros h. constructor; [|done..]. unfold hart, boot_world. cbn [w_harts].
    destruct (decide (h = 0)) as [->|Hh].
    + rewrite lookup_singleton_eq. apply cpu_init_ok; [by apply rng_const|done|apply CPU0_ok].
    + rewrite lookup_singleton_ne by done. apply CPU0_ok.
  - intros h d. cbn. by rewrite lookup_empty.
Qed.

(** A step keeps the machine well formed. *)
Lemma cpu_step_ok w h : world_ok w -> world_ok (exec (cpu_step h) w).
Proof.
  intros Hw. destruct (keep_cpu_step w h w Hw) as [_ [[Hm Hmap] Hh Hd]].
  constructor; [split; [done|apply same_map_refl]| |done]. intros i. constructor; [apply Hh|done..].
Qed.

(** ** Property *)

(** C40 [step_safe]: whatever instructions the guest runs, one step of any hart keeps the
    machine well formed: every register, CSR, program counter and page-table entry cached
    in the TLB stays a value of its C type, the registers of an RV32 hart stay
    sign-extended, memory and the devices keep their invariants, and the memory map,
    the register widths and the hart ids are unchanged. *)
Theorem cpu_step_safe w h : world_ok w ->
  let w' := exec (cpu_step h) w in
  world_ok w' /\ same_map (w_bus w) (w_bus w')
  /\ forall i, c_xlen (hart i w') = c_xlen (hart i w) /\ c_hartid (hart i w') = c_hartid (hart i w).
Proof.
  intros Hw. destruct (keep_cpu_step w h w Hw) as [_ [[Hm Hmap] Hh Hd]]. cbv zeta. split; [|split].
  - by apply cpu_step_ok.
  - done.
  - intros i. by destruct (Hh i).
Qed.

Lemma cpu_step_safe_witness :
  let w := boot_world 32 [0x37; 0x01; 0x00; 0x80] in   (* lui sp, 0x80000 *)
  world_ok (exec (cpu_step 0) w) /\ reg_read (hart 0 (exec (cpu_step 0) w)) 2 = 0xffffffff80000000.
Proof.
  split; [|vm_compute; reflexivity].
  refine (proj1 (cpu_step_safe _ 0 _)). apply boot_world_ok; [by left|].
  apply bytes_forallb. reflexivity.
Defined.
