(* ===== verification/Isa.v ===== *)
(** * The integer instructions as the ISA manual states them

    [Module Isa]: the RV32/RV64 I, M, Zba, Zbb, Zbc and Zbs register operations on XLEN-bit
    values: an encoding table per major opcode and one meaning per mnemonic. *)

From S2P Require Import Prelude Decode.

Module Isa.

(** Mnemonics; immediate and word forms share the mnemonic of the register form. *)
Inductive mn :=
| ADD | SUB | SLL | SLT | SLTU | XOR | SRL | SRA | OR | AND
| MUL | MULH | MULHSU | MULHU | DIV | DIVU | REM | REMU
| SH1ADD | SH2ADD | SH3ADD | ANDN | ORN | XNOR | ROL | ROR
| CLMUL | CLMULR | CLMULH | MIN | MINU | MAX | MAXU
| BCLR | BEXT | BSET | BINV | ZEXTH | SEXTB | SEXTH | CLZ | CTZ | CPOP | ORCB | REV8
| ADDUW | SH1ADDUW | SH2ADDUW | SH3ADDUW | SLLIUW.

(** The little-endian bytes of a value, and back. *)
Fixpoint le_bytes (n : nat) (v : Z) : list Z :=
match n with O => [] | S n => v mod 256 :: le_bytes n (v / 256) end.
Fixpoint le_value (l : list Z) : Z :=
match l with [] => 0 | b :: l => b + 256 * le_value l end.

(** The product of two polynomials over GF(2) with [n]-bit coefficients. *)
Definition gf2_mul (n : Z) (a b : Z) : Z :=
foldr (fun i p => (if Z.testbit b i then a << i else 0) .^ p) 0 (zseq 0 (Z.to_nat n)).

(** The meaning of a mnemonic on [w]-bit operands. *)
Definition sem (w : Z) (m : mn) (a b : Z) : Z :=
let k := b mod w in
let flag (c : bool) := if c then 1 else 0 in
match m with
| ADD => wrap w (a + b)
| SUB => wrap w (a - b)
| SLL => wrap w (a << k)
| SLT => flag (sgn w a <? sgn w b)
| SLTU => flag (a <? b)
| XOR => a .^ b
| SRL => a >> k
| SRA => wrap w (sgn w a >> k)
| OR => a .| b
| AND => a .& b
| MUL => wrap w (a * b)
| MULH => wrap w ((sgn w a * sgn w b) >> w)
| MULHSU => wrap w ((sgn w a * b) >> w)
| MULHU => (a * b) >> w
| DIV => if b =? 0 then 2 ^ w - 1 else wrap w (Z.quot (sgn w a) (sgn w b))
| DIVU => if b =? 0 then 2 ^ w - 1 else a / b
| REM => if b =? 0 then a else wrap w (Z.rem (sgn w a) (sgn w b))
| REMU => if b =? 0 then a else a mod b
| SH1ADD => wrap w ((a << 1) + b)
| SH2ADD => wrap w ((a << 2) + b)
| SH3ADD => wrap w ((a << 3) + b)
| ANDN => Z.ldiff a b
| ORN => wrap w (a .| Z.lnot b)
| XNOR => wrap w (Z.lnot (a .^ b))
| ROL => wrap w (a << k) .| (a >> (w - k))
| ROR => (a >> k) .| wrap w (a << (w - k))
| CLMUL => wrap w (gf2_mul w a b)
| CLMULR => wrap w (gf2_mul w a b >> (w - 1))
| CLMULH => gf2_mul w a b >> w
| MIN => if sgn w a <? sgn w b then a else b
| MINU => Z.min a b
| MAX => if sgn w a <? sgn w b then b else a
| MAXU => Z.max a b
| BCLR => Z.clearbit a k
| BEXT => flag (Z.testbit a k)
| BSET => Z.setbit a k
| BINV => a .^ 2 ^ k
| ZEXTH => wrap 16 a
| SEXTB => wrap w (sgn 8 a)
| SEXTH => wrap w (sgn 16 a)
| CLZ => if a =? 0 then w else w - 1 - Z.log2 a
| CTZ => if a =? 0 then w else Z.log2 (a .& - a)
| CPOP => Z.of_nat (length (filter (fun i => Z.testbit a i = true) (zseq 0 (Z.to_nat w))))
| ORCB => le_value (map (fun b => if b =? 0 then 0 else 255) (le_bytes (Z.to_nat (w / 8)) a))
| REV8 => le_value (rev (le_bytes (Z.to_nat (w / 8)) a))
| ADDUW => wrap w (wrap 32 a + b)
| SH1ADDUW => wrap w ((wrap 32 a << 1) + b)
| SH2ADDUW => wrap w ((wrap 32 a << 2) + b)
| SH3ADDUW => wrap w ((wrap 32 a << 3) + b)
| SLLIUW => wrap w (wrap 32 a << k)
end.

(** ** Encodings: rows of funct7, funct3 and mnemonic *)

Definition base_rows : list (Z * Z * mn) :=
[(0x00, 0, ADD); (0x20, 0, SUB); (0x00, 1, SLL); (0x00, 2, SLT); (0x00, 3, SLTU);
 (0x00, 4, XOR); (0x00, 5, SRL); (0x20, 5, SRA); (0x00, 6, OR); (0x00, 7, AND)].
Definition m_rows : list (Z * Z * mn) :=
[(0x01, 0, MUL); (0x01, 1, MULH); (0x01, 2, MULHSU); (0x01, 3, MULHU);
 (0x01, 4, DIV); (0x01, 5, DIVU); (0x01, 6, REM); (0x01, 7, REMU)].
Definition b_rows : list (Z * Z * mn) :=
[(0x10, 2, SH1ADD); (0x10, 4, SH2ADD); (0x10, 6, SH3ADD);
 (0x20, 7, ANDN); (0x20, 6, ORN); (0x20, 4, XNOR); (0x30, 1, ROL); (0x30, 5, ROR);
 (0x05, 1, CLMUL); (0x05, 2, CLMULR); (0x05, 3, CLMULH);
 (0x05, 4, MIN); (0x05, 5, MINU); (0x05, 6, MAX); (0x05, 7, MAXU);
 (0x24, 1, BCLR); (0x24, 5, BEXT); (0x14, 1, BSET); (0x34, 1, BINV)].
(** OP-IMM without a shift amount: funct3 alone selects. *)
Definition imm_rows : list (Z * mn) :=
[(0, ADD); (2, SLT); (3, SLTU); (4, XOR); (6, OR); (7, AND)].
(** OP-IMM with a shift amount; on RV64 the low bit of funct7 belongs to the amount. *)
Definition shift_rows : list (Z * Z * mn) :=
[(0x00, 1, SLL); (0x00, 5, SRL); (0x20, 5, SRA); (0x30, 5, ROR);
 (0x24, 1, BCLR); (0x24, 5, BEXT); (0x14, 1, BSET); (0x34, 1, BINV)].
(** The unary operations: funct7, rs2 field, funct3. *)
Definition unary_rows (xlen : Z) : list (Z * Z * Z * mn) :=
[(0x30, 0x00, 1, CLZ); (0x30, 0x01, 1, CTZ); (0x30, 0x02, 1, CPOP); (0x30, 0x04, 1, SEXTB);
 (0x30, 0x05, 1, SEXTH); (0x14, 0x07, 5, ORCB);
 (if xlen =? 32 then 0x34 else 0x35, 0x18, 5, REV8)].
Definition word_rows : list (Z * Z * mn) :=
[(0x00, 0, ADD); (0x20, 0, SUB); (0x00, 1, SLL); (0x00, 5, SRL); (0x20, 5, SRA);
 (0x01, 0, MUL); (0x01, 4, DIV); (0x01, 5, DIVU); (0x01, 6, REM); (0x01, 7, REMU);
 (0x30, 1, ROL); (0x30, 5, ROR)].
Definition uw_rows : list (Z * Z * mn) :=
[(0x04, 0, ADDUW); (0x10, 2, SH1ADDUW); (0x10, 4, SH2ADDUW); (0x10, 6, SH3ADDUW)].
Definition word_shift_rows : list (Z * Z * mn) :=
[(0x00, 1, SLL); (0x00, 5, SRL); (0x20, 5, SRA); (0x30, 5, ROR)].
Definition word_unary_rows : list (Z * Z * Z * mn) :=
[(0x30, 0x00, 1, CLZ); (0x30, 0x01, 1, CTZ); (0x30, 0x02, 1, CPOP)].

(** [result x inst a b v]: on [x]-bit operands [a] (rs1) and [b] (rs2), the instruction
  [inst] is defined and its result is [v]. *)
Inductive result (x inst a b : Z) : Z -> Prop :=
| r_op m : opcode inst = OP_REG -> (funct7 inst, funct3 inst, m) ∈ base_rows ++ m_rows ++ b_rows ->
  result x inst a b (sem x m a b)
| r_zexth32 : x = 32 -> opcode inst = OP_REG -> funct7 inst = 0x04 -> funct3 inst = 4 -> rs2 inst = 0 ->
  result x inst a b (sem x ZEXTH a b)
| r_imm m : opcode inst = OP_IMM -> (funct3 inst, m) ∈ imm_rows ->
  result x inst a b (sem x m a (wrap x (imm_i inst)))
| r_shift m : opcode inst = OP_IMM ->
  ((if x =? 64 then funct7 inst .& 0x7e else funct7 inst), funct3 inst, m) ∈ shift_rows ->
  result x inst a b (sem x m a ((inst >> 20) .& (x - 1)))
| r_unary m : opcode inst = OP_IMM -> (funct7 inst, rs2 inst, funct3 inst, m) ∈ unary_rows x ->
  result x inst a b (sem x m a 0)
| r_word m : x = 64 -> opcode inst = OP_REG_32 -> (funct7 inst, funct3 inst, m) ∈ word_rows ->
  result x inst a b (wrap 64 (sgn 32 (sem 32 m (wrap 32 a) (wrap 32 b))))
| r_uw m : x = 64 -> opcode inst = OP_REG_32 -> (funct7 inst, funct3 inst, m) ∈ uw_rows ->
  result x inst a b (sem 64 m a b)
| r_zexth64 : x = 64 -> opcode inst = OP_REG_32 -> funct7 inst = 0x04 -> funct3 inst = 4 -> rs2 inst = 0 ->
  result x inst a b (sem x ZEXTH a b)
| r_addiw : x = 64 -> opcode inst = OP_IMM_32 -> funct3 inst = 0 ->
  result x inst a b (wrap 64 (sgn 32 (sem 32 ADD (wrap 32 a) (wrap 32 (imm_i inst)))))
| r_word_shift m : x = 64 -> opcode inst = OP_IMM_32 -> (funct7 inst, funct3 inst, m) ∈ word_shift_rows ->
  result x inst a b (wrap 64 (sgn 32 (sem 32 m (wrap 32 a) (rs2 inst))))
| r_slliuw : x = 64 -> opcode inst = OP_IMM_32 -> funct7 inst .& 0x7e = 0x04 -> funct3 inst = 1 ->
  result x inst a b (sem 64 SLLIUW a ((inst >> 20) .& 0x3f))
| r_word_unary m : x = 64 -> opcode inst = OP_IMM_32 -> (funct7 inst, rs2 inst, funct3 inst, m) ∈ word_unary_rows ->
  result x inst a b (wrap 64 (sgn 32 (sem 32 m (wrap 32 a) 0))).
End Isa.
