(* ===== verification/AluSem.v ===== *)
(** * Meaning of the integer result functions

    The handlers of [src/cpu.c] compute on 64-bit containers for both widths, an RV32
    register being sign-extended in its container.  [repr x A a] relates a container to
    the [x]-bit value it holds; one lemma per operation shows that the container the code
    computes holds the value [Isa.sem] gives. *)

From Stdlib Require Import Btauto.
From S2P Require Import Prelude Decode Isa Cpu Alu CpuInv.

(** ** Containers *)

Record repr (x A a : Z) : Prop := {
  rp_val : rng x a;
  rp_box : rng 64 A;
  rp_low : wrap x A = a;
  rp_sgn : s64 A = sgn x a
}.

Definition rv_width (x : Z) : Prop := x = 32 \/ x = 64.

Lemma repr_64 a : rng 64 a -> repr 64 a a.
Proof. intros Ha. by constructor; rewrite ?wrap_small. Qed.

Lemma sx_low x z : rv_width x -> wrap x (sx x z) = wrap x z.
Proof. intros [-> | ->]; unfold sx, u64; by rewrite wrap_wrap, wrap_sgn by lia. Qed.

Lemma sgn_sx x z : rv_width x -> s64 (sx x z) = sgn x z.
Proof.
  intros Hx. unfold s64, sx, u64. rewrite sgn_wrap by lia. apply sgn_small; [lia|].
  destruct Hx as [-> | ->]; pose proof (sgn_range 32 z); pose proof (sgn_range 64 z); lia.
Qed.

(** A sign-extended value of at most [x] bits represents its low bits. *)
Lemma repr_sx x z : rv_width x -> repr x (sx x z) (wrap x z).
Proof.
  intros Hx. constructor.
  - apply wrap_range. destruct Hx; lia.
  - apply wrap_range. lia.
  - by apply sx_low.
  - rewrite sgn_sx by done. symmetry. apply sgn_wrap. destruct Hx; lia.
Qed.

Lemma repr_imm x i : rv_width x -> - 2 ^ 31 <= i < 2 ^ 31 -> repr x (u64 i) (wrap x i).
Proof.
  intros Hx Hi. pose proof (repr_sx x i Hx) as H. unfold sx in H. rewrite sgn_small in H; [done|..];
    destruct Hx; subst; cbn in *; lia.
Qed.

Lemma sgn_wrap_cases x a : 0 < x -> rng x a -> sgn x a = if a <? 2 ^ (x - 1) then a else a - 2 ^ x.
Proof. intros. unfold sgn. by rewrite wrap_small by (done || lia). Qed.

(** Masks of the width. *)
Lemma amount_mask x : rv_width x -> (if x =? 64 then 0x3f else 0x1f) = u32 (x - 1).
Proof. by intros [-> | ->]. Qed.
Lemma mask_x x z : rv_width x -> z .& bm_mask x = wrap x z.
Proof. by intros [-> | ->]. Qed.
Lemma mod_xlen x z : rv_width x -> z mod x = z .& (x - 1).
Proof. intros [-> | ->]; symmetry; [apply (Z.land_ones z 5)|apply (Z.land_ones z 6)]; lia. Qed.

(** ** Bits *)

Lemma bit_land1 z i : 0 <= i -> (z >> i) .& 1 = Z.b2z (Z.testbit z i).
Proof.
  intros. rewrite (Z.land_ones _ 1), <- Z.bit0_mod, Z.shiftr_spec by lia. f_equal; f_equal; lia.
Qed.
Lemma testbit_ge v n : 0 <= n -> 0 <= v -> Z.testbit v n = true -> 2 ^ n <= v.
Proof.
  intros Hn Hv E. destruct (Z.le_gt_cases (2 ^ n) v) as [|H]; [done|].
  rewrite (rng_testbit n v n) in E; [done|by split|lia].
Qed.
Lemma rng_drop_top n v : 0 <= n -> rng (Z.succ n) v -> Z.testbit v n = false -> rng n v.
Proof.
  intros Hn Hv E. apply testbit_rng; [done|apply Hv|]. intros i Hi.
  destruct (decide (i = n)) as [->|]; [done|]. apply (rng_testbit (Z.succ n)); [done|lia].
Qed.

(** ** Loops of the bit-manipulation helpers *)

Lemma clz_loop_ext v v' n : (forall i, 0 <= i < Z.of_nat n -> Z.testbit v i = Z.testbit v' i) ->
  clz_loop v n = clz_loop v' n.
Proof.
  induction n as [|n IH]; intros H; [done|]. cbn [clz_loop].
  rewrite !bit_land1, H, IH by lia || (intros; apply H; lia). done.
Qed.
Lemma clz_loop_spec n : forall v, rng (Z.of_nat n) v ->
  clz_loop v n = if v =? 0 then Z.of_nat n else Z.of_nat n - 1 - Z.log2 v.
Proof.
  induction n as [|n IH]; intros v Hv; cbn [clz_loop].
  { destruct (Z.eqb_spec v 0); [done|]. unfold rng in Hv. cbn in Hv. lia. }
  rewrite bit_land1 by lia. unfold rng in Hv. rewrite Nat2Z.inj_succ in *.
  destruct (Z.testbit v (Z.of_nat n)) eqn:E; cbn [Z.b2z Z.eqb].
  - destruct (Z.eqb_spec v 0) as [->|Hn]; [by rewrite Z.bits_0 in E|].
    assert (Z.of_nat n <= Z.log2 v) by (apply Z.log2_le_pow2; [lia|]; apply testbit_ge; [lia|lia|done]).
    assert (Z.log2 v < Z.succ (Z.of_nat n)) by (apply Z.log2_lt_pow2; lia). lia.
  - rewrite IH; [destruct (v =? 0); lia|]. apply rng_drop_top; [lia|done..].
Qed.

Lemma ctz_loop_ext v v' n : forall i, 0 <= i ->
  (forall j, i <= j < i + Z.of_nat n -> Z.testbit v j = Z.testbit v' j) -> ctz_loop v i n = ctz_loop v' i n.
Proof.
  induction n as [|n IH]; intros i Hi H; [done|]. cbn [ctz_loop].
  rewrite !bit_land1, H, (IH (i + 1)) by lia || (intros; apply H; lia). done.
Qed.
Lemma ctz_loop_zero i n : ctz_loop 0 i n = Z.of_nat n.
Proof.
  revert i. induction n as [|n IH]; intros i; [done|]. cbn [ctz_loop].
  rewrite Z.shiftr_0_l, Z.land_0_l, IH. cbn [Z.eqb]. lia.
Qed.
(** An odd number shifted left by [p] has [p] trailing zeros. *)
Lemma ctz_loop_odd q p n : forall i, 0 <= i <= p -> p < i + Z.of_nat n ->
  ctz_loop ((2 * q + 1) << p) i n = p - i.
Proof.
  induction n as [|n IH]; intros i Hi Hp; [lia|]. cbn [ctz_loop]. rewrite bit_land1, shiftl_testbit by lia.
  destruct (decide (i = p)) as [->|].
  - by rewrite Z.sub_diag, Z.testbit_odd_0.
  - rewrite Z.testbit_neg_r by lia. cbn [Z.b2z Z.eqb]. rewrite IH by lia. lia.
Qed.
Lemma odd_decomp a : 0 < a -> exists q p, 0 <= p /\ 0 <= q /\ a = (2 * q + 1) << p.
Proof.
  intros Ha. assert (exists p : positive, a = Zpos p) as [p ->] by (destruct a; [lia|eauto|lia]). clear Ha.
  induction p as [p _|p (q & n & Hn & Hq & E)|].
  - exists (Zpos p), 0. rewrite Z.shiftl_0_r. lia.
  - exists q, (n + 1). split; [lia|]. split; [done|]. rewrite <- Z.shiftl_shiftl, <- E by lia. done.
  - exists 0, 0. done.
Qed.
Lemma lowest_bit q p : 0 <= p -> let a := (2 * q + 1) << p in a .& - a = 2 ^ p.
Proof.
  intros Hp. cbv zeta. replace (- ((2 * q + 1) << p)) with ((2 * Z.lnot q + 1) << p)
    by (rewrite !Z.shiftl_mul_pow2 by lia; unfold Z.lnot; lia).
  rewrite <- Z.shiftl_land, <- Z.shiftl_1_l. f_equal. apply Z.bits_inj'. intros i Hi. rewrite Z.land_spec.
  destruct (decide (i = 0)) as [->|]; [by rewrite !Z.testbit_odd_0|].
  replace i with (Z.succ (i - 1)) by lia. rewrite !Z.testbit_odd_succ, Z.lnot_spec by lia.
  rewrite (Z.bits_above_log2 1) by (cbn; lia). apply andb_negb_r.
Qed.
Lemma ctz_loop_spec a n : rng (Z.of_nat n) a ->
  ctz_loop a 0 n = if a =? 0 then Z.of_nat n else Z.log2 (a .& - a).
Proof.
  intros Ha. destruct (Z.eqb_spec a 0) as [->|]; [apply ctz_loop_zero|].
  unfold rng in Ha. destruct (odd_decomp a) as (q & p & Hp & Hq & ->); [lia|].
  rewrite lowest_bit, Z.log2_pow2 by lia. rewrite ctz_loop_odd; [lia|lia|].
  destruct (Z.lt_ge_cases p (Z.of_nat n)) as [|Hge]; [lia|].
  rewrite Z.shiftl_mul_pow2 in Ha by lia. pose proof (Z.pow_le_mono_r 2 (Z.of_nat n) p). nia.
Qed.

(** The population count is the number of set positions. *)
Lemma cpop_loop v l n : Forall (fun i => 0 <= i) l ->
  foldl (fun n i => n + ((v >> i) .& 1)) n l = n + Z.of_nat (length (filter (fun i => Z.testbit v i = true) l)).
Proof.
  intros Hl. revert n. induction Hl as [|i l Hi _ IH]; intros n; [cbn; lia|].
  cbn [foldl]. rewrite IH, bit_land1, filter_cons by done.
  destruct (Z.testbit v i); cbn [Z.b2z]; (destruct (decide _); [|done]) || (destruct (decide _); [done|]); cbn [length]; lia.
Qed.
Lemma filter_ext_in {T} (P Q : T -> Prop) `{!forall i, Decision (P i), !forall i, Decision (Q i)} l :
  Forall (fun i => P i <-> Q i) l -> filter P l = filter Q l.
Proof.
  induction 1 as [|i l Hi _ IH]; [done|]. rewrite !filter_cons, IH.
  destruct (decide (P i)), (decide (Q i)); tauto || done.
Qed.

(** ** Byte lists *)

Lemma le_value_app l m : Isa.le_value (l ++ m) = Isa.le_value l + 256 ^ Z.of_nat (length l) * Isa.le_value m.
Proof.
  induction l as [|c l IH]; [cbn [app Isa.le_value length]; rewrite Z.pow_0_r; lia|].
  cbn [app Isa.le_value length].
  rewrite IH, Nat2Z.inj_succ, Z.pow_succ_r by lia. lia.
Qed.
Lemma length_le_bytes n v : length (Isa.le_bytes n v) = n.
Proof. revert v. induction n as [|n IH]; intros v; [done|]. cbn. by rewrite IH. Qed.
Lemma le_bytes_snoc n v : Isa.le_bytes (S n) v = Isa.le_bytes n v ++ [(v >> (8 * Z.of_nat n)) .& 0xff].
Proof.
  revert v. induction n as [|n IH]; intros v.
  - cbn [Isa.le_bytes app]. rewrite Z.shiftr_0_r. f_equal. symmetry. by apply (Z.land_ones v 8).
  - change (Isa.le_bytes (S (S n)) v) with (v mod 256 :: Isa.le_bytes (S n) (v / 256)).
    replace (v >> (8 * Z.of_nat (S n))) with (v / 256 >> (8 * Z.of_nat n)); [by rewrite IH|].
    change 256 with (2 ^ 8). rewrite <- Z.shiftr_div_pow2, Z.shiftr_shiftr by lia. f_equal. lia.
Qed.
Lemma le_value_rng l : Forall (rng 8) l -> rng (8 * Z.of_nat (length l)) (Isa.le_value l).
Proof.
  induction 1 as [|c l Hc _ IH]; [by apply rng_const|]. cbn [length Isa.le_value].
  rewrite Nat2Z.inj_succ. replace (8 * Z.succ (Z.of_nat (length l))) with (8 * Z.of_nat (length l) + 8) by lia.
  unfold rng in *. rewrite Z.pow_add_r by lia. lia.
Qed.
Lemma le_bytes_rng n v : Forall (rng 8) (Isa.le_bytes n v).
Proof.
  revert v. induction n as [|n IH]; intros v; constructor; [|apply IH]. apply Z.mod_pos_bound. lia.
Qed.
Lemma pow256 n : 0 <= n -> 256 ^ n = 2 ^ (8 * n).
Proof. intros. change 256 with (2 ^ 8). by rewrite <- Z.pow_mul_r by lia. Qed.

(** The loop of orc.b over [n] bytes. *)
Lemma orcb_loop v n : (n <= 8)%nat ->
  foldl (fun r k => let b := 8 * k in if (v >> b) .& 0xff =? 0 then r else r .| u64 (0xff << b)) 0 (zseq 0 n)
  = Isa.le_value (map (fun b => if b =? 0 then 0 else 255) (Isa.le_bytes n v)).
Proof.
  induction n as [|n IH]; intros Hn; [done|].
  replace (S n) with (n + 1)%nat at 1 by lia. rewrite zseq_app, foldl_app, IH by lia.
  rewrite le_bytes_snoc, map_app, le_value_app, length_map, length_le_bytes. cbn [zseq foldl map Isa.le_value].
  rewrite Z.add_0_l. set (r := Isa.le_value _).
  assert (rng (8 * Z.of_nat n) r) as Hr.
  { unfold r. rewrite <- (length_le_bytes n v) at 1. rewrite <- (length_map (fun b => if b =? 0 then 0 else 255)).
    apply le_value_rng, Forall_fmap, Forall_true. intros c. cbn. destruct (c =? 0); by apply rng_const. }
  destruct (_ =? 0); [lia|]. unfold u64. rewrite (wrap_small 64).
  - rewrite lor_shiftl_add, pow256 by (done || lia). lia.
  - lia.
  - apply (rng_mono (8 * Z.of_nat n + 8)); [lia|]. unfold rng. rewrite Z.shiftl_mul_pow2, Z.pow_add_r by lia. lia.
Qed.

(** The loop of rev8, [n] of [m] bytes placed. *)
Lemma rev8_loop v m n : (n <= m <= 8)%nat ->
  foldl (fun r i => r .| u64 (((v >> (i * 8)) .& 0xff) << ((Z.of_nat m - 1 - i) * 8))) 0 (zseq 0 n)
  = Isa.le_value (rev (Isa.le_bytes n v)) << (8 * (Z.of_nat m - Z.of_nat n)).
Proof.
  induction n as [|n IH]; intros Hn; [cbn; by rewrite Z.shiftl_0_l|].
  replace (S n) with (n + 1)%nat at 1 by lia. rewrite zseq_app, foldl_app, IH by lia.
  rewrite le_bytes_snoc, rev_app_distr. cbn [zseq foldl rev app Isa.le_value]. rewrite Z.add_0_l.
  rewrite (Z.mul_comm (Z.of_nat n) 8). set (c := _ .& 0xff). set (r := Isa.le_value _).
  assert (rng 8 c) as Hc by (apply land_rng_r; [lia|by apply rng_const]).
  set (s := 8 * (Z.of_nat m - Z.of_nat (S n))). replace ((Z.of_nat m - 1 - Z.of_nat n) * 8) with s by lia.
  replace (8 * (Z.of_nat m - Z.of_nat n)) with (8 + s) by lia.
  assert (0 <= s <= 56) by lia. unfold u64. rewrite (wrap_small 64).
  - rewrite <- Z.shiftl_shiftl, <- Z.shiftl_lor by lia. f_equal.
    rewrite Z.lor_comm, lor_shiftl_add by (done || lia). lia.
  - lia.
  - apply (rng_mono (8 + s)); [lia|]. unfold rng in *. rewrite Z.shiftl_mul_pow2, Z.pow_add_r by lia. nia.
Qed.

(** ** Carry-less product *)

(** The 128-bit accumulator of [bm_clmul128] after any set of shifts. *)
Lemma clmul_loop a b l : rng 64 a -> Forall (fun i => 0 <= i < 64) l -> forall rh rl, rng 64 rl ->
  let p := foldl (clmul_step a b) (rh, rl) l in
  rng 64 p.2 /\ (p.1 << 64) .^ p.2
    = ((rh << 64) .^ rl) .^ foldr (fun i q => (if Z.testbit b i then a << i else 0) .^ q) 0 l.
Proof.
  intros Ha Hl. induction Hl as [|i l Hi _ IH]; intros rh rl Hrl; cbv zeta.
  { cbn [foldl foldr fst snd]. by rewrite Z.lxor_0_r. }
  cbn [foldl foldr]. assert (clmul_step a b (rh, rl) i = if Z.testbit b i
    then (if 0 <? i then rh .^ (a >> (64 - i)) else rh, rl .^ u64 (a << i)) else (rh, rl)) as ->.
  { unfold clmul_step. rewrite bit_land1 by lia. by destruct (Z.testbit b i). }
  destruct (Z.testbit b i).
  - destruct (IH (if 0 <? i then rh .^ (a >> (64 - i)) else rh) (rl .^ u64 (a << i))) as [H1 H2];
      [apply lxor_rng; [lia|done|apply u64_rng]|].
    split; [done|]. rewrite H2, <- !Z.lxor_assoc. f_equal. clear -Ha Hi Hrl. zbits;
    replace (i0 - 64 + (64 - i)) with (i0 - i) by lia; btauto.
  - rewrite Z.lxor_0_l. by apply IH.
Qed.

Section Ops.
Context {x A B a b : Z}.
Hypothesis (Hx : rv_width x) (Ha : repr x A a) (Hb : repr x B b).

#[local] Instance xlen_width : Width x.
Proof. unfold Width. destruct Hx; lia. Qed.
#[local] Notation "u ≈ v" := (eqw x u v) (at level 70).
#[local] Abbreviation k := (b mod x).

Lemma xlen_le : 0 < x <= 64.
Proof. destruct Hx; lia. Qed.

Lemma repr_eqw A' a' : repr x A' a' -> eqw x A' a'.
Proof. intros []. unfold eqw. rewrite rp_low0. symmetry. apply wrap_small; [destruct Hx; lia|done]. Qed.

Lemma rA : A ≈ a.
Proof. by apply repr_eqw. Qed.
Lemma rB : B ≈ b.
Proof. by apply repr_eqw. Qed.
Lemma eqw_u64 z : u64 z ≈ z.
Proof. apply eqw_wrap; [apply _|apply xlen_le]. Qed.
Lemma eqw_x z : wrap x z ≈ z.
Proof. apply eqw_wrap; [apply _|done]. Qed.

Lemma ltu_repr : (A <? B) = (a <? b).
Proof.
destruct Ha as [Ra Ka La Sa], Hb as [Rb Kb Lb Sb]. pose proof xlen_le.
unfold s64 in *. rewrite sgn_wrap_cases in Sa, Sb by (done || lia).
rewrite (sgn_wrap_cases x) in Sa, Sb by (done || lia).
destruct Hx as [-> | ->]; unfold rng in *; cbn in *;
repeat match goal with H : context [?p <? ?q] |- _ => destruct (Z.ltb_spec p q) end;
destruct (Z.ltb_spec A B), (Z.ltb_spec a b); lia.
Qed.

Lemma lts_repr : (s64 A <? s64 B) = (sgn x a <? sgn x b).
Proof. by rewrite (rp_sgn _ _ _ Ha), (rp_sgn _ _ _ Hb). Qed.

(** The shift amount and bit index of the register forms. *)
Lemma amount : u32 B .& u32 (x - 1) = k.
Proof.
rewrite <- (rp_low _ _ _ Hb), mod_xlen by done.
destruct Hx as [-> | ->]; [change (32 - 1) with (Z.ones 5)|change (64 - 1) with (Z.ones 6)]; zbits.
Qed.
Lemma amount_rng : 0 <= k < x.
Proof. apply Z.mod_pos_bound. pose proof xlen_le. lia. Qed.


Ltac eqw_auto := rewrite ?eqw_u64, ?eqw_x, ?rA, ?rB; try done.

Lemma ok_add : u64 (A + B) ≈ Isa.sem x Isa.ADD a b.
Proof. cbn [Isa.sem]. by eqw_auto. Qed.
Lemma ok_sub : u64 (A - B) ≈ Isa.sem x Isa.SUB a b.
Proof. cbn [Isa.sem]. by eqw_auto. Qed.
Lemma ok_xor : A .^ B ≈ Isa.sem x Isa.XOR a b.
Proof. cbn [Isa.sem]. by eqw_auto. Qed.
Lemma ok_or : A .| B ≈ Isa.sem x Isa.OR a b.
Proof. cbn [Isa.sem]. by eqw_auto. Qed.
Lemma ok_and : A .& B ≈ Isa.sem x Isa.AND a b.
Proof. cbn [Isa.sem]. by eqw_auto. Qed.
Lemma ok_slt : (if s64 A <? s64 B then 1 else 0) ≈ Isa.sem x Isa.SLT a b.
Proof. by rewrite lts_repr. Qed.
Lemma ok_sltu : (if A <? B then 1 else 0) ≈ Isa.sem x Isa.SLTU a b.
Proof. by rewrite ltu_repr. Qed.
Lemma ok_sll : u64 (A << k) ≈ Isa.sem x Isa.SLL a b.
Proof. pose proof amount_rng. cbn [Isa.sem]. eqw_auto. by apply eqw_shiftl, rA; [apply _|lia]. Qed.
Lemma ok_srl : (if x =? 64 then A >> k else u32 A >> k) ≈ Isa.sem x Isa.SRL a b.
Proof.
cbn [Isa.sem]. rewrite <- (rp_low _ _ _ Ha). destruct Hx as [-> | ->]; cbn; [done|].
rewrite wrap_small; [done|lia|apply Ha].
Qed.
Lemma ok_sra : (if x =? 64 then u64 (s64 A >> k) else u64 (s32 A >> k)) ≈ Isa.sem x Isa.SRA a b.
Proof.
cbn [Isa.sem]. rewrite <- (rp_sgn _ _ _ Ha). rewrite eqw_x.
replace (if x =? 64 then u64 (s64 A >> k) else u64 (s32 A >> k)) with (u64 (s64 A >> k)); [by eqw_auto|].
destruct Hx as [-> | ->]; cbn; [|done]. rewrite (rp_sgn _ _ _ Ha), <- (rp_low _ _ _ Ha).
unfold s32. by rewrite sgn_wrap.
Qed.

(** *** Bit manipulation *)

Lemma ok_shadd n : 0 <= n -> u64 (u64 (A << n) + B) ≈ wrap x ((a << n) + b).
Proof. intros. by rewrite !eqw_u64, eqw_x, rB, (eqw_shiftl x A a n) by (done || apply rA). Qed.
Lemma ok_sh1add : u64 (u64 (A << 1) + B) ≈ Isa.sem x Isa.SH1ADD a b.
Proof. by apply ok_shadd. Qed.
Lemma ok_sh2add : u64 (u64 (A << 2) + B) ≈ Isa.sem x Isa.SH2ADD a b.
Proof. by apply ok_shadd. Qed.
Lemma ok_sh3add : u64 (u64 (A << 3) + B) ≈ Isa.sem x Isa.SH3ADD a b.
Proof. by apply ok_shadd. Qed.
Lemma ok_andn : A .& u64 (Z.lnot B) ≈ Isa.sem x Isa.ANDN a b.
Proof. cbn [Isa.sem]. rewrite Z.ldiff_land. by eqw_auto. Qed.
Lemma ok_orn : A .| u64 (Z.lnot B) ≈ Isa.sem x Isa.ORN a b.
Proof. cbn [Isa.sem]. by eqw_auto. Qed.
Lemma ok_xnor : u64 (Z.lnot (A .^ B)) ≈ Isa.sem x Isa.XNOR a b.
Proof. cbn [Isa.sem]. by eqw_auto. Qed.
Lemma ok_min : (if s64 A <? s64 B then A else B) ≈ Isa.sem x Isa.MIN a b.
Proof. rewrite lts_repr. cbn [Isa.sem]. destruct (_ <? _); [apply rA|apply rB]. Qed.
Lemma ok_max : (if s64 A <? s64 B then B else A) ≈ Isa.sem x Isa.MAX a b.
Proof. rewrite lts_repr. cbn [Isa.sem]. destruct (_ <? _); [apply rB|apply rA]. Qed.
Lemma ok_minu : (if A <? B then A else B) ≈ Isa.sem x Isa.MINU a b.
Proof.
rewrite ltu_repr. cbn [Isa.sem]. destruct (Z.ltb_spec a b);
  [rewrite Z.min_l by lia; apply rA|rewrite Z.min_r by lia; apply rB].
Qed.
Lemma ok_maxu : (if A <? B then B else A) ≈ Isa.sem x Isa.MAXU a b.
Proof.
rewrite ltu_repr. cbn [Isa.sem]. destruct (Z.ltb_spec a b);
  [rewrite Z.max_r by lia; apply rB|rewrite Z.max_l by lia; apply rA].
Qed.

Lemma eqw_pow2 n : 0 <= n -> u64 (1 << n) ≈ 2 ^ n.
Proof. intros. by rewrite eqw_u64, Z.shiftl_1_l. Qed.
Lemma ok_bclr : A .& u64 (Z.lnot (u64 (1 << k))) ≈ Isa.sem x Isa.BCLR a b.
Proof.
cbn [Isa.sem]. rewrite eqw_u64, eqw_pow2, rA by apply amount_rng.
unfold Z.clearbit. by rewrite Z.ldiff_land, Z.shiftl_1_l.
Qed.
Lemma ok_bset : A .| u64 (1 << k) ≈ Isa.sem x Isa.BSET a b.
Proof.
cbn [Isa.sem]. rewrite eqw_pow2, rA by apply amount_rng. unfold Z.setbit. by rewrite Z.shiftl_1_l.
Qed.
Lemma ok_binv : A .^ u64 (1 << k) ≈ Isa.sem x Isa.BINV a b.
Proof. cbn [Isa.sem]. by rewrite eqw_pow2, rA by apply amount_rng. Qed.

Lemma repr_testbit i : 0 <= i < x -> Z.testbit A i = Z.testbit a i.
Proof. intros. by apply (proj2 (eqw_bits x A a)); [apply rA|]. Qed.
Lemma ok_bext : (A >> k) .& 1 ≈ Isa.sem x Isa.BEXT a b.
Proof.
pose proof amount_rng. cbn [Isa.sem]. rewrite bit_land1, repr_testbit by lia. by destruct (Z.testbit a k).
Qed.

(** Rotations; the amount is [j] modulo the width. *)
Lemma low_xlen z : wrap x (u64 z) = wrap x z.
Proof. pose proof xlen_le. by apply wrap_wrap; lia. Qed.
Lemma ok_ror s : s .& u32 (x - 1) = k -> bm_ror A s x ≈ Isa.sem x Isa.ROR a b.
Proof.
intros Hs. unfold bm_ror. cbn [Isa.sem]. rewrite Hs, !mask_x, (rp_low _ _ _ Ha) by done.
pose proof amount_rng. destruct Ha as [Ra _ _ _], (Z.eqb_spec k 0) as [E|].
- rewrite E. apply eqw_bits; [apply _|]. intros i Hi. zbit_eq.
- apply eqw_bits; [apply _|]. intros i Hi. pose proof xlen_le. zbit_eq.
Qed.
Lemma ok_rol s : s .& u32 (x - 1) = k -> bm_rol A s x ≈ Isa.sem x Isa.ROL a b.
Proof.
intros Hs. unfold bm_rol. cbn [Isa.sem]. rewrite Hs, !mask_x, (rp_low _ _ _ Ha) by done.
pose proof amount_rng. destruct Ha as [Ra _ _ _], (Z.eqb_spec k 0) as [E|].
- rewrite E. apply eqw_bits; [apply _|]. intros i Hi. zbit_eq.
- apply eqw_bits; [apply _|]. intros i Hi. pose proof xlen_le. zbit_eq.
Qed.

(** *** Counts, bytes and extensions *)

Lemma ok_clz : bm_clz A x ≈ Isa.sem x Isa.CLZ a b.
Proof.
pose proof xlen_le. unfold bm_clz. cbn [Isa.sem].
rewrite (clz_loop_ext A a) by (intros; apply repr_testbit; lia).
rewrite clz_loop_spec; rewrite Z2Nat.id by lia; [done|apply Ha].
Qed.
Lemma ok_ctz : bm_ctz A x ≈ Isa.sem x Isa.CTZ a b.
Proof.
pose proof xlen_le. unfold bm_ctz. cbn [Isa.sem].
rewrite (ctz_loop_ext A a) by (lia || (intros; apply repr_testbit; lia)).
rewrite ctz_loop_spec; rewrite Z2Nat.id by lia; [done|apply Ha].
Qed.
Lemma ok_cpop : bm_cpop A x ≈ Isa.sem x Isa.CPOP a b.
Proof.
pose proof xlen_le. unfold bm_cpop. cbn [Isa.sem]. rewrite cpop_loop by (apply Forall_zseq; lia).
rewrite Z.add_0_l. erewrite filter_ext_in; [done|]. apply Forall_zseq. intros i Hi.
by rewrite repr_testbit by lia.
Qed.
Lemma le_bytes_ext n v v' : wrap (8 * Z.of_nat n) v = wrap (8 * Z.of_nat n) v' ->
Isa.le_bytes n v = Isa.le_bytes n v'.
Proof.
induction n as [|n IH]; intros E; [done|]. rewrite !le_bytes_snoc, IH.
- f_equal. f_equal. transitivity ((wrap (8 * Z.of_nat (S n)) v >> (8 * Z.of_nat n)) .& 0xff);
    [|rewrite E]; zbits.
- rewrite <- (wrap_wrap _ (8 * Z.of_nat (S n))), E, wrap_wrap by lia. done.
Qed.
Lemma bytes_repr : Isa.le_bytes (Z.to_nat (x / 8)) A = Isa.le_bytes (Z.to_nat (x / 8)) a.
Proof. apply le_bytes_ext. pose proof rA as E. by destruct Hx as [-> | ->]. Qed.
Lemma ok_orcb : bm_orcb A x ≈ Isa.sem x Isa.ORCB a b.
Proof.
unfold bm_orcb. cbn [Isa.sem]. rewrite orcb_loop by (by destruct Hx as [-> | ->]; apply Nat.leb_le).
by rewrite bytes_repr.
Qed.
Lemma ok_rev8 : bm_rev8 A x ≈ Isa.sem x Isa.REV8 a b.
Proof.
unfold bm_rev8. cbn [Isa.sem]. cbv zeta. pose proof xlen_le. pose proof (Z.div_pos x 8 ltac:(lia) ltac:(lia)).
pose proof (Z.div_le_mono x 64 8 ltac:(lia) ltac:(lia)) as H8. change (64 / 8) with 8 in H8.
pose proof (rev8_loop A (Z.to_nat (x / 8)) (Z.to_nat (x / 8)) ltac:(lia)) as E.
rewrite Z2Nat.id in E by lia. by rewrite E, Z.sub_diag, Z.shiftl_0_r, bytes_repr.
Qed.
Lemma ok_sextb : u64 (s8 A) ≈ Isa.sem x Isa.SEXTB a b.
Proof.
cbn [Isa.sem]. rewrite eqw_u64, eqw_x. unfold s8. pose proof xlen_le.
rewrite <- (rp_low _ _ _ Ha), sgn_wrap by (destruct Hx; lia). done.
Qed.
Lemma ok_sexth : u64 (s16 A) ≈ Isa.sem x Isa.SEXTH a b.
Proof.
cbn [Isa.sem]. rewrite eqw_u64, eqw_x. unfold s16.
rewrite <- (rp_low _ _ _ Ha), sgn_wrap by (destruct Hx; lia). done.
Qed.
Lemma ok_zexth : A .& 0xffff ≈ Isa.sem x Isa.ZEXTH a b.
Proof.
cbn [Isa.sem]. rewrite <- (rp_low _ _ _ Ha), wrap_wrap by (destruct Hx; lia). done.
Qed.

(** *** Carry-less products *)

Lemma bm_bits128_spec hi lo pos : 0 <= pos <= 64 -> rng 64 lo ->
bm_bits128 hi lo pos x = wrap x (((hi << 64) .^ lo) >> pos).
Proof.
intros Hp Hl. unfold bm_bits128. rewrite mask_x by done. pose proof xlen_le.
destruct (Z.eqb_spec pos 0) as [->|]; [zbits|]. destruct (Z.ltb_spec pos 64).
{ zbits. replace (i - (64 - pos)) with (i + pos - 64) by lia.
  destruct (Z.lt_ge_cases (i + pos) 64); repeat zbit_known; btauto. }
replace pos with 64 by lia. zbits.
Qed.
Lemma clmul_repr pos : 0 <= pos <= 64 -> let p := bm_clmul128 A B x in
bm_bits128 p.1 p.2 pos x ≈ Isa.gf2_mul x a b >> pos.
Proof.
intros Hp. cbv zeta. unfold bm_clmul128. rewrite !mask_x, (rp_low _ _ _ Ha), (rp_low _ _ _ Hb) by done.
pose proof xlen_le. rewrite Z.min_l by lia.
destruct (clmul_loop a b (zseq 0 (Z.to_nat x))) with (rh := 0) (rl := 0) as [H1 H2].
{ apply (rng_mono x); [lia|apply Ha]. }
{ apply Forall_zseq. lia. }
{ by apply rng_const. }
rewrite bm_bits128_spec, H2, eqw_x by done. by rewrite Z.shiftl_0_l, !Z.lxor_0_l.
Qed.
Lemma ok_clmul : (let p := bm_clmul128 A B x in bm_bits128 p.1 p.2 0 x) ≈ Isa.sem x Isa.CLMUL a b.
Proof. cbn [Isa.sem]. rewrite eqw_x, <- (Z.shiftr_0_r (Isa.gf2_mul x a b)). by apply clmul_repr. Qed.
Lemma ok_clmulr : (let p := bm_clmul128 A B x in bm_bits128 p.1 p.2 (x - 1) x) ≈ Isa.sem x Isa.CLMULR a b.
Proof. pose proof xlen_le. cbn [Isa.sem]. rewrite eqw_x. apply clmul_repr. lia. Qed.
Lemma ok_clmulh : (let p := bm_clmul128 A B x in bm_bits128 p.1 p.2 x x) ≈ Isa.sem x Isa.CLMULH a b.
Proof. pose proof xlen_le. cbn [Isa.sem]. apply clmul_repr. lia. Qed.
End Ops.

(** ** Multiplication and division *)

(** The four-limb schoolbook product of the code is the high word of the full product. *)
Lemma mulhu64_spec a b : rng 64 a -> rng 64 b -> mulhu64 a b = (a * b) >> 64.
Proof.
  intros Ha Hb. unfold mulhu64. cbv zeta.
  assert (forall z, rng 64 z -> rng 32 (z >> 32)) as Hhi by (intros; by apply (shiftr_rng 32 32)).
  assert (forall z, z = u32 z + 2 ^ 32 * (z >> 32)) as Hsp.
  { intros z. unfold u32. rewrite wrap_mod, Z.shiftr_div_pow2 by lia. pose proof (Z.div_mod z (2 ^ 32)). lia. }
  pose proof (u32_rng a) as A0. pose proof (u32_rng b) as B0. pose proof (Hhi a Ha) as A1. pose proof (Hhi b Hb) as B1.
  rewrite (Hsp a) at 7. rewrite (Hsp b) at 7.
  generalize dependent (a >> 32). generalize dependent (b >> 32). generalize dependent (u32 a).
  generalize dependent (u32 b). clear Ha Hb. intros y0 Y0 x0 X0 y1 Y1 x1 X1.
  assert (forall p q, rng 32 p -> rng 32 q -> 0 <= p * q <= (2 ^ 32 - 1) * (2 ^ 32 - 1)) as Hm by (unfold rng; nia).
  assert (forall z, 0 <= z < 2 ^ 64 -> u64 z = z) as Hu by (intros; by apply wrap_small).
  pose proof (Hm _ _ X0 Y0). pose proof (Hm _ _ X0 Y1). pose proof (Hm _ _ X1 Y0). pose proof (Hm _ _ X1 Y1).
  rewrite !(Hu (_ * _)) by lia.
  set (ll := x0 * y0) in *. set (lh := x0 * y1) in *. set (hl := x1 * y0) in *. set (hh := x1 * y1) in *.
  replace ((x0 + 2 ^ 32 * x1) * (y0 + 2 ^ 32 * y1)) with (ll + 2 ^ 32 * (lh + hl) + 2 ^ 64 * hh) by lia.
  assert (forall z, 0 <= z -> z >> 32 = z / 2 ^ 32 /\ u32 z = z mod 2 ^ 32) as Hd.
  { intros z Hz. unfold u32. by rewrite wrap_mod, Z.shiftr_div_pow2 by lia. }
  clearbody ll lh hl hh. clear Hm.
  repeat match goal with |- context [u32 ?z] => rewrite (proj2 (Hd z ltac:(lia))) end.
  rewrite (proj1 (Hd ll ltac:(lia))), (proj1 (Hd lh ltac:(lia))), (proj1 (Hd hl ltac:(lia))).
  rewrite (Z.shiftr_div_pow2 _ 64) by lia.
  pose proof (Z.div_mod lh (2 ^ 32) ltac:(lia)). pose proof (Z.div_mod hl (2 ^ 32) ltac:(lia)).
  pose proof (Z.mod_pos_bound lh (2 ^ 32) ltac:(lia)). pose proof (Z.mod_pos_bound hl (2 ^ 32) ltac:(lia)).
  pose proof (Z.div_mod ll (2 ^ 32) ltac:(lia)). pose proof (Z.mod_pos_bound ll (2 ^ 32) ltac:(lia)).
  rewrite (Hu (ll / 2 ^ 32 + _)), (Hu (_ + _ + _)) by lia.
  set (c := ll / 2 ^ 32 + lh mod 2 ^ 32 + hl mod 2 ^ 32) in *.
  rewrite (proj1 (Hd c ltac:(lia))). pose proof (Z.div_mod c (2 ^ 32) ltac:(lia)).
  pose proof (Z.mod_pos_bound c (2 ^ 32) ltac:(lia)).
  rewrite (Hu (hh + _)), (Hu (hh + _ + _)), (Hu (hh + _ + _ + _)) by lia.
  apply (Z.div_unique _ _ _ (2 ^ 32 * (c mod 2 ^ 32) + ll mod 2 ^ 32)); lia.
Qed.

Lemma sgn_neg w z : 0 < w -> rng w z -> sgn w z = z - (if sgn w z <? 0 then 2 ^ w else 0).
Proof.
  intros Hw Hz. rewrite sgn_wrap_cases by done. unfold rng in Hz.
  pose proof (Z.pow_pos_nonneg 2 (w - 1) ltac:(lia) ltac:(lia)).
  destruct (Z.ltb_spec z (2 ^ (w - 1))); zcase.
Qed.

(** Signed high products from the unsigned one, modulo [2^w]. *)
Lemma mulhsu_eqw w a b : Width w -> rng w a ->
  eqw w (((a * b) >> w) - (if sgn w a <? 0 then b else 0)) ((sgn w a * b) >> w).
Proof.
  intros Hw Ha. unfold Width in Hw. rewrite (sgn_neg w a) at 2 by done.
  rewrite !Z.shiftr_div_pow2 by lia. destruct (sgn w a <? 0).
  - replace ((a - 2 ^ w) * b) with (a * b + (- b) * 2 ^ w) by lia. rewrite Z.div_add by lia.
    by replace (a * b / 2 ^ w + - b) with (a * b / 2 ^ w - b) by lia.
  - by rewrite !Z.sub_0_r.
Qed.
Lemma mulh_eqw w a b : Width w -> rng w a -> rng w b ->
  eqw w (((a * b) >> w) - (if sgn w a <? 0 then b else 0) - (if sgn w b <? 0 then a else 0))
        ((sgn w a * sgn w b) >> w).
Proof.
  intros Hw Ha Hb. rewrite mulhsu_eqw, (Z.mul_comm (sgn w a) (sgn w b)) by done.
  rewrite <- (mulhsu_eqw w b (sgn w a)) by done. rewrite (Z.mul_comm b). apply eqw_sub; [done|done|].
  destruct (sgn w b <? 0); [|done]. by rewrite eqw_sgn.
Qed.

Lemma quot_overflow w : 0 < w -> Z.quot (- 2 ^ (w - 1)) (-1) = 2 ^ (w - 1).
Proof. intros. change (-1) with (- (1)). rewrite Z.quot_opp_opp, Z.quot_1_r by lia. done. Qed.

(** The division cases of [muldiv64], [muldiv32] and [muldivw]. *)
Lemma div_signed w a b : 0 < w ->
  eqw w (if (sgn w a =? - 2 ^ (w - 1)) && (sgn w b =? -1) then - 2 ^ (w - 1) else Z.quot (sgn w a) (sgn w b))
        (Z.quot (sgn w a) (sgn w b)).
Proof.
  intros Hw. destruct (Z.eqb_spec (sgn w a) (- 2 ^ (w - 1))) as [->|]; [|done].
  destruct (Z.eqb_spec (sgn w b) (-1)) as [->|]; [|done]. cbn [andb]. rewrite quot_overflow by done.
  unfold eqw. rewrite <- (wrap_shift w (- 2 ^ (w - 1)) 1) by lia. f_equal.
  replace (2 ^ w) with (2 * 2 ^ (w - 1)); [lia|]. rewrite <- Z.pow_succ_r by lia. f_equal. lia.
Qed.
Lemma rem_signed w a b :
  (if (sgn w a =? - 2 ^ (w - 1)) && (sgn w b =? -1) then 0 else Z.rem (sgn w a) (sgn w b))
  = Z.rem (sgn w a) (sgn w b).
Proof.
  destruct (_ =? _); [|done]. destruct (Z.eqb_spec (sgn w b) (-1)) as [->|]; [|done]. cbn [andb].
  change (-1) with (- (1)). by rewrite Z.rem_opp_r, Z.rem_1_r by done.
Qed.

Lemma div_wrap w a b : 0 < w ->
  (if (sgn w a =? - 2 ^ (w - 1)) && (sgn w b =? -1) then wrap w (- 2 ^ (w - 1)) else wrap w (Z.quot (sgn w a) (sgn w b)))
  = wrap w (Z.quot (sgn w a) (sgn w b)).
Proof. intros Hw. rewrite <- (div_signed w a b) by done. by destruct (_ && _). Qed.
Lemma rem_wrap w a b : 0 < w ->
  (if (sgn w a =? - 2 ^ (w - 1)) && (sgn w b =? -1) then 0 else wrap w (Z.rem (sgn w a) (sgn w b)))
  = wrap w (Z.rem (sgn w a) (sgn w b)).
Proof.
  intros Hw. rewrite <- (rem_signed w a b). destruct (_ && _); [|done]. by rewrite wrap_mod, Z.mod_0_l by lia.
Qed.

Lemma ok_muldiv64 f3 m a b : rng 64 a -> rng 64 b -> (0x01, f3, m) ∈ Isa.m_rows ->
  eqw 64 (muldiv64 f3 a b) (Isa.sem 64 m a b).
Proof.
  intros Ha Hb Hm. unfold Isa.m_rows in Hm. repeat (apply elem_of_cons in Hm as [[= -> ->]|Hm]); [..|by inversion Hm];
    unfold muldiv64; cbn [Z.eqb Pos.eqb Isa.sem]; rewrite ?mulhu64_spec by done; unfold s64, u64; try done.
  - by rewrite !eqw_wrap, mulh_eqw by (done || apply _).
  - by rewrite !eqw_wrap, mulhsu_eqw by (done || apply _).
  - destruct (b =? 0); [done|]. by rewrite (div_wrap 64).
  - destruct (b =? 0); [done|]. by rewrite (rem_wrap 64).
Qed.

Lemma ok_muldiv32 f3 m a b : rng 32 a -> rng 32 b -> (0x01, f3, m) ∈ Isa.m_rows ->
  eqw 32 (muldiv32 f3 a b) (Isa.sem 32 m a b).
Proof.
  intros Ha Hb Hm. assert (u64 (a * b) = a * b) as Hab by (apply wrap_small; [lia|unfold rng in *; nia]).
  unfold Isa.m_rows in Hm. repeat (apply elem_of_cons in Hm as [[= -> ->]|Hm]); [..|by inversion Hm];
    unfold muldiv32; cbn [Z.eqb Pos.eqb Isa.sem]; rewrite ?Hab; unfold s32, u32; try done.
  - by rewrite eqw_wrap by (done || apply _).
  - destruct (b =? 0); [done|]. by rewrite (div_wrap 32).
  - destruct (b =? 0); [done|]. by rewrite (rem_wrap 32).
Qed.

(** ** What each instruction writes

    The value the handlers of [src/cpu.c] write to [rd] for containers [A], [B], or
    [None] where they raise an illegal-instruction trap. *)
Definition alu_result (x inst A B : Z) : option Z :=
  let op := opcode inst in
  if op =? OP_IMM then Some (default (op_imm_result x inst A) (bitmanip_imm x inst A))
  else if op =? OP_IMM_32 then
    if negb (x =? 64) then None
    else match bitmanip_imm32 inst A with
         | Some r => Some r
         | None => u64 <$> op_imm32_result inst (u32 A)
         end
  else if op =? OP_REG then
    if funct7 inst =? 0x01
    then Some (if x =? 64 then muldiv64 (funct3 inst) A B else muldiv32 (funct3 inst) (u32 A) (u32 B))
    else Some (default (op_result x inst A B) (bitmanip_op x inst A B))
  else if op =? OP_REG_32 then
    if negb (x =? 64) then None
    else if funct7 inst =? 0x01 then u64 <$> muldivw (funct3 inst) (u32 A) (u32 B)
    else match bitmanip_op32 inst A B with
         | Some r => Some r
         | None => u64 <$> op32_result inst (u32 A) (u32 B)
         end
  else None.

(** Fields of the shift-amount formats. *)
Lemma funct6_funct7 inst : (inst >> 26) .& 0x3f = funct7 inst >> 1.
Proof. unfold funct7. zbits. Qed.
Lemma arith_funct7 inst : (inst >> 30) .& 1 = (funct7 inst >> 5) .& 1.
Proof. unfold funct7. zbits. Qed.
Lemma shamt_imm inst m : 0 <= m <= 12 -> u32 (imm_i inst) .& Z.ones m = (inst >> 20) .& Z.ones m.
Proof. intros. unfold imm_i. zbits. Qed.
Lemma funct7_even inst c : funct7 inst .& 0x7e = c -> funct7 inst = c \/ funct7 inst = c + 1.
Proof.
  intros <-. assert (funct7 inst = (funct7 inst .& 0x7e) + (funct7 inst .& 1)) as E.
  { rewrite <- lor_add; [unfold funct7; zbits|]. unfold funct7. zbits. }
  assert (rng 1 (funct7 inst .& 1)) as H1 by (apply land_rng_r; [lia|by apply rng_const]).
  unfold rng in H1. lia.
Qed.
Lemma imm_i_range inst : - 2 ^ 31 <= imm_i inst < 2 ^ 31.
Proof.
  unfold imm_i. pose proof (sgn_range 32 inst ltac:(lia)). rewrite Z.shiftr_div_pow2 by lia.
  unfold s32. split; [apply Z.div_le_lower_bound|apply Z.div_lt_upper_bound]; cbn in *; lia.
Qed.
Lemma repr_small x z : rv_width x -> 0 <= z < 64 -> repr x z z.
Proof.
  intros Hx Hz. assert (forall w, 32 <= w -> rng w z) as Hr by
    (intros w Hw; split; [lia|]; pose proof (Z.pow_le_mono_r 2 32 w); lia).
  assert (forall w, 32 <= w -> sgn w z = z) as Hs.
  { intros w Hw. apply sgn_small; [lia|]. pose proof (Z.pow_le_mono_r 2 31 (w - 1)). lia. }
  assert (32 <= x) by (destruct Hx; lia).
  constructor; [by apply Hr..|apply wrap_small; [lia|by apply Hr]|]. unfold s64. by rewrite !Hs by lia.
Qed.

(** Evaluate the operations on literals the selected row leaves in the goal. *)
Ltac zcompute :=
  repeat match goal with
  | |- context [?f (Zpos ?p) (Zpos ?q)] =>
    lazymatch f with Z.shiftr => idtac | Z.land => idtac | Z.add => idtac | Z.eqb => idtac end;
    let v := eval vm_compute in (f (Zpos p) (Zpos q)) in change (f (Zpos p) (Zpos q)) with v
  | |- context [?f 0 (Zpos ?q)] =>
    lazymatch f with Z.shiftr => idtac | Z.land => idtac | Z.add => idtac | Z.eqb => idtac end;
    let v := eval vm_compute in (f 0 (Zpos q)) in change (f 0 (Zpos q)) with v
  end;
  cbn [Z.eqb negb default from_option id andb orb].

Section Rows.
Context (x A B a b inst : Z).
Hypothesis (Hx : rv_width x) (Ha : repr x A a) (Hb : repr x B b).

(** [computes v]: the handlers write a container of [v]. *)
Definition computes (v : Z) : Prop := exists r, alu_result x inst A B = Some r /\ eqw x r v.

Ltac row_simpl :=
unfold computes, alu_result;
repeat match goal with H : opcode inst = _ |- _ => rewrite H; clear H end;
unfold bitmanip_op, op_result, bitmanip_op32, op32_result, bitmanip_imm, op_imm_result;
repeat match goal with
| H : funct7 inst = _ |- _ => rewrite !H; clear H
| H : funct3 inst = _ |- _ => rewrite !H; clear H
| H : rs2 inst = _ |- _ => rewrite !H; clear H
end;
cbn [Z.eqb Pos.eqb default from_option id OP_REG OP_IMM OP_IMM_32 OP_REG_32 andb orb negb].

Lemma op_rows_ok m : opcode inst = OP_REG -> (funct7 inst, funct3 inst, m) ∈ Isa.base_rows ++ Isa.b_rows ->
computes (Isa.sem x m a b).
Proof.
intros Ho Hm. assert (u32 B .& u32 (x - 1) = b mod x) as Hk by (by eapply amount).
assert ((if x =? 64 then 0x3f else 0x1f) = u32 (x - 1)) as Hmask by (by apply amount_mask).
cbn [Isa.base_rows Isa.b_rows app] in Hm.
repeat (apply elem_of_cons in Hm as [[= H7 H3 ->]|Hm]); [..|by inversion Hm];
  row_simpl; eexists; (split; [reflexivity|]);
  rewrite ?Hmask, ?Hk.
all: eauto using ok_rol, ok_ror, ok_add, ok_sub, ok_xor, ok_or, ok_and, ok_slt, ok_sltu, ok_sll, ok_srl, ok_sra,
  ok_sh1add, ok_sh2add, ok_sh3add, ok_andn, ok_orn, ok_xnor, ok_min, ok_max, ok_minu, ok_maxu,
  ok_bclr, ok_bset, ok_binv, ok_bext, ok_clmul, ok_clmulr, ok_clmulh.
Qed.
Lemma m_rows_ok m : opcode inst = OP_REG -> (funct7 inst, funct3 inst, m) ∈ Isa.m_rows ->
computes (Isa.sem x m a b).
Proof.
intros Ho Hm. assert (funct7 inst = 0x01) as H7.
{ unfold Isa.m_rows in Hm. set_unfold in Hm. intuition congruence. }
unfold computes, alu_result. rewrite Ho, H7 in *. eexists. split; [done|].
destruct Ha as [Ra Ka La _], Hb as [Rb Kb Lb _]. unfold u32. destruct Hx as [-> | ->]; cbn [Z.eqb Pos.eqb].
- rewrite La, Lb. by apply ok_muldiv32.
- rewrite wrap_small in La, Lb by done. subst. by apply ok_muldiv64.
Qed.

Lemma imm_rows_ok m : opcode inst = OP_IMM -> (funct3 inst, m) ∈ Isa.imm_rows ->
computes (Isa.sem x m a (wrap x (imm_i inst))).
Proof.
intros Ho Hm. pose proof (repr_imm x (imm_i inst) Hx (imm_i_range inst)) as Hi.
assert (s64 (u64 (imm_i inst)) = imm_i inst) as Hs.
{ rewrite (rp_sgn _ _ _ Hi), sgn_wrap by (destruct Hx; lia). pose proof (imm_i_range inst).
  apply sgn_small; destruct Hx; subst; cbn; lia. }
unfold Isa.imm_rows in Hm. repeat (apply elem_of_cons in Hm as [[= H3 ->]|Hm]); [..|by inversion Hm];
  row_simpl; eexists; (split; [reflexivity|]); 
  try (match goal with |- context [s64 A <? imm_i inst] => rewrite <- Hs at 1 end);
  eauto using ok_add, ok_xor, ok_or, ok_and, ok_slt, ok_sltu.
Qed.

Lemma shift_rows_ok m : opcode inst = OP_IMM ->
((if x =? 64 then funct7 inst .& 0x7e else funct7 inst), funct3 inst, m) ∈ Isa.shift_rows ->
computes (Isa.sem x m a ((inst >> 20) .& (x - 1))).
Proof.
intros Ho Hm. set (s := (inst >> 20) .& (x - 1)).
assert ((if x =? 64 then 0x3f else 0x1f) = x - 1) as Hmask by (by destruct Hx as [-> | ->]).
assert (0 <= s < 64) as Hs64.
{ assert (rng 6 s); [|unfold rng in *; lia]. apply land_rng_r; [lia|]. destruct Hx as [-> | ->]; by apply rng_const. }
pose proof (repr_small x s Hx Hs64) as Hs.
assert (s mod x = s) as Hk.
{ rewrite mod_xlen by done. unfold s. by rewrite <- Z.land_assoc, Z.land_diag. }
assert (s .& u32 (x - 1) = s mod x) as Hk' by (rewrite mod_xlen by done; by destruct Hx as [-> | ->]).
assert (u32 (imm_i inst) .& (x - 1) = s) as Hi.
{ unfold s. destruct Hx as [-> | ->]; [apply (shamt_imm inst 5)|apply (shamt_imm inst 6)]; lia. }
assert (forall c, (if x =? 64 then funct7 inst .& 0x7e else funct7 inst) = c -> funct7 inst = c \/ funct7 inst = c + 1) as Hf.
{ intros c. destruct (x =? 64); [apply funct7_even|by left]. }
unfold Isa.shift_rows in Hm. repeat (apply elem_of_cons in Hm as [[= H7 H3 ->]|Hm]); [..|by inversion Hm];
  (destruct (Hf _ H7) as [E|E]; clear H7; cbn in E; unfold computes, alu_result, bitmanip_imm, op_imm_result;
   rewrite Ho, funct6_funct7, arith_funct7, !E, !H3, Hmask, Hi; fold s; zcompute; eexists; (split; [reflexivity|])).
all: try (eapply ok_ror; eauto; fail).
all: match goal with |- eqw x ?l ?v =>
  match eval pattern s in l with ?f _ => apply (eq_ind (s mod x) (fun t => eqw x (f t) v)); [|exact Hk] end end.
all: eauto using ok_sll, ok_srl, ok_sra, ok_ror, ok_bclr, ok_bext, ok_bset, ok_binv.
Qed.
Lemma unary_rows_ok m : opcode inst = OP_IMM -> (funct7 inst, rs2 inst, funct3 inst, m) ∈ Isa.unary_rows x ->
computes (Isa.sem x m a 0).
Proof.
intros Ho Hm. pose proof (repr_small x 0 Hx ltac:(lia)) as H0.
unfold Isa.unary_rows in Hm. repeat (apply elem_of_cons in Hm as [[= H7 H2 H3 ->]|Hm]); [..|by inversion Hm];
  unfold computes, alu_result, bitmanip_imm;
  rewrite Ho, funct6_funct7, H7, ?H2, ?H3;
  try (destruct Hx as [-> | ->]; cbn [Z.eqb Pos.eqb] in *);
  zcompute; eexists; (split; [reflexivity|]);
  eauto using ok_clz, ok_ctz, ok_cpop, ok_sextb, ok_sexth, ok_orcb, ok_rev8.
Qed.

Lemma zexth32_row : x = 32 -> opcode inst = OP_REG -> funct7 inst = 0x04 -> funct3 inst = 4 -> rs2 inst = 0 ->
computes (Isa.sem x Isa.ZEXTH a b).
Proof.
intros E Ho H7 H3 H2. unfold computes, alu_result, bitmanip_op.
rewrite Ho, H7, H3, H2, E. cbn [Z.eqb Pos.eqb]. zcompute. eexists. split; [reflexivity|].
rewrite <- E. eauto using ok_zexth.
Qed.
End Rows.

(** ** The word instructions of RV64 *)

Lemma sgn_eqw w r v : 0 < w -> eqw w r v -> sgn w r = sgn w v.
Proof. intros Hw E. by rewrite <- (sgn_wrap w w r), E, sgn_wrap by lia. Qed.
Lemma shiftr_sgn_range w z k : 0 < w -> 0 <= k -> - 2 ^ (w - 1) <= sgn w z >> k < 2 ^ (w - 1).
Proof.
  intros Hw Hk. pose proof (sgn_range w z Hw). pose proof (Z.pow_pos_nonneg 2 k ltac:(lia) Hk).
  pose proof (Z.pow_pos_nonneg 2 (w - 1) ltac:(lia) ltac:(lia)). rewrite Z.shiftr_div_pow2 by lia.
  split; [apply Z.div_le_lower_bound|apply Z.div_lt_upper_bound]; nia.
Qed.

(** Truncated quotients and remainders stay in the signed range, but for the overflow. *)
Lemma quot_range m p q : - m <= p < m -> q <> 0 -> p <> - m \/ q <> -1 -> - m <= Z.quot p q < m.
Proof.
  intros Hp Hq Ho. pose proof (Z.quot_abs p q Hq) as Habs. assert (Z.abs p / Z.abs q = Z.abs (Z.quot p q)) as E.
  { rewrite <- Habs. symmetry. apply Z.quot_div_nonneg; lia. }
  destruct (decide (Z.abs q = 1)) as [H1|H1].
  - assert (q = 1 \/ q = -1) as [-> | ->] by lia; [rewrite Z.quot_1_r; lia|].
    change (-1) with (- (1)). rewrite Z.quot_opp_r, Z.quot_1_r by done. lia.
  - pose proof (Z.div_le_compat_l (Z.abs p) 2 (Z.abs q) ltac:(lia) ltac:(lia)).
    assert (Z.abs p / 2 < m) by (apply Z.div_lt_upper_bound; lia). lia.
Qed.
Lemma rem_range m p q : - m <= p < m -> q <> 0 -> - m <= Z.rem p q < m.
Proof.
  intros Hp Hq. destruct (Z.le_gt_cases 0 p).
  - pose proof (Z.rem_nonneg p q Hq ltac:(lia)). pose proof (Z.rem_le p (Z.abs q) ltac:(lia) ltac:(lia)) as H1.
    rewrite Z.rem_abs_r in H1 by done. lia.
  - pose proof (Z.rem_nonpos p q Hq ltac:(lia)). pose proof (Z.rem_le (- p) (Z.abs q) ltac:(lia) ltac:(lia)) as H1.
    rewrite Z.rem_abs_r, Z.rem_opp_l in H1 by done. lia.
Qed.

Section WordRows.
Context (a b inst : Z).
Hypothesis (Ha : rng 64 a) (Hb : rng 64 b).
#[local] Abbreviation a' := (u32 a).
#[local] Abbreviation b' := (u32 b).

(** [word r m]: the 32-bit result [r] is the sign-extended meaning of [m]. *)
Definition word (r : Z) (m : Isa.mn) : Prop := r = sgn 32 (Isa.sem 32 m a' b').

Lemma word_shamt : b' .& 0x1f = b' mod 32.
Proof. apply (Z.land_ones b' 5). lia. Qed.

Lemma word_sra : word (s32 a' >> (b' mod 32)) Isa.SRA.
Proof.
unfold word. cbn [Isa.sem]. rewrite sgn_wrap by lia. symmetry. apply sgn_small; [lia|].
apply shiftr_sgn_range; [lia|]. apply Z.mod_pos_bound. lia.
Qed.

Lemma word_muldiv f3 m : (0x01, f3, m) ∈ Isa.word_rows -> exists r, muldivw f3 a' b' = Some r /\ word r m.
Proof.
intros Hm. pose proof (sgn_range 32 a' ltac:(lia)) as Ra.
assert (b' <> 0 -> sgn 32 b' <> 0) as Hn.
{ intros Hn E. apply Hn. apply (sgn_inj 32); [lia|apply u32_rng|by apply rng_const|done]. }
unfold Isa.word_rows in Hm. repeat (apply elem_of_cons in Hm as [Hm|Hm]; [simplify_eq|]); [..|by inversion Hm];
  unfold muldivw, word; cbn [Z.eqb Pos.eqb Isa.sem]; eexists; (split; [reflexivity|]); unfold s32; try done.
- destruct (Z.eqb_spec b' 0) as [|Hz]; [done|]. rewrite sgn_wrap, <- (sgn_eqw 32 _ _ ltac:(lia) (div_signed 32 a' b' ltac:(lia))) by lia.
  symmetry. apply sgn_small; [lia|]. destruct (_ && _) eqn:E; [done|].
  apply quot_range; [done|by apply Hn|]. apply andb_false_iff in E as [E|E]; apply Z.eqb_neq in E; [by left|by right].
- by destruct (b' =? 0).
- destruct (Z.eqb_spec b' 0) as [|Hz]; [done|]. change (- 2 ^ 31) with (- 2 ^ (32 - 1)). rewrite (rem_signed 32), sgn_wrap by lia.
  symmetry. apply sgn_small; [lia|]. apply rem_range; [done|by apply Hn].
- by destruct (b' =? 0).
Qed.
#[local] Abbreviation computes64 v := (computes 64 a b inst v).
#[local] Abbreviation ext v := (wrap 64 (sgn 32 v)).

Lemma computes_word r m : alu_result 64 inst a b = Some (u64 r) -> word r m -> computes64 (ext (Isa.sem 32 m a' b')).
Proof. intros E ->. by exists (u64 (sgn 32 (Isa.sem 32 m a' b'))). Qed.

Lemma word_rot m (f : Z -> Z -> Z -> Z) :
(forall s, f a s 32 = f (sx 32 a) s 32) ->
(forall A s k, repr 32 A a' -> s .& u32 (32 - 1) = k mod 32 -> eqw 32 (f A s 32) (Isa.sem 32 m a' k)) ->
word (s32 (f a b' 32)) m.
Proof.
intros He Hf. unfold word, s32. apply sgn_eqw; [lia|]. rewrite He. apply Hf.
- apply repr_sx. by left.
- rewrite mod_xlen by (by left). done.
Qed.
Lemma low_box : sx 32 a .& bm_mask 32 = a .& bm_mask 32.
Proof. rewrite !mask_x by (by left). apply sx_low. by left. Qed.

Lemma word_rows_ok m : opcode inst = OP_REG_32 -> (funct7 inst, funct3 inst, m) ∈ Isa.word_rows ->
computes64 (ext (Isa.sem 32 m a' b')).
Proof.
intros Ho Hm. destruct (decide (funct7 inst = 0x01)) as [H7|H7].
{ rewrite H7 in Hm. destruct (word_muldiv _ _ Hm) as (r & E & Hr). apply (computes_word r); [|done].
  unfold alu_result. rewrite Ho, H7, E. done. }
unfold Isa.word_rows in Hm. repeat (apply elem_of_cons in Hm as [Hm|Hm]; [injection Hm as E7 E3 ->; try done|]);
  [..|by inversion Hm]; (eapply computes_word;
    [unfold alu_result, bitmanip_op32, op32_result; rewrite Ho, !E7, !E3; zcompute; reflexivity|]);
  rewrite ?word_shamt; try (unfold word; reflexivity).
- apply word_sra.
- apply (word_rot _ bm_rol); [unfold bm_rol; by rewrite low_box|]. intros. eapply ok_rol; eauto. by left.
- apply (word_rot _ bm_ror); [unfold bm_ror; by rewrite low_box|]. intros. eapply ok_ror; eauto. by left.
Qed.

Lemma uw_rows_ok m : opcode inst = OP_REG_32 -> (funct7 inst, funct3 inst, m) ∈ Isa.uw_rows ->
computes64 (Isa.sem 64 m a b).
Proof.
intros Ho Hm. unfold Isa.uw_rows in Hm. repeat (apply elem_of_cons in Hm as [Hm|Hm]; [injection Hm as E7 E3 ->|]);
  [..|by inversion Hm]; (eexists; split;
    [unfold alu_result, bitmanip_op32; rewrite Ho, !E7, !E3; zcompute; reflexivity|]);
  cbn [Isa.sem]; unfold u64; rewrite !eqw_wrap by (done || apply _); done.
Qed.

Lemma zexth64_row : opcode inst = OP_REG_32 -> funct7 inst = 0x04 -> funct3 inst = 4 -> rs2 inst = 0 ->
computes64 (Isa.sem 64 Isa.ZEXTH a b).
Proof. intros Ho H7 H3 H2. eexists. split; [unfold alu_result, bitmanip_op32; rewrite Ho, H7, H3, H2; reflexivity|]. done. Qed.
End WordRows.

Section WordImmRows.
Context (a b inst : Z).
Hypothesis (Ha : rng 64 a).
#[local] Abbreviation a' := (u32 a).
#[local] Abbreviation computes64 v := (computes 64 a b inst v).
#[local] Abbreviation ext v := (wrap 64 (sgn 32 v)).

Lemma computes_word_imm r m s : alu_result 64 inst a b = Some (u64 r) -> word a s r m ->
computes64 (ext (Isa.sem 32 m a' (u32 s))).
Proof. intros E ->. by exists (u64 (sgn 32 (Isa.sem 32 m a' (u32 s)))). Qed.

Lemma addiw_row : opcode inst = OP_IMM_32 -> funct3 inst = 0 ->
computes64 (ext (Isa.sem 32 Isa.ADD a' (wrap 32 (imm_i inst)))).
Proof.
intros Ho H3. apply (computes_word_imm (s32 (u32 (a' + u32 (imm_i inst))))).
- unfold alu_result, bitmanip_imm32, op_imm32_result. rewrite Ho, H3. done.
- done.
Qed.

Lemma word_shift_rows_ok m : opcode inst = OP_IMM_32 -> (funct7 inst, funct3 inst, m) ∈ Isa.word_shift_rows ->
computes64 (ext (Isa.sem 32 m a' (rs2 inst))).
Proof.
intros Ho Hm. assert (rng 5 (rs2 inst)) as Hr by (apply land_rng_r; [lia|by apply rng_const]).
assert (u32 (rs2 inst) = rs2 inst) as Hs by (apply wrap_small; [lia|by apply (rng_mono 5)]).
assert (u32 (imm_i inst) .& 0x1f = u32 (rs2 inst) mod 32) as Hi.
{ rewrite <- word_shamt, Hs. unfold rs2. rewrite <- Z.land_assoc. apply (shamt_imm inst 5). lia. }
rewrite <- Hs. unfold Isa.word_shift_rows in Hm.
repeat (apply elem_of_cons in Hm as [Hm|Hm]; [injection Hm as E7 E3 ->|]); [..|by inversion Hm];
  (eapply computes_word_imm; [unfold alu_result, bitmanip_imm32, op_imm32_result;
    rewrite Ho, funct6_funct7, arith_funct7, !E7, !E3; zcompute; reflexivity|]);
  rewrite ?Hi; try (unfold word; reflexivity).
- apply word_sra.
- change ((inst >> 20) .& 31) with (rs2 inst).
  assert (word a (rs2 inst) (s32 (bm_ror a (u32 (rs2 inst)) 32)) Isa.ROR) as E; [|by rewrite Hs in E].
  apply (word_rot a (rs2 inst) _ bm_ror); [unfold bm_ror; by rewrite low_box|].
  intros. eapply ok_ror; eauto. by left.
Qed.

Lemma slliuw_row : opcode inst = OP_IMM_32 -> funct7 inst .& 0x7e = 0x04 -> funct3 inst = 1 ->
computes64 (Isa.sem 64 Isa.SLLIUW a ((inst >> 20) .& 0x3f)).
Proof.
intros Ho H7 H3. assert (((inst >> 20) .& 0x3f) mod 64 = (inst >> 20) .& 0x3f) as Hs.
{ rewrite <- (Z.land_ones _ 6), <- Z.land_assoc by lia. done. }
destruct (funct7_even _ _ H7) as [E|E]; (eexists; split;
  [unfold alu_result, bitmanip_imm32; rewrite Ho, funct6_funct7, !E, !H3; zcompute; reflexivity|]);
  cbn [Isa.sem]; rewrite Hs; reflexivity.
Qed.

Lemma word_unary_rows_ok m : opcode inst = OP_IMM_32 ->
(funct7 inst, rs2 inst, funct3 inst, m) ∈ Isa.word_unary_rows ->
computes64 (ext (Isa.sem 32 m a' 0)).
Proof.
intros Ho Hm. pose proof (u32_rng a) as Ra.
assert (forall r v, r = v -> 0 <= r <= 32 -> eqw 64 r (ext v)) as Hz.
{ intros r ? <- Hr. rewrite sgn_small, wrap_small by (cbn; unfold rng; lia). done. }
unfold Isa.word_unary_rows in Hm.
repeat (apply elem_of_cons in Hm as [Hm|Hm]; [injection Hm as E7 E2 E3 ->|]); [..|by inversion Hm];
  (eexists; split; [unfold alu_result, bitmanip_imm32; rewrite Ho, funct6_funct7, !E7, !E3, !E2; zcompute; reflexivity|]);
  apply Hz; cbn [Isa.sem].
- by apply (clz_loop_spec 32).
- apply (clz_loop_bound _ 32).
- by apply (ctz_loop_spec _ 32).
- apply (ctz_loop_bound _ 32).
- apply (cpop_loop _ _ 0), Forall_zseq. lia.
- apply (cpop_bound _ (zseq 0 32) 0).
Qed.
End WordImmRows.

(** ** Every defined instruction computes its meaning *)

Lemma alu_result_sound x inst A B v : rv_width x -> rng 64 A -> rng 64 B -> A = sx x A -> B = sx x B ->
  Isa.result x inst (wrap x A) (wrap x B) v ->
  exists r, alu_result x inst A B = Some r /\ eqw x r v.
Proof.
  intros Hx RA RB EA EB Hr. pose proof (repr_sx x A Hx) as HA. rewrite <- EA in HA.
  pose proof (repr_sx x B Hx) as HB. rewrite <- EB in HB.
  assert (x = 64 -> wrap x A = A /\ wrap x B = B) as H64 by (intros ->; by rewrite !wrap_small).
  destruct Hr as [m Ho Hm|E Ho H7 H3 H2|m Ho Hm|m Ho Hm|m Ho Hm|m E Ho Hm|m E Ho Hm|E Ho H7 H3 H2|E Ho H3
    |m E Ho Hm|E Ho H7 H3|m E Ho Hm].
  - rewrite app_assoc, (Permutation_app_comm Isa.base_rows), <- app_assoc in Hm.
    apply elem_of_app in Hm as [Hm|Hm]; [by eapply m_rows_ok|by eapply op_rows_ok].
  - by eapply zexth32_row.
  - by eapply imm_rows_ok.
  - by eapply shift_rows_ok.
  - by eapply unary_rows_ok.
  - subst x. destruct (H64 eq_refl) as [E1 E2]. rewrite ?E1, ?E2. by apply word_rows_ok.
  - subst x. destruct (H64 eq_refl) as [E1 E2]. rewrite ?E1, ?E2. by apply uw_rows_ok.
  - subst x. destruct (H64 eq_refl) as [E1 E2]. rewrite ?E1, ?E2. by apply zexth64_row.
  - subst x. destruct (H64 eq_refl) as [E1 E2]. rewrite ?E1, ?E2. by apply addiw_row.
  - subst x. destruct (H64 eq_refl) as [E1 E2]. rewrite ?E1, ?E2. by apply word_shift_rows_ok.
  - subst x. destruct (H64 eq_refl) as [E1 E2]. rewrite ?E1, ?E2. by apply slliuw_row.
  - subst x. destruct (H64 eq_refl) as [E1 E2]. rewrite ?E1, ?E2. by apply word_unary_rows_ok.
Qed.
