(* ===== verification/AluThms.v ===== *)
(** * The integer instructions implement the ISA

    [cpu_exec_alu] writes to [rd] the XLEN-bit result [Isa.result] defines, sign-extended
    in its 64-bit container, and changes nothing else; every other encoding of the four
    opcodes that the handlers reject traps. *)

From S2P Require Import Prelude Decode Isa Device DeviceInv Memory Cache Cpu Mmu See Trap Alu Exec Fpu Step CpuInv AluSem.

Lemma upd_hart_twice h f g w : upd_hart h f (upd_hart h g w) = upd_hart h (fun c => f (g c)) w.
Proof.
  unfold upd_hart, hart. destruct w. cbn. by rewrite lookup_insert_eq, insert_insert_eq.
Qed.
Lemma hart_after h f w : hart h (upd_hart h f w) = f (hart h w).
Proof. unfold upd_hart, hart. cbn. by rewrite lookup_insert_eq. Qed.

Lemma reg_read_trapped b c i : reg_read (set_c_trapped b c) i = reg_read c i.
Proof. done. Qed.
(** Run the hart-local steps of a handler. *)
Ltac hart_run := st_run; rewrite ?hart_after; cbn [c_xlen set_c_trapped]; rewrite ?reg_read_trapped.

Section Handler.
Context (h inst : Z) (w : World).
#[local] Abbreviation c := (hart h w).
#[local] Abbreviation A := (reg_read c (rs1 inst)).
#[local] Abbreviation B := (reg_read c (rs2 inst)).

Lemma alu_result_rng r : world_ok w -> alu_result (c_xlen c) inst A B = Some r -> rng 64 r.
Proof.
intros Hw E. assert (cpu_ok c) as Hc by apply Hw. pose proof (reg_read_rng c (rs1 inst) Hc).
pose proof (reg_read_rng c (rs2 inst) Hc). pose proof (ok_xlen c Hc) as Hx. unfold alu_result in E.
repeat match type of E with
| (if ?b then _ else _) = _ => destruct b
| match ?o with _ => _ end = _ => destruct o eqn:Eo
| (_ <$> ?o) = _ => destruct o; cbn in E
end; simplify_eq; try apply u64_rng.
- destruct (bitmanip_imm _ _ _) eqn:Eo; cbn; [by apply (bitmanip_imm_rng (c_xlen c) inst A)|by apply op_imm_result_rng].
- by apply (bitmanip_imm32_rng inst A).
- apply rng_if; [by apply muldiv64_rng|apply muldiv32_rng; apply u32_rng].
- destruct (bitmanip_op _ _ _ _) eqn:Eo; cbn; [by apply (bitmanip_op_rng (c_xlen c) inst A B)|by apply op_result_rng].
- by apply (bitmanip_op32_rng inst A B).
Qed.

(** The handlers, as one equation: write the result and report whether the hart is halted. *)
Lemma cpu_exec_alu_eq r : alu_result (c_xlen c) inst A B = Some r ->
cpu_exec_alu h inst w =
(c_halted c, upd_hart h (fun c => reg_write (rd inst) r (set_c_trapped false c)) w).
Proof.
intros E. unfold alu_result in E.
assert (forall i v f, c_trapped (reg_write i v (set_c_trapped false f)) || c_halted (reg_write i v (set_c_trapped false f))
  = c_halted f) as Hrw by (intros; unfold reg_write; by destruct (_ =? 0)).
unfold cpu_exec_alu, exec_op_imm, exec_bitmanip_imm, exec_op_imm32, exec_bitmanip_imm32, exec_op, exec_muldiv,
  exec_muldiv64, exec_bitmanip_op, exec_op32, exec_muldivw, exec_bitmanip_op32, cpu_upd.
assert (forall v, gets (fun w0 => c_trapped (hart h w0) || c_halted (hart h w0))
    (upd_hart h (reg_write (rd inst) v) (upd_hart h (set_c_trapped false) w))
  = (c_halted c, upd_hart h (fun c => reg_write (rd inst) v (set_c_trapped false c)) w)) as Hfin.
{ intros. unfold gets. by rewrite upd_hart_twice, hart_after, Hrw. }
st_run. repeat match type of E with (if ?b then _ else _) = _ => destruct b eqn:? end; try done; hart_run.
all: repeat match goal with H : ?b = _ |- context [if ?b then _ else _] => rewrite H end; hart_run.
all: try match type of E with
  | match ?o with _ => _ end = _ => destruct o
  | Some (default _ ?o) = _ => destruct o
  | Some (if ?b then _ else _) = _ => destruct b
  end; hart_run.
all: try match type of E with (_ <$> ?o) = _ => destruct o end.
all: cbn [write_result commit_word default from_option id fmap option_fmap option_map] in *; try done; injection E as <-;
  unfold cpu_upd; hart_run; apply Hfin.
Qed.
End Handler.

(** Registers are sign-extended containers. *)
Lemma reg_read_sx c i : cpu_ok c -> c_xlen c = 32 \/ c_xlen c = 64 -> reg_read c i = sx (c_xlen c) (reg_read c i).
Proof.
  intros Hc Hx. pose proof (reg_read_rng c i Hc) as Hr. destruct Hx as [E|E]; rewrite E.
  - unfold reg_read. destruct (i =? 0); [done|]. by apply (ok_sext c Hc).
  - unfold sx, u64. by rewrite wrap_sgn, wrap_small.
Qed.

Lemma sext_xlen_sx c r v : c_xlen c = 32 \/ c_xlen c = 64 -> rng 64 r -> eqw (c_xlen c) r v ->
  sext_xlen c r = sx (c_xlen c) v.
Proof.
  intros Hx Hr E. unfold sext_xlen, sx, s32. destruct Hx as [Hx|Hx]; rewrite Hx in *; cbn [Z.eqb Pos.eqb].
  - f_equal. by apply sgn_eqw.
  - unfold u64. by rewrite wrap_sgn, <- E, wrap_small.
Qed.

(** ** Property *)

(** C17 [alu_isa]: on RV32 and on RV64, every instruction of the OP, OP-IMM, OP-32 and
    OP-IMM-32 opcodes that the I, M, Zba, Zbb, Zbc or Zbs extension defines writes to [rd]
    the value the ISA gives for the XLEN-bit contents of its source registers,
    sign-extended to the 64-bit container, leaves every other register, the rest of the
    hart, memory and the other harts unchanged, and does not trap. *)
Theorem alu_refines_isa w h inst v :
  let c := hart h w in let x := c_xlen c in
  world_ok w -> x = 32 \/ x = 64 ->
  Isa.result x inst (wrap x (reg_read c (rs1 inst))) (wrap x (reg_read c (rs2 inst))) v ->
  cpu_exec_alu h inst w =
  (c_halted c, upd_hart h (fun c => set_c_trapped false
     (if rd inst =? 0 then c else set_c_regs (aset (rd inst) (sx x v) (c_regs c)) c)) w).
Proof.
  intros c x Hw Hx Hv. assert (cpu_ok c) as Hc by apply Hw.
  destruct (alu_result_sound x inst (reg_read c (rs1 inst)) (reg_read c (rs2 inst)) v) as (r & Er & E);
    [done|by apply reg_read_rng..|by apply reg_read_sx|by apply reg_read_sx|done|].
  rewrite (cpu_exec_alu_eq h inst w r Er). f_equal. unfold upd_hart. f_equal. f_equal.
  unfold reg_write. destruct (rd inst =? 0); [done|]. fold c. cbn [c_regs set_c_trapped].
  rewrite (sext_xlen_sx (set_c_trapped false c) r v); [done|done| |done].
  by apply (alu_result_rng h inst w).
Qed.

(** The RV32 signed-division overflow: lui x1, 0x80000; addi x2, x0, -1; div x3, x1, x2. *)
Definition div_world : World :=
  exec (cpu_step 0) (exec (cpu_step 0) (boot_world 32 [0xb7; 0x00; 0x00; 0x80; 0x13; 0x01; 0xf0; 0xff])).

Lemma alu_refines_isa_witness :
  reg_read (hart 0 (exec (cpu_exec_alu 0 0x0220c1b3) div_world)) 3 = 0xffffffff80000000.
Proof.
  unfold exec. rewrite (alu_refines_isa div_world 0 0x0220c1b3 (Isa.sem 32 Isa.DIV 0x80000000 0xffffffff)).
  - vm_compute. reflexivity.
  - do 2 apply cpu_step_ok. apply boot_world_ok; [by left|]. apply bytes_forallb. reflexivity.
  - left. vm_compute. reflexivity.
  - replace (Isa.sem 32 Isa.DIV 0x80000000 0xffffffff) with (Isa.sem (c_xlen (hart 0 div_world)) Isa.DIV
      (wrap (c_xlen (hart 0 div_world)) (reg_read (hart 0 div_world) (rs1 0x0220c1b3)))
      (wrap (c_xlen (hart 0 div_world)) (reg_read (hart 0 div_world) (rs2 0x0220c1b3)))) by (vm_compute; reflexivity).
    apply Isa.r_op; [vm_compute; reflexivity|]. by apply (list_elem_of_lookup_2 _ 14).
Defined.
