(* ===== verification/Elf.v ===== *)
(** * The ELF loader ([src/elf.c], [src/elf.h])

    Parsing and loading of ELF32/ELF64 RISC-V executables, and symbol lookup.  The file's
    contents are an argument (reading the file is I/O).  Every byte the C code reads through
    a pointer into its buffer is a bounds-checked access here: a read outside the buffer,
    undefined behaviour in C, makes the operation [Undefined]. *)

From S2P Require Import Prelude Device DeviceInv Memory.

(** ** Results *)

(** The diagnostics of [check_header] and [elf_load]; [NoSymbol] is the silent failure of
    [elf_symbol].
    [src/elf.c 124-156] check_header *)
Inductive ElfError :=
| TooSmall | BadMagic | UnknownClass | TooSmall64 | NotLittleEndian | NotExecutable | WrongMachine
| PhdrSize | PhdrTable | SegmentRange | FileszMemsz | NoLoad | Beyond4G | ImageSize | NoFit | NoMemory
| SegmentFit | EntryOutside | CannotOpen | NoSymbol.

Inductive outcome (A : Type) := Good (a : A) | Bad (e : ElfError) | Undefined.
Arguments Good {A}.
Arguments Bad {A}.
Arguments Undefined {A}.

#[export] Instance outcome_ret : MRet outcome := fun A a => Good a.
#[export] Instance outcome_bind : MBind outcome := fun A B k m =>
  match m with Good a => k a | Bad e => Bad e | Undefined => Undefined end.
Definition reject {A} (b : bool) (e : ElfError) (k : outcome A) : outcome A := if b then Bad e else k.

(** ** Little-endian reads *)

Definition byte_at (buf : list Z) (i : Z) : outcome Z :=
  if (0 <=? i) && (i <? Z.of_nat (length buf))
  then match buf !! Z.to_nat i with Some b => Good b | None => Undefined end else Undefined.

(** [src/elf.c 66-68] rd_u16 *)
Definition rd_u16 (buf : list Z) (p : Z) : outcome Z :=
  b0 ← byte_at buf p; b1 ← byte_at buf (p + 1); mret (u16 (b0 .| (b1 << 8))).
(** [src/elf.c 59-64] rd_u32 *)
Definition rd_u32 (buf : list Z) (p : Z) : outcome Z :=
  b0 ← byte_at buf p; b1 ← byte_at buf (p + 1); b2 ← byte_at buf (p + 2); b3 ← byte_at buf (p + 3);
  mret (b0 .| (b1 << 8) .| (b2 << 16) .| (b3 << 24)).
(** [src/elf.c 70-72] rd_u64 *)
Definition rd_u64 (buf : list Z) (p : Z) : outcome Z :=
  lo ← rd_u32 buf p; hi ← rd_u32 buf (p + 4); mret (lo .| (hi << 32)).

(** ** Header *)

(** The length of the buffer, a [size_t]. *)
Definition blen (buf : list Z) : Z := Z.of_nat (length buf).

(** Is the file one the machine can run, and is it 64-bit?
    [src/elf.c 124-156] check_header *)
Definition check_header (buf : list Z) : outcome bool :=
  reject (blen buf <? 52) TooSmall (
  m0 ← byte_at buf 0; m1 ← byte_at buf 1; m2 ← byte_at buf 2; m3 ← byte_at buf 3;
  reject (negb (m0 =? 0x7f) || negb (m1 =? 0x45) || negb (m2 =? 0x4c) || negb (m3 =? 0x46)) BadMagic (
  cls ← byte_at buf 4;
  reject (negb (cls =? 1) && negb (cls =? 2)) UnknownClass (
  let is64 := cls =? 2 in
  reject (is64 && (blen buf <? 64)) TooSmall64 (
  data ← byte_at buf 5;
  reject (negb (data =? 1)) NotLittleEndian (
  type ← rd_u16 buf 16;
  reject (negb (type =? 2)) NotExecutable (
  machine ← rd_u16 buf 18;
  reject (negb (machine =? 243)) WrongMachine (
  mret is64))))))).

(** ** Program headers *)

(** [src/elf.c 160-160] ELF_MEM_MAX *)
Definition ELF_MEM_MAX : Z := 256 * 1024 * 1024.
(** [src/elf.c 165-165] GUEST_STACK_SIZE *)
Definition GUEST_STACK_SIZE : Z := 64 * 1024.

Record Phdr := mkPhdr { p_offset : Z; p_vaddr : Z; p_filesz : Z; p_memsz : Z }.

(** [src/elf.c 170-179] read_phdr *)
Definition read_phdr (buf : list Z) (p : Z) (is64 : bool) : outcome Phdr :=
  if is64 then
    o ← rd_u64 buf (p + 8); v ← rd_u64 buf (p + 16); f ← rd_u64 buf (p + 32); m ← rd_u64 buf (p + 40);
    mret (mkPhdr o v f m)
  else
    o ← rd_u32 buf (p + 4); v ← rd_u32 buf (p + 8); f ← rd_u32 buf (p + 16); m ← rd_u32 buf (p + 20);
    mret (mkPhdr o v f m).

(** Where the program-header table is: its offset, entry size, count, and the smallest
    entry size of the class.
    [src/elf.c 196-197] elf_load *)
Record PhTable := mkPhTable { phoff : Z; phentsize : Z; phnum : Z; phsize_min : Z }.
(** [src/elf.c 196-208] elf_load *)
Definition read_table (buf : list Z) (is64 : bool) : outcome PhTable :=
  if is64 then
    o ← rd_u64 buf 32; e ← rd_u16 buf 54; n ← rd_u16 buf 56; mret (mkPhTable o e n 56)
  else
    o ← rd_u32 buf 28; e ← rd_u16 buf 42; n ← rd_u16 buf 44; mret (mkPhTable o e n 32).

(** The offset of entry [i], a [size_t] computation.
    [src/elf.c 223-223] elf_load *)
Definition phdr_at (t : PhTable) (i : Z) : Z := u64 (phoff t + u64 (i * phentsize t)).

(** The running result of the first pass.
    [src/elf.c 220-221] elf_load *)
Record Span := mkSpan { s_lo : Z; s_hi : Z; s_loaded : Z }.

(** One iteration of the first pass: validate entry [i] and widen the span.
    [src/elf.c 223-252] elf_load *)
Definition measure (buf : list Z) (is64 : bool) (t : PhTable) (i : Z) (s : Span) : outcome Span :=
  let ph := phdr_at t i in
  reject (blen buf <? u64 (ph + phsize_min t)) PhdrTable (
  type ← rd_u32 buf ph;
  if negb (type =? 1) then mret s
  else
    h ← read_phdr buf ph is64;
    reject ((blen buf <? p_offset h) || (u64 (blen buf - p_offset h) <? p_filesz h)) SegmentRange (
    reject (p_memsz h <? p_filesz h) FileszMemsz (
    let end_ := u64 (p_vaddr h + p_memsz h) in
    mret (mkSpan (if p_vaddr h <? s_lo s then p_vaddr h else s_lo s)
                 (if s_hi s <? end_ then end_ else s_hi s) (s_loaded s + 1))))).

(** [src/elf.c 222-253] elf_load *)
Fixpoint measure_all (buf : list Z) (is64 : bool) (t : PhTable) (n : nat) (i : Z) (s : Span) : outcome Span :=
  match n with
  | O => mret s
  | S n => s ← measure buf is64 t i s; measure_all buf is64 t n (i + 1) s
  end.

(** The memory the image needs: its base and size.
    [src/elf.c 255-282] elf_load *)
Definition region (min_size : Z) (s : Span) : outcome (Z * Z) :=
  reject (s_loaded s =? 0) NoLoad (
  reject (0x100000000 <? s_hi s) Beyond4G (
  let image := u64 (s_hi s - s_lo s) in
  reject ((image =? 0) || (ELF_MEM_MAX <? image)) ImageSize (
  let span := u64 (image + GUEST_STACK_SIZE) in
  let span := if span <? min_size then min_size else span in
  reject ((ELF_MEM_MAX <? span) || (0x100000000 <? u64 (s_lo s + span))) NoFit (
  mret (s_lo s, span))))).

(** Everything [elf_load] learns from the file before it touches memory. *)
Record Plan := mkPlan { pl_is64 : bool; pl_table : PhTable; pl_base : Z; pl_size : Z }.
(** [src/elf.c 189-282] elf_load *)
Definition elf_plan (buf : list Z) (min_size : Z) : outcome Plan :=
  is64 ← check_header buf;
  t ← read_table buf is64;
  reject (phentsize t <? phsize_min t) PhdrSize (
  s ← measure_all buf is64 t (Z.to_nat (phnum t)) 0 (mkSpan (2 ^ 64 - 1) 0 0);
  r ← region min_size s;
  mret (mkPlan is64 t r.1 r.2)).

(** ** Loading *)

(** The bytes [buf[o .. o + n)], the source of the copy. *)
Definition slice (buf : list Z) (o n : Z) : outcome (list Z) :=
  if (0 <=? o) && (0 <=? n) && (o + n <=? blen buf)
  then Good (take (Z.to_nat n) (drop (Z.to_nat o) buf)) else Undefined.

(** [mem_free] releases the storage and empties the region.
    [src/memory.c 37-41] mem_free *)
Definition mem_free (b : Bus) : Bus := set_b_size 0 (set_b_data ∅ b).

(** One iteration of the second pass: copy entry [i] if it is loadable.
    [src/elf.c 294-306] elf_load *)
Definition load_segment (buf : list Z) (is64 : bool) (t : PhTable) (i : Z) : st Bus (outcome unit) :=
  let p := phdr_at t i in
  match rd_u32 buf p with
  | Good type =>
    if negb (type =? 1) then mret (Good tt)
    else
      match read_phdr buf p is64 with
      | Good h =>
        if p_filesz h =? 0 then mret (Good tt)
        else
          match slice buf (p_offset h) (p_filesz h) with
          | Good src =>
            rc ← mem_load (p_vaddr h) src;
            if negb (rc =? 0) then modify mem_free ;; mret (Bad SegmentFit) else mret (Good tt)
          | Bad e => mret (Bad e)
          | Undefined => mret Undefined
          end
      | Bad e => mret (Bad e)
      | Undefined => mret Undefined
      end
  | Bad e => mret (Bad e)
  | Undefined => mret Undefined
  end.

(** [src/elf.c 293-307] elf_load *)
Fixpoint load_all (buf : list Z) (is64 : bool) (t : PhTable) (n : nat) (i : Z) : st Bus (outcome unit) :=
  match n with
  | O => mret (Good tt)
  | S n =>
    r ← load_segment buf is64 t i;
    match r with Good _ => load_all buf is64 t n (i + 1) | Bad e => mret (Bad e) | Undefined => mret Undefined end
  end.

(** [file] is what [read_file] gives, [alloc] whether [calloc] succeeds; the result is the
    entry point and the register width.
    [src/elf.c 181-325] elf_load *)
Definition elf_load (file : option (list Z)) (alloc : bool) (min_size : Z) : st Bus (outcome (Z * Z)) :=
  match file with
  | None => mret (Bad CannotOpen)
  | Some buf =>
    match elf_plan buf min_size with
    | Bad e => mret (Bad e)
    | Undefined => mret Undefined
    | Good pl =>
      if negb alloc then mret (Bad NoMemory)
      else
        modify (fun b => mem_init (pl_base pl) (pl_size pl) (b_plat b) (b_host b)) ;;
        r ← load_all buf (pl_is64 pl) (pl_table pl) (Z.to_nat (phnum (pl_table pl))) 0;
        match r with
        | Bad e => mret (Bad e)
        | Undefined => mret Undefined
        | Good _ =>
          match (if pl_is64 pl then rd_u64 buf 24 else rd_u32 buf 24) with
          | Bad e => mret (Bad e)
          | Undefined => mret Undefined
          | Good entry =>
            b ← gets id;
            if (entry <? b_base b) || (u64 (b_base b + b_size b) <=? entry)
            then modify mem_free ;; mret (Bad EntryOutside)
            else mret (Good (entry, if pl_is64 pl then 64 else 32))
          end
        end
    end
  end.

(** ** Symbols *)

(** A NUL-terminated string at [p] within [avail] bytes, without its terminator; [None]
    when it is not terminated.
    [src/elf.c 412-419] elf_symbol *)
Fixpoint cstring (buf : list Z) (p : Z) (avail : nat) : outcome (option (list Z)) :=
  match avail with
  | O => mret None
  | S avail =>
    c ← byte_at buf p;
    if c =? 0 then mret (Some [])
    else s ← cstring buf (p + 1) avail; mret (option_map (cons c) s)
  end.

(** The scan of one symbol table; [None] when the name is not in it.  A loop
    still running after [fuel] entries is [Undefined] too.
    [src/elf.c 403-425] elf_symbol *)
Fixpoint scan_symbols (buf name : list Z) (sym_off sym_size str_off str_size entsize : Z) (fuel : nat) (off : Z) :
    outcome (option Z) :=
  match fuel with
  | O => Undefined
  | S fuel =>
    if sym_size <? u32 (off + 16) then mret None
    else
      let e := sym_off + off in
      let next := scan_symbols buf name sym_off sym_size str_off str_size entsize fuel (u32 (off + entsize)) in
      st_name ← rd_u32 buf e;
      if str_size <=? st_name then next
      else
        s ← cstring buf (str_off + st_name) (Z.to_nat (str_size - st_name));
        match s with
        | None => next
        | Some s => if bool_decide (s = name) then v ← rd_u32 buf (e + 4); mret (Some v) else next
        end
  end.

(** One section: [Good None] goes on to the next one, [Bad] gives up.
    [src/elf.c 372-425] elf_symbol *)
Definition symbol_section (buf name : list Z) (shoff shentsize shnum i : Z) : outcome (option Z) :=
  let sh := shoff + i * shentsize in
  reject (blen buf <? sh + 40) NoSymbol (
  type ← rd_u32 buf (sh + 4);
  if negb (type =? 2) then mret None
  else
    sym_off ← rd_u32 buf (sh + 16);
    sym_size ← rd_u32 buf (sh + 20);
    link ← rd_u32 buf (sh + 24);
    entsize ← rd_u32 buf (sh + 36);
    reject ((entsize <? 16) || (shnum <=? link)) NoSymbol (
    reject (blen buf <? sym_off + sym_size) NoSymbol (
    let lsh := shoff + link * shentsize in
    reject (blen buf <? lsh + 40) NoSymbol (
    str_off ← rd_u32 buf (lsh + 16);
    str_size ← rd_u32 buf (lsh + 20);
    reject (blen buf <? str_off + str_size) NoSymbol (
    scan_symbols buf name sym_off sym_size str_off str_size entsize (S (Z.to_nat sym_size)) 0))))).

(** [src/elf.c 371-426] elf_symbol *)
Fixpoint symbol_sections (buf name : list Z) (shoff shentsize shnum : Z) (n : nat) (i : Z) : outcome (option Z) :=
  match n with
  | O => mret None
  | S n =>
    r ← symbol_section buf name shoff shentsize shnum i;
    match r with Some v => mret (Some v) | None => symbol_sections buf name shoff shentsize shnum n (i + 1) end
  end.

(** The address of [name], or [None] when it is not found.
    [src/elf.c 349-431] elf_symbol *)
Definition elf_symbol (file : option (list Z)) (name : list Z) : outcome (option Z) :=
  match file with
  | None => Bad CannotOpen
  | Some buf =>
    is64 ← check_header buf;
    if (is64 : bool) then Bad NoSymbol
    else
      shoff ← rd_u32 buf 32;
      shentsize ← rd_u16 buf 46;
      shnum ← rd_u16 buf 48;
      if (shoff =? 0) || (shnum =? 0) || (shentsize <? 40) then mret None
      else symbol_sections buf name shoff shentsize shnum (Z.to_nat shnum) 0
  end.
