(* ===== verification/ElfThms.v ===== *)
(** * Theorems on the ELF loader

    What a successful load leaves in memory, and where the bounds checks of the loader do
    and do not protect it from reading outside the file. *)

From S2P Require Import Prelude Device DeviceInv Memory Elf.

(** ** Outcomes *)

Lemma bind_good {A B} (m : outcome A) (k : A -> outcome B) b : (m ≫= k) = Good b -> exists a, m = Good a /\ k a = Good b.
Proof. destruct m; cbn; [eauto|done..]. Qed.
Lemma reject_good {A} b e (k : outcome A) a : reject b e k = Good a -> b = false /\ k = Good a.
Proof. by destruct b. Qed.

(** Take a successful computation apart. *)
Ltac good H :=
  repeat match type of H with
  | (_ ≫= _) = Good _ => let x := fresh "v" in let E := fresh "E" in apply bind_good in H as (x & E & H)
  | reject _ _ _ = Good _ => let E := fresh "E" in apply reject_good in H as [E H]
  end.

(** [defined m]: no read outside the file. *)
Definition defined {A} (m : outcome A) : Prop := m <> Undefined.

Lemma defined_bind {A B} (m : outcome A) (k : A -> outcome B) :
  defined m -> (forall a, m = Good a -> defined (k a)) -> defined (m ≫= k).
Proof. unfold defined. destruct m; cbn; [|done..]. intros _ H. by apply H. Qed.
Lemma defined_reject {A} b e (k : outcome A) : (b = false -> defined k) -> defined (reject b e k).
Proof. destruct b; cbn; [done|]. auto. Qed.
Lemma defined_ret {A} (a : A) : defined (mret a).
Proof. done. Qed.

(** ** Reads *)

Section Reads.
Context (buf : list Z).
Hypothesis (Hbuf : bytes buf).

Lemma byte_at_good i : 0 <= i < blen buf -> exists b, byte_at buf i = Good b /\ rng 8 b.
Proof.
intros Hi. unfold byte_at, blen in *. rewrite (proj2 (Z.leb_le 0 i)), (proj2 (Z.ltb_lt _ _)) by lia. cbn [andb].
destruct (lookup_lt_is_Some_2 buf (Z.to_nat i)) as [b E]; [lia|]. rewrite E. exists b. split; [done|].
unfold bytes in Hbuf. rewrite list.Forall_forall in Hbuf. apply Hbuf. by apply list_elem_of_lookup_2 in E.
Qed.
Lemma byte_at_rng i b : byte_at buf i = Good b -> 0 <= i < blen buf /\ rng 8 b.
Proof.
intros E. destruct (decide (0 <= i < blen buf)) as [Hi|Hi].
- destruct (byte_at_good i Hi) as (b' & E' & Hb). split; [done|]. congruence.
- unfold byte_at, blen in *. destruct (Z.leb_spec 0 i), (Z.ltb_spec i (Z.of_nat (length buf))); done || lia.
Qed.
Lemma rd_u16_good p : 0 <= p -> p + 2 <= blen buf -> exists v, rd_u16 buf p = Good v /\ rng 16 v.
Proof.
intros H0 Hp. unfold rd_u16. destruct (byte_at_good p) as (b0 & -> & H); [lia|].
destruct (byte_at_good (p + 1)) as (b1 & -> & H1); [lia|]. cbn. eexists. split; [done|]. apply u16_rng.
Qed.
Lemma shiftl_rng w n v : 0 <= n -> 0 <= w -> rng w v -> rng (w + n) (v << n).
Proof. intros. unfold rng in *. rewrite Z.shiftl_mul_pow2, Z.pow_add_r by lia. nia. Qed.
Lemma rd_u32_good p : 0 <= p -> p + 4 <= blen buf -> exists v, rd_u32 buf p = Good v /\ rng 32 v.
Proof.
intros H0 Hp. unfold rd_u32. destruct (byte_at_good p) as (b0 & -> & ?); [lia|].
destruct (byte_at_good (p + 1)) as (b1 & -> & ?); [lia|]. destruct (byte_at_good (p + 2)) as (b2 & -> & ?); [lia|].
destruct (byte_at_good (p + 3)) as (b3 & -> & ?); [lia|]. cbn. eexists. split; [done|].
repeat apply lor_rng; try lia; (apply (rng_mono 8); [lia|done]) || (eapply rng_mono; [|by apply (shiftl_rng 8)]; lia).
Qed.
Lemma rd_u64_good p : 0 <= p -> p + 8 <= blen buf -> exists v, rd_u64 buf p = Good v /\ rng 64 v.
Proof.
intros H0 Hp. unfold rd_u64. destruct (rd_u32_good p) as (lo & -> & ?); [lia..|].
destruct (rd_u32_good (p + 4)) as (hi & -> & ?); [lia..|]. cbn. eexists. split; [done|].
apply lor_rng; [lia|apply (rng_mono 32); [lia|done]|]. by apply (shiftl_rng 32 32).
Qed.
Lemma rd_u32_rng p v : rd_u32 buf p = Good v -> rng 32 v /\ 0 <= p /\ p + 4 <= blen buf.
Proof.
intros E. assert (0 <= p /\ p + 4 <= blen buf) as [H0 H4].
{ unfold rd_u32 in E. good E. repeat match goal with H : byte_at _ _ = _ |- _ => apply byte_at_rng in H end. lia. }
destruct (rd_u32_good p H0 H4) as (v' & E' & ?). split; [congruence|done].
Qed.
Lemma rd_u16_rng p v : rd_u16 buf p = Good v -> rng 16 v.
Proof. unfold rd_u16. intros E. good E. injection E as <-. apply u16_rng. Qed.
Lemma rd_u64_rng p v : rd_u64 buf p = Good v -> rng 64 v.
Proof.
unfold rd_u64. intros E. good E. injection E as <-. apply rd_u32_rng in E0 as [? _], E1 as [? _].
apply lor_rng; [lia|apply (rng_mono 32); [lia|done]|]. by apply (shiftl_rng 32 32).
Qed.

Definition phdr_ok (h : Phdr) : Prop :=
rng 64 (p_offset h) /\ rng 64 (p_vaddr h) /\ rng 64 (p_filesz h) /\ rng 64 (p_memsz h).
Lemma read_phdr_ok p is64 h : read_phdr buf p is64 = Good h -> phdr_ok h.
Proof.
unfold read_phdr. intros E. destruct is64; good E; injection E as <-; unfold phdr_ok; cbn;
  repeat match goal with
  | H : rd_u64 _ _ = _ |- _ => apply rd_u64_rng in H
  | H : rd_u32 _ _ = _ |- _ => apply rd_u32_rng in H as [H _]; apply (rng_mono 32 64) in H; [|lia]
  end; done.
Qed.
Lemma read_phdr_good p (is64 : bool) : 0 <= p -> p + (if is64 then 56 else 32) <= blen buf ->
exists h, read_phdr buf p is64 = Good h.
Proof.
intros H0 Hp. unfold read_phdr. destruct is64.
- destruct (rd_u64_good (p + 8)) as (? & -> & _); [lia..|]. destruct (rd_u64_good (p + 16)) as (? & -> & _); [lia..|].
  destruct (rd_u64_good (p + 32)) as (? & -> & _); [lia..|]. destruct (rd_u64_good (p + 40)) as (? & -> & _); [lia..|].
  by eexists.
- destruct (rd_u32_good (p + 4)) as (? & -> & _); [lia..|]. destruct (rd_u32_good (p + 8)) as (? & -> & _); [lia..|].
  destruct (rd_u32_good (p + 16)) as (? & -> & _); [lia..|]. destruct (rd_u32_good (p + 20)) as (? & -> & _); [lia..|].
  by eexists.
Qed.
End Reads.

(** ** The loadable segments of a file *)

Definition segment (buf : list Z) (is64 : bool) (t : PhTable) (i : Z) : option Phdr :=
  match rd_u32 buf (phdr_at t i) with
  | Good 1 => match read_phdr buf (phdr_at t i) is64 with Good h => Some h | _ => None end
  | _ => None
  end.
Definition segments (buf : list Z) (is64 : bool) (t : PhTable) (n : nat) (i : Z) : list Phdr :=
  omap (segment buf is64 t) (zseq i n).
(** The bytes of a segment, and the image they make at [base]. *)
Definition file_bytes (buf : list Z) (h : Phdr) : list Z := take (Z.to_nat (p_filesz h)) (drop (Z.to_nat (p_offset h)) buf).
Definition image (buf : list Z) (base : Z) (hs : list Phdr) (a : arr) : arr :=
  foldl (fun a h => put_bytes (p_vaddr h - base) (file_bytes buf h) a) a hs.

Section Load.
Context (buf : list Z) (is64 : bool) (t : PhTable).
Hypothesis (Hbuf : bytes buf) (Hlen : rng 64 (blen buf)).

(** What the first pass checks of a segment, [lo] and [hi] being the span so far. *)
Record measured (lo hi : Z) (h : Phdr) : Prop := {
m_ok : phdr_ok h;
m_file : p_offset h + p_filesz h <= blen buf;
m_size : p_filesz h <= p_memsz h;
m_lo : lo <= p_vaddr h;
m_hi : u64 (p_vaddr h + p_memsz h) <= hi
}.
Lemma measured_widen lo hi lo' hi' h : lo' <= lo -> hi <= hi' -> measured lo hi h -> measured lo' hi' h.
Proof. intros ? ? []. constructor; done || lia. Qed.

Lemma measure_spec i s s' : measure buf is64 t i s = Good s' ->
match segment buf is64 t i with
| None => s' = s
| Some h => measured (s_lo s') (s_hi s') h /\ s_lo s' = Z.min (s_lo s) (p_vaddr h) /\ s_hi s <= s_hi s'
            /\ s_loaded s' = s_loaded s + 1
end.
Proof.
unfold measure, segment. intros E. good E. rewrite E1.
destruct (Z.eqb_spec v 1) as [->|Hv]; cbn [negb] in E.
2: { injection E as <-. destruct v as [|[]|]; done || lia. }
good E. rewrite E2. injection E as <-. cbn [s_lo s_hi s_loaded].
apply orb_false_iff in E3 as [H1 H2]. apply Z.ltb_ge in H1, H2, E4.
pose proof (read_phdr_ok buf Hbuf _ _ _ E2) as Hh. destruct Hh as (Ho & Hv & Hf & Hm) eqn:HE. unfold rng in *.
unfold u64 in H2. rewrite wrap_small in H2 by (unfold rng; lia).
split_and!; [|zcase..|done]. constructor; [done|lia|lia|zcase..].
Qed.

Lemma measure_all_spec n : forall i s s', measure_all buf is64 t n i s = Good s' ->
s_lo s' <= s_lo s /\ s_hi s <= s_hi s' /\ s_loaded s' = s_loaded s + Z.of_nat (length (segments buf is64 t n i))
/\ Forall (measured (s_lo s') (s_hi s')) (segments buf is64 t n i)
/\ (s_lo s' = s_lo s \/ exists h, h ∈ segments buf is64 t n i /\ s_lo s' = p_vaddr h).
Proof.
induction n as [|n IH]; intros i s s' E.
{ injection E as <-. cbn. split_and!; [lia..|constructor|by left]. }
cbn [measure_all] in E. good E. apply measure_spec in E0. apply IH in E as (H1 & H2 & H3 & H4 & H5).
unfold segments in *. cbn [zseq omap list_omap]. destruct (segment buf is64 t i) as [h|].
- destruct E0 as (Hm & Hlo & Hhi & Hn). cbn [length]. split_and!; [lia..| |].
  + constructor; [|done]. by eapply measured_widen.
  + destruct H5 as [H5|(h' & Hh & H5)]; [|right; exists h'; split; [by right|done]].
    rewrite H5, Hlo. destruct (Z.min_spec (s_lo s) (p_vaddr h)) as [[_ ->]|[_ ->]]; [by left|].
    right. exists h. split; [by left|done].
- subst. split_and!; done.
Qed.

(** ** The second pass *)

Definition placed (base size : Z) (h : Phdr) : Prop :=
0 < p_filesz h -> base <= p_vaddr h /\ p_vaddr h + p_filesz h <= base + size.

Lemma file_bytes_length h : phdr_ok h -> p_offset h + p_filesz h <= blen buf ->
Z.of_nat (length (file_bytes buf h)) = p_filesz h.
Proof.
intros (Ho & _ & Hf & _) Hb. unfold rng, blen in *. unfold file_bytes. rewrite length_take, length_drop. lia.
Qed.

Lemma mem_load_spec addr src b rc b' : rng 64 addr -> 0 <= b_base b -> rng 64 (b_size b) ->
mem_load addr src b = (rc, b') ->
if decide (b_base b <= addr /\ addr + Z.of_nat (length src) <= b_base b + b_size b)
then rc = 0 /\ b' = upd_data (put_bytes (addr - b_base b) src) b else rc = -1.
Proof.
unfold rng. intros Ha Hb Hs. unfold mem_load, translate. st_run. unfold id.
destruct (Z.ltb_spec addr (b_base b)); cbn [orb].
{ intros [= <- <-]. destruct (decide _); [lia|done]. }
destruct (Z.ltb_spec (b_size b) (Z.of_nat (length src))); cbn [orb].
{ intros [= <- <-]. destruct (decide _); [lia|done]. }
unfold u64. rewrite !wrap_small by (unfold rng; lia).
destruct (Z.ltb_spec (b_size b - Z.of_nat (length src)) (addr - b_base b)).
{ intros [= <- <-]. destruct (decide _); [lia|done]. }
intros [= <- <-]. destruct (decide _); [done|lia].
Qed.

Lemma load_segment_spec i b r b' :
0 <= b_base b -> rng 64 (b_size b) -> (forall h, segment buf is64 t i = Some h -> exists lo hi, measured lo hi h) ->
load_segment buf is64 t i b = (Good r, b') ->
match segment buf is64 t i with
| None => b' = b
| Some h => placed (b_base b) (b_size b) h /\ b' = upd_data (image buf (b_base b) [h]) b
end.
Proof.
intros Hb Hs Hm. unfold load_segment, segment in *. destruct (rd_u32 _ _) as [v| |]; [|done..].
destruct (Z.eqb_spec v 1) as [->|Hv]; cbn [negb]; [|intros [= <- <-]; by destruct v as [|[]|]].
destruct (read_phdr _ _ _) as [h| |]; [|done..]. destruct (Hm h eq_refl) as (lo & hi & [Hok Hf Hsz _ _]).
pose proof Hok as (Ho & Hv & Hfz & _). unfold rng in *. destruct (Z.eqb_spec (p_filesz h) 0) as [E0|E0].
{ intros [= <- <-]. split; [intros ?; lia|]. unfold image, upd_data. cbn [foldl]. unfold file_bytes. rewrite E0. by destruct b. }
unfold slice. rewrite !(proj2 (Z.leb_le _ _)) by lia. cbn [andb]. rewrite bind_run. unfold run, exec.
change (take _ _) with (file_bytes buf h).
destruct (mem_load (p_vaddr h) (file_bytes buf h) b) as [rc b1] eqn:E. cbn [fst snd].
apply mem_load_spec in E; [|done..]. rewrite file_bytes_length in E by done.
destruct (decide _) as [Hd|Hd]; [destruct E as [-> ->]|by rewrite E]. cbn [Z.eqb negb].
intros [= <- <-]. split; [intros _; lia|done].
Qed.

Lemma upd_data_same b f g : upd_data f (upd_data g b) = upd_data (fun a => f (g a)) b.
Proof. by destruct b. Qed.

Lemma load_all_spec n : forall i b r b',
0 <= b_base b -> rng 64 (b_size b) ->
(forall j h, i <= j < i + Z.of_nat n -> segment buf is64 t j = Some h -> exists lo hi, measured lo hi h) ->
load_all buf is64 t n i b = (Good r, b') ->
Forall (placed (b_base b) (b_size b)) (segments buf is64 t n i)
/\ b' = upd_data (image buf (b_base b) (segments buf is64 t n i)) b.
Proof.
induction n as [|n IH]; intros i b r b' Hb Hs Hm.
{ intros [= _ <-]. split; [constructor|]. cbn. by destruct b. }
cbn [load_all]. rewrite bind_run. unfold run, exec.
destruct (load_segment buf is64 t i b) as [o b1] eqn:E1. cbn [fst snd]. destruct o as [[]| |]; [|done..].
apply load_segment_spec in E1; [|done..|intros h; apply Hm; lia]. intros E.
unfold segments in *. cbn [zseq omap list_omap]. destruct (segment buf is64 t i) as [h|].
- destruct E1 as [Hp ->]. apply IH in E as [HF ->]; [|by destruct b..|intros; eapply Hm; [|done]; lia].
  assert (b_base (upd_data (image buf (b_base b) [h]) b) = b_base b) as Hbb by (by destruct b).
  rewrite Hbb in *. split; [constructor; [done|by destruct b]|]. by rewrite upd_data_same.
- subst. by apply IH in E; [|done..|intros; eapply Hm; [|done]; lia].
Qed.
End Load.

Lemma region_spec m s base size : region m s = Good (base, size) ->
  base = s_lo s /\ s_loaded s <> 0 /\ u64 (base + size) <= 2 ^ 32 /\ s_hi s <= 2 ^ 32
  /\ 0 < u64 (s_hi s - s_lo s) <= ELF_MEM_MAX /\ m <= size <= ELF_MEM_MAX
  /\ u64 (s_hi s - s_lo s) + GUEST_STACK_SIZE <= size.
Proof.
  unfold region, ELF_MEM_MAX, GUEST_STACK_SIZE. intros E. good E.
  apply orb_false_iff in E2 as [I1 I2], E3 as [F1 F2]. apply Z.ltb_ge in E1, I2, F1, F2. apply Z.eqb_neq in I1, E0.
  pose proof (u64_rng (s_hi s - s_lo s)) as Hi. unfold rng in Hi.
  injection E as <- <-. set (im := u64 (s_hi s - s_lo s)) in *.
  assert (u64 (im + 64 * 1024) = im + 64 * 1024) as Hu by (apply wrap_small; [lia|unfold rng; lia]).
  rewrite Hu in *. split_and!; try done; try lia; zcase.
Qed.

Section Image.
Context (buf : list Z) (m : Z) (b : Bus).
Hypothesis (Hbuf : bytes buf) (Hlen : rng 64 (blen buf)) (Hm : 0 <= m).

(** The segments of a planned file. *)
Definition plan_segments (pl : Plan) : list Phdr :=
segments buf (pl_is64 pl) (pl_table pl) (Z.to_nat (phnum (pl_table pl))) 0.

Lemma plan_spec pl : elf_plan buf m = Good pl -> exists hi,
Forall (measured buf (pl_base pl) hi) (plan_segments pl)
/\ (pl_base pl = 2 ^ 64 - 1 \/ exists h, h ∈ plan_segments pl /\ pl_base pl = p_vaddr h)
/\ hi <= 2 ^ 32 /\ 0 < u64 (hi - pl_base pl) <= ELF_MEM_MAX /\ u64 (pl_base pl + pl_size pl) <= 2 ^ 32
/\ m <= pl_size pl <= ELF_MEM_MAX /\ u64 (hi - pl_base pl) + GUEST_STACK_SIZE <= pl_size pl.
Proof.
unfold elf_plan. intros E. good E. injection E as <-. destruct v2 as [base size].
apply region_spec in E4 as (-> & _ & H1 & H2 & H3 & H4 & H5). apply (measure_all_spec buf v v0 Hbuf Hlen) in E3 as (_ & _ & _ & HF & Hw).
exists (s_hi v1). unfold plan_segments. cbn [pl_base pl_size pl_is64 pl_table fst snd]. done.
Qed.

Lemma segments_measured lo hi is64 t n i :
Forall (measured buf lo hi) (segments buf is64 t n i) ->
forall j h, i <= j < i + Z.of_nat n -> segment buf is64 t j = Some h -> exists lo hi, measured buf lo hi h.
Proof.
intros HF j h Hj E. exists lo, hi. rewrite list.Forall_forall in HF. apply HF.
unfold segments. apply list_elem_of_omap. exists j. split; [by apply elem_of_zseq|done].
Qed.

(** A successful load, taken apart. *)
Lemma elf_load_good r b' : elf_load (Some buf) true m b = (Good r, b') -> exists pl,
elf_plan buf m = Good pl /\ (if pl_is64 pl then rd_u64 buf 24 else rd_u32 buf 24) = Good r.1
/\ r.2 = (if pl_is64 pl then 64 else 32)
/\ pl_base pl <= r.1 < u64 (pl_base pl + pl_size pl)
/\ Forall (placed (pl_base pl) (pl_size pl)) (plan_segments pl)
/\ b' = mkBus (image buf (pl_base pl) (plan_segments pl) ∅) (pl_base pl) (pl_size pl) false 0 false (b_plat b) (b_host b).
Proof.
unfold elf_load. destruct (elf_plan buf m) as [pl| |] eqn:Ep; [|done..]. cbn [negb]. st_run.
set (b0 := mem_init _ _ _ _). rewrite bind_run. unfold run, exec.
destruct (load_all _ _ _ _ _ b0) as [o b1] eqn:El. cbn [fst snd]. destruct o as [[]| |]; [|done..].
destruct (plan_spec pl Ep) as (hi & HF & Hw & Hhi & Him & Htop & Hsz & Hst).
unfold ELF_MEM_MAX, GUEST_STACK_SIZE in *.
apply load_all_spec in El as [Hpl ->]; [| | |].
2: { unfold b0. cbn. destruct Hw as [->|(h & Hh & ->)]; [lia|]. rewrite list.Forall_forall in HF.
     destruct (HF h Hh) as [(_ & Hv & _) _ _ _ _]. apply Hv. }
2: { unfold b0. cbn. unfold rng. pose proof (u64_rng (hi - pl_base pl)) as Hu. unfold rng in Hu. lia. }
2: { eapply segments_measured, HF. }
destruct (if pl_is64 pl then _ else _) as [entry| |] eqn:Ee; [|done..]. st_run. unfold id.
change (b_base (upd_data _ _)) with (pl_base pl). change (b_size (upd_data _ _)) with (pl_size pl).
destruct (Z.ltb_spec entry (pl_base pl)); cbn [orb]; [done|].
destruct (Z.leb_spec (u64 (pl_base pl + pl_size pl)) entry); [done|].
intros [= <- <-]. exists pl. split_and!; done.
Qed.
End Image.

(** ** Reads stay inside the file *)

Ltac def_step :=
  match goal with
  | |- defined (_ ≫= _) => apply defined_bind; [|intros ? ?]
  | |- defined (reject _ _ _) => apply defined_reject; intros ?
  | |- defined (mret _) => apply defined_ret
  | |- defined (if ?b then _ else _) => destruct b eqn:?
  end.

Section Safe.
Context (buf : list Z).
Hypothesis (Hbuf : bytes buf) (Hlen : rng 64 (blen buf)).

Lemma defined_byte i : 0 <= i < blen buf -> defined (byte_at buf i).
Proof. intros Hi. by destruct (byte_at_good buf Hbuf i Hi) as (? & -> & _). Qed.
Lemma defined_u16 i : 0 <= i -> i + 2 <= blen buf -> defined (rd_u16 buf i).
Proof. intros. by destruct (rd_u16_good buf Hbuf i) as (? & -> & _). Qed.
Lemma defined_u32 i : 0 <= i -> i + 4 <= blen buf -> defined (rd_u32 buf i).
Proof. intros. by destruct (rd_u32_good buf Hbuf i) as (? & -> & _). Qed.
Lemma defined_u64 i : 0 <= i -> i + 8 <= blen buf -> defined (rd_u64 buf i).
Proof. intros. by destruct (rd_u64_good buf Hbuf i) as (? & -> & _). Qed.
Lemma defined_phdr p (is64 : bool) : 0 <= p -> p + (if is64 then 56 else 32) <= blen buf -> defined (read_phdr buf p is64).
Proof. intros. by destruct (read_phdr_good buf Hbuf p is64) as (? & ->). Qed.

Lemma defined_header : defined (check_header buf).
Proof.
unfold check_header. def_step. match goal with H : (_ <? _) = false |- _ => apply Z.ltb_ge in H end.
repeat def_step; first [apply defined_byte; lia|apply defined_u16; lia].
Qed.
Lemma header_len is64 : check_header buf = Good is64 -> 52 <= blen buf /\ (is64 = true -> 64 <= blen buf).
Proof.
unfold check_header. intros E. good E. injection E as <-. apply Z.ltb_ge in E0. split; [done|].
intros Hc. rewrite Hc in *. cbn [andb] in *.
repeat match goal with H : (_ <? 64) = false |- _ => apply Z.ltb_ge in H end. done.
Qed.

(** The program-header table does not reach around the address space. *)
Definition no_wrap (t : PhTable) : Prop :=
0 <= phoff t < 2 ^ 63 /\ rng 16 (phentsize t) /\ rng 16 (phnum t) /\ (phsize_min t = 32 \/ phsize_min t = 56).

Lemma phdr_at_exact t i : no_wrap t -> 0 <= i < phnum t ->
phdr_at t i = phoff t + i * phentsize t /\ u64 (phdr_at t i + phsize_min t) = phdr_at t i + phsize_min t /\ 0 <= phdr_at t i.
Proof.
intros (Ho & He & Hn & Hs) Hi. unfold rng in *. assert (0 <= i * phentsize t < 2 ^ 32) by nia.
assert (u64 (i * phentsize t) = i * phentsize t) as E by (apply wrap_small; unfold rng; lia).
assert (phdr_at t i = phoff t + i * phentsize t) as E1.
{ unfold phdr_at. rewrite E. apply wrap_small; [lia|]. unfold rng. lia. }
rewrite E1. split_and!; [done|apply wrap_small; unfold rng; lia|lia].
Qed.

Section Table.
Context (t : PhTable) (is64 : bool).
Hypothesis (Ht : no_wrap t) (Hmin : phsize_min t = if is64 then 56 else 32).

Lemma defined_measure_all n : forall i s, 0 <= i -> i + Z.of_nat n <= phnum t -> defined (measure_all buf is64 t n i s).
Proof.
induction n as [|n IH]; intros i s Hi Hn; [done|]. cbn [measure_all].
destruct (phdr_at_exact t i Ht ltac:(lia)) as (_ & E & H0).
apply defined_bind; [|intros; apply IH; lia]. unfold measure. apply defined_reject. intros Hb%Z.ltb_ge. rewrite E in Hb.
assert (32 <= phsize_min t) by (destruct is64; lia).
def_step; [apply defined_u32; lia|]. def_step; [done|]. def_step; [apply defined_phdr; rewrite <- ?Hmin; lia|].
repeat def_step.
Qed.
Lemma measure_all_table n : forall i s s', 0 <= i -> i + Z.of_nat n <= phnum t -> measure_all buf is64 t n i s = Good s' ->
forall j, i <= j < i + Z.of_nat n -> 0 <= phdr_at t j /\ phdr_at t j + phsize_min t <= blen buf.
Proof.
induction n as [|n IH]; intros i s s' Hi Hn E j Hj; [lia|]. cbn [measure_all] in E. good E.
destruct (decide (i = j)) as [<-|]; [|by apply (IH (i + 1) v s'); [lia..|done|lia]].
destruct (phdr_at_exact t i Ht ltac:(lia)) as (_ & Ex & H0). unfold measure in E0. good E0.
apply Z.ltb_ge in E1. rewrite Ex in E1. done.
Qed.
Lemma defined_load_all n lo hi : forall i b, Forall (measured buf lo hi) (segments buf is64 t n i) ->
(forall j, i <= j < i + Z.of_nat n -> 0 <= phdr_at t j /\ phdr_at t j + phsize_min t <= blen buf) ->
defined (run (load_all buf is64 t n i) b).
Proof.
induction n as [|n IH]; intros i b HF Ht'; [done|]. cbn [load_all]. rewrite run_bind.
destruct (Ht' i ltac:(lia)) as [H0 Hb]. assert (32 <= phsize_min t) by (destruct is64; lia).
assert (Forall (measured buf lo hi) (segments buf is64 t n (i + 1))) as HF'.
{ unfold segments in *. cbn [zseq omap list_omap] in HF. destruct (segment buf is64 t i); [by inversion HF|done]. }
assert (defined (run (load_segment buf is64 t i) b)) as Hd.
{ unfold load_segment. destruct (rd_u32_good buf Hbuf (phdr_at t i)) as (v & Ev & _); [lia..|]. rewrite Ev.
destruct (v =? 1) eqn:Hv; cbn [negb]; [|done]. apply Z.eqb_eq in Hv. subst v.
destruct (read_phdr_good buf Hbuf (phdr_at t i) is64) as (h & Eh); [lia|rewrite <- Hmin; lia|]. rewrite Eh.
destruct (_ =? 0); [done|]. unfold segments in HF. cbn [zseq omap list_omap] in HF.
assert (segment buf is64 t i = Some h) as Es by (unfold segment; by rewrite Ev, Eh). rewrite Es in HF.
inversion HF as [|?? [(Ho & _ & Hf & _) Hfile _ _ _] _]; subst. unfold rng in *. unfold slice.
rewrite !(proj2 (Z.leb_le _ _)) by lia. cbn [andb]. rewrite run_bind. by destruct (negb _). }
destruct (run (load_segment buf is64 t i) b) as [[]| |]; [|done..]. apply IH; [done|]. intros j Hj. apply Ht'. lia.
Qed.
End Table.
End Safe.

Section Plan.
Context (buf : list Z) (m : Z).
Hypothesis (Hbuf : bytes buf) (Hlen : rng 64 (blen buf)).
Hypothesis (Hoff : forall t, check_header buf = Good true -> read_table buf true = Good t -> phoff t < 2 ^ 63).

Lemma table_ok is64 t : check_header buf = Good is64 -> read_table buf is64 = Good t ->
no_wrap t /\ phsize_min t = if is64 then 56 else 32.
Proof.
intros Eh Et. assert (is64 = true -> phoff t < 2 ^ 63) as Ho by (intros ->; by apply Hoff).
unfold read_table in Et. destruct is64; good Et; injection Et as <-; unfold no_wrap; cbn in *;
  repeat match goal with H : rd_u16 _ _ = _ |- _ => apply rd_u16_rng in H end.
- apply (rd_u64_rng buf Hbuf) in E. unfold rng in E. split_and!; try done; try lia; (by apply Ho) || by right.
- apply (rd_u32_rng buf Hbuf) in E as [E _]. unfold rng in E. split_and!; done || lia || by left.
Qed.

Lemma defined_plan : defined (elf_plan buf m).
Proof.
unfold elf_plan. def_step; [by apply defined_header|]. destruct (header_len buf a) as [H52 H64]; [done|].
def_step.
{ unfold read_table. destruct a; [specialize (H64 eq_refl)|]; repeat def_step;
    first [apply defined_u64|apply defined_u32|apply defined_u16]; done || lia. }
destruct (table_ok a a0) as [Hw Hmin]; [done..|]. assert (rng 16 (phnum a0)) as Hn by apply Hw. unfold rng in Hn.
def_step. def_step; [apply defined_measure_all; done || lia|]. def_step; [|done].
unfold region. repeat def_step.
Qed.

Lemma plan_table pl : elf_plan buf m = Good pl ->
check_header buf = Good (pl_is64 pl) /\ read_table buf (pl_is64 pl) = Good (pl_table pl)
/\ exists s, measure_all buf (pl_is64 pl) (pl_table pl) (Z.to_nat (phnum (pl_table pl))) 0 (mkSpan (2 ^ 64 - 1) 0 0) = Good s.
Proof. unfold elf_plan. intros E. good E. injection E as <-. cbn. eauto. Qed.
End Plan.

(** ** Symbol lookup *)

Section Symbols.
Context (buf name : list Z).
Hypothesis (Hbuf : bytes buf) (Hlen : blen buf < 2 ^ 31).

Lemma defined_cstring n : forall p, 0 <= p -> p + Z.of_nat n <= blen buf -> defined (cstring buf p n).
Proof.
induction n as [|n IH]; intros p Hp Hn; [done|]. cbn [cstring]. def_step; [by apply defined_byte; [done|lia]|].
def_step; [done|]. def_step; [apply IH; lia|done].
Qed.
End Symbols.

(** *** What a symbol table says

    The fields of the file format, independently of the code's readers: [field buf p n v]
    is the little-endian number [v] in the [n] bytes at [p], [text_at buf p s] the
    NUL-terminated string [s] at [p]. *)
Fixpoint field (buf : list Z) (p : Z) (n : nat) (v : Z) : Prop :=
  match n with
  | O => v = 0
  | S n => exists b r, 0 <= p /\ buf !! Z.to_nat p = Some b /\ field buf (p + 1) n r /\ v = b + 256 * r
  end.
Fixpoint text_at (buf : list Z) (p : Z) (s : list Z) : Prop :=
  match s with
  | [] => 0 <= p /\ buf !! Z.to_nat p = Some 0
  | c :: s => c <> 0 /\ 0 <= p /\ buf !! Z.to_nat p = Some c /\ text_at buf (p + 1) s
  end.

(** A symbol table: where its entries are, their size, and the string table of the section
    it is linked to. *)
Record SymTab := mkSymTab { t_off : Z; t_size : Z; t_entsize : Z; t_strings : Z; t_strsize : Z }.

(** Section [i] of an ELF32 file is the symbol table [t]: its header (type 2) gives the
    entries, and the header of the section it links to gives the strings. *)
Definition symtab_at (buf : list Z) (i : Z) (t : SymTab) : Prop :=
  exists shoff shentsize shnum link,
    field buf 32 4 shoff /\ field buf 46 2 shentsize /\ field buf 48 2 shnum
    /\ shoff <> 0 /\ 40 <= shentsize /\ 0 <= i < shnum /\ link < shnum
    /\ let sh := shoff + i * shentsize in
       let lsh := shoff + link * shentsize in
       field buf (sh + 4) 4 2 /\ field buf (sh + 16) 4 (t_off t) /\ field buf (sh + 20) 4 (t_size t)
       /\ field buf (sh + 24) 4 link /\ field buf (sh + 36) 4 (t_entsize t)
       /\ field buf (lsh + 16) 4 (t_strings t) /\ field buf (lsh + 20) 4 (t_strsize t).

(** Entry [k] of the table is named [name], in the table's strings, and has value [v]. *)
Definition entry_at (buf name : list Z) (t : SymTab) (k v : Z) : Prop :=
  0 <= k /\ k * t_entsize t + 16 <= t_size t
  /\ field buf (t_off t + k * t_entsize t + 4) 4 v
  /\ exists n, field buf (t_off t + k * t_entsize t) 4 n /\ n + Z.of_nat (length name) < t_strsize t
       /\ text_at buf (t_strings t + n) name.
Definition symbol_at (buf name : list Z) (i k v : Z) : Prop :=
  exists t, symtab_at buf i t /\ entry_at buf name t k v.

Section Lookup.
Context (buf name : list Z).
Hypothesis (Hbuf : bytes buf) (Hlen : blen buf < 2 ^ 31).

Lemma byte_at_lookup p b : byte_at buf p = Good b <-> 0 <= p /\ buf !! Z.to_nat p = Some b.
Proof.
unfold byte_at. split.
- destruct (Z.leb_spec 0 p), (Z.ltb_spec p (Z.of_nat (length buf))); cbn [andb]; try done.
  destruct (buf !! Z.to_nat p); [|done]. intros [= ->]. done.
- intros [H0 E]. pose proof (lookup_lt_Some _ _ _ E) as Hl.
  rewrite (proj2 (Z.leb_le 0 p)), (proj2 (Z.ltb_lt _ _)) by lia. cbn [andb]. by rewrite E.
Qed.

Lemma field_fun n : forall p v v', field buf p n v -> field buf p n v' -> v = v'.
Proof.
induction n as [|n IH]; cbn [field]; [congruence|]. intros p v v' (b & r & _ & Eb & Hr & ->) (b' & r' & _ & Eb' & Hr' & ->).
rewrite (IH _ _ _ Hr Hr'). congruence.
Qed.

Lemma bytes4 b0 b1 b2 b3 : rng 8 b0 -> rng 8 b1 -> rng 8 b2 ->
b0 .| (b1 << 8) .| (b2 << 16) .| (b3 << 24) = b0 + 256 * (b1 + 256 * (b2 + 256 * (b3 + 256 * 0))).
Proof.
intros H0 H1 H2. unfold rng in *.
rewrite (lor_shiftl_add 8 b0 b1), (lor_shiftl_add 16 _ b2), (lor_shiftl_add 24 _ b3) by (unfold rng; lia). lia.
Qed.

Lemma rd_u32_field p v : rd_u32 buf p = Good v <-> field buf p 4 v.
Proof.
unfold rd_u32. cbn [field]. split.
- intros E. good E. injection E as <-.
  pose proof (byte_at_rng buf Hbuf _ _ E0) as [_ R0]. pose proof (byte_at_rng buf Hbuf _ _ E1) as [_ R1].
  pose proof (byte_at_rng buf Hbuf _ _ E2) as [_ R2]. rewrite bytes4 by done.
  apply byte_at_lookup in E0, E1, E2, E3. replace (p + 1 + 1) with (p + 2) by lia. replace (p + 2 + 1) with (p + 3) by lia.
  naive_solver.
- intros (b0 & ? & H0 & E0 & (b1 & ? & H1 & E1 & (b2 & ? & H2 & E2 & (b3 & ? & H3 & E3 & -> & ->) & ->) & ->) & ->).
  replace (p + 1 + 1) with (p + 2) in * by lia. replace (p + 2 + 1) with (p + 3) in * by lia.
  assert (byte_at buf p = Good b0) as B0 by by apply byte_at_lookup.
  assert (byte_at buf (p + 1) = Good b1) as B1 by by apply byte_at_lookup.
  assert (byte_at buf (p + 2) = Good b2) as B2 by by apply byte_at_lookup.
  assert (byte_at buf (p + 3) = Good b3) as B3 by by apply byte_at_lookup.
  rewrite B0, B1, B2, B3. cbn [mbind outcome_bind mret outcome_ret]. f_equal.
  apply bytes4; by eapply (byte_at_rng buf Hbuf).
Qed.

Lemma rd_u16_field p v : rd_u16 buf p = Good v <-> field buf p 2 v.
Proof.
assert (forall b0 b1, rng 8 b0 -> rng 8 b1 -> u16 (b0 .| (b1 << 8)) = b0 + 256 * (b1 + 256 * 0)) as E16.
{ intros b0 b1 H0 H1. rewrite (lor_shiftl_add 8) by (done || lia). unfold rng in *.
  unfold u16. rewrite wrap_small by (unfold rng; lia). lia. }
unfold rd_u16. cbn [field]. split.
- intros E. good E. injection E as <-.
  pose proof (byte_at_rng buf Hbuf _ _ E0) as [_ R0]. pose proof (byte_at_rng buf Hbuf _ _ E1) as [_ R1].
  rewrite E16 by done. apply byte_at_lookup in E0, E1. naive_solver.
- intros (b0 & ? & H0 & E0 & (b1 & ? & H1 & E1 & -> & ->) & ->).
  assert (byte_at buf p = Good b0) as B0 by by apply byte_at_lookup.
  assert (byte_at buf (p + 1) = Good b1) as B1 by by apply byte_at_lookup.
  rewrite B0, B1. cbn [mbind outcome_bind mret outcome_ret]. f_equal.
  apply E16; by eapply (byte_at_rng buf Hbuf).
Qed.

Lemma cstring_text n : forall p s, cstring buf p n = Good (Some s) <-> text_at buf p s /\ (length s < n)%nat.
Proof.
induction n as [|n IH]; intros p s; cbn [cstring]; [split; [done|lia]|]. split.
- intros E. good E. apply byte_at_lookup in E0 as [H0 E0]. destruct (Z.eqb_spec v 0) as [->|Hv].
  + injection E as <-. cbn. split; [done|lia].
  + good E. destruct v0 as [s'|]; [|done]. injection E as <-. apply IH in E1 as [Ht Hn]. cbn. split; [done|lia].
- intros [Ht Hn]. destruct s as [|c s]; cbn [text_at length] in Ht, Hn.
  + by rewrite (proj2 (byte_at_lookup p 0) Ht).
  + destruct Ht as (Hc & H0 & E0 & Ht). rewrite (proj2 (byte_at_lookup p c)) by done.
    cbn [mbind outcome_bind]. rewrite (proj2 (Z.eqb_neq c 0)) by done.
    rewrite (proj2 (IH (p + 1) s)) by (split; [done|lia]). done.
Qed.

(** A scan's answer: the first index from [k] on where [P] gives a value, or that there is
  none.  An undefined result is no answer. *)
Definition answers (P : Z -> Z -> Prop) (k : Z) (r : outcome (option Z)) : Prop :=
match r with
| Good (Some v) => exists k1, k <= k1 /\ P k1 v /\ forall k' v', k <= k' < k1 -> ~ P k' v'
| Good None => forall k' v', k <= k' -> ~ P k' v'
| Bad _ => True
| Undefined => False
end.

Lemma answers_next (P : Z -> Z -> Prop) k r : (forall v, ~ P k v) -> answers P (k + 1) r -> answers P k r.
Proof.
intros Hk. destruct r as [[v|]|e|]; cbn; [|..|done|done].
- intros (k1 & H1 & HP & Hb). exists k1. split_and!; [lia|done|]. intros k' v' Hk'.
  destruct (decide (k' = k)) as [->|]; [apply Hk|]. apply Hb. lia.
- intros Hn k' v' Hk'. destruct (decide (k' = k)) as [->|]; [apply Hk|]. apply Hn. lia.
Qed.

Lemma answers_here (P : Z -> Z -> Prop) k v : P k v -> answers P k (Good (Some v)).
Proof. intros H. exists k. split_and!; [lia|done|]. lia. Qed.

Section Table.
Context (t : SymTab).
Hypothesis (Hsym : 0 <= t_off t /\ t_off t + t_size t <= blen buf)
       (Hstr : 0 <= t_strings t /\ t_strings t + t_strsize t <= blen buf)
       (Hent : 16 <= t_entsize t < 2 ^ 32 - 16).

(** The scan of a table ends, stays inside it, and answers with its first entry of the name. *)
Lemma scan_answers fuel : forall k,
0 <= k -> k * t_entsize t < 2 ^ 32 - 16 ->
k = 0 \/ t_entsize t + 16 <= t_size t \/ t_size t < k * t_entsize t + 16 ->
t_size t - k * t_entsize t < 16 * Z.of_nat fuel -> (0 < fuel)%nat ->
answers (entry_at buf name t) k
(scan_symbols buf name (t_off t) (t_size t) (t_strings t) (t_strsize t) (t_entsize t) fuel (k * t_entsize t)).
Proof.
induction fuel as [|fuel IH]; intros k H0 H1 H2 H3 H4; [lia|]. cbn [scan_symbols].
assert (0 <= k * t_entsize t) by nia.
assert (u32 (k * t_entsize t + 16) = k * t_entsize t + 16) as -> by (apply wrap_small; unfold rng; lia).
destruct (Z.ltb_spec (t_size t) (k * t_entsize t + 16)).
{ cbn. intros k' v' Hk' (_ & Hin & _). nia. }
assert (u32 (k * t_entsize t + t_entsize t) = (k + 1) * t_entsize t) as ->.
{ unfold u32. rewrite wrap_small by (unfold rng; nia). lia. }
assert (answers (entry_at buf name t) (k + 1)
(scan_symbols buf name (t_off t) (t_size t) (t_strings t) (t_strsize t) (t_entsize t) fuel ((k + 1) * t_entsize t))) as Hn.
{ apply IH; nia. }
destruct (rd_u32_good buf Hbuf (t_off t + k * t_entsize t)) as (n & En & Rn); [lia..|].
destruct (rd_u32_good buf Hbuf (t_off t + k * t_entsize t + 4)) as (v & Ev & _); [lia..|].
rewrite En, Ev. cbn [mbind outcome_bind]. apply rd_u32_field in En, Ev. unfold rng in Rn.
destruct (Z.leb_spec (t_strsize t) n).
{ apply answers_next; [|done]. intros v' (_ & _ & _ & n' & En' & Hl & _). rewrite (field_fun _ _ _ _ En En') in *. lia. }
pose proof (defined_cstring buf Hbuf (Z.to_nat (t_strsize t - n)) (t_strings t + n)) as Hd.
destruct (cstring buf (t_strings t + n) (Z.to_nat (t_strsize t - n))) as [o|e|] eqn:Es; cbn [mbind outcome_bind];
[|done|exfalso; apply Hd; [lia..|done]].
assert (o <> Some name -> forall v', ~ entry_at buf name t k v') as Hno.
{ intros Hne v' (_ & _ & _ & n' & En' & Hl & Ht). rewrite <- (field_fun _ _ _ _ En En') in *.
apply Hne. assert (cstring buf (t_strings t + n) (Z.to_nat (t_strsize t - n)) = Good (Some name)) as E'
  by (apply cstring_text; split; [done|lia]). congruence. }
destruct o as [s|]; [|by apply answers_next; [apply Hno|]].
destruct (bool_decide_reflect (s = name)) as [->|Hne]; [|apply answers_next; [apply Hno; congruence|done]].
apply answers_here. apply cstring_text in Es as [Ht Hl]. split_and!; [done..|]. exists n. split_and!; [done|lia|done].
Qed.
End Table.

Section Sections.
Context (shoff shentsize shnum : Z).
Hypothesis (Ho : field buf 32 4 shoff) (Hs : field buf 46 2 shentsize) (Hn : field buf 48 2 shnum).
Hypothesis (Hpos : 0 < shoff) (H40 : 40 <= shentsize).
Hypothesis Hsizes : forall i t, symtab_at buf i t -> t_entsize t < 2 ^ 32 - 16.

(** The section table is where the header says it is, so a symbol table's fields are
functions of its index. *)
Lemma symtab_fields i t : symtab_at buf i t -> exists link,
0 <= i < shnum /\ link < shnum
/\ let sh := shoff + i * shentsize in
 let lsh := shoff + link * shentsize in
 field buf (sh + 4) 4 2 /\ field buf (sh + 16) 4 (t_off t) /\ field buf (sh + 20) 4 (t_size t)
 /\ field buf (sh + 24) 4 link /\ field buf (sh + 36) 4 (t_entsize t)
 /\ field buf (lsh + 16) 4 (t_strings t) /\ field buf (lsh + 20) 4 (t_strsize t).
Proof.
intros (o & e & n & link & Eo & Ee & En & _ & _ & Hi & Hl & H).
rewrite <- (field_fun _ _ _ _ Ho Eo), <- (field_fun _ _ _ _ Hs Ee), <- (field_fun _ _ _ _ Hn En) in *.
by exists link.
Qed.

Lemma symtab_fun i t t' : symtab_at buf i t -> symtab_at buf i t' -> t = t'.
Proof.
intros (l & _ & _ & _ & A1 & A2 & A3 & A4 & A5 & A6)%symtab_fields (l' & _ & _ & _ & B1 & B2 & B3 & B4 & B5 & B6)%symtab_fields.
rewrite <- (field_fun _ _ _ _ A3 B3) in *. destruct t, t'; cbn [t_off t_size t_entsize t_strings t_strsize] in *.
f_equal; by eapply field_fun.
Qed.

Lemma section_answers i : 0 <= i < shnum ->
answers (symbol_at buf name i) 0 (symbol_section buf name shoff shentsize shnum i).
Proof.
intros Hi. unfold symbol_section, reject. cbv zeta. assert (0 <= i * shentsize) by nia.
destruct (Z.ltb_spec (blen buf) (shoff + i * shentsize + 40)); [done|].
destruct (rd_u32_good buf Hbuf (shoff + i * shentsize + 4)) as (ty & Ety & _); [lia..|].
destruct (rd_u32_good buf Hbuf (shoff + i * shentsize + 16)) as (so & Eso & Rso); [lia..|].
destruct (rd_u32_good buf Hbuf (shoff + i * shentsize + 20)) as (sz & Esz & Rsz); [lia..|].
destruct (rd_u32_good buf Hbuf (shoff + i * shentsize + 24)) as (l & El & Rl); [lia..|].
destruct (rd_u32_good buf Hbuf (shoff + i * shentsize + 36)) as (es & Ees & Res); [lia..|].
rewrite Ety, Eso, Esz, El, Ees. cbn [mbind outcome_bind]. apply rd_u32_field in Ety, Eso, Esz, El, Ees. unfold rng in *.
destruct (Z.eqb_spec ty 2) as [->|Hty]; cbn [negb].
2: { intros k v _ (t & (link & _ & _ & E2 & _)%symtab_fields & _). by apply Hty, (field_fun _ _ _ _ Ety E2). }
destruct (Z.ltb_spec es 16), (Z.leb_spec shnum l); cbn [orb]; try done.
destruct (Z.ltb_spec (blen buf) (so + sz)); [done|]. assert (0 <= l * shentsize) by nia.
destruct (Z.ltb_spec (blen buf) (shoff + l * shentsize + 40)); [done|].
destruct (rd_u32_good buf Hbuf (shoff + l * shentsize + 16)) as (tso & Etso & Rtso); [lia..|].
destruct (rd_u32_good buf Hbuf (shoff + l * shentsize + 20)) as (tsz & Etsz & Rtsz); [lia..|].
rewrite Etso, Etsz. cbn [mbind outcome_bind]. apply rd_u32_field in Etso, Etsz. unfold rng in *.
destruct (Z.ltb_spec (blen buf) (tso + tsz)); [done|].
assert (symtab_at buf i (mkSymTab so sz es tso tsz)) as Ht.
{ exists shoff, shentsize, shnum, l. cbn [t_off t_size t_entsize t_strings t_strsize]. split_and!; done || lia. }
pose proof (Hsizes _ _ Ht) as He. cbn in He.
pose proof (scan_answers (mkSymTab so sz es tso tsz)) as HA. cbn [t_off t_size t_entsize t_strings t_strsize] in HA.
specialize (HA ltac:(lia) ltac:(lia) ltac:(lia) (S (Z.to_nat sz)) 0). rewrite Z.mul_0_l in HA.
specialize (HA ltac:(lia) ltac:(lia) ltac:(lia) ltac:(lia) ltac:(lia)).
assert (forall k v, entry_at buf name (mkSymTab so sz es tso tsz) k v <-> symbol_at buf name i k v) as Heq.
{ intros k v. split; [by exists (mkSymTab so sz es tso tsz)|]. intros (t & Ht' & He'). by rewrite (symtab_fun _ _ _ Ht Ht'). }
destruct (scan_symbols _ _ _ _ _ _ _ _ _) as [[v|]| |]; cbn in HA |- *; [|by setoid_rewrite <- Heq|done..].
destruct HA as (k1 & ? & ? & HA). exists k1. setoid_rewrite <- Heq. done.
Qed.

(** The lookup takes the sections in order: the first table with an entry of the name
answers, by its first such entry. *)
Definition earlier (i k i' k' : Z) : Prop := i < i' \/ (i = i' /\ k < k').

Lemma sections_answer n : forall i, 0 <= i -> i + Z.of_nat n = shnum ->
match symbol_sections buf name shoff shentsize shnum n i with
| Good (Some v) => exists i1 k1, i <= i1 /\ symbol_at buf name i1 k1 v
  /\ forall i' k' v', i <= i' -> earlier i' k' i1 k1 -> ~ symbol_at buf name i' k' v'
| Good None => forall i' k' v', i <= i' -> ~ symbol_at buf name i' k' v'
| Bad _ => True
| Undefined => False
end.
Proof.
assert (forall i k v, symbol_at buf name i k v -> 0 <= k) as H0k by (intros i k v (t & _ & Hk & _); done).
induction n as [|n IH]; intros i Hi En; cbn [symbol_sections].
{ intros i' k' v' Hi' (t & (link & Hb & _)%symtab_fields & _). lia. }
pose proof (section_answers i ltac:(lia)) as HA. specialize (IH (i + 1) ltac:(lia) ltac:(lia)).
destruct (symbol_section _ _ _ _ _ i) as [[v|]| |]; cbn [mbind outcome_bind answers] in *; [|..|done|done].
- destruct HA as (k1 & Hk1 & HP & HA). exists i, k1. split_and!; [lia|done|].
intros i' k' v' Hi' [He|[-> Hk]] Hs'; [lia|]. apply (HA k' v'); [|done]. split; [|done]. by eapply H0k.
- destruct (symbol_sections _ _ _ _ _ n (i + 1)) as [[v|]| |]; [|..|done|done].
+ destruct IH as (i1 & k1 & Hi1 & HP & IH). exists i1, k1. split_and!; [lia|done|].
  intros i' k' v' Hi' He Hs'. destruct (decide (i' = i)) as [->|]; [by apply (HA k' v'); [eapply H0k|]|].
  by apply (IH i' k' v'); [lia|..].
+ intros i' k' v' Hi' Hs'. destruct (decide (i' = i)) as [->|]; [by apply (HA k' v'); [eapply H0k|]|].
  by apply (IH i' k' v'); [lia|].
Qed.
End Sections.
End Lookup.

(** ** Properties *)

(** C19 [elf_image]: when [elf_load] succeeds, guest memory is exactly the image of the
    file: a region starting at the lowest segment address, below 4 GiB and at most
    256 MiB, holding the file bytes of every PT_LOAD segment at its address (later ones
    on top) and zeros elsewhere; every segment's file bytes, and its whole memory range
    unless that wraps around 2^64, lie inside the region with 64 KiB of stack above; and the entry
    point, in the region, and the register width are those of the header.  The segments are
    the PT_LOAD program headers as [read_phdr] decodes them. *)
Theorem elf_load_image buf m b entry xlen b' :
  bytes buf -> rng 64 (blen buf) -> 0 <= m ->
  elf_load (Some buf) true m b = (Good (entry, xlen), b') ->
  exists pl, elf_plan buf m = Good pl
  /\ b_data b' = image buf (b_base b') (plan_segments buf pl) ∅
  /\ (exists h, h ∈ plan_segments buf pl /\ b_base b' = p_vaddr h)
  /\ Forall (fun h => b_base b' <= p_vaddr h /\ p_offset h + p_filesz h <= blen buf
       /\ (0 < p_filesz h -> p_vaddr h + p_filesz h <= b_base b' + b_size b')
       /\ (p_vaddr h + p_memsz h < 2 ^ 64 -> p_vaddr h + p_memsz h + GUEST_STACK_SIZE <= b_base b' + b_size b'))
       (plan_segments buf pl)
  /\ m <= b_size b' <= ELF_MEM_MAX /\ b_base b' + b_size b' <= 2 ^ 32
  /\ b_base b' <= entry < b_base b' + b_size b'
  /\ (if pl_is64 pl then rd_u64 buf 24 else rd_u32 buf 24) = Good entry /\ xlen = (if pl_is64 pl then 64 else 32).
Proof.
  intros Hbuf Hlen Hm E. apply elf_load_good in E as (pl & Ep & Ee & Ex & Hent & Hpl & ->); [|done..].
  destruct (plan_spec buf m Hbuf Hlen pl Ep) as (hi & HF & Hw & Hhi & Him & Htop & Hsz & Hst).
  exists pl. cbn [b_data b_base b_size fst snd] in *. unfold ELF_MEM_MAX, GUEST_STACK_SIZE in *.
  assert (exists h, h ∈ plan_segments buf pl /\ pl_base pl = p_vaddr h) as Hlow by (destruct Hw as [Hw|Hw]; [lia|done]).
  assert (0 <= pl_base pl) as H0.
  { destruct Hlow as (h & Hh & ->). rewrite list.Forall_forall in HF. destruct (HF h Hh) as [(_ & Hv & _) _ _ _ _]. apply Hv. }
  pose proof (u64_rng (hi - pl_base pl)) as Hu. unfold rng in Hu.
  assert (u64 (pl_base pl + pl_size pl) = pl_base pl + pl_size pl) as Htop' by (apply wrap_small; unfold rng; lia).
  split_and!; try done; try lia. apply list.Forall_forall. intros h Hh.
  rewrite list.Forall_forall in HF, Hpl. destruct (HF h Hh) as [(_ & Hv & _ & Hmz) Hf Hsz' Hlo Hhi']. unfold rng in Hv, Hmz.
  split_and!; [done|done|intros Hp; by destruct (Hpl h Hh Hp)|]. intros Hnw. unfold u64 in Hhi'. rewrite wrap_small in Hhi' by (unfold rng; lia).
  assert (u64 (hi - pl_base pl) = hi - pl_base pl) as E' by (apply wrap_small; unfold rng; lia). lia.
Qed.

(** C20 [elf_safe]: loading reads only bytes of the file, whatever the file holds, as long
    as an ELF64 file does not place its program-header table in the upper half of the
    64-bit offset space. *)
Theorem elf_load_in_bounds buf alloc m b :
  bytes buf -> rng 64 (blen buf) ->
  (forall t, check_header buf = Good true -> read_table buf true = Good t -> phoff t < 2 ^ 63) ->
  run (elf_load (Some buf) alloc m) b <> Undefined.
Proof.
  intros Hbuf Hlen Hoff. unfold elf_load. pose proof (defined_plan buf m Hbuf Hoff) as Hd.
  destruct (elf_plan buf m) as [pl| |] eqn:Ep; [|done..].
  destruct (plan_table buf m pl Ep) as (Eh & Et & s & Es). destruct (table_ok buf Hbuf Hoff _ _ Eh Et) as [Hw Hmin].
  destruct (plan_spec buf m Hbuf Hlen pl Ep) as (hi & HF & _). destruct alloc; cbn [negb]; [|done].
  rewrite run_bind, run_bind, exec_modify. set (b0 := mem_init _ _ _ _).
  assert (rng 16 (phnum (pl_table pl))) as Hn by apply Hw. unfold rng in Hn.
  pose proof (defined_load_all buf Hbuf (pl_table pl) (pl_is64 pl) Hmin (Z.to_nat (phnum (pl_table pl))) _ hi 0 b0 HF) as Hl.
  destruct (run (load_all _ _ _ _ _) b0) as [[]| |]; [|done|].
  2: { exfalso. apply Hl; [|done]. eapply (measure_all_table buf _ _ Hw); [| |exact Es]; lia. }
  destruct (header_len buf _ Eh) as [H52 _].
  assert (defined (if pl_is64 pl then rd_u64 buf 24 else rd_u32 buf 24)) as He.
  { destruct (pl_is64 pl); [apply defined_u64|apply defined_u32]; done || lia. }
  destruct (if pl_is64 pl then rd_u64 buf 24 else rd_u32 buf 24) as [e| |]; [|done..]. rewrite run_bind. by destruct (_ || _).
Qed.


(** ** Example files *)

Definition le_list (n : nat) (v : Z) : list Z := map (fun i => u8 (v >> (8 * i))) (zseq 0 n).
(** A one-segment ELF32 executable: [code] at 0x80000000, entered there. *)
Definition ex_elf32 (code : list Z) : list Z :=
  [0x7f; 0x45; 0x4c; 0x46; 1; 1; 1] ++ repeat 0 9 ++ le_list 2 2 ++ le_list 2 243 ++ le_list 4 1
  ++ le_list 4 0x80000000 ++ le_list 4 52 ++ le_list 4 0 ++ le_list 4 0 ++ le_list 2 52 ++ le_list 2 32 ++ le_list 2 1
  ++ repeat 0 6
  ++ le_list 4 1 ++ le_list 4 84 ++ le_list 4 0x80000000 ++ le_list 4 0x80000000
  ++ le_list 4 (Z.of_nat (length code)) ++ le_list 4 (Z.of_nat (length code) + 16) ++ le_list 4 7 ++ le_list 4 4
  ++ code.
(** An ELF64 header with one program header at file offset [off]. *)
Definition ex_elf64 (off : Z) : list Z :=
  [0x7f; 0x45; 0x4c; 0x46; 2; 1; 1] ++ repeat 0 9 ++ le_list 2 2 ++ le_list 2 243 ++ le_list 4 1
  ++ le_list 8 0x80000000 ++ le_list 8 off ++ le_list 8 0 ++ le_list 4 0 ++ le_list 2 64 ++ le_list 2 56 ++ le_list 2 1
  ++ repeat 0 6.
Definition ex_bus : Bus := mem_init 0 0 plat_init [].

Lemma elf_load_image_witness : exists pl b', elf_plan (ex_elf32 [0x13; 0; 0; 0]) 0 = Good pl
  /\ elf_load (Some (ex_elf32 [0x13; 0; 0; 0])) true 0 ex_bus = (Good (0x80000000, 32), b')
  /\ b_base b' = 0x80000000 /\ b_size b' = 65556 /\ b_base b' + b_size b' <= 2 ^ 32.
Proof.
  destruct (elf_load (Some (ex_elf32 [0x13; 0; 0; 0])) true 0 ex_bus) as [r b'] eqn:E.
  assert (r = Good (0x80000000, 32)) as -> by (change r with (fst (r, b')); rewrite <- E; vm_compute; reflexivity).
  destruct (elf_load_image (ex_elf32 [0x13; 0; 0; 0]) 0 ex_bus 0x80000000 32 b') as (pl & Hp & _ & _ & _ & _ & Htop & _).
  - apply bytes_forallb. vm_compute. reflexivity.
  - apply rng_const. vm_compute. reflexivity.
  - lia.
  - exact E.
  - exists pl, b'. split; [exact Hp|]. split; [reflexivity|].
    assert (b_base b' = 0x80000000 /\ b_size b' = 65556) as [H1 H2]; [|split_and!; done].
    change b' with (snd (Good (0x80000000, 32), b')). rewrite <- E. vm_compute. split; reflexivity.
Defined.

Lemma elf_load_in_bounds_witness : run (elf_load (Some (ex_elf64 64)) true 0) ex_bus <> Undefined
  /\ run (elf_load (Some (ex_elf64 64)) true 0) ex_bus = Bad PhdrTable.
Proof.
  split; [|vm_compute; reflexivity]. apply elf_load_in_bounds.
  - apply bytes_forallb. vm_compute. reflexivity.
  - apply rng_const. vm_compute. reflexivity.
  - intros t _ Ht. vm_compute in Ht. injection Ht as <-. cbn. lia.
Defined.

(** An ELF64 table offset near the top of the 64-bit space passes the bounds check, whose sum
    wraps around, and the loader reads outside the file. *)
Lemma elf_load_table_wraps : run (elf_load (Some (ex_elf64 (2 ^ 64 - 40))) true 0) ex_bus = Undefined.
Proof. vm_compute. reflexivity. Qed.

(** An ELF32 file with a symbol table (section 0) of two entries of [entsize] bytes, [f] at
    0x1000 and [tohost] at 0x80001000, and its string table (section 1). *)
Definition ex_symtab (entsize : Z) : list Z :=
  [0x7f; 0x45; 0x4c; 0x46; 1; 1; 1] ++ repeat 0 9 ++ le_list 2 2 ++ le_list 2 243 ++ repeat 0 12
  ++ le_list 4 52 ++ repeat 0 10 ++ le_list 2 40 ++ le_list 2 2 ++ repeat 0 2
  ++ le_list 4 0 ++ le_list 4 2 ++ repeat 0 8 ++ le_list 4 132 ++ le_list 4 32 ++ le_list 4 1 ++ repeat 0 8
  ++ le_list 4 entsize
  ++ le_list 4 0 ++ le_list 4 3 ++ repeat 0 8 ++ le_list 4 164 ++ le_list 4 10 ++ repeat 0 16
  ++ le_list 4 1 ++ le_list 4 0x1000 ++ repeat 0 8
  ++ le_list 4 3 ++ le_list 4 0x80001000 ++ repeat 0 8
  ++ [0; 0x66; 0; 0x74; 0x6f; 0x68; 0x6f; 0x73; 0x74; 0].
Definition ex_tohost : list Z := [0x74; 0x6f; 0x68; 0x6f; 0x73; 0x74].

(** A symbol-table entry size near 2^32 makes the loop's bound wrap around, and the
    lookup reads outside the file. *)
Lemma elf_symbol_entry_wraps : elf_symbol (Some (ex_symtab 0xfffffff0)) [0x67] = Undefined.
Proof. vm_compute. reflexivity. Qed.

(** Every symbol table of the example is section 0. *)
Lemma ex_symtab_sizes i t : symtab_at (ex_symtab 16) i t -> t_entsize t < 2 ^ 32 - 16.
Proof.
  assert (bytes (ex_symtab 16)) as Hb by (apply bytes_forallb; vm_compute; reflexivity).
  destruct t as [so sz es tso tsz].
  intros (o & e & n & l & Eo & Ee & En & _ & _ & Hi & _ & E4 & _ & _ & _ & E36 & _). cbn [t_entsize] in *.
  apply rd_u32_field in Eo, E4, E36; [|done..]. apply rd_u16_field in Ee, En; [|done..].
  vm_compute in Eo, Ee, En. injection Eo as <-. injection Ee as <-. injection En as <-.
  assert (i = 0 \/ i = 1) as [-> | ->] by lia; [|vm_compute in E4; discriminate E4].
  vm_compute in E36. injection E36 as <-. reflexivity.
Qed.

