(* ===== verification/Dtb.v ===== *)
(** * The flattened device tree ([src/dtb.h], [src/dtb.c])

    The builder that serialises the machine's description.  [Fdt] holds the bytes of the
    structure block written so far (those from offset [STRUCT_OFF] of the output, so the
    cursor [spos] is 56 plus their number) and the strings block; [f_ok] latches the first
    write that does not fit.  The local array of interrupt cells has its fixed size: a
    store outside it, undefined behaviour in C, makes the result [Overrun]. *)

From Stdlib Require Import Strings.String Strings.Ascii.
From S2P Require Import Prelude Device.

(** A C string literal, without its terminator. *)
Definition chars (s : string) : list Z := map (fun c => Z.of_N (N_of_ascii c)) (list_ascii_of_string s).

(** ** Constants *)

(** [src/dtb.c 25-25] FDT_MAGIC *)
Definition FDT_MAGIC : Z := 0xd00dfeed.
(** [src/dtb.c 26-26] FDT_VERSION *)
Definition FDT_VERSION : Z := 17.
(** [src/dtb.c 27-27] FDT_LAST_COMP *)
Definition FDT_LAST_COMP : Z := 16.
(** [src/dtb.c 29-29] FDT_BEGIN_NODE *)
Definition FDT_BEGIN_NODE : Z := 1.
(** [src/dtb.c 30-30] FDT_END_NODE *)
Definition FDT_END_NODE : Z := 2.
(** [src/dtb.c 31-31] FDT_PROP *)
Definition FDT_PROP : Z := 3.
(** [src/dtb.c 33-33] FDT_END *)
Definition FDT_END : Z := 9.
(** [src/dtb.c 35-37] STRUCT_OFF *)
Definition STRUCT_OFF : Z := 40 + 16.
(** [src/dtb.c 42-42] PHANDLE_PLIC *)
Definition PHANDLE_PLIC : Z := 2.
(** [src/dtb.c 43-43] PHANDLE_CPU_INTC *)
Definition PHANDLE_CPU_INTC (h : Z) : Z := u32 (16 + h).
(** [src/dtb.h 66-66] DTB_MAX_SIZE *)
Definition DTB_MAX_SIZE : Z := 4096.

(** ** The description of the machine *)

(** [src/dtb.h 34-60] DtbConfig *)
Record DtbConfig := mkDtbConfig {
  cfg_mem_base : Z; cfg_mem_size : Z;
  cfg_test_base : Z; cfg_test_size : Z;
  cfg_clint_base : Z; cfg_clint_size : Z;
  cfg_plic_base : Z; cfg_plic_size : Z;
  cfg_uart_base : Z; cfg_uart_size : Z; cfg_uart_irq : Z;
  cfg_plic_ndev : Z; cfg_boot_hart : Z; cfg_nharts : Z; cfg_timebase_freq : Z;
  cfg_isa : list Z; cfg_mmu_type : list Z; cfg_bootargs : option (list Z);
  cfg_initrd_start : Z; cfg_initrd_end : Z;
  cfg_virtio_net_base : Z; cfg_virtio_net_size : Z; cfg_virtio_net_irq : Z;
  cfg_virtio_blk_base : Z; cfg_virtio_blk_size : Z; cfg_virtio_blk_irq : Z
}.

(** ** Builder state *)

(** [src/dtb.c 48-55] Fdt *)
Record Fdt := mkFdt { f_struct : list Z; f_strings : list Z; f_ok : bool }.
Definition fail (f : Fdt) : Fdt := mkFdt (f_struct f) (f_strings f) false.
Definition append (bs : list Z) (f : Fdt) : Fdt := mkFdt (f_struct f ++ bs) (f_strings f) (f_ok f).
Definition spos (f : Fdt) : Z := STRUCT_OFF + Z.of_nat (length (f_struct f)).

(** [src/dtb.c 58-63] wr_be *)
Definition wr_be (v : Z) : list Z := [u8 (v >> 24); u8 (v >> 16); u8 (v >> 8); u8 v].

(** What building a blob comes to. *)
Inductive built := Blob (blob : list Z) | NoRoom | Overrun.

Section Builder.
(** The capacity of the output buffer. *)
Context (cap : Z).

(** [src/dtb.c 66-70] put_u32 *)
Definition put_u32 (v : Z) (f : Fdt) : Fdt := if cap <? spos f + 4 then fail f else append (wr_be v) f.

(** [src/dtb.c 73-78] put_bytes *)
Definition fdt_put_bytes (bs : list Z) (f : Fdt) : Fdt :=
if bool_decide (bs = []) then f
else if cap <? spos f + Z.of_nat (length bs) then fail f else append bs f.

(** At most three bytes bring the cursor to a multiple of 4.
  [src/dtb.c 81-86] pad_struct *)
Fixpoint pad_loop (fuel : nat) (f : Fdt) : Fdt :=
match fuel with
| O => f
| S fuel =>
  if spos f .& 3 =? 0 then f
  else if cap <? spos f + 1 then fail f else pad_loop fuel (append [0] f)
end.
(** [src/dtb.c 81-86] pad_struct *)
Definition pad_struct (f : Fdt) : Fdt := pad_loop 3 f.

(** The C string at the head of a zero-terminated block. *)
Fixpoint cstr (l : list Z) : list Z :=
match l with [] => [] | c :: l => if c =? 0 then [] else c :: cstr l end.

(** [src/dtb.c 92-94] intern *)
Fixpoint intern_scan (fuel : nat) (name l : list Z) (i : Z) : option Z :=
match fuel with
| O => None
| S fuel =>
  match l with
  | [] => None
  | _ =>
    let s := cstr l in
    if bool_decide (s = name) then Some i
    else intern_scan fuel name (drop (S (length s)) l) (i + Z.of_nat (length s) + 1)
  end
end.

(** The offset of a name in the strings block, adding it if it is new.
  [src/dtb.c 91-101] intern *)
Definition intern (name : list Z) (f : Fdt) : Z * Fdt :=
match intern_scan (length (f_strings f)) name (f_strings f) 0 with
| Some i => (i, f)
| None =>
  if 512 <? Z.of_nat (length (f_strings f)) + Z.of_nat (length name) + 1 then (0, fail f)
  else (Z.of_nat (length (f_strings f)), mkFdt (f_struct f) (f_strings f ++ name ++ [0]) (f_ok f))
end.

(** [src/dtb.c 103-107] begin_node *)
Definition begin_node (name : list Z) (f : Fdt) : Fdt :=
f |> put_u32 FDT_BEGIN_NODE |> fdt_put_bytes (name ++ [0]) |> pad_struct.

(** [src/dtb.c 109-111] end_node *)
Definition end_node (f : Fdt) : Fdt := put_u32 FDT_END_NODE f.

(** [src/dtb.c 114-120] prop *)
Definition prop (name val : list Z) (f : Fdt) : Fdt :=
let f := f |> put_u32 FDT_PROP |> put_u32 (Z.of_nat (length val)) in
let '(off, f) := intern name f in
f |> put_u32 off |> fdt_put_bytes val |> pad_struct.

(** [src/dtb.c 123-125] prop_empty *)
Definition prop_empty (name : list Z) : Fdt -> Fdt := prop name [].

(** [src/dtb.c 128-130] prop_str *)
Definition prop_str (name s : list Z) : Fdt -> Fdt := prop name (s ++ [0]).

(** [src/dtb.c 133-139] prop_cells *)
Definition prop_cells (name : list Z) (cells : list Z) (f : Fdt) : Fdt :=
let f := f |> put_u32 FDT_PROP |> put_u32 (u32 (Z.of_nat (length cells) * 4)) in
let '(off, f) := intern name f in
foldl (fun f c => put_u32 c f) (put_u32 off f) cells |> pad_struct.

(** [src/dtb.c 142-144] prop_u32 *)
Definition prop_u32 (name : list Z) (v : Z) : Fdt -> Fdt := prop_cells name [v].

(** [src/dtb.c 149-152] prop_reg *)
Definition prop_reg (base size : Z) : Fdt -> Fdt := prop_cells (chars "reg") [0; base; 0; size].

(** ** The tree, part by part *)

(** [printf]'s [%x] of a 32-bit value. *)
Definition hex_digit (d : Z) : Z := if d <? 10 then 48 + d else 87 + d.
Fixpoint hex_loop (fuel : nat) (v : Z) : list Z :=
match fuel with
| O => []
| S fuel => (if v >> 4 =? 0 then [] else hex_loop fuel (v >> 4)) ++ [hex_digit (v .& 15)]
end.
Definition hex (v : Z) : list Z := hex_loop 8 v.

(** [src/dtb.c 174-186] dtb_build *)
Definition build_chosen (cfg : DtbConfig) (f : Fdt) : Fdt :=
let f := f |> begin_node (chars "chosen")
  |> prop_str (chars "stdout-path") (chars "/soc/uart@10000000")
  |> prop_str (chars "bootargs") (default [] (cfg_bootargs cfg)) in
let f := if cfg_initrd_start cfg <? cfg_initrd_end cfg
  then f |> prop_cells (chars "linux,initrd-start") [0; cfg_initrd_start cfg]
         |> prop_cells (chars "linux,initrd-end") [0; cfg_initrd_end cfg]
  else f in
end_node f.

(** [src/dtb.c 195-209] dtb_build *)
Definition build_cpu (cfg : DtbConfig) (f : Fdt) (h : Z) : Fdt :=
f |> begin_node (chars "cpu@" ++ hex h)
  |> prop_str (chars "device_type") (chars "cpu")
  |> prop_u32 (chars "reg") h
  |> prop_str (chars "status") (chars "okay")
  |> prop_str (chars "compatible") (chars "riscv")
  |> prop_str (chars "riscv,isa") (cfg_isa cfg)
  |> prop_str (chars "mmu-type") (cfg_mmu_type cfg)
  |> begin_node (chars "interrupt-controller")
  |> prop_u32 (chars "#interrupt-cells") 1
  |> prop_empty (chars "interrupt-controller")
  |> prop_str (chars "compatible") (chars "riscv,cpu-intc")
  |> prop_u32 (chars "phandle") (PHANDLE_CPU_INTC h)
  |> end_node |> end_node.

(** [src/dtb.c 189-189] dtb_build *)
Definition harts_of (cfg : DtbConfig) : Z := if cfg_nharts cfg =? 0 then 1 else cfg_nharts cfg.

(** [src/dtb.c 189-211] dtb_build *)
Definition build_cpus (cfg : DtbConfig) (f : Fdt) : Fdt :=
let f := f |> begin_node (chars "cpus") |> prop_u32 (chars "#address-cells") 1
  |> prop_u32 (chars "#size-cells") 0 |> prop_u32 (chars "timebase-frequency") (cfg_timebase_freq cfg) in
end_node (foldl (build_cpu cfg) f (zseq 0 (Z.to_nat (harts_of cfg)))).

(** [src/dtb.c 214-218] dtb_build *)
Definition build_memory (cfg : DtbConfig) (f : Fdt) : Fdt :=
f |> begin_node (chars "memory@" ++ hex (cfg_mem_base cfg)) |> prop_str (chars "device_type") (chars "memory")
  |> prop_reg (cfg_mem_base cfg) (cfg_mem_size cfg) |> end_node.

(** The local array [irqs]; its cells are written before they are read.
  [src/dtb.c 229-229] dtb_build *)
Definition irqs_uninit : list Z := repeat 0 (Z.to_nat (4 * QUANTA_MAX_HARTS)).

(** A store into the array, [None] outside it. *)
Definition irq_put (k v : Z) (irqs : list Z) : option (list Z) :=
if (0 <=? k) && (k <? Z.of_nat (length irqs)) then Some (<[Z.to_nat k := v]> irqs) else None.

(** The cells of hart [h]: its interrupt lines [i] and [j].
  [src/dtb.c 239-240] dtb_build *)
Definition hart_irqs (i j : Z) (irqs : list Z) (h : Z) : option (list Z) :=
irqs ← irq_put (4 * h + 0) (PHANDLE_CPU_INTC h) irqs; irqs ← irq_put (4 * h + 1) i irqs;
irqs ← irq_put (4 * h + 2) (PHANDLE_CPU_INTC h) irqs; irq_put (4 * h + 3) j irqs.

(** [src/dtb.c 238-241] dtb_build *)
Definition fill_irqs (n i j : Z) (irqs : list Z) : option (list Z) :=
foldl (fun r h => r ≫= fun irqs => hart_irqs i j irqs h) (Some irqs) (zseq 0 (Z.to_nat n)).

(** [src/dtb.c 234-243] dtb_build *)
Definition build_clint (cfg : DtbConfig) (irqs : list Z) (f : Fdt) : option (list Z * Fdt) :=
let f := f |> begin_node (chars "clint@" ++ hex (cfg_clint_base cfg)) |> prop_str (chars "compatible") (chars "riscv,clint0")
  |> prop_reg (cfg_clint_base cfg) (cfg_clint_size cfg) in
irqs ← fill_irqs (harts_of cfg) 3 7 irqs;
Some (irqs, f |> prop_cells (chars "interrupts-extended") (take (Z.to_nat (4 * harts_of cfg)) irqs) |> end_node).

(** [src/dtb.c 246-259] dtb_build *)
Definition build_plic (cfg : DtbConfig) (irqs : list Z) (f : Fdt) : option Fdt :=
let f := f |> begin_node (chars "plic@" ++ hex (cfg_plic_base cfg)) |> prop_str (chars "compatible") (chars "riscv,plic0")
  |> prop_reg (cfg_plic_base cfg) (cfg_plic_size cfg) |> prop_u32 (chars "#interrupt-cells") 1
  |> prop_empty (chars "interrupt-controller") in
irqs ← fill_irqs (harts_of cfg) 11 9 irqs;
Some (f |> prop_cells (chars "interrupts-extended") (take (Z.to_nat (4 * harts_of cfg)) irqs)
  |> prop_u32 (chars "riscv,ndev") (cfg_plic_ndev cfg) |> prop_u32 (chars "phandle") PHANDLE_PLIC |> end_node).

(** [src/dtb.c 262-269] dtb_build *)
Definition build_uart (cfg : DtbConfig) (f : Fdt) : Fdt :=
f |> begin_node (chars "uart@" ++ hex (cfg_uart_base cfg)) |> prop_str (chars "compatible") (chars "ns16550a")
  |> prop_reg (cfg_uart_base cfg) (cfg_uart_size cfg) |> prop_u32 (chars "clock-frequency") 3686400
  |> prop_u32 (chars "interrupt-parent") PHANDLE_PLIC |> prop_u32 (chars "interrupts") (cfg_uart_irq cfg) |> end_node.

(** A virtio-mmio device, when its window is not 0.
  [src/dtb.c 275-283] dtb_build *)
Definition build_virtio (base size irq : Z) (f : Fdt) : Fdt :=
if base =? 0 then f
else f |> begin_node (chars "virtio@" ++ hex base) |> prop_str (chars "compatible") (chars "virtio,mmio")
  |> prop_reg base size |> prop_u32 (chars "interrupt-parent") PHANDLE_PLIC
  |> prop_u32 (chars "interrupts") irq |> end_node.

(** [src/dtb.c 301-306] dtb_build *)
Definition build_test (cfg : DtbConfig) (f : Fdt) : Fdt :=
f |> begin_node (chars "test@" ++ hex (cfg_test_base cfg))
  |> prop (chars "compatible") (chars "sifive,test1" ++ [0] ++ chars "sifive,test0" ++ [0])
  |> prop_reg (cfg_test_base cfg) (cfg_test_size cfg) |> end_node.

(** [src/dtb.c 221-308] dtb_build *)
Definition build_soc (cfg : DtbConfig) (f : Fdt) : option Fdt :=
let f := f |> begin_node (chars "soc") |> prop_u32 (chars "#address-cells") 2 |> prop_u32 (chars "#size-cells") 2
  |> prop_str (chars "compatible") (chars "simple-bus") |> prop_empty (chars "ranges") in
r ← build_clint cfg irqs_uninit f;
f ← build_plic cfg r.1 r.2;
Some (f |> build_uart cfg
  |> build_virtio (cfg_virtio_blk_base cfg) (cfg_virtio_blk_size cfg) (cfg_virtio_blk_irq cfg)
  |> build_virtio (cfg_virtio_net_base cfg) (cfg_virtio_net_size cfg) (cfg_virtio_net_irq cfg)
  |> build_test cfg |> end_node).

(** [src/dtb.c 167-310] dtb_build *)
Definition build_root (cfg : DtbConfig) (f : Fdt) : option Fdt :=
let f := f |> begin_node [] |> prop_u32 (chars "#address-cells") 2 |> prop_u32 (chars "#size-cells") 2
  |> prop_str (chars "compatible") (chars "quanta,virt") |> prop_str (chars "model") (chars "quanta,virt")
  |> build_chosen cfg |> build_cpus cfg |> build_memory cfg in
f ← build_soc cfg f;
Some (f |> end_node |> put_u32 FDT_END).

(** The header, back-filled once the sizes are known.
  [src/dtb.c 322-331] dtb_build *)
Definition fdt_header (total strings_off boot_hart slen struct_size : Z) : list Z :=
wr_be FDT_MAGIC ++ wr_be total ++ wr_be STRUCT_OFF ++ wr_be strings_off ++ wr_be 40
++ wr_be FDT_VERSION ++ wr_be FDT_LAST_COMP ++ wr_be boot_hart ++ wr_be slen ++ wr_be struct_size.

(** The blob, [NoRoom] where the C function returns 0, and [Overrun] where it writes
  outside its array of interrupt cells.
  [src/dtb.c 154-334] dtb_build *)
Definition dtb_build (cfg : DtbConfig) : built :=
if cap <? STRUCT_OFF then NoRoom
else
  match build_root cfg (mkFdt [] [] true) with
  | None => Overrun
  | Some f =>
    if negb (f_ok f) then NoRoom
    else
      let slen := Z.of_nat (length (f_strings f)) in
      if cap <? spos f + slen then NoRoom
      else Blob (fdt_header (u32 (spos f + slen)) (u32 (spos f)) (cfg_boot_hart cfg) (u32 slen)
                   (u32 (Z.of_nat (length (f_struct f))))
                 ++ repeat 0 16 ++ f_struct f ++ f_strings f)
  end.
End Builder.
