(* ===== verification/DtbThms.v ===== *)
(** * The device tree reads back

    [Module Fdt_spec] is a reader for the flattened format as the Devicetree Specification
    lays it out, and [machine_tree] the tree that describes a configuration.  The theorem
    shows that reading what the builder writes gives exactly that tree. *)

From Stdlib Require Import Strings.String.
From S2P Require Import Prelude Device DeviceInv Dtb.

Set Warnings "-register-all".

Module Fdt_spec.

(** A node: its name, its properties in order, its subnodes in order. *)
Inductive tree := Node (name : list Z) (props : list (list Z * list Z)) (kids : list tree).

(** A big-endian word at the head of a block. *)
Definition be32 (l : list Z) : option (Z * list Z) :=
match l with
| a :: b :: c :: d :: l => Some (2 ^ 24 * a + 2 ^ 16 * b + 2 ^ 8 * c + d, l)
| _ => None
end.

(** The number of bytes [n] occupies once padded to a word boundary. *)
Definition pad4 (n : nat) : nat := 4 * ((n + 3) / 4).

(** The first [n] bytes of a block and what follows their padding. *)
Definition field (n : nat) (l : list Z) : option (list Z * list Z) :=
if (pad4 n <=? length l)%nat then Some (take n l, drop (pad4 n) l) else None.

Inductive event := EBegin (name : list Z) | EProp (name val : list Z) | EEnd.

(** The token stream of the structure block, up to the end token. *)
Fixpoint read_events (fuel : nat) (strs l : list Z) : option (list event) :=
match fuel with
| O => None
| S fuel =>
  '(tok, l) ← be32 l;
  if tok =? 1 then
    '(b, l) ← field (S (length (cstr l))) l;
    evs ← read_events fuel strs l; Some (EBegin (cstr b) :: evs)
  else if tok =? 2 then evs ← read_events fuel strs l; Some (EEnd :: evs)
  else if tok =? 3 then
    '(len, l) ← be32 l; '(off, l) ← be32 l; '(val, l) ← field (Z.to_nat len) l;
    evs ← read_events fuel strs l; Some (EProp (cstr (drop (Z.to_nat off) strs)) val :: evs)
  else if tok =? 9 then match l with [] => Some [] | _ => None end
  else None
end.

(** The properties at the head of a node. *)
Fixpoint read_props (evs : list event) : list (list Z * list Z) * list event :=
match evs with
| EProp n v :: evs => let '(ps, r) := read_props evs in ((n, v) :: ps, r)
| _ => ([], evs)
end.

(** As many nodes as the stream begins with. *)
Fixpoint read_nodes (fuel : nat) (evs : list event) : option (list tree * list event) :=
match fuel with
| O => None
| S fuel =>
  match evs with
  | EBegin n :: r =>
    let '(ps, r) := read_props r in
    '(ks, r) ← read_nodes fuel r;
    match r with
    | EEnd :: r => '(ts, r) ← read_nodes fuel r; Some (Node n ps ks :: ts, r)
    | _ => None
    end
  | _ => Some ([], evs)
  end
end.

(** A blob: the header is consistent with the length and the layout, nothing is reserved, and the
  structure block holds one tree.  The result is the boot hart and the tree. *)
Definition read (blob : list Z) : option (Z * tree) :=
'(magic, l) ← be32 blob; '(total, l) ← be32 l; '(off_struct, l) ← be32 l; '(off_strings, l) ← be32 l;
'(off_rsv, l) ← be32 l; '(version, l) ← be32 l; '(compat, l) ← be32 l; '(boot, l) ← be32 l;
'(size_strings, l) ← be32 l; '(size_struct, l) ← be32 l;
if (magic =? 0xd00dfeed) && (total =? Z.of_nat (length blob)) && (16 <=? version) && (compat =? 16)
   && (off_struct mod 4 =? 0) && (off_rsv mod 8 =? 0)
   && (off_struct + size_struct <=? total) && (off_strings + size_strings <=? total)
   && bool_decide (take 16 (drop (Z.to_nat off_rsv) blob) = repeat 0 16)
then
  let st := take (Z.to_nat size_struct) (drop (Z.to_nat off_struct) blob) in
  let strs := take (Z.to_nat size_strings) (drop (Z.to_nat off_strings) blob) in
  evs ← read_events (length st) strs st;
  match read_nodes (S (length evs)) evs with
  | Some ([t], []) => Some (boot, t)
  | _ => None
  end
else None.

(** ** The tree of a configuration *)

Definition cells (l : list Z) : list Z := flat_map wr_be l.
Definition str (s : list Z) : list Z := s ++ [0].
Definition leaf (name : list Z) (ps : list (list Z * list Z)) : tree := Node name ps [].

(** The number of harts (a count of 0 stands for 1), the handle of a hart's interrupt
  controller, and of the PLIC. *)
Definition count (cfg : DtbConfig) : Z := Z.max 1 (cfg_nharts cfg).
Definition intc (h : Z) : Z := (16 + h) mod 2 ^ 32.
Definition plic : Z := 2.
(** The wiring of the interrupt lines [irqs] of harts 0 to [n - 1]: for each hart in turn,
  for each line, the handle of that hart's controller and the line. *)
Definition wires (n : Z) (irqs : list Z) : list Z :=
flat_map (fun h => flat_map (fun i => [intc h; i]) irqs) (zseq 0 (Z.to_nat n)).

Definition cpu_tree (cfg : DtbConfig) (h : Z) : tree :=
Node (chars "cpu@" ++ hex h)
  [(chars "device_type", str (chars "cpu")); (chars "reg", cells [h]); (chars "status", str (chars "okay"));
   (chars "compatible", str (chars "riscv")); (chars "riscv,isa", str (cfg_isa cfg));
   (chars "mmu-type", str (cfg_mmu_type cfg))]
  [leaf (chars "interrupt-controller")
    [(chars "#interrupt-cells", cells [1]); (chars "interrupt-controller", []);
     (chars "compatible", str (chars "riscv,cpu-intc")); (chars "phandle", cells [intc h])]].

Definition virtio_tree (base size irq : Z) : list tree :=
if base =? 0 then []
else [leaf (chars "virtio@" ++ hex base)
  [(chars "compatible", str (chars "virtio,mmio")); (chars "reg", cells [0; base; 0; size]);
   (chars "interrupt-parent", cells [plic]); (chars "interrupts", cells [irq])]].

Definition clint_tree (cfg : DtbConfig) : tree :=
leaf (chars "clint@" ++ hex (cfg_clint_base cfg))
  [(chars "compatible", str (chars "riscv,clint0"));
   (chars "reg", cells [0; cfg_clint_base cfg; 0; cfg_clint_size cfg]);
   (chars "interrupts-extended", cells (wires (count cfg) [3; 7]))].

Definition plic_tree (cfg : DtbConfig) : tree :=
leaf (chars "plic@" ++ hex (cfg_plic_base cfg))
  [(chars "compatible", str (chars "riscv,plic0"));
   (chars "reg", cells [0; cfg_plic_base cfg; 0; cfg_plic_size cfg]);
   (chars "#interrupt-cells", cells [1]); (chars "interrupt-controller", []);
   (chars "interrupts-extended", cells (wires (count cfg) [11; 9]));
   (chars "riscv,ndev", cells [cfg_plic_ndev cfg]); (chars "phandle", cells [plic])].

Definition uart_tree (cfg : DtbConfig) : tree :=
leaf (chars "uart@" ++ hex (cfg_uart_base cfg))
  [(chars "compatible", str (chars "ns16550a"));
   (chars "reg", cells [0; cfg_uart_base cfg; 0; cfg_uart_size cfg]);
   (chars "clock-frequency", cells [3686400]); (chars "interrupt-parent", cells [plic]);
   (chars "interrupts", cells [cfg_uart_irq cfg])].

Definition test_tree (cfg : DtbConfig) : tree :=
leaf (chars "test@" ++ hex (cfg_test_base cfg))
  [(chars "compatible", str (chars "sifive,test1") ++ str (chars "sifive,test0"));
   (chars "reg", cells [0; cfg_test_base cfg; 0; cfg_test_size cfg])].

Definition soc_tree (cfg : DtbConfig) : tree :=
Node (chars "soc")
  [(chars "#address-cells", cells [2]); (chars "#size-cells", cells [2]);
   (chars "compatible", str (chars "simple-bus")); (chars "ranges", [])]
  ([clint_tree cfg; plic_tree cfg; uart_tree cfg]
   ++ virtio_tree (cfg_virtio_blk_base cfg) (cfg_virtio_blk_size cfg) (cfg_virtio_blk_irq cfg)
   ++ virtio_tree (cfg_virtio_net_base cfg) (cfg_virtio_net_size cfg) (cfg_virtio_net_irq cfg)
   ++ [test_tree cfg]).

Definition chosen_tree (cfg : DtbConfig) : tree :=
leaf (chars "chosen")
  ([(chars "stdout-path", str (chars "/soc/uart@10000000"));
    (chars "bootargs", str (default [] (cfg_bootargs cfg)))]
   ++ if cfg_initrd_start cfg <? cfg_initrd_end cfg
      then [(chars "linux,initrd-start", cells [0; cfg_initrd_start cfg]);
            (chars "linux,initrd-end", cells [0; cfg_initrd_end cfg])] else []).

Definition cpus_tree (cfg : DtbConfig) : tree :=
Node (chars "cpus")
  [(chars "#address-cells", cells [1]); (chars "#size-cells", cells [0]);
   (chars "timebase-frequency", cells [cfg_timebase_freq cfg])]
  (map (cpu_tree cfg) (zseq 0 (Z.to_nat (count cfg)))).

Definition memory_tree (cfg : DtbConfig) : tree :=
leaf (chars "memory@" ++ hex (cfg_mem_base cfg))
  [(chars "device_type", str (chars "memory"));
   (chars "reg", cells [0; cfg_mem_base cfg; 0; cfg_mem_size cfg])].

Definition machine_tree (cfg : DtbConfig) : tree :=
Node []
  [(chars "#address-cells", cells [2]); (chars "#size-cells", cells [2]);
   (chars "compatible", str (chars "quanta,virt")); (chars "model", str (chars "quanta,virt"))]
  [chosen_tree cfg; cpus_tree cfg; memory_tree cfg; soc_tree cfg].
End Fdt_spec.
Import Fdt_spec.

(** ** Trees and token streams *)

Fixpoint tree_events (t : tree) : list event :=
  match t with Node n ps ks => EBegin n :: map (fun p => EProp p.1 p.2) ps ++ flat_map tree_events ks ++ [EEnd] end.
Fixpoint tree_size (t : tree) : nat := match t with Node _ _ ks => S (list_sum (map tree_size ks)) end.
Definition forest_size (ts : list tree) : nat := list_sum (map tree_size ts).
Definition not_prop (r : list event) : Prop := match r with EProp _ _ :: _ => False | _ => True end.
Definition not_begin (r : list event) : Prop := match r with EBegin _ :: _ => False | _ => True end.

Lemma read_props_spec ps r : not_prop r -> read_props (map (fun p => EProp p.1 p.2) ps ++ r) = (ps, r).
Proof.
  intros Hr. induction ps as [|[n v] ps IH]; cbn; [by destruct r as [|[]]|]. by rewrite IH.
Qed.
Lemma flat_events_head ts r : not_prop r -> not_prop (flat_map tree_events ts ++ r).
Proof. intros Hr. by destruct ts as [|[] ts]. Qed.

Lemma read_nodes_spec fuel : forall ts r, (forest_size ts < fuel)%nat -> not_begin r ->
  read_nodes fuel (flat_map tree_events ts ++ r) = Some (ts, r).
Proof.
  induction fuel as [|fuel IH]; intros ts r Hf Hr; [lia|]. destruct ts as [|[n ps ks] ts].
  { cbn [flat_map app read_nodes]. by destruct r as [|[]]. }
  unfold forest_size in Hf. cbn [map list_sum foldr tree_size] in Hf.
  change (foldr Init.Nat.add 0%nat (map tree_size ts)) with (list_sum (map tree_size ts)) in Hf.
  cbn [flat_map tree_events app read_nodes]. rewrite <- !app_assoc.
  rewrite read_props_spec by (by apply flat_events_head). rewrite IH; [|unfold forest_size; lia|done].
  cbn [mbind option_bind app]. rewrite IH; [done|unfold forest_size; lia|done].
Qed.

Lemma tree_size_events t : (tree_size t < length (tree_events t))%nat.
Proof.
  revert t. fix IH 1. intros [n ps ks]. cbn [tree_size tree_events length]. rewrite !length_app. cbn [length].
  assert (list_sum (map tree_size ks) <= length (flat_map tree_events ks))%nat; [|lia].
  induction ks as [|k ks IHk]; [done|]. cbn [map list_sum foldr flat_map]. rewrite length_app. pose proof (IH k).
  change (foldr Init.Nat.add 0%nat (map tree_size ks)) with (list_sum (map tree_size ks)). lia.
Qed.

(** ** Bytes of a token stream *)

Definition nonul (l : list Z) : Prop := Forall (fun c => c <> 0) l.
Definition zeros (n : nat) : list Z := repeat 0 n.
Definition padded (l : list Z) : list Z := l ++ zeros (pad4 (length l) - length l).
(** [off] is where [name] starts in the strings block. *)
Definition name_at (strs : list Z) (off : Z) (name : list Z) : Prop :=
  rng 32 off /\ exists rest, drop (Z.to_nat off) strs = name ++ 0 :: rest.

Inductive encodes (strs : list Z) : list event -> list Z -> Prop :=
| enc_nil : encodes strs [] []
| enc_begin n evs bs : nonul n -> encodes strs evs bs ->
    encodes strs (EBegin n :: evs) (wr_be 1 ++ padded (n ++ [0]) ++ bs)
| enc_end evs bs : encodes strs evs bs -> encodes strs (EEnd :: evs) (wr_be 2 ++ bs)
| enc_prop n v off evs bs : nonul n -> name_at strs off n -> rng 32 (Z.of_nat (length v)) -> encodes strs evs bs ->
    encodes strs (EProp n v :: evs) (wr_be 3 ++ wr_be (Z.of_nat (length v)) ++ wr_be off ++ padded v ++ bs).

Lemma be32_wr_be v l : rng 32 v -> be32 (wr_be v ++ l) = Some (v, l).
Proof.
  intros Hv. unfold wr_be. cbn [app be32]. do 2 f_equal. unfold u8. rewrite !wrap_mod, !Z.shiftr_div_pow2 by lia.
  unfold rng in Hv. pose proof (Z.div_mod v (2 ^ 8) ltac:(lia)). 
  pose proof (Z.div_mod (v / 2 ^ 8) (2 ^ 8) ltac:(lia)) as H1. rewrite Z.div_div in H1 by lia.
  pose proof (Z.div_mod (v / 2 ^ 16) (2 ^ 8) ltac:(lia)) as H2. rewrite Z.div_div in H2 by lia.
  assert (v / 2 ^ 24 < 2 ^ 8) by (apply Z.div_lt_upper_bound; lia). pose proof (Z.div_pos v (2 ^ 24) ltac:(lia) ltac:(lia)).
  rewrite (Z.mod_small (v / 2 ^ 24)) by lia. change (2 ^ 8 * 2 ^ 8) with (2 ^ 16) in *. change (2 ^ 16 * 2 ^ 8) with (2 ^ 24) in *. lia.
Qed.

Lemma cstr_app n l : nonul n -> cstr (n ++ 0 :: l) = n.
Proof.
  induction 1 as [|c n Hc _ IH]; [done|]. cbn [app cstr]. destruct (Z.eqb_spec c 0); [done|]. by rewrite IH.
Qed.
Lemma pad4_le n : (n <= pad4 n)%nat.
Proof. unfold pad4. pose proof (Nat.div_mod_eq (n + 3) 4). pose proof (Nat.mod_upper_bound (n + 3) 4). lia. Qed.
Lemma length_padded l : length (padded l) = pad4 (length l).
Proof. unfold padded, zeros. rewrite length_app, repeat_length. pose proof (pad4_le (length l)). lia. Qed.
Lemma field_padded v l : field (length v) (padded v ++ l) = Some (v, l).
Proof.
  unfold field. rewrite length_app, length_padded. rewrite (proj2 (Nat.leb_le _ _)) by lia.
  do 2 f_equal; [unfold padded; rewrite <- app_assoc; apply take_app_length|].
  rewrite <- (length_padded v). apply drop_app_length.
Qed.

Lemma read_events_spec strs evs bs fuel : encodes strs evs bs -> (length evs < fuel)%nat ->
  read_events fuel strs (bs ++ wr_be 9) = Some evs.
Proof.
  intros He. revert fuel. induction He as [|n evs bs Hn _ IH|evs bs _ IH|n v off evs bs Hn [Ho [rest Hat]] Hv _ IH];
    intros [|fuel] Hf; cbn [length] in Hf; try lia; cbn [read_events].
  - done.
  - rewrite <- !app_assoc, be32_wr_be by (by apply rng_const). cbn [mbind option_bind Z.eqb Pos.eqb].
    assert (cstr (padded (n ++ [0]) ++ bs ++ wr_be 9) = n) as Ec.
    { unfold padded. rewrite <- !app_assoc. by apply cstr_app. }
    rewrite Ec. replace (S (length n)) with (length (n ++ [0])) by (rewrite length_app; cbn; lia).
    rewrite field_padded. cbn [mbind option_bind]. rewrite IH by lia. cbn. by rewrite cstr_app.
  - rewrite <- app_assoc, be32_wr_be by (by apply rng_const). cbn [mbind option_bind Z.eqb Pos.eqb]. by rewrite IH by lia.
  - rewrite <- !app_assoc, be32_wr_be by (by apply rng_const). cbn [mbind option_bind Z.eqb Pos.eqb].
    rewrite !be32_wr_be by done. cbn [mbind option_bind]. rewrite be32_wr_be by done. cbn [mbind option_bind].
    rewrite Nat2Z.id, field_padded. cbn [mbind option_bind]. rewrite IH by lia. cbn. by rewrite Hat, cstr_app.
Qed.

Lemma encodes_app strs e1 b1 e2 b2 : encodes strs e1 b1 -> encodes strs e2 b2 -> encodes strs (e1 ++ e2) (b1 ++ b2).
Proof. induction 1; intros He2; cbn [app]; rewrite <- ?app_assoc; [done|by constructor; auto..]. Qed.
Lemma encodes_grow strs x evs bs : encodes strs evs bs -> encodes (strs ++ x) evs bs.
Proof.
  induction 1 as [| | |n v off evs bs Hn [Ho [rest Hat]] Hv _ IH]; constructor; try done.
  split; [done|]. exists (rest ++ x). rewrite drop_app_le.
  - by rewrite Hat, <- app_assoc.
  - destruct (Nat.le_gt_cases (Z.to_nat off) (length strs)); [done|]. rewrite drop_ge in Hat by lia. by destruct n.
Qed.

(** ** The builder *)

Section Build.
Context (cap : Z).
Hypothesis (Hcap : rng 32 cap).

Definition aligned (f : Fdt) : Prop := (length (f_struct f) mod 4 = 0)%nat.
Definition terminated (l : list Z) : Prop := l = [] \/ exists l', l = l' ++ [0].
Definition fdt_wf (f : Fdt) : Prop := aligned f /\ terminated (f_strings f) /\ (length (f_strings f) <= 512)%nat.

(** [ext f g evs]: [g] is [f] with the bytes of [evs] appended and names added to the strings
  block, provided nothing overflowed on the way. *)
Definition ext (f g : Fdt) (evs : list event) : Prop :=
(f_ok g = true -> f_ok f = true)
/\ (fdt_wf f -> f_ok g = true -> fdt_wf g /\ exists x bs,
      f_strings g = f_strings f ++ x /\ f_struct g = f_struct f ++ bs /\ encodes (f_strings g) evs bs).

Lemma ext_refl f : ext f f [].
Proof. split; [done|]. intros Hf _. split; [done|]. exists [], []. rewrite !app_nil_r. by repeat constructor. Qed.
Lemma ext_trans f g h e1 e2 : ext f g e1 -> ext g h e2 -> ext f h (e1 ++ e2).
Proof.
intros [Ho1 H1] [Ho2 H2]. split; [by auto|]. intros Hf Hh.
destruct (H1 Hf (Ho2 Hh)) as (Hg & x1 & b1 & Es1 & Eb1 & He1).
destruct (H2 Hg Hh) as (Hw & x2 & b2 & Es2 & Eb2 & He2). split; [done|].
exists (x1 ++ x2), (b1 ++ b2). rewrite Es2, Eb2, Es1, Eb1, !app_assoc. split_and!; [done..|].
rewrite <- Es1. apply encodes_app; [by apply encodes_grow|by rewrite <- Es2].
Qed.
Lemma ext_foldl {A} (m : Fdt -> A -> Fdt) ev l : (forall f a, ext f (m f a) (ev a)) ->
forall f, ext f (foldl m f l) (flat_map ev l).
Proof. intros Hm. induction l as [|a l IH]; intros f; [apply ext_refl|]. cbn. eapply ext_trans; [apply Hm|apply IH]. Qed.

Lemma put_u32_ok v f : f_ok (put_u32 cap v f) = true -> f_ok f = true /\ put_u32 cap v f = append (wr_be v) f.
Proof. unfold put_u32. by destruct (_ <? _). Qed.
Lemma put_bytes_ok bs f : f_ok (fdt_put_bytes cap bs f) = true ->
f_ok f = true /\ fdt_put_bytes cap bs f = append bs f /\ (bs = [] \/ Z.of_nat (length bs) <= cap).
Proof.
unfold fdt_put_bytes. destruct (bool_decide_reflect (bs = [])) as [->|].
- intros Hok. split_and!; [done| |by left]. unfold append. rewrite app_nil_r. by destruct f.
- destruct (Z.ltb_spec cap (spos f + Z.of_nat (length bs))); [done|]. intros Hok. split_and!; [done|done|right].
  unfold spos, STRUCT_OFF in *. lia.
Qed.
Lemma spos_mod f : spos f .& 3 = Z.of_nat (length (f_struct f) mod 4).
Proof.
unfold spos, STRUCT_OFF. rewrite (Z.land_ones _ 2) by lia. change (2 ^ 2) with 4. change (40 + 16) with (14 * 4).
rewrite Z.add_comm, Z.mod_add by lia. by rewrite Nat2Z.inj_mod.
Qed.
Lemma append_app a b f : append b (append a f) = append (a ++ b) f.
Proof. unfold append. cbn. by rewrite app_assoc. Qed.

(** [k] zero bytes bring the cursor to a word boundary. *)
Lemma pad_loop_ok k : forall fuel f, ((length (f_struct f) + k) mod 4 = 0)%nat -> (k < 4)%nat -> (k <= fuel)%nat ->
f_ok (pad_loop cap fuel f) = true -> f_ok f = true /\ pad_loop cap fuel f = append (zeros k) f.
Proof.
induction k as [|k IH]; intros fuel f Hm Hk Hf Hok.
- assert (pad_loop cap fuel f = f) as E.
  { destruct fuel; [done|]. cbn [pad_loop]. rewrite spos_mod. rewrite Nat.add_0_r in Hm. by rewrite Hm. }
  rewrite E in *. split; [done|]. unfold append. cbn. rewrite app_nil_r. by destruct f.
- destruct fuel as [|fuel]; [lia|]. cbn [pad_loop] in *. rewrite spos_mod in *.
  destruct (Z.eqb_spec (Z.of_nat (length (f_struct f) mod 4)) 0) as [E|E].
  + exfalso. assert (length (f_struct f) mod 4 = 0)%nat as E' by lia.
    pose proof (Nat.div_mod_eq (length (f_struct f)) 4). pose proof (Nat.div_mod_eq (length (f_struct f) + S k) 4). lia.
  + destruct (cap <? spos f + 1); [done|]. destruct (IH fuel (append [0] f)) as [Ho E'].
    * cbn. rewrite length_app. cbn [length]. by replace (length (f_struct f) + 1 + k)%nat with (length (f_struct f) + S k)%nat by lia.
    * lia.
    * lia.
    * done.
    * split; [done|]. by rewrite E', append_app.
Qed.

Lemma pad4_mod n : (pad4 n mod 4 = 0)%nat /\ (pad4 n - n < 4)%nat.
Proof.
unfold pad4. split; [rewrite Nat.mul_comm; apply Nat.Div0.mod_mul|].
pose proof (Nat.div_mod_eq (n + 3) 4). lia.
Qed.

Lemma pad_loop_mono fuel : forall f, f_ok (pad_loop cap fuel f) = true -> f_ok f = true.
Proof.
induction fuel as [|fuel IH]; intros f; cbn [pad_loop]; [done|].
destruct (_ =? _); [done|]. destruct (_ <? _); [done|]. intros Hok%IH. done.
Qed.

(** [writes w v]: [w] puts the bytes [v] and their padding at an aligned cursor. *)
Definition writes (w : Fdt -> Fdt) (v : list Z) : Prop :=
forall f, f_ok (w f) = true ->
f_ok f = true /\ (aligned f -> w f = append (padded v) f /\ rng 32 (Z.of_nat (length v))).

(** A sequence of writes of [v], then padding. *)
Lemma writes_pad w v : (forall f, f_ok (w f) = true ->
  f_ok f = true /\ w f = append v f /\ (v = [] \/ Z.of_nat (length v) <= cap)) ->
writes (fun f => pad_struct cap (w f)) v.
Proof.
intros Hw f Hok. unfold pad_struct in *. destruct (pad4_mod (length v)) as [Hp Hl]. pose proof (pad4_le (length v)).
destruct (Hw f (pad_loop_mono _ _ Hok)) as (Hf & E & Hlen). split; [done|]. intros Ha. rewrite E in *.
destruct (pad_loop_ok (pad4 (length v) - length v) 3 (append v f)) as [_ E']; [| |lia|done|].
- unfold aligned in Ha. change (f_struct (append v f)) with (f_struct f ++ v). rewrite length_app.
  replace (length (f_struct f) + length v + (pad4 (length v) - length v))%nat
    with (length (f_struct f) + pad4 (length v))%nat by lia. by rewrite Nat.Div0.add_mod, Ha, Hp.
- done.
- rewrite E', append_app. split; [done|]. unfold rng in *. destruct Hlen as [->|Hlen]; cbn [length]; lia.
Qed.
Lemma writes_bytes v : writes (fun f => pad_struct cap (fdt_put_bytes cap v f)) v.
Proof. apply writes_pad. intros f. apply put_bytes_ok. Qed.
Lemma writes_cells l : writes (fun f => pad_struct cap (foldl (fun f c => put_u32 cap c f) f l)) (cells l).
Proof.
apply writes_pad. intros f Hok. assert (f_ok f = true /\ foldl (fun f c => put_u32 cap c f) f l = append (cells l) f
  /\ (l <> [] -> spos f + Z.of_nat (length (cells l)) <= cap)) as (Hf & E & Hlen).
{ revert f Hok. induction l as [|c l IH]; intros f; cbn [foldl].
  - intros Hok. split_and!; [done| |done]. unfold append. cbn. rewrite app_nil_r. by destruct f.
  - intros (Hf & E & Hlen)%IH. destruct (put_u32_ok _ _ Hf) as [Hf' E']. rewrite E, E', append_app.
    split_and!; [done..|]. intros _. unfold cells. cbn [flat_map]. rewrite length_app. cbn [wr_be length].
    destruct l as [|c' l].
    + unfold put_u32 in Hf. cbn. destruct (Z.ltb_spec cap (spos f + 4)); [done|lia].
    + specialize (Hlen ltac:(done)). rewrite E' in Hlen. unfold cells in *. unfold spos, append in *.
      cbn [f_struct] in Hlen. rewrite length_app in Hlen. cbn [wr_be length] in Hlen. lia. }
split_and!; [done..|]. destruct l as [|c l]; [by left|right]. specialize (Hlen ltac:(done)). unfold spos, STRUCT_OFF in Hlen. lia.
Qed.


(** ** Interned names *)

Lemma terminated_tail c l : terminated (c :: l) -> terminated l /\ (l = [] -> c = 0).
Proof.
intros [?|[l' E]]; [done|]. destruct l' as [|c' l'].
- cbn in E. simplify_eq. by split; [left|].
- cbn in E. simplify_eq. split; [right; by eexists|]. by destruct l'.
Qed.
Lemma cstr_split l : terminated l -> l <> [] -> exists rest, l = cstr l ++ 0 :: rest /\ terminated rest.
Proof.
induction l as [|c l IH]; [done|]. intros [Ht Hc]%terminated_tail _. cbn [cstr].
destruct (Z.eqb_spec c 0) as [->|]; [by exists l|].
destruct IH as (rest & E & Hr); [done|by intros ->; auto|]. exists rest. cbn. by rewrite <- E.
Qed.

Lemma intern_scan_spec fuel name : forall l i j, terminated l -> intern_scan fuel name l i = Some j ->
exists k rest, j = i + Z.of_nat k /\ drop k l = name ++ 0 :: rest.
Proof.
induction fuel as [|fuel IH]; intros l i j Ht; cbn [intern_scan]; [done|].
destruct l as [|c l]; [done|]. destruct (cstr_split (c :: l)) as (rest & E & Hr); [done..|].
set (s := cstr (c :: l)) in *. set (l0 := c :: l) in *.
assert (drop (S (length s)) l0 = rest) as Ed.
{ rewrite E, drop_app_ge by lia. by replace (S (length s) - length s)%nat with 1%nat by lia. }
destruct (bool_decide_reflect (s = name)) as [<-|].
- intros [= <-]. exists 0%nat, rest. split; [lia|done].
- rewrite Ed. intros (k & rest' & -> & Ek)%IH; [|done]. exists (S (length s) + k)%nat, rest'.
  split; [lia|]. by rewrite <- drop_drop, Ed.
Qed.

Lemma intern_ok name f off g : intern name f = (off, g) ->
(f_ok g = true -> f_ok f = true) /\ f_struct g = f_struct f
/\ (fdt_wf f -> f_ok g = true -> fdt_wf g /\ name_at (f_strings g) off name /\ exists x, f_strings g = f_strings f ++ x).
Proof.
unfold intern. destruct (intern_scan _ _ _ _) as [j|] eqn:Es.
- intros [= <- <-]. split_and!; [done..|]. intros (Ha & Ht & Hl) _. split_and!; [done..| |exists []; by rewrite app_nil_r].
  destruct (intern_scan_spec _ _ _ _ _ Ht Es) as (k & rest & -> & Ek).
  assert (k < length (f_strings f))%nat.
  { destruct (Nat.lt_ge_cases k (length (f_strings f))); [done|]. rewrite drop_ge in Ek by lia. by destruct name. }
  split; [unfold rng; lia|]. exists rest. by rewrite Z.add_0_l, Nat2Z.id.
- destruct (Z.ltb_spec 512 (Z.of_nat (length (f_strings f)) + Z.of_nat (length name) + 1)) as [|Hn];
    intros [= <- <-]; [done|].
  split_and!; [done..|]. intros (Ha & Ht & Hl) _. cbn. split_and!.
  + split_and!; [done| |].
    * right. exists (f_strings f ++ name). by rewrite app_assoc.
    * cbn. rewrite !length_app. cbn. lia.
  + split; [unfold rng; lia|]. exists []. by rewrite Nat2Z.id, drop_app_length.
  + by eexists.
Qed.

(** ** Tokens *)

Lemma wf_append bs f : (length bs mod 4 = 0)%nat -> fdt_wf f -> fdt_wf (append bs f).
Proof.
intros Hb (Ha & Hs). split; [|done]. unfold aligned in *. change (f_struct (append bs f)) with (f_struct f ++ bs).
by rewrite length_app, Nat.Div0.add_mod, Ha, Hb.
Qed.
Lemma padded_mod v : (length (padded v) mod 4 = 0)%nat.
Proof. rewrite length_padded. apply pad4_mod. Qed.

Lemma ext_end f : ext f (end_node cap f) [EEnd].
Proof.
split; [by intros [Hf _]%put_u32_ok|]. intros Hw [Hf E]%put_u32_ok. unfold end_node. rewrite E. split; [by apply wf_append|].
exists [], (wr_be 2). rewrite app_nil_r. split_and!; [done..|]. apply (enc_end _ [] []). constructor.
Qed.
Lemma ext_begin n f : nonul n -> ext f (begin_node cap n f) [EBegin n].
Proof.
intros Hn. unfold begin_node. split.
{ intros [Hok _]%writes_bytes. by apply put_u32_ok in Hok as []. }
intros Hw Hok. destruct (writes_bytes _ _ Hok) as [Hok' E]. destruct (put_u32_ok _ _ Hok') as [Hf E'].
rewrite E' in *. assert (fdt_wf (append (wr_be FDT_BEGIN_NODE) f)) as Hw' by (by apply wf_append).
destruct (E (proj1 Hw')) as [E0 _]. rewrite E0. split; [apply wf_append; [apply padded_mod|done]|].
exists [], (wr_be 1 ++ padded (n ++ [0])). rewrite app_nil_r, append_app. split_and!; [done..|].
rewrite <- (app_nil_r (padded _)). constructor; [done|constructor].
Qed.

(** A property whose value is written by [w]. *)
Lemma ext_prop_gen name v len w f : nonul name -> writes w v -> (rng 32 (Z.of_nat (length v)) -> len = Z.of_nat (length v)) ->
ext f (let '(off, g) := intern name (put_u32 cap len (put_u32 cap FDT_PROP f)) in w (put_u32 cap off g)) [EProp name v].
Proof.
intros Hn Hw Hlen. destruct (intern _ _) as [off g] eqn:Ei. destruct (intern_ok _ _ _ _ Ei) as (Hmono & Es & Hint).
assert (f_ok (w (put_u32 cap off g)) = true -> f_ok (put_u32 cap off g) = true /\ f_ok g = true
  /\ f_ok (put_u32 cap len (put_u32 cap FDT_PROP f)) = true /\ f_ok (put_u32 cap FDT_PROP f) = true /\ f_ok f = true) as Hoks.
{ intros [H1 _]%Hw. destruct (put_u32_ok _ _ H1) as [H2 _]. pose proof (Hmono H2) as H3.
  destruct (put_u32_ok _ _ H3) as [H4 _]. by destruct (put_u32_ok _ _ H4) as [H5 _]. }
split; [intros Hok; apply Hoks, Hok|]. intros Hf Hok. destruct (Hoks Hok) as (H1 & H2 & H3 & H4 & H5).
destruct (put_u32_ok _ _ H4) as [_ E4]. destruct (put_u32_ok _ _ H3) as [_ E3]. destruct (put_u32_ok _ _ H1) as [_ E1].
rewrite E3, E4, append_app in Es, Hint.
destruct Hint as (Hg & Hat & x & Ex); [by apply wf_append|done|].
assert (fdt_wf (append (wr_be off) g)) as Hg' by (by apply wf_append).
rewrite E1 in *. destruct (Hw _ Hok) as [_ [E0 Hr]]; [apply Hg'|]. rewrite E0.
split; [apply wf_append; [apply padded_mod|done]|].
exists x, (wr_be 3 ++ wr_be (Z.of_nat (length v)) ++ wr_be off ++ padded v). rewrite append_app. split_and!.
- exact Ex.
- unfold append at 1. cbn [f_struct]. rewrite Es, (Hlen Hr). unfold append. cbn [f_struct]. by rewrite <- !app_assoc.
- rewrite <- (app_nil_r (padded v)). constructor; [done..|constructor].
Qed.
Lemma ext_prop name v f : nonul name -> ext f (prop cap name v f) [EProp name v].
Proof. intros Hn. apply (ext_prop_gen name v (Z.of_nat (length v)) _ f Hn (writes_bytes v)). done. Qed.
Lemma length_cells l : length (cells l) = (4 * length l)%nat.
Proof. induction l as [|c l IH]; [done|]. unfold cells in *. cbn [flat_map]. rewrite length_app, IH. cbn [wr_be length]. lia. Qed.
Lemma ext_prop_cells name l f : nonul name -> ext f (prop_cells cap name l f) [EProp name (cells l)].
Proof.
intros Hn. apply (ext_prop_gen name (cells l) (u32 (Z.of_nat (length l) * 4)) _ f Hn (writes_cells l)).
intros Hr. rewrite length_cells in *. unfold u32. rewrite wrap_small; [lia..|]. unfold rng in *. lia.
Qed.
Lemma ext_prop_empty name f : nonul name -> ext f (prop_empty cap name f) [EProp name []].
Proof. apply ext_prop. Qed.
Lemma ext_prop_str name s f : nonul name -> ext f (prop_str cap name s f) [EProp name (str s)].
Proof. apply ext_prop. Qed.
Lemma ext_prop_u32 name v f : nonul name -> ext f (prop_u32 cap name v f) [EProp name (cells [v])].
Proof. apply ext_prop_cells. Qed.
Lemma ext_prop_reg base size f : ext f (prop_reg cap base size f) [EProp (chars "reg") (cells [0; base; 0; size])].
Proof. apply ext_prop_cells. by repeat constructor. Qed.

(** ** The parts of the tree *)

Lemma nonul_check l : forallb (fun c => negb (c =? 0)) l = true -> nonul l.
Proof. intros Hl. apply list.Forall_forall. intros c Hc. rewrite forallb_forall in Hl. specialize (Hl c). rewrite <- list_elem_of_In in Hl. specialize (Hl Hc). by destruct (Z.eqb_spec c 0). Qed.
Lemma nonul_hex_loop fuel : forall v, nonul (hex_loop fuel v).
Proof.
induction fuel as [|fuel IH]; intros v; cbn [hex_loop]; [constructor|]. apply Forall_app. split.
- destruct (_ =? _); [constructor|apply IH].
- constructor; [|constructor]. unfold hex_digit. assert (0 <= v .& 15) by (apply Z.land_nonneg; lia). zcase; lia.
Qed.
Lemma nonul_named p v : nonul p -> nonul (p ++ hex v).
Proof. intros Hp. apply Forall_app. split; [done|]. apply nonul_hex_loop. Qed.

Lemma ext_snoc f g h e1 e2 : ext g h e2 -> ext f g e1 -> ext f h (e1 ++ e2).
Proof. intros H2 H1. by eapply ext_trans. Qed.
End Build.

Create HintDb fdt.
#[export] Hint Constants Opaque : fdt.
#[export] Hint Resolve ext_prop_empty ext_prop_str ext_prop_u32 ext_prop_reg : fdt.
#[export] Hint Resolve ext_end ext_begin ext_prop ext_prop_cells nonul_named : fdt.
#[export] Hint Extern 5 (nonul (chars _)) => apply nonul_check; reflexivity : fdt.
#[export] Hint Extern 5 (nonul []) => constructor : fdt.

(** Walks back over the calls that made [g] from [f]. *)
Ltac ext_calls :=
  repeat lazymatch goal with
  | |- ext ?f ?f _ => apply ext_refl
  | |- ext ?f ?g _ => eapply ext_snoc; [solve [eauto with fdt]|]
  end.
Ltac ext_tree :=
  match goal with |- ext _ _ ?e => let e' := fresh in evar (e' : list event); replace e with e'; subst e'; [ext_calls|
    cbn [app map tree_events flat_map fst snd leaf]; rewrite <- ?app_assoc; try reflexivity] end.

Section Tree.
Context (cap : Z).
Hypothesis (Hcap : rng 32 cap).

Lemma ext_memory cfg f : ext f (build_memory cap cfg f)
(tree_events (memory_tree cfg)).
Proof. unfold build_memory. ext_tree. Qed.
Lemma ext_uart cfg f : ext f (build_uart cap cfg f) (tree_events (uart_tree cfg)).
Proof. unfold build_uart. ext_tree. Qed.
Lemma ext_test cfg f : ext f (build_test cap cfg f) (tree_events (test_tree cfg)).
Proof. unfold build_test. ext_tree. Qed.
Lemma ext_virtio base size irq f :
ext f (build_virtio cap base size irq f) (flat_map tree_events (virtio_tree base size irq)).
Proof. unfold build_virtio, virtio_tree. destruct (base =? 0); [apply ext_refl|]. ext_tree. Qed.
Lemma phandle_intc h : PHANDLE_CPU_INTC h = intc h.
Proof. unfold PHANDLE_CPU_INTC, u32, wrap. by rewrite Z.land_ones. Qed.
Lemma ext_cpu cfg f h : ext f (build_cpu cap cfg f h) (tree_events (cpu_tree cfg h)).
Proof. unfold build_cpu. rewrite phandle_intc. ext_tree. Qed.
Lemma ext_chosen cfg f : ext f (build_chosen cap cfg f) (tree_events (chosen_tree cfg)).
Proof. unfold build_chosen, chosen_tree. destruct (_ <? _); ext_tree. Qed.
Lemma harts_count cfg : 0 <= cfg_nharts cfg -> harts_of cfg = count cfg.
Proof. unfold harts_of, count. destruct (Z.eqb_spec (cfg_nharts cfg) 0); lia. Qed.
Lemma ext_cpus cfg f : 0 <= cfg_nharts cfg -> ext f (build_cpus cap cfg f) (tree_events (cpus_tree cfg)).
Proof.
intros Hn. pose proof (ext_foldl (build_cpu cap cfg) _ (zseq 0 (Z.to_nat (harts_of cfg))) (ext_cpu cfg)) as Hloop.
unfold build_cpus. ext_tree. unfold cpus_tree. cbn [tree_events map app fst snd]. rewrite (harts_count cfg Hn).
by rewrite flat_map_concat_map, (flat_map_concat_map _ (map _ _)), map_map.
Qed.

(** *** The interrupt cells *)

(** For up to [QUANTA_MAX_HARTS] harts both loops stay in the array and leave the wiring in it. *)
Lemma fill_irqs_wires n : 1 <= n <= QUANTA_MAX_HARTS -> exists a b,
fill_irqs n 3 7 irqs_uninit = Some a /\ take (Z.to_nat (4 * n)) a = wires n [3; 7]
/\ fill_irqs n 11 9 a = Some b /\ take (Z.to_nat (4 * n)) b = wires n [11; 9].
Proof.
unfold QUANTA_MAX_HARTS. intros Hn.
assert (n = 1 \/ n = 2 \/ n = 3 \/ n = 4 \/ n = 5 \/ n = 6 \/ n = 7 \/ n = 8) as Hc by lia.
destruct Hc as [->|[->|[->|[->|[->|[->|[-> | ->]]]]]]];
  (eexists _, _; split; [vm_compute; reflexivity|]; split; [vm_compute; reflexivity|]; split; vm_compute; reflexivity).
Qed.
(** With more, the first loop writes past the end of it. *)
Lemma fill_irqs_overrun n : QUANTA_MAX_HARTS < n -> fill_irqs n 3 7 irqs_uninit = None.
Proof.
unfold QUANTA_MAX_HARTS. intros Hn. unfold fill_irqs. replace (Z.to_nat n) with (9 + (Z.to_nat n - 9))%nat by lia.
rewrite zseq_app, foldl_app.
assert (forall g l, foldl (fun (r : option (list Z)) (h : Z) => r ≫= g h) None l = None) as Hl by (induction l; done).
etransitivity; [|apply (Hl (fun h irqs => hart_irqs 3 7 irqs h))]. f_equal.
Qed.

#[local] Hint Resolve ext_memory ext_uart ext_test ext_virtio ext_chosen ext_cpus : fdt.
Lemma ext_soc cfg f : 0 <= cfg_nharts cfg <= QUANTA_MAX_HARTS ->
exists g, build_soc cap cfg f = Some g /\ ext f g (tree_events (soc_tree cfg)).
Proof.
intros Hn. assert (1 <= count cfg <= QUANTA_MAX_HARTS) as Hc by (unfold count, QUANTA_MAX_HARTS in *; lia).
destruct (fill_irqs_wires _ Hc) as (a & b & Ea & Ta & Eb & Tb).
unfold build_soc, build_clint, build_plic. rewrite (harts_count cfg) by lia. cbv zeta. rewrite Ea. cbn [mbind option_bind fst snd].
rewrite Eb. cbn [mbind option_bind]. rewrite Ta, Tb. eexists. split; [reflexivity|].
ext_tree. unfold soc_tree. cbn [tree_events map app fst snd flat_map].
by rewrite !flat_map_app, <- !app_assoc.
Qed.
Lemma soc_overrun cfg f : QUANTA_MAX_HARTS < cfg_nharts cfg -> build_soc cap cfg f = None.
Proof.
intros Hn. unfold build_soc, build_clint. rewrite (harts_count cfg), fill_irqs_overrun; [done|..];
  unfold count, QUANTA_MAX_HARTS in *; lia.
Qed.

Lemma build_root_encodes cfg : 0 <= cfg_nharts cfg <= QUANTA_MAX_HARTS ->
exists g, build_root cap cfg (mkFdt [] [] true) = Some g /\ (f_ok g = true ->
(length (f_strings g) <= 512)%nat
/\ exists bs, f_struct g = bs ++ wr_be 9 /\ encodes (f_strings g) (tree_events (machine_tree cfg)) bs).
Proof.
intros Hn. unfold build_root. cbv zeta. set (f0 := mkFdt [] [] true).
match goal with |- context [build_soc cap cfg ?f] => destruct (ext_soc cfg f Hn) as (h & -> & Hs) end.
cbn [mbind option_bind]. eexists. split; [reflexivity|]. assert (0 <= cfg_nharts cfg) as H0 by lia.
match goal with |- f_ok (put_u32 cap FDT_END ?g) = true -> _ => assert (ext f0 g (tree_events (machine_tree cfg))) as [Hm He] end.
{ ext_tree. unfold machine_tree. cbn [tree_events map app fst snd flat_map]. by rewrite <- !app_assoc. }
intros [Hok E]%put_u32_ok. destruct He as ((_ & _ & Hl) & x & bs & _ & Eb & He); [by repeat constructor|done|].
rewrite E. split; [done|]. exists bs. split; [|done]. unfold append. cbn [f_struct]. by rewrite Eb.
Qed.
End Tree.

Lemma encodes_length strs evs bs : encodes strs evs bs -> (length evs <= length bs)%nat.
Proof. induction 1; cbn [length]; rewrite ?length_app; cbn [length wr_be]; lia. Qed.

(** ** The blob is made of bytes *)

Section Bytes.
Context (cap : Z).
Definition fdt_bytes (f : Fdt) : Prop := bytes (f_struct f) /\ bytes (f_strings f).

Lemma bytes_app a b : bytes a -> bytes b -> bytes (a ++ b).
Proof. intros. by apply Forall_app. Qed.
Lemma bytes_wr_be v : bytes (wr_be v).
Proof. repeat constructor; apply u8_rng. Qed.
Lemma bytes_nul : bytes [0].
Proof. by apply bytes_forallb. Qed.
Lemma fdt_bytes_append bs f : bytes bs -> fdt_bytes f -> fdt_bytes (append bs f).
Proof. intros ? []. split; [by apply bytes_app|done]. Qed.
Lemma fdt_bytes_u32 v f : fdt_bytes f -> fdt_bytes (put_u32 cap v f).
Proof. unfold put_u32. destruct (_ <? _); [done|]. apply fdt_bytes_append, bytes_wr_be. Qed.
Lemma fdt_bytes_put bs f : bytes bs -> fdt_bytes f -> fdt_bytes (fdt_put_bytes cap bs f).
Proof. unfold fdt_put_bytes. destruct (bool_decide _); [done|]. destruct (_ <? _); [done|]. apply fdt_bytes_append. Qed.
Lemma fdt_bytes_pad fuel : forall f, fdt_bytes f -> fdt_bytes (pad_loop cap fuel f).
Proof.
induction fuel as [|fuel IH]; intros f Hf; cbn [pad_loop]; [done|]. destruct (_ =? _); [done|]. destruct (_ <? _); [done|].
apply IH, fdt_bytes_append; [apply bytes_nul|done].
Qed.
Lemma fdt_bytes_intern name f off g : bytes name -> fdt_bytes f -> intern name f = (off, g) -> fdt_bytes g.
Proof.
intros Hn [Hs Ht]. unfold intern. destruct (intern_scan _ _ _ _); [by intros [= _ <-]|].
destruct (_ <? _); intros [= _ <-]; [done|]. split; [done|]. apply bytes_app; [done|]. apply bytes_app; [done|apply bytes_nul].
Qed.
Lemma fdt_bytes_end f : fdt_bytes f -> fdt_bytes (end_node cap f).
Proof. apply fdt_bytes_u32. Qed.
Lemma fdt_bytes_begin n f : bytes n -> fdt_bytes f -> fdt_bytes (begin_node cap n f).
Proof.
intros Hn Hf. apply fdt_bytes_pad, fdt_bytes_put; [|by apply fdt_bytes_u32]. apply bytes_app; [done|apply bytes_nul].
Qed.
Lemma fdt_bytes_prop name v f : bytes name -> bytes v -> fdt_bytes f -> fdt_bytes (prop cap name v f).
Proof.
intros Hn Hv Hf. unfold prop. destruct (intern _ _) as [off g] eqn:E.
apply fdt_bytes_pad, fdt_bytes_put; [done|]. apply fdt_bytes_u32. refine (fdt_bytes_intern _ _ _ _ Hn _ E).
by do 2 apply fdt_bytes_u32.
Qed.
Lemma fdt_bytes_prop_str name v f : bytes name -> bytes v -> fdt_bytes f -> fdt_bytes (prop_str cap name v f).
Proof. intros ? ? ?. apply fdt_bytes_prop; [done| |done]. apply bytes_app; [done|apply bytes_nul]. Qed.
Lemma fdt_bytes_prop_empty name f : bytes name -> fdt_bytes f -> fdt_bytes (prop_empty cap name f).
Proof. intros ? ?. apply fdt_bytes_prop; [done|constructor|done]. Qed.
Lemma fdt_bytes_prop_cells name l f : bytes name -> fdt_bytes f -> fdt_bytes (prop_cells cap name l f).
Proof.
intros Hn Hf. unfold prop_cells. destruct (intern _ _) as [off g] eqn:E. apply fdt_bytes_pad.
assert (fdt_bytes (put_u32 cap off g)) as Hg.
{ apply fdt_bytes_u32. refine (fdt_bytes_intern _ _ _ _ Hn _ E). by do 2 apply fdt_bytes_u32. }
clear -Hg. revert Hg. generalize (put_u32 cap off g). induction l as [|c l IH]; intros f' Hf'; [done|]. by apply IH, fdt_bytes_u32.
Qed.
Lemma fdt_bytes_prop_u32 name v f : bytes name -> fdt_bytes f -> fdt_bytes (prop_u32 cap name v f).
Proof. apply fdt_bytes_prop_cells. Qed.
Lemma bytes_hex v : bytes (hex v).
Proof.
unfold hex. generalize 8%nat. intros n. revert v. induction n as [|n IH]; intros v; cbn [hex_loop]; [constructor|].
apply bytes_app; [destruct (_ =? _); [constructor|apply IH]|]. constructor; [|constructor].
assert (rng 4 (v .& 15)) by (apply land_rng_r; [lia|by apply rng_const]). unfold hex_digit, rng in *. zcase; lia.
Qed.
Lemma fdt_bytes_prop_reg b s f : fdt_bytes f -> fdt_bytes (prop_reg cap b s f).
Proof. apply fdt_bytes_prop_cells. apply bytes_forallb. reflexivity. Qed.
End Bytes.

#[export] Hint Resolve bytes_app bytes_hex fdt_bytes_end fdt_bytes_begin fdt_bytes_prop fdt_bytes_prop_str fdt_bytes_prop_empty
  fdt_bytes_prop_cells fdt_bytes_prop_u32 fdt_bytes_prop_reg : fdt.
#[export] Hint Extern 5 (bytes (chars _)) => apply bytes_forallb; reflexivity : fdt.
#[export] Hint Extern 5 (bytes []) => constructor : fdt.
#[export] Hint Extern 5 (bytes [0]) => apply bytes_nul : fdt.

(** The strings a configuration carries are bytes. *)
Definition config_bytes (cfg : DtbConfig) : Prop :=
  bytes (cfg_isa cfg) /\ bytes (cfg_mmu_type cfg) /\ bytes (default [] (cfg_bootargs cfg)).

Lemma soc_bytes cap cfg f g : fdt_bytes f -> build_soc cap cfg f = Some g -> fdt_bytes g.
Proof.
  assert (forall base size irq f, fdt_bytes f -> fdt_bytes (build_virtio cap base size irq f)) as Hv.
  { intros. unfold build_virtio. destruct (_ =? 0); eauto 20 with fdt. }
  intros Hf. unfold build_soc, build_clint, build_plic, build_test, build_uart. cbv zeta.
  destruct (fill_irqs _ 3 7 _) as [a|]; cbn [mbind option_bind fst snd]; [|done].
  destruct (fill_irqs _ 11 9 _) as [b|]; cbn [mbind option_bind]; [|done].
  intros E. apply (inj Some) in E. rewrite <- E. clear E. eauto 60 with fdt.
Qed.

Lemma root_bytes cap cfg g : config_bytes cfg -> build_root cap cfg (mkFdt [] [] true) = Some g -> fdt_bytes g.
Proof.
  intros (Hi & Hm & Hb). assert (fdt_bytes (mkFdt [] [] true)) as H0 by (split; constructor).
  assert (forall f, fdt_bytes f -> fdt_bytes (build_cpus cap cfg f)) as Hc.
  { intros f Hf. unfold build_cpus. apply fdt_bytes_end.
    assert (forall l f, fdt_bytes f -> fdt_bytes (foldl (build_cpu cap cfg) f l)) as Hl.
    { induction l as [|h l IH]; intros f0 Hf0; [done|]. apply IH. unfold build_cpu. eauto 20 with fdt. }
    apply Hl. eauto 20 with fdt. }
  assert (forall f, fdt_bytes f -> fdt_bytes (build_chosen cap cfg f)) as Hch.
  { intros f Hf. unfold build_chosen. destruct (_ <? _); eauto 20 with fdt. }
  unfold build_root, build_memory. cbv zeta.
  match goal with |- context [build_soc cap cfg ?f] => assert (fdt_bytes f) as Hf by eauto 40 with fdt;
    destruct (build_soc cap cfg f) as [h|] eqn:E; [|done] end.
  cbn [mbind option_bind]. intros E'. apply (inj Some) in E'. rewrite <- E'.
  apply fdt_bytes_u32, fdt_bytes_end. by eapply soc_bytes.
Qed.

(** A blob and the builder's final state. *)
Lemma dtb_build_blob cap cfg blob : dtb_build cap cfg = Blob blob -> exists f,
  build_root cap cfg (mkFdt [] [] true) = Some f /\ f_ok f = true
  /\ spos f + Z.of_nat (length (f_strings f)) <= cap
  /\ blob = fdt_header (u32 (spos f + Z.of_nat (length (f_strings f)))) (u32 (spos f)) (cfg_boot_hart cfg)
              (u32 (Z.of_nat (length (f_strings f)))) (u32 (Z.of_nat (length (f_struct f))))
            ++ repeat 0 16 ++ f_struct f ++ f_strings f.
Proof.
  unfold dtb_build. destruct (_ <? _); [done|]. destruct (build_root _ _ _) as [f|]; [|done].
  destruct (f_ok f) eqn:Ho; [|done]. cbn [negb].
  destruct (Z.ltb_spec cap (spos f + Z.of_nat (length (f_strings f)))); [done|].
  intros E. exists f. split_and!; [done..|]. by inversion E.
Qed.

Lemma dtb_build_bytes cap cfg blob : config_bytes cfg -> dtb_build cap cfg = Blob blob -> bytes blob.
Proof.
  intros Hc (f & Ef & _ & _ & ->)%dtb_build_blob. destruct (root_bytes _ _ _ Hc Ef). unfold fdt_header.
  repeat (apply bytes_app || apply bytes_wr_be); [|done..]. apply bytes_forallb. reflexivity.
Qed.

(** ** The round trip *)

Lemma length_wr_be v : length (wr_be v) = 4%nat.
Proof. done. Qed.

(** A blob assembled from its blocks the way the builder does it. *)
Lemma read_blob boot bs strs t : rng 32 boot -> encodes strs (tree_events t) bs ->
  let st := bs ++ wr_be 9 in let off := STRUCT_OFF + Z.of_nat (length st) in
  let total := off + Z.of_nat (length strs) in rng 32 total ->
  read (fdt_header total off boot (Z.of_nat (length strs)) (Z.of_nat (length st)) ++ repeat 0 16 ++ st ++ strs) = Some (boot, t).
Proof.
  intros Hb He. cbn zeta. remember (bs ++ wr_be 9) as st eqn:Est. intros Ht.
  set (total := STRUCT_OFF + Z.of_nat (length st) + Z.of_nat (length strs)) in *.
  set (off := STRUCT_OFF + Z.of_nat (length st)) in *.
  assert (rng 32 off /\ rng 32 (Z.of_nat (length strs)) /\ rng 32 (Z.of_nat (length st))) as (Ho & Hs & Hst).
  { unfold total, off, STRUCT_OFF, rng in *. lia. }
  set (blob := fdt_header _ _ _ _ _ ++ _).
  assert (length blob = Z.to_nat total) as El.
  { unfold blob, fdt_header. rewrite !length_app, !length_wr_be, repeat_length. unfold total, off, STRUCT_OFF. lia. }
  assert (drop 40 blob = repeat 0 16 ++ st ++ strs) as E40 by reflexivity.
  assert (drop 56 blob = st ++ strs) as E56 by reflexivity.
  pose proof (be32_wr_be FDT_MAGIC (drop 4 blob) ltac:(by apply rng_const)) as E0.
  change (wr_be FDT_MAGIC ++ drop 4 blob) with blob in E0.
  assert (drop 4 blob = wr_be total ++ wr_be STRUCT_OFF ++ wr_be off ++ wr_be 40 ++ wr_be FDT_VERSION ++ wr_be FDT_LAST_COMP
    ++ wr_be boot ++ wr_be (Z.of_nat (length strs)) ++ wr_be (Z.of_nat (length st)) ++ drop 40 blob) as E4 by reflexivity.
  unfold read. rewrite E0. cbn [mbind option_bind]. rewrite E4.
  do 9 (rewrite be32_wr_be by first [assumption | by apply rng_const]; cbn [mbind option_bind]).
  rewrite El, Z2Nat.id by (unfold rng in Ht; lia).
  change (Z.to_nat STRUCT_OFF) with 56%nat. change (Z.to_nat 40) with 40%nat. rewrite E40, E56.
  rewrite (bool_decide_eq_true_2 (take 16 _ = _)) by reflexivity.
  rewrite !Nat2Z.id, take_app_length.
  assert (drop (Z.to_nat off) blob = strs) as Estr.
  { replace (Z.to_nat off) with (56 + length st)%nat by (unfold off, STRUCT_OFF; lia).
    by rewrite <- drop_drop, E56, drop_app_length. }
  rewrite Estr, take_ge by lia. unfold total, off.
  change (16 <=? FDT_VERSION) with true. rewrite !Z.eqb_refl, !(proj2 (Z.leb_le _ _)) by lia.
  change (FDT_LAST_COMP =? 16) with true. change (STRUCT_OFF mod 4 =? 0) with true. change (40 mod 8 =? 0) with true.
  change (FDT_MAGIC =? 0xd00dfeed) with true. cbn [andb].
  pose proof (encodes_length _ _ _ He). rewrite Est, (read_events_spec strs (tree_events t)) by (done || (rewrite length_app, length_wr_be; lia)).
  cbn [mbind option_bind]. pose proof (read_nodes_spec (S (length (tree_events t))) [t] []) as Hn.
  cbn [flat_map] in Hn. rewrite !app_nil_r in Hn. rewrite Hn; [done| |done].
  unfold forest_size. cbn. pose proof (tree_size_events t). lia.
Qed.

Lemma dtb_blob_length cap cfg blob : dtb_build cap cfg = Blob blob -> 0 < Z.of_nat (length blob) <= cap.
Proof.
  intros (f & _ & _ & Hfit & ->)%dtb_build_blob. unfold fdt_header. rewrite !length_app, !length_wr_be, repeat_length.
  unfold spos, STRUCT_OFF in Hfit. lia.
Qed.

(** The array of interrupt cells is overrun exactly when there are too many harts for it. *)
Lemma dtb_build_overrun cap cfg : rng 32 cap -> 0 <= cfg_nharts cfg ->
  dtb_build cap cfg = Overrun <-> STRUCT_OFF <= cap /\ QUANTA_MAX_HARTS < cfg_nharts cfg.
Proof.
  intros Hcap Hn. unfold dtb_build. destruct (Z.ltb_spec cap STRUCT_OFF); [split; [done|lia]|].
  destruct (decide (QUANTA_MAX_HARTS < cfg_nharts cfg)) as [Hm|Hm].
  - unfold build_root. cbv zeta. rewrite soc_overrun by done. cbn [mbind option_bind]. split; [done|done].
  - destruct (build_root_encodes cap Hcap cfg ltac:(lia)) as (f & -> & _).
    destruct (negb _); [split; [done|lia]|]. cbv zeta. destruct (_ <? _); split; done || lia.
Qed.

(** Reading what the builder writes. *)
Lemma read_built cap cfg blob : rng 32 cap -> rng 32 (cfg_boot_hart cfg) -> 0 <= cfg_nharts cfg ->
  dtb_build cap cfg = Blob blob -> read blob = Some (cfg_boot_hart cfg, machine_tree cfg).
Proof.
  intros Hcap Hb Hn E. destruct (dtb_build_blob _ _ _ E) as (f & Ef & Hok & Hfit & ->).
  assert (cfg_nharts cfg <= QUANTA_MAX_HARTS) as Hm.
  { destruct (decide (QUANTA_MAX_HARTS < cfg_nharts cfg)) as [Hm|Hm]; [|lia].
    unfold build_root in Ef. cbv zeta in Ef. by rewrite soc_overrun in Ef. }
  destruct (build_root_encodes cap Hcap cfg ltac:(lia)) as (f' & Ef' & Hf'). rewrite Ef in Ef'. apply (inj Some) in Ef'. subst f'.
  destruct (Hf' Hok) as (Hl & bs & Ebs & He).
  unfold spos in *. rewrite Ebs in *. unfold u32, STRUCT_OFF in *.
  rewrite !wrap_small by (try done; unfold rng in *; lia). apply read_blob; [done..|]. unfold rng, STRUCT_OFF in *. lia.
Qed.

(** C22 [dtb_roundtrip]: for any configuration and any 32-bit capacity, [dtb_build] stays
    inside its array of interrupt cells exactly when the configuration has at most
    [QUANTA_MAX_HARTS] harts (or the buffer cannot even hold the header), and the blob it
    then writes fits the buffer and is a well-formed flattened device tree: a reader that
    follows the published format recovers from it the boot hart and exactly the tree of
    that machine, with one [cpu@] node per hart, the memory node, the CLINT wired to lines 3
    and 7 and the PLIC to lines 11 and 9 of each hart's interrupt controller, the UART, the
    virtio windows that are present and the test device. *)
Theorem dtb_build_reads_back cap cfg : rng 32 cap -> rng 32 (cfg_boot_hart cfg) -> rng 32 (cfg_nharts cfg) ->
  (dtb_build cap cfg = Overrun <-> 56 <= cap /\ 8 < cfg_nharts cfg)
  /\ forall blob, dtb_build cap cfg = Blob blob ->
       Z.of_nat (length blob) <= cap /\ Fdt_spec.read blob = Some (cfg_boot_hart cfg, Fdt_spec.machine_tree cfg).
Proof.
  intros Hcap Hb [Hn _]. split; [by apply dtb_build_overrun|]. intros blob E.
  split; [by eapply dtb_blob_length|by apply (read_built cap)].
Qed.

Definition two_harts : DtbConfig :=
  mkDtbConfig 0x80000000 0x8000000 0x100000 0x1000 0x2000000 0x10000 0xc000000 0x400000 0x10000000 0x100 10
    31 1 2 10000000 (chars "rv64imac") (chars "riscv,sv39") (Some (chars "quiet")) 0x84000000 0x84100000
    0x10008000 0x1000 8 0 0 0.

Lemma dtb_build_reads_back_witness : exists blob, dtb_build DTB_MAX_SIZE two_harts = Blob blob
  /\ Fdt_spec.read blob = Some (1, Fdt_spec.machine_tree two_harts).
Proof.
  destruct (dtb_build DTB_MAX_SIZE two_harts) as [blob| |] eqn:E; [|by vm_compute in E..].
  exists blob. split; [done|].
  refine (proj2 (proj2 (dtb_build_reads_back DTB_MAX_SIZE two_harts _ _ _) blob E)); by apply rng_const.
Defined.
