(* ===== verification/Engine.v ===== *)
(** * The engine ([src/quanta.h], [src/quanta.c])

    The handle that owns a machine: bring-up and boot handoff, the round-robin scheduler,
    machine-level halting, snapshots and their file format, and the accessors a host
    program uses.

    A handle is never NULL here.  Host files are arguments: [None] is a file that cannot
    be opened or read.  Allocation succeeds, except that [alloc] says whether the
    guest's memory could be allocated.  The JIT is that of a host without a code generator
    ([src/jit.c], the branches where [QUANTA_JIT_X86] is not defined). *)

From Stdlib Require Import Strings.String.
From S2P Require Import Prelude Decode Device DeviceInv Memory Cache Softfloat Cpu Mmu See Trap Alu Exec Fpu Step Elf Dtb.

(** ** Data *)

(** [src/quanta.h 46-52] QuantaStatus *)
Inductive QuantaStatus := QUANTA_OK | QUANTA_ERR_NOMEM | QUANTA_ERR_LOAD | QUANTA_ERR_RANGE | QUANTA_ERR_INVAL.

(** [src/quanta.h 55-64] QuantaHalt *)
Inductive QuantaHalt :=
| QUANTA_RUN
| QUANTA_HALT_EXIT
| QUANTA_HALT_EBREAK
| QUANTA_HALT_ILLEGAL_INSN
| QUANTA_HALT_UNIMP_SYSTEM
| QUANTA_HALT_UNKNOWN_SYSCALL
| QUANTA_HALT_MEM_FAULT
| QUANTA_HALT_STEP_LIMIT.

#[export] Instance QuantaStatus_eq_dec : EqDecision QuantaStatus.
Proof. solve_decision. Defined.

(** [src/quanta.c 25-25] QUANTA_DEFAULT_MAX_STEPS *)
Definition QUANTA_DEFAULT_MAX_STEPS : Z := 100 * 1000 * 1000.
(** [src/quanta.c 295-295] FW_DYNAMIC_MAGIC *)
Definition FW_DYNAMIC_MAGIC : Z := 0x4942534f.
(** [src/quanta.c 298-298] FW_DTB_HEADROOM *)
Definition FW_DTB_HEADROOM : Z := 0x200000.
(** [src/quanta.c 375-375] KERNEL_LOAD_OFFSET *)
Definition KERNEL_LOAD_OFFSET : Z := 0x200000.

(** The harts, memory, platform, cache model, decode caches and JIT are the [World];
    [q_jit] tells whether the [jit] pointer is set.
    [src/quanta.c 35-55] Quanta *)
Record Quanta := mkQuanta {
  q_world : World;
  q_nharts : Z;
  q_sched : Z;
  q_m_halted : bool;
  q_m_reason : HaltReason;
  q_m_exit : Z;
  q_dtb_addr : Z;
  q_cache_on : bool;
  q_dcache_on : bool;
  q_jit_on : bool;
  q_jit : bool;
  q_loaded : bool;
  q_netdev_advertised : bool;
  q_disk_advertised : bool
}.
Definition set_q_world (v : World) (r : Quanta) : Quanta :=
  mkQuanta v (q_nharts r) (q_sched r) (q_m_halted r) (q_m_reason r) (q_m_exit r) (q_dtb_addr r) (q_cache_on r) (q_dcache_on r) (q_jit_on r) (q_jit r) (q_loaded r) (q_netdev_advertised r) (q_disk_advertised r).
Definition set_q_nharts (v : Z) (r : Quanta) : Quanta :=
  mkQuanta (q_world r) v (q_sched r) (q_m_halted r) (q_m_reason r) (q_m_exit r) (q_dtb_addr r) (q_cache_on r) (q_dcache_on r) (q_jit_on r) (q_jit r) (q_loaded r) (q_netdev_advertised r) (q_disk_advertised r).
Definition set_q_sched (v : Z) (r : Quanta) : Quanta :=
  mkQuanta (q_world r) (q_nharts r) v (q_m_halted r) (q_m_reason r) (q_m_exit r) (q_dtb_addr r) (q_cache_on r) (q_dcache_on r) (q_jit_on r) (q_jit r) (q_loaded r) (q_netdev_advertised r) (q_disk_advertised r).
Definition set_q_m_halted (v : bool) (r : Quanta) : Quanta :=
  mkQuanta (q_world r) (q_nharts r) (q_sched r) v (q_m_reason r) (q_m_exit r) (q_dtb_addr r) (q_cache_on r) (q_dcache_on r) (q_jit_on r) (q_jit r) (q_loaded r) (q_netdev_advertised r) (q_disk_advertised r).
Definition set_q_m_reason (v : HaltReason) (r : Quanta) : Quanta :=
  mkQuanta (q_world r) (q_nharts r) (q_sched r) (q_m_halted r) v (q_m_exit r) (q_dtb_addr r) (q_cache_on r) (q_dcache_on r) (q_jit_on r) (q_jit r) (q_loaded r) (q_netdev_advertised r) (q_disk_advertised r).
Definition set_q_m_exit (v : Z) (r : Quanta) : Quanta :=
  mkQuanta (q_world r) (q_nharts r) (q_sched r) (q_m_halted r) (q_m_reason r) v (q_dtb_addr r) (q_cache_on r) (q_dcache_on r) (q_jit_on r) (q_jit r) (q_loaded r) (q_netdev_advertised r) (q_disk_advertised r).
Definition set_q_dtb_addr (v : Z) (r : Quanta) : Quanta :=
  mkQuanta (q_world r) (q_nharts r) (q_sched r) (q_m_halted r) (q_m_reason r) (q_m_exit r) v (q_cache_on r) (q_dcache_on r) (q_jit_on r) (q_jit r) (q_loaded r) (q_netdev_advertised r) (q_disk_advertised r).
Definition set_q_cache_on (v : bool) (r : Quanta) : Quanta :=
  mkQuanta (q_world r) (q_nharts r) (q_sched r) (q_m_halted r) (q_m_reason r) (q_m_exit r) (q_dtb_addr r) v (q_dcache_on r) (q_jit_on r) (q_jit r) (q_loaded r) (q_netdev_advertised r) (q_disk_advertised r).
Definition set_q_dcache_on (v : bool) (r : Quanta) : Quanta :=
  mkQuanta (q_world r) (q_nharts r) (q_sched r) (q_m_halted r) (q_m_reason r) (q_m_exit r) (q_dtb_addr r) (q_cache_on r) v (q_jit_on r) (q_jit r) (q_loaded r) (q_netdev_advertised r) (q_disk_advertised r).
Definition set_q_jit_on (v : bool) (r : Quanta) : Quanta :=
  mkQuanta (q_world r) (q_nharts r) (q_sched r) (q_m_halted r) (q_m_reason r) (q_m_exit r) (q_dtb_addr r) (q_cache_on r) (q_dcache_on r) v (q_jit r) (q_loaded r) (q_netdev_advertised r) (q_disk_advertised r).
Definition set_q_jit (v : bool) (r : Quanta) : Quanta :=
  mkQuanta (q_world r) (q_nharts r) (q_sched r) (q_m_halted r) (q_m_reason r) (q_m_exit r) (q_dtb_addr r) (q_cache_on r) (q_dcache_on r) (q_jit_on r) v (q_loaded r) (q_netdev_advertised r) (q_disk_advertised r).
Definition set_q_loaded (v : bool) (r : Quanta) : Quanta :=
  mkQuanta (q_world r) (q_nharts r) (q_sched r) (q_m_halted r) (q_m_reason r) (q_m_exit r) (q_dtb_addr r) (q_cache_on r) (q_dcache_on r) (q_jit_on r) (q_jit r) v (q_netdev_advertised r) (q_disk_advertised r).
Definition set_q_netdev_advertised (v : bool) (r : Quanta) : Quanta :=
  mkQuanta (q_world r) (q_nharts r) (q_sched r) (q_m_halted r) (q_m_reason r) (q_m_exit r) (q_dtb_addr r) (q_cache_on r) (q_dcache_on r) (q_jit_on r) (q_jit r) (q_loaded r) v (q_disk_advertised r).
Definition set_q_disk_advertised (v : bool) (r : Quanta) : Quanta :=
  mkQuanta (q_world r) (q_nharts r) (q_sched r) (q_m_halted r) (q_m_reason r) (q_m_exit r) (q_dtb_addr r) (q_cache_on r) (q_dcache_on r) (q_jit_on r) (q_jit r) (q_loaded r) (q_netdev_advertised r) v.

(** Operations of the machine, of its bus, and on a field of one hart. *)
Definition machine {A} (m : st World A) : st Quanta A :=
  fun q => let '(a, w) := m (q_world q) in (a, set_q_world w q).
Definition on_bus {A} (m : st Bus A) : st Quanta A := machine (bus m).
Definition on_hart (i : Z) (f : CPU -> CPU) : st Quanta unit := machine (cpu_upd i f).
Definition the_bus (q : Quanta) : Bus := w_bus (q_world q).
Definition the_plat (q : Quanta) : Platform := b_plat (the_bus q).
Definition the_hart (i : Z) (q : Quanta) : CPU := hart i (q_world q).

(** [src/quanta.c 58-69] map_halt *)
Definition map_halt (r : HaltReason) : QuantaHalt :=
  match r with
  | HALT_NONE => QUANTA_RUN
  | HALT_EXIT => QUANTA_HALT_EXIT
  | HALT_EBREAK => QUANTA_HALT_EBREAK
  | HALT_ILLEGAL_INSN => QUANTA_HALT_ILLEGAL_INSN
  | HALT_UNIMP_SYSTEM => QUANTA_HALT_UNIMP_SYSTEM
  | HALT_UNKNOWN_SYSCALL => QUANTA_HALT_UNKNOWN_SYSCALL
  | HALT_MEM_FAULT => QUANTA_HALT_MEM_FAULT
  end.

(** The offset into the RAM array of [len] bytes at [addr], or [None] for
    [QUANTA_ERR_RANGE].
    [src/quanta.c 73-81] in_range *)
Definition in_range (b : Bus) (addr len : Z) : option Z :=
  if (addr <? b_base b) || (b_size b <? len) || (u64 (b_size b - len) <? u64 (addr - b_base b)) then None
  else Some (u64 (addr - b_base b)).

(** ** Configuration *)

Definition Cache0 : Cache := mkCache 0 0 0 0 0 ∅ 0 0 0 0 0.
(** The zeroed machine of [calloc]. *)
Definition World0 : World := mkWorld ∅ (mkBus ∅ 0 0 false 0 false
  (mkPlatform Clint0 Uart0 Plic0 Virtio0 VirtioNet0 Disk0 false 0 false 0 0 false 0) []) Cache0 ∅ (mkJit 0 0).

(** [src/quanta.c 83-88] quanta_create *)
Definition quanta_create : Quanta :=
  mkQuanta World0 1 0 false HALT_NONE 0 0 false true false false false false false.

(** [src/jit.c 96-97] jit_available *)
Definition jit_available : bool := false.
(** [src/jit.c 110-111] jit_new *)
Definition jit_new : option Jit := None.
(** [src/jit.c 663-666] jit_run *)
Definition jit_run (max_steps : Z) : st World Z := mret 0.

(** [src/quanta.c 96-102] attach_dcaches *)
Definition attach_dcache (on : bool) (i : Z) (w : World) : World :=
  if on then
    let d := default dcache_new (w_dcaches w !! i) in
    upd_hart i (set_c_dcache true) (set_w_dcaches (<[i := dcache_flush d]> (w_dcaches w)) w)
  else upd_hart i (set_c_dcache false) w.
(** [src/quanta.c 94-104] attach_dcaches *)
Definition attach_dcaches : st Quanta unit :=
  q ← gets id;
  for_ (Z.to_nat (q_nharts q)) 0 (fun i => machine (modify (attach_dcache (q_dcache_on q) i))).

(** [src/quanta.c 112-118] attach_jit *)
Definition attach_jit : st Quanta unit :=
  q ← gets id;
  let want := q_jit_on q && (q_nharts q =? 1) in
  when (want && negb (q_jit q))
    match jit_new with
    | None => mret tt
    | Some j => machine (modify (set_w_jit j)) ;; modify (set_q_jit true)
    end ;;
  jit ← gets q_jit;
  when (jit : bool) (machine (modify (fun w => set_w_jit (jit_flush (w_jit w)) w))) ;;
  for_ (Z.to_nat (q_nharts q)) 0 (fun i => on_hart i (set_c_jit (want && (i =? 0) && jit))).

(** [src/quanta.c 120-125] quanta_set_harts *)
Definition quanta_set_harts (n : Z) : st Quanta QuantaStatus :=
  q ← gets id;
  if q_loaded q then mret QUANTA_ERR_INVAL
  else if (n <? 1) || (QUANTA_MAX_HARTS <? n) then mret QUANTA_ERR_INVAL
  else modify (set_q_nharts n) ;; mret QUANTA_OK.

(** [src/quanta.c 127-131] quanta_set_dcache *)
Definition quanta_set_dcache (on : bool) : st Quanta unit :=
  modify (set_q_dcache_on on) ;;
  q ← gets id;
  when (q_loaded q) attach_dcaches.

(** [src/quanta.c 133-139] quanta_set_jit *)
Definition quanta_set_jit (on : bool) : st Quanta QuantaStatus :=
  if on && negb jit_available then mret QUANTA_ERR_INVAL
  else
    modify (set_q_jit_on on) ;;
    q ← gets id;
    when (q_loaded q) attach_jit ;;
    mret QUANTA_OK.

(** [src/quanta.c 578-580] quanta_set_netdev_advertised *)
Definition quanta_set_netdev_advertised (on : bool) : st Quanta unit := modify (set_q_netdev_advertised on).
(** [src/quanta.c 582-584] quanta_set_disk_advertised *)
Definition quanta_set_disk_advertised (on : bool) : st Quanta unit := modify (set_q_disk_advertised on).

(** [None]: the geometry makes [cache_init] divide by zero.
    [src/quanta.c 494-504] quanta_enable_cache *)
Definition quanta_enable_cache (size_bytes assoc block_size : Z) : st Quanta (option QuantaStatus) :=
  q ← gets id;
  if q_cache_on q then mret (Some QUANTA_ERR_INVAL)
  else
    match cache_init size_bytes assoc block_size with
    | InitError => mret (Some QUANTA_ERR_INVAL)
    | InitUndefined => mret None
    | InitOk c =>
      machine (modify (set_w_cache c)) ;;
      modify (set_q_cache_on true) ;;
      when (q_loaded q) (for_ (Z.to_nat (q_nharts q)) 0 (fun i => on_hart i (set_c_cache true))) ;;
      mret (Some QUANTA_OK)
    end.

(** ** Bring-up *)

(** [src/quanta.c 153-153] machine_poll_halt *)
Definition machine_stop (r : HaltReason) (code : Z) (q : Quanta) : Quanta :=
  set_q_m_exit code (set_q_m_reason r (set_q_m_halted true q)).

(** The scan of the harts: [None] when one still runs, else the first abnormal one, or -1.
    [src/quanta.c 156-160] machine_poll_halt *)
Fixpoint poll_harts (q : Quanta) (n : nat) (i abnormal : Z) : option Z :=
  match n with
  | O => Some abnormal
  | S n =>
    let c := the_hart i q in
    if negb (c_halted c) then None
    else poll_harts q n (i + 1)
           (if negb (bool_decide (c_halt_reason c = HALT_EXIT)) && (abnormal <? 0) then i else abnormal)
  end.

(** [src/quanta.c 150-165] machine_poll_halt *)
Definition machine_poll_halt (q : Quanta) : Quanta :=
  match plat_poweroff_requested (the_plat q) with
  | Some code => machine_stop HALT_EXIT code q
  | None =>
    match poll_harts q (Z.to_nat (q_nharts q)) 0 (-1) with
    | None => q
    | Some abnormal =>
      let c := the_hart (if 0 <=? abnormal then abnormal else 0) q in
      machine_stop (c_halt_reason c) (c_exit_code c) q
    end
  end.

(** A hart as [start_at] leaves it.
    [src/quanta.c 196-200] start_at *)
Definition start_hart (entry xlen i sp : Z) (cache_on : bool) (c : CPU) : CPU :=
  let c := cpu_init entry xlen c |> set_c_hartid i |> set_csr CSR_MHARTID i in
  reg_write 2 sp (if cache_on then set_c_cache true c else c).

(** [src/quanta.c 187-208] start_at *)
Definition start_at (entry xlen : Z) : st Quanta unit :=
  modify (fun q => if q_nharts q <? 1 then set_q_nharts 1 q else q) ;;
  q ← gets id;
  let b := the_bus q in
  on_bus (modify (fun b => set_b_has_plat true (set_b_plat
    (plat_init |> plat_attach_ram (b_base b) (b_size b) |> plat_set_harts (q_nharts q)) b))) ;;
  let sp := u64 (b_base b + b_size b) .& u64 (Z.lnot 0xf) in
  for_ (Z.to_nat (q_nharts q)) 0 (fun i => on_hart i (start_hart entry xlen i sp (q_cache_on q))) ;;
  modify (set_q_dtb_addr 0) ;;
  modify (set_q_sched 0) ;;
  modify (fun q => set_q_m_halted false (set_q_m_reason HALT_NONE (set_q_m_exit 0 q))) ;;
  attach_dcaches ;;
  attach_jit ;;
  modify (set_q_loaded true).

(** [src/quanta.c 213-246] dtb_config *)
Definition dtb_config (q : Quanta) (bootargs : option (list Z)) : DtbConfig :=
  let rv64 := c_xlen (the_hart 0 q) =? 64 in
  let net v := if q_netdev_advertised q then v else 0 in
  let blk v := if q_disk_advertised q then v else 0 in
  mkDtbConfig (u32 (b_base (the_bus q))) (u32 (b_size (the_bus q)))
    TEST_BASE TEST_SIZE CLINT_BASE CLINT_SIZE PLIC_BASE PLIC_SIZE UART_BASE UART_SIZE UART_IRQ
    (PLIC_NSOURCES - 1) 0 (u32 (q_nharts q)) 10000000
    (chars (if rv64 then "rv64imac_zicsr" else "rv32ima_zicsr_zifencei"))
    (chars (if rv64 then "riscv,sv39" else "riscv,sv32"))
    bootargs 0 0
    (net VIRTIO_NET_BASE) (net VIRTIO_NET_SIZE) (net VIRTIO_NET_IRQ)
    (blk VIRTIO_BASE) (blk VIRTIO_SIZE) (blk VIRTIO_IRQ).

(** The registers a hart enters the guest with.
    [src/quanta.c 273-275] setup_boot *)
Definition boot_regs (new_sp addr i : Z) (c : CPU) : CPU :=
  c |> reg_write 2 new_sp |> reg_write 10 i |> reg_write 11 addr.

(** A machine has at most [QUANTA_MAX_HARTS] harts, so the tree's builder does not overrun.
    [src/quanta.c 255-277] setup_boot *)
Definition setup_boot : st Quanta unit :=
  q ← gets id;
  match dtb_build DTB_MAX_SIZE (dtb_config q None) with
  | NoRoom | Overrun => mret tt
  | Blob blob =>
    let n := Z.of_nat (length blob) in
    let base := b_base (the_bus q) in
    let size := b_size (the_bus q) in
    if size <? n + 16 then mret tt
    else
      let addr := u32 (u64 (u64 (base + size) - n) .& u32 (Z.lnot 7)) in
      if addr <? u64 (base + 16) then mret tt
      else
        rc ← on_bus (mem_load addr blob);
        if negb (rc =? 0) then mret tt
        else
          modify (set_q_dtb_addr addr) ;;
          let new_sp := u32 (addr - 16) .& u64 (Z.lnot 0xf) in
          for_ (Z.to_nat (q_nharts q)) 0 (fun i => on_hart i (boot_regs new_sp addr i))
  end.

(** The descriptor handed to a firmware, six little-endian doublewords.
    [src/quanta.c 330-335] setup_firmware_boot *)
Definition fw_info (next_addr : Z) : list Z :=
  flat_map (fun w => map (fun b => u8 (w >> (8 * b))) (zseq 0 8)) [FW_DYNAMIC_MAGIC; 2; next_addr; 1; 0; 0].

(** The initramfs: its bounds, or [None] when it does not fit.
    [src/quanta.c 315-322] setup_firmware_boot *)
Definition place_initrd (next_addr info_addr : Z) (initrd : list Z) : st Quanta (option (Z * Z)) :=
  if bool_decide (initrd = []) then mret (Some (0, 0))
  else
    let n := Z.of_nat (length initrd) in
    let end_ := info_addr .& u64 (Z.lnot 0xfff) in
    let start := u64 (end_ - n) .& u64 (Z.lnot 0xfff) in
    if start <=? next_addr then mret None
    else
      rc ← on_bus (mem_load start initrd);
      if negb (rc =? 0) then mret None else mret (Some (u32 start, u32 (start + n))).

(** [src/quanta.c 346-348] setup_firmware_boot *)
Definition firmware_regs (dtb_addr info_addr i : Z) (c : CPU) : CPU :=
  c |> reg_write 10 i |> reg_write 11 dtb_addr |> reg_write 12 info_addr.

Definition with_initrd (start end_ : Z) (c : DtbConfig) : DtbConfig :=
  mkDtbConfig (cfg_mem_base c) (cfg_mem_size c) (cfg_test_base c) (cfg_test_size c) (cfg_clint_base c)
    (cfg_clint_size c) (cfg_plic_base c) (cfg_plic_size c) (cfg_uart_base c) (cfg_uart_size c) (cfg_uart_irq c)
    (cfg_plic_ndev c) (cfg_boot_hart c) (cfg_nharts c) (cfg_timebase_freq c) (cfg_isa c) (cfg_mmu_type c)
    (cfg_bootargs c) start end_ (cfg_virtio_net_base c) (cfg_virtio_net_size c) (cfg_virtio_net_irq c)
    (cfg_virtio_blk_base c) (cfg_virtio_blk_size c) (cfg_virtio_blk_irq c).

(** [src/quanta.c 300-351] setup_firmware_boot *)
Definition setup_firmware_boot (next_addr : Z) (bootargs : option (list Z)) (initrd : list Z) : st Quanta Z :=
  q ← gets id;
  let top := u64 (b_base (the_bus q) + b_size (the_bus q)) in
  let dtb_addr := u64 (top - FW_DTB_HEADROOM) .& u64 (Z.lnot 7) in
  let info_addr := u64 (dtb_addr - 64) .& u64 (Z.lnot 7) in
  if info_addr <=? next_addr then mret (-1)
  else
    r ← place_initrd next_addr info_addr initrd;
    match r with
    | None => mret (-1)
    | Some (start, end_) =>
      match dtb_build DTB_MAX_SIZE (with_initrd start end_ (dtb_config q bootargs)) with
      | NoRoom | Overrun => mret (-1)
      | Blob blob =>
        rc ← on_bus (mem_load dtb_addr blob);
        if negb (rc =? 0) then mret (-1)
        else
          modify (set_q_dtb_addr (u32 dtb_addr)) ;;
          rc ← on_bus (mem_load info_addr (fw_info next_addr));
          if negb (rc =? 0) then mret (-1)
          else
            for_ (Z.to_nat (q_nharts q)) 0 (fun i => on_hart i (firmware_regs dtb_addr info_addr i)) ;;
            mret 0
      end
    end.

(** ** Loaders *)

(** [src/quanta.c 355-370] load_raw_file *)
Definition load_raw_file (file : option (list Z)) (addr : Z) : st Quanta QuantaStatus :=
  match file with
  | None => mret QUANTA_ERR_LOAD
  | Some bs =>
    rc ← on_bus (mem_load addr bs);
    mret (if negb (rc =? 0) then QUANTA_ERR_RANGE else QUANTA_OK)
  end.

(** [src/quanta.c 380-396] slurp_file *)
Definition slurp_file (file : option (list Z)) : option (list Z) :=
  match file with
  | Some (b :: bs) => Some (b :: bs)
  | _ => None
  end.

(** [None]: the ELF loader read outside the file image.
    [src/quanta.c 424-432] quanta_load_elf_ex *)
Definition quanta_load_elf_ex (file : option (list Z)) (alloc : bool) (min_mem : Z) : st Quanta (option QuantaStatus) :=
  r ← on_bus (elf_load file alloc min_mem);
  match r with
  | Undefined => mret None
  | Bad _ => mret (Some QUANTA_ERR_LOAD)
  | Good (entry, xlen) => start_at entry xlen ;; setup_boot ;; mret (Some QUANTA_OK)
  end.

(** [initrd_path] may be NULL: [None].
    [src/quanta.c 398-422] quanta_load_firmware *)
Definition quanta_load_firmware (bios kernel : option (list Z)) (bootargs : option (list Z))
    (initrd : option (option (list Z))) (alloc : bool) (min_mem : Z) : st Quanta (option QuantaStatus) :=
  r ← on_bus (elf_load bios alloc min_mem);
  match r with
  | Undefined => mret None
  | Bad _ => mret (Some QUANTA_ERR_LOAD)
  | Good (entry, xlen) =>
    start_at entry xlen ;;
    q ← gets id;
    let kaddr := u64 (b_base (the_bus q) + KERNEL_LOAD_OFFSET) in
    rs ← load_raw_file kernel kaddr;
    if negb (bool_decide (rs = QUANTA_OK)) then mret (Some rs)
    else
      match (match initrd with None => Some [] | Some f => slurp_file f end) with
      | None => mret (Some QUANTA_ERR_LOAD)
      | Some bs =>
        rc ← setup_firmware_boot kaddr bootargs bs;
        mret (Some (if rc =? 0 then QUANTA_OK else QUANTA_ERR_LOAD))
      end
  end.

(** [src/quanta.c 444-454] quanta_load_image *)
Definition quanta_load_image (base size : Z) (image : list Z) (entry : Z) (alloc : bool) : st Quanta QuantaStatus :=
  if size <? Z.of_nat (length image) then mret QUANTA_ERR_INVAL
  else if negb alloc then mret QUANTA_ERR_NOMEM
  else
    on_bus (modify (fun b => mem_init base size (b_plat b) (b_host b))) ;;
    rc ← (if bool_decide (image = []) then mret 0 else on_bus (mem_load base image));
    if negb (rc =? 0) then on_bus (modify mem_free) ;; mret QUANTA_ERR_RANGE
    else start_at entry 32 ;; mret QUANTA_OK.

(** [src/quanta.c 456-488] quanta_attach_disk_ex *)
Definition quanta_attach_disk_ex (file : option (list Z)) (writable : bool) : st Quanta QuantaStatus :=
  match file with
  | None => mret QUANTA_ERR_LOAD
  | Some bs =>
    on_bus (modify (upd_disk (fun _ =>
      mkDisk (negb (bool_decide (bs = []))) (put_bytes 0 bs ∅) (Z.of_nat (length bs)) writable writable))) ;;
    mret QUANTA_OK
  end.

(** [src/quanta.c 571-576] quanta_net_set_backend *)
Definition quanta_net_set_backend (tx : option TxBackend) : st Quanta unit :=
  on_bus (modify (upd_plat (plat_net_set_backend tx))).

(** ** Running *)

(** [src/quanta.c 518-522] quanta_step *)
Definition sched_turn : st Quanta bool :=
  q ← gets id;
  when (q_sched q =? 0) (on_bus (modify (upd_plat plat_tick))) ;;
  let live := negb (c_halted (the_hart (q_sched q) q)) in
  when live (machine (cpu_step (q_sched q))) ;;
  modify (fun q => set_q_sched (if q_nharts q <=? q_sched q + 1 then 0 else q_sched q + 1) q) ;;
  modify machine_poll_halt ;;
  mret live.

(** [src/quanta.c 515-524] quanta_step *)
Definition quanta_step : st Quanta QuantaHalt :=
  q ← gets id;
  if negb (q_loaded q) then mret QUANTA_RUN
  else if q_m_halted q then mret (map_halt (q_m_reason q))
  else
    sched_turn ;;
    q ← gets id;
    mret (if q_m_halted q then map_halt (q_m_reason q) else QUANTA_RUN).

(** The interpreter loop; [None] when [fuel] runs out.
    [src/quanta.c 548-554] quanta_run *)
Fixpoint run_loop (fuel : nat) (cap steps : Z) : st Quanta (option Z) :=
  match fuel with
  | O => mret None
  | S fuel =>
    q ← gets id;
    if negb (q_m_halted q) && (steps <? cap) then
      live ← sched_turn;
      run_loop fuel cap (if live : bool then u64 (steps + 1) else steps)
    else mret (Some steps)
  end.

(** The loop that prefers translated blocks.
    [src/quanta.c 537-546] quanta_run *)
Fixpoint run_jit_loop (fuel : nat) (cap steps : Z) : st Quanta (option Z) :=
  match fuel with
  | O => mret None
  | S fuel =>
    q ← gets id;
    if negb (q_m_halted q) && (steps <? cap) then
      on_bus (modify (upd_plat plat_tick)) ;;
      steps' ← (if c_halted (the_hart 0 q) then mret steps
               else
                 n ← machine (jit_run (u64 (cap - steps)));
                 consumed ← (if n =? 0 then machine (cpu_step 0) ;; mret 1 else mret n);
                 on_bus (modify (upd_clint (fun k => set_mtime (u64 (mtime k + (consumed - 1))) k))) ;;
                 mret (u64 (steps + consumed)));
      modify machine_poll_halt ;;
      run_jit_loop fuel cap steps'
    else mret (Some steps)
  end.

(** Enough turns for [cap] instructions: a turn that executes nothing is followed, within
    a round, by one that does or by a halt. *)
Definition run_fuel (cap n : Z) : nat := S (Z.to_nat ((cap + 1) * n)).

(** The halt reason and [*steps_out].
    [src/quanta.c 526-559] quanta_run *)
Definition quanta_run (max_steps : Z) : st Quanta (option (QuantaHalt * Z)) :=
  let cap := if max_steps =? 0 then QUANTA_DEFAULT_MAX_STEPS else max_steps in
  q ← gets id;
  if negb (q_loaded q) then mret (Some (QUANTA_RUN, 0))
  else
    let fuel := run_fuel cap (q_nharts q) in
    r ← (if c_jit (the_hart 0 q) then run_jit_loop fuel cap 0 else run_loop fuel cap 0);
    match r with
    | None => mret None
    | Some steps =>
      q ← gets id;
      mret (Some (if q_m_halted q then map_halt (q_m_reason q) else QUANTA_HALT_STEP_LIMIT, steps))
    end.

(** [src/quanta.c 561-564] quanta_uart_input *)
Definition quanta_uart_input (byte : Z) : st Quanta Z :=
  q ← gets id;
  if negb (q_loaded q) then mret 0
  else
    let '(r, p) := plat_uart_rx byte (the_plat q) in
    on_bus (modify (set_b_plat p)) ;; mret r.

(** [src/quanta.c 566-569] quanta_net_rx *)
Definition quanta_net_rx (frame : list Z) : st Quanta Z :=
  q ← gets id;
  if negb (q_loaded q) then mret 0 else on_bus (plat_net_rx frame).

(** ** Snapshots *)

(** The RAM and disk copies are whole buffers of [mem_size] and [disk_size] bytes.
    [src/quanta.c 601-621] QuantaSnapshot *)
Record QuantaSnapshot := mkQuantaSnapshot {
  s_harts : gmap Z CPU;
  s_nharts : Z;
  s_sched : Z;
  s_m_halted : bool;
  s_m_reason : HaltReason;
  s_m_exit : Z;
  s_dtb_addr : Z;
  s_cache_on : bool;
  s_loaded_ : bool;
  s_mem_base : Z;
  s_mem_size : Z;
  s_mem_fault : bool;
  s_mem_fault_addr : Z;
  s_mem_data : arr;
  s_plat : Platform;
  s_disk_data : option arr;
  s_disk_size : Z
}.

(** [None] is the NULL pointer.
    [src/quanta.c 623-648] quanta_snapshot *)
Definition quanta_snapshot (q : Quanta) : option QuantaSnapshot :=
  if negb (q_loaded q) then None
  else
    let b := the_bus q in
    let d := disk (b_plat b) in
    Some (mkQuantaSnapshot (w_harts (q_world q)) (q_nharts q) (q_sched q) (q_m_halted q) (q_m_reason q) (q_m_exit q)
      (q_dtb_addr q) (q_cache_on q) (q_loaded q) (b_base b) (b_size b) (b_fault b) (b_fault_addr b) (b_data b)
      (b_plat b) (if d_present d && negb (d_size d =? 0) then Some (d_data d) else None) (d_size d)).

(** A restored hart before its decode cache and JIT are attached again.
    [src/quanta.c 666-669] quanta_restore *)
Definition rewire_hart (cache_on : bool) (c : CPU) : CPU :=
  c |> set_c_cache cache_on |> set_c_dcache false |> set_c_jit false.
(** [src/quanta.c 664-670] quanta_restore *)
Definition restore_harts (s : QuantaSnapshot) (w : World) : World :=
  foldl (fun w i => upd_hart i (rewire_hart (s_cache_on s)) w) (set_w_harts (s_harts s) w)
    (zseq 0 (Z.to_nat QUANTA_MAX_HARTS)).

(** The disk contents go back into the live buffer; the file handle stays the live one.
    [src/quanta.c 692-696] quanta_restore *)
Definition restore_disk (s : QuantaSnapshot) (live : Disk) : Disk :=
  mkDisk (d_present live)
    (match s_disk_data s with Some a => if d_present live then a else d_data live | None => d_data live end)
    (s_disk_size s) (d_file live) (d_writable live).

(** The platform: the snapshot's registers, wired to the live machine.  The frames the
    host's backend has seen ([n_txlog]) are not the machine's to restore.
    [src/quanta.c 686-696] quanta_restore *)
Definition restore_plat (s : QuantaSnapshot) (live : Platform) : Platform :=
  s_plat s |> set_has_harts true |> set_nharts (s_nharts s) |> set_has_ram true
    |> set_ram_base (s_mem_base s) |> set_ram_size (s_mem_size s)
    |> set_disk (restore_disk s (disk live))
    |> (fun p => set_net (set_n_txlog (n_txlog (net live)) (net p)) p).

(** [src/quanta.c 678-696] quanta_restore *)
Definition restore_bus (s : QuantaSnapshot) (b : Bus) : Bus :=
  mkBus (s_mem_data s) (s_mem_base s) (s_mem_size s) (s_mem_fault s) (s_mem_fault_addr s) true
    (restore_plat s (b_plat b)) (b_host b).

(** [src/quanta.c 672-674] quanta_restore *)
Definition restore_fields (s : QuantaSnapshot) (q : Quanta) : Quanta :=
  q |> set_q_nharts (s_nharts s) |> set_q_sched (s_sched s) |> set_q_m_halted (s_m_halted s)
    |> set_q_m_reason (s_m_reason s) |> set_q_m_exit (s_m_exit s) |> set_q_dtb_addr (s_dtb_addr s)
    |> set_q_cache_on (s_cache_on s) |> set_q_loaded (s_loaded_ s).

(** [src/quanta.c 650-702] quanta_restore *)
Definition quanta_restore (s : QuantaSnapshot) : st Quanta QuantaStatus :=
  q ← gets id;
  if negb (q_loaded q) || negb (s_loaded_ s) then mret QUANTA_ERR_INVAL
  else if negb (s_mem_size s =? b_size (the_bus q)) || negb (s_disk_size s =? d_size (disk (the_plat q)))
  then mret QUANTA_ERR_INVAL
  else
    machine (modify (restore_harts s)) ;;
    modify (restore_fields s) ;;
    on_bus (modify (restore_bus s)) ;;
    attach_dcaches ;;
    attach_jit ;;
    mret QUANTA_OK.

(** ** The snapshot file

    A file is its header bytes, the two raw struct images (typed here, since their layout
    is the host ABI's; [None] is a file that ends before or inside them), and the RAM and
    disk bytes. *)

(** [src/quanta.c 729-733] put_u32 *)
Definition snap_put_u32 (v : Z) : list Z := [u8 v; u8 (v >> 8); u8 (v >> 16); u8 (v >> 24)].
(** [src/quanta.c 734-737] put_u64 *)
Definition snap_put_u64 (v : Z) : list Z := map (fun i => u8 (v >> (8 * i))) (zseq 0 8).
(** [src/quanta.c 738-741] get_u32 *)
Definition snap_get_u32 (p : Z -> Z) : Z :=
  p 0 .| u32 (p 1 << 8) .| u32 (p 2 << 16) .| u32 (p 3 << 24).
(** [src/quanta.c 742-746] get_u64 *)
Definition snap_get_u64 (p : Z -> Z) : Z :=
  foldl (fun v i => v .| u64 (p i << (8 * i))) 0 (zseq 0 8).

Record SnapFile := mkSnapFile {
  f_header : list Z;
  f_harts : option (gmap Z CPU);
  f_plat : option Platform;
  f_mem : list Z;
  f_disk : list Z
}.

(** [HaltReason]'s enumeration values. *)
Definition halt_code (r : HaltReason) : Z :=
  match r with
  | HALT_NONE => 0 | HALT_EXIT => 1 | HALT_EBREAK => 2 | HALT_ILLEGAL_INSN => 3
  | HALT_UNIMP_SYSTEM => 4 | HALT_UNKNOWN_SYSCALL => 5 | HALT_MEM_FAULT => 6
  end.
Definition halt_of_code (v : Z) : HaltReason :=
  default HALT_NONE ([HALT_NONE; HALT_EXIT; HALT_EBREAK; HALT_ILLEGAL_INSN; HALT_UNIMP_SYSTEM;
    HALT_UNKNOWN_SYSCALL; HALT_MEM_FAULT] !! Z.to_nat v).

(** [src/quanta.c 725-725] SNAP_MAGIC *)
Definition SNAP_MAGIC : list Z := chars "QUANTASN".
(** [src/quanta.c 726-726] SNAP_FORMAT_VERSION *)
Definition SNAP_FORMAT_VERSION : Z := 1.
(** [src/quanta.c 727-727] SNAP_HDR_SIZE *)
Definition SNAP_HDR_SIZE : Z := 72.

Section SnapshotFile.
(** [sizeof(CPU)] and [sizeof(Platform)] of the host ABI. *)
Context (sizeof_cpu sizeof_platform : Z).

(** [src/quanta.c 749-764] snapshot_write *)
Definition snapshot_header (s : QuantaSnapshot) : list Z :=
SNAP_MAGIC ++ snap_put_u32 SNAP_FORMAT_VERSION ++ snap_put_u32 (u32 sizeof_cpu)
++ snap_put_u32 (u32 sizeof_platform) ++ snap_put_u32 QUANTA_MAX_HARTS
++ snap_put_u32 (u32 (s_nharts s)) ++ snap_put_u32 (u32 (s_sched s)) ++ snap_put_u32 (b2z (s_m_halted s))
++ snap_put_u32 (halt_code (s_m_reason s)) ++ snap_put_u32 (s_m_exit s) ++ snap_put_u32 (s_dtb_addr s)
++ snap_put_u64 (s_mem_base s) ++ snap_put_u64 (s_mem_size s) ++ snap_put_u64 (s_disk_size s).

(** The first [n] bytes of a buffer. *)
Definition buffer (n : Z) (a : arr) : list Z := map (fun i => a.[i]) (zseq 0 (Z.to_nat n)).

(** [src/quanta.c 748-774] snapshot_write *)
Definition snapshot_write (s : QuantaSnapshot) : SnapFile :=
mkSnapFile (snapshot_header s) (Some (s_harts s)) (Some (s_plat s)) (buffer (s_mem_size s) (s_mem_data s))
  (match s_disk_data s with Some a => buffer (s_disk_size s) a | None => [] end).

(** [src/quanta.c 779-823] snapshot_read *)
Definition snapshot_read (f : SnapFile) : option QuantaSnapshot :=
let h := f_header f in
if Z.of_nat (length h) <? SNAP_HDR_SIZE then None
else if negb (bool_decide (take 8 h = SNAP_MAGIC)) then None
else
  let at_ o := fun i => nth (Z.to_nat (o + i)) h 0 in
  let ver := snap_get_u32 (at_ 8) in
  let szcpu := snap_get_u32 (at_ 12) in
  let szpl := snap_get_u32 (at_ 16) in
  let maxh := snap_get_u32 (at_ 20) in
  if negb (ver =? SNAP_FORMAT_VERSION) || negb (szcpu =? sizeof_cpu)
     || negb (szpl =? sizeof_platform) || negb (maxh =? QUANTA_MAX_HARTS) then None
  else
    let nharts := s32 (snap_get_u32 (at_ 24)) in
    let mem_size := snap_get_u64 (at_ 56) in
    let disk_size := snap_get_u64 (at_ 64) in
    if (nharts <? 1) || (QUANTA_MAX_HARTS <? nharts) then None
    else
      harts ← f_harts f;
      plat ← f_plat f;
      if Z.of_nat (length (f_mem f)) <? mem_size then None
      else if negb (disk_size =? 0) && (Z.of_nat (length (f_disk f)) <? disk_size) then None
      else Some (mkQuantaSnapshot harts nharts (s32 (snap_get_u32 (at_ 28))) (negb (snap_get_u32 (at_ 32) =? 0))
        (halt_of_code (snap_get_u32 (at_ 36))) (snap_get_u32 (at_ 40)) (snap_get_u32 (at_ 44)) false true
        (snap_get_u64 (at_ 48)) mem_size false 0 (put_bytes 0 (take (Z.to_nat mem_size) (f_mem f)) ∅)
        plat (if disk_size =? 0 then None else Some (put_bytes 0 (take (Z.to_nat disk_size) (f_disk f)) ∅)) disk_size).

(** [writable]: whether the file can be created and written.
  [src/quanta.c 825-838] quanta_save_snapshot *)
Definition quanta_save_snapshot (q : Quanta) (writable : bool) : QuantaStatus * option SnapFile :=
match quanta_snapshot q with
| None => (QUANTA_ERR_INVAL, None)
| Some s => if writable then (QUANTA_OK, Some (snapshot_write s)) else (QUANTA_ERR_LOAD, None)
end.

(** [src/quanta.c 840-883] quanta_load_snapshot *)
Definition quanta_load_snapshot (file : option SnapFile) (alloc : bool) : st Quanta QuantaStatus :=
q ← gets id;
if q_loaded q then mret QUANTA_ERR_INVAL
else
  match file ≫= snapshot_read with
  | None => mret QUANTA_ERR_LOAD
  | Some s =>
    if negb alloc then mret QUANTA_ERR_NOMEM
    else
      on_bus (modify (fun b => mem_init (s_mem_base s) (s_mem_size s) (b_plat b) (b_host b))) ;;
      when (negb (s_disk_size s =? 0))
        (on_bus (modify (upd_disk (fun d => set_d_size (s_disk_size s) (set_d_data ∅ (set_d_present true d)))))) ;;
      on_bus (modify (upd_disk (fun d => set_d_writable false (set_d_file false d)))) ;;
      modify (set_q_nharts (s_nharts s)) ;;
      modify (set_q_loaded true) ;;
      r ← quanta_restore s;
      when (negb (bool_decide (r = QUANTA_OK)))
        (on_bus (modify mem_free) ;;
         on_bus (modify (upd_disk (fun d => set_d_size 0 (set_d_present false d)))) ;;
         modify (set_q_loaded false)) ;;
      mret r
  end.
End SnapshotFile.

(** ** What a host program sees *)

(** [src/quanta.c 889-891] xlen_val *)
Definition xlen_val (q : Quanta) (v : Z) : Z := if c_xlen (the_hart 0 q) =? 64 then v else v .& 0xffffffff.

(** [src/quanta.c 893-896] quanta_reg *)
Definition quanta_reg (q : Quanta) (i : Z) : Z :=
  if (i <? 0) || (31 <? i) then 0 else xlen_val q (reg_read (the_hart 0 q) i).

(** [src/quanta.c 898-900] quanta_set_reg *)
Definition quanta_set_reg (i value : Z) : st Quanta unit :=
  when ((0 <=? i) && (i <=? 31)) (on_hart 0 (reg_write i value)).

(** [src/quanta.c 902-902] quanta_pc *)
Definition quanta_pc (q : Quanta) : Z := xlen_val q (c_pc (the_hart 0 q)).

(** [src/quanta.c 903-903] quanta_set_pc *)
Definition quanta_set_pc (pc : Z) : st Quanta unit := on_hart 0 (set_c_pc pc).

(** [src/quanta.c 904-904] quanta_xlen *)
Definition quanta_xlen (q : Quanta) : Z := if q_loaded q then c_xlen (the_hart 0 q) else 0.

(** [src/quanta.c 906-915] quanta_mem_read *)
Definition quanta_mem_read (q : Quanta) (addr len : Z) : option (list Z) :=
  off ← in_range (the_bus q) addr len;
  Some (map (fun i => (b_data (the_bus q)).[off + i]) (zseq 0 (Z.to_nat len))).

(** [src/quanta.c 917-926] quanta_mem_write *)
Definition quanta_mem_write (addr : Z) (src : list Z) : st Quanta QuantaStatus :=
  q ← gets id;
  match in_range (the_bus q) addr (Z.of_nat (length src)) with
  | None => mret QUANTA_ERR_RANGE
  | Some off => on_bus (modify (upd_data (put_bytes off src))) ;; mret QUANTA_OK
  end.

(** The value and [*ok].
    [src/quanta.c 928-937] quanta_read_u32 *)
Definition quanta_read_u32 (q : Quanta) (addr : Z) : Z * bool :=
  match quanta_mem_read q addr 4 with
  | Some [b0; b1; b2; b3] => (b0 .| u32 (b1 << 8) .| u32 (b2 << 16) .| u32 (b3 << 24), true)
  | _ => (0, false)
  end.

(** [src/quanta.c 939-942] quanta_halt_reason *)
Definition quanta_halt_reason (q : Quanta) : QuantaHalt :=
  if negb (q_m_halted q) then QUANTA_RUN else map_halt (q_m_reason q).

(** [src/quanta.c 944-944] quanta_exit_code *)
Definition quanta_exit_code (q : Quanta) : Z := q_m_exit q.
(** [src/quanta.c 945-945] quanta_fault_addr *)
Definition quanta_fault_addr (q : Quanta) : Z := xlen_val q (b_fault_addr (the_bus q)).
(** [src/quanta.c 946-946] quanta_mem_base *)
Definition quanta_mem_base (q : Quanta) : Z := b_base (the_bus q).
(** [src/quanta.c 947-947] quanta_mem_size *)
Definition quanta_mem_size (q : Quanta) : Z := b_size (the_bus q).
(** [src/quanta.c 948-948] quanta_dtb_addr *)
Definition quanta_dtb_addr (q : Quanta) : Z := q_dtb_addr q.

(** What the host has seen when the handle is released: a backing file is flushed.
    [src/quanta.c 167-179] quanta_destroy *)
Definition quanta_destroy (q : Quanta) : list HostEvent :=
  if d_file (disk (the_plat q)) then DiskFlush :: b_host (the_bus q) else b_host (the_bus q).
