(* ===== verification/EngineInv.v ===== *)
(** * Every machine the engine builds is well formed

    The invariant of the handle, and its preservation by configuration, bring-up, both boot
    handoffs, the loaders, execution, host access and snapshot restore. *)

From S2P Require Import Prelude Decode Device DeviceInv Memory Cache Softfloat Cpu Mmu See Trap Alu Exec Fpu Step CpuInv.
From S2P Require Import Elf ElfThms Dtb DtbThms Engine.

(** ** The invariant *)

(** A running machine: the devices are attached to the memory, their DMA window is the guest
    RAM, and each hart has a register width and its own id. *)
Record wired (q : Quanta) : Prop := {
  wr_plat : b_has_plat (the_bus q) = true;
  wr_ram : has_ram (the_plat q) = true;
  wr_ram_base : ram_base (the_plat q) = b_base (the_bus q);
  wr_ram_size : ram_size (the_plat q) = b_size (the_bus q);
  wr_nharts : nharts (the_plat q) = q_nharts q;
  wr_harts : forall i, 0 <= i < q_nharts q ->
    c_hartid (the_hart i q) = i /\ (c_xlen (the_hart i q) = 32 \/ c_xlen (the_hart i q) = 64)
}.

Record quanta_ok (q : Quanta) : Prop := {
  qo_world : world_ok (q_world q);
  qo_nharts : 1 <= q_nharts q <= QUANTA_MAX_HARTS;
  qo_sched : q_loaded q = true -> 0 <= q_sched q < q_nharts q;
  qo_exit : rng 32 (q_m_exit q);
  qo_dtb : rng 32 (q_dtb_addr q);
  qo_unloaded : q_loaded q = false -> has_ram (the_plat q) = false;
  qo_wired : q_loaded q = true -> wired q
}.

(** The handle's own fields that most operations leave alone. *)
Record same_fields (q0 q : Quanta) : Prop := {
  sf_nharts : q_nharts q = q_nharts q0;
  sf_sched : q_sched q = q_sched q0;
  sf_exit : q_m_exit q = q_m_exit q0;
  sf_dtb : q_dtb_addr q = q_dtb_addr q0;
  sf_loaded : q_loaded q = q_loaded q0
}.

Lemma machine_run {A} (m : st World A) q : machine m q = (run m (q_world q), set_q_world (exec m (q_world q)) q).
Proof. unfold machine, run, exec. by destruct (m (q_world q)). Qed.

Lemma world_ok_of w : mem_ok (w_bus w) -> (forall h, cpu_ok (hart h w)) ->
  (forall h d, w_dcaches w !! h = Some d -> dcache_ok d) -> world_ok w.
Proof. intros Hm Hh Hd. constructor; [split; [done|apply same_map_refl]|intros h; by constructor|done]. Qed.
Lemma world_inv_ok w0 w : world_inv w0 w -> world_ok w.
Proof. intros [[Hm _] Hh Hd]. apply world_ok_of; [done| |done]. intros h. by destruct (Hh h). Qed.

(** Operations of the machine that keep its shape keep the invariant. *)
Definition shape (q0 q : Quanta) : Prop := world_inv (q_world q0) (q_world q) /\ same_fields q0 q.

Lemma shape_refl q : world_ok (q_world q) -> shape q q.
Proof. by split. Qed.
Lemma shape_wired q0 q : shape q0 q -> wired q0 -> wired q.
Proof.
  intros [[[_ []] Hh _] []] []. unfold the_plat, the_bus, the_hart in *. constructor; unfold the_plat, the_bus, the_hart.
  all: try congruence. intros i Hi. rewrite sf_nharts0 in Hi. destruct (Hh i) as [_ -> ->]. auto.
Qed.
Lemma shape_ok q0 q : shape q0 q -> quanta_ok q0 -> quanta_ok q.
Proof.
  intros Hs []. pose proof (shape_wired _ _ Hs). destruct Hs as [Hw []].
  constructor; try congruence.
  - by apply world_inv_ok in Hw.
  - intros Hl. rewrite sf_loaded0 in Hl. rewrite sf_sched0, sf_nharts0. auto.
  - intros Hl. rewrite sf_loaded0 in Hl. unfold the_plat, the_bus in *. destruct Hw as [[_ []] _ _]. rewrite sm_has_ram. auto.
  - intros Hl. rewrite sf_loaded0 in Hl. auto.
Qed.

Section Shape.
Context (q0 : Quanta).
#[local] Abbreviation I := (shape q0).

Lemma keep_machine {A} (m : st World A) P : keeps (world_inv (q_world q0)) m P -> keeps I (machine m) P.
Proof.
intros Hm q [Hw Hf]. unfold run, exec, machine. destruct (Hm _ Hw) as [Hp Hw']. unfold run, exec in *.
destruct (m (q_world q)) as [a w]. cbn in *. split; [done|]. split; [done|]. destruct Hf. by constructor.
Qed.
Lemma keep_on_bus {A} (m : st Bus A) P : keeps (mem_inv (w_bus (q_world q0))) m P -> keeps I (on_bus m) P.
Proof. intros Hm. by apply keep_machine, keep_bus. Qed.
Lemma keep_on_hart i f : (forall c, cpu_inv (the_hart i q0) c -> cpu_inv (the_hart i q0) (f c)) ->
keeps I (on_hart i f) (fun _ => True).
Proof. intros Hf. by apply keep_machine, keep_upd. Qed.
Lemma keep_config f : (forall q, q_world (f q) = q_world q /\ same_fields q (f q)) -> keeps I (modify f) (fun _ => True).
Proof.
intros Hf. apply keeps_modify; [done|]. intros q [Hw []]. destruct (Hf q) as [E []]. split; [by rewrite E|].
constructor; congruence.
Qed.

Lemma dcache_flush_ok d : dcache_ok d -> dcache_ok (dcache_flush d).
Proof. done. Qed.
Lemma dcache_new_ok : dcache_ok dcache_new.
Proof. intros i. unfold dc_slot. cbn. rewrite lookup_empty. by split; apply rng_const. Qed.

Lemma keep_attach_dcaches : keeps I attach_dcaches (fun _ => True).
Proof.
unfold attach_dcaches. apply (keeps_bind _ _ _ (fun _ => True)); [by apply keeps_gets|]. intros q _.
apply keeps_for. intros i _. apply keep_machine, keeps_modify; [done|]. intros w Hw. unfold attach_dcache.
assert (forall w v, world_inv (q_world q0) w -> world_inv (q_world q0) (upd_hart i (set_c_dcache v) w)) as Hu.
{ intros w' v Hw'. eapply (keep_upd (q_world q0) i (set_c_dcache v)); [|done]. intros c. apply cinv_set_c_dcache. }
destruct (q_dcache_on q); [|by apply Hu]. apply Hu. destruct Hw as [Hm Hh Hd]. constructor; [done..|].
intros h d. cbn [w_dcaches set_w_dcaches]. destruct (decide (i = h)) as [->|].
- rewrite lookup_insert_eq. intros [= <-]. apply dcache_flush_ok. destruct (w_dcaches w !! h) eqn:E; cbn; [eauto|apply dcache_new_ok].
- rewrite lookup_insert_ne by done. apply Hd.
Qed.
Lemma keep_attach_jit : keeps I attach_jit (fun _ => True).
Proof.
unfold attach_jit. apply (keeps_bind _ _ _ (fun _ => True)); [by apply keeps_gets|]. intros q _. cbv zeta.
apply (keeps_bind _ _ _ (fun _ => True)). { apply keeps_when; [done|]. by apply keeps_ret. } intros _ _.
apply (keeps_bind _ _ _ (fun _ => True)); [by apply keeps_gets|]. intros j _.
apply (keeps_bind _ _ _ (fun _ => True)).
{ apply keeps_when; [done|]. apply keep_machine. apply keep_jit. }
intros _ _. apply keeps_for. intros i _. apply keep_on_hart. intros c. apply cinv_set_c_jit.
Qed.
End Shape.

(** ** Bring-up *)

(** A loop over the harts changes exactly those harts. *)
Definition with_harts (hs : gmap Z CPU) (q : Quanta) : Quanta := set_q_world (set_w_harts hs (q_world q)) q.
Lemma for_harts n f : forall i q, exists hs,
  exec (for_ n i (fun k => on_hart k (f k))) q = with_harts hs q
  /\ forall j, the_hart j (with_harts hs q) = if decide (i <= j < i + Z.of_nat n) then f j (the_hart j q) else the_hart j q.
Proof.
  induction n as [|n IH]; intros i q.
  { exists (w_harts (q_world q)). split; [by destruct q as [[]]|]. intros j. by rewrite decide_False by lia. }
  cbn [for_]. rewrite exec_bind. set (q1 := exec (on_hart i (f i)) q).
  destruct (IH (i + 1) q1) as (hs & E & Hh). exists hs. split; [rewrite E; by destruct q|].
  intros j. change (the_hart j (with_harts hs q)) with (the_hart j (with_harts hs q1)). rewrite Hh.
  assert (forall k, the_hart k q1 = if decide (i = k) then f k (the_hart k q) else the_hart k q) as Hq1.
  { intros k. unfold the_hart at 1, q1, on_hart, exec. rewrite machine_run. cbn [snd q_world set_q_world].
    unfold cpu_upd. rewrite exec_modify, hart_upd. by destruct (decide (i = k)) as [->|]. }
  rewrite Hq1. destruct (decide (i = j)) as [->|].
  - rewrite decide_False by lia. by rewrite decide_True by lia.
  - destruct (decide (i + 1 <= j < i + 1 + Z.of_nat n)); [by rewrite decide_True by lia|by rewrite decide_False by lia].
Qed.

Lemma cpu_init_fields entry xl c : let c' := cpu_init entry xl c in c_xlen c' = xl /\ c_pc c' = entry /\ c_halted c' = false.
Proof. split_and!; reflexivity. Qed.
Lemma cpu_ok_hartid i c : rng 32 i -> cpu_ok c -> cpu_ok (set_c_hartid i c).
Proof. intros ? []. by constructor. Qed.
(** The last writes of [start_at] to a hart. *)
Lemma identify_ok i sp (cache : bool) c : rng 32 i -> rng 64 sp -> cpu_ok c ->
  let c' := set_csr CSR_MHARTID i (set_c_hartid i c) in
  let c' := reg_write 2 sp (if cache then set_c_cache true c' else c') in
  cpu_ok c' /\ c_hartid c' = i /\ c_xlen c' = c_xlen c /\ c_pc c' = c_pc c /\ c_halted c' = c_halted c.
Proof.
  intros Hi Hs Hc. cbv zeta. pose proof (cpu_ok_hartid i c Hi Hc) as H2.
  assert (cpu_inv (set_c_hartid i c) (set_csr CSR_MHARTID i (set_c_hartid i c))) as H3.
  { apply cinv_set_csr; [by apply (rng_mono 32)|done]. }
  set (c4 := if cache then _ else _).
  assert (cpu_inv (set_c_hartid i c) c4) as H4. { unfold c4. destruct cache; [by apply cinv_set_c_cache|done]. }
  pose proof (cinv_reg_write _ c4 2 sp Hs H4) as [H5 E5 E6]. rewrite E5, E6. split; [done|].
  unfold reg_write, c4. by destruct cache.
Qed.
Lemma start_hart_ok entry xl i sp cache c : rng 64 entry -> xl = 32 \/ xl = 64 -> 0 <= i < QUANTA_MAX_HARTS -> rng 64 sp -> cpu_ok c ->
  let c' := start_hart entry xl i sp cache c in
  cpu_ok c' /\ c_hartid c' = i /\ c_xlen c' = xl /\ c_pc c' = entry /\ c_halted c' = false.
Proof.
  intros He Hx Hi Hs Hc. unfold start_hart. pose proof (cpu_init_ok entry xl c He Hx Hc) as H1.
  pose proof (cpu_init_fields entry xl c) as (E1 & E2 & E3). revert H1 E1 E2 E3.
  generalize (cpu_init entry xl c). intros c1 H1 E1 E2 E3.
  assert (rng 32 i) as Hr by (unfold rng, QUANTA_MAX_HARTS in *; lia).
  destruct (identify_ok i sp cache c1 Hr Hs H1) as (A & B & C & D & E).
  exact (conj A (conj B (conj (eq_trans C E1) (conj (eq_trans D E2) (eq_trans E E3))))).
Qed.

(** A hart without the attachments of the host's fast paths. *)
Definition arch_hart (c : CPU) : CPU := rewire_hart false c.

(** The same machine, up to those attachments. *)
Record same_arch (q0 q : Quanta) : Prop := {
  sa_bus : the_bus q = the_bus q0;
  sa_fields : same_fields q0 q;
  sa_halt : q_m_halted q = q_m_halted q0 /\ q_m_reason q = q_m_reason q0;
  sa_harts : forall i, arch_hart (the_hart i q) = arch_hart (the_hart i q0)
}.
Lemma same_arch_refl q : same_arch q q.
Proof. by constructor. Qed.
Lemma same_arch_hart i f q0 q : (forall c, arch_hart (f c) = arch_hart c) -> same_arch q0 q ->
  same_arch q0 (set_q_world (upd_hart i f (q_world q)) q).
Proof.
  intros Hf []. constructor; try done; [by destruct sa_fields0|]. intros j. rewrite <- sa_harts0. unfold the_hart. cbn [q_world set_q_world].
  rewrite hart_upd. by destruct (decide (i = j)) as [->|].
Qed.
Lemma attach_dcaches_arch q0 : keeps (same_arch q0) attach_dcaches (fun _ => True).
Proof.
  unfold attach_dcaches. apply (keeps_bind _ _ _ (fun _ => True)); [by apply keeps_gets|]. intros q _.
  apply keeps_for. intros i _ q1 Hq. split; [done|]. unfold exec. rewrite machine_run. cbn [snd]. rewrite exec_modify.
  unfold attach_dcache. destruct (q_dcache_on q); [|by apply same_arch_hart].
  apply (same_arch_hart i _ q0 (set_q_world _ q1)); [done|]. destruct Hq as [? [] ? ?]. by constructor.
Qed.
Lemma attach_jit_arch q0 : keeps (same_arch q0) attach_jit (fun _ => True).
Proof.
  unfold attach_jit. apply (keeps_bind _ _ _ (fun _ => True)); [by apply keeps_gets|]. intros q _. cbv zeta.
  apply (keeps_bind _ _ _ (fun _ => True)). { apply keeps_when; [done|]. by apply keeps_ret. } intros _ _.
  apply (keeps_bind _ _ _ (fun _ => True)); [by apply keeps_gets|]. intros j _.
  apply (keeps_bind _ _ _ (fun _ => True)).
  { apply keeps_when; [done|]. intros q1 [? [] ? ?]. split; [done|]. by constructor. }
  intros _ _. apply keeps_for. intros i _ q1 Hq. split; [done|]. unfold exec, on_hart. rewrite machine_run. cbn [snd].
  by apply same_arch_hart.
Qed.

(** The state [start_at] reaches before it attaches the decode caches and the JIT. *)
Definition reset_plat (q : Quanta) : Platform :=
  plat_init |> plat_attach_ram (b_base (the_bus q)) (b_size (the_bus q)) |> plat_set_harts (q_nharts q).
Definition reset_sp (q : Quanta) : Z := u64 (b_base (the_bus q) + b_size (the_bus q)) .& u64 (Z.lnot 0xf).
Record reset (entry xl : Z) (q q1 : Quanta) : Prop := {
  rs_bus : the_bus q1 = set_b_has_plat true (set_b_plat (reset_plat q) (the_bus q));
  rs_fields : q_nharts q1 = q_nharts q /\ q_sched q1 = 0 /\ q_m_exit q1 = 0 /\ q_dtb_addr q1 = 0 /\ q_m_halted q1 = false;
  rs_dcaches : w_dcaches (q_world q1) = w_dcaches (q_world q);
  rs_harts : forall i, if decide (0 <= i < q_nharts q)
    then the_hart i q1 = start_hart entry xl i (reset_sp q) (q_cache_on q) (the_hart i q)
    else the_hart i q1 = the_hart i q
}.
Lemma start_at_reset entry xl q : 1 <= q_nharts q -> exists q1, reset entry xl q q1
  /\ exec (start_at entry xl) q = set_q_loaded true (exec attach_jit (exec attach_dcaches q1)).
Proof.
  intros Hn. unfold start_at. rewrite exec_bind, exec_modify. rewrite (proj2 (Z.ltb_ge _ _)) by lia.
  rewrite exec_bind, run_gets, exec_gets. cbn [id]. cbv zeta. rewrite exec_bind.
  set (qb := exec (on_bus _) q). rewrite exec_bind. fold (reset_sp q).
  destruct (for_harts (Z.to_nat (q_nharts q)) (fun i => start_hart entry xl i
    (reset_sp q) (q_cache_on q)) 0 qb) as (hs & E & Hh).
  rewrite E. rewrite !exec_bind, !exec_modify. eexists. split; [|reflexivity]. constructor.
  - done.
  - done.
  - done.
  - intros i. specialize (Hh i). rewrite Z2Nat.id, Z.add_0_l in Hh by lia.
    destruct (decide (0 <= i < q_nharts q)); exact Hh.
Qed.

Lemma reset_plat_ok q : mem_ok (the_bus q) -> plat_ok (reset_plat q).
Proof. intros [_ Hb Hs _]. unfold reset_plat. generalize plat_init_ok. generalize plat_init. intros p []. by constructor. Qed.
Lemma reset_sp_rng q : rng 64 (reset_sp q).
Proof. apply land_rng_l; [lia|apply u64_rng]. Qed.

Lemma reset_ok entry xl q q1 : world_ok (q_world q) -> 1 <= q_nharts q <= QUANTA_MAX_HARTS -> rng 64 entry -> xl = 32 \/ xl = 64 ->
  reset entry xl q q1 -> quanta_ok (set_q_loaded true q1).
Proof.
  intros Hw Hn He Hx [Eb (En & Es & Ee & Ed & _) Edc Hh].
  assert (mem_ok (the_bus q)) as Hm by apply Hw.
  assert (forall i, if decide (0 <= i < q_nharts q)
    then cpu_ok (the_hart i q1) /\ c_hartid (the_hart i q1) = i /\ c_xlen (the_hart i q1) = xl
    else cpu_ok (the_hart i q1)) as Hh'.
  { intros i. specialize (Hh i). pose proof (ci_ok _ _ (wi_harts _ _ Hw i)) as Hc. destruct (decide (0 <= i < q_nharts q)); rewrite Hh; [|exact Hc].
    assert (0 <= i < QUANTA_MAX_HARTS) as Hi by lia.
    destruct (start_hart_ok entry xl i (reset_sp q) (q_cache_on q) _ He Hx Hi (reset_sp_rng q) Hc) as (H1 & H2 & H3 & _). exact (conj H1 (conj H2 H3)). }
  constructor; cbn [set_q_loaded q_world q_nharts q_sched q_m_exit q_dtb_addr q_loaded];
    rewrite ?En, ?Es, ?Ee, ?Ed; try done; try lia; try (by apply rng_const).
  - apply world_ok_of.
    + change (mem_ok (the_bus q1)). rewrite Eb. pose proof (reset_plat_ok q Hm). destruct Hm as [[] ? ? ?].
      constructor; [by constructor|done..].
    + intros h. specialize (Hh' h). destruct (decide _); [apply Hh'|exact Hh'].
    + intros h d. rewrite Edc. apply Hw.
  - intros _. constructor; cbn [set_q_loaded q_nharts]; unfold the_plat; change (the_bus (set_q_loaded true q1)) with (the_bus q1); rewrite ?Eb, ?En; try done.
    intros i Hi. specialize (Hh' i). rewrite decide_True in Hh' by lia. destruct Hh' as (_ & H1 & H2).
    change (the_hart i (set_q_loaded true q1)) with (the_hart i q1). split; [done|]. by rewrite H2.
Qed.

Lemma set_loaded_shape q1 q2 b : shape q1 q2 -> shape (set_q_loaded b q1) (set_q_loaded b q2).
Proof. intros [Hw []]. split; [exact Hw|]. by constructor. Qed.
Lemma keeps_exec {S A} (I : S -> Prop) (m : st S A) P s : keeps I m P -> I s -> I (exec m s).
Proof. intros Hm Hs. by apply Hm. Qed.

(** What a machine looks like once [start_at] has run. *)
Record started (entry xl : Z) (q q' : Quanta) : Prop := {
  sd_ok : quanta_ok q';
  sd_loaded : q_loaded q' = true;
  sd_bus : the_bus q' = set_b_has_plat true (set_b_plat (reset_plat q) (the_bus q));
  sd_nharts : q_nharts q' = q_nharts q;
  sd_running : q_m_halted q' = false;
  sd_harts : forall i, 0 <= i < q_nharts q ->
    c_pc (the_hart i q') = entry /\ c_xlen (the_hart i q') = xl /\ c_halted (the_hart i q') = false
}.
Lemma start_at_ok entry xl q : world_ok (q_world q) -> 1 <= q_nharts q <= QUANTA_MAX_HARTS -> rng 64 entry -> xl = 32 \/ xl = 64 ->
  started entry xl q (exec (start_at entry xl) q).
Proof.
  intros Hw Hn He Hx. destruct (start_at_reset entry xl q) as (q1 & Hr & ->); [lia|].
  pose proof (reset_ok entry xl q q1 Hw Hn He Hx Hr) as Hok.
  assert (world_ok (q_world q1)) as Hw1 by apply Hok.
  assert (shape q1 (exec attach_jit (exec attach_dcaches q1))) as Hs.
  { eapply keeps_exec; [apply keep_attach_jit|]. eapply keeps_exec; [apply keep_attach_dcaches|]. by apply shape_refl. }
  assert (same_arch q1 (exec attach_jit (exec attach_dcaches q1))) as [Hb _ [Hm _] Hg].
  { eapply keeps_exec; [apply attach_jit_arch|]. eapply keeps_exec; [apply attach_dcaches_arch|]. apply same_arch_refl. }
  set (q2 := exec attach_jit _) in *. pose proof Hr as [Eb (En & _ & _ & _ & Eh) _ Hh]. constructor.
  - apply (shape_ok (set_q_loaded true q1)); [by apply set_loaded_shape|done].
  - done.
  - change (the_bus q2 = set_b_has_plat true (set_b_plat (reset_plat q) (the_bus q))). by rewrite Hb.
  - change (q_nharts q2 = q_nharts q). destruct Hs as [_ []]. congruence.
  - change (q_m_halted q2 = false). congruence.
  - intros i Hi. change (the_hart i (set_q_loaded true q2)) with (the_hart i q2). specialize (Hg i).
    rewrite (f_equal c_pc Hg : c_pc (the_hart i q2) = _), (f_equal c_xlen Hg : c_xlen (the_hart i q2) = _), (f_equal c_halted Hg : c_halted (the_hart i q2) = _).
    cbn [arch_hart rewire_hart].
    specialize (Hh i). rewrite decide_True in Hh by done. rewrite Hh.
    destruct (start_hart_ok entry xl i (reset_sp q) (q_cache_on q) (the_hart i q)) as (_ & _ & H1 & H2 & H3);
      [done|done|lia|apply reset_sp_rng|apply (wi_harts _ _ Hw i)|]. exact (conj H2 (conj H1 H3)).
Qed.

(** ** Boot handoff *)

Lemma keep_ok_machine {A} (m : st World A) P : (forall w0, keeps (world_inv w0) m P) -> keeps quanta_ok (machine m) P.
Proof.
  intros Hm q Hq. destruct (keep_machine q m P (Hm _) q) as [HP Hs]; [apply shape_refl, Hq|].
  split; [done|]. by apply (shape_ok q).
Qed.
Lemma keep_ok_bus {A} (m : st Bus A) P : (forall b0, keeps (mem_inv b0) m P) -> keeps quanta_ok (on_bus m) P.
Proof. intros Hm. apply keep_ok_machine. intros w0. by apply keep_bus. Qed.
Lemma keep_ok_hart i f : (forall c0 c, cpu_inv c0 c -> cpu_inv c0 (f c)) -> keeps quanta_ok (on_hart i f) (fun _ => True).
Proof. intros Hf. apply keep_ok_machine. intros w0. apply keep_upd. intros c. apply Hf. Qed.
Lemma keep_ok_q {A} (f : Quanta -> A) (P : A -> Prop) : (forall q, quanta_ok q -> P (f q)) -> keeps quanta_ok (gets f) P.
Proof. apply keeps_gets. Qed.
Lemma keep_ok_dtb a : rng 32 a -> keeps quanta_ok (modify (set_q_dtb_addr a)) (fun _ => True).
Proof. intros Ha. apply keeps_modify; [done|]. intros q [? ? ? ? ? ? Hw]. constructor; try done. intros Hl. by destruct (Hw Hl). Qed.
Lemma keep_ok_load addr src : rng 64 addr -> bytes src -> keeps quanta_ok (on_bus (mem_load addr src)) (fun _ => True).
Proof. intros Ha Hs. apply keep_ok_bus. intros b0 b Hb. split; [done|]. by apply pres_mem_load. Qed.

Lemma cinv_boot_regs c0 c sp a i : rng 64 sp -> rng 64 a -> rng 64 i -> cpu_inv c0 c -> cpu_inv c0 (boot_regs sp a i c).
Proof. intros. unfold boot_regs. by repeat apply cinv_reg_write. Qed.
Lemma cinv_firmware_regs c0 c d a i : rng 64 d -> rng 64 a -> rng 64 i -> cpu_inv c0 c -> cpu_inv c0 (firmware_regs d a i c).
Proof. intros. unfold firmware_regs. by repeat apply cinv_reg_write. Qed.
Lemma hart_index_rng n i : n <= QUANTA_MAX_HARTS -> 0 <= i < 0 + Z.of_nat (Z.to_nat n) -> rng 64 i.
Proof. unfold rng, QUANTA_MAX_HARTS. lia. Qed.
Lemma config_ok q a : bytes (default [] a) -> config_bytes (dtb_config q a).
Proof. intros Ha. unfold config_bytes, dtb_config. cbn [cfg_isa cfg_mmu_type cfg_bootargs]. split_and!; [by destruct (_ =? _); apply bytes_forallb..|done]. Qed.

(** The next action of a computation that keeps the invariant. *)
Ltac ok_bind := apply (keeps_bind _ _ _ (fun _ => True)); [|intros ? _].

Lemma keep_setup_boot : keeps quanta_ok setup_boot (fun _ => True).
Proof.
  unfold setup_boot. apply (keeps_bind _ _ _ quanta_ok); [by apply keep_ok_q|]. intros q Hq.
  destruct (dtb_build _ _) as [blob| |] eqn:E; [|by apply keeps_ret..].
  apply dtb_build_bytes in E; [|apply config_ok; constructor]. cbv zeta.
  apply keeps_if; [by apply keeps_ret|]. apply keeps_if; [by apply keeps_ret|].
  ok_bind; [apply keep_ok_load; [apply (rng_mono 32); [lia|apply u32_rng]|done]|].
  apply keeps_if; [by apply keeps_ret|]. ok_bind; [apply keep_ok_dtb, u32_rng|].
  apply keeps_for. intros i Hi. apply keep_ok_hart. intros c0 c. apply cinv_boot_regs.
  - apply land_rng_r; [lia|apply u64_rng].
  - apply (rng_mono 32); [lia|apply u32_rng].
  - apply (hart_index_rng (q_nharts q)); [apply Hq|done].
Qed.

Lemma keep_place_initrd a b l : bytes l -> keeps quanta_ok (place_initrd a b l) (fun _ => True).
Proof.
  intros Hl. unfold place_initrd. apply keeps_if; [by apply keeps_ret|]. cbv zeta. apply keeps_if; [by apply keeps_ret|].
  ok_bind; [apply keep_ok_load; [apply land_rng_r; [lia|apply u64_rng]|done]|]. apply keeps_if; by apply keeps_ret.
Qed.
Lemma fw_info_bytes a : bytes (fw_info a).
Proof.
  apply list.Forall_forall. intros x Hx. unfold fw_info in Hx. apply list_elem_of_In, in_flat_map in Hx as (w & _ & Hx).
  apply in_map_iff in Hx as (b & <- & _). apply u8_rng.
Qed.
Lemma keep_setup_firmware a args l : bytes (default [] args) -> bytes l -> keeps quanta_ok (setup_firmware_boot a args l) (fun _ => True).
Proof.
  intros Ha Hl. unfold setup_firmware_boot. apply (keeps_bind _ _ _ quanta_ok); [by apply keep_ok_q|]. intros q Hq. cbv zeta.
  set (dtb := u64 (u64 _ - _) .& _). set (info := u64 (dtb - 64) .& _).
  assert (rng 64 dtb) by (apply land_rng_r; [lia|apply u64_rng]).
  assert (rng 64 info) by (apply land_rng_r; [lia|apply u64_rng]).
  apply keeps_if; [by apply keeps_ret|]. ok_bind; [by apply keep_place_initrd|].
  match goal with r : option _ |- _ => destruct r as [[s e]|]; [|by apply keeps_ret] end.
  destruct (dtb_build _ _) as [blob| |] eqn:E; [|by apply keeps_ret..].
  apply dtb_build_bytes in E; [|apply (config_ok q args Ha)].
  ok_bind; [by apply keep_ok_load|]. apply keeps_if; [by apply keeps_ret|]. ok_bind; [apply keep_ok_dtb, u32_rng|].
  ok_bind; [apply keep_ok_load; [done|apply fw_info_bytes]|]. apply keeps_if; [by apply keeps_ret|].
  ok_bind; [|by apply keeps_ret]. apply keeps_for. intros i Hi. apply keep_ok_hart. intros c0 c.
  apply cinv_firmware_regs; [done..|]. apply (hart_index_rng (q_nharts q)); [apply Hq|done].
Qed.

(** ** Loaders *)

(** While an image is loaded the memory stays well formed and the platform is not touched. *)
Definition mem_only (p : Platform) (b : Bus) : Prop := mem_ok b /\ b_plat b = p.
Definition elf_result (r : outcome (Z * Z)) : Prop :=
  match r with Good (entry, xl) => rng 64 entry /\ (xl = 32 \/ xl = 64) | _ => True end.

Section ElfKeeps.
Context (p : Platform) (buf : list Z).
Hypothesis (Hbuf : bytes buf) (Hlen : rng 64 (blen buf)).
#[local] Abbreviation J := (mem_only p).

Lemma keep_mem_load addr src : rng 64 addr -> bytes src -> keeps J (mem_load addr src) (fun _ => True).
Proof.
intros Ha Hs b [Hb Hp]. split; [done|]. split.
- apply (pres_mem_load b addr src Ha Hs b). split; [done|apply same_map_refl].
- unfold exec, mem_load, translate. st_run. cbn [id]. destruct (_ || _); st_run; exact Hp.
Qed.
Lemma keep_mem_free : keeps J (modify mem_free) (fun _ => True).
Proof.
apply keeps_modify; [done|]. intros b [[[Hd Hp] Hb Hs Hf] E]. split; [|done]. constructor; [|done|by apply rng_const|done].
constructor; [apply arr_rng_empty; lia|done].
Qed.
Lemma keep_mem_init base size : rng 64 base -> rng 64 size ->
keeps J (modify (fun b => mem_init base size (b_plat b) (b_host b))) (fun _ => True).
Proof.
intros Hb Hs. apply keeps_modify; [done|]. intros b [[[_ Hp] _ _ _] E]. split; [|done].
constructor; [|done|done|by apply rng_const]. constructor; [apply arr_rng_empty; lia|done].
Qed.
Lemma keep_load_segment is64 t i : keeps J (load_segment buf is64 t i) (fun _ => True).
Proof.
unfold load_segment. cbv zeta. destruct (rd_u32 _ _) as [v| |]; [|by apply keeps_ret..].
apply keeps_if; [by apply keeps_ret|]. destruct (read_phdr _ _ _) as [h| |] eqn:Eh; [|by apply keeps_ret..].
apply (read_phdr_ok buf Hbuf) in Eh as (_ & Hv & _). apply keeps_if; [by apply keeps_ret|].
unfold slice. destruct (_ && _ && _); [|by apply keeps_ret].
ok_bind. { apply keep_mem_load; [done|]. apply Forall_take, Forall_drop, Hbuf. }
apply keeps_if; [|by apply keeps_ret]. ok_bind; [apply keep_mem_free|by apply keeps_ret].
Qed.
Lemma keep_load_all is64 t n : forall i, keeps J (load_all buf is64 t n i) (fun _ => True).
Proof.
induction n as [|n IH]; intros i; cbn [load_all]; [by apply keeps_ret|].
apply (keeps_bind _ _ _ (fun _ => True)); [apply keep_load_segment|]. intros [] _; [apply IH|by apply keeps_ret..].
Qed.
Lemma plan_rng m pl : 0 <= m -> elf_plan buf m = Good pl -> rng 64 (pl_base pl) /\ rng 64 (pl_size pl).
Proof.
intros Hm E. destruct (plan_spec buf m Hbuf Hlen pl E) as (hi & HF & Hb & _ & _ & _ & Hs & _).
unfold ELF_MEM_MAX in Hs. split; [|unfold rng; lia]. destruct Hb as [-> | (h & Hh & ->)]; [by apply rng_const|].
rewrite list.Forall_forall in HF. apply HF in Hh. apply (m_ok _ _ _ _ Hh).
Qed.
Lemma keep_elf_load alloc m : 0 <= m -> keeps J (elf_load (Some buf) alloc m) elf_result.
Proof.
intros Hm. unfold elf_load. destruct (elf_plan buf m) as [pl| |] eqn:Ep; [|by apply keeps_ret..].
apply keeps_if; [by apply keeps_ret|]. destruct (plan_rng m pl Hm Ep). ok_bind; [by apply keep_mem_init|].
apply (keeps_bind _ _ _ (fun _ => True)); [apply keep_load_all|]. intros [] _; [|by apply keeps_ret..].
destruct (if pl_is64 pl then _ else _) as [e| |] eqn:Ee; [|by apply keeps_ret..].
assert (rng 64 e) by (destruct (pl_is64 pl); [by apply rd_u64_rng in Ee|apply (rd_u32_rng buf Hbuf) in Ee as [? _]; by apply (rng_mono 32)]).
apply (keeps_bind _ _ _ (fun _ => True)); [by apply keeps_gets|]. intros b _. apply keeps_if.
- ok_bind; [apply keep_mem_free|by apply keeps_ret].
- apply keeps_ret. split; [done|]. destruct (pl_is64 pl); auto.
Qed.
End ElfKeeps.

(** A handle with nothing loaded. *)
Definition idle (q : Quanta) : Prop := quanta_ok q /\ q_loaded q = false.

Lemma keep_idle_bus {A} (m : st Bus A) P : (forall p, keeps (mem_only p) m P) -> keeps idle (on_bus m) P.
Proof.
  intros Hm q [Hq Hl]. destruct (Hm (the_plat q) (the_bus q)) as [HP [Hb Ep]]; [split; [apply Hq|done]|].
  unfold run, exec, on_bus in *. rewrite machine_run. unfold bus, run, exec, the_bus in *.
  destruct (m (w_bus (q_world q))) as [a b]. cbn [fst snd] in *. split; [done|]. split; [|done].
  destruct Hq as [[_ Hh Hd] Hn Hs He Hdt Hu Hw]. constructor; [|done..| |].
  - apply world_ok_of; [done| |done]. intros h. by destruct (Hh h).
  - intros _. unfold the_plat, the_bus. cbn [q_world set_q_world w_bus set_w_bus]. rewrite Ep. by apply Hu.
  - intros Hl'. cbn in Hl'. congruence.
Qed.
(** A handle a program can be started on, whatever it held before. *)
Definition fit (q : Quanta) : Prop := world_ok (q_world q) /\ 1 <= q_nharts q <= QUANTA_MAX_HARTS.
Lemma ok_fit q : quanta_ok q -> fit q.
Proof. intros []. by split. Qed.
Lemma keep_fit_bus {A} (m : st Bus A) P : (forall p, keeps (mem_only p) m P) -> keeps fit (on_bus m) P.
Proof.
  intros Hm q [Hq Hn]. destruct (Hm (the_plat q) (the_bus q)) as [HP [Hb Ep]]; [split; [apply Hq|done]|].
  unfold run, exec, on_bus in *. rewrite machine_run. unfold bus, run, exec, the_bus in *.
  destruct (m (w_bus (q_world q))) as [a b]. cbn [fst snd] in *. split; [done|]. split; [|done].
  destruct Hq as [_ Hh Hd]. apply world_ok_of; [done| |done]. intros h. by destruct (Hh h).
Qed.
Lemma fit_start entry xl q : fit q -> rng 64 entry -> xl = 32 \/ xl = 64 -> started entry xl q (exec (start_at entry xl) q).
Proof. intros [Hq Hn]. by apply start_at_ok. Qed.
Lemma idle_start entry xl q : idle q -> rng 64 entry -> xl = 32 \/ xl = 64 -> started entry xl q (exec (start_at entry xl) q).
Proof. intros [Hq _]. by apply fit_start, ok_fit. Qed.

(** What a loader leaves: the handle is still idle, or a well-formed machine is loaded. *)
Definition file_ok (f : option (list Z)) : Prop := match f with Some l => bytes l /\ rng 64 (blen l) | None => True end.

Lemma keep_idle_elf f alloc m : file_ok f -> 0 <= m -> keeps idle (on_bus (elf_load f alloc m)) elf_result.
Proof.
  intros Hf Hm. apply keep_idle_bus. intros p. destruct f as [buf|]; [|by apply keeps_ret].
  destruct Hf. by apply keep_elf_load.
Qed.
Lemma keep_fit_elf f alloc m : file_ok f -> 0 <= m -> keeps fit (on_bus (elf_load f alloc m)) elf_result.
Proof.
  intros Hf Hm. apply keep_fit_bus. intros p. destruct f as [buf|]; [|by apply keeps_ret].
  destruct Hf. by apply keep_elf_load.
Qed.

(** An ELF file goes into a handle with nothing loaded, or replaces the program of one where
    it loads. *)
Definition replaces (q : Quanta) (f : option (list Z)) (alloc : bool) (m : Z) : Prop :=
  q_loaded q = false \/ exists r, run (elf_load f alloc m) (the_bus q) = Good r.

Lemma run_on_bus {A} (m : st Bus A) q : run (on_bus m) q = run m (the_bus q).
Proof. unfold run, on_bus. rewrite machine_run. unfold run, bus, the_bus. by destruct (m (w_bus (q_world q))). Qed.

(** Either nothing was loaded and the handle is still well formed, or it can be started. *)
Lemma elf_into f alloc m q : quanta_ok q -> replaces q f alloc m -> file_ok f -> 0 <= m ->
  let q1 := exec (on_bus (elf_load f alloc m)) q in
  match run (on_bus (elf_load f alloc m)) q with
  | Good (entry, xl) => fit q1 /\ rng 64 entry /\ (xl = 32 \/ xl = 64)
  | _ => quanta_ok q1
  end.
Proof.
  intros Hq Hr Hf Hm. cbv zeta. destruct (keep_fit_elf f alloc m Hf Hm q (ok_fit _ Hq)) as [He Hfit].
  destruct Hr as [Hl|[r Er]].
  - destruct (keep_idle_elf f alloc m Hf Hm q) as [_ [Hok _]]; [done|]. by destruct (run (on_bus _) q) as [[]| |].
  - rewrite run_on_bus in *. rewrite Er in *. by destruct r.
Qed.

(** A raw image that passes the size check always fits, so it replaces any program. *)
Lemma load_image_ok base size image entry alloc q : quanta_ok q -> rng 32 base -> rng 32 size -> rng 32 entry -> bytes image ->
  quanta_ok (exec (quanta_load_image base size image entry alloc) q).
Proof.
  intros Hq Hb Hs He Hi. unfold quanta_load_image. destruct (Z.ltb_spec size (Z.of_nat (length image))) as [|Hfit]; [apply Hq|].
  destruct alloc; cbn [negb]; [|apply Hq].
  assert (rng 64 base) by (by apply (rng_mono 32)). assert (rng 64 size) by (by apply (rng_mono 32)).
  assert (rng 64 entry) by (by apply (rng_mono 32)). rewrite exec_bind. set (q1 := exec (on_bus _) q).
  assert (fit q1) as Hi1 by (eapply keeps_exec; [apply keep_fit_bus; intros p; by apply keep_mem_init|by apply ok_fit]).
  assert (b_base (the_bus q1) = base /\ b_size (the_bus q1) = size) as [Eb Es] by done. clearbody q1.
  rewrite exec_bind. set (m := if bool_decide (image = []) then _ else _).
  assert (fit (exec m q1)) as Hi2.
  { eapply (keeps_exec fit m (fun _ => True)); [|done]. unfold m. destruct (bool_decide _); [by apply keeps_ret|].
    apply keep_fit_bus. intros p. by apply keep_mem_load. }
  assert (run m q1 = 0) as ->.
  { unfold m. destruct (bool_decide _); [done|]. rewrite run_on_bus. unfold run.
    destruct (mem_load base image (the_bus q1)) as [rc b] eqn:El. cbn [fst].
    apply mem_load_spec in El; rewrite ?Eb, ?Es in *; [|done|unfold rng in *; lia|done].
    rewrite decide_True in El by lia. by destruct El. }
  cbn [negb Z.eqb]. rewrite exec_bind. apply (sd_ok _ _ _ _ (fit_start entry 32 _ Hi2 ltac:(done) ltac:(auto))).
Qed.
Lemma load_elf_ok f alloc m q : quanta_ok q -> replaces q f alloc m -> file_ok f -> 0 <= m -> quanta_ok (exec (quanta_load_elf_ex f alloc m) q).
Proof.
  intros Hq Hr Hf Hm. unfold quanta_load_elf_ex. rewrite exec_bind. pose proof (elf_into f alloc m q Hq Hr Hf Hm) as H1.
  cbv zeta in H1. destruct (run _ q) as [[entry xl]| |]; [|exact H1..]. destruct H1 as (H1 & He & Hx). rewrite exec_bind, exec_bind, exec_ret.
  eapply keeps_exec; [apply keep_setup_boot|].
  by apply (sd_ok entry xl (exec (on_bus (elf_load f alloc m)) q)), fit_start.
Qed.
Lemma load_firmware_ok bios kernel args initrd alloc m q : quanta_ok q -> replaces q bios alloc m -> file_ok bios -> file_ok kernel ->
  bytes (default [] args) -> match initrd with Some f => file_ok f | None => True end -> 0 <= m ->
  quanta_ok (exec (quanta_load_firmware bios kernel args initrd alloc m) q).
Proof.
  intros Hq Hr Hf Hk Ha Hi Hm. unfold quanta_load_firmware. rewrite exec_bind. pose proof (elf_into bios alloc m q Hq Hr Hf Hm) as H1.
  cbv zeta in H1. destruct (run _ q) as [[entry xl]| |]; [|exact H1..]. destruct H1 as (H1 & He & Hx). rewrite exec_bind.
  assert (quanta_ok (exec (start_at entry xl) (exec (on_bus (elf_load bios alloc m)) q))) as H2
    by (by apply (sd_ok entry xl (exec (on_bus (elf_load bios alloc m)) q)), fit_start).
  eapply (keeps_exec quanta_ok _ (fun _ => True)); [|exact H2]. clear -Hk Ha Hi.
  apply (keeps_bind _ _ _ (fun _ => True)); [by apply keep_ok_q|]. intros q _. cbv zeta.
  apply (keeps_bind _ _ _ (fun _ => True)).
  { unfold load_raw_file. destruct kernel as [l|]; [|by apply keeps_ret]. destruct Hk.
    ok_bind; [apply keep_ok_load; [apply u64_rng|done]|by apply keeps_ret]. }
  intros rs _. apply keeps_if; [by apply keeps_ret|].
  assert (forall l, match initrd with Some f => slurp_file f | None => Some [] end = Some l -> bytes l) as Hl.
  { intros l. destruct initrd as [[[|x f]|]|]; cbn; [done|intros [= <-]; apply Hi|done|intros [= <-]; constructor]. }
  destruct (match initrd with Some f => slurp_file f | None => Some [] end) as [l|]; [|by apply keeps_ret].
  ok_bind; [by apply keep_setup_firmware; [|apply Hl]|by apply keeps_ret].
Qed.

(** ** Execution and host access *)

Lemma mem_inv_plat b0 b f : (plat_ok (b_plat b) -> plat_ok (f (b_plat b))) ->
  (let p := b_plat b in let p' := f p in has_ram p' = has_ram p /\ ram_base p' = ram_base p /\ ram_size p' = ram_size p /\ nharts p' = nharts p) ->
  mem_inv b0 b -> mem_inv b0 (upd_plat f b).
Proof.
  intros Hf (E1 & E2 & E3 & E4) [[[Hd Hp] Hb Hs Hfa] []]. split.
  - constructor; [|done..]. constructor; [done|by apply Hf].
  - constructor; cbn [upd_plat set_b_plat b_base b_size b_has_plat b_plat]; congruence.
Qed.
Lemma keep_tick : keeps quanta_ok (on_bus (modify (upd_plat plat_tick))) (fun _ => True).
Proof.
  apply keep_ok_bus. intros b0. apply keeps_modify; [done|]. intros b. apply mem_inv_plat; [|done].
  intros [[] ? ? ? ? ? ? ? ?]. constructor; try done. constructor; [apply u64_rng|done..].
Qed.
Lemma keep_cpu h : keeps quanta_ok (machine (cpu_step h)) (fun _ => True).
Proof. apply keep_ok_machine. intros w0. apply keep_cpu_step. Qed.
Lemma keep_next : keeps quanta_ok (modify (fun q => set_q_sched (if q_nharts q <=? q_sched q + 1 then 0 else q_sched q + 1) q)) (fun _ => True).
Proof.
  apply keeps_modify; [done|]. intros q [? ? Hs ? ? ? Hw]. constructor; try done; [|intros Hl; by destruct (Hw Hl)].
  intros Hl. cbn [q_sched q_nharts q_loaded set_q_sched] in *. specialize (Hs Hl). destruct (Z.leb_spec (q_nharts q) (q_sched q + 1)); lia.
Qed.
Lemma keep_stop r code q : rng 32 code -> quanta_ok q -> quanta_ok (machine_stop r code q).
Proof. intros Hc [? ? ? ? ? ? Hw]. constructor; try done. intros Hl. by destruct (Hw Hl). Qed.
Lemma keep_poll : keeps quanta_ok (modify machine_poll_halt) (fun _ => True).
Proof.
  apply keeps_modify; [done|]. intros q Hq. unfold machine_poll_halt.
  assert (forall i, cpu_ok (the_hart i q)) as Hh by (intros i; apply (qo_world _ Hq)).
  destruct (plat_poweroff_requested _) as [code|] eqn:Ep.
  - apply keep_stop; [|done]. unfold plat_poweroff_requested in Ep. destruct (poweroff _); [|done]. injection Ep as <-.
    apply (rng_mono 8); [lia|]. apply (qo_world _ Hq).
  - destruct (poll_harts _ _ _ _) as [a|]; [|done]. apply keep_stop; [apply Hh|done].
Qed.
Lemma keep_sched_turn : keeps quanta_ok sched_turn (fun _ => True).
Proof.
  unfold sched_turn. apply (keeps_bind _ _ _ (fun _ => True)); [by apply keep_ok_q|]. intros q _.
  ok_bind; [apply keeps_when; [done|apply keep_tick]|]. cbv zeta.
  ok_bind; [apply keeps_when; [done|apply keep_cpu]|]. ok_bind; [apply keep_next|]. ok_bind; [apply keep_poll|by apply keeps_ret].
Qed.
Lemma keep_quanta_step : keeps quanta_ok quanta_step (fun _ => True).
Proof.
  unfold quanta_step. ok_bind; [by apply keep_ok_q|]. apply keeps_if; [by apply keeps_ret|]. apply keeps_if; [by apply keeps_ret|].
  ok_bind; [apply keep_sched_turn|]. ok_bind; [by apply keep_ok_q|by apply keeps_ret].
Qed.
Lemma keep_run_loop fuel : forall cap steps, keeps quanta_ok (run_loop fuel cap steps) (fun _ => True).
Proof.
  induction fuel as [|fuel IH]; intros cap steps; cbn [run_loop]; [by apply keeps_ret|].
  ok_bind; [by apply keep_ok_q|]. apply keeps_if; [|by apply keeps_ret]. ok_bind; [apply keep_sched_turn|apply IH].
Qed.
Lemma keep_run_jit_loop fuel : forall cap steps, keeps quanta_ok (run_jit_loop fuel cap steps) (fun _ => True).
Proof.
  induction fuel as [|fuel IH]; intros cap steps; cbn [run_jit_loop]; [by apply keeps_ret|].
  ok_bind; [by apply keep_ok_q|]. apply keeps_if; [|by apply keeps_ret]. ok_bind; [apply keep_tick|].
  ok_bind; [|ok_bind; [apply keep_poll|apply IH]]. apply keeps_if; [by apply keeps_ret|].
  ok_bind; [by apply keep_ok_machine; intros; apply keeps_ret|]. ok_bind.
  { apply keeps_if; [ok_bind; [apply keep_cpu|by apply keeps_ret]|by apply keeps_ret]. }
  ok_bind; [|by apply keeps_ret]. apply keep_ok_bus. intros b0. apply keeps_modify; [done|]. intros b.
  apply mem_inv_plat; [|done]. intros [[] ? ? ? ? ? ? ? ?]. constructor; try done. constructor; [apply u64_rng|done..].
Qed.
Lemma keep_quanta_run max : keeps quanta_ok (quanta_run max) (fun _ => True).
Proof.
  unfold quanta_run. ok_bind; [by apply keep_ok_q|]. apply keeps_if; [by apply keeps_ret|]. ok_bind.
  - apply keeps_if; [apply keep_run_jit_loop|apply keep_run_loop].
  - match goal with r : option Z |- _ => destruct r; [|by apply keeps_ret] end. ok_bind; [by apply keep_ok_q|by apply keeps_ret].
Qed.

Lemma set_plat_ok p q : plat_ok p ->
  has_ram p = has_ram (the_plat q) /\ ram_base p = ram_base (the_plat q) /\ ram_size p = ram_size (the_plat q) /\ nharts p = nharts (the_plat q) ->
  quanta_ok q -> quanta_ok (exec (on_bus (modify (set_b_plat p))) q).
Proof.
  intros Hp E Hq. apply (shape_ok q); [|done]. split; [|done]. destruct (qo_world _ Hq) as [Hm Hh Hd]. constructor; [|done..].
  exact (mem_inv_plat _ _ (fun _ => p) (fun _ => Hp) E Hm).
Qed.
Lemma keep_uart_input byte : rng 8 byte -> keeps quanta_ok (quanta_uart_input byte) (fun _ => True).
Proof.
  intros Hb q Hq. split; [done|]. unfold quanta_uart_input. rewrite exec_bind, run_gets, exec_gets. cbn [id].
  destruct (negb (q_loaded q)); [exact Hq|]. assert (plat_ok (the_plat q)) as Hp by apply (qo_world _ Hq).
  unfold plat_uart_rx. destruct (rx_have (uart (the_plat q))); rewrite exec_bind, exec_ret; apply set_plat_ok; try done.
  destruct Hp as [? [] ? ? ? ? ? ? ?]. by constructor.
Qed.
Lemma keep_net_rx f : bytes f -> keeps quanta_ok (quanta_net_rx f) (fun _ => True).
Proof.
  intros Hf. unfold quanta_net_rx. ok_bind; [by apply keep_ok_q|]. apply keeps_if; [by apply keeps_ret|].
  apply keep_ok_bus. intros b0 b Hb. split; [done|]. apply (pres_mem_inv (plat_net_rx f)); [|done]. intros b1. by apply pres_plat_net_rx.
Qed.
Lemma keep_set_reg i v : rng 64 v -> keeps quanta_ok (quanta_set_reg i v) (fun _ => True).
Proof. intros Hv. apply keeps_when; [done|]. apply keep_ok_hart. intros c0 c. by apply cinv_reg_write. Qed.
Lemma keep_set_pc v : rng 64 v -> keeps quanta_ok (quanta_set_pc v) (fun _ => True).
Proof. intros Hv. apply keep_ok_hart. intros c0 c. by apply cinv_set_c_pc. Qed.
Lemma keep_mem_poke addr src : bytes src -> keeps quanta_ok (quanta_mem_write addr src) (fun _ => True).
Proof.
  intros Hs. unfold quanta_mem_write. ok_bind; [by apply keep_ok_q|]. destruct (in_range _ _ _); [|by apply keeps_ret].
  ok_bind; [|by apply keeps_ret]. apply keep_ok_bus. intros b0 b Hb. split; [done|]. apply (pres_mem_inv_data b0); [|done].
  intros d. by apply arr_rng_put_bytes.
Qed.

(** ** Configuration *)

Lemma keep_flags f : (forall q, q_world (f q) = q_world q /\ same_fields q (f q)) -> keeps quanta_ok (modify f) (fun _ => True).
Proof.
  intros Hf q Hq. split; [done|]. apply (shape_ok q); [|done].
  apply (keeps_exec _ (modify f) (fun _ => True) q); [by apply keep_config|]. apply shape_refl, Hq.
Qed.
Lemma keep_set_harts n : keeps quanta_ok (quanta_set_harts n) (fun _ => True).
Proof.
  intros q Hq. split; [done|]. unfold quanta_set_harts. rewrite exec_bind, run_gets, exec_gets. cbn [id].
  destruct (q_loaded q) eqn:Hl; [exact Hq|].
  destruct (Z.ltb_spec n 1); [exact Hq|]. destruct (Z.ltb_spec QUANTA_MAX_HARTS n); [exact Hq|]. cbn [orb].
  rewrite exec_bind, exec_modify, exec_ret. destruct Hq as [? ? ? ? ? ? ?]. constructor; try done; cbn [q_loaded set_q_nharts]; try congruence.
Qed.
Lemma keep_attach : keeps quanta_ok attach_dcaches (fun _ => True) /\ keeps quanta_ok attach_jit (fun _ => True).
Proof.
  split; intros q Hq; (split; [done|]); apply (shape_ok q); try done; eapply keeps_exec;
    [apply keep_attach_dcaches|apply shape_refl, Hq|apply keep_attach_jit|apply shape_refl, Hq].
Qed.
Lemma keep_set_dcache on : keeps quanta_ok (quanta_set_dcache on) (fun _ => True).
Proof.
  unfold quanta_set_dcache. ok_bind; [by apply keep_flags|]. ok_bind; [by apply keep_ok_q|]. apply keeps_when; [done|apply keep_attach].
Qed.
Lemma keep_set_jit on : keeps quanta_ok (quanta_set_jit on) (fun _ => True).
Proof.
  unfold quanta_set_jit. apply keeps_if; [by apply keeps_ret|]. ok_bind; [by apply keep_flags|]. ok_bind; [by apply keep_ok_q|].
  ok_bind; [apply keeps_when; [done|apply keep_attach]|by apply keeps_ret].
Qed.
Lemma keep_enable_cache a b c : keeps quanta_ok (quanta_enable_cache a b c) (fun _ => True).
Proof.
  unfold quanta_enable_cache. ok_bind; [by apply keep_ok_q|]. apply keeps_if; [by apply keeps_ret|].
  destruct (cache_init a b c); [|by apply keeps_ret..]. ok_bind.
  { apply keep_ok_machine. intros w0. apply (keep_cache w0 (fun _ => c0)). }
  ok_bind; [by apply keep_flags|]. ok_bind; [|by apply keeps_ret]. apply keeps_when; [done|]. apply keeps_for. intros i _.
  apply keep_ok_hart. intros c1 c2. apply cinv_set_c_cache.
Qed.
Lemma keep_attach_disk f w : file_ok f -> keeps quanta_ok (quanta_attach_disk_ex f w) (fun _ => True).
Proof.
  intros Hf. unfold quanta_attach_disk_ex. destruct f as [l|]; [|by apply keeps_ret]. destruct Hf as [Hb Hl].
  ok_bind; [|by apply keeps_ret]. apply keep_ok_bus. intros b0. apply keeps_modify; [done|]. intros b. apply mem_inv_plat; [|done].
  intros []. constructor; try done. constructor; [apply arr_rng_put_bytes; [done|apply arr_rng_empty; lia]|done|]. cbn. intros Hz. by destruct l.
Qed.
Lemma keep_set_backend tx : match tx with Some f => backend_ok f | None => True end -> keeps quanta_ok (quanta_net_set_backend tx) (fun _ => True).
Proof.
  intros Ht. apply keep_ok_bus. intros b0. apply keeps_modify; [done|]. intros b. apply mem_inv_plat; [|done].
  intros [? ? ? ? [] ? ? ? ?]. by constructor.
Qed.

(** ** Restoring a snapshot *)

Lemma foldl_harts f n : forall i w, let w' := foldl (fun w i => upd_hart i f w) w (zseq i n) in
  w' = set_w_harts (w_harts w') w
  /\ forall j, hart j w' = if decide (i <= j < i + Z.of_nat n) then f (hart j w) else hart j w.
Proof.
  induction n as [|n IH]; intros i w; cbn [zseq foldl].
  { split; [by destruct w|]. intros j. by rewrite decide_False by lia. }
  destruct (IH (i + 1) (upd_hart i f w)) as [E Hh]. split; [exact E|]. intros j. rewrite Hh, hart_upd.
  destruct (decide (i = j)) as [->|].
  - rewrite decide_False by lia. by rewrite decide_True by lia.
  - destruct (decide (i + 1 <= j < i + 1 + Z.of_nat n)); [by rewrite decide_True by lia|by rewrite decide_False by lia].
Qed.
Lemma restore_harts_spec s w : let w' := restore_harts s w in
  w_bus w' = w_bus w /\ w_dcaches w' = w_dcaches w /\ w_cache w' = w_cache w /\ w_jit w' = w_jit w
  /\ forall i, let c := default CPU0 (s_harts s !! i) in
    hart i w' = if decide (0 <= i < QUANTA_MAX_HARTS) then rewire_hart (s_cache_on s) c else c.
Proof.
  unfold restore_harts. destruct (foldl_harts (rewire_hart (s_cache_on s)) (Z.to_nat QUANTA_MAX_HARTS) 0 (set_w_harts (s_harts s) w)) as [E Hh].
  cbv zeta. split_and!; [by rewrite E..|]. intros i. rewrite Hh. done.
Qed.

(** The state [quanta_restore] reaches before it attaches the decode caches and the JIT. *)
Definition restored (s : QuantaSnapshot) (q : Quanta) : Quanta :=
  restore_fields s (set_q_world (set_w_bus (restore_bus s (the_bus q)) (restore_harts s (q_world q))) q).
Lemma restore_reaches s q : q_loaded q = true -> s_loaded_ s = true -> s_mem_size s = b_size (the_bus q) ->
  s_disk_size s = d_size (disk (the_plat q)) ->
  quanta_restore s q = (QUANTA_OK, exec attach_jit (exec attach_dcaches (restored s q))).
Proof.
  intros Hl Hs Hm Hd. unfold quanta_restore. st_run. cbn [id]. rewrite Hl, Hs, Hm, Hd, !Z.eqb_refl. cbn [negb orb].
  rewrite bind_run. st_run. rewrite bind_run.
  set (q1 := exec (on_bus _) _). assert (q1 = restored s q) as ->.
  { destruct (restore_harts_spec s (q_world q)) as (Eb & _). unfold q1, restored, on_bus, machine, bus, modify, exec, the_bus, restore_fields.
    cbn [fst snd q_world set_q_world set_q_loaded set_q_cache_on set_q_dtb_addr set_q_m_exit set_q_m_reason set_q_m_halted set_q_sched set_q_nharts].
    rewrite Eb. by destruct q. }
  rewrite bind_run. rewrite bind_run. done.
Qed.

Lemma snapshot_some q0 s : quanta_snapshot q0 = Some s -> q_loaded q0 = true /\ s_loaded_ s = true.
Proof. unfold quanta_snapshot. destruct (q_loaded q0) eqn:E; [|done]. by intros [= <-]. Qed.
(** A snapshot of [q0], possibly after a trip through a file: what [snapshot_write] does
    not store is left open. *)
Record snapshot_of (q0 : Quanta) (s : QuantaSnapshot) : Prop := {
  so_harts : forall i, default CPU0 (s_harts s !! i) = the_hart i q0;
  so_nharts : s_nharts s = q_nharts q0;
  so_sched : s_sched s = q_sched q0;
  so_halt : s_m_halted s = q_m_halted q0 /\ s_m_reason s = q_m_reason q0 /\ s_m_exit s = q_m_exit q0;
  so_dtb : s_dtb_addr s = q_dtb_addr q0;
  so_loaded : s_loaded_ s = true /\ q_loaded q0 = true;
  so_region : s_mem_base s = b_base (the_bus q0) /\ s_mem_size s = b_size (the_bus q0);
  so_ram : forall o, 0 <= o < b_size (the_bus q0) -> (s_mem_data s).[o] = (b_data (the_bus q0)).[o];
  so_plat : s_plat s = the_plat q0;
  so_disk_size : s_disk_size s = d_size (disk (the_plat q0));
  so_disk : d_present (disk (the_plat q0)) = true -> forall o, 0 <= o < d_size (disk (the_plat q0)) ->
    exists a, s_disk_data s = Some a /\ a.[o] = (d_data (disk (the_plat q0))).[o]
}.

Lemma snapshot_is q0 s : quanta_snapshot q0 = Some s -> snapshot_of q0 s.
Proof.
  unfold quanta_snapshot. destruct (q_loaded q0) eqn:El; [|done]. cbn [negb]. intros E. apply (inj Some) in E. subst s.
  constructor; try done. intros Hp o Ho. cbn [s_disk_data]. unfold the_plat in *. rewrite Hp.
  destruct (Z.eqb_spec (d_size (disk (b_plat (the_bus q0)))) 0); [lia|]. by eexists.
Qed.

Lemma rewire_ok c0 b c : cpu_inv c0 c -> cpu_inv c0 (rewire_hart b c).
Proof. intros. unfold rewire_hart. by apply cinv_set_c_jit, cinv_set_c_dcache, cinv_set_c_cache. Qed.
Lemma snapshot_hart q0 s q i : snapshot_of q0 s -> cpu_ok (the_hart i q0) ->
  cpu_inv (the_hart i q0) (the_hart i (restored s q)).
Proof.
  intros Hs Hc. destruct (restore_harts_spec s (q_world q)) as (_ & _ & _ & _ & Hh). specialize (Hh i). cbv zeta in Hh.
  assert (the_hart i (restored s q) = hart i (restore_harts s (q_world q))) as -> by reflexivity. rewrite Hh, (so_harts _ _ Hs).
  destruct (decide _); [by apply rewire_ok|done].
Qed.

Lemma net_ok_txlog l n : net_ok n -> net_ok (set_n_txlog l n).
Proof. intros []. by constructor. Qed.
Lemma restored_plat_ok s live : plat_ok (s_plat s) -> plat_ok live -> rng 64 (s_mem_base s) -> rng 64 (s_mem_size s) ->
  s_disk_size s = d_size (disk live) -> (forall a, s_disk_data s = Some a -> arr_rng 8 a) -> plat_ok (restore_plat s live).
Proof.
  intros [] [? ? ? ? ? [? ? Hp] ? ? ?] Hb Hm Hd Ha. unfold restore_plat. constructor; try done.
  - by apply net_ok_txlog.
  - constructor; cbn; [|by rewrite Hd|by rewrite Hd]. destruct (s_disk_data s) as [a|]; [|done].
    destruct (d_present _); [by apply Ha|done].
Qed.

(** The contents a snapshot carries are bytes. *)
Definition snapshot_bytes (s : QuantaSnapshot) : Prop :=
  arr_rng 8 (s_mem_data s) /\ forall a, s_disk_data s = Some a -> arr_rng 8 a.
Lemma snapshot_is_bytes q0 s : quanta_ok q0 -> quanta_snapshot q0 = Some s -> snapshot_bytes s.
Proof.
  intros H0. assert (mem_ok (the_bus q0)) as [[Hd Hp] _ _ _] by apply (qo_world _ H0). unfold quanta_snapshot.
  destruct (negb _); [done|]. intros E. apply (inj Some) in E. rewrite <- E. split; [exact Hd|]. intros a. cbn.
  destruct (_ && _); [|done]. intros [= <-]. apply Hp.
Qed.

Lemma restored_ok q0 s q : quanta_ok q0 -> snapshot_of q0 s -> snapshot_bytes s -> world_ok (q_world q) ->
  s_disk_size s = d_size (disk (the_plat q)) -> rng 64 (s_mem_fault_addr s) -> quanta_ok (restored s q).
Proof.
  intros H0 Hs [Hd Hk] Hq Hsz Hfa.
  assert (forall i, cpu_inv (the_hart i q0) (the_hart i (restored s q))) as Hh.
  { intros i. apply snapshot_hart; [done|]. apply (qo_world _ H0). }
  destruct (restore_harts_spec s (q_world q)) as (_ & Ed & _).
  assert (mem_ok (the_bus q0)) as [[_ Hp0] Hb0 Hs0 _] by apply (qo_world _ H0).
  assert (plat_ok (the_plat q)) as Hp by apply Hq.
  destruct Hs as [_ En Es (_ & _ & Ee) Edt [El El0] [Eb Em] _ Epl _ _].
  destruct (qo_wired _ H0 El0) as [_ _ _ _ _ Hw0]. destruct H0 as [_ Hn Hsc He Hdt _ _]. specialize (Hsc El0).
  assert (q_nharts (restored s q) = q_nharts q0) as En' by exact En.
  assert (q_sched (restored s q) = q_sched q0) as Es' by exact Es.
  assert (q_loaded (restored s q) = true) as El' by exact El.
  constructor; rewrite ?En', ?Es'; [|done|done| | |congruence|].
  - apply world_ok_of.
    + constructor; cbn; [|by rewrite Eb|by rewrite Em|done]. constructor; [exact Hd|].
      apply restored_plat_ok; [by rewrite Epl|done|by rewrite Eb|by rewrite Em|done..].
    + intros h. apply (Hh h).
    + intros h d Hd'. apply (wi_dcaches _ _ Hq h d). rewrite <- Ed. exact Hd'.
  - assert (q_m_exit (restored s q) = q_m_exit q0) as -> by exact Ee. done.
  - assert (q_dtb_addr (restored s q) = q_dtb_addr q0) as -> by exact Edt. done.
  - intros _. constructor; try done. intros i Hi. rewrite En' in Hi.
    destruct (Hh i) as [_ -> ->]. auto.
Qed.
Lemma restore_attached_ok q0 s q : quanta_ok q0 -> snapshot_of q0 s -> snapshot_bytes s -> world_ok (q_world q) ->
  rng 64 (s_mem_fault_addr s) -> q_loaded q = true -> s_mem_size s = b_size (the_bus q) ->
  s_disk_size s = d_size (disk (the_plat q)) -> quanta_ok (exec (quanta_restore s) q).
Proof.
  intros H0 Hs Hb Hq Hf Hl Em Ed. unfold exec. rewrite restore_reaches by (done || by destruct (so_loaded _ _ Hs)). cbn [snd].
  destruct keep_attach as [Ha Hj].
  apply (keeps_exec quanta_ok attach_jit _ _ Hj), (keeps_exec quanta_ok attach_dcaches _ _ Ha). by apply (restored_ok q0).
Qed.

Lemma restore_refused s q : q_loaded q = false \/ s_mem_size s <> b_size (the_bus q) \/ s_disk_size s <> d_size (disk (the_plat q)) ->
  quanta_restore s q = (QUANTA_ERR_INVAL, q).
Proof.
  unfold quanta_restore. st_run. cbn [id]. intros [->|[H|H]]; [done| |].
  all: destruct (negb (q_loaded q) || _); [done|].
  - by rewrite (proj2 (Z.eqb_neq _ _)) by done.
  - rewrite (proj2 (Z.eqb_neq (s_disk_size s) _)) by done. by rewrite orb_true_r.
Qed.

Lemma keep_restore q0 s : quanta_ok q0 -> quanta_snapshot q0 = Some s -> keeps quanta_ok (quanta_restore s) (fun _ => True).
Proof.
  intros H0 Es q Hq. split; [done|]. pose proof (snapshot_is _ _ Es) as Hs.
  destruct (q_loaded q) eqn:Hl; [|unfold exec; by rewrite restore_refused by auto].
  destruct (decide (s_mem_size s = b_size (the_bus q))) as [Em|Em]; [|unfold exec; by rewrite restore_refused by auto].
  destruct (decide (s_disk_size s = d_size (disk (the_plat q)))) as [Ed|Ed]; [|unfold exec; by rewrite restore_refused by auto].
  apply (restore_attached_ok q0); try done; [by apply (snapshot_is_bytes q0)|apply Hq|].
  unfold quanta_snapshot in Es. destruct (negb _); [done|]. apply (inj Some) in Es. rewrite <- Es. apply (qo_world _ H0).
Qed.

(** ** The fresh handle *)

Lemma quanta_create_ok : quanta_ok quanta_create.
Proof.
  constructor; try done; try (by apply rng_const).
  apply world_ok_of.
  - constructor; try (by apply rng_const). constructor; [apply arr_rng_empty; lia|].
    assert (vq_ok Virtqueue0) by (constructor; by apply rng_const).
    constructor; try (by apply rng_const); constructor; try (by apply rng_const); try (apply arr_rng_empty; lia); try done.
  - intros h. unfold hart. cbn. rewrite lookup_empty. apply CPU0_ok.
  - intros h d. cbn. by rewrite lookup_empty.
Qed.

(** ** Host access *)

(** A range of guest addresses that lies wholly in RAM, and where it is in the array. *)
Lemma in_range_spec b addr len : mem_ok b -> rng 64 addr -> 0 <= len ->
  in_range b addr len = if decide (b_base b <= addr /\ addr + len <= b_base b + b_size b) then Some (addr - b_base b) else None.
Proof.
  intros [_ Hb Hs _] Ha Hl. unfold in_range, rng in *. destruct (Z.ltb_spec addr (b_base b)); cbn [orb]; [by rewrite decide_False by lia|].
  destruct (Z.ltb_spec (b_size b) len); cbn [orb]; [by rewrite decide_False by lia|].
  unfold u64. rewrite (wrap_small 64 (addr - b_base b)), (wrap_small 64 (b_size b - len)) by (unfold rng; lia).
  destruct (Z.ltb_spec (b_size b - len) (addr - b_base b)); [by rewrite decide_False by lia|by rewrite decide_True by lia].
Qed.
