(* ===== verification/EngineFile.v ===== *)
(** * Snapshot files

    Reading a file gives back the snapshot that was written, and loading one into a handle
    with nothing loaded keeps the handle well formed. *)

From S2P Require Import Prelude Device DeviceInv DeviceThms Memory Softfloat Cpu CpuInv Elf Dtb Engine EngineInv.

(** ** The file *)

Lemma get_put_u32 v : rng 32 v -> snap_get_u32 (fun i => nth (Z.to_nat i) (snap_put_u32 v) 0) = v.
Proof. intros Hv. change (u8 v .| u32 (u8 (v >> 8) << 8) .| u32 (u8 (v >> 16) << 16) .| u32 (u8 (v >> 24) << 24) = v). zbits. Qed.
Lemma get_put_u64 v : rng 64 v -> snap_get_u64 (fun i => nth (Z.to_nat i) (snap_put_u64 v) 0) = v.
Proof.
  intros Hv. change (0 .| u64 (u8 (v >> 0) << 0) .| u64 (u8 (v >> 8) << 8) .| u64 (u8 (v >> 16) << 16) .| u64 (u8 (v >> 24) << 24)
    .| u64 (u8 (v >> 32) << 32) .| u64 (u8 (v >> 40) << 40) .| u64 (u8 (v >> 48) << 48) .| u64 (u8 (v >> 56) << 56) = v). zbits.
Qed.

Section SnapFile.
Context (sizeof_cpu sizeof_platform : Z) (Hcpu : rng 32 sizeof_cpu) (Hplat : rng 32 sizeof_platform).
#[local] Abbreviation header := (snapshot_header sizeof_cpu sizeof_platform).

Lemma header_magic s : take 8 (header s) = SNAP_MAGIC.
Proof. reflexivity. Qed.
Lemma header_length s : length (header s) = 72%nat.
Proof. reflexivity. Qed.

Record header_fields (s : QuantaSnapshot) : Prop := {
hf_nharts : 1 <= s_nharts s <= QUANTA_MAX_HARTS;
hf_sched : 0 <= s_sched s < s_nharts s;
hf_exit : rng 32 (s_m_exit s);
hf_dtb : rng 32 (s_dtb_addr s);
hf_base : rng 64 (s_mem_base s);
hf_size : rng 64 (s_mem_size s);
hf_disk : rng 64 (s_disk_size s)
}.

(** Each header word is read back as it was written. *)
Lemma header_words s : header_fields s ->
let u32_at o := snap_get_u32 (fun i => nth (Z.to_nat (o + i)) (header s) 0) in
let u64_at o := snap_get_u64 (fun i => nth (Z.to_nat (o + i)) (header s) 0) in
u32_at 8 = SNAP_FORMAT_VERSION /\ u32_at 12 = sizeof_cpu /\ u32_at 16 = sizeof_platform /\ u32_at 20 = QUANTA_MAX_HARTS
/\ u32_at 24 = s_nharts s /\ u32_at 28 = s_sched s /\ u32_at 32 = b2z (s_m_halted s)
/\ u32_at 36 = halt_code (s_m_reason s) /\ u32_at 40 = s_m_exit s /\ u32_at 44 = s_dtb_addr s
/\ u64_at 48 = s_mem_base s /\ u64_at 56 = s_mem_size s /\ u64_at 64 = s_disk_size s.
Proof.
intros []. assert (forall v, rng 32 v -> snap_get_u32 (fun i => nth (Z.to_nat i) (snap_put_u32 (u32 v)) 0) = v) as G.
{ intros v Hv. unfold u32 at 1. rewrite wrap_small by (done || lia). by apply get_put_u32. }
assert (rng 32 (s_nharts s)) by (unfold rng, QUANTA_MAX_HARTS in *; lia).
assert (rng 32 (s_sched s)) by (unfold rng, QUANTA_MAX_HARTS in *; lia). cbv zeta. split_and!.
- reflexivity.
- exact (G _ Hcpu).
- exact (G _ Hplat).
- reflexivity.
- by refine (G _ _).
- by refine (G _ _).
- refine (get_put_u32 (b2z (s_m_halted s)) _). by destruct (s_m_halted s); apply rng_const.
- refine (get_put_u32 (halt_code (s_m_reason s)) _). by destruct (s_m_reason s); apply rng_const.
- by refine (get_put_u32 _ _).
- by refine (get_put_u32 _ _).
- by refine (get_put_u64 _ _).
- by refine (get_put_u64 _ _).
- by refine (get_put_u64 _ _).
Qed.

Lemma lookup_zseq n : forall i k, (k < n)%nat -> zseq i n !! k = Some (i + Z.of_nat k).
Proof.
induction n as [|n IH]; intros i k Hk; [lia|]. destruct k as [|k]; cbn; [by rewrite Z.add_0_r|].
rewrite IH by lia. f_equal. lia.
Qed.
Lemma length_buffer n a : length (buffer n a) = Z.to_nat n.
Proof. unfold buffer. by rewrite length_map, length_zseq. Qed.
Lemma buffer_put n a o : 0 <= o < n -> (put_bytes 0 (buffer n a) ∅).[o] = a.[o].
Proof.
intros Ho. pose proof (slice_put_bytes (buffer n a) 0 ∅) as E. rewrite length_buffer in E.
apply (f_equal (fun l => l !! Z.to_nat o)) in E. revert E. unfold Device.slice, buffer. rewrite !list_lookup_fmap, !lookup_zseq by lia.
rewrite Z.add_0_l, Z2Nat.id by lia. by intros [= ->].
Qed.

(** What reading the file of [s] gives: the fault latch and the cache switch are not in it. *)
Definition from_file (s : QuantaSnapshot) : QuantaSnapshot :=
mkQuantaSnapshot (s_harts s) (s_nharts s) (s_sched s) (s_m_halted s) (s_m_reason s) (s_m_exit s) (s_dtb_addr s)
  false true (s_mem_base s) (s_mem_size s) false 0 (put_bytes 0 (buffer (s_mem_size s) (s_mem_data s)) ∅) (s_plat s)
  (if s_disk_size s =? 0 then None else Some (put_bytes 0 (buffer (s_disk_size s) (default ∅ (s_disk_data s))) ∅))
  (s_disk_size s).

Lemma read_written s : header_fields s -> (s_disk_size s <> 0 -> is_Some (s_disk_data s)) ->
snapshot_read sizeof_cpu sizeof_platform (snapshot_write sizeof_cpu sizeof_platform s) = Some (from_file s).
Proof.
intros Hf Hd. destruct (header_words s Hf) as (E8 & E12 & E16 & E20 & E24 & E28 & E32 & E36 & E40 & E44 & E48 & E56 & E64).
destruct Hf as [[] [] _ _ _ [] []]. unfold snapshot_read, snapshot_write. cbn [f_header f_harts f_plat f_mem f_disk].
rewrite header_length, header_magic, bool_decide_true by done. cbv zeta.
rewrite E8, E12, E16, E20, E24, E28, E32, E36, E40, E44, E48, E56, E64. rewrite !Z.eqb_refl.
assert (forall v, 0 <= v <= QUANTA_MAX_HARTS -> s32 v = v) as G by (intros; apply sgn_small; unfold QUANTA_MAX_HARTS in *; lia).
rewrite !G by lia. cbn [negb orb]. rewrite (proj2 (Z.ltb_ge _ 1)) by lia. rewrite (proj2 (Z.ltb_ge QUANTA_MAX_HARTS _)) by lia.
change (Z.of_nat 72 <? SNAP_HDR_SIZE) with false. cbv iota. cbn [orb option_bind mbind].
rewrite length_buffer, Z2Nat.id by done. rewrite Z.ltb_irrefl. rewrite take_ge by (by rewrite length_buffer).
assert (halt_of_code (halt_code (s_m_reason s)) = s_m_reason s) as -> by (by destruct (s_m_reason s)).
assert (negb (b2z (s_m_halted s) =? 0) = s_m_halted s) as -> by (by destruct (s_m_halted s)).
unfold from_file. destruct (Z.eqb_spec (s_disk_size s) 0) as [|Hz]; [done|]. destruct (Hd Hz) as [a Ea]. rewrite Ea.
cbn [negb andb default]. rewrite length_buffer, Z2Nat.id, Z.ltb_irrefl by done. by rewrite take_ge by (by rewrite length_buffer).
Qed.
End SnapFile.

(** A snapshot read back from its file stands for the same machine. *)
Lemma from_file_is q0 s : quanta_snapshot q0 = Some s -> snapshot_of q0 (from_file s).
Proof.
  intros Es. pose proof (snapshot_is _ _ Es) as [? ? ? ? ? [? ?] [? Em] Hram ? Ed Hdisk]. constructor; try done.
  - intros o Ho. cbn [s_mem_data from_file]. rewrite buffer_put by lia. by apply Hram.
  - intros Hp o Ho. destruct (Hdisk Hp o Ho) as (a & Ea & <-). cbn [s_disk_data from_file]. rewrite Ed, Ea.
    destruct (Z.eqb_spec (d_size (disk (the_plat q0))) 0); [lia|]. eexists. split; [done|]. by apply buffer_put.
Qed.
Lemma snapshot_fields q0 s : quanta_ok q0 -> quanta_snapshot q0 = Some s -> header_fields s.
Proof.
  intros [Hw Hn Hs He Hd _ _] Es. destruct (snapshot_some _ _ Es) as [Hl _]. specialize (Hs Hl).
  pose proof (wi_mem _ _ Hw) as [[[_ Hp] Hb Hz _] _]. unfold quanta_snapshot in Es. rewrite Hl in Es. apply (inj Some) in Es. subst s.
  constructor; try done. apply Hp.
Qed.

(** ** Loading one *)

(** The handle [quanta_load_snapshot] restores into: memory of the snapshot's size, and its
    disk if it has one, otherwise whatever disk the handle had. *)
Definition load_target (s : QuantaSnapshot) (q : Quanta) : Quanta :=
  let b := mem_init (s_mem_base s) (s_mem_size s) (the_plat q) (b_host (the_bus q)) in
  let b := if negb (s_disk_size s =? 0)
           then upd_disk (fun d => set_d_size (s_disk_size s) (set_d_data ∅ (set_d_present true d))) b else b in
  let b := upd_disk (fun d => set_d_writable false (set_d_file false d)) b in
  set_q_loaded true (set_q_nharts (s_nharts s) (set_q_world (set_w_bus b (q_world q)) q)).
(** What it undoes when the restore is refused. *)
Definition unload (q : Quanta) : Quanta :=
  let b := upd_disk (fun d => set_d_size 0 (set_d_present false d)) (mem_free (the_bus q)) in
  set_q_loaded false (set_q_world (set_w_bus b (q_world q)) q).

Lemma load_snapshot_eq sc sp f s q : q_loaded q = false -> snapshot_read sc sp f = Some s ->
  quanta_load_snapshot sc sp (Some f) true q =
  let r := run (quanta_restore s) (load_target s q) in
  let q' := exec (quanta_restore s) (load_target s q) in
  (r, if decide (r = QUANTA_OK) then q' else unload q').
Proof.
  intros Hl Hf. unfold quanta_load_snapshot. rewrite bind_gets. cbn [id]. rewrite Hl. cbn [mbind option_bind]. rewrite Hf. cbn [negb].
  rewrite bind_run, bind_run, bind_run, !bind_modify, bind_run.
  match goal with |- context [run (quanta_restore s) ?x] => assert (x = load_target s q) as -> end.
  { unfold load_target, the_plat, the_bus. by destruct (s_disk_size s =? 0), q as [[]]. }
  generalize (load_target s q). intros q1. cbv zeta. rewrite bind_run.
  destruct (run (quanta_restore s) q1) eqn:Er; cbn [bool_decide]; try reflexivity.
  all: generalize (exec (quanta_restore s) q1); intros q2; by destruct q2 as [[]].
Qed.

Lemma buffer_bytes n a : arr_rng 8 a -> bytes (buffer n a).
Proof. intros Ha. unfold buffer. apply Forall_fmap, list.Forall_forall. intros i _. apply Ha. Qed.
Lemma from_file_bytes s : snapshot_bytes s -> snapshot_bytes (from_file s).
Proof.
  assert (forall n a, arr_rng 8 a -> arr_rng 8 (put_bytes 0 (buffer n a) ∅)) as Hb
    by (intros; apply arr_rng_put_bytes; [by apply buffer_bytes|apply arr_rng_empty; lia]).
  intros [Hm Hd]. split; [by apply Hb|]. intros a. cbn [s_disk_data from_file]. destruct (_ =? 0); [done|].
  intros E. apply (inj Some) in E. rewrite <- E. apply Hb. destruct (s_disk_data s) as [d|]; [by apply Hd|apply arr_rng_empty; lia].
Qed.

Section Saved.
Context (sc sp : Z) (q0 : Quanta) (s : QuantaSnapshot).
Hypothesis (Hsc : rng 32 sc) (Hsp : rng 32 sp) (H0 : quanta_ok q0) (Es : quanta_snapshot q0 = Some s).

(** The file of a well-formed machine is read back. *)
Lemma saved_reads : snapshot_read sc sp (snapshot_write sc sp s) = Some (from_file s).
Proof.
pose proof (snapshot_is _ _ Es) as Hs.
apply read_written; [done..|by apply (snapshot_fields q0)|]. rewrite (so_disk_size _ _ Hs). intros Hn.
assert (disk_ok (disk (the_plat q0))) as [_ Hr Hp] by apply (qo_world _ H0). unfold rng in Hr.
destruct (so_disk _ _ Hs (Hp Hn) 0) as (a & -> & _); [lia|done].
Qed.

Context (q : Quanta).
Hypothesis (Hq : quanta_ok q) (Hl : q_loaded q = false).

(** The memory and the disk it is restored into. *)
Lemma load_target_sizes : let q1 := load_target (from_file s) q in
q_loaded q1 = true /\ b_size (the_bus q1) = s_mem_size s
/\ d_size (disk (the_plat q1)) = (if s_disk_size s =? 0 then d_size (disk (the_plat q)) else s_disk_size s)
/\ (d_size (disk (the_plat q1)) <> 0 -> d_present (disk (the_plat q1)) = true).
Proof.
assert (disk_ok (disk (the_plat q))) as [_ _ Hp] by apply (qo_world _ Hq). cbv zeta. unfold load_target. cbn [from_file s_disk_size].
destruct (s_disk_size s =? 0); by split_and!.
Qed.
Lemma load_target_ok : world_ok (q_world (load_target (from_file s) q)).
Proof.
destruct (qo_world _ Hq) as [[[[_ Hp] _ _ _] _] Hh Hd]. pose proof (snapshot_fields _ _ H0 Es) as [_ _ _ _ Hb Hm Hk].
assert (forall d, disk_ok d -> disk_ok (set_d_writable false (set_d_file false d))) as Hf by (intros d []; by constructor).
assert (disk_ok (set_d_size (s_disk_size s) (set_d_data ∅ (set_d_present true (disk (the_plat q)))))) as Hdk
  by (constructor; [apply arr_rng_empty; lia|done|done]).
apply world_ok_of; [|intros h; by destruct (Hh h)|exact Hd].
destruct Hp as [? ? ? ? ? Hdisk ? ? ?]. apply Hf in Hdisk, Hdk.
unfold load_target. cbn [from_file s_disk_size]. destruct (s_disk_size s =? 0); cbn [negb].
all: constructor; [|done|done|by apply rng_const]; constructor; [apply arr_rng_empty; lia|by constructor].
Qed.

(** A handle with a disk of its own refuses a machine that has none. *)
Definition disk_clash : bool := (d_size (disk (the_plat q0)) =? 0) && negb (d_size (disk (the_plat q)) =? 0).

Lemma load_saved : let q1 := load_target (from_file s) q in
quanta_load_snapshot sc sp (Some (snapshot_write sc sp s)) true q
= if disk_clash then (QUANTA_ERR_INVAL, unload q1) else (QUANTA_OK, exec (quanta_restore (from_file s)) q1).
Proof.
cbv zeta. rewrite (load_snapshot_eq sc sp _ _ q Hl saved_reads). cbv zeta.
destruct load_target_sizes as (Hl1 & Hm1 & Hd1 & _). pose proof (so_disk_size _ _ (snapshot_is _ _ Es)) as Ed.
unfold disk_clash. rewrite <- Ed.
destruct (Z.eqb_spec (s_disk_size s) 0) as [E0|E0], (Z.eqb_spec (d_size (disk (the_plat q))) 0) as [E1|E1]; cbn [negb andb].
2: { assert (quanta_restore (from_file s) (load_target (from_file s) q) = (QUANTA_ERR_INVAL, load_target (from_file s) q)) as E
       by (apply restore_refused; right; right; cbn [from_file s_disk_size]; lia).
     unfold run, exec. rewrite E. by rewrite decide_False. }
all: assert (run (quanta_restore (from_file s)) (load_target (from_file s) q) = QUANTA_OK) as ->
       by (unfold run; rewrite restore_reaches; [done|done|done|by cbn [from_file s_mem_size]|cbn [from_file s_disk_size]; lia]).
all: by rewrite decide_True.
Qed.

Lemma unload_ok q1 : world_ok (q_world q1) -> 1 <= q_nharts q1 <= QUANTA_MAX_HARTS -> rng 32 (q_m_exit q1) -> rng 32 (q_dtb_addr q1) ->
has_ram (the_plat q1) = false -> quanta_ok (unload q1).
Proof.
intros [[[[_ Hp] Hb _ Hf] _] Hh Hd] Hn He Hdt Hr. constructor; try done.
apply world_ok_of; [|intros h; by destruct (Hh h)|exact Hd]. constructor; [|done|by apply rng_const|done].
constructor; [apply arr_rng_empty; lia|]. destruct Hp as [? ? ? ? ? [] ? ? ?]. constructor; try done.
Qed.

Lemma load_saved_ok : quanta_ok (exec (quanta_load_snapshot sc sp (Some (snapshot_write sc sp s)) true) q).
Proof.
unfold exec at 1. rewrite load_saved. destruct disk_clash eqn:Ec; cbn [snd].
- apply unload_ok; [apply load_target_ok|..].
  + apply (snapshot_fields _ _ H0 Es).
  + apply (qo_exit _ Hq).
  + apply (qo_dtb _ Hq).
  + rewrite <- (qo_unloaded _ Hq Hl). unfold load_target. by destruct (negb _).
- destruct load_target_sizes as (Hl1 & Hm1 & Hd1 & _). pose proof (so_disk_size _ _ (snapshot_is _ _ Es)) as Ed.
  apply (restore_attached_ok q0); [done|by apply from_file_is|by apply from_file_bytes, (snapshot_is_bytes q0)
    |apply load_target_ok|by apply (rng_const 64 0)|done|done|].
  unfold disk_clash in Ec. rewrite <- Ed in Ec. cbn [from_file s_disk_size]. rewrite Hd1.
  destruct (Z.eqb_spec (s_disk_size s) 0), (Z.eqb_spec (d_size (disk (the_plat q))) 0); try done. lia.
Qed.
End Saved.
