(* ===== verification/EngineReach.v ===== *)
(** * The handles a host program can obtain

    Every sequence of API calls on a handle, and that each leaves it well formed.

    Two calls are restricted to what keeps the handle a machine.  An ELF or firmware file is
    loaded into a handle that holds a program only if the file loads: a load that fails
    after the new memory is made leaves the old program marked as loaded with no memory
    ([failed_reload]).  A snapshot file is one that [quanta_save_snapshot] wrote: the
    scheduler word of a foreign file is not checked. *)

From S2P Require Import Prelude Device DeviceInv Memory Softfloat Cpu CpuInv Elf ElfThms Dtb Engine EngineInv EngineFile.

Lemma load_snapshot_ok sc sp q0 file alloc q : quanta_ok q0 -> rng 32 sc -> rng 32 sp ->
  quanta_save_snapshot sc sp q0 true = (QUANTA_OK, Some file) -> quanta_ok q ->
  quanta_ok (exec (quanta_load_snapshot sc sp (Some file) alloc) q).
Proof.
  intros H0 Hsc Hsp Ef Hq. unfold quanta_save_snapshot in Ef. destruct (quanta_snapshot q0) as [s|] eqn:Es; [|done].
  assert (snapshot_write sc sp s = file) as <- by congruence. clear Ef.
  destruct (q_loaded q) eqn:Hl; [by unfold quanta_load_snapshot, exec; rewrite bind_gets; cbn [id]; rewrite Hl|].
  destruct alloc; [by apply (load_saved_ok sc sp q0)|].
  unfold quanta_load_snapshot, exec. rewrite bind_gets. cbn [id]. rewrite Hl. cbn [mbind option_bind].
  by rewrite (saved_reads sc sp q0).
Qed.

(** The handles a host program can obtain.  Files and frames hold bytes, and arguments have
    their C types. *)
Inductive reachable : Quanta -> Prop :=
| r_create : reachable quanta_create
| r_set_harts n q : reachable q -> reachable (exec (quanta_set_harts n) q)
| r_set_dcache on q : reachable q -> reachable (exec (quanta_set_dcache on) q)
| r_set_jit on q : reachable q -> reachable (exec (quanta_set_jit on) q)
| r_set_netdev on q : reachable q -> reachable (exec (quanta_set_netdev_advertised on) q)
| r_set_disk on q : reachable q -> reachable (exec (quanta_set_disk_advertised on) q)
| r_enable_cache a b c q : reachable q -> reachable (exec (quanta_enable_cache a b c) q)
| r_load_image base size image entry alloc q : reachable q ->
    rng 32 base -> rng 32 size -> rng 32 entry -> bytes image ->
    reachable (exec (quanta_load_image base size image entry alloc) q)
| r_load_elf f alloc m q : reachable q -> replaces q f alloc m -> file_ok f -> 0 <= m ->
    reachable (exec (quanta_load_elf_ex f alloc m) q)
| r_load_firmware bios kernel args initrd alloc m q : reachable q -> replaces q bios alloc m ->
    file_ok bios -> file_ok kernel -> bytes (default [] args) ->
    match initrd with Some f => file_ok f | None => True end -> 0 <= m ->
    reachable (exec (quanta_load_firmware bios kernel args initrd alloc m) q)
| r_attach_disk f w q : reachable q -> file_ok f -> reachable (exec (quanta_attach_disk_ex f w) q)
| r_set_backend tx q : reachable q -> match tx with Some f => backend_ok f | None => True end ->
    reachable (exec (quanta_net_set_backend tx) q)
| r_step q : reachable q -> reachable (exec quanta_step q)
| r_run max q : reachable q -> reachable (exec (quanta_run max) q)
| r_uart byte q : reachable q -> rng 8 byte -> reachable (exec (quanta_uart_input byte) q)
| r_net f q : reachable q -> bytes f -> reachable (exec (quanta_net_rx f) q)
| r_set_reg i v q : reachable q -> rng 64 v -> reachable (exec (quanta_set_reg i v) q)
| r_set_pc v q : reachable q -> rng 64 v -> reachable (exec (quanta_set_pc v) q)
| r_mem_write addr src q : reachable q -> bytes src -> reachable (exec (quanta_mem_write addr src) q)
| r_restore q0 s q : reachable q0 -> quanta_snapshot q0 = Some s -> reachable q -> reachable (exec (quanta_restore s) q)
| r_load_snapshot sc sp q0 file alloc q : reachable q0 -> rng 32 sc -> rng 32 sp ->
    quanta_save_snapshot sc sp q0 true = (QUANTA_OK, Some file) -> reachable q ->
    reachable (exec (quanta_load_snapshot sc sp (Some file) alloc) q).

Lemma reachable_ok q : reachable q -> quanta_ok q.
Proof.
  induction 1.
  - apply quanta_create_ok.
  - eapply keeps_exec; [apply keep_set_harts|done].
  - eapply keeps_exec; [apply keep_set_dcache|done].
  - eapply keeps_exec; [apply keep_set_jit|done].
  - eapply keeps_exec; [by apply keep_flags|done].
  - eapply keeps_exec; [by apply keep_flags|done].
  - eapply keeps_exec; [apply keep_enable_cache|done].
  - by apply load_image_ok.
  - by apply load_elf_ok.
  - by apply load_firmware_ok.
  - eapply keeps_exec; [by apply keep_attach_disk|done].
  - eapply keeps_exec; [by apply keep_set_backend|done].
  - eapply keeps_exec; [apply keep_quanta_step|done].
  - eapply keeps_exec; [apply keep_quanta_run|done].
  - eapply keeps_exec; [by apply keep_uart_input|done].
  - eapply keeps_exec; [by apply keep_net_rx|done].
  - eapply keeps_exec; [by apply keep_set_reg|done].
  - eapply keeps_exec; [by apply keep_set_pc|done].
  - eapply keeps_exec; [by apply keep_mem_poke|done].
  - eapply keeps_exec; [by apply (keep_restore q0)|done].
  - by apply (load_snapshot_ok _ _ q0).
Qed.
