(* ===== verification/DtbFits.v ===== *)
(** * The device tree of every machine fits its buffer

    Evaluation of the builder for each number of harts and each choice of devices, with the
    bytes that depend on the memory left as variables. *)

From Stdlib Require Import Strings.String.
From S2P Require Import Prelude Decode Device DeviceInv Memory Cache Softfloat Cpu Mmu See Trap Alu Exec Fpu Step CpuInv.
From S2P Require Import Elf ElfThms Dtb DtbThms Engine EngineInv.

(** ** The tree fits *)

Section Fits.
Context (cap : Z).

Lemma pad_loop_fits k : forall fuel f, ((length (f_struct f) + k) mod 4 = 0)%nat -> (k < 4)%nat -> (k <= fuel)%nat ->
spos f + Z.of_nat k <= cap -> pad_loop cap fuel f = append (zeros k) f.
Proof.
induction k as [|k IH]; intros fuel f Hm Hk Hf Hc.
- assert (append (zeros 0) f = f) as -> by (unfold append; cbn; rewrite app_nil_r; by destruct f).
  destruct fuel; [done|]. cbn [pad_loop]. rewrite spos_mod. rewrite Nat.add_0_r in Hm. by rewrite Hm.
- destruct fuel as [|fuel]; [lia|]. cbn [pad_loop]. rewrite spos_mod.
  destruct (Z.eqb_spec (Z.of_nat (length (f_struct f) mod 4)) 0) as [E|E].
  + exfalso. assert (length (f_struct f) mod 4 = 0)%nat as E' by lia.
    pose proof (Nat.div_mod_eq (length (f_struct f)) 4). pose proof (Nat.div_mod_eq (length (f_struct f) + S k) 4). lia.
  + rewrite (proj2 (Z.ltb_ge _ _)) by lia. rewrite IH; [by rewrite append_app| |lia|lia|].
    * cbn. rewrite length_app. cbn [length]. by replace (length (f_struct f) + 1 + k)%nat with (length (f_struct f) + S k)%nat by lia.
    * unfold spos, append in *. cbn [f_struct]. rewrite length_app. cbn [length]. lia.
Qed.
Lemma begin_node_fits n f : aligned f -> spos f + 4 + Z.of_nat (Fdt_spec.pad4 (S (length n))) <= cap ->
begin_node cap n f = append (wr_be 1 ++ padded (n ++ [0])) f.
Proof.
intros Ha Hc. assert (length (n ++ [0]) = S (length n)) as El by (rewrite length_app; cbn; lia).
pose proof (pad4_le (S (length n))) as Hle. destruct (pad4_mod (S (length n))) as [Hp Hl].
unfold begin_node, put_u32. rewrite (proj2 (Z.ltb_ge _ _)) by lia. unfold fdt_put_bytes.
rewrite bool_decide_eq_false_2 by (by destruct n). rewrite El. unfold spos in *. cbn [append f_struct].
rewrite length_app. cbn [wr_be length]. rewrite (proj2 (Z.ltb_ge _ _)) by lia. unfold pad_struct.
rewrite append_app, (pad_loop_fits (Fdt_spec.pad4 (S (length n)) - S (length n))); [| |done|lia|].
- rewrite append_app. unfold padded. by rewrite El, <- app_assoc.
- unfold aligned in Ha. cbn [append f_struct]. rewrite !length_app. cbn [wr_be length].
  match goal with |- (?x mod 4 = 0)%nat => replace x with (length (f_struct f) + (4 + Fdt_spec.pad4 (S (length n))))%nat by lia end.
  rewrite Nat.Div0.add_mod, Ha, (Nat.Div0.add_mod 4), Hp. done.
- unfold spos. cbn [append f_struct]. rewrite !length_app. cbn [wr_be length]. lia.
Qed.
End Fits.

(** The machine's tree, with the unit address of its memory node already spelt. *)
Definition named_root (cap : Z) (name : list Z) (cfg : DtbConfig) (f : Fdt) : option Fdt :=
  let f := f |> begin_node cap [] |> prop_u32 cap (chars "#address-cells") 2 |> prop_u32 cap (chars "#size-cells") 2
    |> prop_str cap (chars "compatible") (chars "quanta,virt") |> prop_str cap (chars "model") (chars "quanta,virt")
    |> build_chosen cap cfg |> build_cpus cap cfg
    |> append (wr_be 1 ++ name)
    |> prop_str cap (chars "device_type") (chars "memory") |> prop_reg cap (cfg_mem_base cfg) (cfg_mem_size cfg) |> end_node cap in
  f ← build_soc cap cfg f;
  Some (f |> end_node cap |> put_u32 cap FDT_END).
Definition before_memory (cap : Z) (cfg : DtbConfig) (f : Fdt) : Fdt :=
  f |> begin_node cap [] |> prop_u32 cap (chars "#address-cells") 2 |> prop_u32 cap (chars "#size-cells") 2
    |> prop_str cap (chars "compatible") (chars "quanta,virt") |> prop_str cap (chars "model") (chars "quanta,virt")
    |> build_chosen cap cfg |> build_cpus cap cfg.

(** [dtb_config] over its parameters. *)
Definition config (base size n : Z) (rv64 net blk : bool) : DtbConfig :=
  let net v := if net then v else 0 in
  let blk v := if blk then v else 0 in
  mkDtbConfig base size TEST_BASE TEST_SIZE CLINT_BASE CLINT_SIZE PLIC_BASE PLIC_SIZE UART_BASE UART_SIZE UART_IRQ
    (PLIC_NSOURCES - 1) 0 n 10000000
    (chars (if rv64 then "rv64imac_zicsr" else "rv32ima_zicsr_zifencei"))
    (chars (if rv64 then "riscv,sv39" else "riscv,sv32")) None 0 0
    (net VIRTIO_NET_BASE) (net VIRTIO_NET_SIZE) (net VIRTIO_NET_IRQ) (blk VIRTIO_BASE) (blk VIRTIO_SIZE) (blk VIRTIO_IRQ).
Lemma dtb_config_eq q : dtb_config q None = config (u32 (b_base (the_bus q))) (u32 (b_size (the_bus q))) (u32 (q_nharts q))
  (c_xlen (the_hart 0 q) =? 64) (q_netdev_advertised q) (q_disk_advertised q).
Proof. reflexivity. Qed.

Definition fits (r : option Fdt) : bool :=
  match r with Some f => f_ok f && (spos f + Z.of_nat (length (f_strings f)) <=? DTB_MAX_SIZE) | None => false end.

(** The whole tree fits whatever the memory is: evaluated for each number of harts and each
    choice of devices, the bytes that depend on the memory being variables. *)
Lemma named_root_fits12 base size a b c d e f g h i j k l :
  forallb (fun n => forallb (fun rv => forallb (fun net => forallb (fun blk =>
    fits (named_root DTB_MAX_SIZE [a; b; c; d; e; f; g; h; i; j; k; l] (config base size n rv net blk) (mkFdt [] [] true)))
    [true; false]) [true; false]) [true; false]) (zseq 1 8) = true.
Proof. vm_compute. reflexivity. Qed.
Lemma named_root_fits16 base size a b c d e f g h i j k l m n o p :
  forallb (fun nh => forallb (fun rv => forallb (fun net => forallb (fun blk =>
    fits (named_root DTB_MAX_SIZE [a; b; c; d; e; f; g; h; i; j; k; l; m; n; o; p] (config base size nh rv net blk) (mkFdt [] [] true)))
    [true; false]) [true; false]) [true; false]) (zseq 1 8) = true.
Proof. vm_compute. reflexivity. Qed.
Lemma before_memory_room base size :
  forallb (fun n => forallb (fun rv => forallb (fun net => forallb (fun blk =>
    let f := before_memory DTB_MAX_SIZE (config base size n rv net blk) (mkFdt [] [] true) in
    (length (f_struct f) mod 4 =? 0)%nat && (spos f + 4 + 16 <=? DTB_MAX_SIZE))
    [true; false]) [true; false]) [true; false]) (zseq 1 8) = true.
Proof. vm_compute. reflexivity. Qed.

Lemma four_forallb (P : Z -> bool -> bool -> bool -> bool) n rv net blk : 1 <= n <= 8 ->
  forallb (fun n => forallb (fun rv => forallb (fun net => forallb (fun blk => P n rv net blk)
    [true; false]) [true; false]) [true; false]) (zseq 1 8) = true -> P n rv net blk = true.
Proof.
  intros Hn H. rewrite forallb_forall in H. specialize (H n). rewrite <- list_elem_of_In, elem_of_zseq in H. specialize (H ltac:(lia)).
  rewrite forallb_forall in H. specialize (H rv). rewrite forallb_forall in H. specialize (H ltac:(by destruct rv; cbn; auto) net).
  rewrite forallb_forall in H. apply (H ltac:(by destruct net; cbn; auto) blk). by destruct blk; cbn; auto.
Qed.
Lemma hex_length v : (1 <= length (hex v) <= 8)%nat.
Proof.
  unfold hex. assert (forall k v, (1 <= length (hex_loop (S k) v) <= S k)%nat) as H; [|apply (H 7%nat)].
  induction k as [|k IH]; intros w; cbn [hex_loop]; rewrite length_app; cbn [length]; destruct (_ =? _); cbn [length]; try lia.
  specialize (IH (w >> 4)). cbn [hex_loop] in IH. rewrite length_app in IH. cbn [length] in IH.
  rewrite length_app. cbn [length]. lia.
Qed.
Lemma memory_name_padded v : let l := padded ((chars "memory@" ++ hex v) ++ [0]) in length l = 12%nat \/ length l = 16%nat.
Proof.
  cbv zeta. rewrite length_padded, !length_app. change (length (chars "memory@")) with 7%nat. cbn [length]. pose proof (hex_length v).
  assert (length (hex v) = 1 \/ length (hex v) = 2 \/ length (hex v) = 3 \/ length (hex v) = 4 \/ length (hex v) = 5
    \/ length (hex v) = 6 \/ length (hex v) = 7 \/ length (hex v) = 8)%nat as Hc by lia.
  destruct Hc as [->|[->|[->|[->|[->|[->|[-> | ->]]]]]]]; (by left) || (by right).
Qed.

Lemma named_root_fits l base size n rv net blk : 1 <= n <= 8 -> length l = 12%nat \/ length l = 16%nat ->
  fits (named_root DTB_MAX_SIZE l (config base size n rv net blk) (mkFdt [] [] true)) = true.
Proof.
  intros Hn [Hl|Hl]; do 12 (destruct l as [|? l]; [discriminate Hl|]).
  - destruct l; [|discriminate Hl]. exact (four_forallb (fun n rv net blk => _) n rv net blk Hn (named_root_fits12 _ _ _ _ _ _ _ _ _ _ _ _ _ _)).
  - do 4 (destruct l as [|? l]; [discriminate Hl|]). destruct l; [|discriminate Hl].
    exact (four_forallb (fun n rv net blk => _) n rv net blk Hn (named_root_fits16 _ _ _ _ _ _ _ _ _ _ _ _ _ _ _ _ _ _)).
Qed.
Lemma build_root_named base size n rv net blk : 1 <= n <= 8 -> let cfg := config base size n rv net blk in
  build_root DTB_MAX_SIZE cfg (mkFdt [] [] true)
  = named_root DTB_MAX_SIZE (padded ((chars "memory@" ++ hex base) ++ [0])) cfg (mkFdt [] [] true).
Proof.
  intros Hn cfg. unfold build_root, named_root, build_memory. cbv zeta.
  pose proof (four_forallb (fun n rv net blk => _) n rv net blk Hn (before_memory_room base size)) as Hr. cbv beta zeta in Hr. fold cfg in Hr.
  apply andb_true_iff in Hr as [Ha Hs]. apply Nat.eqb_eq in Ha. apply Z.leb_le in Hs.
  change (cfg_mem_base cfg) with base.
  match goal with |- context [begin_node _ (chars "memory@" ++ hex base) ?f] => change f with (before_memory DTB_MAX_SIZE cfg (mkFdt [] [] true)) end.
  rewrite begin_node_fits; [done|exact Ha|].
  destruct (memory_name_padded base) as [E|E]; rewrite length_padded, length_app in E; cbn [length] in E; rewrite Nat.add_1_r in E; rewrite E; lia.
Qed.

Lemma fits_spec r : fits r = true ->
  exists f, r = Some f /\ f_ok f = true /\ spos f + Z.of_nat (length (f_strings f)) <= DTB_MAX_SIZE.
Proof. destruct r as [f|]; [|done]. intros [Ho Hs]%andb_true_iff. apply Z.leb_le in Hs. by exists f. Qed.
Lemma dtb_build_some cap cfg f : build_root cap cfg (mkFdt [] [] true) = Some f ->
  STRUCT_OFF <= cap -> f_ok f = true -> spos f + Z.of_nat (length (f_strings f)) <= cap ->
  exists blob, dtb_build cap cfg = Blob blob /\ Z.of_nat (length blob) <= cap.
Proof.
  intros Ef Hc Ho Hs. assert (exists blob, dtb_build cap cfg = Blob blob) as [blob E].
  { unfold dtb_build. rewrite (proj2 (Z.ltb_ge _ _)) by done. rewrite Ef, Ho. cbn [negb]. cbv zeta.
    rewrite (proj2 (Z.ltb_ge _ _)) by done. by eexists. }
  exists blob. split; [done|]. by eapply dtb_blob_length.
Qed.

(** The tree of a machine with at most [QUANTA_MAX_HARTS] harts, whatever its memory and its
    devices, fits [DTB_MAX_SIZE]. *)
Lemma config_fits base size n rv net blk : 1 <= n <= 8 ->
  exists blob, dtb_build DTB_MAX_SIZE (config base size n rv net blk) = Blob blob /\ Z.of_nat (length blob) <= DTB_MAX_SIZE.
Proof.
  intros Hn. pose proof (build_root_named base size n rv net blk Hn) as E. cbv zeta in E.
  pose proof (named_root_fits _ base size n rv net blk Hn (memory_name_padded base)) as Hf. rewrite <- E in Hf. clear E.
  destruct (fits_spec _ Hf) as (f & Ef & Ho & Hs). by apply (dtb_build_some _ _ f).
Qed.

(** The builder never overruns its array for the machine it is called on, whatever the
    boot arguments and the initramfs. *)
Lemma machine_tree_in_bounds q args start end_ : quanta_ok q ->
  dtb_build DTB_MAX_SIZE (dtb_config q args) <> Overrun
  /\ dtb_build DTB_MAX_SIZE (with_initrd start end_ (dtb_config q args)) <> Overrun.
Proof.
  intros Hq. pose proof (qo_nharts _ Hq) as Hn. unfold QUANTA_MAX_HARTS in Hn.
  assert (u32 (q_nharts q) = q_nharts q) as Eu by (apply wrap_small; unfold rng; lia).
  assert (rng 32 DTB_MAX_SIZE) as Hc by (by apply rng_const).
  split; rewrite dtb_build_overrun; try done; cbn [dtb_config with_initrd cfg_nharts]; rewrite Eu; unfold QUANTA_MAX_HARTS; lia.
Qed.
