(* ===== verification/EngineThms.v ===== *)
(** * The engine's contracts

    The scheduler and [quanta_run], the well-formedness invariant of every machine the API
    can build, snapshots and their files, the boot handoff, and host access to guest
    memory. *)

From Stdlib Require Import Strings.String.
From S2P Require Import Prelude Decode Device DeviceInv Memory Cache Softfloat Cpu Mmu See Trap Alu Exec Fpu Step CpuInv.
From S2P Require Import Elf ElfThms Dtb DtbThms Engine EngineInv EngineFile EngineReach.

(** ** One turn of the scheduler *)

(** The scheduler's cursor designates a hart. *)
Definition sched_ok (q : Quanta) : Prop := 1 <= q_nharts q /\ 0 <= q_sched q < q_nharts q.

Definition tick (q : Quanta) : Quanta :=
  if q_sched q =? 0 then set_q_world (set_w_bus (upd_plat plat_tick (the_bus q)) (q_world q)) q else q.
Definition live (i : Z) (q : Quanta) : bool := negb (c_halted (the_hart i q)).
Definition step_hart (q : Quanta) : Quanta :=
  if live (q_sched q) q then set_q_world (exec (cpu_step (q_sched q)) (q_world q)) q else q.
Definition next_hart (q : Quanta) : Z := if q_nharts q <=? q_sched q + 1 then 0 else q_sched q + 1.
Definition turn (q : Quanta) : Quanta :=
  let q := step_hart (tick q) in machine_poll_halt (set_q_sched (next_hart q) q).

Lemma tick_harts q i : the_hart i (tick q) = the_hart i q.
Proof. unfold tick. by destruct (_ =? 0). Qed.
Lemma tick_sched q : q_sched (tick q) = q_sched q.
Proof. unfold tick. by destruct (_ =? 0). Qed.

Lemma stepped_fields q : let p := step_hart (tick q) in
  q_nharts p = q_nharts q /\ q_sched p = q_sched q /\ q_loaded p = q_loaded q /\ q_m_halted p = q_m_halted q
  /\ q_dtb_addr p = q_dtb_addr q /\ q_cache_on p = q_cache_on q.
Proof. unfold step_hart, tick. destruct (q_sched q =? 0); by destruct (live _ _). Qed.

Lemma sched_turn_eq q : sched_turn q = (live (q_sched q) q, turn q).
Proof.
  unfold sched_turn. st_run. cbn [id].
  assert ((when (q_sched q =? 0) (on_bus (modify (upd_plat plat_tick)))) q = (tt, tick q)) as E1.
  { unfold when, tick. by destruct (q_sched q =? 0). }
  rewrite bind_run. unfold run, exec. rewrite E1. cbn [fst snd].
  assert (forall q', the_hart (q_sched q) q' = the_hart (q_sched q) q -> q_sched q' = q_sched q ->
    when (negb (c_halted (the_hart (q_sched q) q))) (machine (cpu_step (q_sched q))) q' = (tt, step_hart q')) as E2.
  { intros q' Eh Es. unfold step_hart, live, when. rewrite Es, Eh. destruct (negb _); [|done].
    rewrite machine_run. by destruct (run _ _). }
  rewrite bind_run. unfold run, exec. rewrite E2 by (apply tick_harts || apply tick_sched). cbn [fst snd].
  st_run. done.
Qed.

Lemma poll_fields q : let p := machine_poll_halt q in
  q_world p = q_world q /\ q_nharts p = q_nharts q /\ q_sched p = q_sched q /\ q_loaded p = q_loaded q
  /\ q_dtb_addr p = q_dtb_addr q /\ q_cache_on p = q_cache_on q.
Proof.
  unfold machine_poll_halt. destruct (plat_poweroff_requested _); [done|]. by destruct (poll_harts _ _ _ _).
Qed.
Lemma turn_fields q : q_nharts (turn q) = q_nharts q /\ q_loaded (turn q) = q_loaded q
  /\ q_sched (turn q) = next_hart q /\ q_world (turn q) = q_world (step_hart (tick q)).
Proof.
  unfold turn. cbv zeta. edestruct poll_fields as (-> & -> & -> & -> & _). cbn [q_nharts q_loaded q_sched q_world set_q_sched].
  unfold next_hart. by destruct (stepped_fields q) as (-> & -> & -> & _).
Qed.
Lemma next_hart_mod q : sched_ok q -> next_hart q = (q_sched q + 1) mod q_nharts q.
Proof.
  intros [Hn Hs]. unfold next_hart. destruct (Z.leb_spec (q_nharts q) (q_sched q + 1)).
  - replace (q_sched q + 1) with (q_nharts q) by lia. by rewrite Z.mod_same by lia.
  - by rewrite Z.mod_small by lia.
Qed.
Lemma turn_sched_ok q : sched_ok q -> sched_ok (turn q).
Proof.
  intros Hq. unfold sched_ok. destruct (turn_fields q) as (-> & _ & -> & _). rewrite next_hart_mod by done.
  destruct Hq. split; [done|]. apply Z.mod_pos_bound. lia.
Qed.

(** A poll that does not stop the machine saw a running hart. *)
Lemma poll_harts_live q n : forall i a, poll_harts q n i a = None -> exists j, i <= j < i + Z.of_nat n /\ live j q = true.
Proof.
  induction n as [|n IH]; intros i a; cbn [poll_harts]; [done|].
  destruct (c_halted (the_hart i q)) eqn:E; cbn [negb].
  - intros (j & Hj & Hl)%IH. exists j. split; [lia|done].
  - intros _. exists i. split; [lia|]. unfold live. by rewrite E.
Qed.
Lemma turn_live q : sched_ok q -> q_m_halted (turn q) = false -> q_m_halted q = false ->
  exists j, 0 <= j < q_nharts q /\ live j (turn q) = true.
Proof.
  intros [Hn _] Hh Hq. destruct (turn_fields q) as (_ & _ & _ & Hw). unfold live, the_hart. rewrite Hw. revert Hh.
  unfold turn. cbv zeta. set (q1 := set_q_sched _ _). unfold machine_poll_halt.
  destruct (plat_poweroff_requested _); [done|].
  destruct (poll_harts q1 _ _ _) eqn:E; [done|]. intros _. apply poll_harts_live in E as (j & Hj & Hl).
  exists j. split; [|done]. assert (q_nharts q1 = q_nharts q); [|lia].
  apply stepped_fields.
Qed.

(** A turn whose hart is halted executes nothing. *)
Lemma turn_idle q : live (q_sched q) q = false -> forall i, live i (turn q) = live i q.
Proof.
  intros Hl i. unfold live, the_hart. destruct (turn_fields q) as (_ & _ & _ & ->).
  unfold step_hart. rewrite tick_sched. unfold live at 1. rewrite tick_harts. fold (live (q_sched q) q). rewrite Hl.
  fold (the_hart i (tick q)). by rewrite tick_harts.
Qed.

(** ** Running *)

Fixpoint turns (k : nat) (q : Quanta) : Quanta := match k with O => q | S k => turns k (turn q) end.
(** The turns that executed an instruction. *)
Fixpoint live_turns (k : nat) (q : Quanta) : Z :=
  match k with O => 0 | S k => (if live (q_sched q) q then 1 else 0) + live_turns k (turn q) end.
(** The machine takes [k] turns without stopping before the last. *)
Fixpoint running (k : nat) (q : Quanta) : Prop :=
  match k with O => True | S k => q_m_halted q = false /\ running k (turn q) end.

(** A live hart [d] places after the cursor. *)
Definition live_within (d : Z) (q : Quanta) : Prop :=
  0 <= d < q_nharts q /\ live ((q_sched q + d) mod q_nharts q) q = true.

Lemma live_turns_nonneg k : forall q, 0 <= live_turns k q.
Proof. induction k as [|k IH]; intros q; cbn [live_turns]; [lia|]. specialize (IH (turn q)). destruct (live _ _); lia. Qed.

Lemma live_within_of q j : sched_ok q -> 0 <= j < q_nharts q -> live j q = true -> exists d, live_within d q.
Proof.
  intros [Hn Hs] Hj Hl. exists ((j - q_sched q) mod q_nharts q). split; [apply Z.mod_pos_bound; lia|].
  rewrite Zplus_mod_idemp_r. replace (q_sched q + (j - q_sched q)) with j by lia. by rewrite Z.mod_small.
Qed.
Lemma turn_live_within q : sched_ok q -> q_m_halted q = false -> q_m_halted (turn q) = false -> exists d, live_within d (turn q).
Proof.
  intros Hq Hh Ht. destruct (turn_live q) as (j & Hj & Hl); [done..|].
  apply live_within_of with j; [by apply turn_sched_ok| |done]. by destruct (turn_fields q) as (-> & _).
Qed.
Lemma turn_idle_within q d : sched_ok q -> live (q_sched q) q = false -> live_within d q -> live_within (d - 1) (turn q).
Proof.
  intros Hq Hl [Hd Hw]. destruct (turn_fields q) as (En & _ & Es & _). pose proof Hq as [Hn Hs].
  assert (d <> 0). { intros ->. rewrite Z.add_0_r, Z.mod_small in Hw by lia. congruence. }
  split; [lia|]. rewrite Es, En, turn_idle by done. rewrite next_hart_mod by done. rewrite Zplus_mod_idemp_l.
  by replace (q_sched q + 1 + (d - 1)) with (q_sched q + d) by lia.
Qed.

Lemma run_loop_S fuel cap steps q : run_loop (S fuel) cap steps q =
  if negb (q_m_halted q) && (steps <? cap)
  then run_loop fuel cap (if live (q_sched q) q then u64 (steps + 1) else steps) (turn q)
  else (Some steps, q).
Proof.
  cbn [run_loop]. st_run. cbn [id]. destruct (negb _ && _); [|done]. rewrite bind_run. unfold run, exec. by rewrite sched_turn_eq.
Qed.

(** What the loop returns: it stopped after [k] turns, having counted the live ones. *)
Definition loop_result (fuel : nat) (cap steps : Z) (q : Quanta) : Prop :=
  exists k, run_loop fuel cap steps q = (Some (steps + live_turns k q), turns k q) /\ (k < fuel)%nat /\ running k q
    /\ steps + live_turns k q <= cap /\ (q_m_halted (turns k q) = true \/ steps + live_turns k q = cap).

Lemma loop_stops fuel cap steps q : (0 < fuel)%nat -> steps <= cap -> q_m_halted q = true \/ steps = cap -> loop_result fuel cap steps q.
Proof.
  intros Hf Hs Hstop. destruct fuel as [|fuel]; [lia|]. exists 0%nat. cbn [turns live_turns running]. rewrite Z.add_0_r.
  split_and!; [|lia|done..]. rewrite run_loop_S. destruct Hstop as [-> | ->]; [done|]. rewrite Z.ltb_irrefl. by rewrite andb_false_r.
Qed.
Lemma loop_turns fuel cap steps q : q_m_halted q = false -> rng 64 cap -> 0 <= steps < cap ->
  loop_result fuel cap (if live (q_sched q) q then steps + 1 else steps) (turn q) -> loop_result (S fuel) cap steps q.
Proof.
  intros Hh Hc Hs (k & E & Hk & Hr & Hle & Hstop). exists (S k). cbn [turns live_turns running].
  rewrite run_loop_S, Hh, (proj2 (Z.ltb_lt _ _)) by lia. cbn [negb andb].
  assert ((if live (q_sched q) q then u64 (steps + 1) else steps) = if live (q_sched q) q then steps + 1 else steps) as ->.
  { destruct (live _ _); [|done]. unfold u64. apply wrap_small; [lia|]. unfold rng in *. lia. }
  rewrite E. destruct (live (q_sched q) q).
  - rewrite !Z.add_assoc. split_and!; [done|lia|done..].
  - rewrite !Z.add_0_l. split_and!; [done|lia|done..].
Qed.

Lemma loop_terminates fuel : forall cap steps q d, rng 64 cap -> 0 <= steps <= cap -> sched_ok q -> live_within d q ->
  (cap - steps) * q_nharts q + d < Z.of_nat fuel -> loop_result fuel cap steps q.
Proof.
  induction fuel as [|fuel IH]; intros cap steps q d Hc Hs Hq Hd Hf.
  { destruct Hd as [Hd _]. destruct Hq. nia. }
  destruct (q_m_halted q) eqn:Hh; [apply loop_stops; [lia|lia|by left]|].
  destruct (decide (steps = cap)) as [->|Hne]; [apply loop_stops; [lia|lia|by right]|].
  pose proof Hd as [Hdr _]. pose proof Hq as [Hn _].
  assert (0 < fuel)%nat by nia. destruct (turn_fields q) as (En & _).
  apply loop_turns; [done|done|lia|]. destruct (live (q_sched q) q) eqn:Hl.
  - destruct (q_m_halted (turn q)) eqn:Ht; [apply loop_stops; [done|lia|by left]|].
    destruct (turn_live_within q) as [d' Hd']; [done..|]. apply IH with d'; [done|lia|by apply turn_sched_ok|done|].
    destruct Hd' as [Hd' _]. rewrite En in *. nia.
  - apply IH with (d - 1); [done|lia|by apply turn_sched_ok|by apply turn_idle_within|]. rewrite En. lia.
Qed.
Lemma run_terminates cap q : rng 64 cap -> 0 < cap -> sched_ok q -> loop_result (run_fuel cap (q_nharts q)) cap 0 q.
Proof.
  intros Hc Hp Hq. unfold run_fuel. set (fuel := Z.to_nat _). pose proof Hq as [Hn _].
  assert (Z.of_nat fuel = (cap + 1) * q_nharts q) as Ef by (unfold fuel; rewrite Z2Nat.id; nia).
  destruct (q_m_halted q) eqn:Hh; [apply loop_stops; [lia|lia|by left]|].
  apply loop_turns; [done|done|lia|]. destruct (turn_fields q) as (En & _).
  destruct (q_m_halted (turn q)) eqn:Ht; [apply loop_stops; [nia|destruct (live _ _); lia|by left]|].
  destruct (turn_live_within q) as [d' Hd']; [done..|].
  apply loop_terminates with d'; [done|destruct (live _ _); lia|by apply turn_sched_ok|done|].
  destruct Hd' as [Hd' _]. rewrite En in *. destruct (live _ _); nia.
Qed.

(** ** Against the incremental stepper *)

Lemma quanta_step_turn q : q_loaded q = true -> q_m_halted q = false -> exec quanta_step q = turn q.
Proof.
  intros Hl Hh. unfold exec, quanta_step. st_run. cbn [id]. rewrite Hl, Hh. cbn [negb]. rewrite bind_run. unfold exec.
  by rewrite sched_turn_eq.
Qed.
Lemma turns_steps k : forall q, q_loaded q = true -> running k q -> Nat.iter k (exec quanta_step) q = turns k q.
Proof.
  induction k as [|k IH]; intros q Hl; [done|]. intros [Hh Hr]. rewrite Nat.iter_succ_r, quanta_step_turn by done.
  apply IH; [|done]. by destruct (turn_fields q) as (_ & -> & _).
Qed.


(** Two harts that each call [exit(7)]. *)
Definition exit_code : list Z :=
  [0x93; 0x08; 0xd0; 0x05;  0x13; 0x05; 0x70; 0x00;  0x73; 0x00; 0x00; 0x00].
Definition two_exits : Quanta :=
  exec (quanta_load_image 0x80000000 0x1000 exit_code 0x80000000 true) (exec (quanta_set_harts 2) quanta_create).


(** ** Machines a host program can reach *)


Lemma two_exits_reachable : reachable two_exits.
Proof. unfold two_exits. apply r_load_image; [apply r_set_harts, r_create|by apply rng_const..|by apply bytes_forallb]. Qed.


(** What the first of them does: an ELF file whose entry point lies outside its image is
    refused, but the handle stays loaded, with the old program's registers and DMA window
    and no memory. *)
Definition bad_entry : list Z := <[27%nat := 0x90]> (ex_elf32 exit_code).
Lemma failed_reload : let q := exec (quanta_load_elf_ex (Some bad_entry) true 0) two_exits in
  run (quanta_load_elf_ex (Some bad_entry) true 0) two_exits = Some QUANTA_ERR_LOAD
  /\ q_loaded q = true /\ b_size (the_bus q) = 0 /\ has_ram (the_plat q) = true /\ ram_size (the_plat q) = 0x1000.
Proof. vm_compute. by split_and!. Qed.
