(* ===== verification/EngineSnap.v ===== *)
(** * Snapshots: a restored machine is the saved one

    In memory, and through the snapshot file into a new handle. *)

From S2P Require Import Prelude Device DeviceInv DeviceThms Memory Softfloat Cpu CpuInv Elf Dtb Engine EngineInv EngineFile EngineReach EngineThms.

(** ** What a snapshot captures

    The devices, without what belongs to the host: the frames its backend has seen and the
    disk image with its file handle. *)
Definition arch_plat (p : Platform) : Platform :=
  p |> set_has_harts true |> set_disk Disk0 |> (fun p => set_net (set_n_txlog [] (net p)) p).

Record same_machine (q0 q : Quanta) : Prop := {
  mq_fields : same_fields q0 q;
  mq_halt : q_m_halted q = q_m_halted q0 /\ q_m_reason q = q_m_reason q0;
  mq_harts : forall i, 0 <= i < QUANTA_MAX_HARTS -> arch_hart (the_hart i q) = arch_hart (the_hart i q0);
  mq_region : b_base (the_bus q) = b_base (the_bus q0) /\ b_size (the_bus q) = b_size (the_bus q0);
  mq_ram : forall o, 0 <= o < b_size (the_bus q0) -> (b_data (the_bus q)).[o] = (b_data (the_bus q0)).[o];
  mq_devices : arch_plat (the_plat q) = arch_plat (the_plat q0);
  mq_disk_size : d_size (disk (the_plat q)) = d_size (disk (the_plat q0));
  mq_disk : d_present (disk (the_plat q0)) = true ->
    forall o, 0 <= o < d_size (disk (the_plat q0)) -> (d_data (disk (the_plat q))).[o] = (d_data (disk (the_plat q0))).[o]
}.

Lemma same_machine_arch q0 q1 q : same_machine q0 q1 -> same_arch q1 q -> same_machine q0 q.
Proof.
  intros [[] [? ?] Hh [? ?] Hr Hd Hs Hk] [Eb [] [? ?] Ea]. unfold the_plat in *. constructor.
  - constructor; congruence.
  - split; congruence.
  - intros i Hi. rewrite Ea. by apply Hh.
  - rewrite Eb. by split.
  - rewrite Eb. exact Hr.
  - unfold the_plat. rewrite Eb. exact Hd.
  - unfold the_plat. rewrite Eb. exact Hs.
  - unfold the_plat. rewrite Eb. exact Hk.
Qed.

(** Attaching the caches and the JIT again changes nothing a program sees. *)
Lemma attached_arch q : same_arch q (exec attach_jit (exec attach_dcaches q)).
Proof.
  eapply keeps_exec; [apply attach_jit_arch|]. eapply keeps_exec; [apply attach_dcaches_arch|]. apply same_arch_refl.
Qed.

(** ** Restoring *)

Lemma arch_plat_restored s live : arch_plat (restore_plat s live)
  = arch_plat (s_plat s |> set_nharts (s_nharts s) |> set_has_ram true |> set_ram_base (s_mem_base s) |> set_ram_size (s_mem_size s)).
Proof. done. Qed.
Lemma arch_plat_wired q0 : wired q0 -> arch_plat (the_plat q0 |> set_nharts (q_nharts q0) |> set_has_ram true
  |> set_ram_base (b_base (the_bus q0)) |> set_ram_size (b_size (the_bus q0))) = arch_plat (the_plat q0).
Proof. intros [_ Hr Hb Hs Hn _]. rewrite <- Hb, <- Hs, <- Hn, <- Hr. by destruct (the_plat q0). Qed.

Lemma restored_machine q0 s q : wired q0 -> snapshot_of q0 s ->
  (d_present (disk (the_plat q0)) = true -> d_size (disk (the_plat q0)) <> 0 -> d_present (disk (the_plat q)) = true) ->
  same_machine q0 (restored s q).
Proof.
  intros Hw [Eharts Enh ? (? & ? & ?) ? [? ?] [Eb Es] Hram Epl ? Hdisk] Hp. constructor.
  - by constructor; cbn; try congruence.
  - done.
  - intros i Hi. destruct (restore_harts_spec s (q_world q)) as (_ & _ & _ & _ & Hh). specialize (Hh i).
    cbv zeta in Hh. rewrite decide_True, Eharts in Hh by done. unfold the_hart in *.
    change (hart i (q_world (restored s q))) with (hart i (restore_harts s (q_world q))). by rewrite Hh.
  - done.
  - exact Hram.
  - change (the_plat (restored s q)) with (restore_plat s (the_plat q)).
    rewrite arch_plat_restored. rewrite Epl, Enh, Eb, Es. by apply arch_plat_wired.
  - done.
  - intros Hp0 o Ho. destruct (Hdisk Hp0 o Ho) as (a & Ea & <-).
    change (disk (the_plat (restored s q))) with (restore_disk s (disk (the_plat q))). unfold restore_disk. cbn [d_data].
    by rewrite Ea, Hp by (done || lia).
Qed.

(** ** What the host gets back *)

(** C26 [snapshot_restore]: a snapshot of any machine a host program can reach, restored into
    a handle with the same amount of RAM and disk (and, like every reachable handle, a disk
    image if its disk has a size), gives back that machine: every hart's registers, CSRs,
    program counter, mode and TLB, every byte of RAM and disk, the device registers, the
    scheduler and halt state. Into any other handle it is refused with
    [QUANTA_ERR_INVAL] and the handle is unchanged. *)
Theorem quanta_restore_snapshot q0 s q : reachable q0 -> quanta_snapshot q0 = Some s ->
  if q_loaded q && (b_size (the_bus q) =? b_size (the_bus q0)) && (d_size (disk (the_plat q)) =? d_size (disk (the_plat q0)))
  then run (quanta_restore s) q = QUANTA_OK
    /\ ((d_size (disk (the_plat q)) <> 0 -> d_present (disk (the_plat q)) = true) -> same_machine q0 (exec (quanta_restore s) q))
    /\ b_fault (the_bus (exec (quanta_restore s) q)) = b_fault (the_bus q0)
  else quanta_restore s q = (QUANTA_ERR_INVAL, q).
Proof.
  intros Hr Es. pose proof (snapshot_is _ _ Es) as Hs. destruct (snapshot_some _ _ Es) as [Hl0 Hsl].
  pose proof (qo_wired _ (reachable_ok _ Hr) Hl0) as Hw. pose proof (so_disk_size _ _ Hs) as Ed. destruct (so_region _ _ Hs) as [_ Em].
  destruct (q_loaded q) eqn:Hl; cbn [andb]; [|by apply restore_refused; left].
  destruct (Z.eqb_spec (b_size (the_bus q)) (b_size (the_bus q0))) as [E1|E1]; cbn [andb];
    [|apply restore_refused; right; left; congruence].
  destruct (Z.eqb_spec (d_size (disk (the_plat q))) (d_size (disk (the_plat q0)))) as [E2|E2];
    [|apply restore_refused; right; right; congruence].
  unfold run, exec. rewrite restore_reaches by congruence. cbn [fst snd]. pose proof (attached_arch (restored s q)) as Ha.
  split; [done|]. split.
  - intros Hp. apply (same_machine_arch _ (restored s q)); [|done]. apply restored_machine; [done..|].
    intros _ Hz. apply Hp. congruence.
  - rewrite (sa_bus _ _ Ha). unfold quanta_snapshot in Es. rewrite Hl0 in Es. cbn [negb] in Es. apply (inj Some) in Es. by subst s.
Qed.

(** C25 [snapshot_file]: saving any machine a host program can reach and loading the file into
    a reachable handle with nothing loaded gives [QUANTA_OK] and that machine: every hart's
    registers, CSRs, program counter, mode and TLB, every byte of RAM and disk, the device
    registers, the scheduler and halt state. The one exception: a handle that has a disk
    attached refuses a machine that has none, with [QUANTA_ERR_INVAL], and is left unloaded
    without its disk. The header's words come back exactly, on any host whose structures are
    smaller than 4 GiB. *)
Theorem quanta_load_saved sc sp q0 q f : rng 32 sc -> rng 32 sp -> reachable q0 ->
  quanta_save_snapshot sc sp q0 true = (QUANTA_OK, Some f) ->
  reachable q -> q_loaded q = false ->
  let r := run (quanta_load_snapshot sc sp (Some f) true) q in
  let q' := exec (quanta_load_snapshot sc sp (Some f) true) q in
  if (d_size (disk (the_plat q0)) =? 0) && negb (d_size (disk (the_plat q)) =? 0)
  then r = QUANTA_ERR_INVAL /\ q_loaded q' = false /\ d_size (disk (the_plat q')) = 0
  else r = QUANTA_OK /\ same_machine q0 q'.
Proof.
  intros Hc Hsp Hr0 Hf Hr Hl. unfold quanta_save_snapshot in Hf. destruct (quanta_snapshot q0) as [s|] eqn:Es; [|done].
  assert (snapshot_write sc sp s = f) as <- by congruence. clear Hf.
  pose proof (reachable_ok _ Hr0) as H0. pose proof (reachable_ok _ Hr) as Hq. destruct (snapshot_some _ _ Es) as [Hl0 _].
  cbv zeta. unfold run at 1 2, exec at 1 2 3. rewrite (load_saved sc sp q0) by done. fold (disk_clash q0 q).
  destruct (disk_clash q0 q) eqn:Ec; cbn [fst snd]; [by split_and!|]. split; [done|].
  destruct (load_target_sizes s q Hq) as (Hl1 & Hm1 & Hd1 & Hp1).
  pose proof (so_disk_size _ _ (snapshot_is _ _ Es)) as Ed. set (q1 := load_target (from_file s) q) in *. clearbody q1.
  assert (s_disk_size s = d_size (disk (the_plat q1))) as Ed1.
  { unfold disk_clash in Ec. rewrite <- Ed in Ec. rewrite Hd1.
    destruct (Z.eqb_spec (s_disk_size s) 0), (Z.eqb_spec (d_size (disk (the_plat q))) 0); try done. lia. }
  unfold exec. rewrite restore_reaches by done. cbn [snd].
  apply (same_machine_arch _ (restored (from_file s) q1)); [|apply attached_arch].
  apply restored_machine; [apply (qo_wired _ H0 Hl0)|by apply from_file_is|]. intros _ Hz. apply Hp1. lia.
Qed.

(** ** On a concrete machine *)

(** The two-hart program, run for a turn after the snapshot was taken. *)
Definition later : Quanta := exec (quanta_run 1) two_exits.

Lemma quanta_restore_snapshot_witness :
  exists s, quanta_snapshot two_exits = Some s /\ q_sched later <> q_sched two_exits
    /\ run (quanta_restore s) later = QUANTA_OK /\ same_machine two_exits (exec (quanta_restore s) later).
Proof.
  assert (q_loaded two_exits = true) as Hl by (vm_compute; reflexivity).
  destruct (quanta_snapshot two_exits) as [s|] eqn:Es; [|by unfold quanta_snapshot in Es; rewrite Hl in Es].
  exists s. split; [done|]. split; [by vm_compute|].
  assert (d_size (disk (the_plat later)) = 0) as Hp by (vm_compute; reflexivity).
  pose proof (quanta_restore_snapshot two_exits s later two_exits_reachable Es) as H.
  assert (q_loaded later && (b_size (the_bus later) =? b_size (the_bus two_exits))
    && (d_size (disk (the_plat later)) =? d_size (disk (the_plat two_exits))) = true) as Eg by (vm_compute; reflexivity).
  rewrite Eg in H. destruct H as (Hok & Hsame & _). split; [exact Hok|]. apply Hsame. intros Hz. by destruct (Hz Hp).
Defined.

Lemma quanta_load_saved_witness :
  exists f, quanta_save_snapshot 4096 2048 two_exits true = (QUANTA_OK, Some f)
    /\ run (quanta_load_snapshot 4096 2048 (Some f) true) quanta_create = QUANTA_OK
    /\ same_machine two_exits (exec (quanta_load_snapshot 4096 2048 (Some f) true) quanta_create).
Proof.
  assert (q_loaded two_exits = true) as Hl by (vm_compute; reflexivity).
  destruct (quanta_snapshot two_exits) as [s|] eqn:Es; [|by unfold quanta_snapshot in Es; rewrite Hl in Es].
  assert (quanta_save_snapshot 4096 2048 two_exits true = (QUANTA_OK, Some (snapshot_write 4096 2048 s))) as Ef
    by (unfold quanta_save_snapshot; by rewrite Es).
  exists (snapshot_write 4096 2048 s). split; [exact Ef|].
  assert ((d_size (disk (the_plat two_exits)) =? 0) && negb (d_size (disk (the_plat quanta_create)) =? 0) = false) as Ec
    by (vm_compute; reflexivity).
  pose proof (quanta_load_saved 4096 2048 two_exits quanta_create (snapshot_write 4096 2048 s)
    ltac:(by apply rng_const) ltac:(by apply rng_const) two_exits_reachable Ef r_create eq_refl) as H.
  cbv zeta in H. rewrite Ec in H. exact H.
Defined.

(** The header's scheduler word is not checked: a file naming a hart the machine does not
    have loads, and the next turn indexes past the array of harts. *)
Definition misscheduled : option SnapFile :=
  s ← quanta_snapshot two_exits;
  Some (snapshot_write 4096 2048 (mkQuantaSnapshot (s_harts s) (s_nharts s) 1000 (s_m_halted s) (s_m_reason s) (s_m_exit s)
    (s_dtb_addr s) (s_cache_on s) (s_loaded_ s) (s_mem_base s) (s_mem_size s) (s_mem_fault s) (s_mem_fault_addr s)
    (s_mem_data s) (s_plat s) (s_disk_data s) (s_disk_size s))).
Lemma load_snapshot_sched_unchecked : let '(r, q) := quanta_load_snapshot 4096 2048 misscheduled true quanta_create in
  r = QUANTA_OK /\ q_nharts q = 2 /\ q_sched q = 1000 /\ q_m_halted q = false.
Proof. vm_compute. by split_and!. Qed.
