(* ===== verification/EngineBoot.v ===== *)
(** * The boot handoff

    After [quanta_load_elf_ex] each hart enters the guest with its id, the address of a tree
    that reads back as this machine, and a stack below it, and the loaded image is intact. *)

From Stdlib Require Import Strings.String.
From S2P Require Import Prelude Decode Device DeviceInv Memory Cache Softfloat Cpu Mmu See Trap Alu Exec Fpu Step CpuInv DeviceThms.
From S2P Require Import Elf ElfThms Dtb DtbThms Engine EngineInv EngineReach DtbFits.

(** ** [setup_boot] *)

(** Where the tree goes: as high as it fits, on an 8-byte boundary. *)
Definition dtb_place (base size n : Z) : Z := base + size - n - (base + size - n) mod 8.
Definition boot_sp (addr : Z) : Z := addr - 16 - (addr - 16) mod 16.

Lemma align_down w v k : 0 <= k <= w -> 0 < w -> rng w v -> v .& wrap w (Z.lnot (2 ^ k - 1)) = v - v mod 2 ^ k.
Proof.
  intros Hk Hw Hv. transitivity (v .& Z.lnot (Z.ones k)).
  - rewrite Z.ones_equiv, <- Z.sub_1_r. apply Z.bits_inj'. intros i Hi. rewrite !Z.land_spec, wrap_testbit by lia.
    destruct (Z.ltb_spec i w); [done|]. rewrite (rng_testbit w v i); [done|done|lia].
  - rewrite <- Z.ldiff_land, Z.ldiff_ones_r by lia. rewrite Z.shiftr_div_pow2, Z.shiftl_mul_pow2 by lia.
    pose proof (Z.div_mod v (2 ^ k) ltac:(lia)). lia.
Qed.

(** The arithmetic of the placement, for memory below 4 GiB. *)
Lemma place_spec base size n : 0 <= base -> GUEST_STACK_SIZE <= size -> base + size <= 2 ^ 32 -> 0 < n <= DTB_MAX_SIZE ->
  let addr := dtb_place base size n in
  u32 (u64 (u64 (base + size) - n) .& u32 (Z.lnot 7)) = addr /\ addr mod 8 = 0
  /\ base + size - GUEST_STACK_SIZE + DTB_MAX_SIZE <= addr /\ addr + n <= base + size
  /\ u32 (addr - 16) .& u64 (Z.lnot 0xf) = boot_sp addr.
Proof.
  unfold GUEST_STACK_SIZE, DTB_MAX_SIZE. intros Hb Hs Ht Hn. cbv zeta. unfold dtb_place.
  set (v := base + size - n). pose proof (Z.mod_pos_bound v 8 ltac:(lia)).
  assert (u64 (u64 (base + size) - n) = v) as Ev.
  { unfold u64. rewrite (wrap_small 64 (base + size)) by (unfold rng; lia). apply wrap_small; unfold rng; lia. }
  assert (v .& u32 (Z.lnot 7) = v - v mod 8) as Ea by (apply (align_down 32 v 3); unfold rng; lia).
  rewrite Ev, Ea. set (a := v - v mod 8) in *. split_and!.
  - apply wrap_small; unfold rng; lia.
  - unfold a. pose proof (Z.div_mod v 8 ltac:(lia)). replace (v - v mod 8) with (v / 8 * 8) by lia. apply Z.mod_mul. lia.
  - lia.
  - lia.
  - unfold u32. rewrite wrap_small by (unfold rng; lia). unfold boot_sp.
    apply (align_down 64 (a - 16) 4); unfold rng; lia.
Qed.

Lemma on_bus_run {A} (m : st Bus A) q : let '(a, b) := m (the_bus q) in
  run (on_bus m) q = a /\ exec (on_bus m) q = set_q_world (set_w_bus b (q_world q)) q.
Proof.
  unfold run, exec, on_bus. rewrite machine_run. unfold run, exec, bus, the_bus. by destruct (m (w_bus (q_world q))).
Qed.

(** What [setup_boot] does to a machine whose memory an ELF image was loaded into. *)
Lemma setup_boot_spec q : quanta_ok q -> q_loaded q = true ->
  let base := b_base (the_bus q) in let size := b_size (the_bus q) in
  GUEST_STACK_SIZE <= size -> base + size <= 2 ^ 32 ->
  exists blob hs, let n := Z.of_nat (length blob) in let addr := dtb_place base size n in
    let b' := upd_data (put_bytes (addr - base) blob) (the_bus q) in
    dtb_build DTB_MAX_SIZE (dtb_config q None) = Blob blob /\ 0 < n <= DTB_MAX_SIZE
    /\ exec setup_boot q = with_harts hs (set_q_dtb_addr addr (set_q_world (set_w_bus b' (q_world q)) q))
    /\ forall i, 0 <= i < q_nharts q -> the_hart i (exec setup_boot q) = boot_regs (boot_sp addr) addr i (the_hart i q).
Proof.
  intros Hq Hl base size Hs Ht.
  assert (mem_ok (the_bus q)) as Hm by apply (qo_world _ Hq). assert (0 <= base) as Hb by apply (ok_base _ Hm).
  pose proof (qo_nharts _ Hq) as Hn. unfold QUANTA_MAX_HARTS in Hn.
  assert (u32 (q_nharts q) = q_nharts q) as Eu by (apply wrap_small; unfold rng; lia).
  destruct (config_fits (u32 base) (u32 size) (q_nharts q) (c_xlen (the_hart 0 q) =? 64) (q_netdev_advertised q) (q_disk_advertised q) Hn) as (blob & Eb & Hfit).
  assert (dtb_config q None = config (u32 base) (u32 size) (q_nharts q) (c_xlen (the_hart 0 q) =? 64) (q_netdev_advertised q) (q_disk_advertised q)) as Ec
    by (by rewrite dtb_config_eq, Eu).
  rewrite <- Ec in Eb. exists blob.
  pose proof (dtb_blob_length _ _ _ Eb) as [Hpos _]. set (n := Z.of_nat (length blob)) in *.
  destruct (place_spec base size n Hb Hs Ht ltac:(lia)) as (Ea & _ & Hlo & Hhi & Esp). cbv zeta. set (addr := dtb_place base size n) in *.
  assert (DTB_MAX_SIZE = 4096) as Edm by done. assert (GUEST_STACK_SIZE = 65536) as Egs by done. unfold setup_boot. rewrite exec_bind, run_gets, exec_gets. cbn [id]. rewrite Eb. cbv zeta. fold n base size.
  rewrite (proj2 (Z.ltb_ge size _)) by lia. rewrite Ea. rewrite (proj2 (Z.ltb_ge addr _)).
  2: { unfold u64. rewrite wrap_small by (unfold rng; lia). lia. }
  destruct (mem_load addr blob (the_bus q)) as [rc b'] eqn:El. pose proof (on_bus_run (mem_load addr blob) q) as Er. rewrite El in Er.
  apply mem_load_spec in El; [|unfold rng; lia|exact Hb|apply (ok_size _ Hm)]. fold base size n in El.
  rewrite decide_True in El by lia. destruct El as [-> ->]. rewrite exec_bind. destruct Er as [-> ->]. cbn [fst snd negb Z.eqb].
  rewrite exec_bind, exec_modify. rewrite Esp.
  set (q1 := set_q_dtb_addr addr _).
  destruct (for_harts (Z.to_nat (q_nharts q)) (fun i => boot_regs (boot_sp addr) addr i) 0 q1) as (hs & E & Hh).
  exists hs. rewrite E. split_and!; [done|lia|lia|done|]. intros i Hi. rewrite Hh, decide_True by lia. done.
Qed.

(** ** Host reads of guest memory *)

Lemma map_zseq_shift {A} (f : Z -> A) off n : forall i, map (fun k => f (off + k)) (zseq i n) = map f (zseq (off + i) n).
Proof.
  induction n as [|n IH]; intros i; [done|]. cbn [zseq map]. f_equal. rewrite IH. f_equal. f_equal. lia.
Qed.
Lemma mem_read_written q addr bs : mem_ok (the_bus q) -> rng 64 addr ->
  b_base (the_bus q) <= addr -> addr + Z.of_nat (length bs) <= b_base (the_bus q) + b_size (the_bus q) ->
  forall d, b_data (the_bus q) = put_bytes (addr - b_base (the_bus q)) bs d ->
  quanta_mem_read q addr (Z.of_nat (length bs)) = Some bs.
Proof.
  intros Hm Ha Hlo Hhi d Hd. unfold quanta_mem_read. rewrite in_range_spec by (done || lia). rewrite decide_True by done.
  cbn [mbind option_bind]. rewrite Hd, Nat2Z.id. f_equal.
  rewrite (map_zseq_shift (fun i => (put_bytes (addr - b_base (the_bus q)) bs d).[i])), Z.add_0_r. apply slice_put_bytes.
Qed.

(** ** The handoff *)

Lemma elf_load_region buf m b r b' : bytes buf -> rng 64 (blen buf) -> 0 <= m -> elf_load (Some buf) true m b = (Good r, b') ->
  0 <= b_base b' /\ GUEST_STACK_SIZE < b_size b' /\ b_base b' + b_size b' <= 2 ^ 32.
Proof.
  intros Hbuf Hlen Hm E. apply elf_load_good in E as (pl & Ep & _ & _ & Hent & _ & ->); [|done..].
  destruct (plan_spec buf m Hbuf Hlen pl Ep) as (hi & HF & Hw & Hhi & Him & Htop & Hsz & Hst).
  destruct (plan_rng buf Hbuf Hlen m pl Hm Ep) as [Hb _]. cbn [b_base b_size]. unfold ELF_MEM_MAX, rng in *.
  destruct Hw as [Hw|(h & Hh & Hw)].
  - exfalso. rewrite Hw in *. pose proof (u64_rng (2 ^ 64 - 1 + pl_size pl)). unfold rng in *. lia.
  - assert (u64 (pl_base pl + pl_size pl) = pl_base pl + pl_size pl) as E; [|lia].
    unfold u64 in *. rewrite wrap_mod in * by lia. destruct (decide (pl_base pl + pl_size pl < 2 ^ 64)); [apply Z.mod_small; lia|].
    exfalso. rewrite <- (Z.mod_unique (pl_base pl + pl_size pl) (2 ^ 64) 1 (pl_base pl + pl_size pl - 2 ^ 64)) in Hent by lia. lia.
Qed.
Lemma boot_regs_read sp addr i c : let c' := boot_regs sp addr i c in
  reg_read c' 2 = sext_xlen c sp /\ reg_read c' 10 = sext_xlen c i /\ reg_read c' 11 = sext_xlen c addr
  /\ c_pc c' = c_pc c /\ c_xlen c' = c_xlen c /\ c_halted c' = c_halted c.
Proof.
  unfold boot_regs, reg_write, reg_read. cbn [Z.eqb Pos.eqb set_c_regs c_regs]. unfold sext_xlen. cbn [c_xlen set_c_regs].
  rewrite !aget_aset. done.
Qed.

Lemma load_elf_parts buf m q : run (quanta_load_elf_ex (Some buf) true m) q = Some QUANTA_OK ->
  exists entry xl b', elf_load (Some buf) true m (the_bus q) = (Good (entry, xl), b')
  /\ exec (quanta_load_elf_ex (Some buf) true m) q
     = exec setup_boot (exec (start_at entry xl) (set_q_world (set_w_bus b' (q_world q)) q)).
Proof.
  unfold quanta_load_elf_ex. rewrite run_bind, exec_bind. pose proof (on_bus_run (elf_load (Some buf) true m) q) as Hb.
  destruct (elf_load (Some buf) true m (the_bus q)) as [r b']. destruct Hb as [-> ->].
  destruct r as [[entry xl]| |]; [|done..]. intros _. exists entry, xl, b'. split; [done|]. by rewrite !exec_bind, exec_ret.
Qed.

Lemma boot_sp_aligned addr : boot_sp addr mod 16 = 0.
Proof.
  unfold boot_sp. pose proof (Z.div_mod (addr - 16) 16 ltac:(lia)). 
  replace (addr - 16 - (addr - 16) mod 16) with ((addr - 16) / 16 * 16) by lia. apply Z.mod_mul. lia.
Qed.
Lemma machine_config q q' : q_nharts q' = q_nharts q -> q_netdev_advertised q' = q_netdev_advertised q ->
  q_disk_advertised q' = q_disk_advertised q -> b_base (the_bus q') = b_base (the_bus q) -> b_size (the_bus q') = b_size (the_bus q) ->
  c_xlen (the_hart 0 q') = c_xlen (the_hart 0 q) -> dtb_config q None = dtb_config q' None.
Proof. intros E1 E2 E3 E4 E5 E6. rewrite !dtb_config_eq. by rewrite E1, E2, E3, E4, E5, E6. Qed.

(** C23 [boot_handoff]: a program that [quanta_load_elf_ex] loads into a fresh handle starts the way the RISC-V
    boot protocol asks, on any number of harts and for either register width: every hart is at the ELF entry
    point with its own id in a0, the address of the device tree in a1 and a 16-byte aligned stack pointer
    just below the tree and inside RAM; the memory at that address holds a device tree that reads back as
    the description of this very machine, and placing it (and resetting the devices) has changed none
    of the bytes of the loaded image below the stack headroom. *)
Theorem elf_boot_handoff q buf m : reachable q -> q_loaded q = false -> bytes buf -> rng 64 (blen buf) -> 0 <= m ->
  run (quanta_load_elf_ex (Some buf) true m) q = Some QUANTA_OK ->
  let q' := exec (quanta_load_elf_ex (Some buf) true m) q in
  let addr := q_dtb_addr q' in let sp := boot_sp addr in
  let base := quanta_mem_base q' in let size := quanta_mem_size q' in
  exists entry xl b' blob, elf_load (Some buf) true m (the_bus q) = (Good (entry, xl), b')
  /\ quanta_ok q' /\ q_loaded q' = true /\ q_nharts q' = q_nharts q
  /\ (forall i, 0 <= i < q_nharts q' -> let c := the_hart i q' in
        c_pc c = entry /\ c_xlen c = xl /\ c_halted c = false
        /\ reg_read c 10 = sext_xlen c i /\ reg_read c 11 = sext_xlen c addr /\ reg_read c 2 = sext_xlen c sp)
  /\ base <= sp <= addr - 16 /\ sp mod 16 = 0 /\ addr mod 8 = 0
  /\ quanta_mem_read q' addr (Z.of_nat (length blob)) = Some blob
  /\ Fdt_spec.read blob = Some (0, Fdt_spec.machine_tree (dtb_config q' None))
  /\ (forall o, o < size - GUEST_STACK_SIZE -> (b_data (the_bus q')).[o] = (b_data b').[o]).
Proof.
  intros Hr Hl Hbuf Hlen Hm Hrun. destruct (load_elf_parts buf m q Hrun) as (entry & xl & b' & Eb & ->).
  assert (idle q) as Hi by (split; [by apply reachable_ok|done]).
  destruct (keep_idle_elf (Some buf) true m ltac:(done) Hm q Hi) as [Hres Hi1].
  pose proof (on_bus_run (elf_load (Some buf) true m) q) as Hob. rewrite Eb in Hob. destruct Hob as [Er Ex]. rewrite Er in Hres. rewrite Ex in Hi1.
  destruct (elf_load_region buf m (the_bus q) _ _ Hbuf Hlen Hm Eb) as (H0 & Hst & Htop). destruct Hres as [He Hx].
  set (q1 := set_q_world _ q) in *. destruct (idle_start entry xl q1 Hi1 He Hx) as [Hok Hld Hbus Hnh _ Hh].
  set (q2 := exec (start_at entry xl) q1) in *. change (the_bus q1) with b' in Hbus.
  destruct (setup_boot_spec q2 Hok Hld) as (blob & hs & Ed & Hlb & Eq & Hhs); [rewrite Hbus; cbn; lia|rewrite Hbus; cbn; lia|].
  rewrite Hbus in Eq, Hhs. cbn [b_base b_size set_b_has_plat set_b_plat] in *.
  destruct (place_spec (b_base b') (b_size b') (Z.of_nat (length blob)) H0 ltac:(lia) Htop Hlb) as (_ & Hal & Hlo & Hhi & _).
  set (addr := dtb_place _ _ _) in *. assert (DTB_MAX_SIZE = 4096) as Edm by done. assert (GUEST_STACK_SIZE = 65536) as Egs by done.
  pose proof (keeps_exec _ _ _ q2 keep_setup_boot Hok) as Hok'.
  assert (q_dtb_addr (exec setup_boot q2) = addr) as -> by (by rewrite Eq).
  assert (the_bus (exec setup_boot q2) = upd_data (put_bytes (addr - b_base b') blob) (the_bus q2)) as Eb2 by (rewrite Eq; cbn; by rewrite Hbus).
  unfold quanta_mem_base, quanta_mem_size. rewrite Eb2, Hbus. cbn [b_base b_size b_data upd_data set_b_data set_b_has_plat set_b_plat].
  assert (q_nharts (exec setup_boot q2) = q_nharts q2) as En by (by rewrite Eq).
  assert (q_loaded (exec setup_boot q2) = true) as Eld by (by rewrite Eq).
  pose proof (Z.mod_pos_bound (addr - 16) 16 ltac:(lia)) as Hmod.
  assert (rng 64 addr) as Hra by (unfold rng; lia). clearbody addr.
  exists entry, xl, b', blob. rewrite En, Hnh. split_and!; try done; try (unfold boot_sp; lia).
  - intros i Hin. cbv zeta. rewrite Hhs by (by rewrite Hnh). destruct (boot_regs_read (boot_sp addr) addr i (the_hart i q2)) as (R2 & R10 & R11 & Rp & Rx & Rh).
    rewrite R2, R10, R11, Rp, Rh. unfold sext_xlen. rewrite Rx. destruct (Hh i Hin) as (-> & Hxl & ->). by rewrite Hxl.
  - apply boot_sp_aligned.
  - apply (mem_read_written _ addr blob) with (b_data (the_bus q2)); [apply (qo_world _ Hok')|done|..]; rewrite Eb2, Hbus; cbn; [lia..|done].
  - rewrite <- (machine_config q2); [|by rewrite Eq..|rewrite Eb2, Hbus; done|rewrite Eb2, Hbus; done|].
    + assert (rng 32 DTB_MAX_SIZE) as Hd by (by apply rng_const). assert (rng 32 0) as Hz by (by apply rng_const).
      assert (0 <= cfg_nharts (dtb_config q2 None)) as Hn0 by apply u32_rng.
      exact (read_built DTB_MAX_SIZE (dtb_config q2 None) blob Hd Hz Hn0 Ed).
    + rewrite Hhs; [by destruct (boot_regs_read (boot_sp addr) addr 0 (the_hart 0 q2)) as (_ & _ & _ & _ & -> & _)|].
      destruct (qo_nharts _ Hok). lia.
  - intros o Ho. apply put_bytes_out. lia.
Qed.

(** A one-instruction ELF on two harts. *)
Definition fresh_pair : Quanta := exec (quanta_set_harts 2) quanta_create.

Lemma elf_boot_handoff_witness : let q' := exec (quanta_load_elf_ex (Some (ex_elf32 [0x13; 0; 0; 0])) true 0) fresh_pair in
  let addr := q_dtb_addr q' in
  c_pc (the_hart 1 q') = 0x80000000 /\ reg_read (the_hart 1 q') 10 = 1
  /\ reg_read (the_hart 1 q') 11 = sext_xlen (the_hart 1 q') addr
  /\ exists blob, quanta_mem_read q' addr (Z.of_nat (length blob)) = Some blob
     /\ Fdt_spec.read blob = Some (0, Fdt_spec.machine_tree (dtb_config q' None)).
Proof.
  cbv zeta. destruct (elf_boot_handoff fresh_pair (ex_elf32 [0x13; 0; 0; 0]) 0) as (entry & xl & b' & blob & _ & _ & _ & Hn & Hh & _ & _ & _ & Hm & Hd & _).
  - apply r_set_harts, r_create.
  - vm_compute. reflexivity.
  - apply bytes_forallb. vm_compute. reflexivity.
  - apply rng_const. vm_compute. reflexivity.
  - lia.
  - vm_compute. reflexivity.
  - assert (q_nharts fresh_pair = 2) as E2 by (vm_compute; reflexivity). rewrite Hn, E2 in Hh. pose proof (Hh 1 ltac:(lia)) as H1. cbv zeta in H1.
    split; [vm_compute; reflexivity|]. split; [vm_compute; reflexivity|].
    split; [exact (proj1 (proj2 (proj2 (proj2 (proj2 H1)))))|]. exists blob. exact (conj Hm Hd).
Defined.
