(* ===== verification/Netstack.v ===== *)
(** * The usermode network stack

    The virtual gateway (ARP, ICMP echo, DHCP) and the outbound UDP/TCP NAT of [netstack.c].
    Frames are lists of bytes; a read outside the frame, an overflow of the reply buffer or
    a reply byte that was never written sets [ns_oob].  The host's sockets are the parameter
    [io]: what [open] and [send] return may depend on everything that happened before. *)

From S2P Require Import Prelude Device.

(** [src/netstack.c 24-24] NS_MTU *)
Definition NS_MTU : Z := 1600.
(** [src/netstack.c 27-27] ETH_DST *)
Definition ETH_DST : Z := 0.
(** [src/netstack.c 28-28] ETH_SRC *)
Definition ETH_SRC : Z := 6.
(** [src/netstack.c 29-29] ETH_TYPE *)
Definition ETH_TYPE : Z := 12.
(** [src/netstack.c 30-30] ETH_HDR *)
Definition ETH_HDR : Z := 14.
(** [src/netstack.c 31-31] ETYPE_IP *)
Definition ETYPE_IP : Z := 0x0800.
(** [src/netstack.c 32-32] ETYPE_ARP *)
Definition ETYPE_ARP : Z := 0x0806.
(** [src/netstack.c 34-34] PROTO_ICMP *)
Definition PROTO_ICMP : Z := 1.
(** [src/netstack.c 35-35] PROTO_TCP *)
Definition PROTO_TCP : Z := 6.
(** [src/netstack.c 36-36] PROTO_UDP *)
Definition PROTO_UDP : Z := 17.
(** [src/netstack.c 39-39] TCP_FIN *)
Definition TCP_FIN : Z := 0x01.
(** [src/netstack.c 40-40] TCP_SYN *)
Definition TCP_SYN : Z := 0x02.
(** [src/netstack.c 41-41] TCP_RST *)
Definition TCP_RST : Z := 0x04.
(** [src/netstack.c 42-42] TCP_ACK *)
Definition TCP_ACK : Z := 0x10.
(** [src/netstack.c 45-45] NS_TCP_BUF *)
Definition NS_TCP_BUF : Z := 32768.
(** [src/netstack.c 46-46] NS_TCP_MSS *)
Definition NS_TCP_MSS : Z := 1460.
(** [src/netstack.h 65-65] NS_NAT_MAX *)
Definition NS_NAT_MAX : Z := 64.
(** [src/netstack.h 66-66] NS_PROTO_UDP *)
Definition NS_PROTO_UDP : Z := 0.
(** [src/netstack.h 67-67] NS_PROTO_TCP *)
Definition NS_PROTO_TCP : Z := 1.

(** [src/netstack.c 49-49] gw_mac *)
Definition gw_mac : list Z := [0x52; 0x55; 0x0a; 0x00; 0x02; 0x02].
(** [src/netstack.c 50-50] gw_ip *)
Definition gw_ip : list Z := [10; 0; 2; 2].
(** [src/netstack.c 51-51] dns_ip *)
Definition dns_ip : list Z := [10; 0; 2; 3].
(** [src/netstack.c 52-52] guest_ip *)
Definition guest_ip : list Z := [10; 0; 2; 15].
(** [src/netstack.c 53-53] netmask *)
Definition netmask : list Z := [255; 255; 255; 0].
(** [src/netstack.c 54-54] dhcp_magic *)
Definition dhcp_magic : list Z := [0x63; 0x82; 0x53; 0x63].

(** [src/netstack.c 57-57] TS_FREE *)
Definition TS_FREE : Z := 0.
Definition TS_CONNECTING : Z := 1.
Definition TS_SYNRCVD : Z := 2.
Definition TS_ESTAB : Z := 3.

(** A flow of the NAT table.  A buffer is [None] before it is allocated, and otherwise the
    bytes waiting in it, which the source counts in [g2h_len] and [h2g_len]. *)
(** [src/netstack.c 58-78] NatFlow *)
Record NatFlow := mkNatFlow {
  nf_proto : Z;
  nf_face_ip : list Z;
  nf_real_ip : list Z;
  nf_guest_port : Z;
  nf_face_port : Z;
  nf_state : Z;
  nf_guest_fin : bool;
  nf_host_eof : bool;
  nf_fin_sent : bool;
  nf_shutdown_pending : bool;
  nf_snd_nxt : Z;
  nf_snd_una : Z;
  nf_rcv_nxt : Z;
  nf_guest_wnd : Z;
  nf_g2h : option (list Z);
  nf_h2g : option (list Z)
}.
Definition set_nf_proto (v : Z) (r : NatFlow) : NatFlow :=
  mkNatFlow v (nf_face_ip r) (nf_real_ip r) (nf_guest_port r) (nf_face_port r) (nf_state r) (nf_guest_fin r) (nf_host_eof r) (nf_fin_sent r) (nf_shutdown_pending r) (nf_snd_nxt r) (nf_snd_una r) (nf_rcv_nxt r) (nf_guest_wnd r) (nf_g2h r) (nf_h2g r).
Definition set_nf_face_ip (v : list Z) (r : NatFlow) : NatFlow :=
  mkNatFlow (nf_proto r) v (nf_real_ip r) (nf_guest_port r) (nf_face_port r) (nf_state r) (nf_guest_fin r) (nf_host_eof r) (nf_fin_sent r) (nf_shutdown_pending r) (nf_snd_nxt r) (nf_snd_una r) (nf_rcv_nxt r) (nf_guest_wnd r) (nf_g2h r) (nf_h2g r).
Definition set_nf_real_ip (v : list Z) (r : NatFlow) : NatFlow :=
  mkNatFlow (nf_proto r) (nf_face_ip r) v (nf_guest_port r) (nf_face_port r) (nf_state r) (nf_guest_fin r) (nf_host_eof r) (nf_fin_sent r) (nf_shutdown_pending r) (nf_snd_nxt r) (nf_snd_una r) (nf_rcv_nxt r) (nf_guest_wnd r) (nf_g2h r) (nf_h2g r).
Definition set_nf_guest_port (v : Z) (r : NatFlow) : NatFlow :=
  mkNatFlow (nf_proto r) (nf_face_ip r) (nf_real_ip r) v (nf_face_port r) (nf_state r) (nf_guest_fin r) (nf_host_eof r) (nf_fin_sent r) (nf_shutdown_pending r) (nf_snd_nxt r) (nf_snd_una r) (nf_rcv_nxt r) (nf_guest_wnd r) (nf_g2h r) (nf_h2g r).
Definition set_nf_face_port (v : Z) (r : NatFlow) : NatFlow :=
  mkNatFlow (nf_proto r) (nf_face_ip r) (nf_real_ip r) (nf_guest_port r) v (nf_state r) (nf_guest_fin r) (nf_host_eof r) (nf_fin_sent r) (nf_shutdown_pending r) (nf_snd_nxt r) (nf_snd_una r) (nf_rcv_nxt r) (nf_guest_wnd r) (nf_g2h r) (nf_h2g r).
Definition set_nf_state (v : Z) (r : NatFlow) : NatFlow :=
  mkNatFlow (nf_proto r) (nf_face_ip r) (nf_real_ip r) (nf_guest_port r) (nf_face_port r) v (nf_guest_fin r) (nf_host_eof r) (nf_fin_sent r) (nf_shutdown_pending r) (nf_snd_nxt r) (nf_snd_una r) (nf_rcv_nxt r) (nf_guest_wnd r) (nf_g2h r) (nf_h2g r).
Definition set_nf_guest_fin (v : bool) (r : NatFlow) : NatFlow :=
  mkNatFlow (nf_proto r) (nf_face_ip r) (nf_real_ip r) (nf_guest_port r) (nf_face_port r) (nf_state r) v (nf_host_eof r) (nf_fin_sent r) (nf_shutdown_pending r) (nf_snd_nxt r) (nf_snd_una r) (nf_rcv_nxt r) (nf_guest_wnd r) (nf_g2h r) (nf_h2g r).
Definition set_nf_host_eof (v : bool) (r : NatFlow) : NatFlow :=
  mkNatFlow (nf_proto r) (nf_face_ip r) (nf_real_ip r) (nf_guest_port r) (nf_face_port r) (nf_state r) (nf_guest_fin r) v (nf_fin_sent r) (nf_shutdown_pending r) (nf_snd_nxt r) (nf_snd_una r) (nf_rcv_nxt r) (nf_guest_wnd r) (nf_g2h r) (nf_h2g r).
Definition set_nf_fin_sent (v : bool) (r : NatFlow) : NatFlow :=
  mkNatFlow (nf_proto r) (nf_face_ip r) (nf_real_ip r) (nf_guest_port r) (nf_face_port r) (nf_state r) (nf_guest_fin r) (nf_host_eof r) v (nf_shutdown_pending r) (nf_snd_nxt r) (nf_snd_una r) (nf_rcv_nxt r) (nf_guest_wnd r) (nf_g2h r) (nf_h2g r).
Definition set_nf_shutdown_pending (v : bool) (r : NatFlow) : NatFlow :=
  mkNatFlow (nf_proto r) (nf_face_ip r) (nf_real_ip r) (nf_guest_port r) (nf_face_port r) (nf_state r) (nf_guest_fin r) (nf_host_eof r) (nf_fin_sent r) v (nf_snd_nxt r) (nf_snd_una r) (nf_rcv_nxt r) (nf_guest_wnd r) (nf_g2h r) (nf_h2g r).
Definition set_nf_snd_nxt (v : Z) (r : NatFlow) : NatFlow :=
  mkNatFlow (nf_proto r) (nf_face_ip r) (nf_real_ip r) (nf_guest_port r) (nf_face_port r) (nf_state r) (nf_guest_fin r) (nf_host_eof r) (nf_fin_sent r) (nf_shutdown_pending r) v (nf_snd_una r) (nf_rcv_nxt r) (nf_guest_wnd r) (nf_g2h r) (nf_h2g r).
Definition set_nf_snd_una (v : Z) (r : NatFlow) : NatFlow :=
  mkNatFlow (nf_proto r) (nf_face_ip r) (nf_real_ip r) (nf_guest_port r) (nf_face_port r) (nf_state r) (nf_guest_fin r) (nf_host_eof r) (nf_fin_sent r) (nf_shutdown_pending r) (nf_snd_nxt r) v (nf_rcv_nxt r) (nf_guest_wnd r) (nf_g2h r) (nf_h2g r).
Definition set_nf_rcv_nxt (v : Z) (r : NatFlow) : NatFlow :=
  mkNatFlow (nf_proto r) (nf_face_ip r) (nf_real_ip r) (nf_guest_port r) (nf_face_port r) (nf_state r) (nf_guest_fin r) (nf_host_eof r) (nf_fin_sent r) (nf_shutdown_pending r) (nf_snd_nxt r) (nf_snd_una r) v (nf_guest_wnd r) (nf_g2h r) (nf_h2g r).
Definition set_nf_guest_wnd (v : Z) (r : NatFlow) : NatFlow :=
  mkNatFlow (nf_proto r) (nf_face_ip r) (nf_real_ip r) (nf_guest_port r) (nf_face_port r) (nf_state r) (nf_guest_fin r) (nf_host_eof r) (nf_fin_sent r) (nf_shutdown_pending r) (nf_snd_nxt r) (nf_snd_una r) (nf_rcv_nxt r) v (nf_g2h r) (nf_h2g r).
Definition set_nf_g2h (v : option (list Z)) (r : NatFlow) : NatFlow :=
  mkNatFlow (nf_proto r) (nf_face_ip r) (nf_real_ip r) (nf_guest_port r) (nf_face_port r) (nf_state r) (nf_guest_fin r) (nf_host_eof r) (nf_fin_sent r) (nf_shutdown_pending r) (nf_snd_nxt r) (nf_snd_una r) (nf_rcv_nxt r) (nf_guest_wnd r) v (nf_h2g r).
Definition set_nf_h2g (v : option (list Z)) (r : NatFlow) : NatFlow :=
  mkNatFlow (nf_proto r) (nf_face_ip r) (nf_real_ip r) (nf_guest_port r) (nf_face_port r) (nf_state r) (nf_guest_fin r) (nf_host_eof r) (nf_fin_sent r) (nf_shutdown_pending r) (nf_snd_nxt r) (nf_snd_una r) (nf_rcv_nxt r) (nf_guest_wnd r) (nf_g2h r) v.
(** What [memset(f, 0, sizeof *f)] leaves. *)
Definition NatFlow0 : NatFlow := mkNatFlow 0 [0; 0; 0; 0] [0; 0; 0; 0] 0 0 TS_FREE false false false false 0 0 0 0 None None.
Definition g2h_len (f : NatFlow) : Z := Z.of_nat (length (default [] (nf_g2h f))).
Definition h2g_len (f : NatFlow) : Z := Z.of_nat (length (default [] (nf_h2g f))).

(** What the stack does to the world: frames handed to the guest, calls to the backend with
    what [open] and [send] answered. *)
Inductive NetEvent :=
| NetOut (frame : list Z)
| IoOpen (id proto : Z) (ip : list Z) (port res : Z)
| IoSend (id : Z) (data : list Z) (res : Z)
| IoShutdown (id : Z)
| IoClose (id : Z).

(** The host behind the stack, as functions of the events so far, newest first.  The
    [shutdown] and [close] callbacks answer nothing.
    [src/netstack.h 69-83] NetIo *)
Record NetIo := mkNetIo {
  io_open : list NetEvent -> Z -> Z -> list Z -> Z -> Z;
  io_send : list NetEvent -> Z -> list Z -> Z;
  io_malloc : list NetEvent -> bool
}.

(** [ns_io] is whether a backend is attached; the callback [out] is the trace.  Two latches
    record undefined behaviour: [ns_oob] an access outside a buffer, [ns_null] a call through
    a [NULL] backend. *)
(** [src/netstack.c 80-90] NetStack *)
Record NetStack := mkNetStack {
  ns_guest_mac : list Z;
  ns_have_guest_mac : bool;
  ns_ip_id : Z;
  ns_io : bool;
  ns_upstream_dns : list Z;
  ns_tcp_isn : Z;
  ns_flows : gmap Z NatFlow;
  ns_trace : list NetEvent;
  ns_oob : bool;
  ns_null : bool
}.
Definition set_ns_guest_mac (v : list Z) (r : NetStack) : NetStack :=
  mkNetStack v (ns_have_guest_mac r) (ns_ip_id r) (ns_io r) (ns_upstream_dns r) (ns_tcp_isn r) (ns_flows r) (ns_trace r) (ns_oob r) (ns_null r).
Definition set_ns_have_guest_mac (v : bool) (r : NetStack) : NetStack :=
  mkNetStack (ns_guest_mac r) v (ns_ip_id r) (ns_io r) (ns_upstream_dns r) (ns_tcp_isn r) (ns_flows r) (ns_trace r) (ns_oob r) (ns_null r).
Definition set_ns_ip_id (v : Z) (r : NetStack) : NetStack :=
  mkNetStack (ns_guest_mac r) (ns_have_guest_mac r) v (ns_io r) (ns_upstream_dns r) (ns_tcp_isn r) (ns_flows r) (ns_trace r) (ns_oob r) (ns_null r).
Definition set_ns_io (v : bool) (r : NetStack) : NetStack :=
  mkNetStack (ns_guest_mac r) (ns_have_guest_mac r) (ns_ip_id r) v (ns_upstream_dns r) (ns_tcp_isn r) (ns_flows r) (ns_trace r) (ns_oob r) (ns_null r).
Definition set_ns_upstream_dns (v : list Z) (r : NetStack) : NetStack :=
  mkNetStack (ns_guest_mac r) (ns_have_guest_mac r) (ns_ip_id r) (ns_io r) v (ns_tcp_isn r) (ns_flows r) (ns_trace r) (ns_oob r) (ns_null r).
Definition set_ns_tcp_isn (v : Z) (r : NetStack) : NetStack :=
  mkNetStack (ns_guest_mac r) (ns_have_guest_mac r) (ns_ip_id r) (ns_io r) (ns_upstream_dns r) v (ns_flows r) (ns_trace r) (ns_oob r) (ns_null r).
Definition set_ns_flows (v : gmap Z NatFlow) (r : NetStack) : NetStack :=
  mkNetStack (ns_guest_mac r) (ns_have_guest_mac r) (ns_ip_id r) (ns_io r) (ns_upstream_dns r) (ns_tcp_isn r) v (ns_trace r) (ns_oob r) (ns_null r).
Definition set_ns_trace (v : list NetEvent) (r : NetStack) : NetStack :=
  mkNetStack (ns_guest_mac r) (ns_have_guest_mac r) (ns_ip_id r) (ns_io r) (ns_upstream_dns r) (ns_tcp_isn r) (ns_flows r) v (ns_oob r) (ns_null r).
Definition set_ns_oob (v : bool) (r : NetStack) : NetStack :=
  mkNetStack (ns_guest_mac r) (ns_have_guest_mac r) (ns_ip_id r) (ns_io r) (ns_upstream_dns r) (ns_tcp_isn r) (ns_flows r) (ns_trace r) v (ns_null r).
Definition set_ns_null (v : bool) (r : NetStack) : NetStack :=
  mkNetStack (ns_guest_mac r) (ns_have_guest_mac r) (ns_ip_id r) (ns_io r) (ns_upstream_dns r) (ns_tcp_isn r) (ns_flows r) (ns_trace r) (ns_oob r) v.
Definition flow (i : Z) (ns : NetStack) : NatFlow := default NatFlow0 (ns_flows ns !! i).
Definition upd_flow (i : Z) (g : NatFlow -> NatFlow) (ns : NetStack) : NetStack :=
  set_ns_flows (<[i := g (flow i ns)]> (ns_flows ns)) ns.
Definition ns_event (e : NetEvent) (ns : NetStack) : NetStack := set_ns_trace (e :: ns_trace ns) ns.

(** ** Access to the frame and to the reply buffer *)

(** One byte of the frame. *)
Definition rd (fr : list Z) (i : Z) : st NetStack Z :=
  if (0 <=? i) && (i <? Z.of_nat (length fr)) then mret (nth (Z.to_nat i) fr 0)
  else modify (set_ns_oob true) ;; mret 0.
(** [n] bytes of the frame, as [memcpy] and [memcmp] read them. *)
Definition rd_bytes (fr : list Z) (i n : Z) : st NetStack (list Z) :=
  if (0 <=? i) && (i + n <=? Z.of_nat (length fr)) then mret (take (Z.to_nat n) (drop (Z.to_nat i) fr))
  else modify (set_ns_oob true) ;; mret [].
(** [memcmp(a, b, 4) == 0] *)
Definition same_bytes (a b : list Z) : bool := bool_decide (a = b).

(** [src/netstack.c 93-93] be16 *)
Definition be16 (fr : list Z) (o : Z) : st NetStack Z :=
  a ← rd fr o; b ← rd fr (o + 1);
  mret (u16 (u32 (a << 8) .| b)).
(** [src/netstack.c 94-96] be32 *)
Definition be32 (fr : list Z) (o : Z) : st NetStack Z :=
  a ← rd fr o; b ← rd fr (o + 1); c ← rd fr (o + 2); d ← rd fr (o + 3);
  mret (u32 (a << 24) .| u32 (b << 16) .| u32 (c << 8) .| d).
(** [src/netstack.c 97-97] put_be16 *)
Definition put_be16 (o v : Z) (m : arr) : arr := aset (o + 1) (u8 v) (aset o (u8 (v >> 8)) m).
(** [src/netstack.c 98-101] put_be32 *)
Definition put_be32 (o v : Z) (m : arr) : arr :=
  aset (o + 3) (u8 v) (aset (o + 2) (u8 (v >> 8)) (aset (o + 1) (u8 (v >> 16)) (aset o (u8 (v >> 24)) m))).

(** [ns->out(ns->ctx, out, len)] with [uint8_t out[cap]]: every byte sent was written, and
    no write went past the buffer. *)
Definition ns_out (cap : Z) (out : arr) (len : Z) : st NetStack unit :=
  if (len <=? cap) && forallb (fun i => bool_decide (is_Some (out !! i))) (zseq 0 (Z.to_nat len))
     && bool_decide (map_Forall (fun i _ => 0 <= i < cap) out)
  then modify (ns_event (NetOut (slice out 0 (Z.to_nat len))))
  else modify (set_ns_oob true).

(** ** Checksums *)

(** [src/netstack.c 105-108] inet_csum *)
Fixpoint sum16 (l : list Z) (sum : Z) : Z :=
  match l with
  | a :: b :: l => sum16 l (u32 (sum + (u32 (a << 8) .| b)))
  | [a] => u32 (sum + u32 (a << 8))
  | [] => sum
  end.
(** [src/netstack.c 109-109] inet_csum *)
Fixpoint fold_carry (fuel : nat) (sum : Z) : Z :=
  match fuel with
  | O => sum
  | S fuel => if sum >> 16 =? 0 then sum else fold_carry fuel (u32 ((sum .& 0xffff) + (sum >> 16)))
  end.
(** Two rounds reduce any 32-bit sum ([fold_carry_folds]).
    [src/netstack.c 104-111] inet_csum *)
Definition inet_csum (data : list Z) : Z := u16 (Z.lnot (fold_carry 3 (sum16 data 0))).

(** [src/netstack.c 114-126] l4_csum *)
Definition l4_csum (src dst : list Z) (proto : Z) (l4 : list Z) : Z :=
  let w l o := u32 (nth o l 0 << 8) .| nth (S o) l 0 in
  let sum := u32 (w src 0%nat) in
  let sum := u32 (sum + w src 2%nat) in
  let sum := u32 (u32 (sum + w dst 0%nat) + w dst 2%nat) in
  let sum := u32 (sum + proto) in
  let sum := u32 (sum + u32 (Z.of_nat (length l4))) in
  u16 (Z.lnot (fold_carry 3 (sum16 l4 sum))).

(** [src/netstack.c 129-131] owns_ip *)
Definition owns_ip (ip : list Z) : bool := same_bytes ip gw_ip || same_bytes ip dns_ip.

(** ** The headers of a reply *)

(** [memcpy(out + ETH_DST, ..); memcpy(out + ETH_SRC, gw_mac, 6); put_be16(out + ETH_TYPE, ..)]
    [src/netstack.c 170-172] handle_icmp *)
Definition eth_header (dst : list Z) (etype : Z) (out : arr) : arr :=
  out |> put_bytes ETH_DST dst |> put_bytes ETH_SRC gw_mac |> put_be16 ETH_TYPE etype.

(** The IPv4 header at [ETH_HDR], its checksum computed over it with a zero checksum field.
    [src/netstack.c 174-180] handle_icmp *)
Definition ip_header (iptot id frag proto : Z) (src dst : list Z) (out : arr) : arr :=
  let o := ETH_HDR in
  let out := out |> aset o 0x45 |> aset (o + 1) 0 |> put_be16 (o + 2) (u16 iptot) |> put_be16 (o + 4) id |> put_be16 (o + 6) frag
    |> aset (o + 8) 64 |> aset (o + 9) (u8 proto) |> put_be16 (o + 10) 0
    |> put_bytes (o + 12) src |> put_bytes (o + 16) dst in
  put_be16 (o + 10) (inet_csum (slice out o 20)) out.

(** [ns->ip_id++] *)
Definition next_ip_id : st NetStack Z :=
  id ← gets ns_ip_id;
  modify (set_ns_ip_id (u16 (id + 1))) ;;
  mret id.

(** ** ARP *)

(** [src/netstack.c 134-155] handle_arp *)
Definition handle_arp (fr : list Z) : st NetStack unit :=
  if Z.of_nat (length fr) <? ETH_HDR + 28 then mret tt
  else
    let a := ETH_HDR in
    hw ← be16 fr a; pr ← be16 fr (a + 2);
    if negb (hw =? 1) || negb (pr =? ETYPE_IP) then mret tt
    else
      hlen ← rd fr (a + 4); plen ← rd fr (a + 5);
      if negb (hlen =? 6) || negb (plen =? 4) then mret tt
      else
        oper ← be16 fr (a + 6);
        if negb (oper =? 1) then mret tt
        else
          tpa ← rd_bytes fr (a + 24) 4;
          if negb (owns_ip tpa) then mret tt
          else
            sha ← rd_bytes fr (a + 8) 6;
            spa ← rd_bytes fr (a + 14) 4;
            let r := ETH_HDR in
            let out := ∅ |> eth_header sha ETYPE_ARP
              |> put_be16 r 1 |> put_be16 (r + 2) ETYPE_IP |> aset (r + 4) 6 |> aset (r + 5) 4 |> put_be16 (r + 6) 2
              |> put_bytes (r + 8) gw_mac |> put_bytes (r + 14) tpa |> put_bytes (r + 18) sha |> put_bytes (r + 24) spa in
            ns_out (ETH_HDR + 28) out (ETH_HDR + 28).

(** ** ICMP *)

(** [src/netstack.c 158-188] handle_icmp *)
Definition handle_icmp (fr : list Z) (ipoff ihl iptotal : Z) : st NetStack unit :=
  if iptotal <? ihl + 8 then mret tt
  else
    let icmp_len := iptotal - ihl in
    let icmp := ipoff + ihl in
    type ← rd fr icmp; code ← rd fr (icmp + 1);
    if negb (type =? 8) || negb (code =? 0) then mret tt
    else
      dst ← rd_bytes fr (ipoff + 16) 4;
      if negb (same_bytes dst gw_ip) then mret tt
      else if NS_MTU - ETH_HDR - 20 <? icmp_len then mret tt
      else
        let iptot := 20 + icmp_len in
        sender ← rd_bytes fr ETH_SRC 6;
        id ← next_ip_id;
        src ← rd_bytes fr (ipoff + 12) 4;
        body ← rd_bytes fr icmp icmp_len;
        let ic := ETH_HDR + 20 in
        let out := ∅ |> eth_header sender ETYPE_IP |> ip_header iptot id 0 PROTO_ICMP gw_ip src
          |> put_bytes ic body |> aset ic 0 |> put_be16 (ic + 2) 0 in
        let out := put_be16 (ic + 2) (inet_csum (slice out ic (Z.to_nat icmp_len))) out in
        ns_out NS_MTU out (ETH_HDR + iptot).

(** ** DHCP *)

(** [src/netstack.c 194-205] dhcp_msgtype *)
Fixpoint dhcp_scan (fuel : nat) (fr : list Z) (opt len i : Z) : st NetStack Z :=
  match fuel with
  | O => mret 0
  | S fuel =>
    if len <=? i then mret 0
    else
      code ← rd fr (opt + i);
      let i := i + 1 in
      if code =? 0 then dhcp_scan fuel fr opt len i
      else if code =? 255 then mret 0
      else if len <=? i then mret 0
      else
        l ← rd fr (opt + i);
        let i := i + 1 in
        if len <? i + l then mret 0
        else if (code =? 53) && (1 <=? l) then rd fr (opt + i)
        else dhcp_scan fuel fr opt len (i + l)
  end.
(** Each round advances the index, so [len] rounds are enough ([dhcp_scan_enough]).
    [src/netstack.c 193-206] dhcp_msgtype *)
Definition dhcp_msgtype (fr : list Z) (opt len : Z) : st NetStack Z := dhcp_scan (S (Z.to_nat len)) fr opt len 0.

(** [src/netstack.c 255-261] handle_dhcp *)
Definition dhcp_options (reply_type : Z) : list Z :=
  [53; 1; reply_type; 54; 4] ++ gw_ip ++ [51; 4; u8 (86400 >> 24); u8 (86400 >> 16); u8 (86400 >> 8); u8 86400]
  ++ [1; 4] ++ netmask ++ [3; 4] ++ gw_ip ++ [6; 4] ++ dns_ip ++ [255].

(** [src/netstack.c 208-264] handle_dhcp *)
Definition handle_dhcp (fr : list Z) (udpoff udp_total : Z) : st NetStack unit :=
  if udp_total <? 8 + 240 then mret tt
  else
    let dhcp := udpoff + 8 in
    let dhcp_len := udp_total - 8 in
    magic ← rd_bytes fr (dhcp + 236) 4;
    if negb (same_bytes magic dhcp_magic) then mret tt
    else
      t ← dhcp_msgtype fr (dhcp + 240) (dhcp_len - 240);
      if negb (t =? 1) && negb (t =? 3) then mret tt
      else
        let reply_type := if t =? 1 then 2 else 5 in
        let udp_len := 8 + 300 in
        let ip_len := 20 + udp_len in
        id ← next_ip_id;
        xid ← rd_bytes fr (dhcp + 4) 4;
        flags ← rd_bytes fr (dhcp + 10) 2;
        chaddr ← rd_bytes fr (dhcp + 28) 6;
        let udp := ETH_HDR + 20 in
        let d := udp + 8 in
        let out := put_bytes 0 (repeat 0 (Z.to_nat NS_MTU)) ∅
          |> eth_header (repeat 0xff 6) ETYPE_IP
          |> ip_header ip_len id 0 PROTO_UDP gw_ip (repeat 0xff 4)
          |> put_be16 udp 67 |> put_be16 (udp + 2) 68 |> put_be16 (udp + 4) (u16 udp_len) |> put_be16 (udp + 6) 0
          |> aset d 2 |> aset (d + 1) 1 |> aset (d + 2) 6
          |> put_bytes (d + 4) xid |> put_bytes (d + 10) flags |> put_bytes (d + 16) guest_ip |> put_bytes (d + 20) gw_ip
          |> put_bytes (d + 28) chaddr |> put_bytes (d + 236) dhcp_magic
          |> put_bytes (d + 240) (dhcp_options reply_type) in
        ns_out NS_MTU out (ETH_HDR + ip_len).

Section Nat.
Context (io : NetIo).

(** ** The flow table *)

(** [src/netstack.c 271-281] flow_find *)
Definition flow_find (proto gport : Z) (rip : list Z) (rport : Z) (ns : NetStack) : option Z :=
find (fun i => let f := flow i ns in
  negb (nf_state f =? TS_FREE) && (nf_proto f =? proto)
  && (nf_guest_port f =? gport) && (nf_face_port f =? rport) && same_bytes (nf_face_ip f) rip)
  (zseq 0 (Z.to_nat NS_NAT_MAX)).

(** [src/netstack.c 293-300] flow_alloc *)
Definition new_flow (proto gport : Z) (rip : list Z) (rport : Z) (upstream : list Z) : NatFlow :=
NatFlow0 |> set_nf_proto proto |> set_nf_guest_port gport |> set_nf_face_port rport |> set_nf_face_ip rip
  |> set_nf_real_ip (if same_bytes rip dns_ip then upstream else rip)
  |> set_nf_state (if proto =? NS_PROTO_TCP then TS_CONNECTING else TS_ESTAB).
(** [src/netstack.c 287-304] flow_alloc *)
Definition flow_alloc (proto gport : Z) (rip : list Z) (rport : Z) : st NetStack (option Z) :=
ns ← gets id;
if negb (ns_io ns) then mret None
else match find (fun i => nf_state (flow i ns) =? TS_FREE) (zseq 0 (Z.to_nat NS_NAT_MAX)) with
     | None => mret None
     | Some i => modify (upd_flow i (fun _ => new_flow proto gport rip rport (ns_upstream_dns ns))) ;; mret (Some i)
     end.

(** [src/netstack.c 306-312] flow_free *)
Definition flow_free (i : Z) : st NetStack unit :=
ns ← gets id;
if nf_state (flow i ns) =? TS_FREE then mret tt
else
  when (ns_io ns) (modify (ns_event (IoClose i))) ;;
  modify (upd_flow i (fun _ => NatFlow0)).

(** A call through [ns->io], latched when it is [NULL]. *)
Definition call_io (m : st NetStack Z) : st NetStack Z :=
attached ← gets ns_io;
if negb attached then modify (set_ns_null true) ;; mret 0 else m.
(** [ns->io->open(..)] *)
Definition do_open (i proto : Z) (ip : list Z) (port : Z) : st NetStack Z :=
call_io (r ← gets (fun ns => io_open io (ns_trace ns) i proto ip port);
         modify (ns_event (IoOpen i proto ip port r)) ;; mret r).
(** [ns->io->send(..)] *)
Definition do_send (i : Z) (data : list Z) : st NetStack Z :=
call_io (r ← gets (fun ns => io_send io (ns_trace ns) i data);
         modify (ns_event (IoSend i data r)) ;; mret r).
(** [ns->io->shutdown(..)] *)
Definition do_shutdown (i : Z) : st NetStack Z := call_io (modify (ns_event (IoShutdown i)) ;; mret 0).

(** ** UDP *)

(** [src/netstack.c 317-340] udp_to_guest *)
Definition udp_to_guest (i : Z) (data : list Z) : st NetStack unit :=
f ← gets (flow i);
mac ← gets ns_guest_mac;
let max := NS_MTU - ETH_HDR - 20 - 8 in
let data := if max <? Z.of_nat (length data) then take (Z.to_nat max) data else data in
let udp_len := 8 + Z.of_nat (length data) in
let ip_len := 20 + udp_len in
id ← next_ip_id;
let udp := ETH_HDR + 20 in
let out := ∅ |> eth_header mac ETYPE_IP |> ip_header ip_len id 0 PROTO_UDP (nf_face_ip f) guest_ip
  |> put_be16 udp (nf_face_port f) |> put_be16 (udp + 2) (nf_guest_port f) |> put_be16 (udp + 4) (u16 udp_len)
  |> put_be16 (udp + 6) 0 |> put_bytes (udp + 8) data in
ns_out NS_MTU out (ETH_HDR + ip_len).

(** [src/netstack.c 343-362] udp_nat *)
Definition udp_nat (fr : list Z) (ipoff ihl iptotal : Z) : st NetStack unit :=
attached ← gets ns_io;
if negb attached || (iptotal <? ihl + 8) then mret tt
else
  let udp := ipoff + ihl in
  sport ← be16 fr udp; dport ← be16 fr (udp + 2); ulen ← be16 fr (udp + 4);
  let ulen := if (ulen <? 8) || (iptotal - ihl <? ulen) then iptotal - ihl else ulen in
  let plen := ulen - 8 in
  dst ← rd_bytes fr (ipoff + 16) 4;
  payload ← rd_bytes fr (udp + 8) plen;
  found ← gets (flow_find NS_PROTO_UDP sport dst dport);
  match found with
  | Some i => do_send i payload ;; mret tt
  | None =>
    fresh ← flow_alloc NS_PROTO_UDP sport dst dport;
    match fresh with
    | None => mret tt
    | Some i =>
      f ← gets (flow i);
      r ← do_open i NS_PROTO_UDP (nf_real_ip f) dport;
      if negb (r =? 0) then flow_free i
      else do_send i payload ;; mret tt
    end
  end.

(** ** TCP *)

(** The addressing and sequence fields every segment starts with.
  [src/netstack.c 385-388] tcp_out *)
Definition tcp_header (f : NatFlow) (t : Z) (out : arr) : arr :=
out |> put_be16 t (nf_face_port f) |> put_be16 (t + 2) (nf_guest_port f)
  |> put_be32 (t + 4) (nf_snd_nxt f) |> put_be32 (t + 8) (nf_rcv_nxt f).

(** [src/netstack.c 368-397] tcp_out *)
Definition tcp_out (i flags : Z) (payload : list Z) : st NetStack unit :=
f ← gets (flow i);
mac ← gets ns_guest_mac;
let plen := Z.of_nat (length payload) in
let iptot := 20 + 20 + plen in
id ← next_ip_id;
let t := ETH_HDR + 20 in
let out := ∅ |> eth_header mac ETYPE_IP |> ip_header iptot id 0x4000 PROTO_TCP (nf_face_ip f) guest_ip
  |> tcp_header f t |> aset (t + 12) (5 << 4) |> aset (t + 13) flags
  |> put_be16 (t + 14) (u16 (NS_TCP_BUF - g2h_len f)) |> put_be16 (t + 16) 0 |> put_be16 (t + 18) 0
  |> put_bytes (t + 20) payload in
let out := put_be16 (t + 16) (l4_csum (nf_face_ip f) guest_ip PROTO_TCP (slice out t (Z.to_nat (20 + plen)))) out in
ns_out (ETH_HDR + 20 + 20 + NS_TCP_MSS) out (ETH_HDR + iptot).

(** [src/netstack.c 400-426] tcp_synack *)
Definition tcp_synack (i : Z) : st NetStack unit :=
f ← gets (flow i);
mac ← gets ns_guest_mac;
let iptot := 20 + 24 in
id ← next_ip_id;
let t := ETH_HDR + 20 in
let out := ∅ |> eth_header mac ETYPE_IP |> ip_header iptot id 0x4000 PROTO_TCP (nf_face_ip f) guest_ip
  |> tcp_header f t |> aset (t + 12) (6 << 4) |> aset (t + 13) (u8 (TCP_SYN .| TCP_ACK))
  |> put_be16 (t + 14) (u16 NS_TCP_BUF) |> put_be16 (t + 16) 0 |> put_be16 (t + 18) 0
  |> aset (t + 20) 2 |> aset (t + 21) 4 |> put_be16 (t + 22) (u16 NS_TCP_MSS) in
let out := put_be16 (t + 16) (l4_csum (nf_face_ip f) guest_ip PROTO_TCP (slice out t 24)) out in
ns_out (ETH_HDR + 20 + 24) out (ETH_HDR + iptot).

(** [src/netstack.c 431-442] tcp_flush_h2g *)
Fixpoint flush_loop (fuel : nat) (i : Z) : st NetStack unit :=
match fuel with
| O => mret tt
| S fuel =>
  f ← gets (flow i);
  match nf_h2g f with
  | None => mret tt
  | Some buf =>
    if h2g_len f =? 0 then mret tt
    else
      let inflight := u32 (nf_snd_nxt f - nf_snd_una f) in
      if nf_guest_wnd f <=? inflight then mret tt
      else
        let room := u32 (nf_guest_wnd f - inflight) in
        let chunk := h2g_len f in
        let chunk := if room <? chunk then room else chunk in
        let chunk := if NS_TCP_MSS <? chunk then NS_TCP_MSS else chunk in
        tcp_out i TCP_ACK (take (Z.to_nat chunk) buf) ;;
        modify (upd_flow i (fun f => set_nf_snd_nxt (u32 (nf_snd_nxt f + chunk)) f)) ;;
        modify (upd_flow i (fun f => set_nf_h2g (Some (drop (Z.to_nat chunk) buf)) f)) ;;
        flush_loop fuel i
  end
end.

(** Each round sends at least one byte, so as many rounds as there are bytes are enough
  ([flush_loop_done]).
  [src/netstack.c 429-449] tcp_flush_h2g *)
Definition tcp_flush_h2g (i : Z) : st NetStack unit :=
f ← gets (flow i);
if negb (nf_state f =? TS_ESTAB) then mret tt
else
  flush_loop (S (Z.to_nat (h2g_len f))) i ;;
  f ← gets (flow i);
  when (nf_host_eof f && (h2g_len f =? 0) && negb (nf_fin_sent f))
    (tcp_out i (u8 (TCP_FIN .| TCP_ACK)) [] ;;
     modify (upd_flow i (fun f => set_nf_fin_sent true (set_nf_snd_nxt (u32 (nf_snd_nxt f + 1)) f)))).

(** [src/netstack.c 455-469] tcp_drain_g2h *)
Definition tcp_drain_g2h (i : Z) : st NetStack bool :=
f ← gets (flow i);
alive ← match nf_g2h f with
  | Some buf =>
    if g2h_len f =? 0 then mret true
    else
      n ← do_send i buf;
      if n <? 0 then tcp_out i TCP_RST [] ;; flow_free i ;; mret false
      else
        when (g2h_len f <? n) (modify (set_ns_oob true)) ;;
        when (0 <? n) (modify (upd_flow i (set_nf_g2h (Some (drop (Z.to_nat n) buf))))) ;;
        mret true
  | None => mret true
  end;
if negb alive then mret false
else
  f ← gets (flow i);
  when (nf_shutdown_pending f && (g2h_len f =? 0))
    (do_shutdown i ;; modify (upd_flow i (set_nf_shutdown_pending false))) ;;
  mret true.

(** [src/netstack.c 472-475] tcp_maybe_close *)
Definition tcp_maybe_close (i : Z) : st NetStack unit :=
f ← gets (flow i);
when (nf_guest_fin f && nf_fin_sent f && (g2h_len f =? 0) && (h2g_len f =? 0)) (flow_free i).

(** A SYN with no flow: the SYN-ACK waits for [netstack_host_connected].
  [src/netstack.c 493-506] handle_tcp *)
Definition tcp_connect (sport dport seq wnd : Z) (dst : list Z) : st NetStack unit :=
fresh ← flow_alloc NS_PROTO_TCP sport dst dport;
match fresh with
| None => mret tt
| Some i =>
  modify (fun ns => set_ns_tcp_isn (u32 (ns_tcp_isn ns + 0x1000)) ns) ;;
  isn ← gets ns_tcp_isn;
  modify (upd_flow i (fun f => f |> set_nf_snd_nxt isn |> set_nf_snd_una isn |> set_nf_rcv_nxt (u32 (seq + 1))
    |> set_nf_guest_wnd (if wnd =? 0 then 1 else wnd))) ;;
  f ← gets (flow i);
  r ← do_open i NS_PROTO_TCP (nf_real_ip f) dport;
  when (negb (r =? 0)) (tcp_out i (u8 (TCP_RST .| TCP_ACK)) [] ;; flow_free i)
end.

(** The window, the acknowledgement and the end of the handshake.
  [src/netstack.c 512-517] handle_tcp *)
Definition tcp_acked (flags ack wnd : Z) (f : NatFlow) : NatFlow :=
let f := set_nf_guest_wnd (if wnd =? 0 then 1 else wnd) f in
let acks := negb (flags .& TCP_ACK =? 0) in
let f := if acks && (u32 (ack - nf_snd_una f) <=? u32 (nf_snd_nxt f - nf_snd_una f)) then set_nf_snd_una ack f else f in
if (nf_state f =? TS_SYNRCVD) && acks && (nf_snd_una f =? nf_snd_nxt f) then set_nf_state TS_ESTAB f else f.

(** In-order data goes into the buffer, as much as fits; [true] unless the flow was torn down.
  [src/netstack.c 519-534] handle_tcp *)
Definition tcp_data (i seq : Z) (payload : list Z) : st NetStack bool :=
f ← gets (flow i);
let plen := Z.of_nat (length payload) in
if (0 <? plen) && (nf_state f =? TS_ESTAB) && (seq =? nf_rcv_nxt f) && negb (nf_guest_fin f) then
  let room := u32 (NS_TCP_BUF - g2h_len f) in
  let take_ := if plen <? room then plen else room in
  when (0 <? take_)
    (got ← gets (fun ns => match nf_g2h (flow i ns) with Some b => Some b | None => if io_malloc io (ns_trace ns) then Some [] else None end);
     match got with
     | None => mret tt
     | Some b => modify (upd_flow i (fun f => f |> set_nf_g2h (Some (b ++ take (Z.to_nat take_) payload))
         |> set_nf_rcv_nxt (u32 (nf_rcv_nxt f + take_))))
     end) ;;
  alive ← tcp_drain_g2h i;
  when (alive : bool) (tcp_out i TCP_ACK []) ;;
  mret alive
else
  when ((0 <? plen) && negb (seq =? nf_rcv_nxt f)) (tcp_out i TCP_ACK []) ;;
  mret true.

(** [src/netstack.c 536-542] handle_tcp *)
Definition tcp_fin (i flags seq plen : Z) : st NetStack bool :=
f ← gets (flow i);
if negb (flags .& TCP_FIN =? 0) && negb (nf_guest_fin f) && (u32 (seq + plen) =? nf_rcv_nxt f) then
  modify (upd_flow i (fun f => f |> set_nf_guest_fin true |> set_nf_rcv_nxt (u32 (nf_rcv_nxt f + 1)))) ;;
  tcp_out i TCP_ACK [] ;;
  modify (upd_flow i (set_nf_shutdown_pending true)) ;;
  tcp_drain_g2h i
else mret true.

(** What a segment does once its fields are read.
  [src/netstack.c 491-545] handle_tcp *)
Definition tcp_segment (sport dport seq ack flags wnd : Z) (dst payload : list Z) : st NetStack unit :=
found ← gets (flow_find NS_PROTO_TCP sport dst dport);
match found with
| None => if negb (flags .& TCP_SYN =? 0) then tcp_connect sport dport seq wnd dst else mret tt
| Some i =>
  if negb (flags .& TCP_RST =? 0) then flow_free i
  else
    modify (upd_flow i (tcp_acked flags ack wnd)) ;;
    alive ← tcp_data i seq payload;
    if negb alive then mret tt
    else
      alive ← tcp_fin i flags seq (Z.of_nat (length payload));
      if negb alive then mret tt
      else tcp_flush_h2g i ;; tcp_maybe_close i
end.

(** [src/netstack.c 477-546] handle_tcp *)
Definition handle_tcp (fr : list Z) (ipoff ihl iptotal : Z) : st NetStack unit :=
attached ← gets ns_io;
if negb attached || (iptotal <? ihl + 20) then mret tt
else
  let t := ipoff + ihl in
  sport ← be16 fr t; dport ← be16 fr (t + 2); seq ← be32 fr (t + 4); ack ← be32 fr (t + 8);
  off ← rd fr (t + 12); flags ← rd fr (t + 13); wnd ← be16 fr (t + 14);
  let doff := (off >> 4) * 4 in
  if (doff <? 20) || (iptotal <? ihl + doff) then mret tt
  else
    let plen := iptotal - ihl - doff in
    dst ← rd_bytes fr (ipoff + 16) 4;
    payload ← rd_bytes fr (t + doff) plen;
    tcp_segment sport dport seq ack flags wnd dst payload.

(** ** Dispatch *)

(** [src/netstack.c 549-558] handle_udp *)
Definition handle_udp (fr : list Z) (ipoff ihl iptotal : Z) : st NetStack unit :=
if iptotal <? ihl + 8 then mret tt
else
  dport ← be16 fr (ipoff + ihl + 2); sport ← be16 fr (ipoff + ihl);
  if (dport =? 67) && (sport =? 68) then handle_dhcp fr (ipoff + ihl) (iptotal - ihl)
  else
    dst ← rd_bytes fr (ipoff + 16) 4;
    when (negb (same_bytes dst gw_ip)) (udp_nat fr ipoff ihl iptotal).

(** [src/netstack.c 560-575] handle_ip *)
Definition handle_ip (fr : list Z) : st NetStack unit :=
let len := Z.of_nat (length fr) in
if len <? ETH_HDR + 20 then mret tt
else
  v ← rd fr ETH_HDR;
  if negb (v >> 4 =? 4) then mret tt
  else
    let ihl := (v .& 0x0f) * 4 in
    if (ihl <? 20) || (len <? ETH_HDR + ihl) then mret tt
    else
      tot ← be16 fr (ETH_HDR + 2);
      let avail := len - ETH_HDR in
      let iptotal := if avail <? tot then avail else tot in
      if iptotal <? ihl then mret tt
      else
        proto ← rd fr (ETH_HDR + 9);
        dst ← rd_bytes fr (ETH_HDR + 16) 4;
        if proto =? PROTO_ICMP then handle_icmp fr ETH_HDR ihl iptotal
        else if proto =? PROTO_UDP then handle_udp fr ETH_HDR ihl iptotal
        else when ((proto =? PROTO_TCP) && negb (same_bytes dst gw_ip)) (handle_tcp fr ETH_HDR ihl iptotal).

(** [src/netstack.c 675-682] netstack_input *)
Definition netstack_input (fr : list Z) : st NetStack unit :=
if Z.of_nat (length fr) <? ETH_HDR then mret tt
else
  mac ← rd_bytes fr ETH_SRC 6;
  modify (fun ns => set_ns_have_guest_mac true (set_ns_guest_mac mac ns)) ;;
  etype ← be16 fr ETH_TYPE;
  if etype =? ETYPE_ARP then handle_arp fr
  else when (etype =? ETYPE_IP) (handle_ip fr).

(** ** Events from the host *)

(** [src/netstack.c 580-583] flow_by_id *)
Definition flow_by_id (i : Z) (ns : NetStack) : option NatFlow :=
if (i <? 0) || (NS_NAT_MAX <=? i) || (nf_state (flow i ns) =? TS_FREE) then None else Some (flow i ns).

(** [src/netstack.c 585-591] netstack_host_connected *)
Definition netstack_host_connected (i : Z) : st NetStack unit :=
got ← gets (flow_by_id i);
match got with
| None => mret tt
| Some f =>
  if negb (nf_proto f =? NS_PROTO_TCP) || negb (nf_state f =? TS_CONNECTING) then mret tt
  else
    tcp_synack i ;;
    modify (upd_flow i (fun f => f |> set_nf_snd_nxt (u32 (nf_snd_nxt f + 1)) |> set_nf_state TS_SYNRCVD))
end.

(** [src/netstack.c 593-607] netstack_host_recv *)
Definition netstack_host_recv (i : Z) (data : list Z) : st NetStack unit :=
got ← gets (flow_by_id i);
match got with
| None => mret tt
| Some f =>
  let len := Z.of_nat (length data) in
  if len =? 0 then mret tt
  else if nf_proto f =? NS_PROTO_UDP then udp_to_guest i data
  else
    let room := u32 (NS_TCP_BUF - h2g_len f) in
    let len := if room <? len then room else len in
    if len =? 0 then mret tt
    else
      buf ← gets (fun ns => match nf_h2g f with Some b => Some b | None => if io_malloc io (ns_trace ns) then Some [] else None end);
      match buf with
      | None => mret tt
      | Some b => modify (upd_flow i (set_nf_h2g (Some (b ++ take (Z.to_nat len) data)))) ;; tcp_flush_h2g i
      end
end.

(** [src/netstack.c 609-616] netstack_host_closed *)
Definition netstack_host_closed (i : Z) : st NetStack unit :=
got ← gets (flow_by_id i);
match got with
| None => mret tt
| Some f =>
  if nf_proto f =? NS_PROTO_UDP then flow_free i
  else modify (upd_flow i (set_nf_host_eof true)) ;; tcp_flush_h2g i ;; tcp_maybe_close i
end.

(** [src/netstack.c 618-624] netstack_host_reset *)
Definition netstack_host_reset (i : Z) : st NetStack unit :=
got ← gets (flow_by_id i);
match got with
| None => mret tt
| Some f =>
  when ((nf_proto f =? NS_PROTO_TCP) && negb (nf_fin_sent f)) (tcp_out i (u8 (TCP_RST .| TCP_ACK)) []) ;;
  flow_free i
end.

(** [src/netstack.c 626-633] netstack_host_writable *)
Definition netstack_host_writable (i : Z) : st NetStack unit :=
got ← gets (flow_by_id i);
match got with
| None => mret tt
| Some f =>
  if negb (nf_proto f =? NS_PROTO_TCP) then mret tt
  else
    alive ← tcp_drain_g2h i;
    if negb alive then mret tt
    else
      f' ← gets (flow i);
      when (g2h_len f' <? g2h_len f) (tcp_out i TCP_ACK []) ;;
      tcp_maybe_close i
end.

(** [src/netstack.c 635-641] netstack_rx_room *)
Definition netstack_rx_room (i : Z) (ns : NetStack) : Z :=
match flow_by_id i ns with
| None => 0
| Some f =>
  if nf_proto f =? NS_PROTO_UDP then NS_MTU
  else if nf_host_eof f || (nf_state f <? TS_SYNRCVD) then 0
  else u32 (NS_TCP_BUF - h2g_len f)
end.

(** [src/netstack.c 643-646] netstack_wants_write *)
Definition netstack_wants_write (i : Z) (ns : NetStack) : bool :=
match flow_by_id i ns with
| None => false
| Some f => (nf_proto f =? NS_PROTO_TCP) && (0 <? g2h_len f)
end.

(** ** Lifecycle *)

(** [src/netstack.c 650-654] netstack_set_io *)
Definition netstack_set_io (attached : bool) (dns : option (list Z)) : st NetStack unit :=
modify (set_ns_io attached) ;;
match dns with Some a => modify (set_ns_upstream_dns a) | None => mret tt end.

(** [src/netstack.c 656-666] netstack_new *)
Definition netstack_new : NetStack :=
mkNetStack [0; 0; 0; 0; 0; 0] false 1 false dns_ip 0x8000 ∅ [] false false.

(** [src/netstack.c 668-673] netstack_free *)
Definition netstack_free : st NetStack unit :=
for_ (Z.to_nat NS_NAT_MAX) 0 flow_free.
End Nat.
