(* ===== verification/NetWire.v ===== *)
(** * Frames on the wire

    What a receiver checks of a frame (the Internet checksum of RFC 1071, the lengths of the
    Ethernet and IPv4 headers), and how the reply buffers of the network stack meet it. *)

From S2P Require Import Prelude Device DeviceInv DeviceThms Netstack.

(** ** The Internet checksum *)

(** The 16-bit big-endian words of a byte string, an odd last byte padded with zero. *)
Fixpoint words_sum (l : list Z) : Z :=
  match l with
  | a :: b :: l => a * 256 + b + words_sum l
  | [a] => a * 256
  | [] => 0
  end.

(** The one's-complement sum of the words, with [extra] from a pseudo-header, is all ones. *)
Definition checksum_ok (extra : Z) (l : list Z) : Prop := 0 < extra + words_sum l /\ (extra + words_sum l) mod 0xffff = 0.

(** Induction on a byte string two bytes at a time. *)
Lemma pair_ind {A} (P : list A -> Prop) : P [] -> (forall a, P [a]) -> (forall a b l, P l -> P (a :: b :: l)) -> forall l, P l.
Proof.
  intros H0 H1 H2 l. enough (P l /\ forall a, P (a :: l)) by tauto.
  induction l as [|b l [IH1 IH2]]; [done|]. split; [apply IH2|]. intros a. by apply H2.
Qed.

Lemma words_sum_bound l : bytes l -> 0 <= words_sum l <= 0xffff * Z.of_nat (length l).
Proof.
  induction l as [|a|a b l IH] using pair_ind; intros Hl.
  - done.
  - apply Forall_cons_1 in Hl as [Ha _]. unfold rng in *. cbn. lia.
  - apply Forall_cons_1 in Hl as [Ha Hl]. apply Forall_cons_1 in Hl as [Hb Hl]. specialize (IH Hl). unfold rng in *. cbn [words_sum length]. lia.
Qed.
Lemma words_sum_app l l' : Nat.even (length l) = true -> words_sum (l ++ l') = words_sum l + words_sum l'.
Proof.
  induction l as [|a|a b l IH] using pair_ind; intros He; [done|done|]. cbn [app words_sum]. rewrite IH by done. lia.
Qed.

Lemma be_word a b : rng 8 a -> rng 8 b -> u32 (a << 8) .| b = a * 256 + b.
Proof.
  intros Ha Hb. assert (u32 (a << 8) = a << 8) as -> by (apply wrap_small; [lia|]; unfold rng in *; rewrite Z.shiftl_mul_pow2; lia).
  rewrite Z.lor_comm, (lor_shiftl_add 8) by (done || lia). lia.
Qed.
Lemma sum16_words l : forall sum, bytes l -> 0 <= sum -> sum + 0xffff * Z.of_nat (length l) < 2 ^ 32 -> sum16 l sum = sum + words_sum l.
Proof.
  induction l as [|a|a b l IH] using pair_ind; intros sum Hl H0 Hs.
  - cbn. lia.
  - apply Forall_cons_1 in Hl as [Ha _]. cbn [sum16 words_sum length] in *. pose proof (be_word a 0 Ha ltac:(by apply rng_const)) as E.
    rewrite Z.lor_0_r, Z.add_0_r in E. rewrite E. apply wrap_small; [lia|]. unfold rng in *. lia.
  - apply Forall_cons_1 in Hl as [Ha Hl]. apply Forall_cons_1 in Hl as [Hb Hl]. cbn [sum16 words_sum length] in *. rewrite be_word by done.
    assert (u32 (sum + (a * 256 + b)) = sum + (a * 256 + b)) as -> by (apply wrap_small; [lia|]; unfold rng in *; lia).
    rewrite IH; [lia|done|unfold rng in *; lia|unfold rng in *; lia].
Qed.

(** The end-around carry is folded in two rounds: the result has 16 bits, the same residue,
    and is zero only for zero. *)
Lemma fold_carry_folds s : rng 32 s -> let c := fold_carry 3 s in rng 16 c /\ c mod 0xffff = s mod 0xffff /\ (c = 0 -> s = 0).
Proof.
  intros Hs. change (2 ^ 32) with 4294967296 in *. assert (forall x, rng 32 x -> let y := u32 ((x .& 0xffff) + (x >> 16)) in
    y = x mod 65536 + x / 65536 /\ y mod 0xffff = x mod 0xffff) as Hstep.
  { intros x Hx. cbv zeta. change 0xffff with (Z.ones 16). rewrite Z.land_ones, Z.shiftr_div_pow2 by lia.
    assert (u32 (x mod 2 ^ 16 + x / 2 ^ 16) = x mod 2 ^ 16 + x / 2 ^ 16) as ->.
    { apply wrap_small; [lia|]. unfold rng in *. change (2 ^ 16) with 65536. Z.div_mod_to_equations. lia. }
    split; [done|]. pose proof (Z.div_mod x (2 ^ 16)). change (Z.ones 16) with 0xffff.
    replace x with (x mod 2 ^ 16 + x / 2 ^ 16 + x / 2 ^ 16 * 0xffff) at 3 by lia. by rewrite Z.mod_add. }
  assert (forall x, rng 32 x -> (x >> 16 =? 0) = true -> rng 16 x) as Hsmall.
  { intros x Hx E%Z.eqb_eq. rewrite Z.shiftr_div_pow2 in E by lia. unfold rng in *. Z.div_mod_to_equations. lia. }
  cbn [fold_carry]. destruct (s >> 16 =? 0) eqn:E1; [by split; [apply Hsmall|]|].
  destruct (Hstep s Hs) as [V1 M1]. set (s1 := u32 _) in *. assert (rng 32 s1 /\ 0 < s1 <= 0x1fffe) as [R1 B1].
  { split; [apply u32_rng|]. apply Z.eqb_neq in E1. rewrite Z.shiftr_div_pow2 in E1 by lia. change (2 ^ 16) with 65536 in *. unfold rng in *. Z.div_mod_to_equations. lia. }
  destruct (s1 >> 16 =? 0) eqn:E2; [split; [by apply Hsmall|split; [done|lia]]|].
  clearbody s1. destruct (Hstep s1 R1) as [V2 M2]. set (s2 := u32 _) in *. assert (rng 32 s2 /\ 0 < s2 <= 0xffff) as [R2 B2].
  { split; [apply u32_rng|]. clearbody s2. clear - V2 B1. Z.div_mod_to_equations. lia. }
  assert (rng 16 s2) by (unfold rng; lia). destruct (s2 >> 16 =? 0) eqn:E3; [split; [done|split; [congruence|lia]]|].
  apply Z.eqb_neq in E3. rewrite Z.shiftr_div_pow2 in E3 by lia. Z.div_mod_to_equations. lia.
Qed.
Lemma csum_complement s : rng 32 s -> let c := u16 (Z.lnot (fold_carry 3 s)) in
  rng 16 c /\ 0 < s + c /\ (s + c) mod 0xffff = 0.
Proof.
  intros Hs. destruct (fold_carry_folds s Hs) as (Hr & Hm & Hz). assert (s = 0 -> fold_carry 3 s = 0) as H0 by (by intros ->).
  set (c := fold_carry 3 s) in *. clearbody c.
  assert (u16 (Z.lnot c) = 0xffff - c) as ->.
  { unfold u16. rewrite wrap_mod by lia. unfold Z.lnot. unfold rng in *. Z.div_mod_to_equations. lia. }
  unfold rng in *. split; [lia|]. split; [lia|]. Z.div_mod_to_equations. lia.
Qed.

(** ** Reply buffers *)

Definition has (out : arr) (i : Z) : Prop := is_Some (out !! i).
Lemma has_empty i : has ∅ i <-> False.
Proof. unfold has. rewrite lookup_empty. by split; [intros []|]. Qed.
Lemma has_aset o v a i : has (aset o v a) i <-> i = o \/ has a i.
Proof.
  unfold has, aset. destruct (decide (o = i)) as [->|Hn].
  - rewrite lookup_insert_eq. split; [by left|done].
  - rewrite lookup_insert_ne by done. intuition congruence.
Qed.
Lemma has_put_bytes l : forall o a i, has (put_bytes o l a) i <-> o <= i < o + Z.of_nat (length l) \/ has a i.
Proof.
  induction l as [|x l IH]; intros o a i; cbn [put_bytes length].
  - split; [by right|]. intros [?|?]; [lia|done].
  - rewrite IH, has_aset, Nat2Z.inj_succ. split; [intros [?|[?|?]]|intros [?|?]]; try (by right; right); try (by right).
    + left; lia.
    + left; lia.
    + destruct (decide (i = o)); [by right; left|left; lia].
Qed.
Lemma has_put_be16 o v a i : has (put_be16 o v a) i <-> o <= i < o + 2 \/ has a i.
Proof. unfold put_be16. rewrite !has_aset. destruct (decide (has a i)); [tauto|]. split; [intros [?|[?|?]]|intros [?|?]]; try tauto; lia. Qed.
Lemma has_put_be32 o v a i : has (put_be32 o v a) i <-> o <= i < o + 4 \/ has a i.
Proof. unfold put_be32. rewrite !has_aset. destruct (decide (has a i)); [tauto|]. split; [intros [?|[?|[?|[?|?]]]]|intros [?|?]]; try tauto; lia. Qed.

(** Which bytes a chain of writes has set. *)
Ltac has_simpl := repeat first [rewrite has_put_bytes | rewrite has_put_be16 | rewrite has_put_be32 | rewrite has_aset | rewrite has_empty].
Ltac has_simpl_in H := repeat first [rewrite has_put_bytes in H | rewrite has_put_be16 in H | rewrite has_put_be32 in H | rewrite has_aset in H | rewrite has_empty in H].

(** [b] holds on [lo, hi) what [a] holds. *)
Definition agree (lo hi : Z) (a b : arr) : Prop := forall i, lo <= i < hi -> b.[i] = a.[i].
Create HintDb wire discriminated.
Lemma agree_refl lo hi a : agree lo hi a a.
Proof. done. Qed.
Lemma agree_trans lo hi a b c : agree lo hi a b -> agree lo hi b c -> agree lo hi a c.
Proof. intros H1 H2 i Hi. rewrite H2, H1; done. Qed.
Lemma agree_sub lo hi lo' hi' a b : lo' <= lo -> hi <= hi' -> agree lo' hi' a b -> agree lo hi a b.
Proof. intros ? ? H i Hi. apply H. lia. Qed.
Lemma agree_aset lo hi a b o v : o < lo \/ hi <= o -> agree lo hi a b -> agree lo hi a (aset o v b).
Proof. intros Ho H i Hi. rewrite aget_aset_ne by lia. by apply H. Qed.
Lemma agree_put_bytes lo hi a b o l : o + Z.of_nat (length l) <= lo \/ hi <= o -> agree lo hi a b -> agree lo hi a (put_bytes o l b).
Proof. intros Ho H i Hi. rewrite put_bytes_out by lia. by apply H. Qed.
Lemma agree_put_be16 lo hi a b o v : o + 2 <= lo \/ hi <= o -> agree lo hi a b -> agree lo hi a (put_be16 o v b).
Proof. intros Ho H. unfold put_be16. apply agree_aset; [lia|]. by apply agree_aset; [lia|]. Qed.
Lemma agree_put_be32 lo hi a b o v : o + 4 <= lo \/ hi <= o -> agree lo hi a b -> agree lo hi a (put_be32 o v b).
Proof. intros Ho H. unfold put_be32. do 3 (apply agree_aset; [lia|]). by apply agree_aset; [lia|]. Qed.
Lemma agree_slice lo hi a b o n : agree lo hi a b -> lo <= o -> o + Z.of_nat n <= hi -> slice b o n = slice a o n.
Proof. intros H ? ?. apply slice_ext. intros i Hi. apply H. lia. Qed.

(** Peels the writes outside a range. *)
Ltac agree_auto :=
  repeat first [apply agree_refl | apply agree_aset; [lia|] | apply agree_put_be16; [lia|] | apply agree_put_be32; [lia|]
    | apply agree_put_bytes; [cbn [length gw_mac gw_ip dns_ip guest_ip netmask dhcp_magic]; lia|]].

Lemma arr_rng_put_be16 o v a : arr_rng 8 a -> arr_rng 8 (put_be16 o v a).
Proof. intros. unfold put_be16. apply arr_rng_aset, u8_rng. by apply arr_rng_aset, u8_rng. Qed.
Lemma arr_rng_put_be32 o v a : arr_rng 8 a -> arr_rng 8 (put_be32 o v a).
Proof. intros. unfold put_be32. do 3 apply arr_rng_aset, u8_rng. by apply arr_rng_aset, u8_rng. Qed.
#[export] Hint Resolve arr_rng_put_be16 arr_rng_put_be32 arr_rng_put_bytes arr_rng_aset : wire.
#[export] Hint Extern 1 (arr_rng _ ∅) => apply arr_rng_empty; lia : wire.

Lemma bytes_gw_mac : bytes gw_mac.
Proof. repeat constructor; lia. Qed.
Lemma bytes_gw_ip : bytes gw_ip.
Proof. repeat constructor; lia. Qed.
Lemma bytes_guest_ip : bytes guest_ip.
Proof. repeat constructor; lia. Qed.
Lemma bytes_dns_ip : bytes dns_ip.
Proof. repeat constructor; lia. Qed.
#[export] Hint Resolve bytes_gw_mac bytes_gw_ip bytes_guest_ip bytes_dns_ip : wire.
Ltac wire_bytes := solve [eauto 60 with wire rng nocore].

Lemma get_put_be16 o v a : rng 16 v -> (put_be16 o v a).[o] * 256 + (put_be16 o v a).[o + 1] = v.
Proof.
  intros Hv. unfold put_be16. rewrite aget_aset_eq, aget_aset_ne, aget_aset_eq by lia.
  unfold u8. rewrite !wrap_mod, Z.shiftr_div_pow2 by lia. unfold rng in Hv. change (2 ^ 8) with 256. change (2 ^ 16) with 65536 in Hv.
  Z.div_mod_to_equations. lia.
Qed.
Lemma bytes_slice a o n : arr_rng 8 a -> bytes (slice a o n).
Proof. intros Ha. unfold slice. apply Forall_map, Forall_forall. intros i _. apply Ha. Qed.

(** A checksum stored in a zeroed, word-aligned field makes the sum of the block valid. *)
Lemma csum_field extra o n k out : arr_rng 8 out -> Nat.even k = true -> (k + 2 <= n)%nat ->
  out.[o + Z.of_nat k] = 0 -> out.[o + Z.of_nat k + 1] = 0 -> 0 <= extra -> extra + 0xffff * Z.of_nat n < 2 ^ 32 ->
  let c := u16 (Z.lnot (fold_carry 3 (sum16 (slice out o n) extra))) in
  checksum_ok extra (slice (put_be16 (o + Z.of_nat k) c out) o n).
Proof.
  intros Ha Hk Hn Z1 Z2 H0 Hb c. remember (o + Z.of_nat k) as p eqn:Ep.
  pose proof (words_sum_bound (slice out o n) (bytes_slice _ _ _ Ha)) as Hw. rewrite length_slice in Hw.
  destruct (csum_complement (sum16 (slice out o n) extra)) as (Hc & Hp & Hm).
  { rewrite sum16_words; [unfold rng; lia|by apply bytes_slice|done|by rewrite length_slice]. }
  fold c in Hc, Hp, Hm. rewrite sum16_words in Hp, Hm by (by apply bytes_slice || (by rewrite length_slice) || done).
  assert (forall a, slice a o n = slice a o k ++ slice a p 2 ++ slice a (p + 2) (n - k - 2)) as Hs.
  { intros a. replace n with (k + (2 + (n - k - 2)))%nat at 1 by lia. rewrite !slice_split. by rewrite <- Ep. }
  assert (words_sum (slice (put_be16 p c out) o n) = words_sum (slice out o n) + c) as E.
  { rewrite !Hs, !words_sum_app by (by rewrite ?length_slice).
    rewrite (agree_slice o p out) by (lia || agree_auto). rewrite (agree_slice (p + 2) (o + Z.of_nat n) out (put_be16 p c out) (p + 2) (n - k - 2)) by (lia || agree_auto).
    unfold slice at 2 5. cbn [zseq map words_sum]. rewrite Z1, Z2. pose proof (get_put_be16 p c out Hc). lia. }
  unfold checksum_ok. rewrite E. split; [lia|]. by rewrite Z.add_assoc.
Qed.

(** Reading a buffer through the writes made to it. *)
Lemma aget_at o v a i : i = o -> (aset o v a).[i] = v.
Proof. intros ->. apply aget_aset_eq. Qed.
Lemma slice_aset_out a o v lo n : o < lo \/ lo + Z.of_nat n <= o -> slice (aset o v a) lo n = slice a lo n.
Proof. intros. apply slice_ext. intros i Hi. apply aget_aset_ne. lia. Qed.
Lemma slice_bytes_out a o l lo n : o + Z.of_nat (length l) <= lo \/ lo + Z.of_nat n <= o -> slice (put_bytes o l a) lo n = slice a lo n.
Proof. intros. apply slice_ext. intros i Hi. apply put_bytes_out. lia. Qed.
Lemma slice_bytes_at a o l lo n : lo = o -> length l = n -> slice (put_bytes o l a) lo n = l.
Proof. intros -> <-. apply slice_put_bytes. Qed.
Ltac wire_len := cbn [length gw_mac gw_ip dns_ip guest_ip netmask dhcp_magic]; lia.
Ltac read_wire := repeat first
  [ rewrite aget_at by lia | rewrite aget_aset_ne by lia | rewrite put_bytes_out by wire_len
  | rewrite slice_bytes_at by wire_len | rewrite slice_aset_out by wire_len | rewrite slice_bytes_out by wire_len ].

(** ** The headers of a reply *)

(** What the first 34 bytes of an IPv4 reply hold. *)
Record ip_reply (mac : list Z) (iptot proto : Z) (src dst : list Z) (out : arr) : Prop := {
  ir_dst : slice out 0 6 = mac;
  ir_src : slice out 6 6 = gw_mac;
  ir_type : out.[12] * 256 + out.[13] = ETYPE_IP;
  ir_version : out.[14] = 0x45;
  ir_total : out.[16] * 256 + out.[17] = iptot;
  ir_proto : out.[23] = proto;
  ir_addrs : slice out 26 8 = src ++ dst;
  ir_sum : checksum_ok 0 (slice out 14 20)
}.

Lemma ip_reply_agree mac iptot proto src dst a b : agree 0 34 a b -> ip_reply mac iptot proto src dst a -> ip_reply mac iptot proto src dst b.
Proof.
  intros H []. assert (forall i, 0 <= i < 34 -> b.[i] = a.[i]) as Hg by exact H.
  constructor; rewrite ?(agree_slice 0 34 a b) by (done || lia); rewrite ?Hg by lia; done.
Qed.

Lemma ip_header_reply mac iptot id frag proto src dst out : arr_rng 8 out ->
  length mac = 6%nat -> bytes mac -> rng 16 iptot -> rng 8 proto -> length src = 4%nat -> bytes src -> length dst = 4%nat -> bytes dst ->
  ip_reply mac iptot proto src dst (ip_header iptot id frag proto src dst (eth_header mac ETYPE_IP out)).
Proof.
  intros Ha Hm Bm Ht Hp Hs Bs Hd Bd.
  assert (u16 iptot = iptot /\ u8 proto = proto) as [Et Ep] by (split; by apply wrap_small).
  unfold ip_header, eth_header, put_be16, ETH_HDR, ETH_DST, ETH_SRC, ETH_TYPE. rewrite Et, Ep. set (c := inet_csum _).
  constructor.
  - read_wire. done.
  - read_wire. done.
  - read_wire. done.
  - read_wire. done.
  - read_wire. rewrite <- (get_put_be16 16 iptot ∅ Ht) at 3. unfold put_be16. by read_wire.
  - by read_wire.
  - rewrite (slice_split _ 26 4 4). change (26 + Z.of_nat 4) with 30. by read_wire.
  - unfold c, inet_csum. clear c. match goal with |- context [sum16 (slice ?a _ _) _] => set (b := a) end.
    apply (csum_field 0 14 20 10 b).
    + unfold b. wire_bytes.
    + done.
    + lia.
    + unfold b. by read_wire.
    + unfold b. by read_wire.
    + done.
    + done.
Qed.

(** ** What a receiver checks *)

Definition part (f : list Z) (o n : nat) : list Z := take n (drop o f).
Definition u16_at (f : list Z) (o : nat) : Z := nth o f 0 * 256 + nth (S o) f 0.

(** An IPv4 packet in an Ethernet frame: no options, the total length is the frame's, the
    header sum is right, and so is the checksum of an ICMP message or a TCP segment (with its
    pseudo-header) or the length of a UDP datagram, which carries no checksum. *)
Record ipv4_ok (f : list Z) : Prop := {
  ip_version_ok : nth 14 f 0 = 0x45;
  ip_total_ok : u16_at f 16 = Z.of_nat (length f) - 14;
  ip_sum_ok : checksum_ok 0 (part f 14 20);
  ip_icmp_ok : nth 23 f 0 = 1 -> checksum_ok 0 (part f 34 (length f - 34));
  ip_tcp_ok : nth 23 f 0 = 6 ->
    checksum_ok (words_sum (part f 26 8) + 6 + (Z.of_nat (length f) - 34)) (part f 34 (length f - 34));
  ip_udp_ok : nth 23 f 0 = 17 -> u16_at f 38 = Z.of_nat (length f) - 34 /\ u16_at f 40 = 0
}.
Record wire_ok (f : list Z) : Prop := {
  wire_bytes_ok : bytes f;
  wire_length : (42 <= length f <= 1600)%nat;
  wire_sender : part f 6 6 = gw_mac;
  wire_type : (u16_at f 12 = ETYPE_ARP /\ length f = 42%nat) \/ (u16_at f 12 = ETYPE_IP /\ ipv4_ok f)
}.

Lemma part_slice a n o m : (o + m <= n)%nat -> part (slice a 0 n) o m = slice a (Z.of_nat o) m.
Proof.
  intros H. unfold part. replace n with (o + (m + (n - o - m)))%nat by lia. rewrite !slice_split.
  rewrite drop_app_length' by (by rewrite length_slice). by rewrite take_app_length' by (by rewrite length_slice).
Qed.
Lemma u16_slice a n o : (S o < n)%nat -> u16_at (slice a 0 n) o = a.[Z.of_nat o] * 256 + a.[Z.of_nat o + 1].
Proof. intros H. unfold u16_at. rewrite !nth_slice by lia. by rewrite Nat2Z.inj_succ. Qed.

Lemma ip_frame_ok mac iptot proto src dst out : arr_rng 8 out -> ip_reply mac iptot proto src dst out -> 28 <= iptot <= 1586 ->
  (proto = 1 -> checksum_ok 0 (slice out 34 (Z.to_nat (iptot - 20)))) ->
  (proto = 6 -> checksum_ok (words_sum (src ++ dst) + 6 + (iptot - 20)) (slice out 34 (Z.to_nat (iptot - 20)))) ->
  (proto = 17 -> out.[38] * 256 + out.[39] = iptot - 20 /\ out.[40] = 0 /\ out.[41] = 0) ->
  wire_ok (slice out 0 (Z.to_nat (ETH_HDR + iptot))).
Proof.
  intros Ha [] Ht Hi Htcp Hu. unfold ETH_HDR in *. set (n := Z.to_nat (14 + iptot)). assert (42 <= n <= 1600)%nat as Hn by lia.
  assert (n - 34 = Z.to_nat (iptot - 20))%nat as En by lia.
  constructor.
  - by apply bytes_slice.
  - by rewrite length_slice.
  - by rewrite part_slice by lia.
  - right. rewrite u16_slice by lia. split; [done|]. constructor; rewrite ?length_slice, ?nth_slice, ?u16_slice, ?part_slice, ?En by lia.
    + done.
    + change (Z.of_nat 16 + 1) with 17. change (Z.of_nat 16) with 16. lia.
    + done.
    + intros E. apply Hi. by rewrite <- ir_proto0.
    + intros E. replace (Z.of_nat n - 34) with (iptot - 20) by lia. change (Z.of_nat 26) with 26. rewrite ir_addrs0. apply Htcp. by rewrite <- ir_proto0.
    + intros E. destruct Hu as (Hl & H1 & H2); [by rewrite <- ir_proto0|].
      change (Z.of_nat 38 + 1) with 39. change (Z.of_nat 38) with 38. change (Z.of_nat 40 + 1) with 41. change (Z.of_nat 40) with 40. lia.
Qed.

(** The headers fill the first 34 bytes. *)
Lemma has_ip_header mac iptot id frag proto src dst base i : length mac = 6%nat -> length src = 4%nat -> length dst = 4%nat ->
  has (ip_header iptot id frag proto src dst (eth_header mac ETYPE_IP base)) i <-> 0 <= i < 34 \/ has base i.
Proof.
  intros Hm Hs Hd. unfold ip_header, eth_header, ETH_HDR, ETH_DST, ETH_SRC, ETH_TYPE. has_simpl. rewrite Hm, Hs, Hd. cbn [length gw_mac].
  destruct (decide (has base i)) as [Hb|Hb]; [tauto|]. assert (has base i <-> False) as -> by tauto. lia.
Qed.
Lemma arr_rng_ip_header mac iptot id frag proto src dst base : arr_rng 8 base -> bytes mac -> bytes src -> bytes dst ->
  arr_rng 8 (ip_header iptot id frag proto src dst (eth_header mac ETYPE_IP base)).
Proof. intros. unfold ip_header, eth_header. wire_bytes. Qed.
#[export] Hint Resolve arr_rng_ip_header : wire.
