(* ===== verification/NetstackInv.v ===== *)
(** * The network stack is memory safe and speaks well-formed frames

    The invariant of the stack and its preservation by every frame from the guest and every
    event from the host. *)

From S2P Require Import Prelude Device DeviceInv DeviceThms Netstack NetWire.

(** ** The invariant *)

Definition ip_ok (l : list Z) : Prop := length l = 4%nat /\ bytes l.

Record flow_ok (f : NatFlow) : Prop := {
  fo_face : ip_ok (nf_face_ip f);
  fo_real : ip_ok (nf_real_ip f);
  fo_guest_port : rng 16 (nf_guest_port f);
  fo_face_port : rng 16 (nf_face_port f);
  fo_state : TS_FREE <= nf_state f <= TS_ESTAB;
  fo_snd_nxt : rng 32 (nf_snd_nxt f);
  fo_snd_una : rng 32 (nf_snd_una f);
  fo_rcv_nxt : rng 32 (nf_rcv_nxt f);
  fo_wnd : rng 16 (nf_guest_wnd f);
  fo_g2h : bytes (default [] (nf_g2h f)) /\ g2h_len f <= NS_TCP_BUF;
  fo_h2g : bytes (default [] (nf_h2g f)) /\ h2g_len f <= NS_TCP_BUF
}.

(** What identifies a live flow. *)
Definition flow_key (f : NatFlow) : option (Z * Z * list Z * Z) :=
  if nf_state f =? TS_FREE then None else Some (nf_proto f, nf_guest_port f, nf_face_ip f, nf_face_port f).

Record ns_ok (ns : NetStack) : Prop := {
  no_safe : ns_oob ns = false;
  no_mac : length (ns_guest_mac ns) = 6%nat /\ bytes (ns_guest_mac ns);
  no_dns : ip_ok (ns_upstream_dns ns);
  no_id : rng 16 (ns_ip_id ns);
  no_isn : rng 32 (ns_tcp_isn ns);
  no_flows : forall i, flow_ok (flow i ns);
  no_unique : forall i j, 0 <= i < NS_NAT_MAX -> 0 <= j < NS_NAT_MAX -> flow_key (flow i ns) <> None ->
    flow_key (flow i ns) = flow_key (flow j ns) -> i = j;
  no_frames : forall fr, NetOut fr ∈ ns_trace ns -> wire_ok fr
}.

(** A backend never claims to have sent more than it was given. *)
Definition io_ok (io : NetIo) : Prop := forall tr i data, io_send io tr i data <= Z.of_nat (length data).

Lemma NatFlow0_ok : flow_ok NatFlow0.
Proof. constructor; try (by apply rng_const); try (split; [done|by apply bytes_forallb]); by vm_compute. Qed.
Lemma netstack_new_ok : ns_ok netstack_new.
Proof.
  assert (forall i, flow i netstack_new = NatFlow0) as E by (intros i; unfold flow; cbn; by rewrite lookup_empty).
  constructor; try (by apply rng_const); try (split; [done|by apply bytes_forallb]); try done.
  - intros i. rewrite E. apply NatFlow0_ok.
  - intros fr Hf. by apply not_elem_of_nil in Hf.
Qed.

(** ** Elementary steps *)

Ltac kb P := apply (keeps_bind _ _ _ P).

Lemma flow_upd i j g ns : flow j (upd_flow i g ns) = if decide (i = j) then g (flow i ns) else flow j ns.
Proof.
  unfold flow at 1. unfold upd_flow. cbn [set_ns_flows ns_flows].
  destruct (decide (i = j)) as [->|]; [by rewrite lookup_insert_eq|by rewrite lookup_insert_ne].
Qed.

(** Updates of one flow that keep it well formed and do not give it another identity. *)
Definition flow_step (g : NatFlow -> NatFlow) : Prop :=
  forall f, flow_ok f -> flow_ok (g f) /\ (flow_key (g f) = flow_key f \/ flow_key (g f) = None).
Lemma upd_flow_ok i g ns : ns_ok ns -> flow_ok (g (flow i ns)) ->
  (forall j, 0 <= i < NS_NAT_MAX -> 0 <= j < NS_NAT_MAX -> i <> j -> flow_key (g (flow i ns)) <> None -> flow_key (g (flow i ns)) <> flow_key (flow j ns)) ->
  ns_ok (upd_flow i g ns).
Proof.
  intros [] Hg Hk. constructor; try done.
  - intros j. rewrite flow_upd. by destruct (decide (i = j)).
  - intros j k Hj Hk'. rewrite !flow_upd. destruct (decide (i = j)) as [Ej|Ej], (decide (i = k)) as [Ek|Ek]; [congruence| | |by apply no_unique0].
    + subst j. intros Hn E. exfalso. exact (Hk k Hj Hk' Ek Hn E).
    + subst k. intros Hn E. exfalso. rewrite E in Hn. exact (Hk j Hk' Hj Ej Hn (eq_sym E)).
Qed.
Lemma keep_upd_flow i g : flow_step g -> keeps ns_ok (modify (upd_flow i g)) (fun _ => True).
Proof.
  intros Hg ns Hn. split; [done|]. rewrite exec_modify. destruct (Hg (flow i ns)) as [Hok Hk]; [apply Hn|].
  apply upd_flow_ok; [done..|]. intros j Hi Hj Hne Hs E. destruct Hk as [Hk|Hk]; [|done].
  apply Hne. rewrite Hk in Hs, E. by apply (no_unique _ Hn).
Qed.
Lemma keep_event e : (forall fr, e <> NetOut fr) -> keeps ns_ok (modify (ns_event e)) (fun _ => True).
Proof.
  intros He ns []. split; [done|]. constructor; try done. intros fr [E|Hf]%elem_of_cons; [by destruct (He fr)|by apply no_frames0].
Qed.
Lemma keep_flow i : keeps ns_ok (gets (flow i)) flow_ok.
Proof. apply keeps_gets. intros ns Hn. apply Hn. Qed.
Lemma keep_mac : keeps ns_ok (gets ns_guest_mac) (fun m => length m = 6%nat /\ bytes m).
Proof. apply keeps_gets. intros ns Hn. apply Hn. Qed.
Lemma keep_next_ip_id : keeps ns_ok next_ip_id (rng 16).
Proof.
  kb (rng 16); [apply keeps_gets; intros ns Hn; apply Hn|]. intros id Hid. kb (fun _ : unit => True).
  { apply keeps_modify; [done|]. intros ns []. constructor; try done. apply u16_rng. }
  intros _ _. by apply keeps_ret.
Qed.

(** A reply whose bytes were all written, inside the buffer, and which a receiver accepts. *)
Record sendable (cap : Z) (out : arr) (len : Z) : Prop := {
  se_len : len <= cap;
  se_has : forall i, 0 <= i < len -> has out i;
  se_in : forall i, has out i -> 0 <= i < cap;
  se_wire : wire_ok (slice out 0 (Z.to_nat len))
}.
Lemma out_eq cap out len ns : sendable cap out len -> ns_out cap out len ns = (tt, ns_event (NetOut (slice out 0 (Z.to_nat len))) ns).
Proof.
  intros [Hl Hc Hw Hf]. unfold ns_out. rewrite (proj2 (Z.leb_le _ _)) by done.
  assert (forallb (fun i => bool_decide (is_Some (out !! i))) (zseq 0 (Z.to_nat len)) = true) as ->.
  { apply forallb_forall. intros i Hi. apply bool_decide_eq_true. apply Hc. apply list_elem_of_In, elem_of_zseq in Hi. lia. }
  by rewrite bool_decide_eq_true_2 by (intros i x Hx; apply Hw; by exists x).
Qed.
Lemma keep_out cap out len : sendable cap out len -> keeps ns_ok (ns_out cap out len) (fun _ => True).
Proof.
  intros Hs ns []. split; [done|]. unfold exec. rewrite out_eq by done.
  constructor; try done. intros fr [[= ->]|Hi]%elem_of_cons; [apply Hs|by apply no_frames0].
Qed.

(** Sending an IPv4 packet: the headers below byte 34, the payload after them. *)
Lemma ip_sendable cap mac iptot id frag proto src dst base out :
  let hdr := ip_header iptot id frag proto src dst (eth_header mac ETYPE_IP base) in
  length mac = 6%nat -> bytes mac -> ip_ok src -> ip_ok dst -> arr_rng 8 base -> rng 8 proto -> 28 <= iptot <= 1586 ->
  ETH_HDR + iptot <= cap -> arr_rng 8 out -> agree 0 34 hdr out ->
  (forall i, 0 <= i < ETH_HDR + iptot -> has out i) -> (forall i, has out i -> 0 <= i < cap) ->
  (proto = 1 -> checksum_ok 0 (slice out 34 (Z.to_nat (iptot - 20)))) ->
  (proto = 6 -> checksum_ok (words_sum (src ++ dst) + 6 + (iptot - 20)) (slice out 34 (Z.to_nat (iptot - 20)))) ->
  (proto = 17 -> out.[38] * 256 + out.[39] = iptot - 20 /\ out.[40] = 0 /\ out.[41] = 0) ->
  sendable cap out (ETH_HDR + iptot).
Proof.
  intros hdr Hm Bm [Hs Bs] [Hd Bd] Hb Hp Ht Hc Ho Hg Hhas Hin Hi Htcp Hu. constructor; [done..|].
  apply (ip_frame_ok mac iptot proto src dst); [done| |done..]. apply (ip_reply_agree _ _ _ _ _ hdr out Hg).
  apply ip_header_reply; try done. unfold rng. lia.
Qed.

(** ** Reading the frame *)

Section Frame.
Context (fr : list Z) (Hfr : bytes fr).
#[local] Abbreviation len := (Z.of_nat (length fr)).

Lemma keep_rd i : 0 <= i < len -> keeps ns_ok (rd fr i) (rng 8).
Proof.
intros Hi. unfold rd. rewrite (proj2 (Z.leb_le _ _)), (proj2 (Z.ltb_lt _ _)) by lia. apply keeps_ret.
apply (proj1 (list.Forall_forall _ _) Hfr). apply list_elem_of_In, nth_In. lia.
Qed.
Lemma keep_rd_bytes i n : 0 <= i -> 0 <= n -> i + n <= len -> keeps ns_ok (rd_bytes fr i n) (fun l => length l = Z.to_nat n /\ bytes l).
Proof.
intros Hi Hn Hl. unfold rd_bytes. rewrite !(proj2 (Z.leb_le _ _)) by lia. apply keeps_ret. split.
- rewrite length_take, length_drop. lia.
- by apply Forall_take, Forall_drop.
Qed.
Lemma keep_be16 o : 0 <= o -> o + 2 <= len -> keeps ns_ok (be16 fr o) (rng 16).
Proof. intros. do 2 (kb (rng 8); [apply keep_rd; lia|intros ? _]). apply keeps_ret, u16_rng. Qed.
Lemma keep_be32 o : 0 <= o -> o + 4 <= len -> keeps ns_ok (be32 fr o) (rng 32).
Proof. intros. do 4 (kb (rng 8); [apply keep_rd; lia|intros ? ?]). apply keeps_ret. rng_auto. Qed.

(** ** The virtual gateway *)

Ltac rd1 := kb (rng 8); [apply keep_rd; lia|intros ? ?].
Ltac rd2 := kb (rng 16); [apply keep_be16; lia|intros ? ?].
Ltac rdn := eapply keeps_bind; [apply keep_rd_bytes; lia|cbv beta; intros ? [? ?]].
Ltac skip := destruct (_ || _); [by apply keeps_ret|].
Ltac skip1 := destruct (negb _); [by apply keeps_ret|].

Lemma keep_handle_arp : keeps ns_ok (handle_arp fr) (fun _ => True).
Proof.
unfold handle_arp, ETH_HDR. destruct (Z.ltb_spec len (14 + 28)); [by apply keeps_ret|].
rd2. rd2. skip. rd1. rd1. skip. rd2. skip1. rdn. skip1. rdn. rdn. rename a4 into tpa, a5 into sha, a6 into spa.
cbv zeta. apply keep_out. constructor.
- lia.
- intros i Hi. unfold eth_header, ETH_DST, ETH_SRC, ETH_TYPE. has_simpl. wire_len.
- intros i Hi. unfold eth_header, ETH_DST, ETH_SRC, ETH_TYPE in Hi. has_simpl_in Hi. revert Hi. wire_len.
- constructor.
  + apply bytes_slice. unfold eth_header. wire_bytes.
  + rewrite length_slice. lia.
  + rewrite part_slice by lia. unfold eth_header, put_be16, ETH_DST, ETH_SRC, ETH_TYPE. read_wire. done.
  + left. rewrite length_slice, u16_slice by lia. split; [|lia]. unfold eth_header, put_be16, ETH_DST, ETH_SRC, ETH_TYPE.
    change (Z.of_nat 12 + 1) with 13. change (Z.of_nat 12) with 12. read_wire. done.
Qed.

Lemma keep_handle_icmp ihl iptotal : 20 <= ihl -> 14 + iptotal <= len -> keeps ns_ok (handle_icmp fr ETH_HDR ihl iptotal) (fun _ => True).
Proof.
intros Hi Ht. unfold handle_icmp, ETH_SRC, ETH_HDR. destruct (Z.ltb_spec iptotal (ihl + 8)); [by apply keeps_ret|]. cbv zeta.
rd1. rd1. skip. rdn. skip1. destruct (Z.ltb_spec (NS_MTU - 14 - 20) (iptotal - ihl)) as [|Hlen]; [by apply keeps_ret|].
change (NS_MTU - 14 - 20) with 1566 in Hlen. rdn. kb (rng 16); [apply keep_next_ip_id|intros id Hid]. rdn. rdn.
rename a2 into mac, a3 into src, a4 into body. set (n := iptotal - ihl) in *.
apply keep_out. eapply (ip_sendable _ mac (20 + n) id 0 PROTO_ICMP gw_ip src ∅).
- done.
- done.
- split; [done|apply bytes_gw_ip].
- done.
- apply arr_rng_empty. lia.
- by apply rng_const.
- lia.
- change NS_MTU with 1600. unfold ETH_HDR. lia.
- wire_bytes.
- unfold ETH_HDR. agree_auto.
- intros i Hx. unfold ETH_HDR in *. has_simpl. rewrite has_ip_header by done. has_simpl. lia.
- intros i Hx. unfold ETH_HDR in *. has_simpl_in Hx. rewrite has_ip_header in Hx by done. has_simpl_in Hx. change NS_MTU with 1600. lia.
- intros _. replace (20 + n - 20) with n by lia. apply (csum_field 0 34 (Z.to_nat n) 2).
  + wire_bytes.
  + done.
  + lia.
  + unfold put_be16, ETH_HDR. by read_wire.
  + unfold put_be16, ETH_HDR. by read_wire.
  + done.
  + lia.
- done.
- done.
Qed.

Lemma keep_dhcp_scan fuel : forall opt l i, 0 <= opt -> 0 <= i -> opt + l <= len -> keeps ns_ok (dhcp_scan fuel fr opt l i) (rng 8).
Proof.
induction fuel as [|fuel IH]; intros opt l i Ho Hi Hl; cbn [dhcp_scan]; [by apply keeps_ret, rng_const|].
destruct (Z.leb_spec l i); [by apply keeps_ret, rng_const|]. rd1. cbv zeta.
destruct (_ =? 0); [by apply IH; lia|]. destruct (_ =? 255); [by apply keeps_ret, rng_const|].
destruct (Z.leb_spec l (i + 1)); [by apply keeps_ret, rng_const|]. rd1.
assert (0 <= a0) by (unfold rng in *; lia).
destruct (Z.ltb_spec l (i + 1 + 1 + a0)); [by apply keeps_ret, rng_const|].
destruct (_ && _) eqn:E; [|by apply IH; lia]. apply andb_true_iff in E as [_ E%Z.leb_le]. apply keep_rd. lia.
Qed.

(** The fuel of the scan is enough: with more of it the result is the same. *)
Lemma dhcp_scan_more fuel more : forall opt l i ns, 0 <= opt -> 0 <= i -> opt + l <= len -> l - i < Z.of_nat fuel -> (fuel <= more)%nat ->
dhcp_scan more fr opt l i ns = dhcp_scan fuel fr opt l i ns.
Proof.
revert more. induction fuel as [|fuel IH]; intros more opt l i ns Ho Hi Hl Hf Hm.
- destruct more; [done|]. cbn [dhcp_scan]. by rewrite (proj2 (Z.leb_le l i)) by lia.
- destruct more as [|more]; [lia|]. cbn [dhcp_scan]. destruct (Z.leb_spec l i); [done|]. rewrite !bind_run. cbv zeta.
  destruct (_ =? 0); [apply IH; lia|]. destruct (_ =? 255); [done|]. destruct (Z.leb_spec l (i + 1)); [done|]. rewrite !bind_run.
  assert (0 <= run (rd fr (opt + (i + 1))) (exec (rd fr (opt + i)) ns)) as Hp.
  { unfold rd, run. rewrite !(proj2 (Z.leb_le 0 _)), !(proj2 (Z.ltb_lt _ len)) by lia. cbn [andb fst].
    apply (proj1 (list.Forall_forall _ _) Hfr). apply list_elem_of_In, nth_In. lia. }
  destruct (_ <? _); [done|]. destruct (_ && _); [done|]. apply IH; lia.
Qed.
Lemma dhcp_scan_enough opt l more ns : 0 <= opt -> 0 <= l -> opt + l <= len -> (S (Z.to_nat l) <= more)%nat ->
dhcp_scan more fr opt l 0 ns = dhcp_msgtype fr opt l ns.
Proof. intros. apply dhcp_scan_more; lia. Qed.

Lemma dhcp_base : let base := put_bytes 0 (repeat 0 (Z.to_nat NS_MTU)) ∅ in
arr_rng 8 base /\ forall i, has base i <-> 0 <= i < 1600.
Proof.
split.
- apply arr_rng_put_bytes; [|apply arr_rng_empty; lia]. apply list.Forall_forall. intros x Hx.
  apply list_elem_of_In, repeat_spec in Hx as ->. by apply rng_const.
- intros i. rewrite has_put_bytes, has_empty, repeat_length, Z2Nat.id by done. change NS_MTU with 1600. lia.
Qed.
Lemma bytes_ff n : bytes (repeat 0xff n).
Proof. apply list.Forall_forall. intros x Hx. apply list_elem_of_In, repeat_spec in Hx as ->. by apply rng_const. Qed.
Lemma dhcp_options_bytes t : rng 8 t -> bytes (dhcp_options t) /\ length (dhcp_options t) = 34%nat.
Proof. intros Ht. split; [|done]. do 2 (constructor; [by apply rng_const|]). constructor; [done|]. by apply bytes_forallb. Qed.

Lemma keep_handle_dhcp udpoff total : 0 <= udpoff -> udpoff + total <= len -> keeps ns_ok (handle_dhcp fr udpoff total) (fun _ => True).
Proof.
intros Hu Ht. unfold handle_dhcp. destruct (Z.ltb_spec total (8 + 240)); [by apply keeps_ret|]. cbv zeta.
rdn. skip1. kb (rng 8); [apply keep_dhcp_scan; lia|intros t Hty]. destruct (negb _ && _); [by apply keeps_ret|].
kb (rng 16); [apply keep_next_ip_id|intros id Hid]. rdn. rdn. rdn. rename a0 into xid, a1 into flags, a2 into chaddr.
destruct dhcp_base as [Hbr Hbh]. cbv zeta in Hbr, Hbh. set (base := put_bytes 0 (repeat _ _) ∅) in *. clearbody base.
set (rt := if t =? 1 then 2 else 5). destruct (dhcp_options_bytes rt) as [Ho Hol]; [unfold rt; destruct (t =? 1); by apply rng_const|].
apply keep_out. eapply (ip_sendable _ (repeat 0xff 6) 328 id 0 PROTO_UDP gw_ip (repeat 0xff 4) base).
- done.
- apply bytes_ff.
- split; [done|apply bytes_gw_ip].
- split; [done|apply bytes_ff].
- done.
- by apply rng_const.
- lia.
- by vm_compute.
- pose proof (bytes_ff 6). pose proof (bytes_ff 4). assert (bytes dhcp_magic) by (by apply bytes_forallb). wire_bytes.
- unfold ETH_HDR. agree_auto.
- intros i Hx. unfold ETH_HDR in *. has_simpl. rewrite has_ip_header, Hbh by done. has_simpl. lia.
- intros i Hx. unfold ETH_HDR in *. has_simpl_in Hx. rewrite has_ip_header, Hbh in Hx by done. change NS_MTU with 1600.
  revert Hx. rewrite Hol. wire_len.
- done.
- done.
- intros _. unfold put_be16, ETH_HDR. change (u16 (8 + 300)) with 308. read_wire. done.
Qed.
End Frame.

(** ** Segments to the guest *)

(** Sending leaves the flow table alone. *)
Lemma out_flows cap out len ns : ns_flows (exec (ns_out cap out len) ns) = ns_flows ns.
Proof. unfold ns_out. by destruct (_ && _ && _). Qed.
Lemma tcp_out_flows i flags payload ns : ns_flows (exec (tcp_out i flags payload) ns) = ns_flows ns.
Proof. unfold tcp_out, next_ip_id. st_simpl. by rewrite out_flows. Qed.
Lemma tcp_synack_flows i ns : ns_flows (exec (tcp_synack i) ns) = ns_flows ns.
Proof. unfold tcp_synack, next_ip_id. st_simpl. by rewrite out_flows. Qed.

Lemma words_sum_4 l : ip_ok l -> words_sum l = (u32 (nth 0 l 0 << 8) .| nth 1 l 0) + (u32 (nth 2 l 0 << 8) .| nth 3 l 0)
  /\ 0 <= u32 (nth 0 l 0 << 8) .| nth 1 l 0 <= 0xffff /\ 0 <= u32 (nth 2 l 0 << 8) .| nth 3 l 0 <= 0xffff.
Proof.
  intros [Hl Hb]. destruct l as [|a [|b [|c [|d [|]]]]]; try done. repeat (apply Forall_cons_1 in Hb as [? Hb]).
  cbn [nth words_sum]. rewrite !be_word by done. unfold rng in *. lia.
Qed.
Lemma l4_csum_sum src dst l4 : ip_ok src -> ip_ok dst -> bytes l4 -> (length l4 <= 1600)%nat ->
  let extra := words_sum (src ++ dst) + 6 + Z.of_nat (length l4) in
  l4_csum src dst PROTO_TCP l4 = u16 (Z.lnot (fold_carry 3 (sum16 l4 extra))) /\ 0 <= extra <= 0x40000 + 1606.
Proof.
  intros Hs Hd Hb Hl. destruct (words_sum_4 src Hs) as (Es & ? & ?), (words_sum_4 dst Hd) as (Ed & ? & ?). cbv zeta.
  rewrite words_sum_app, Es, Ed by (by destruct Hs as [-> _]). unfold l4_csum, PROTO_TCP. cbv zeta.
  set (s0 := u32 (nth 0 src 0 << 8) .| nth 1 src 0) in *. set (s1 := u32 (nth 2 src 0 << 8) .| nth 3 src 0) in *.
  set (d0 := u32 (nth 0 dst 0 << 8) .| nth 1 dst 0) in *. set (d1 := u32 (nth 2 dst 0 << 8) .| nth 3 dst 0) in *.
  clearbody s0 s1 d0 d1. assert (forall x, 0 <= x < 2 ^ 32 -> u32 x = x) as W by (intros; by apply wrap_small).
  rewrite (W s0), (W (s0 + s1)), (W (s0 + s1 + d0)), (W (s0 + s1 + d0 + d1)), (W (s0 + s1 + d0 + d1 + 6)), (W (Z.of_nat (length l4))) by lia.
  rewrite (W (_ + Z.of_nat (length l4))) by lia. split; [|lia]. do 4 f_equal. lia.
Qed.

(** The reply buffer of a segment. *)
Definition tcp_buffer (f : NatFlow) (mac : list Z) (id flags : Z) (payload : list Z) : arr :=
  let plen := Z.of_nat (length payload) in
  let t := ETH_HDR + 20 in
  let out := ∅ |> eth_header mac ETYPE_IP |> ip_header (20 + 20 + plen) id 0x4000 PROTO_TCP (nf_face_ip f) guest_ip
    |> tcp_header f t |> aset (t + 12) (5 << 4) |> aset (t + 13) flags
    |> put_be16 (t + 14) (u16 (NS_TCP_BUF - g2h_len f)) |> put_be16 (t + 16) 0 |> put_be16 (t + 18) 0
    |> put_bytes (t + 20) payload in
  put_be16 (t + 16) (l4_csum (nf_face_ip f) guest_ip PROTO_TCP (slice out t (Z.to_nat (20 + plen)))) out.
Lemma tcp_sendable f mac id flags payload : flow_ok f -> length mac = 6%nat -> bytes mac -> rng 8 flags -> bytes payload ->
  Z.of_nat (length payload) <= NS_TCP_MSS ->
  sendable (ETH_HDR + 20 + 20 + NS_TCP_MSS) (tcp_buffer f mac id flags payload) (ETH_HDR + (20 + 20 + Z.of_nat (length payload))).
Proof.
  intros Hfl Hm Bm Hf Hb Hl. change NS_TCP_MSS with 1460 in Hl. set (n := Z.of_nat (length payload)) in *.
  pose proof (fo_face _ Hfl) as Hface. pose proof Hface as [Hfl4 Bfl4]. assert (ip_ok guest_ip) as Hg by (split; [done|apply bytes_guest_ip]).
  pose proof bytes_guest_ip.
  unfold tcp_buffer. cbv zeta. change (Z.of_nat (length payload)) with n.
  match goal with |- context [put_be16 _ (l4_csum _ _ _ (slice ?o _ _)) ?o] => set (out := o) end.
  assert (arr_rng 8 out) as Ho by (unfold out, tcp_header; wire_bytes).
  destruct (l4_csum_sum (nf_face_ip f) guest_ip (slice out (ETH_HDR + 20) (Z.to_nat (20 + n)))) as [Ec He];
    [done|done|by apply bytes_slice|rewrite length_slice; lia|]. rewrite length_slice, Z2Nat.id in Ec, He by lia. rewrite Ec.
  eapply (ip_sendable _ mac (20 + 20 + n) id 0x4000 PROTO_TCP (nf_face_ip f) guest_ip ∅).
  - done.
  - done.
  - done.
  - done.
  - apply arr_rng_empty. lia.
  - by apply rng_const.
  - lia.
  - change NS_TCP_MSS with 1460. unfold ETH_HDR. lia.
  - wire_bytes.
  - unfold out, tcp_header, ETH_HDR. agree_auto.
  - intros j Hx. unfold out, tcp_header, ETH_HDR in *. has_simpl. rewrite has_ip_header by done. has_simpl. lia.
  - intros j Hx. unfold out, tcp_header, ETH_HDR in *. has_simpl_in Hx. rewrite has_ip_header in Hx by done. has_simpl_in Hx.
    change NS_TCP_MSS with 1460. lia.
  - done.
  - intros _. replace (20 + 20 + n - 20) with (20 + n) by lia. apply (csum_field _ 34 _ 16).
    + done.
    + done.
    + lia.
    + unfold out, tcp_header, put_be16, put_be32, ETH_HDR. by read_wire.
    + unfold out, tcp_header, put_be16, put_be32, ETH_HDR. by read_wire.
    + lia.
    + lia.
  - done.
Qed.
(** What sending a segment does. *)
Lemma tcp_out_eq i flags payload ns : ns_ok ns -> rng 8 flags -> bytes payload -> Z.of_nat (length payload) <= NS_TCP_MSS ->
  tcp_out i flags payload ns = (tt, ns_event (NetOut (slice (tcp_buffer (flow i ns) (ns_guest_mac ns) (ns_ip_id ns) flags payload) 0
    (54 + length payload))) (set_ns_ip_id (u16 (ns_ip_id ns + 1)) ns)).
Proof.
  intros Hn Hf Hb Hl. unfold tcp_out, next_ip_id. rewrite !bind_gets, bind_assoc, bind_gets, bind_assoc, bind_modify. cbv zeta.
  rewrite bind_ret. destruct (no_mac _ Hn) as [Hm Bm].
  pose proof (tcp_sendable (flow i ns) (ns_guest_mac ns) (ns_ip_id ns) flags payload (no_flows _ Hn i) Hm Bm Hf Hb Hl) as Hs.
  unfold tcp_buffer in Hs. cbv zeta in Hs. rewrite (out_eq _ _ _ _ Hs). unfold tcp_buffer. cbv zeta. do 3 f_equal.
  f_equal. unfold ETH_HDR. lia.
Qed.
Lemma keep_tcp_out i flags payload : rng 8 flags -> bytes payload -> Z.of_nat (length payload) <= NS_TCP_MSS ->
  keeps ns_ok (tcp_out i flags payload) (fun _ => True).
Proof.
  intros Hf Hb Hl. unfold tcp_out. kb flow_ok; [apply keep_flow|intros f Hfl]. kb (fun m => length m = 6%nat /\ bytes m); [apply keep_mac|intros mac [Hm Bm]].
  kb (rng 16); [apply keep_next_ip_id|intros id Hid]. cbv zeta. apply keep_out. exact (tcp_sendable f mac id flags payload Hfl Hm Bm Hf Hb Hl).
Qed.
Lemma keep_tcp_bare i flags : rng 8 flags -> keeps ns_ok (tcp_out i flags []) (fun _ => True).
Proof. intros. by apply keep_tcp_out; [|apply Forall_nil|]. Qed.

Lemma keep_tcp_synack i : keeps ns_ok (tcp_synack i) (fun _ => True).
Proof.
  unfold tcp_synack. kb flow_ok; [apply keep_flow|intros f Hfl]. kb (fun m => length m = 6%nat /\ bytes m); [apply keep_mac|intros mac [Hm Bm]].
  kb (rng 16); [apply keep_next_ip_id|intros id Hid]. cbv zeta.
  pose proof (fo_face _ Hfl) as Hface. pose proof Hface as [Hfl4 Bfl4]. assert (ip_ok guest_ip) as Hg by (split; [done|apply bytes_guest_ip]).
  pose proof bytes_guest_ip.
  match goal with |- context [put_be16 _ (l4_csum _ _ _ (slice ?o _ _)) ?o] => set (out := o) end.
  assert (arr_rng 8 out) as Ho by (unfold out, tcp_header; wire_bytes).
  destruct (l4_csum_sum (nf_face_ip f) guest_ip (slice out (ETH_HDR + 20) 24)) as [Ec He];
    [done|done|by apply bytes_slice|rewrite length_slice; lia|]. rewrite length_slice in Ec, He. rewrite Ec.
  apply keep_out. eapply (ip_sendable _ mac 44 id 0x4000 PROTO_TCP (nf_face_ip f) guest_ip ∅).
  - done.
  - done.
  - done.
  - done.
  - apply arr_rng_empty. lia.
  - by apply rng_const.
  - lia.
  - done.
  - wire_bytes.
  - unfold out, tcp_header, ETH_HDR. agree_auto.
  - intros j Hx. unfold out, tcp_header, ETH_HDR in *. has_simpl. rewrite has_ip_header by done. has_simpl. lia.
  - intros j Hx. unfold out, tcp_header, ETH_HDR in *. has_simpl_in Hx. rewrite has_ip_header in Hx by done. has_simpl_in Hx. lia.
  - done.
  - intros _. apply (csum_field _ 34 24 16).
    + done.
    + done.
    + lia.
    + unfold out, tcp_header, put_be16, put_be32, ETH_HDR. by read_wire.
    + unfold out, tcp_header, put_be16, put_be32, ETH_HDR. by read_wire.
    + lia.
    + lia.
  - done.
Qed.

Lemma keep_udp_to_guest i data : bytes data -> keeps ns_ok (udp_to_guest i data) (fun _ => True).
Proof.
  intros Hb. unfold udp_to_guest. kb flow_ok; [apply keep_flow|intros f Hfl]. kb (fun m => length m = 6%nat /\ bytes m); [apply keep_mac|intros mac [Hm Bm]].
  cbv zeta. change (NS_MTU - ETH_HDR - 20 - 8) with 1558. set (d := if _ : bool then take _ _ else data).
  assert (bytes d /\ Z.of_nat (length d) <= 1558) as [Bd Hd].
  { unfold d. destruct (Z.ltb_spec 1558 (Z.of_nat (length data))); [|done]. rewrite length_take. split; [by apply Forall_take|lia]. }
  clearbody d. kb (rng 16); [apply keep_next_ip_id|intros id Hid]. set (n := Z.of_nat (length d)) in *.
  pose proof (fo_face _ Hfl) as Hface. pose proof Hface as [Hfl4 Bfl4]. pose proof bytes_guest_ip.
  apply keep_out. eapply (ip_sendable _ mac (20 + (8 + n)) id 0 PROTO_UDP (nf_face_ip f) guest_ip ∅).
  - done.
  - done.
  - done.
  - by split.
  - apply arr_rng_empty. lia.
  - by apply rng_const.
  - lia.
  - change NS_MTU with 1600. unfold ETH_HDR. lia.
  - wire_bytes.
  - unfold ETH_HDR. agree_auto.
  - intros j Hx. unfold ETH_HDR in *. has_simpl. rewrite has_ip_header by done. has_simpl. lia.
  - intros j Hx. unfold ETH_HDR in *. has_simpl_in Hx. rewrite has_ip_header in Hx by done. has_simpl_in Hx. change NS_MTU with 1600. lia.
  - done.
  - done.
  - intros _. assert (u16 (8 + n) = 8 + n) as -> by (apply wrap_small; unfold rng; lia).
    pose proof (get_put_be16 38 (8 + n) ∅ ltac:(unfold rng; lia)) as E. unfold put_be16 in *. unfold ETH_HDR. revert E. read_wire. intros E.
    split; [lia|done].
Qed.

(** ** The flow table *)

Lemma keep_flow_free i : keeps ns_ok (flow_free i) (fun _ => True).
Proof.
  unfold flow_free. kb ns_ok; [by apply keeps_gets|intros ns Hn]. destruct (_ =? TS_FREE); [by apply keeps_ret|].
  kb (fun _ : unit => True); [apply keeps_when; [done|by apply keep_event]|intros _ _].
  apply keep_upd_flow. intros f _. split; [apply NatFlow0_ok|by right].
Qed.

Section Host.
Context (io : NetIo) (Hio : io_ok io).

Lemma keep_call_io m (P : Z -> Prop) : P 0 -> keeps ns_ok m P -> keeps ns_ok (call_io m) P.
Proof.
intros H0 Hm. unfold call_io. kb (fun _ : bool => True); [by apply keeps_gets|intros att _]. destruct (negb att); [|done].
kb (fun _ : unit => True); [|intros _ _; by apply keeps_ret]. apply keeps_modify; [done|]. by intros ns []; constructor.
Qed.
Lemma keep_do_open i proto ip port : keeps ns_ok (do_open io i proto ip port) (fun _ => True).
Proof.
apply keep_call_io; [done|]. kb (fun _ : Z => True); [by apply keeps_gets|intros r _].
kb (fun _ : unit => True); [by apply keep_event|intros _ _]. by apply keeps_ret.
Qed.
Lemma keep_do_send i data : keeps ns_ok (do_send io i data) (fun r => r <= Z.of_nat (length data)).
Proof.
apply keep_call_io; [lia|]. kb (fun r => r <= Z.of_nat (length data)); [apply keeps_gets; intros; apply Hio|intros r Hr].
kb (fun _ : unit => True); [by apply keep_event|intros _ _]. by apply keeps_ret.
Qed.
Lemma keep_do_shutdown i : keeps ns_ok (do_shutdown i) (fun _ => True).
Proof. apply keep_call_io; [done|]. kb (fun _ : unit => True); [by apply keep_event|intros _ _]. by apply keeps_ret. Qed.

(** Updates that leave the identity of a flow alone. *)
Ltac flow_same := let g := fresh in let Hg := fresh in intros g Hg; split; [destruct Hg; constructor; try done|by left].

Lemma keep_flush_loop fuel i : keeps ns_ok (flush_loop fuel i) (fun _ => True).
Proof.
induction fuel as [|fuel IH]; cbn [flush_loop]; [by apply keeps_ret|].
kb flow_ok; [apply keep_flow|intros f Hfl]. destruct (nf_h2g f) as [buf|] eqn:Eb; [|by apply keeps_ret].
destruct (h2g_len f =? 0); [by apply keeps_ret|]. cbv zeta. destruct (_ <=? _); [by apply keeps_ret|].
set (c0 := if _ <? h2g_len f then _ else _). set (c := if NS_TCP_MSS <? c0 then _ else _).
destruct (fo_h2g _ Hfl) as [Hbb Hbl]. unfold h2g_len in Hbl. rewrite Eb in Hbb, Hbl. cbn in Hbb, Hbl.
kb (fun _ : unit => True).
{ apply keep_tcp_out; [by apply rng_const|by apply Forall_take|]. rewrite length_take. unfold c. change NS_TCP_MSS with 1460.
  destruct (Z.ltb_spec 1460 c0); lia. }
intros _ _. kb (fun _ : unit => True); [apply keep_upd_flow; flow_same; apply u32_rng|intros _ _].
kb (fun _ : unit => True); [apply keep_upd_flow; flow_same|intros _ _; exact IH].
unfold h2g_len. cbn. split; [by apply Forall_drop|]. rewrite length_drop. lia.
Qed.
Lemma keep_tcp_flush i : keeps ns_ok (tcp_flush_h2g i) (fun _ => True).
Proof.
unfold tcp_flush_h2g. kb flow_ok; [apply keep_flow|intros f _]. destruct (negb _); [by apply keeps_ret|].
kb (fun _ : unit => True); [apply keep_flush_loop|intros _ _]. kb flow_ok; [apply keep_flow|intros f' _]. apply keeps_when; [done|].
kb (fun _ : unit => True); [by apply keep_tcp_bare, rng_const|intros _ _]. apply keep_upd_flow. flow_same. apply u32_rng.
Qed.

Lemma keep_tcp_drain i : keeps ns_ok (tcp_drain_g2h io i) (fun _ => True).
Proof.
unfold tcp_drain_g2h. kb flow_ok; [apply keep_flow|intros f Hfl]. kb (fun _ : bool => True).
- destruct (nf_g2h f) as [buf|] eqn:Eb; [|by apply keeps_ret]. destruct (g2h_len f =? 0); [by apply keeps_ret|].
  kb (fun r => r <= Z.of_nat (length buf)); [apply keep_do_send|intros n Hn]. destruct (n <? 0).
  + kb (fun _ : unit => True); [by apply keep_tcp_bare, rng_const|intros _ _].
    kb (fun _ : unit => True); [apply keep_flow_free|intros _ _]. by apply keeps_ret.
  + destruct (fo_g2h _ Hfl) as [Hbb Hbl]. unfold g2h_len in *. rewrite Eb in *. change (default [] (Some buf)) with buf in *. rewrite (proj2 (Z.ltb_ge (Z.of_nat (length buf)) n)) by lia.
    kb (fun _ : unit => True); [by apply keeps_ret|intros _ _].
    kb (fun _ : unit => True); [|intros _ _; by apply keeps_ret]. apply keeps_when; [done|]. apply keep_upd_flow. flow_same.
    unfold g2h_len. cbn. split; [by apply Forall_drop|]. rewrite length_drop. lia.
- intros alive _. destruct (negb alive); [by apply keeps_ret|]. kb flow_ok; [apply keep_flow|intros f' _].
  kb (fun _ : unit => True); [|intros _ _; by apply keeps_ret]. apply keeps_when; [done|].
  kb (fun _ : Z => True); [apply keep_do_shutdown|intros _ _]. apply keep_upd_flow. flow_same.
Qed.
Lemma keep_maybe_close i : keeps ns_ok (tcp_maybe_close i) (fun _ => True).
Proof. unfold tcp_maybe_close. kb flow_ok; [apply keep_flow|intros f _]. apply keeps_when; [done|apply keep_flow_free]. Qed.

(** A fresh flow gets an identity no live flow has. *)
Lemma flow_find_none proto gport rip rport ns i : flow_find proto gport rip rport ns = None -> 0 <= i < NS_NAT_MAX ->
flow_key (flow i ns) <> Some (proto, gport, rip, rport).
Proof.
intros Hf Hi Hk. unfold flow_find in Hf. pose proof (find_none _ _ Hf i) as Hx. cbv beta zeta in Hx. unfold flow_key in Hk.
destruct (nf_state (flow i ns) =? TS_FREE); [done|]. injection Hk as <- <- <- <-.
rewrite !Z.eqb_refl in Hx. unfold same_bytes in Hx. rewrite bool_decide_true in Hx by done. cbn in Hx.
discriminate Hx. apply list_elem_of_In, elem_of_zseq. unfold NS_NAT_MAX in *. lia.
Qed.
Lemma new_flow_ok proto gport rip rport up : ip_ok rip -> ip_ok up -> rng 16 gport -> rng 16 rport ->
flow_ok (new_flow proto gport rip rport up) /\ flow_key (new_flow proto gport rip rport up) = Some (proto, gport, rip, rport).
Proof.
intros. split.
- destruct NatFlow0_ok. constructor; try done; cbn.
  + by destruct (same_bytes rip dns_ip).
  + by destruct (proto =? NS_PROTO_TCP).
- unfold flow_key. cbn. by destruct (proto =? NS_PROTO_TCP).
Qed.
Lemma flow_alloc_ok proto gport rip rport ns : ns_ok ns -> ip_ok rip -> rng 16 gport -> rng 16 rport ->
flow_find proto gport rip rport ns = None -> ns_ok (exec (flow_alloc proto gport rip rport) ns).
Proof.
intros Hn Hr Hg Hp Hf. unfold flow_alloc. rewrite exec_bind, run_gets, exec_gets. cbn [id]. destruct (negb _); [done|].
destruct (find _ _) as [i|]; [|done]. rewrite exec_bind, exec_modify, exec_ret.
destruct (new_flow_ok proto gport rip rport (ns_upstream_dns ns)) as [Hok Hk]; [done|apply Hn|done..|].
apply upd_flow_ok; [done..|]. intros j _ Hj _ _ E. rewrite Hk in E. by apply (flow_find_none _ _ _ _ _ _ Hf Hj).
Qed.

Lemma connect_ok sport dport seq wnd dst ns : ns_ok ns -> ip_ok dst -> rng 16 sport -> rng 16 dport -> rng 16 wnd ->
flow_find NS_PROTO_TCP sport dst dport ns = None -> ns_ok (exec (tcp_connect io sport dport seq wnd dst) ns).
Proof.
intros Hn Hd Hs Hp Hw Hf. unfold tcp_connect. rewrite exec_bind.
pose proof (flow_alloc_ok NS_PROTO_TCP sport dst dport ns Hn Hd Hs Hp Hf) as Hn'. revert Hn'.
generalize (exec (flow_alloc NS_PROTO_TCP sport dst dport) ns) as s. generalize (run (flow_alloc NS_PROTO_TCP sport dst dport) ns) as r.
intros r s Hn'. apply (keeps_pres _ _ (fun _ => True)); [|done]. destruct r as [i|]; [|by apply keeps_ret].
kb (fun _ : unit => True).
{ apply keeps_modify; [done|]. intros s' []. constructor; try done. apply u32_rng. }
intros _ _. kb (rng 32); [apply keeps_gets; intros s' Hs'; apply Hs'|intros isn Hisn].
kb (fun _ : unit => True); [apply keep_upd_flow; flow_same|intros _ _].
{ apply u32_rng. }
{ cbn. by destruct (wnd =? 0); [apply rng_const|]. }
kb flow_ok; [apply keep_flow|intros f _]. kb (fun _ : Z => True); [apply keep_do_open|intros r _]. apply keeps_when; [done|].
kb (fun _ : unit => True); [by apply keep_tcp_bare, rng_const|intros _ _; apply keep_flow_free].
Qed.

Lemma acked_step flags ack wnd : rng 32 ack -> rng 16 wnd -> flow_step (tcp_acked flags ack wnd).
Proof.
intros Ha Hw f Hf. unfold tcp_acked. cbv zeta. set (f1 := set_nf_guest_wnd _ f).
assert (flow_ok f1 /\ flow_key f1 = flow_key f) as [H1 K1].
{ split; [|done]. destruct Hf. constructor; try done. cbn. by destruct (wnd =? 0); [apply rng_const|]. }
clearbody f1. set (f2 := if _ && (_ <=? _) then _ else f1). assert (flow_ok f2 /\ flow_key f2 = flow_key f1) as [H2 K2].
{ unfold f2. destruct (_ && _); [|done]. split; [|done]. destruct H1. by constructor. }
clearbody f2. rewrite <- K1, <- K2. destruct (_ && _ && _) eqn:E; [|by split; [|left]].
apply andb_true_iff in E as [[E _]%andb_true_iff _]. apply Z.eqb_eq in E. split.
- destruct H2. by constructor.
- left. unfold flow_key. cbn. by rewrite E.
Qed.

(** Bytes that fit are appended to the buffer. *)
Lemma append_g2h_ok i l b ns nxt : ns_ok ns -> default [] (nf_g2h (flow i ns)) = b -> bytes l -> g2h_len (flow i ns) + Z.of_nat (length l) <= NS_TCP_BUF ->
rng 32 nxt -> ns_ok (upd_flow i (fun f => f |> set_nf_g2h (Some (b ++ l)) |> set_nf_rcv_nxt nxt) ns).
Proof.
intros Hn Eb Hl Hs Hx. pose proof (no_flows _ Hn i) as Hf. apply upd_flow_ok; [done| |].
- destruct Hf. constructor; try done. cbn. destruct fo_g2h0 as [Hb _]. unfold g2h_len in *. rewrite Eb in Hb, Hs. cbn.
  split; [by apply Forall_app|]. rewrite length_app. lia.
- intros j Hi Hj Hij Hk E. apply Hij. by apply (no_unique _ Hn).
Qed.
Lemma keep_tcp_data i seq payload : bytes payload -> keeps ns_ok (tcp_data io i seq payload) (fun _ => True).
Proof.
intros Hb. unfold tcp_data. apply keeps_look. intros ns Hn. cbv zeta. split; [done|]. destruct (_ && _ && _ && _).
- rewrite exec_bind. match goal with |- context [exec (when ?c ?m) ns] => assert (ns_ok (exec (when c m) ns)) as Hn' end.
  { set (room := u32 _). set (k := if _ : bool then _ else room).
    assert (k <= Z.of_nat (length payload) /\ g2h_len (flow i ns) + k <= NS_TCP_BUF) as [Hk1 Hk2].
    { assert (0 <= g2h_len (flow i ns) <= NS_TCP_BUF) as Hg by (split; [unfold g2h_len; lia|apply (no_flows _ Hn i)]).
      assert (room = NS_TCP_BUF - g2h_len (flow i ns)) as Er by (apply wrap_small; unfold rng, NS_TCP_BUF in *; lia).
      unfold k. destruct (Z.ltb_spec (Z.of_nat (length payload)) room); lia. }
    clearbody k. destruct (Z.ltb_spec 0 k); [|done]. cbn [when]. rewrite exec_bind, run_gets, exec_gets.
    destruct (match nf_g2h (flow i ns) with Some _ => _ | None => _ end) as [b|] eqn:Eb; [|done]. rewrite exec_modify.
    apply (append_g2h_ok i (take (Z.to_nat k) payload) b ns (u32 (nf_rcv_nxt (flow i ns) + k))).
    - done.
    - destruct (nf_g2h (flow i ns)); [by injection Eb as ->|]. by destruct (io_malloc io _); [injection Eb as <-|].
    - by apply Forall_take.
    - rewrite length_take. lia.
    - apply u32_rng. }
  apply (keeps_pres ns_ok _ (fun _ => True)); [|exact Hn'].
  kb (fun _ : bool => True); [apply keep_tcp_drain|intros alive _].
  kb (fun _ : unit => True); [apply keeps_when; [done|by apply keep_tcp_bare, rng_const]|intros _ _]. by apply keeps_ret.
- apply (keeps_pres ns_ok _ (fun _ => True)); [|exact Hn].
  kb (fun _ : unit => True); [apply keeps_when; [done|by apply keep_tcp_bare, rng_const]|intros _ _]. by apply keeps_ret.
Qed.

Lemma keep_tcp_fin i flags seq plen : keeps ns_ok (tcp_fin io i flags seq plen) (fun _ => True).
Proof.
unfold tcp_fin. kb flow_ok; [apply keep_flow|intros f _]. destruct (_ && _ && _); [|by apply keeps_ret].
kb (fun _ : unit => True); [apply keep_upd_flow; flow_same; apply u32_rng|intros _ _].
kb (fun _ : unit => True); [by apply keep_tcp_bare, rng_const|intros _ _].
kb (fun _ : unit => True); [apply keep_upd_flow; flow_same|intros _ _]. apply keep_tcp_drain.
Qed.

Lemma keep_tcp_segment sport dport seq ack flags wnd dst payload : rng 16 sport -> rng 16 dport -> rng 32 ack -> rng 16 wnd ->
ip_ok dst -> bytes payload -> keeps ns_ok (tcp_segment io sport dport seq ack flags wnd dst payload) (fun _ => True).
Proof.
intros. apply keeps_look. intros ns Hn. split; [done|]. destruct (flow_find _ _ _ _ _) as [i|] eqn:Ef.
- apply (keeps_pres ns_ok _ (fun _ => True)); [|exact Hn]. destruct (negb _); [apply keep_flow_free|].
  kb (fun _ : unit => True); [by apply keep_upd_flow, acked_step|intros _ _].
  kb (fun _ : bool => True); [by apply keep_tcp_data|intros alive _]. destruct (negb alive); [by apply keeps_ret|].
  kb (fun _ : bool => True); [apply keep_tcp_fin|intros alive' _]. destruct (negb alive'); [by apply keeps_ret|].
  kb (fun _ : unit => True); [apply keep_tcp_flush|intros _ _]. apply keep_maybe_close.
- destruct (negb _); [|done]. by apply connect_ok.
Qed.

(** ** Dispatch *)

Section Input.
Context (fr : list Z) (Hfr : bytes fr).
#[local] Abbreviation len := (Z.of_nat (length fr)).
Ltac rd1 := kb (rng 8); [apply keep_rd; [done|lia]|intros ? ?].
Ltac rd2 := kb (rng 16); [apply keep_be16; [done|lia|lia]|intros ? ?].
Ltac rd4 := kb (rng 32); [apply keep_be32; [done|lia|lia]|intros ? ?].
Ltac rdn := eapply keeps_bind; [apply keep_rd_bytes; [done|lia|lia|lia]|cbv beta; intros ? [? ?]].

Lemma keep_handle_tcp ihl iptotal : 20 <= ihl -> 14 + iptotal <= len -> keeps ns_ok (handle_tcp io fr ETH_HDR ihl iptotal) (fun _ => True).
Proof.
intros Hi Ht. unfold handle_tcp, ETH_HDR. kb (fun _ : bool => True); [by apply keeps_gets|intros att _].
destruct (negb att || (iptotal <? ihl + 20)) eqn:E; [by apply keeps_ret|]. apply orb_false_iff in E as [_ E%Z.ltb_ge]. cbv zeta.
rd2. rd2. rd4. rd4. rd1. rd1. rd2. rename a into sport, a0 into dport, a1 into seq, a2 into ack, a3 into off, a4 into flags, a5 into wnd.
set (doff := (off >> 4) * 4). destruct ((doff <? 20) || (iptotal <? ihl + doff)) eqn:E'; [by apply keeps_ret|].
apply orb_false_iff in E' as [E1%Z.ltb_ge E2%Z.ltb_ge]. rdn. rdn. rename a into dst, a0 into payload.
by apply keep_tcp_segment.
Qed.

Lemma keep_udp_nat ihl iptotal : 20 <= ihl -> 14 + iptotal <= len -> keeps ns_ok (udp_nat io fr ETH_HDR ihl iptotal) (fun _ => True).
Proof.
intros Hi Ht. unfold udp_nat, ETH_HDR. kb (fun _ : bool => True); [by apply keeps_gets|intros att _].
destruct (negb att || (iptotal <? ihl + 8)) eqn:E; [by apply keeps_ret|]. apply orb_false_iff in E as [_ E%Z.ltb_ge]. cbv zeta.
rd2. rd2. rd2. rename a into sport, a0 into dport, a1 into ulen0.
set (ulen := if _ : bool then _ else ulen0). assert (8 <= ulen <= iptotal - ihl) as Hu.
{ unfold ulen. destruct (Z.ltb_spec ulen0 8), (Z.ltb_spec (iptotal - ihl) ulen0); cbn [orb]; lia. }
clearbody ulen. rdn. rdn. rename a into dst, a0 into payload. apply keeps_look. intros ns Hn. split; [done|].
destruct (flow_find _ _ _ _ _) as [i|] eqn:Ef.
{ apply (keeps_pres ns_ok _ (fun _ => True)); [|exact Hn]. kb (fun _ : Z => True); [|intros ? _; by apply keeps_ret].
eapply keeps_weaken; [apply keep_do_send|done]. }
rewrite exec_bind. apply (keeps_pres ns_ok _ (fun _ => True)); [|by apply flow_alloc_ok].
destruct (run _ ns) as [i|]; [|by apply keeps_ret]. kb flow_ok; [apply keep_flow|intros f _].
kb (fun _ : Z => True); [apply keep_do_open|intros r _]. destruct (negb _); [apply keep_flow_free|].
kb (fun _ : Z => True); [|intros ? _; by apply keeps_ret]. eapply keeps_weaken; [apply keep_do_send|done].
Qed.

Lemma keep_handle_udp ihl iptotal : 20 <= ihl -> 14 + iptotal <= len -> keeps ns_ok (handle_udp io fr ETH_HDR ihl iptotal) (fun _ => True).
Proof.
intros Hi Ht. unfold handle_udp, ETH_HDR. destruct (Z.ltb_spec iptotal (ihl + 8)); [by apply keeps_ret|].
rd2. rd2. destruct (_ && _); [apply keep_handle_dhcp; [done|lia..]|].
rdn. apply keeps_when; [done|]. by apply keep_udp_nat.
Qed.

Lemma keep_handle_ip : keeps ns_ok (handle_ip io fr) (fun _ => True).
Proof.
unfold handle_ip. destruct (Z.ltb_spec len (ETH_HDR + 20)) as [|Hl]; [by apply keeps_ret|]. change (ETH_HDR + 20) with 34 in Hl.
kb (rng 8); [apply keep_rd; [done|unfold ETH_HDR; lia]|intros v Hv].
destruct (negb _); [by apply keeps_ret|]. set (ihl := (v .& 15) * 4).
destruct ((ihl <? 20) || (len <? ETH_HDR + ihl)) eqn:E; [by apply keeps_ret|]. apply orb_false_iff in E as [E1%Z.ltb_ge E2%Z.ltb_ge].
kb (rng 16); [apply keep_be16; [done|unfold ETH_HDR; lia..]|intros tot Htot]. cbv zeta.
set (iptotal := if _ : bool then _ else tot). assert (14 + iptotal <= len) as Hi.
{ unfold iptotal, ETH_HDR. destruct (Z.ltb_spec (len - 14) tot); lia. }
clearbody iptotal. destruct (iptotal <? ihl); [by apply keeps_ret|].
kb (rng 8); [apply keep_rd; [done|unfold ETH_HDR; lia]|intros proto _].
eapply keeps_bind; [apply keep_rd_bytes; [done|unfold ETH_HDR; lia..]|cbv beta; intros dst _].
destruct (_ =? PROTO_ICMP); [by apply keep_handle_icmp|]. destruct (_ =? PROTO_UDP); [by apply keep_handle_udp|].
apply keeps_when; [done|]. by apply keep_handle_tcp.
Qed.

Lemma keep_input : keeps ns_ok (netstack_input io fr) (fun _ => True).
Proof.
unfold netstack_input. destruct (Z.ltb_spec len ETH_HDR) as [|Hl]; [by apply keeps_ret|]. change ETH_HDR with 14 in Hl.
eapply keeps_bind; [apply keep_rd_bytes; [done|unfold ETH_SRC; lia..]|cbv beta; intros mac [Hm Bm]].
kb (fun _ : unit => True).
{ apply keeps_modify; [done|]. intros ns []. by constructor. }
intros _ _. kb (rng 16); [apply keep_be16; [done|unfold ETH_TYPE; lia..]|intros et _].
destruct (_ =? ETYPE_ARP); [by apply keep_handle_arp|]. apply keeps_when; [done|apply keep_handle_ip].
Qed.
End Input.

(** ** Events from the host *)

Lemma flow_by_id_live i ns f : flow_by_id i ns = Some f -> f = flow i ns /\ 0 <= i < NS_NAT_MAX /\ nf_state f <> TS_FREE.
Proof.
unfold flow_by_id. destruct ((i <? 0) || _ || _) eqn:E; [done|]. intros [= <-].
apply orb_false_iff in E as [[E1%Z.ltb_ge E2%Z.leb_gt]%orb_false_iff E3%Z.eqb_neq]. split; [done|lia].
Qed.
Lemma keep_by_id i : keeps ns_ok (gets (flow_by_id i)) (fun o => match o with Some f => flow_ok f | None => True end).
Proof. apply keeps_gets. intros ns Hn. destruct (flow_by_id i ns) as [f|] eqn:E; [|done]. apply flow_by_id_live in E as [-> _]. apply Hn. Qed.

Lemma keep_host_connected i : keeps ns_ok (netstack_host_connected i) (fun _ => True).
Proof.
unfold netstack_host_connected. apply keeps_look. intros ns Hn. split; [done|]. destruct (flow_by_id i ns) as [f|] eqn:Ef; [|done].
destruct (negb _ || _); [done|]. apply flow_by_id_live in Ef as (-> & _ & Hl). rewrite exec_bind, exec_modify.
pose proof (keeps_pres _ _ _ (keep_tcp_synack i) ns Hn) as Hn'. pose proof (tcp_synack_flows i ns) as Ef. set (ns' := exec (tcp_synack i) ns) in *.
assert (flow i ns' = flow i ns) as Efl by (unfold flow; by rewrite Ef). apply upd_flow_ok; [done| |].
- destruct (no_flows _ Hn' i). constructor; try done. apply u32_rng.
- intros j Hi Hj Hij _ E. apply Hij. apply (no_unique _ Hn'); [done..| |].
  + unfold flow_key. rewrite Efl. by destruct (Z.eqb_spec (nf_state (flow i ns)) TS_FREE).
  + rewrite <- E. unfold flow_key. cbn. rewrite Efl. by destruct (Z.eqb_spec (nf_state (flow i ns)) TS_FREE).
Qed.

Lemma keep_host_recv i data : bytes data -> keeps ns_ok (netstack_host_recv io i data) (fun _ => True).
Proof.
intros Hb. unfold netstack_host_recv. apply keeps_look. intros ns Hn. split; [done|]. destruct (flow_by_id i ns) as [f|] eqn:Ef; [|done].
apply flow_by_id_live in Ef as (-> & _ & Hl). cbv zeta. destruct (_ =? 0); [done|].
destruct (_ =? NS_PROTO_UDP); [by apply (keeps_pres ns_ok _ _ (keep_udp_to_guest i data Hb))|].
set (room := u32 _). set (k := if _ : bool then room else _). destruct (k =? 0); [done|].
assert (0 <= k /\ h2g_len (flow i ns) + k <= NS_TCP_BUF) as [Hk0 Hk].
{ assert (0 <= h2g_len (flow i ns) <= NS_TCP_BUF) as Hg by (split; [unfold h2g_len; lia|apply (no_flows _ Hn i)]).
  assert (room = NS_TCP_BUF - h2g_len (flow i ns)) as Er by (apply wrap_small; unfold rng, NS_TCP_BUF in *; lia).
  unfold k. destruct (Z.ltb_spec room (Z.of_nat (length data))); lia. }
clearbody k. rewrite exec_bind, run_gets, exec_gets. destruct (match nf_h2g (flow i ns) with Some _ => _ | None => _ end) as [b|] eqn:Eb; [|done].
assert (default [] (nf_h2g (flow i ns)) = b) as Ed.
{ destruct (nf_h2g (flow i ns)); [by injection Eb as ->|]. by destruct (io_malloc io _); [injection Eb as <-|]. }
rewrite exec_bind, exec_modify. apply (keeps_pres ns_ok _ _ (keep_tcp_flush i)).
pose proof (no_flows _ Hn i) as Hf. apply upd_flow_ok; [done| |].
- destruct Hf. constructor; try done. destruct fo_h2g0 as [Hbb _]. unfold h2g_len in *. rewrite Ed in Hbb, Hk. cbn.
  split; [apply Forall_app; split; [done|by apply Forall_take]|]. rewrite length_app, length_take. lia.
- intros j Hi Hj Hij Hkk E. apply Hij. by apply (no_unique _ Hn).
Qed.

Lemma keep_host_closed i : keeps ns_ok (netstack_host_closed i) (fun _ => True).
Proof.
unfold netstack_host_closed. eapply keeps_bind; [apply keep_by_id|intros [f|] _; [|by apply keeps_ret]].
destruct (_ =? _); [apply keep_flow_free|]. kb (fun _ : unit => True); [apply keep_upd_flow; flow_same|intros _ _].
kb (fun _ : unit => True); [apply keep_tcp_flush|intros _ _; apply keep_maybe_close].
Qed.
Lemma keep_host_reset i : keeps ns_ok (netstack_host_reset i) (fun _ => True).
Proof.
unfold netstack_host_reset. eapply keeps_bind; [apply keep_by_id|intros [f|] _; [|by apply keeps_ret]].
kb (fun _ : unit => True); [|intros _ _; apply keep_flow_free]. apply keeps_when; [done|]. by apply keep_tcp_bare, rng_const.
Qed.
Lemma keep_host_writable i : keeps ns_ok (netstack_host_writable io i) (fun _ => True).
Proof.
unfold netstack_host_writable. eapply keeps_bind; [apply keep_by_id|intros [f|] _; [|by apply keeps_ret]].
destruct (negb _); [by apply keeps_ret|]. kb (fun _ : bool => True); [apply keep_tcp_drain|intros alive _].
destruct (negb alive); [by apply keeps_ret|]. kb flow_ok; [apply keep_flow|intros f' _].
kb (fun _ : unit => True); [|intros _ _; apply keep_maybe_close]. apply keeps_when; [done|]. by apply keep_tcp_bare, rng_const.
Qed.
Lemma keep_set_io att dns : match dns with Some a => ip_ok a | None => True end -> keeps ns_ok (netstack_set_io att dns) (fun _ => True).
Proof.
intros Hd. kb (fun _ : unit => True); [apply keeps_modify; [done|]; by intros ns []; constructor|intros _ _].
destruct dns; [|by apply keeps_ret]. apply keeps_modify; [done|]. by intros ns []; constructor.
Qed.

(** ** The stacks a host program can reach *)

Inductive stack_event :=
| Frame (fr : list Z)
| Connected (i : Z)
| Received (i : Z) (data : list Z)
| Closed (i : Z)
| Failed (i : Z)
| Writable (i : Z)
| SetIo (attached : bool) (dns : option (list Z)).
Definition handle (e : stack_event) : st NetStack unit :=
match e with
| Frame fr => netstack_input io fr
| Connected i => netstack_host_connected i
| Received i data => netstack_host_recv io i data
| Closed i => netstack_host_closed i
| Failed i => netstack_host_reset i
| Writable i => netstack_host_writable io i
| SetIo att dns => netstack_set_io att dns
end.
(** Frames and datagrams are bytes, a resolver address is four of them. *)
Definition event_ok (e : stack_event) : Prop :=
match e with
| Frame fr => bytes fr
| Received _ data => bytes data
| SetIo _ (Some a) => ip_ok a
| _ => True
end.
Definition after (es : list stack_event) (ns : NetStack) : NetStack := foldl (fun ns e => exec (handle e) ns) ns es.

Lemma handle_ok e : event_ok e -> keeps ns_ok (handle e) (fun _ => True).
Proof.
destruct e; cbn [handle event_ok]; intros He.
- by apply keep_input.
- apply keep_host_connected.
- by apply keep_host_recv.
- apply keep_host_closed.
- apply keep_host_reset.
- apply keep_host_writable.
- apply keep_set_io. by destruct dns.
Qed.
Lemma after_ok es : forall ns, ns_ok ns -> Forall event_ok es -> ns_ok (after es ns).
Proof.
induction es as [|e es IH]; intros ns Hn He; [done|]. apply Forall_cons_1 in He as [He Hes]. cbn. apply IH; [|done].
by apply (handle_ok e He).
Qed.
End Host.
