(* ===== verification/NetStream.v ===== *)
(** * The TCP bridge delivers the guest's byte stream

    Whatever the guest retransmits, reorders or duplicates, the bytes the host has accepted
    and the bytes still buffered are the guest's stream, each byte once and in order. *)

From S2P Require Import Prelude Device DeviceInv DeviceThms Netstack NetWire NetstackInv.

(** ** What the host has received

    The bytes the backend accepted on flow [i] since the flow was last opened; the trace has
    the newest event first. *)
Fixpoint sent_to (i : Z) (tr : list NetEvent) : list Z :=
  match tr with
  | [] => []
  | IoOpen j _ _ _ _ :: tr => if decide (i = j) then [] else sent_to i tr
  | IoSend j data n :: tr => sent_to i tr ++ (if decide (i = j) then take (Z.to_nat n) data else [])
  | _ :: tr => sent_to i tr
  end.

(** The endpoint a segment belongs to, and the guest's byte at each of its sequence numbers. *)
Definition endpoint : Type := Z * list Z * Z.
Definition flow_end (f : NatFlow) : endpoint := (nf_guest_port f, nf_face_ip f, nf_face_port f).

Section Stream.
Context (io : NetIo) (gdata : endpoint -> Z -> Z).

(** The [n] bytes of the stream that start at sequence number [s]. *)
Definition gbytes (e : endpoint) (s : Z) (n : nat) : list Z := map (fun j => gdata e (u32 j)) (zseq s n).

(** Where the stream of each flow starts: its endpoint and its first sequence number. *)
Definition starts : Type := Z -> option (endpoint * Z).

(** Accepted and buffered bytes are the stream from its first sequence number on, and end
  just below the next sequence number expected; a FIN takes one. *)
Definition stream_from (start : starts) (i : Z) (ns : NetStack) : Prop :=
let f := flow i ns in
let l := sent_to i (ns_trace ns) ++ default [] (nf_g2h f) in
nf_state f <> TS_FREE -> nf_proto f = NS_PROTO_TCP ->
exists s, start i = Some (flow_end f, s) /\ l = gbytes (flow_end f) s (length l)
  /\ nf_rcv_nxt f = u32 (s + Z.of_nat (length l) + if nf_guest_fin f then 1 else 0).
Definition streams_from (start : starts) (ns : NetStack) : Prop := forall i, stream_from start i ns.

Lemma gbytes_eqw e n : forall s s', u32 s = u32 s' -> gbytes e s n = gbytes e s' n.
Proof.
unfold gbytes. induction n as [|n IH]; intros s s' E; [done|]. cbn [zseq map]. f_equal; [by rewrite E|]. apply IH. unfold u32 in *.
rewrite <- (wrap_add_l 32 s 1), <- (wrap_add_l 32 s' 1) by lia. by rewrite E.
Qed.
Lemma gbytes_app e s n m : gbytes e s (n + m) = gbytes e s n ++ gbytes e (s + Z.of_nat n) m.
Proof. unfold gbytes. by rewrite zseq_app, map_app. Qed.

Section Keep.
Context (start : starts).
#[local] Abbreviation stream_ok := (stream_from start).
#[local] Abbreviation streams_ok := (streams_from start).

(** ** Steps that do not touch the stream *)

(** Same trace towards the host, same stream fields of every flow. *)
Definition stream_fields (f : NatFlow) : bool * Z * endpoint * Z * bool * option (list Z) :=
(nf_state f =? TS_FREE, nf_proto f, flow_end f, nf_rcv_nxt f, nf_guest_fin f, nf_g2h f).
Record same_stream (ns ns' : NetStack) : Prop := {
ss_sent : forall i, sent_to i (ns_trace ns') = sent_to i (ns_trace ns);
ss_flow : forall i, stream_fields (flow i ns') = stream_fields (flow i ns)
}.
Lemma same_stream_ok ns ns' : same_stream ns ns' -> streams_ok ns -> streams_ok ns'.
Proof.
intros [Hs Hf] H i. specialize (H i). specialize (Hs i). specialize (Hf i). unfold stream_from, stream_fields in *.
injection Hf as E1 E2 E3 E4 E5 E6 E7 E8. cbv zeta in *. unfold flow_end in *. rewrite Hs, E2, E3, E4, E5, E6, E7, E8.
intros Hl Hp. apply H; [|done]. intros E. apply Hl. rewrite E in E1. by apply Z.eqb_eq in E1.
Qed.

Ltac kb P := apply (keeps_bind _ _ _ P).
Lemma keep_same {A} (m : st NetStack A) : (forall ns, same_stream ns (exec m ns)) -> keeps streams_ok m (fun _ => True).
Proof. intros H ns Hn. split; [done|]. by apply (same_stream_ok ns). Qed.
Lemma same_upd i g ns : stream_fields (g (flow i ns)) = stream_fields (flow i ns) -> same_stream ns (upd_flow i g ns).
Proof. intros H. constructor; [done|]. intros j. rewrite flow_upd. by destruct (decide (i = j)) as [->|]. Qed.
Lemma keep_upd_s i g : (forall f, stream_fields (g f) = stream_fields f) -> keeps streams_ok (modify (upd_flow i g)) (fun _ => True).
Proof. intros H. apply keep_same. intros ns. rewrite exec_modify. by apply same_upd. Qed.
Lemma keep_get {A} (f : NetStack -> A) : keeps streams_ok (gets f) (fun _ => True).
Proof. by apply keeps_gets. Qed.

Lemma same_trans ns ns' ns'' : same_stream ns ns' -> same_stream ns' ns'' -> same_stream ns ns''.
Proof. intros [H1 H2] [H3 H4]. constructor; intros i; [by rewrite H3, H1|by rewrite H4, H2]. Qed.

(** Reading the frame. *)
Lemma same_refl ns : same_stream ns ns.
Proof. done. Qed.
Lemma same_rd fr i ns : same_stream ns (exec (rd fr i) ns).
Proof. unfold rd. by destruct (_ && _). Qed.
Lemma same_rd_bytes fr i n ns : same_stream ns (exec (rd_bytes fr i n) ns).
Proof. unfold rd_bytes. by destruct (_ && _). Qed.
Lemma same_be16 fr o ns : same_stream ns (exec (be16 fr o) ns).
Proof. unfold be16. st_simpl. eapply same_trans; apply same_rd. Qed.

(** Output to the guest. *)
Lemma same_out cap out len ns : same_stream ns (exec (ns_out cap out len) ns).
Proof. unfold ns_out. by destruct (_ && _ && _). Qed.
Lemma same_tcp_out i flags payload ns : same_stream ns (exec (tcp_out i flags payload) ns).
Proof. unfold tcp_out, next_ip_id. st_simpl. eapply same_trans; [|apply same_out]. done. Qed.
Lemma same_synack i ns : same_stream ns (exec (tcp_synack i) ns).
Proof. unfold tcp_synack, next_ip_id. st_simpl. eapply same_trans; [|apply same_out]. done. Qed.
Lemma same_udp i data ns : same_stream ns (exec (udp_to_guest i data) ns).
Proof. unfold udp_to_guest, next_ip_id. st_simpl. eapply same_trans; [|apply same_out]. done. Qed.
Lemma keep_out_s i flags payload : keeps streams_ok (tcp_out i flags payload) (fun _ => True).
Proof. apply keep_same, same_tcp_out. Qed.

(** A freed flow has no stream. *)
Lemma streams_but i ns ns' : (forall j, j <> i -> sent_to j (ns_trace ns') = sent_to j (ns_trace ns) /\ flow j ns' = flow j ns) ->
stream_ok i ns' -> streams_ok ns -> streams_ok ns'.
Proof.
intros Ho Hi Hs j. destruct (decide (j = i)) as [->|Hj]; [done|]. destruct (Ho j Hj) as [E1 E2]. specialize (Hs j).
unfold stream_from in *. by rewrite E1, E2.
Qed.
Lemma keep_free_s i : keeps streams_ok (flow_free i) (fun _ => True).
Proof.
intros ns Hn. split; [done|]. unfold flow_free. st_simpl. cbn [id]. destruct (_ =? TS_FREE); [done|]. st_simpl.
apply (streams_but i ns); [| |done].
- intros j Hj. rewrite flow_upd, decide_False by done. by destruct (ns_io ns).
- intros Hl. exfalso. apply Hl. rewrite flow_upd. by rewrite decide_True by done.
Qed.

(** ** Draining: what is sent leaves the buffer *)

Lemma same_send_null i data ns : ns_io ns = false -> run (do_send io i data) ns = 0 /\ same_stream ns (exec (do_send io i data) ns).
Proof. intros H. unfold do_send, call_io. st_simpl. by rewrite H. Qed.
Lemma same_shutdown i ns : same_stream ns (exec (do_shutdown i) ns).
Proof. unfold do_shutdown, call_io. st_simpl. by destruct (negb _). Qed.

(** The first [n] bytes of the buffer go to the host. *)
Lemma sent_s i buf n ns ns1 : streams_ok ns -> nf_g2h (flow i ns) = Some buf ->
ns_trace ns1 = IoSend i buf n :: ns_trace ns -> (forall j, flow j ns1 = flow j ns) ->
streams_ok (upd_flow i (set_nf_g2h (Some (drop (Z.to_nat n) buf))) ns1).
Proof.
intros Hn Eb Et Efl. apply (streams_but i ns); [| |done].
- intros j Hj. cbn [upd_flow set_ns_flows ns_trace]. rewrite Et. cbn [sent_to]. rewrite decide_False, app_nil_r by done.
split; [done|]. by rewrite flow_upd, decide_False, Efl by done.
- specialize (Hn i). unfold stream_from in *. rewrite flow_upd, decide_True by done. cbv zeta. cbn [upd_flow set_ns_flows ns_trace].
rewrite Et, Efl. cbn [sent_to]. rewrite decide_True by done.
change (default [] (nf_g2h (set_nf_g2h (Some (drop (Z.to_nat n) buf)) (flow i ns)))) with (drop (Z.to_nat n) buf).
rewrite <- app_assoc, take_drop. rewrite Eb in Hn. exact Hn.
Qed.
Lemma unsent_s i buf n ns ns1 : n <= 0 -> ns_trace ns1 = IoSend i buf n :: ns_trace ns -> (forall j, flow j ns1 = flow j ns) ->
same_stream ns ns1.
Proof.
intros Hneg Et Ef. constructor; [|intros j; by rewrite Ef]. intros j. rewrite Et. cbn [sent_to].
rewrite Z2Nat.nonpos by lia. cbn [take]. destruct (decide (j = i)); by rewrite app_nil_r.
Qed.

Lemma keep_drain_s i : keeps streams_ok (tcp_drain_g2h io i) (fun _ => True).
Proof.
unfold tcp_drain_g2h. apply keeps_look. intros ns Hn. split; [done|]. rewrite exec_bind.
match goal with |- streams_ok (exec ?k (exec ?m ns)) => assert (streams_ok (exec m ns)) as Hn' end.
{ destruct (nf_g2h (flow i ns)) as [buf|] eqn:Eb; [|done]. destruct (_ =? 0); [done|]. rewrite exec_bind.
destruct (ns_io ns) eqn:Eio.
2: { destruct (same_send_null i buf ns Eio) as [-> Hs]. change (0 <? 0) with false. cbv iota. rewrite exec_bind.
     apply (same_stream_ok ns); [|done]. eapply same_trans; [exact Hs|]. by destruct (_ <? 0). }
unfold do_send, call_io. st_simpl. rewrite Eio. cbn [negb]. st_simpl.
set (n := io_send io (ns_trace ns) i buf). destruct (Z.ltb_spec n 0) as [Hneg|Hpos].
- st_simpl. apply keep_free_s, (same_stream_ok _ _ (same_tcp_out _ _ _ _)). apply (same_stream_ok ns); [|done].
  by apply (unsent_s i buf n); [lia|..].
- st_simpl. set (ns1 := exec (when (g2h_len _ <? n) _) _).
  assert (ns_trace ns1 = IoSend i buf n :: ns_trace ns /\ ns_flows ns1 = ns_flows ns) as [Et Ef].
  { unfold ns1. by destruct (_ <? n). }
  clearbody ns1. assert (forall j, flow j ns1 = flow j ns) as Efl by (intros j; unfold flow; by rewrite Ef).
  destruct (Z.ltb_spec 0 n); cbn [when]; st_simpl.
  + by apply (sent_s i buf n ns).
  + apply (same_stream_ok ns); [|done]. by apply (unsent_s i buf n). }
match goal with |- streams_ok (exec ?k ?s) => apply (keeps_pres streams_ok k (fun _ => True)); [|exact Hn'] end.
destruct (negb _); [by apply keeps_ret|]. kb (fun _ : NatFlow => True); [apply keep_get|intros f _].
kb (fun _ : unit => True); [|intros _ _; by apply keeps_ret]. apply keeps_when; [done|].
kb (fun _ : Z => True); [apply keep_same, same_shutdown|intros _ _; by apply keep_upd_s].
Qed.

(** ** Taking data: only the bytes at the next sequence number *)

Definition speaks (e : endpoint) (seq : Z) (payload : list Z) : Prop := payload = gbytes e seq (length payload).

Lemma gbytes_take e s n k : (k <= n)%nat -> take k (gbytes e s n) = gbytes e s k.
Proof.
intros Hk. replace n with (k + (n - k))%nat by lia. rewrite gbytes_app. apply take_app_length'. unfold gbytes. by rewrite length_map, length_zseq.
Qed.
(** Appending the bytes at the expected sequence number extends the stream. *)
Lemma stream_append e s r l l' : l = gbytes e s (length l) -> r = u32 (s + Z.of_nat (length l) + 0) -> l' = gbytes e r (length l') ->
l ++ l' = gbytes e s (length (l ++ l')) /\ u32 (r + Z.of_nat (length l')) = u32 (s + Z.of_nat (length (l ++ l')) + 0).
Proof.
intros Hl -> Hl'. rewrite !Z.add_0_r in *. rewrite length_app, gbytes_app. split.
- f_equal; [done|]. rewrite Hl' at 1. apply gbytes_eqw. unfold u32. by rewrite wrap_wrap by lia.
- unfold u32. rewrite wrap_add_l by lia. f_equal. lia.
Qed.

Lemma data_s i seq payload ns : streams_ok ns -> speaks (flow_end (flow i ns)) seq payload ->
streams_ok (exec (tcp_data io i seq payload) ns).
Proof.
intros Hn Hsp. unfold tcp_data. rewrite exec_bind, run_gets, exec_gets. cbv zeta. destruct (_ && _ && _ && _) eqn:Ec.
- apply andb_true_iff in Ec as [[[_ _]%andb_true_iff Es%Z.eqb_eq]%andb_true_iff Hfin%negb_true_iff].
rewrite exec_bind. match goal with |- context [exec (when ?c ?m) ns] => assert (streams_ok (exec (when c m) ns)) as Hn' end.
{ set (k := if _ : bool then _ else u32 _). assert (k <= Z.of_nat (length payload)) as Hk.
  { unfold k. destruct (Z.ltb_spec (Z.of_nat (length payload)) (u32 (NS_TCP_BUF - g2h_len (flow i ns)))); lia. }
  clearbody k. destruct (Z.ltb_spec 0 k); [|done]. cbn [when]. rewrite exec_bind, run_gets, exec_gets.
  destruct (match nf_g2h (flow i ns) with Some _ => _ | None => _ end) as [b|] eqn:Eb; [|done]. rewrite exec_modify.
  assert (default [] (nf_g2h (flow i ns)) = b) as Ed.
  { destruct (nf_g2h (flow i ns)); [by injection Eb as ->|]. by destruct (io_malloc io _); [injection Eb as <-|]. }
  apply (streams_but i ns); [| |done].
  - intros j Hj. split; [done|]. by rewrite flow_upd, decide_False by done.
  - specialize (Hn i). unfold stream_from in *. rewrite flow_upd, decide_True by done. cbv zeta in *. intros Hl Hp.
    destruct (Hn Hl Hp) as (s0 & E0 & Hd & Hr). cbn -[take Z.sub u32]. rewrite Ed, Hfin in *. rewrite app_assoc.
    destruct (stream_append (flow_end (flow i ns)) s0 (nf_rcv_nxt (flow i ns)) _ (take (Z.to_nat k) payload) Hd Hr) as [Hl1 Hr1].
    + rewrite length_take, Nat.min_l by lia. rewrite Hsp at 1. rewrite gbytes_take by lia. by rewrite <- Es.
    + exists s0. split_and!; [done|done|]. rewrite <- Hr1, length_take, Nat.min_l, Z2Nat.id by lia. done. }
apply (keeps_pres streams_ok _ (fun _ => True)); [|exact Hn'].
kb (fun _ : bool => True); [apply keep_drain_s|intros alive _].
kb (fun _ : unit => True); [apply keeps_when; [done|apply keep_out_s]|intros _ _]. by apply keeps_ret.
- apply (keeps_pres streams_ok _ (fun _ => True)); [|exact Hn].
kb (fun _ : unit => True); [apply keeps_when; [done|apply keep_out_s]|intros _ _]. by apply keeps_ret.
Qed.

(** ** The other steps of a segment *)

Lemma acked_fields flags ack wnd f : stream_fields (tcp_acked flags ack wnd f) = stream_fields f.
Proof.
unfold tcp_acked. cbv zeta. set (f1 := set_nf_guest_wnd _ f). assert (stream_fields f1 = stream_fields f) as <- by done. clearbody f1.
set (f2 := if _ && (_ <=? _) then _ else f1). assert (stream_fields f2 = stream_fields f1) as <- by (unfold f2; by destruct (_ && _)).
clearbody f2. destruct (_ && _ && _) eqn:E; [|done]. apply andb_true_iff in E as [[E _]%andb_true_iff _]. apply Z.eqb_eq in E.
unfold stream_fields. cbn. by rewrite E.
Qed.
Lemma keep_fin_s i flags seq plen : keeps streams_ok (tcp_fin io i flags seq plen) (fun _ => True).
Proof.
unfold tcp_fin. apply keeps_look. intros ns Hn. split; [done|]. destruct (_ && _ && _) eqn:Ec; [|done].
apply andb_true_iff in Ec as [[_ Hfin%negb_true_iff]%andb_true_iff _]. rewrite exec_bind, exec_modify.
match goal with |- streams_ok (exec ?k ?s) => apply (keeps_pres streams_ok k (fun _ => True)) end.
- kb (fun _ : unit => True); [apply keep_out_s|intros _ _]. kb (fun _ : unit => True); [by apply keep_upd_s|intros _ _]. apply keep_drain_s.
- apply (streams_but i ns); [| |done].
+ intros j Hj. split; [done|]. by rewrite flow_upd, decide_False by done.
+ specialize (Hn i). unfold stream_from in *. rewrite flow_upd, decide_True by done. cbv zeta in *. intros Hl Hp.
  destruct (Hn Hl Hp) as (s0 & E0 & Hd & Hr). rewrite Hfin in Hr. cbn -[Z.sub u32]. exists s0. split_and!; [done|done|].
  rewrite Hr. unfold u32. rewrite wrap_add_l by lia. f_equal. lia.
Qed.
Lemma keep_flush_s i : keeps streams_ok (tcp_flush_h2g i) (fun _ => True).
Proof.
unfold tcp_flush_h2g. kb (fun _ : NatFlow => True); [apply keep_get|intros f _]. destruct (negb _); [by apply keeps_ret|].
kb (fun _ : unit => True); [|intros _ _; kb (fun _ : NatFlow => True); [apply keep_get|intros f' _]; apply keeps_when; [done|];
kb (fun _ : unit => True); [apply keep_out_s|intros _ _; by apply keep_upd_s]].
generalize (S (Z.to_nat (h2g_len f))) as fuel. clear f. intros fuel. induction fuel as [|fuel IH]; cbn [flush_loop]; [by apply keeps_ret|].
kb (fun _ : NatFlow => True); [apply keep_get|intros f _]. destruct (nf_h2g f); [|by apply keeps_ret].
destruct (_ =? 0); [by apply keeps_ret|]. cbv zeta. destruct (_ <=? _); [by apply keeps_ret|].
kb (fun _ : unit => True); [apply keep_out_s|intros _ _]. kb (fun _ : unit => True); [by apply keep_upd_s|intros _ _].
kb (fun _ : unit => True); [by apply keep_upd_s|intros _ _; exact IH].
Qed.
Lemma keep_close_s i : keeps streams_ok (tcp_maybe_close i) (fun _ => True).
Proof. unfold tcp_maybe_close. kb (fun _ : NatFlow => True); [apply keep_get|intros f _]. apply keeps_when; [done|apply keep_free_s]. Qed.

(** ** Opening *)

Lemma flow_alloc_spec proto gport rip rport ns : flow_alloc proto gport rip rport ns = (None, ns)
\/ exists i, flow_alloc proto gport rip rport ns = (Some i, upd_flow i (fun _ => new_flow proto gport rip rport (ns_upstream_dns ns)) ns)
   /\ ns_io ns = true /\ nf_state (flow i ns) = TS_FREE.
Proof.
unfold flow_alloc. rewrite bind_gets. cbn [id]. destruct (ns_io ns); cbn [negb]; [|by left].
destruct (find _ _) as [i|] eqn:E; [|by left]. right. apply find_some in E as [_ E%Z.eqb_eq]. by exists i.
Qed.
Lemma flow_find_some proto gport rip rport ns i : flow_find proto gport rip rport ns = Some i ->
nf_state (flow i ns) <> TS_FREE /\ nf_proto (flow i ns) = proto /\ flow_end (flow i ns) = (gport, rip, rport).
Proof.
intros [_ H]%find_some. apply andb_true_iff in H as [[[[H1%negb_true_iff%Z.eqb_neq H2%Z.eqb_eq]%andb_true_iff H3%Z.eqb_eq]%andb_true_iff H4%Z.eqb_eq]%andb_true_iff H5].
apply bool_decide_eq_true in H5. unfold flow_end. by rewrite H3, H4, H5.
Qed.
Lemma flow_event i e ns : flow i (ns_event e ns) = flow i ns.
Proof. done. Qed.
Lemma trace_event e ns : ns_trace (ns_event e ns) = e :: ns_trace ns.
Proof. done. Qed.
Lemma open_attached i proto ip port ns : ns_io ns = true ->
exec (do_open io i proto ip port) ns = ns_event (IoOpen i proto ip port (io_open io (ns_trace ns) i proto ip port)) ns.
Proof. intros H. unfold do_open, call_io. st_simpl. rewrite H. cbn [negb]. by st_simpl. Qed.

(** An opened flow starts an empty stream, right after the SYN if it is TCP. *)
Lemma opened_s i proto ip port ns ns1 : streams_ok ns -> ns_io ns1 = true -> ns_trace ns1 = ns_trace ns ->
(forall j, j <> i -> flow j ns1 = flow j ns) -> let f := flow i ns1 in
nf_g2h f = None -> nf_guest_fin f = false ->
(nf_proto f = NS_PROTO_TCP -> start i = Some (flow_end f, nf_rcv_nxt f) /\ rng 32 (nf_rcv_nxt f)) ->
streams_ok (exec (do_open io i proto ip port) ns1).
Proof.
intros Hn Hio Et Ef f Eg Efin Est. rewrite open_attached by done. apply (streams_but i ns); [| |done].
- intros j Hj. rewrite flow_event, trace_event. cbn [sent_to]. rewrite decide_False, Et by done. split; [done|by apply Ef].
- unfold stream_from. rewrite flow_event, trace_event. cbn [sent_to]. rewrite decide_True by done. cbv zeta. fold f.
rewrite Eg, Efin. intros _ Hp. destruct (Est Hp) as [Es Hr]. exists (nf_rcv_nxt f). split_and!; [done|done|].
cbn [app default length]. rewrite !Z.add_0_r. symmetry. by apply wrap_small.
Qed.

(** A datagram belongs to a flow that carries no stream. *)
Lemma send_udp_s i data ns : streams_ok ns -> nf_proto (flow i ns) = NS_PROTO_UDP -> streams_ok (exec (do_send io i data) ns).
Proof.
intros Hn Hp. destruct (ns_io ns) eqn:Eio; [|apply (same_stream_ok ns); [by apply same_send_null|done]].
unfold do_send, call_io. st_simpl. rewrite Eio. cbn [negb]. st_simpl. apply (streams_but i ns); [| |done].
- intros j Hj. rewrite flow_event, trace_event. cbn [sent_to]. by rewrite decide_False, app_nil_r by done.
- unfold stream_from. rewrite flow_event. intros _ E. by rewrite Hp in E.
Qed.

Lemma udp_nat_s fr ipoff ihl iptotal : keeps streams_ok (udp_nat io fr ipoff ihl iptotal) (fun _ => True).
Proof.
unfold udp_nat. kb (fun _ : bool => True); [apply keep_get|intros att _]. destruct (_ || _); [by apply keeps_ret|]. cbv zeta.
do 3 (kb (fun _ : Z => True); [apply keep_same, same_be16|intros ? _]).
do 2 (kb (fun _ : list Z => True); [apply keep_same, same_rd_bytes|intros ? _]).
apply keeps_look. intros ns Hn. split; [done|]. destruct (flow_find _ _ _ _ _) as [i|] eqn:Ef.
{ rewrite exec_bind, exec_ret. apply send_udp_s; [done|]. by apply flow_find_some in Ef as (_ & Hp & _). }
rewrite exec_bind. unfold run at 1, exec at 2.
match goal with |- context [flow_alloc ?a ?b ?c ?d ns] => destruct (flow_alloc_spec a b c d ns) as [->|(i & -> & Hio & _)] end;
cbn [fst snd]; [done|].
do 2 rewrite exec_bind. rewrite !run_gets, !exec_gets.
match goal with |- context [exec (do_open io i ?p ?a ?q) ?s] =>
assert (streams_ok (exec (do_open io i p a q) s)) as Ho; [apply (opened_s i p a q ns s)|
  assert (nf_proto (flow i (exec (do_open io i p a q) s)) = NS_PROTO_UDP) as Hp] end; try done.
- intros j Hj. by rewrite flow_upd, decide_False by done.
- by rewrite flow_upd, decide_True by done.
- by rewrite flow_upd, decide_True by done.
- rewrite flow_upd, decide_True by done. done.
- rewrite open_attached, flow_event, flow_upd by done. by rewrite decide_True by done.
- destruct (negb _); [by apply keep_free_s|]. rewrite exec_bind, exec_ret. by apply send_udp_s.
Qed.
End Keep.

(** Steps that may open a flow: its stream starts right after the SYN, and the flow was free. *)
Definition opens (e : endpoint) (seq : Z) (ns : NetStack) (start start' : starts) : Prop :=
forall j, start' j = start j \/ (nf_state (flow j ns) = TS_FREE /\ start' j = Some (e, u32 (seq + 1))).

Lemma connect_s start sport dport seq wnd dst ns : streams_from start ns -> exists start',
streams_from start' (exec (tcp_connect io sport dport seq wnd dst) ns) /\ opens (sport, dst, dport) seq ns start start'.
Proof.
intros Hn. unfold tcp_connect. rewrite exec_bind. unfold run at 1, exec at 2.
destruct (flow_alloc_spec NS_PROTO_TCP sport dst dport ns) as [->|(i & -> & Hio & Hfree)]; cbn [fst snd].
{ exists start. split; [done|]. by left. }
set (start' := fun j => if decide (j = i) then Some ((sport, dst, dport), u32 (seq + 1)) else start j).
exists start'. split; [|intros j; unfold start'; destruct (decide (j = i)) as [->|]; [by right|by left]].
assert (streams_from start' ns) as Hn'.
{ intros j. specialize (Hn j). unfold stream_from, start' in *. cbv zeta in *. intros Hl Hp. destruct (decide (j = i)) as [->|]; [done|].
  by apply Hn. }
do 4 rewrite exec_bind. rewrite !run_gets, !exec_gets, !exec_modify. rewrite exec_bind.
match goal with |- streams_from _ (exec ?k (exec (do_open io i ?p ?a ?q) ?s)) =>
  apply (keeps_pres (streams_from start') k (fun _ => True)); [|apply (opened_s start' i p a q ns s)] end; try done.
- apply keeps_when; [done|]. kb (fun _ : unit => True); [apply keep_out_s|intros _ _; apply keep_free_s].
- intros j Hj. rewrite flow_upd, decide_False by done. unfold flow. cbn. by rewrite lookup_insert_ne by done.
- rewrite flow_upd, decide_True by done. unfold flow. cbn. by rewrite lookup_insert_eq.
- rewrite flow_upd, decide_True by done. unfold flow. cbn. by rewrite lookup_insert_eq.
- intros _. unfold start'. rewrite decide_True by done. rewrite flow_upd, decide_True by done. unfold flow, flow_end. cbn -[u32].
  rewrite lookup_insert_eq. cbn -[u32]. split; [done|apply u32_rng].
Qed.

Lemma segment_s start sport dport seq ack flags wnd dst payload ns : speaks (sport, dst, dport) seq payload -> streams_from start ns ->
exists start', streams_from start' (exec (tcp_segment io sport dport seq ack flags wnd dst payload) ns)
  /\ (start' = start \/ flags .& TCP_SYN <> 0 /\ opens (sport, dst, dport) seq ns start start').
Proof.
intros Hsp Hn. unfold tcp_segment. rewrite exec_bind, run_gets, exec_gets. destruct (flow_find _ _ _ _ _) as [i|] eqn:Ef.
- exists start. split; [|by left]. destruct (negb _); [by apply keep_free_s|]. rewrite exec_bind, exec_modify, exec_bind.
  set (ns1 := upd_flow i _ ns). assert (streams_from start ns1) as Hn1 by (apply (same_stream_ok start ns); [|done]; apply same_upd, acked_fields).
  assert (flow_end (flow i ns1) = (sport, dst, dport)) as Ee.
  { unfold ns1. rewrite flow_upd, decide_True by done. destruct (flow_find_some _ _ _ _ _ _ Ef) as (_ & _ & <-).
    pose proof (acked_fields flags ack wnd (flow i ns)) as E. by apply (f_equal (fun x => x.1.1.1.2)) in E. }
  pose proof (data_s start i seq payload ns1 Hn1) as Hd. rewrite Ee in Hd. specialize (Hd Hsp).
  match goal with |- streams_from _ (exec ?k ?s) => apply (keeps_pres (streams_from start) k (fun _ => True)); [|exact Hd] end.
  destruct (negb _); [by apply keeps_ret|]. kb (fun _ : bool => True); [apply keep_fin_s|intros alive _].
  destruct (negb _); [by apply keeps_ret|]. kb (fun _ : unit => True); [apply keep_flush_s|intros _ _; apply keep_close_s].
- destruct (Z.eqb_spec (flags .& TCP_SYN) 0); cbn [negb]; [exists start; split; [done|by left]|].
  destruct (connect_s start sport dport seq wnd dst ns Hn) as (start' & Hs & Ho). exists start'. split; [done|]. by right.
Qed.

(** ** Segments as the guest sends them

  The fields of a TCP segment in an IPv4 packet in an Ethernet frame. *)
Definition w16 (fr : list Z) (o : Z) : Z := nth (Z.to_nat o) fr 0 * 256 + nth (Z.to_nat (o + 1)) fr 0.
Definition w32 (fr : list Z) (o : Z) : Z := w16 fr o * 65536 + w16 fr (o + 2).
Definition zpart (fr : list Z) (o n : Z) : list Z := part fr (Z.to_nat o) (Z.to_nat n).
Definition header_length (fr : list Z) : Z := nth 14 fr 0 mod 16 * 4.
Definition total_length (fr : list Z) : Z := Z.min (w16 fr 16) (Z.of_nat (length fr) - 14).
Definition is_tcp (fr : list Z) : bool := (w16 fr 12 =? 0x0800) && (nth 23 fr 0 =? 6).
Definition segment_of (fr : list Z) : endpoint * Z * list Z :=
let t := 14 + header_length fr in
let doff := nth (Z.to_nat (t + 12)) fr 0 / 16 * 4 in
((w16 fr t, zpart fr 30 4, w16 fr (t + 2)), w32 fr (t + 4), zpart fr (t + doff) (total_length fr - header_length fr - doff)).
Definition segment_flags (fr : list Z) : Z := nth (Z.to_nat (14 + header_length fr + 13)) fr 0.
(** A frame that carries the guest's bytes at their sequence numbers. *)
Definition honest (fr : list Z) : Prop := is_tcp fr = true -> let '(e, s, p) := segment_of fr in speaks e s p.

Section Reads.
Context (fr : list Z) (Hfr : bytes fr).
#[local] Abbreviation len := (Z.of_nat (length fr)).

Lemma bind_eq {A B} (m : st NetStack A) (k : A -> st NetStack B) s a s' : m s = (a, s') -> (m ≫= k) s = k a s'.
Proof. intros E. unfold mbind, st_bind. by rewrite E. Qed.
Lemma rd_eq i ns : 0 <= i < len -> rd fr i ns = (nth (Z.to_nat i) fr 0, ns).
Proof. intros. unfold rd. by rewrite (proj2 (Z.leb_le _ _)), (proj2 (Z.ltb_lt _ _)) by lia. Qed.
Lemma nth_rng k : rng 8 (nth k fr 0).
Proof.
destruct (decide (k < length fr)%nat); [|rewrite nth_overflow by lia; by apply rng_const].
apply (proj1 (list.Forall_forall _ _) Hfr). apply list_elem_of_In, nth_In. lia.
Qed.
Lemma be16_eq o ns : 0 <= o -> o + 2 <= len -> be16 fr o ns = (w16 fr o, ns).
Proof.
intros. unfold be16. rewrite (bind_eq _ _ _ _ _ (rd_eq o ns ltac:(lia))), (bind_eq _ _ _ _ _ (rd_eq (o + 1) ns ltac:(lia))).
rewrite be_word by apply nth_rng. unfold mret, st_ret, w16. f_equal. apply wrap_small; [lia|].
pose proof (nth_rng (Z.to_nat o)). pose proof (nth_rng (Z.to_nat (o + 1))). unfold rng in *. lia.
Qed.
Lemma be32_eq o ns : 0 <= o -> o + 4 <= len -> be32 fr o ns = (w32 fr o, ns).
Proof.
intros. unfold be32. rewrite (bind_eq _ _ _ _ _ (rd_eq o ns ltac:(lia))), (bind_eq _ _ _ _ _ (rd_eq (o + 1) ns ltac:(lia))),
(bind_eq _ _ _ _ _ (rd_eq (o + 2) ns ltac:(lia))), (bind_eq _ _ _ _ _ (rd_eq (o + 3) ns ltac:(lia))).
unfold mret, st_ret, w32, w16. f_equal. replace (o + 2 + 1) with (o + 3) by lia.
pose proof (nth_rng (Z.to_nat o)). pose proof (nth_rng (Z.to_nat (o + 1))). pose proof (nth_rng (Z.to_nat (o + 2))). pose proof (nth_rng (Z.to_nat (o + 3))).
generalize dependent (nth (Z.to_nat o) fr 0). generalize dependent (nth (Z.to_nat (o + 1)) fr 0).
generalize dependent (nth (Z.to_nat (o + 2)) fr 0). generalize dependent (nth (Z.to_nat (o + 3)) fr 0). intros d Hd c Hc b Hb a Ha.
assert (forall x y, rng 8 x -> rng 8 y -> (x << 8) .| y = x * 256 + y) as W.
{ intros x y Hx Hy. rewrite <- be_word by done. f_equal. symmetry. apply wrap_small; [lia|]. unfold rng in *. rewrite Z.shiftl_mul_pow2; lia. }
transitivity ((((a << 8) .| b) << 16) .| ((c << 8) .| d)); [zbits; by replace (i - 16 - 8) with (i - 24) by lia|]. rewrite !W by done.
rewrite Z.lor_comm, (lor_shiftl_add 16) by (lia || (unfold rng in *; lia)). change (2 ^ 16) with 65536. lia.
Qed.
Lemma rd_bytes_eq o n ns : 0 <= o -> 0 <= n -> o + n <= len -> rd_bytes fr o n ns = (zpart fr o n, ns).
Proof. intros. unfold rd_bytes. by rewrite !(proj2 (Z.leb_le _ _)) by lia. Qed.

(** The stack reads the fields the frame has. *)
Lemma handle_tcp_segment ihl tot ns : ihl = header_length fr -> tot = total_length fr -> 20 <= ihl ->
exec (handle_tcp io fr ETH_HDR ihl tot) ns = ns \/ exists ack wnd,
let '((sport, dst, dport), seq, payload) := segment_of fr in
exec (handle_tcp io fr ETH_HDR ihl tot) ns = exec (tcp_segment io sport dport seq ack (segment_flags fr) wnd dst payload) ns.
Proof.
intros Ei Et Hi. assert (14 + tot <= len) as Hl by (rewrite Et; unfold total_length; lia). unfold exec, handle_tcp, ETH_HDR.
rewrite bind_gets. destruct (negb (ns_io ns) || (tot <? ihl + 20)) eqn:E; [by left|]. apply orb_false_iff in E as [_ E%Z.ltb_ge]. cbv zeta.
rewrite (bind_eq _ _ _ _ _ (be16_eq (14 + ihl) ns ltac:(lia) ltac:(lia))), (bind_eq _ _ _ _ _ (be16_eq (14 + ihl + 2) ns ltac:(lia) ltac:(lia))).
rewrite (bind_eq _ _ _ _ _ (be32_eq (14 + ihl + 4) ns ltac:(lia) ltac:(lia))), (bind_eq _ _ _ _ _ (be32_eq (14 + ihl + 8) ns ltac:(lia) ltac:(lia))).
rewrite (bind_eq _ _ _ _ _ (rd_eq (14 + ihl + 12) ns ltac:(lia))), (bind_eq _ _ _ _ _ (rd_eq (14 + ihl + 13) ns ltac:(lia))).
rewrite (bind_eq _ _ _ _ _ (be16_eq (14 + ihl + 14) ns ltac:(lia) ltac:(lia))).
set (off := nth (Z.to_nat (14 + ihl + 12)) fr 0). assert (off >> 4 = off / 16) as -> by (by rewrite Z.shiftr_div_pow2).
set (doff := off / 16 * 4). destruct ((doff <? 20) || (tot <? ihl + doff)) eqn:E'; [by left|].
apply orb_false_iff in E' as [E1%Z.ltb_ge E2%Z.ltb_ge].
rewrite (bind_eq _ _ _ _ _ (rd_bytes_eq (14 + 16) 4 ns ltac:(lia) ltac:(lia) ltac:(lia))).
rewrite (bind_eq _ _ _ _ _ (rd_bytes_eq (14 + ihl + doff) (tot - ihl - doff) ns ltac:(lia) ltac:(lia) ltac:(lia))).
right. do 2 eexists. unfold segment_of, segment_flags. rewrite <- Ei, <- Et. reflexivity.
Qed.
End Reads.

Section Keep_frame.
Context (start : starts).
#[local] Abbreviation streams_ok := (streams_from start).

Ltac same_read := repeat first [apply keep_same, same_be16 | apply keep_same, same_rd | apply keep_same, same_rd_bytes | apply keep_get].

Lemma keep_ip_out_s cap out len : keeps streams_ok (ns_out cap out len) (fun _ => True).
Proof. apply keep_same, same_out. Qed.
Lemma keep_id_s : keeps streams_ok next_ip_id (fun _ => True).
Proof. apply keep_same. by intros ns. Qed.
Lemma gateway_s fr : keeps streams_ok (handle_arp fr) (fun _ => True)
/\ (forall o ihl tot, keeps streams_ok (handle_icmp fr o ihl tot) (fun _ => True))
/\ (forall o tot, keeps streams_ok (handle_dhcp fr o tot) (fun _ => True)).
Proof.
assert (forall fuel o l i, keeps streams_ok (dhcp_scan fuel fr o l i) (fun _ => True)) as Hscan.
{ induction fuel as [|fuel IH]; intros o l i; cbn [dhcp_scan]; [by apply keeps_ret|]. destruct (_ <=? _); [by apply keeps_ret|].
kb (fun _ : Z => True); [same_read|intros c _]. cbv zeta. destruct (_ =? 0); [done|]. destruct (_ =? _); [by apply keeps_ret|].
destruct (_ <=? _); [by apply keeps_ret|]. kb (fun _ : Z => True); [same_read|intros l' _]. destruct (_ <? _); [by apply keeps_ret|].
destruct (_ && _); [same_read|done]. }
split; [|split].
- unfold handle_arp. destruct (_ <? _); [by apply keeps_ret|]. cbv zeta. do 2 (kb (fun _ : Z => True); [same_read|intros ? _]).
destruct (_ || _); [by apply keeps_ret|]. do 2 (kb (fun _ : Z => True); [same_read|intros ? _]). destruct (_ || _); [by apply keeps_ret|].
kb (fun _ : Z => True); [same_read|intros ? _]. destruct (negb _); [by apply keeps_ret|].
kb (fun _ : list Z => True); [same_read|intros ? _]. destruct (negb _); [by apply keeps_ret|].
do 2 (kb (fun _ : list Z => True); [same_read|intros ? _]). apply keep_ip_out_s.
- intros o ihl tot. unfold handle_icmp. destruct (_ <? _); [by apply keeps_ret|]. cbv zeta. do 2 (kb (fun _ : Z => True); [same_read|intros ? _]).
destruct (_ || _); [by apply keeps_ret|]. kb (fun _ : list Z => True); [same_read|intros ? _]. destruct (negb _); [by apply keeps_ret|].
destruct (_ <? _); [by apply keeps_ret|]. kb (fun _ : list Z => True); [same_read|intros ? _]. kb (fun _ : Z => True); [apply keep_id_s|intros ? _].
do 2 (kb (fun _ : list Z => True); [same_read|intros ? _]). apply keep_ip_out_s.
- intros o tot. unfold handle_dhcp. destruct (_ <? _); [by apply keeps_ret|]. cbv zeta. kb (fun _ : list Z => True); [same_read|intros ? _].
destruct (negb _); [by apply keeps_ret|]. kb (fun _ : Z => True); [apply Hscan|intros ? _]. destruct (_ && _); [by apply keeps_ret|].
kb (fun _ : Z => True); [apply keep_id_s|intros ? _]. do 3 (kb (fun _ : list Z => True); [same_read|intros ? _]). apply keep_ip_out_s.
Qed.

Lemma handle_udp_s fr o ihl tot : keeps streams_ok (handle_udp io fr o ihl tot) (fun _ => True).
Proof.
unfold handle_udp. destruct (_ <? _); [by apply keeps_ret|]. do 2 (kb (fun _ : Z => True); [same_read|intros ? _]).
destruct (_ && _); [apply gateway_s|]. kb (fun _ : list Z => True); [same_read|intros ? _]. apply keeps_when; [done|apply udp_nat_s].
Qed.
Lemma host_s e : (forall fr, e <> Frame fr) -> keeps streams_ok (handle io e) (fun _ => True).
Proof.
destruct e as [fr|i|i data|i|i|i|att dns]; cbn [handle]; intros He.
- by destruct (He fr).
- unfold netstack_host_connected. apply keeps_look. intros ns Hn. split; [done|]. destruct (flow_by_id i ns) as [f|] eqn:Ef; [|done].
destruct (negb _ || _); [done|]. apply flow_by_id_live in Ef as (-> & _ & Hl). rewrite exec_bind, exec_modify.
apply (same_stream_ok start (exec (tcp_synack i) ns)); [|by apply keep_same; [apply same_synack|]].
apply same_upd. unfold flow. rewrite tcp_synack_flows. unfold stream_fields. cbn. fold (flow i ns).
by rewrite (proj2 (Z.eqb_neq (nf_state (flow i ns)) TS_FREE)) by done.
- unfold netstack_host_recv. kb (fun _ : option NatFlow => True); [apply keep_get|intros [f|] _; [|by apply keeps_ret]]. cbv zeta.
destruct (_ =? 0); [by apply keeps_ret|]. destruct (_ =? _); [apply keep_same, same_udp|]. destruct (_ =? 0); [by apply keeps_ret|].
kb (fun _ : option (list Z) => True); [apply keep_get|intros [b|] _; [|by apply keeps_ret]].
kb (fun _ : unit => True); [by apply keep_upd_s|intros _ _; apply keep_flush_s].
- unfold netstack_host_closed. kb (fun _ : option NatFlow => True); [apply keep_get|intros [f|] _; [|by apply keeps_ret]].
destruct (_ =? _); [apply keep_free_s|]. kb (fun _ : unit => True); [by apply keep_upd_s|intros _ _].
kb (fun _ : unit => True); [apply keep_flush_s|intros _ _; apply keep_close_s].
- unfold netstack_host_reset. kb (fun _ : option NatFlow => True); [apply keep_get|intros [f|] _; [|by apply keeps_ret]].
kb (fun _ : unit => True); [apply keeps_when; [done|apply keep_out_s]|intros _ _; apply keep_free_s].
- unfold netstack_host_writable. kb (fun _ : option NatFlow => True); [apply keep_get|intros [f|] _; [|by apply keeps_ret]].
destruct (negb _); [by apply keeps_ret|]. kb (fun _ : bool => True); [apply keep_drain_s|intros alive _].
destruct (negb alive); [by apply keeps_ret|]. kb (fun _ : NatFlow => True); [apply keep_get|intros f' _].
kb (fun _ : unit => True); [apply keeps_when; [done|apply keep_out_s]|intros _ _; apply keep_close_s].
- apply keep_same. intros ns. unfold netstack_set_io. st_simpl. by destruct dns.
Qed.

End Keep_frame.

(** ** Every frame *)

(** A segment that opens a connection. *)
Definition is_syn (fr : list Z) : Prop := is_tcp fr = true /\ Z.testbit (segment_flags fr) 1 = true.

(** Handling a frame keeps the streams; a flow it opens was free, and starts after its SYN. *)
Definition frame_step (fr : list Z) (start : starts) (ns ns' : NetStack) : Prop := exists start',
streams_from start' ns'
/\ (start' = start \/ is_syn fr /\ let '(e, seq, _) := segment_of fr in opens e seq ns start start').

Lemma frame_same fr start ns ns' : streams_from start ns' -> frame_step fr start ns ns'.
Proof. intros H. exists start. split; [done|by left]. Qed.
Lemma syn_bit flags : flags .& TCP_SYN <> 0 -> Z.testbit flags 1 = true.
Proof.
intros H. destruct (Z.testbit flags 1) eqn:E; [done|]. exfalso. apply H. apply Z.bits_inj'. intros k Hk.
rewrite Z.land_spec, Z.bits_0. change TCP_SYN with (2 ^ 1). rewrite Z.pow2_bits_eqb by lia.
destruct (Z.eqb_spec 1 k) as [<-|]; [by rewrite E|apply andb_false_r].
Qed.

Lemma ip_s fr start ns : bytes fr -> honest fr -> w16 fr 12 = 0x0800 -> streams_from start ns ->
frame_step fr start ns (exec (handle_ip io fr) ns).
Proof.
intros Hb Hh Het Hn. unfold exec, handle_ip.
destruct (Z.ltb_spec (Z.of_nat (length fr)) (ETH_HDR + 20)) as [|Hl]; [by apply frame_same|].
change (ETH_HDR + 20) with 34 in Hl. change ETH_HDR with 14.
rewrite (bind_eq _ _ _ _ _ (rd_eq fr 14 ns ltac:(lia))). change (Z.to_nat 14) with 14%nat. destruct (negb _); [by apply frame_same|]. cbv zeta.
assert ((nth 14 fr 0 .& 15) * 4 = header_length fr) as ->.
{ unfold header_length. change 15 with (Z.ones 4). by rewrite Z.land_ones by lia. }
destruct ((header_length fr <? 20) || _) eqn:E; [by apply frame_same|]. apply orb_false_iff in E as [E1%Z.ltb_ge E2%Z.ltb_ge].
rewrite (bind_eq _ _ _ _ _ (be16_eq fr Hb (14 + 2) ns ltac:(lia) ltac:(lia))). change (14 + 2) with 16.
assert ((if Z.of_nat (length fr) - 14 <? w16 fr 16 then Z.of_nat (length fr) - 14 else w16 fr 16) = total_length fr) as ->.
{ unfold total_length. destruct (Z.ltb_spec (Z.of_nat (length fr) - 14) (w16 fr 16)); lia. }
destruct (_ <? _); [by apply frame_same|]. rewrite (bind_eq _ _ _ _ _ (rd_eq fr (14 + 9) ns ltac:(lia))). change (Z.to_nat (14 + 9)) with 23%nat.
rewrite (bind_eq _ _ _ _ _ (rd_bytes_eq fr (14 + 16) 4 ns ltac:(lia) ltac:(lia) ltac:(lia))).
destruct (_ =? PROTO_ICMP); [apply frame_same; by apply gateway_s|]. destruct (_ =? PROTO_UDP); [apply frame_same; by apply handle_udp_s|].
destruct ((nth 23 fr 0 =? PROTO_TCP) && _) eqn:Ep; [|by apply frame_same]. apply andb_true_iff in Ep as [Ep%Z.eqb_eq _].
destruct (handle_tcp_segment fr Hb (header_length fr) (total_length fr) ns) as [Ee|(ack & wnd & Ee)]; [done|done|lia| |].
- unfold exec in Ee. cbn [when]. change 14 with ETH_HDR at 1. rewrite Ee. by apply frame_same.
- assert (is_tcp fr = true) as Ht by (unfold is_tcp; by rewrite Het, Ep). specialize (Hh Ht). unfold frame_step.
  destruct (segment_of fr) as [[[[sport dst] dport] seq] payload]. unfold exec in Ee. cbn [when]. change 14 with ETH_HDR at 1. rewrite Ee.
  destruct (segment_s start sport dport seq ack (segment_flags fr) wnd dst payload ns Hh Hn) as (start' & Hs & Ho). exists start'. split; [done|].
  destruct Ho as [->|[Hsyn Ho]]; [by left|]. right. split; [|done]. split; [done|by apply syn_bit].
Qed.
Lemma input_s fr start ns : bytes fr -> honest fr -> streams_from start ns -> frame_step fr start ns (exec (netstack_input io fr) ns).
Proof.
intros Hb Hh Hn. unfold exec, netstack_input.
destruct (Z.ltb_spec (Z.of_nat (length fr)) ETH_HDR) as [|Hl]; [by apply frame_same|].
change ETH_HDR with 14 in Hl. unfold ETH_SRC, ETH_TYPE.
rewrite (bind_eq _ _ _ _ _ (rd_bytes_eq fr 6 6 ns ltac:(lia) ltac:(lia) ltac:(lia))), bind_modify.
set (ns1 := set_ns_have_guest_mac true _). rewrite (bind_eq _ _ _ _ _ (be16_eq fr Hb 12 ns1 ltac:(lia) ltac:(lia))).
assert (streams_from start ns1) as Hn1 by (by apply (same_stream_ok start ns)).
destruct (_ =? ETYPE_ARP); [apply frame_same; by apply gateway_s|]. destruct (Z.eqb_spec (w16 fr 12) ETYPE_IP); [|by apply frame_same].
exact (ip_s fr start ns1 Hb Hh ltac:(done) Hn1).
Qed.

(** ** Every sequence of events *)

Definition live_tcp (i : Z) (ns : NetStack) : Prop := nf_state (flow i ns) <> TS_FREE /\ nf_proto (flow i ns) = NS_PROTO_TCP.
#[local] Instance live_tcp_dec i ns : Decision (live_tcp i ns).
Proof. unfold live_tcp. apply _. Defined.

(** The SYN that opened flow [i]: the flow was free before it, and has been in use since. *)
Definition opened_by (i : Z) (es : list stack_event) (syn : list Z) : Prop := exists before since,
es = before ++ Frame syn :: since
/\ nf_state (flow i (after io before netstack_new)) = TS_FREE
/\ forall k, nf_state (flow i (after io (before ++ Frame syn :: take k since) netstack_new)) <> TS_FREE.

(** Each stream starts right after the SYN of its flow. *)
Definition started_by (es : list stack_event) (start : starts) : Prop := forall i e s,
live_tcp i (after io es netstack_new) -> start i = Some (e, s) ->
exists syn, opened_by i es syn /\ is_syn syn /\ let '(e', seq, _) := segment_of syn in e = e' /\ s = u32 (seq + 1).

Lemma after_snoc es e : after io (es ++ [e]) netstack_new = exec (handle io e) (after io es netstack_new).
Proof. unfold after. by rewrite foldl_app. Qed.
Lemma opened_later i es syn e : opened_by i es syn -> nf_state (flow i (after io (es ++ [e]) netstack_new)) <> TS_FREE ->
opened_by i (es ++ [e]) syn.
Proof.
intros (before & since & -> & Hf & Hk) Hl. exists before, (since ++ [e]). rewrite <- app_assoc in *. split_and!; [done|done|].
intros k. destruct (decide (k <= length since)%nat) as [Hle|Hgt]; [rewrite take_app_le by done; apply Hk|].
rewrite take_ge by (rewrite length_app; cbn; lia). exact Hl.
Qed.

(** A flow that is not live has no stream to start. *)
Lemma restrict_s start ns : streams_from start ns ->
streams_from (fun i => if decide (live_tcp i ns) then start i else None) ns.
Proof. intros H i Hl Hp. rewrite decide_True by done. by apply H. Qed.

Lemma after_s es : Forall event_ok es -> (forall fr, Frame fr ∈ es -> honest fr) ->
exists start, streams_from start (after io es netstack_new) /\ started_by es start.
Proof.
induction es as [|e es IH] using rev_ind; intros He Hh.
{ exists (fun _ => None). split; [|done]. intros i Hl. exfalso. apply Hl. unfold flow. cbn. by rewrite lookup_empty. }
apply Forall_app in He as [Hes He]. apply Forall_cons_1 in He as [He _].
destruct IH as (start0 & Hs0 & Hst0); [done|intros fr Hf; apply Hh, elem_of_app; by left|].
apply restrict_s in Hs0. set (start := fun i => if decide _ then start0 i else None) in Hs0. rewrite after_snoc.
assert (forall i e' s, live_tcp i (after io (es ++ [e]) netstack_new) -> start i = Some (e', s) ->
  exists syn, opened_by i (es ++ [e]) syn /\ is_syn syn /\ let '(e'', seq, _) := segment_of syn in e' = e'' /\ s = u32 (seq + 1)) as Hold.
{ intros i e' s Hl E. unfold start in E. destruct (decide (live_tcp i (after io es netstack_new))) as [Hl0|]; [|done].
  destruct (Hst0 i e' s Hl0 E) as (syn & Ho & Hr). exists syn. split; [|done]. apply opened_later; [done|apply Hl]. }
destruct e as [fr| | | | | |].
2-7: exists start; (split; [by apply host_s|exact Hold]).
assert (honest fr) as Hf by (apply Hh, elem_of_app; right; by left).
destruct (input_s fr start _ He Hf Hs0) as (start' & Hs' & Ho). exists start'. split; [done|].
destruct Ho as [->|[Hsyn Ho]]; [exact Hold|]. intros i e' s Hl E. destruct (segment_of fr) as [[ep seq] pl] eqn:Eseg.
destruct (Ho i) as [E'|[Hfree E']]; [apply (Hold i e' s Hl); congruence|]. exists fr. rewrite Eseg.
split; [|split; [done|split; congruence]].
exists es, []. split_and!; [done|done|]. intros k. rewrite take_nil. apply Hl.
Qed.
End Stream.
