(* ===== verification/NetBackend.v ===== *)
(** * The network stack and its backend

    Calls through the backend happen only while one is attached, provided one that was
    attached stays. *)

From S2P Require Import Prelude Device DeviceInv DeviceThms Netstack NetWire NetstackInv.

(** Walks over a computation whose primitive steps leave the two fields of an invariant alone,
    with [leaf] for the calls it makes. *)
Ltac walk leaf :=
  repeat lazymatch goal with
  | |- keeps _ (mret _) _ => apply keeps_ret; exact I
  | |- keeps _ (gets _) _ => apply keeps_gets; intros; exact I
  | |- keeps _ (modify _) _ => apply keeps_modify; [exact I|intros ? [? ?]; split; first [assumption | reflexivity]]
  | |- keeps _ (when _ _) _ => apply keeps_when; [exact I|]
  | |- keeps _ (_ ≫= _) _ => apply (keeps_bind _ _ _ (fun _ => True)); [|intros ? _]
  | |- keeps _ (let _ := _ in _) _ => cbv zeta
  | |- keeps _ (match ?x with _ => _ end) _ => destruct x
  | |- _ => leaf
  end.

Section Attached.
Context (io : NetIo).
Definition attached (ns : NetStack) : Prop := ns_io ns = true /\ ns_null ns = false.
#[local] Abbreviation ok m := (keeps attached m (fun _ => True)).

Lemma att_call_io m : ok m -> ok (call_io m).
Proof. intros Hm ns [H1 H2]. unfold run, exec, call_io. rewrite bind_gets, H1. by apply Hm. Qed.
Lemma att_rd fr o : ok (rd fr o).
Proof. unfold rd. walk fail. Qed.
Lemma att_rd_bytes fr o n : ok (rd_bytes fr o n).
Proof. unfold rd_bytes. walk fail. Qed.
Lemma att_be16 fr o : ok (be16 fr o).
Proof. unfold be16. walk ltac:(apply att_rd). Qed.
Lemma att_be32 fr o : ok (be32 fr o).
Proof. unfold be32. walk ltac:(apply att_rd). Qed.
Lemma att_out cap out len : ok (ns_out cap out len).
Proof. unfold ns_out. walk fail. Qed.
Lemma att_tcp_out i flags payload : ok (tcp_out i flags payload).
Proof. unfold tcp_out, next_ip_id. walk ltac:(apply att_out). Qed.
Lemma att_synack i : ok (tcp_synack i).
Proof. unfold tcp_synack, next_ip_id. walk ltac:(apply att_out). Qed.
Lemma att_udp_out i data : ok (udp_to_guest i data).
Proof. unfold udp_to_guest, next_ip_id. walk ltac:(apply att_out). Qed.
Lemma att_flow_free i : ok (flow_free i).
Proof. unfold flow_free. walk fail. Qed.
Lemma att_flow_alloc p g r q : ok (flow_alloc p g r q).
Proof. unfold flow_alloc. walk fail. Qed.
Lemma att_open i proto ip port : ok (do_open io i proto ip port).
Proof. apply att_call_io. walk fail. Qed.
Lemma att_send i data : ok (do_send io i data).
Proof. apply att_call_io. walk fail. Qed.
Lemma att_shutdown i : ok (do_shutdown i).
Proof. apply att_call_io. walk fail. Qed.

(** The calls the handlers are made of. *)
Ltac calls := idtac; lazymatch goal with
| |- keeps _ (rd _ _) _ => apply att_rd
| |- keeps _ (rd_bytes _ _ _) _ => apply att_rd_bytes
| |- keeps _ (be16 _ _) _ => apply att_be16
| |- keeps _ (be32 _ _) _ => apply att_be32
| |- keeps _ (ns_out _ _ _) _ => apply att_out
| |- keeps _ (tcp_out _ _ _) _ => apply att_tcp_out
| |- keeps _ (tcp_synack _) _ => apply att_synack
| |- keeps _ (udp_to_guest _ _) _ => apply att_udp_out
| |- keeps _ (flow_free _) _ => apply att_flow_free
| |- keeps _ (flow_alloc _ _ _ _) _ => apply att_flow_alloc
| |- keeps _ (do_open _ _ _ _ _) _ => apply att_open
| |- keeps _ (do_send _ _ _) _ => apply att_send
| |- keeps _ (do_shutdown _) _ => apply att_shutdown
end.

Lemma att_drain i : ok (tcp_drain_g2h io i).
Proof. unfold tcp_drain_g2h. walk calls. Qed.
Lemma att_flush i : ok (tcp_flush_h2g i).
Proof.
assert (forall fuel, ok (flush_loop fuel i)) as Hl by (induction fuel as [|fuel IH]; cbn [flush_loop]; walk ltac:(first [calls | exact IH])).
unfold tcp_flush_h2g. walk ltac:(first [apply Hl | calls]).
Qed.
Lemma att_close i : ok (tcp_maybe_close i).
Proof. unfold tcp_maybe_close. walk calls. Qed.
Ltac flow_calls := idtac; lazymatch goal with
| |- keeps _ (tcp_drain_g2h _ _) _ => apply att_drain
| |- keeps _ (tcp_flush_h2g _) _ => apply att_flush
| |- keeps _ (tcp_maybe_close _) _ => apply att_close
| |- _ => calls
end.

Lemma att_connect sport dport seq wnd dst : ok (tcp_connect io sport dport seq wnd dst).
Proof. unfold tcp_connect. walk flow_calls. Qed.
Lemma att_data i seq payload : ok (tcp_data io i seq payload).
Proof. unfold tcp_data. walk flow_calls. Qed.
Lemma att_fin i flags seq plen : ok (tcp_fin io i flags seq plen).
Proof. unfold tcp_fin. walk flow_calls. Qed.
Lemma att_segment sport dport seq ack flags wnd dst payload : ok (tcp_segment io sport dport seq ack flags wnd dst payload).
Proof.
unfold tcp_segment.
walk ltac:(idtac; lazymatch goal with
  | |- keeps _ (tcp_connect _ _ _ _ _ _) _ => apply att_connect
  | |- keeps _ (tcp_data _ _ _ _) _ => apply att_data
  | |- keeps _ (tcp_fin _ _ _ _ _) _ => apply att_fin
  | |- _ => flow_calls
  end).
Qed.
Lemma att_dhcp fr o tot : ok (handle_dhcp fr o tot).
Proof.
assert (forall fuel o l i, ok (dhcp_scan fuel fr o l i)) as Hs.
{ induction fuel as [|fuel IH]; intros; cbn [dhcp_scan];
    walk ltac:(idtac; lazymatch goal with |- keeps _ (dhcp_scan _ _ _ _ _) _ => apply IH | |- _ => calls end). }
unfold handle_dhcp, dhcp_msgtype, next_ip_id.
walk ltac:(idtac; lazymatch goal with |- keeps _ (dhcp_scan _ _ _ _ _) _ => apply Hs | |- _ => calls end).
Qed.
Lemma att_arp fr : ok (handle_arp fr).
Proof. unfold handle_arp. walk calls. Qed.
Lemma att_icmp fr o ihl tot : ok (handle_icmp fr o ihl tot).
Proof. unfold handle_icmp, next_ip_id. walk calls. Qed.
Lemma att_udp_nat fr o ihl tot : ok (udp_nat io fr o ihl tot).
Proof. unfold udp_nat. walk calls. Qed.
Lemma att_tcp fr o ihl tot : ok (handle_tcp io fr o ihl tot).
Proof.
unfold handle_tcp.
walk ltac:(idtac; lazymatch goal with |- keeps _ (tcp_segment _ _ _ _ _ _ _ _ _) _ => apply att_segment | |- _ => calls end).
Qed.
Lemma att_udp fr o ihl tot : ok (handle_udp io fr o ihl tot).
Proof.
unfold handle_udp. walk ltac:(idtac; lazymatch goal with
  | |- keeps _ (handle_dhcp _ _ _) _ => apply att_dhcp
  | |- keeps _ (udp_nat _ _ _ _ _) _ => apply att_udp_nat
  | |- _ => calls
  end).
Qed.
Lemma att_input fr : ok (netstack_input io fr).
Proof.
unfold netstack_input, handle_ip. walk ltac:(idtac; lazymatch goal with
  | |- keeps _ (handle_arp _) _ => apply att_arp
  | |- keeps _ (handle_icmp _ _ _ _) _ => apply att_icmp
  | |- keeps _ (handle_udp _ _ _ _ _) _ => apply att_udp
  | |- keeps _ (handle_tcp _ _ _ _ _) _ => apply att_tcp
  | |- _ => calls
  end).
Qed.
Lemma att_handle e : (forall dns, e <> SetIo false dns) -> ok (handle io e).
Proof.
destruct e as [fr|i|i d|i|i|i|b dns]; intros He; cbn [handle]; [apply att_input|..].
- unfold netstack_host_connected. walk flow_calls.
- unfold netstack_host_recv. walk flow_calls.
- unfold netstack_host_closed. walk flow_calls.
- unfold netstack_host_reset. walk flow_calls.
- unfold netstack_host_writable. walk flow_calls.
- destruct b; [|by destruct (He dns)]. unfold netstack_set_io. walk fail.
Qed.
End Attached.

(** ** Before a backend is attached *)

Section Detached.
Context (io : NetIo) (F : gmap Z NatFlow).
(** Nothing is live without a backend. *)
Hypothesis HF : forall i f, F !! i = Some f -> nf_state f = TS_FREE.
Definition detached (ns : NetStack) : Prop := (ns_io ns = false /\ ns_null ns = false) /\ ns_flows ns = F.
#[local] Abbreviation ok m := (keeps detached m (fun _ => True)).

Lemma det_rd fr o : ok (rd fr o).
Proof. unfold rd. walk fail. Qed.
Lemma det_rd_bytes fr o n : ok (rd_bytes fr o n).
Proof. unfold rd_bytes. walk fail. Qed.
Lemma det_be16 fr o : ok (be16 fr o).
Proof. unfold be16. walk ltac:(apply det_rd). Qed.
Lemma det_out cap out len : ok (ns_out cap out len).
Proof. unfold ns_out. walk fail. Qed.
(** The services of the gateway; nothing else answers. *)
Ltac gateway := idtac; lazymatch goal with
| |- keeps _ (rd _ _) _ => apply det_rd
| |- keeps _ (rd_bytes _ _ _) _ => apply det_rd_bytes
| |- keeps _ (be16 _ _) _ => apply det_be16
| |- keeps _ (ns_out _ _ _) _ => apply det_out
end.
Lemma det_dhcp fr o tot : ok (handle_dhcp fr o tot).
Proof.
assert (forall fuel o l i, ok (dhcp_scan fuel fr o l i)) as Hs.
{ induction fuel as [|fuel IH]; intros; cbn [dhcp_scan];
    walk ltac:(idtac; lazymatch goal with |- keeps _ (dhcp_scan _ _ _ _ _) _ => apply IH | |- _ => gateway end). }
unfold handle_dhcp, dhcp_msgtype, next_ip_id.
walk ltac:(idtac; lazymatch goal with |- keeps _ (dhcp_scan _ _ _ _ _) _ => apply Hs | |- _ => gateway end).
Qed.
Lemma det_no_flow {A} (m : st NetStack A) (b : bool) a : ok (att ← gets ns_io; if negb att || b then mret a else m).
Proof. intros ns Hd. pose proof Hd as [[H1 _] _]. unfold run, exec. rewrite bind_gets, H1. by split. Qed.
Lemma det_input fr : ok (netstack_input io fr).
Proof.
assert (forall ihl tot, ok (udp_nat io fr ETH_HDR ihl tot)) as Hu by (intros; apply det_no_flow).
assert (forall ihl tot, ok (handle_tcp io fr ETH_HDR ihl tot)) as Ht by (intros; apply det_no_flow).
unfold netstack_input, handle_ip, handle_arp, handle_icmp, handle_udp, next_ip_id. walk ltac:(idtac; lazymatch goal with
  | |- keeps _ (handle_dhcp _ _ _) _ => apply det_dhcp
  | |- keeps _ (handle_tcp _ _ _ _ _) _ => apply Ht
  | |- keeps _ (udp_nat _ _ _ _ _) _ => apply Hu
  | |- _ => gateway
  end).
Qed.
Lemma det_no_id i ns : detached ns -> flow_by_id i ns = None.
Proof.
intros [_ Ef]. unfold flow_by_id, flow. rewrite Ef. destruct (F !! i) as [f|] eqn:E; cbn [default id].
- by rewrite (HF i f E), orb_true_r.
- by rewrite orb_true_r.
Qed.
Lemma det_by_id {A} i (m : NatFlow -> st NetStack A) a :
ok (got ← gets (flow_by_id i); match got with None => mret a | Some f => m f end).
Proof. intros ns Hd. unfold run, exec. rewrite bind_gets, (det_no_id i ns Hd). by split. Qed.
Lemma det_handle e : (forall b dns, e <> SetIo b dns) -> ok (handle io e).
Proof.
destruct e as [fr|i|i d|i|i|i|b dns]; intros He; cbn [handle]; [apply det_input|apply det_by_id..|by destruct (He b dns)].
Qed.
End Detached.

(** ** Over a whole run *)

Definition no_live_flow (ns : NetStack) : Prop := forall i f, ns_flows ns !! i = Some f -> nf_state f = TS_FREE.
(** A backend is attached, or nothing needs one. *)
Definition backed (ns : NetStack) : Prop := attached ns \/ (detached (ns_flows ns) ns /\ no_live_flow ns).

Lemma idle_handle io e ns : (forall b dns, e <> SetIo b dns) -> detached (ns_flows ns) ns -> no_live_flow ns ->
  backed (exec (handle io e) ns).
Proof.
  intros He Hd Hl. destruct (det_handle io (ns_flows ns) Hl e He ns Hd) as [_ [Hf Ef]]. right.
  split; [by split|]. unfold no_live_flow. by rewrite Ef.
Qed.
Lemma backed_handle io e ns : (forall dns, e <> SetIo false dns) -> backed ns -> backed (exec (handle io e) ns).
Proof.
  intros He [Ha|[Hd Hl]]; [left; by apply att_handle|].
  destruct e as [fr|i|i d|i|i|i|[] dns]; [by apply idle_handle..| |by destruct (He dns)].
  left. destruct Hd as [[_ Hn] _]. cbn [handle]. unfold netstack_set_io. rewrite exec_bind, exec_modify. by destruct dns.
Qed.
Lemma backed_after io es : (forall dns, SetIo false dns ∉ es) -> backed (after io es netstack_new).
Proof.
  induction es as [|e es IH] using rev_ind; intros Hs.
  { right. split; [done|]. intros i f E. cbn in E. by rewrite lookup_empty in E. }
  unfold after. rewrite foldl_app. apply backed_handle.
  - intros dns ->. apply (Hs dns), elem_of_app. right. by left.
  - apply IH. intros dns Hd. apply (Hs dns), elem_of_app. by left.
Qed.
Lemma backed_null ns : backed ns -> ns_null ns = false.
Proof. by intros [[_ H]|[[[_ H] _] _]]. Qed.
