(* ===== verification/NetstackThms.v ===== *)
(** * What the network stack guarantees

    Safety against any guest and any host, well-formed replies, in-order delivery, and the
    services of the virtual gateway. *)

From S2P Require Import Prelude Device DeviceInv DeviceThms Netstack NetWire NetstackInv NetStream NetBackend.

(** ** For every guest and every host *)

(** C28 [net_safe]: whatever frames the guest transmits and whatever the host's sockets do, in
    any order, the stack never reads outside a frame, never writes past a reply or stream
    buffer, never sends a byte it has not written, and never has two live flows for the same
    endpoint; and as long as a backend, once attached, is not taken away again, it never
    calls through a missing one. *)
Theorem netstack_safe io es : io_ok io -> Forall event_ok es -> let ns := after io es netstack_new in
  ns_oob ns = false
  /\ (forall i, g2h_len (flow i ns) <= NS_TCP_BUF /\ h2g_len (flow i ns) <= NS_TCP_BUF)
  /\ (forall i j, 0 <= i < NS_NAT_MAX -> 0 <= j < NS_NAT_MAX -> flow_key (flow i ns) <> None ->
        flow_key (flow i ns) = flow_key (flow j ns) -> i = j)
  /\ ((forall dns, SetIo false dns ∉ es) -> ns_null ns = false).
Proof.
  intros Hio He ns. destruct (after_ok io Hio es netstack_new netstack_new_ok He) as [Hs _ _ _ _ Hfl Hu _]. split; [done|].
  split; [|split; [done|intros Hd; by apply backed_null, backed_after]].
  intros i. destruct (Hfl i) as [_ _ _ _ _ _ _ _ _ [_ Hg] [_ Hh]]. by split.
Qed.

(** C31 [net_frames]: every frame the stack hands to the guest is one a receiver accepts: at
    most 1600 bytes from the gateway's address, an ARP frame of the right length (its fields are
    not part of the claim) or an IPv4 packet whose total length is the frame's, whose header checksum verifies, and whose ICMP or TCP checksum
    (with the pseudo-header) or UDP length does. *)
Theorem netstack_frames io es fr : io_ok io -> Forall event_ok es -> NetOut fr ∈ ns_trace (after io es netstack_new) -> wire_ok fr.
Proof. intros Hio He Hf. by apply (no_frames _ (after_ok io Hio es netstack_new netstack_new_ok He)). Qed.

(** C29 [net_stream]: if the guest's segments carry, at each sequence number, the byte of its
    stream with that number, then every live TCP flow was opened by a SYN the guest sent from
    its endpoint (the flow was free before it and has been in use since), and the bytes the
    host has accepted since then, followed by the bytes still buffered, are exactly the
    stream from the sequence number after that SYN up to the next one the stack acknowledges
    (a FIN counts one): nothing lost, duplicated or reordered, whatever the guest retransmits
    and whatever the host accepts. *)
Theorem netstack_stream io gdata es : Forall event_ok es -> (forall fr, Frame fr ∈ es -> honest gdata fr) ->
  let ns := after io es netstack_new in
  forall i, let f := flow i ns in let l := sent_to i (ns_trace ns) ++ default [] (nf_g2h f) in
    nf_state f <> TS_FREE -> nf_proto f = NS_PROTO_TCP ->
    exists syn, opened_by io i es syn /\ is_syn syn /\ let '(e, seq, _) := segment_of syn in
      flow_end f = e /\ l = gbytes gdata e (seq + 1) (length l)
      /\ nf_rcv_nxt f = u32 (seq + 1 + Z.of_nat (length l) + if nf_guest_fin f then 1 else 0).
Proof.
  intros He Hh ns i f l Hl Hp. destruct (after_s io gdata es He Hh) as (start & Hs & Hst).
  destruct (Hs i Hl Hp) as (s & Es & Ed & Er). fold ns f l in Ed, Er, Es. destruct (Hst i _ _ (conj Hl Hp) Es) as (syn & Ho & Hsyn & Hseg).
  exists syn. split; [done|]. split; [done|]. destruct (segment_of syn) as [[e seq] pl]. destruct Hseg as [<- ->].
  split; [done|]. assert (u32 (u32 (seq + 1)) = u32 (seq + 1)) as E1 by (unfold u32; by rewrite wrap_wrap by lia). split.
  - rewrite Ed at 1. by apply gbytes_eqw.
  - rewrite Er. unfold u32. rewrite <- !Z.add_assoc, wrap_add_l by lia. f_equal. lia.
Qed.

(** ** A connection *)

(** A segment of the guest at 10.0.2.15:40000 to 1.2.3.4:80. *)
Definition guest_frame (proto : Z) (l4 : list Z) : list Z :=
  gw_mac ++ [2; 0; 0; 0; 0; 1] ++ [8; 0] ++ [0x45; 0; 0; 20 + Z.of_nat (length l4); 0; 1; 0; 0; 64; proto; 0; 0] ++ guest_ip ++ [1; 2; 3; 4] ++ l4.
Definition guest_segment (seq ack flags : Z) (payload : list Z) : list Z :=
  guest_frame 6 ([0x9c; 0x40; 0; 80] ++ [0; 0; 0; seq] ++ [0; 0; u8 (ack >> 8); u8 ack] ++ [0x50; flags; 0x10; 0; 0; 0; 0; 0] ++ payload).
(** A host that takes at most three bytes at a time. *)
Definition slow_host : NetIo :=
  mkNetIo (fun _ _ _ _ _ => 0) (fun _ _ data => Z.min 3 (Z.of_nat (length data))) (fun _ => true).
Lemma slow_host_ok : io_ok slow_host.
Proof. intros tr i data. cbn. lia. Qed.
(** The stream [101, 102, 103, ..] from sequence number 101 on: five bytes, a segment after
    a gap, the first segment again, then the missing bytes and what followed them. *)
Definition connection : list stack_event :=
  [SetIo true None; Frame (guest_segment 100 0 TCP_SYN []); Connected 0; Frame (guest_segment 101 0x9001 TCP_ACK []);
   Frame (guest_segment 101 0x9001 TCP_ACK [101; 102; 103; 104; 105]); Frame (guest_segment 108 0x9001 TCP_ACK [108; 109]);
   Frame (guest_segment 101 0x9001 TCP_ACK [101; 102; 103; 104; 105]); Frame (guest_segment 106 0x9001 TCP_ACK [106; 107]);
   Writable 0; Frame (guest_segment 108 0x9001 TCP_ACK [108; 109])].

Lemma connection_ok : Forall event_ok connection.
Proof. unfold connection. repeat (apply list.Forall_cons; split; [cbn [event_ok]; first [exact I | by apply bytes_forallb]|]). constructor. Qed.

Lemma netstack_safe_witness : let ns := after slow_host connection netstack_new in ns_oob ns = false /\ ns_null ns = false.
Proof.
  destruct (netstack_safe slow_host connection slow_host_ok connection_ok) as (Ho & _ & _ & Hn). split; [exact Ho|].
  apply Hn. intros dns Hd. unfold connection in Hd. repeat (apply elem_of_cons in Hd as [Hd|Hd]; [discriminate Hd|]).
  by apply not_elem_of_nil in Hd.
Defined.

(** Taking the backend away under a flow with buffered bytes: the next writable event calls
    through [NULL]. *)
Lemma detached_flow_calls_null :
  ns_null (after (mkNetIo (fun _ _ _ _ _ => 0) (fun _ _ _ => 0) (fun _ => true))
    (take 5 connection ++ [SetIo false None; Writable 0]) netstack_new) = true.
Proof. vm_compute. reflexivity. Qed.

(** The SYN-ACK the guest gets. *)
Definition handshake : list stack_event := take 3 connection.
Definition synack : list Z := match ns_trace (after slow_host handshake netstack_new) with NetOut f :: _ => f | _ => [] end.
Lemma netstack_frames_witness : u16_at synack 34 = 80 /\ nth 47 synack 0 = 0x12 /\ length synack = 58%nat /\ wire_ok synack.
Proof.
  split; [vm_compute; reflexivity|]. split; [vm_compute; reflexivity|]. split; [vm_compute; reflexivity|].
  apply (netstack_frames slow_host handshake synack slow_host_ok).
  - apply Forall_take, connection_ok.
  - assert (exists tr, ns_trace (after slow_host handshake netstack_new) = NetOut synack :: tr) as [tr E]
      by (eexists; vm_compute; reflexivity). rewrite E. by left.
Defined.

Definition counting (e : endpoint) (s : Z) : Z := s mod 256.
Lemma connection_honest fr : Frame fr ∈ connection -> honest counting fr.
Proof.
  intros Hf. assert (Forall (fun e => match e with Frame fr => honest counting fr | _ => True end) connection) as H.
  { unfold connection. repeat (apply list.Forall_cons; split; [first [exact I | intros _; vm_compute; reflexivity]|]). constructor. }
  exact (proj1 (list.Forall_forall _ _) H _ Hf).
Qed.
Lemma netstack_stream_witness : let ns := after slow_host connection netstack_new in
  sent_to 0 (ns_trace ns) = [101; 102; 103; 104; 105; 106; 107; 108; 109]
  /\ exists syn, opened_by slow_host 0 connection syn /\ is_syn syn /\ flow_end (flow 0 ns) = (segment_of syn).1.1.
Proof.
  intros ns. split; [vm_compute; reflexivity|].
  pose proof (netstack_stream slow_host counting connection connection_ok connection_honest 0) as H. cbv zeta in H. fold ns in H.
  assert (nf_state (flow 0 ns) <> TS_FREE) as H1 by (vm_compute; discriminate).
  assert (nf_proto (flow 0 ns) = NS_PROTO_TCP) as H2 by (vm_compute; reflexivity). destruct (H H1 H2) as (syn & Ho & Hs & Hseg).
  exists syn. split; [exact Ho|]. split; [exact Hs|]. destruct (segment_of syn) as [[e seq] pl]. exact (proj1 Hseg).
Defined.
