(* ===== verification/NetFlush.v ===== *)
(** * Data from the host reaches the guest

    What [tcp_flush_h2g] sends: the buffered bytes in order, in segments with consecutive
    sequence numbers, as far as the guest's window reaches, and the FIN when they are out. *)

From S2P Require Import Prelude Device DeviceInv DeviceThms Netstack NetWire NetstackInv NetStream.

(** ** The fields of a segment to the guest *)

Record segment := mkSegment { sg_sport : Z; sg_dport : Z; sg_seq : Z; sg_ack : Z; sg_flags : Z; sg_data : list Z }.
Definition segment_in (fr : list Z) : segment :=
  mkSegment (w16 fr 34) (w16 fr 36) (w32 fr 38) (w32 fr 42) (nth 47 fr 0) (part fr 54 (length fr - 54)).

Lemma w16_slice a n o : 0 <= o -> o + 2 <= Z.of_nat n -> w16 (slice a 0 n) o = a.[o] * 256 + a.[o + 1].
Proof. intros. unfold w16. rewrite !nth_slice, !Z2Nat.id by lia. done. Qed.
Lemma w32_slice a n o : 0 <= o -> o + 4 <= Z.of_nat n ->
  w32 (slice a 0 n) o = (a.[o] * 256 + a.[o + 1]) * 65536 + (a.[o + 2] * 256 + a.[o + 3]).
Proof. intros. unfold w32. rewrite !w16_slice by lia. by replace (o + 2 + 1) with (o + 3) by lia. Qed.
Lemma get_put_be32 o v a : rng 32 v -> let b := put_be32 o v a in
  (b.[o] * 256 + b.[o + 1]) * 65536 + (b.[o + 2] * 256 + b.[o + 3]) = v.
Proof.
  intros Hv b. unfold b, put_be32. read_wire. unfold u8. rewrite !wrap_mod, !Z.shiftr_div_pow2 by lia. unfold rng in Hv.
  change (2 ^ 8) with 256. change (2 ^ 16) with 65536. change (2 ^ 24) with 16777216. change (2 ^ 32) with 4294967296 in Hv.
  Z.div_mod_to_equations. lia.
Qed.

Lemma tcp_frame_segment f mac id flags payload : flow_ok f -> length mac = 6%nat ->
  segment_in (slice (tcp_buffer f mac id flags payload) 0 (54 + length payload))
  = mkSegment (nf_face_port f) (nf_guest_port f) (nf_snd_nxt f) (nf_rcv_nxt f) flags payload.
Proof.
  intros Hf Hm. destruct Hf as [[Hfa _] _ Hgp Hfp _ Hsn _ Hrn _ _ _]. unfold segment_in. rewrite length_slice.
  unfold tcp_buffer, tcp_header, ETH_HDR. set (c := l4_csum _ _ _ _). clearbody c. set (hdr := ip_header _ _ _ _ _ _ _). clearbody hdr. cbv zeta.
  rewrite !w16_slice, !w32_slice, nth_slice, part_slice by lia. change (Z.of_nat 47) with 47. change (Z.of_nat 54) with 54.
  f_equal.
  - etransitivity; [|exact (get_put_be16 34 (nf_face_port f) hdr Hfp)]. unfold put_be16, put_be32. by read_wire.
  - etransitivity; [|exact (get_put_be16 36 (nf_guest_port f) hdr Hgp)]. unfold put_be16, put_be32. by read_wire.
  - etransitivity; [|exact (get_put_be32 38 (nf_snd_nxt f) hdr Hsn)]. cbv zeta. unfold put_be16, put_be32. by read_wire.
  - etransitivity; [|exact (get_put_be32 42 (nf_rcv_nxt f) hdr Hrn)]. cbv zeta. unfold put_be16, put_be32. by read_wire.
  - unfold put_be16, put_be32. by read_wire.
  - unfold put_be16. read_wire. by replace (54 + length payload - 54)%nat with (length payload) by lia.
Qed.

(** ** Runs of segments *)

(** The frames carry the bytes [l], in order and without gaps, from the sequence number [seq]. *)
Inductive delivers (sport dport ack : Z) : Z -> list (list Z) -> list Z -> Prop :=
| delivers_nil seq : delivers sport dport ack seq [] []
| delivers_cons seq fr frs l l' : wire_ok fr -> l <> [] ->
    segment_in fr = mkSegment sport dport seq ack TCP_ACK l ->
    delivers sport dport ack (u32 (seq + Z.of_nat (length l))) frs l' ->
    delivers sport dport ack seq (fr :: frs) (l ++ l').

Definition inflight (f : NatFlow) : Z := u32 (nf_snd_nxt f - nf_snd_una f).
Definition h2g_bytes (f : NatFlow) : list Z := default [] (nf_h2g f).

(** A flow of which the first [n] buffered bytes have been sent. *)
Definition advanced (n : nat) (f : NatFlow) : NatFlow :=
  set_nf_h2g (drop n <$> nf_h2g f) (set_nf_snd_nxt (u32 (nf_snd_nxt f + Z.of_nat n)) f).

Lemma advanced_0 f : rng 32 (nf_snd_nxt f) -> advanced 0 f = f.
Proof. intros H. unfold advanced. rewrite Z.add_0_r. unfold u32. rewrite wrap_small by done. destruct f; cbn. by destruct nf_h2g. Qed.
Lemma advanced_add n m f : advanced m (advanced n f) = advanced (n + m) f.
Proof.
  assert (u32 (u32 (nf_snd_nxt f + Z.of_nat n) + Z.of_nat m) = u32 (nf_snd_nxt f + Z.of_nat (n + m))) as E.
  { unfold u32. rewrite wrap_add_l by lia. f_equal. lia. }
  unfold advanced. destruct f; cbn in *. rewrite E. destruct nf_h2g as [b|]; cbn; [|done]. by rewrite drop_drop.
Qed.
Lemma advanced_bytes n f : h2g_bytes (advanced n f) = drop n (h2g_bytes f).
Proof. unfold h2g_bytes, advanced. cbn. destruct (nf_h2g f); cbn; [done|by rewrite drop_nil]. Qed.
Lemma advanced_inflight n f : flow_ok f -> inflight f + Z.of_nat n <= nf_guest_wnd f -> inflight (advanced n f) = inflight f + Z.of_nat n.
Proof.
  intros Hf Hn. unfold inflight, advanced in *. cbn. unfold u32 in *. rewrite wrap_sub_l by lia.
  replace (nf_snd_nxt f + Z.of_nat n - nf_snd_una f) with (nf_snd_nxt f - nf_snd_una f + Z.of_nat n) by lia.
  rewrite <- wrap_add_l by lia. pose proof (fo_wnd _ Hf). pose proof (wrap_range 32 (nf_snd_nxt f - nf_snd_una f) ltac:(lia)).
  apply wrap_small; [lia|]. unfold rng in *. lia.
Qed.

(** From [ns] to [ns'] the flow [i] sent the frames [frs], which carry the bytes [l] of its
    buffer; the window was never exceeded. *)
Record flushed (i : Z) (ns ns' : NetStack) (frs : list (list Z)) (l : list Z) : Prop := {
  fl_ok : ns_ok ns';
  fl_trace : ns_trace ns' = rev (map NetOut frs) ++ ns_trace ns;
  fl_segments : delivers (nf_face_port (flow i ns)) (nf_guest_port (flow i ns)) (nf_rcv_nxt (flow i ns)) (nf_snd_nxt (flow i ns)) frs l;
  fl_flow : flow i ns' = advanced (length l) (flow i ns);
  fl_bytes : h2g_bytes (flow i ns) = l ++ h2g_bytes (flow i ns');
  fl_window : l <> [] -> inflight (flow i ns') <= nf_guest_wnd (flow i ns)
}.
Lemma flushed_nil i ns : ns_ok ns -> flushed i ns ns [] [].
Proof.
  intros Hn. constructor; try done; [constructor|].
  cbn [length]. by rewrite advanced_0 by apply (no_flows _ Hn i).
Qed.
Lemma flushed_app i ns0 ns1 ns2 frs0 frs1 l0 l1 : l0 <> [] -> (exists fr, frs0 = [fr]) ->
  flushed i ns0 ns1 frs0 l0 -> flushed i ns1 ns2 frs1 l1 -> flushed i ns0 ns2 (frs0 ++ frs1) (l0 ++ l1).
Proof.
  intros Hl [fr ->] [O0 T0 S0 F0 B0 W0] [O1 T1 S1 F1 B1 W1]. constructor.
  - done.
  - rewrite T1, T0, map_app, rev_app_distr. by rewrite app_assoc.
  - inversion S0 as [|? ? ? ? ? Hw Hne Hs Hd]; subst. inversion Hd; subst. rewrite app_nil_r in *. cbn [app].
    eapply delivers_cons; [done|done|done|]. rewrite F0 in S1. exact S1.
  - rewrite F1, F0, advanced_add. by rewrite length_app.
  - rewrite B0, B1. by rewrite app_assoc.
  - intros _. destruct l1 as [|x l1].
    + rewrite F1. cbn [length]. rewrite advanced_0 by apply (no_flows _ O0 i). by apply W0.
    + rewrite W1 by done. by rewrite F0.
Qed.

(** ** The loop *)

Lemma trace_upd i g ns : ns_trace (upd_flow i g ns) = ns_trace ns.
Proof. done. Qed.
Lemma advance_step n : flow_step (advanced n).
Proof.
  intros f Hf. split; [|by left]. destruct (fo_h2g _ Hf) as [Hb Hl]. unfold h2g_len in Hl.
  destruct Hf. constructor; try done; [apply u32_rng|]. unfold h2g_len, advanced. cbn.
  destruct (nf_h2g f) as [b|]; cbn in *; [|done]. split; [by apply Forall_drop|]. rewrite length_drop. lia.
Qed.
Lemma upd_advance i n buf ns : nf_h2g (flow i ns) = Some buf ->
  upd_flow i (fun f => set_nf_h2g (Some (drop n buf)) f) (upd_flow i (fun f => set_nf_snd_nxt (u32 (nf_snd_nxt f + Z.of_nat n)) f) ns)
  = upd_flow i (advanced n) ns.
Proof.
  intros E. unfold upd_flow at 1. rewrite flow_upd, decide_True by done. unfold upd_flow, advanced. cbn. rewrite E.
  by rewrite insert_insert_eq.
Qed.

(** One segment of [n] bytes. *)
Definition send_chunk (i : Z) (n : nat) (buf : list Z) : st NetStack unit :=
  tcp_out i TCP_ACK (take n buf) ;;
  modify (upd_flow i (fun f => set_nf_snd_nxt (u32 (nf_snd_nxt f + Z.of_nat n)) f)) ;;
  modify (upd_flow i (fun f => set_nf_h2g (Some (drop n buf)) f)).
Lemma send_chunk_flushed i n buf ns : ns_ok ns -> nf_h2g (flow i ns) = Some buf -> (0 < n <= length buf)%nat ->
  Z.of_nat n <= NS_TCP_MSS -> inflight (flow i ns) + Z.of_nat n <= nf_guest_wnd (flow i ns) ->
  exists fr, flushed i ns (exec (send_chunk i n buf) ns) [fr] (take n buf).
Proof.
  intros Hn Eb Hl Hm Hw. pose proof (no_flows _ Hn i) as Hf. destruct (fo_h2g _ Hf) as [Hb _]. rewrite Eb in Hb. change (bytes buf) in Hb.
  pose proof (length_take_le buf n ltac:(lia)) as Ln. pose proof (Forall_take _ n _ Hb : bytes (take n buf)) as Hbn.
  assert (rng 8 TCP_ACK) as Ha by (by apply rng_const). destruct (no_mac _ Hn) as [Lm Bm].
  assert (Z.of_nat (length (take n buf)) <= NS_TCP_MSS) as Hm' by lia.
  destruct (keep_tcp_out i _ _ Ha Hbn Hm' ns Hn) as [_ H1].
  pose proof (tcp_out_eq i _ _ ns Hn Ha Hbn Hm') as Eo. pose proof (tcp_frame_segment _ (ns_guest_mac ns) (ns_ip_id ns) TCP_ACK (take n buf) Hf Lm) as Hs.
  unfold exec in H1. rewrite Eo in H1. set (fr := slice _ 0 _) in *. clearbody fr. set (ns1 := set_ns_ip_id _ ns) in *. exists fr.
  replace (exec (send_chunk i n buf) ns) with (upd_flow i (advanced n) (ns_event (NetOut fr) ns1)).
  2: { unfold send_chunk, exec. rewrite bind_run. unfold exec. rewrite Eo. cbn [snd]. rewrite bind_modify. symmetry. by apply upd_advance. }
  assert (flow i (upd_flow i (advanced n) (ns_event (NetOut fr) ns1)) = advanced n (flow i ns)) as Ef by (by rewrite flow_upd, decide_True).
  constructor; rewrite ?Ef, ?Ln.
  - by apply keep_upd_flow; [apply advance_step|].
  - done.
  - rewrite <- (app_nil_r (take n buf)). apply delivers_cons; [by apply (no_frames _ H1), list_elem_of_here| |exact Hs|constructor].
    intros E. rewrite E in Ln. cbn in Ln. lia.
  - done.
  - rewrite advanced_bytes. unfold h2g_bytes. rewrite Eb. cbn. by rewrite take_drop.
  - intros _. by rewrite advanced_inflight.
Qed.

(** Nothing is left to send, or the window is full. *)
Definition flush_stops (f : NatFlow) : Prop := h2g_bytes f = [] \/ nf_guest_wnd f <= inflight f.

(** As many rounds as there are buffered bytes, and one more, reach the end of the loop. *)
Lemma flush_loop_done i fuel ns : ns_ok ns -> (length (h2g_bytes (flow i ns)) < fuel)%nat ->
  exists frs l, flushed i ns (exec (flush_loop fuel i) ns) frs l /\ flush_stops (flow i (exec (flush_loop fuel i) ns)).
Proof.
  revert ns. induction fuel as [|fuel IH]; intros ns Hn Hl; [lia|]. cbn [flush_loop]. unfold exec. rewrite bind_gets.
  assert (forall P, flush_stops (flow i ns) -> P = (tt, ns) -> exists frs l, flushed i ns (snd P) frs l /\ flush_stops (flow i (snd P))) as Hstop.
  { intros P Hs ->. exists [], []. split; [by apply flushed_nil|done]. }
  destruct (nf_h2g (flow i ns)) as [buf|] eqn:Eb; [|by apply Hstop; [left; unfold h2g_bytes; rewrite Eb|]].
  assert (h2g_bytes (flow i ns) = buf) as Ebb by (unfold h2g_bytes; by rewrite Eb).
  assert (h2g_len (flow i ns) = Z.of_nat (length buf)) as El by (unfold h2g_len; by rewrite Eb). rewrite El.
  destruct (Z.eqb_spec (Z.of_nat (length buf)) 0) as [E0|E0]; [apply Hstop; [left; rewrite Ebb; apply nil_length_inv; lia|done]|].
  cbv zeta. change (u32 (nf_snd_nxt (flow i ns) - nf_snd_una (flow i ns))) with (inflight (flow i ns)).
  destruct (Z.leb_spec (nf_guest_wnd (flow i ns)) (inflight (flow i ns))) as [Hw|Hw]; [apply Hstop; [by right|done]|]. clear Hstop.
  assert (u32 (nf_guest_wnd (flow i ns) - inflight (flow i ns)) = nf_guest_wnd (flow i ns) - inflight (flow i ns)) as ->.
  { pose proof (fo_wnd _ (no_flows _ Hn i)). pose proof (u32_rng (nf_snd_nxt (flow i ns) - nf_snd_una (flow i ns))) as Hr.
    change (rng 32 (inflight (flow i ns))) in Hr. apply wrap_small; [lia|]. unfold rng in *. lia. }
  set (c0 := if _ <? Z.of_nat (length buf) then _ else _). set (c := if NS_TCP_MSS <? c0 then _ else _).
  assert (0 < c /\ c <= Z.of_nat (length buf) /\ c <= NS_TCP_MSS /\ inflight (flow i ns) + c <= nf_guest_wnd (flow i ns)) as (Hc0 & Hc1 & Hc2 & Hc3).
  { unfold c, c0. change NS_TCP_MSS with 1460. destruct (_ <? Z.of_nat _) eqn:?, (1460 <? _) eqn:?; lia. }
  clearbody c. clear c0. assert (c = Z.of_nat (Z.to_nat c)) as Ec by lia. set (n := Z.to_nat c) in *. clearbody n. subst c.
  destruct (send_chunk_flushed i n buf ns Hn Eb) as [fr Hfr]; [lia..|].
  destruct (IH _ (fl_ok _ _ _ _ _ Hfr)) as (frs & l & Hfs & Hst).
  { rewrite (fl_flow _ _ _ _ _ Hfr), advanced_bytes, Ebb, length_drop, length_take. rewrite Ebb in Hl. lia. }
  exists ([fr] ++ frs), (take n buf ++ l).
  assert (snd ((tcp_out i TCP_ACK (take n buf);; modify (upd_flow i (fun f => set_nf_snd_nxt (u32 (nf_snd_nxt f + Z.of_nat n)) f));;
    modify (upd_flow i (fun f => set_nf_h2g (Some (drop n buf)) f));; flush_loop fuel i) ns)
    = exec (flush_loop fuel i) (exec (send_chunk i n buf) ns)) as ->.
  { unfold send_chunk, exec. by rewrite !bind_run. }
  split; [|done]. eapply flushed_app; [|by eexists|done|done]. intros E%(f_equal length). rewrite length_take in E. cbn in E. lia.
Qed.

(** ** The whole flush *)

(** The FIN: sent once, when the host has closed and everything buffered is out. *)
Definition fin_due (f : NatFlow) : bool := nf_host_eof f && (h2g_len f =? 0) && negb (nf_fin_sent f).
Definition fin_segment (f : NatFlow) : segment :=
  mkSegment (nf_face_port f) (nf_guest_port f) (nf_snd_nxt f) (nf_rcv_nxt f) (TCP_FIN .| TCP_ACK) [].
Definition fin_gone (f : NatFlow) : NatFlow := set_nf_fin_sent true (set_nf_snd_nxt (u32 (nf_snd_nxt f + 1)) f).

Lemma fin_frame i ns : ns_ok ns -> exists fr, wire_ok fr /\ segment_in fr = fin_segment (flow i ns) /\
  let ns' := exec (tcp_out i (u8 (TCP_FIN .| TCP_ACK)) [] ;;
    modify (upd_flow i fin_gone)) ns in
  ns_trace ns' = NetOut fr :: ns_trace ns /\
  flow i ns' = fin_gone (flow i ns).
Proof.
  intros Hn. assert (rng 8 (u8 (TCP_FIN .| TCP_ACK))) as Ha by apply u8_rng.
  destruct (keep_tcp_bare i _ Ha ns Hn) as [_ H1]. pose proof (tcp_out_eq i _ [] ns Hn Ha (Forall_nil_2 _) ltac:(done)) as Eo.
  pose proof (tcp_frame_segment _ (ns_guest_mac ns) (ns_ip_id ns) (u8 (TCP_FIN .| TCP_ACK)) [] (no_flows _ Hn i) (proj1 (no_mac _ Hn))) as Hs.
  unfold exec in H1. rewrite Eo in H1. set (fr := slice _ 0 _) in *. clearbody fr. set (ns1 := set_ns_ip_id _ ns) in *. exists fr.
  split; [by apply (no_frames _ H1), list_elem_of_here|]. split; [exact Hs|]. cbv zeta. unfold exec. rewrite bind_run. unfold exec. rewrite Eo.
  cbn [snd]. split; [done|]. change (snd (modify ?f ?s)) with (f s). by rewrite flow_upd, decide_True.
Qed.


(** A connection with four buffered bytes, a window of three and a host that has closed. *)
Definition tight : NatFlow :=
  set_nf_state TS_ESTAB (set_nf_snd_nxt 0xfffffffe (set_nf_snd_una 0xfffffffe (set_nf_guest_wnd 3
    (set_nf_host_eof true (set_nf_h2g (Some [11; 22; 33; 44]) NatFlow0))))).
Definition tight_stack : NetStack := upd_flow 0 (fun _ => tight) netstack_new.
Lemma tight_stack_ok : ns_ok tight_stack.
Proof.
  apply upd_flow_ok; [apply netstack_new_ok| |].
  - constructor; try (by apply rng_const); try (split; [done|by apply bytes_forallb]); try (split; [by apply bytes_forallb|done]); by vm_compute.
  - intros j _ Hj Hne _ E. unfold flow in E. cbn in E. rewrite lookup_empty in E. by vm_compute in E.
Qed.
