(* ===== verification/CLib.v ===== *)
(** * The C library on strings

    The functions of [string.h], [stdlib.h] and [stdio.h] the hosts of the engine use, on the
    characters of a C string (without its terminator). *)

From S2P Require Import Prelude Dtb.

(** ** Characters *)

Definition isspace (c : Z) : bool := (c =? 32) || ((9 <=? c) && (c <=? 13)).
(** The value of a digit in any base up to 36; 99 for any other character. *)
Definition digit_val (c : Z) : Z :=
  if (48 <=? c) && (c <=? 57) then c - 48
  else if (97 <=? c) && (c <=? 122) then c - 97 + 10
  else if (65 <=? c) && (c <=? 90) then c - 65 + 10
  else 99.
Definition is_digit (base c : Z) : bool := digit_val c <? base.

(** ** Searching and comparing *)

Fixpoint take_while {A} (p : A -> bool) (l : list A) : list A :=
  match l with [] => [] | x :: l => if p x then x :: take_while p l else [] end.
Definition drop_while {A} (p : A -> bool) (l : list A) : list A := drop (length (take_while p l)) l.
(** The C string in an array of characters: up to the first NUL. *)
Definition c_string (l : list Z) : list Z := take_while (fun c => negb (c =? 0)) l.
(** [strncmp(s, pre, strlen(pre)) == 0] *)
Fixpoint starts_with (pre s : list Z) : bool :=
  match pre, s with
  | [], _ => true
  | p :: pre, c :: s => (p =? c) && starts_with pre s
  | _, [] => false
  end.
(** [strcmp(a, b) == 0] *)
Definition streq (a b : list Z) : bool := bool_decide (a = b).
(** [strstr(s, sub) != NULL] *)
Fixpoint contains (sub s : list Z) : bool :=
  starts_with sub s || match s with [] => false | _ :: s => contains sub s end.
(** [strchr(s, c) - s] *)
Fixpoint index_of (c : Z) (s : list Z) : option nat :=
  match s with [] => None | x :: s => if x =? c then Some 0%nat else S <$> index_of c s end.

(** ** Numbers *)

Definition ULONG_MAX : Z := 2 ^ 64 - 1.
Definition digits_val (base : Z) (ds : list Z) : Z := foldl (fun v c => v * base + digit_val c) 0 ds.
(** Whether a [0x] prefix belongs to the number: it does when a hexadecimal digit follows. *)
Definition hex_prefix (s : list Z) : bool :=
  match s with z :: x :: d :: _ => (z =? 48) && ((x =? 120) || (x =? 88)) && is_digit 16 d | _ => false end.
Definition number_base (base : Z) (s : list Z) : Z * nat :=
  if ((base =? 0) || (base =? 16)) && hex_prefix s then (16, 2%nat)
  else if base =? 0 then (match s with z :: _ => if z =? 48 then 8 else 10 | [] => 10 end, 0%nat)
  else (base, 0%nat).
(** The value, saturated at [ULONG_MAX], and how many characters were consumed ([*endptr - s]):
    none when there is no number. *)
Definition strtoul (base : Z) (s : list Z) : Z * nat :=
  let ws := length (take_while isspace s) in
  let s1 := drop ws s in
  let '(neg, sg) := match s1 with c :: _ => if c =? 45 then (true, 1%nat) else if c =? 43 then (false, 1%nat) else (false, 0%nat) | [] => (false, 0%nat) end in
  let s2 := drop sg s1 in
  let '(b, pre) := number_base base s2 in
  let ds := take_while (is_digit b) (drop pre s2) in
  if (length ds =? 0)%nat then (0, 0%nat)
  else
    let v := digits_val b ds in
    (if ULONG_MAX <? v then ULONG_MAX else if neg : bool then u64 (- v) else v, (ws + sg + pre + length ds)%nat).

(** ** Printing *)

(** The digits of [v] in [base], at least [width] of them. *)
Definition digit_char (d : Z) : Z := if d <? 10 then 48 + d else 97 + (d - 10).
Fixpoint print_digits (fuel : nat) (base v : Z) (acc : list Z) : list Z :=
  match fuel with
  | O => acc
  | S fuel => let acc := digit_char (v mod base) :: acc in if v / base =? 0 then acc else print_digits fuel base (v / base) acc
  end.
Definition pad (width : nat) (fill : Z) (l : list Z) : list Z := repeat fill (width - length l) ++ l.
(** [%lx], [%02x], [%d] of a value of at most 64 bits: twenty digits always suffice. *)
Definition fmt_x (v : Z) : list Z := print_digits 20 16 v [].
Definition fmt_02x (v : Z) : list Z := pad 2 48 (fmt_x v).
Definition fmt_u (v : Z) : list Z := print_digits 20 10 v [].
Definition fmt_d (v : Z) : list Z := if v <? 0 then 45 :: fmt_u (- v) else fmt_u v.
(** [snprintf] into [n] bytes keeps what fits before the terminator. *)
Definition snprintf (n : Z) (text : list Z) : list Z := take (Z.to_nat (n - 1)) text.

(** ** Printing and reading back *)

Lemma take_while_app {A} (p : A -> bool) l c r : forallb p l = true -> p c = false -> take_while p (l ++ c :: r) = l.
Proof.
  intros H Hc. induction l as [|x l IH]; cbn; [by rewrite Hc|]. cbn in H. apply andb_true_iff in H as [-> H]. by rewrite IH.
Qed.
Lemma take_while_all {A} (p : A -> bool) l : forallb p l = true -> take_while p l = l.
Proof. induction l as [|x l IH]; cbn; [done|]. intros [-> H]%andb_true_iff. by rewrite IH. Qed.

Lemma digits_val_cons base d l : digits_val base (d :: l) = digit_val d * base ^ Z.of_nat (length l) + digits_val base l.
Proof.
  assert (forall l v, foldl (fun v c => v * base + digit_val c) v l = v * base ^ Z.of_nat (length l) + digits_val base l) as H.
  { clear. induction l as [|c l IH]; intros v; cbn [foldl length]; [unfold digits_val; cbn; lia|].
    change (digits_val base (c :: l)) with (foldl (fun v c => v * base + digit_val c) (0 * base + digit_val c) l).
    rewrite !IH, Nat2Z.inj_succ, Z.pow_succ_r by lia. ring. }
  unfold digits_val at 1. cbn [foldl]. rewrite H. ring.
Qed.
Lemma digit_char_val d : 0 <= d < 36 -> digit_val (digit_char d) = d.
Proof.
  intros H. unfold digit_char, digit_val. destruct (Z.ltb_spec d 10).
  - rewrite (proj2 (Z.leb_le 48 _)), (proj2 (Z.leb_le _ 57)) by lia. cbn. lia.
  - rewrite (proj2 (Z.leb_gt _ 57)) by lia. rewrite andb_false_r, (proj2 (Z.leb_le 97 _)), (proj2 (Z.leb_le _ 122)) by lia. cbn. lia.
Qed.
Section Print.
Context (base : Z) (Hb : 2 <= base <= 36).
Lemma print_digits_val fuel : forall v acc, 0 <= v < base ^ Z.of_nat fuel -> 
digits_val base (print_digits fuel base v acc) = v * base ^ Z.of_nat (length acc) + digits_val base acc.
Proof.
induction fuel as [|fuel IH]; intros v acc Hv; cbn [print_digits]; [cbn in Hv; lia|].
assert (0 <= v mod base < base) by (apply Z.mod_pos_bound; lia). pose proof (Z.div_mod v base ltac:(lia)) as E.
assert (0 <= v / base) by (apply Z.div_pos; lia).
destruct (Z.eqb_spec (v / base) 0) as [E0|E0].
- rewrite digits_val_cons, digit_char_val by lia. rewrite E0 in E. by replace (v mod base) with v by lia.
- rewrite IH, digits_val_cons, digit_char_val by (rewrite ?Nat2Z.inj_succ, ?Z.pow_succ_r in Hv by lia; split; [lia|]; try lia; apply Z.div_lt_upper_bound; lia).
  cbn [length]. rewrite Nat2Z.inj_succ, Z.pow_succ_r by lia. rewrite E at 3. ring.
Qed.
Lemma print_digits_are fuel : forall v acc, 0 <= v -> forallb (is_digit base) acc = true -> forallb (is_digit base) (print_digits fuel base v acc) = true.
Proof.
induction fuel as [|fuel IH]; intros v acc Hv Ha; cbn [print_digits]; [done|].
assert (0 <= v mod base < base) by (apply Z.mod_pos_bound; lia).
assert (is_digit base (digit_char (v mod base)) = true) as Hd by (unfold is_digit; rewrite digit_char_val by lia; apply Z.ltb_lt; lia).
assert (forallb (is_digit base) (digit_char (v mod base) :: acc) = true) by (cbn [forallb]; by rewrite Hd, Ha).
destruct (_ =? 0); [done|]. apply IH; [apply Z.div_pos; lia|done].
Qed.
Lemma print_digits_nonempty fuel : forall v acc, (0 < fuel)%nat \/ acc <> [] -> print_digits fuel base v acc <> [].
Proof.
induction fuel as [|fuel IH]; intros v acc H; cbn [print_digits]; [destruct H; [lia|done]|].
destruct (_ =? 0); [done|]. apply IH. by right.
Qed.
End Print.

(** A number printed in hexadecimal and followed by a character that is not a digit (or the
    end of the string) is read back. *)
Lemma strtoul_digits ds r : ds <> [] -> forallb (is_digit 16) ds = true -> (match r with c :: _ => is_digit 16 c = false /\ c <> 120 /\ c <> 88 | [] => True end) ->
  digits_val 16 ds <= ULONG_MAX -> strtoul 16 (ds ++ r) = (digits_val 16 ds, length ds).
Proof.
  intros Hne Hd Hr Hv.
  assert (forall c, is_digit 16 c = true -> isspace c = false /\ c <> 45 /\ c <> 43 /\ c <> 120 /\ c <> 88) as Hc.
  { intros c H. unfold is_digit, digit_val, isspace in *. 
    destruct (Z.leb_spec 48 c), (Z.leb_spec c 57), (Z.leb_spec 97 c), (Z.leb_spec c 122), (Z.leb_spec 65 c), (Z.leb_spec c 90); cbn in *; try discriminate;
      try (apply Z.ltb_lt in H; lia); destruct (Z.eqb_spec c 32), (Z.leb_spec 9 c), (Z.leb_spec c 13); cbn; repeat split; try lia; done. }
  assert (take_while (is_digit 16) (ds ++ r) = ds) as Et.
  { destruct r as [|c r]; [rewrite app_nil_r; by apply take_while_all|apply take_while_app; [done|apply Hr]]. }
  assert (hex_prefix (ds ++ r) = false) as Ep.
  { destruct ds as [|d0 [|d1 ds]]; [done| |].
    - cbn. destruct r as [|c [|d r]]; [done..|]. destruct Hr as (_ & ? & ?). rewrite (proj2 (Z.eqb_neq c 120)), (proj2 (Z.eqb_neq c 88)) by done.
      by rewrite andb_false_r.
    - cbn in Hd. apply andb_true_iff in Hd as [_ [Hd _]%andb_true_iff]. destruct (Hc _ Hd) as (_ & _ & _ & ? & ?).
      cbn. rewrite (proj2 (Z.eqb_neq d1 120)), (proj2 (Z.eqb_neq d1 88)) by done. rewrite andb_false_r. by destruct (ds ++ r). }
  unfold strtoul. destruct ds as [|d ds]; [done|]. cbn in Hd. apply andb_true_iff in Hd as [Hd _]. destruct (Hc _ Hd) as (Hs & H1 & H2 & _).
  cbn [app] in *. assert (take_while isspace (d :: ds ++ r) = []) as -> by (cbn [take_while]; by rewrite Hs). cbn [length drop]. rewrite (proj2 (Z.eqb_neq d 45)), (proj2 (Z.eqb_neq d 43)) by done. cbn [drop].
  unfold number_base. rewrite Ep, andb_false_r. change (16 =? 0) with false. cbn [drop]. rewrite Et. cbn [length Nat.eqb].
  rewrite (proj2 (Z.ltb_ge ULONG_MAX _)) by done. done.
Qed.
Lemma strtoul_fmt_x v r : rng 64 v -> (match r with c :: _ => is_digit 16 c = false /\ c <> 120 /\ c <> 88 | [] => True end) ->
  strtoul 16 (fmt_x v ++ r) = (v, length (fmt_x v)).
Proof.
  intros Hv Hr. unfold rng in Hv. assert (digits_val 16 (fmt_x v) = v) as E.
  { unfold fmt_x. rewrite print_digits_val; [cbn; lia|lia|]. split; [lia|]. eapply Z.lt_le_trans; [apply Hv|]. by vm_compute. }
  rewrite strtoul_digits; [by rewrite E| | |done|rewrite E; unfold ULONG_MAX; lia].
  - apply print_digits_nonempty. left. lia.
  - apply print_digits_are; [lia|lia|done].
Qed.
