(* ===== verification/Gdb.v ===== *)
(** * The GDB stub

    The remote-protocol server of [gdbstub.c]: framing, the packet handlers, breakpoints,
    checkpoints and reverse execution, and the session loop, over the engine's public
    interface.

    The socket is the environment: what [recv] will return, in order, what [send] and
    [select] will answer.  Every finite session is such a script; when it ends [recv] reports
    the end of the stream, [send] takes everything and [select] finds nothing to read. *)

From Stdlib Require Import Strings.String.
From S2P Require Import Prelude Device Memory Cache Cpu Mmu See Trap Step Elf Dtb Engine CLib.

(** ** Constants *)

(** [src/gdbstub.c 35-35] GDB_BUFSZ *)
Definition GDB_BUFSZ : Z := 8192.
(** [src/gdbstub.c 36-36] GDB_MAX_PAYLOAD *)
Definition GDB_MAX_PAYLOAD : Z := (GDB_BUFSZ - 16) / 2.
(** [src/gdbstub.c 37-37] GDB_MAX_BP *)
Definition GDB_MAX_BP : Z := 128.
(** [src/gdbstub.c 38-38] GDB_MAX_CP *)
Definition GDB_MAX_CP : Z := 33.
(** [src/gdbstub.c 39-39] GDB_CP_INTERVAL *)
Definition GDB_CP_INTERVAL : Z := 4096.
(** [src/gdbstub.c 42-42] SIG_INT *)
Definition SIG_INT : Z := 2.
(** [src/gdbstub.c 43-43] SIG_ILL *)
Definition SIG_ILL : Z := 4.
(** [src/gdbstub.c 44-44] SIG_TRAP *)
Definition SIG_TRAP : Z := 5.
(** [src/gdbstub.c 45-45] SIG_SEGV *)
Definition SIG_SEGV : Z := 11.

(** ** State *)

#[export] Instance QuantaHalt_eq_dec : EqDecision QuantaHalt.
Proof. solve_decision. Defined.

(** One return of [recv(fd, &c, 1, 0)] and of [send]. *)
Inductive RecvResult := RecvByte (c : Z) | RecvEof | RecvIntr | RecvErr.
Inductive SendResult := SendN (n : nat) | SendIntr | SendErr.

(** The connection: its future, and the bytes sent so far. *)
Record Link := mkLink {
  lk_recv : list RecvResult;
  lk_send : list SendResult;
  lk_poll : list bool;
  lk_sent : list Z
}.
Definition set_lk_recv (v : list RecvResult) (r : Link) : Link :=
  mkLink v (lk_send r) (lk_poll r) (lk_sent r).
Definition set_lk_send (v : list SendResult) (r : Link) : Link :=
  mkLink (lk_recv r) v (lk_poll r) (lk_sent r).
Definition set_lk_poll (v : list bool) (r : Link) : Link :=
  mkLink (lk_recv r) (lk_send r) v (lk_sent r).
Definition set_lk_sent (v : list Z) (r : Link) : Link :=
  mkLink (lk_recv r) (lk_send r) (lk_poll r) v.

(** [src/gdbstub.c 54-57] GdbCheckpoint *)
Record GdbCheckpoint := mkGdbCheckpoint {
  cp_step : Z;
  cp_snap : QuantaSnapshot
}.

(** [g_buf] is the packet buffer of the session loop; [g_oob] records an access outside it,
    [g_running] that the script ended while the guest was still running.
    [src/gdbstub.c 59-75] GdbStub *)
Record GdbStub := mkGdbStub {
  g_link : Link;
  g_q : Quanta;
  g_feat_swbreak : bool;
  g_dead : bool;
  g_want_quit : bool;
  g_bp : arr;
  g_bp_used : gmap Z bool;
  g_nsteps : Z;
  g_reverse_used : bool;
  g_last_cp_step : Z;
  g_cp : gmap Z GdbCheckpoint;
  g_ncp : Z;
  g_buf : arr;
  g_oob : bool;
  g_running : bool
}.
Definition set_g_link (v : Link) (r : GdbStub) : GdbStub :=
  mkGdbStub v (g_q r) (g_feat_swbreak r) (g_dead r) (g_want_quit r) (g_bp r) (g_bp_used r) (g_nsteps r) (g_reverse_used r) (g_last_cp_step r) (g_cp r) (g_ncp r) (g_buf r) (g_oob r) (g_running r).
Definition set_g_q (v : Quanta) (r : GdbStub) : GdbStub :=
  mkGdbStub (g_link r) v (g_feat_swbreak r) (g_dead r) (g_want_quit r) (g_bp r) (g_bp_used r) (g_nsteps r) (g_reverse_used r) (g_last_cp_step r) (g_cp r) (g_ncp r) (g_buf r) (g_oob r) (g_running r).
Definition set_g_feat_swbreak (v : bool) (r : GdbStub) : GdbStub :=
  mkGdbStub (g_link r) (g_q r) v (g_dead r) (g_want_quit r) (g_bp r) (g_bp_used r) (g_nsteps r) (g_reverse_used r) (g_last_cp_step r) (g_cp r) (g_ncp r) (g_buf r) (g_oob r) (g_running r).
Definition set_g_dead (v : bool) (r : GdbStub) : GdbStub :=
  mkGdbStub (g_link r) (g_q r) (g_feat_swbreak r) v (g_want_quit r) (g_bp r) (g_bp_used r) (g_nsteps r) (g_reverse_used r) (g_last_cp_step r) (g_cp r) (g_ncp r) (g_buf r) (g_oob r) (g_running r).
Definition set_g_want_quit (v : bool) (r : GdbStub) : GdbStub :=
  mkGdbStub (g_link r) (g_q r) (g_feat_swbreak r) (g_dead r) v (g_bp r) (g_bp_used r) (g_nsteps r) (g_reverse_used r) (g_last_cp_step r) (g_cp r) (g_ncp r) (g_buf r) (g_oob r) (g_running r).
Definition set_g_bp (v : arr) (r : GdbStub) : GdbStub :=
  mkGdbStub (g_link r) (g_q r) (g_feat_swbreak r) (g_dead r) (g_want_quit r) v (g_bp_used r) (g_nsteps r) (g_reverse_used r) (g_last_cp_step r) (g_cp r) (g_ncp r) (g_buf r) (g_oob r) (g_running r).
Definition set_g_bp_used (v : gmap Z bool) (r : GdbStub) : GdbStub :=
  mkGdbStub (g_link r) (g_q r) (g_feat_swbreak r) (g_dead r) (g_want_quit r) (g_bp r) v (g_nsteps r) (g_reverse_used r) (g_last_cp_step r) (g_cp r) (g_ncp r) (g_buf r) (g_oob r) (g_running r).
Definition set_g_nsteps (v : Z) (r : GdbStub) : GdbStub :=
  mkGdbStub (g_link r) (g_q r) (g_feat_swbreak r) (g_dead r) (g_want_quit r) (g_bp r) (g_bp_used r) v (g_reverse_used r) (g_last_cp_step r) (g_cp r) (g_ncp r) (g_buf r) (g_oob r) (g_running r).
Definition set_g_reverse_used (v : bool) (r : GdbStub) : GdbStub :=
  mkGdbStub (g_link r) (g_q r) (g_feat_swbreak r) (g_dead r) (g_want_quit r) (g_bp r) (g_bp_used r) (g_nsteps r) v (g_last_cp_step r) (g_cp r) (g_ncp r) (g_buf r) (g_oob r) (g_running r).
Definition set_g_last_cp_step (v : Z) (r : GdbStub) : GdbStub :=
  mkGdbStub (g_link r) (g_q r) (g_feat_swbreak r) (g_dead r) (g_want_quit r) (g_bp r) (g_bp_used r) (g_nsteps r) (g_reverse_used r) v (g_cp r) (g_ncp r) (g_buf r) (g_oob r) (g_running r).
Definition set_g_cp (v : gmap Z GdbCheckpoint) (r : GdbStub) : GdbStub :=
  mkGdbStub (g_link r) (g_q r) (g_feat_swbreak r) (g_dead r) (g_want_quit r) (g_bp r) (g_bp_used r) (g_nsteps r) (g_reverse_used r) (g_last_cp_step r) v (g_ncp r) (g_buf r) (g_oob r) (g_running r).
Definition set_g_ncp (v : Z) (r : GdbStub) : GdbStub :=
  mkGdbStub (g_link r) (g_q r) (g_feat_swbreak r) (g_dead r) (g_want_quit r) (g_bp r) (g_bp_used r) (g_nsteps r) (g_reverse_used r) (g_last_cp_step r) (g_cp r) v (g_buf r) (g_oob r) (g_running r).
Definition set_g_buf (v : arr) (r : GdbStub) : GdbStub :=
  mkGdbStub (g_link r) (g_q r) (g_feat_swbreak r) (g_dead r) (g_want_quit r) (g_bp r) (g_bp_used r) (g_nsteps r) (g_reverse_used r) (g_last_cp_step r) (g_cp r) (g_ncp r) v (g_oob r) (g_running r).
Definition set_g_oob (v : bool) (r : GdbStub) : GdbStub :=
  mkGdbStub (g_link r) (g_q r) (g_feat_swbreak r) (g_dead r) (g_want_quit r) (g_bp r) (g_bp_used r) (g_nsteps r) (g_reverse_used r) (g_last_cp_step r) (g_cp r) (g_ncp r) (g_buf r) v (g_running r).
Definition set_g_running (v : bool) (r : GdbStub) : GdbStub :=
  mkGdbStub (g_link r) (g_q r) (g_feat_swbreak r) (g_dead r) (g_want_quit r) (g_bp r) (g_bp_used r) (g_nsteps r) (g_reverse_used r) (g_last_cp_step r) (g_cp r) (g_ncp r) (g_buf r) (g_oob r) v.

Definition upd_link (f : Link -> Link) (s : GdbStub) : GdbStub := set_g_link (f (g_link s)) s.
(** A call of the engine on [s->q]. *)
Definition engine {A} (m : st Quanta A) : st GdbStub A :=
  fun s => let '(a, q) := m (g_q s) in (a, set_g_q q s).

(** ** Hexadecimal *)

(** [src/gdbstub.c 82-87] hex_nibble *)
Definition hex_nibble (c : Z) : Z :=
  if (48 <=? c) && (c <=? 57) then c - 48
  else if (97 <=? c) && (c <=? 102) then c - 97 + 10
  else if (65 <=? c) && (c <=? 70) then c - 65 + 10
  else -1.

(** [src/gdbstub.c 89-92] nibble_hex *)
Definition nibble_hex (v : Z) : Z := nth (Z.to_nat (v .& 0xf)) (chars "0123456789abcdef") 0.

(** [src/gdbstub.c 95-97] reg_bytes *)
Definition reg_bytes (s : GdbStub) : Z := if quanta_xlen (g_q s) =? 64 then 8 else 4.

Definition hex_byte (b : Z) : list Z := [nibble_hex (b >> 4); nibble_hex b].
(** [src/gdbstub.c 101-107] val_to_hex_le *)
Definition val_to_hex_le (v nbytes : Z) : list Z :=
  concat (map (fun b => hex_byte ((v >> (8 * b)) .& 0xff)) (zseq 0 (Z.to_nat nbytes))).

(** [buf[i]]: the buffer has [GDB_BUFSZ] bytes. *)
Definition buf_get (i : Z) : st GdbStub Z :=
  s ← gets id;
  if (0 <=? i) && (i <? GDB_BUFSZ) then mret (g_buf s).[i] else modify (set_g_oob true) ;; mret 0.
(** The C string at [buf + p]; one that is not terminated inside the buffer is an access
    outside it. *)
Definition buf_string (p : Z) : st GdbStub (list Z) :=
  s ← gets id;
  let room := Device.slice (g_buf s) p (Z.to_nat (GDB_BUFSZ - p)) in
  let str := c_string room in
  when (length str =? length room)%nat (modify (set_g_oob true)) ;;
  mret str.

(** The loop of [hex_to_val_le] from byte [b] on, [v] the value so far.
    [src/gdbstub.c 113-118] hex_to_val_le *)
Fixpoint hex_to_val_loop (n : nat) (p b v : Z) : st GdbStub (option Z) :=
  match n with
  | O => mret (Some v)
  | S n =>
    c1 ← buf_get (p + 2 * b); c2 ← buf_get (p + 2 * b + 1);
    let hi := hex_nibble c1 in let lo := hex_nibble c2 in
    if (hi <? 0) || (lo <? 0) then mret None
    else hex_to_val_loop n p (b + 1) (v .| u64 (u32 (hi << 4 .| lo) << (8 * b)))
  end.
(** [None] is the result -1.
    [src/gdbstub.c 111-121] hex_to_val_le *)
Definition hex_to_val_le (p nbytes : Z) : st GdbStub (option Z) := hex_to_val_loop (Z.to_nat nbytes) p 0 0.

(** ** The socket *)

(** What [send] makes of [buf]: success, the script left, the bytes that went out.
    [src/gdbstub.c 127-134] write_all *)
Fixpoint send_loop (sends : list SendResult) (buf : list Z) : bool * list SendResult * list Z :=
  match buf, sends with
  | [], _ => (true, sends, [])
  | _, [] => (true, [], buf)
  | _, SendIntr :: sends => send_loop sends buf
  | _, SendErr :: sends => (false, sends, [])
  | _, SendN n :: sends => let '(ok, sends, out) := send_loop sends (drop n buf) in (ok, sends, take n buf ++ out)
  end.
(** [src/gdbstub.c 125-136] write_all *)
Definition write_all (buf : list Z) : st GdbStub bool :=
  l ← gets g_link;
  let '(ok, sends, out) := send_loop (lk_send l) buf in
  modify (upd_link (fun l => set_lk_send sends (set_lk_sent (lk_sent l ++ out) l))) ;;
  mret ok.

(** [src/gdbstub.c 140-147] read_byte *)
Fixpoint recv_loop (l : list RecvResult) : Z * list RecvResult :=
  match l with
  | [] => (-1, [])
  | RecvByte c :: l => (u8 c, l)
  | RecvEof :: l => (-1, l)
  | RecvIntr :: l => recv_loop l
  | RecvErr :: l => (-1, l)
  end.
(** [src/gdbstub.c 139-148] read_byte *)
Definition read_byte : st GdbStub Z :=
  l ← gets g_link;
  let '(c, rest) := recv_loop (lk_recv l) in
  modify (upd_link (set_lk_recv rest)) ;;
  mret c.

(** [src/gdbstub.c 154-155] send_packet *)
Definition packet_sum (data : list Z) : Z := foldl (fun sum c => u32 (sum + c)) 0 data.
(** [src/gdbstub.c 156-159] send_packet *)
Definition packet_tail (data : list Z) : list Z := 35 :: [nibble_hex (packet_sum data >> 4); nibble_hex (packet_sum data)].

(** [src/gdbstub.c 162-175] send_packet *)
Fixpoint send_tries (tries : nat) (data : list Z) : st GdbStub Z :=
  match tries with
  | O => modify (set_g_dead true) ;; mret (-1)
  | S tries =>
    ok ← (ok ← write_all [36];
          if negb ok then mret false
          else ok ← write_all data; if negb ok then mret false else write_all (packet_tail data));
    if negb ok then modify (set_g_dead true) ;; mret (-1)
    else
      ack ← read_byte;
      if ack <? 0 then modify (set_g_dead true) ;; mret (-1)
      else if ack =? 43 then mret 0
      else send_tries tries data
  end.
(** [src/gdbstub.c 152-176] send_packet *)
Definition send_packet (data : list Z) : st GdbStub Z := send_tries 5 data.
Definition reply (text : string) : st GdbStub Z := send_packet (chars text).

(** Up to the [$] of the next packet: the character that ended the search.
    [src/gdbstub.c 184-188] read_packet *)
Fixpoint find_dollar (fuel : nat) : st GdbStub Z :=
  match fuel with
  | O => mret (-1)
  | S fuel =>
    c ← read_byte;
    if (c <? 0) || (c =? 0x03) || (c =? 36) then mret c else find_dollar fuel
  end.
(** The payload up to [#]: its length and its sum, or [None] for the result -1.
    [src/gdbstub.c 192-199] read_packet *)
Fixpoint read_payload (fuel : nat) (len sum : Z) : st GdbStub (option (Z * Z)) :=
  match fuel with
  | O => mret None
  | S fuel =>
    c ← read_byte;
    if c <? 0 then mret None
    else if c =? 35 then mret (Some (len, sum))
    else if GDB_BUFSZ <=? len + 1 then mret None
    else
      modify (fun s => set_g_buf (aset len c (g_buf s)) s) ;;
      read_payload fuel (len + 1) (u32 (sum + c))
  end.
(** Each round reads at least one byte, so the bytes to come bound every loop.
    [src/gdbstub.c 182-210] read_packet *)
Fixpoint read_packet_loop (fuel : nat) : st GdbStub Z :=
  match fuel with
  | O => mret (-1)
  | S fuel =>
    l ← gets g_link;
    c ← find_dollar (S (length (lk_recv l)));
    if c <? 0 then mret (-1)
    else if c =? 0x03 then modify (fun s => set_g_buf (aset 0 0x03 (g_buf s)) s) ;; mret 1
    else
      l ← gets g_link;
      r ← read_payload (S (length (lk_recv l))) 0 0;
      match r with
      | None => mret (-1)
      | Some (len, sum) =>
        c1 ← read_byte; c2 ← read_byte;
        let h1 := hex_nibble c1 in let h2 := hex_nibble c2 in
        if (h1 <? 0) || (h2 <? 0) then mret (-1)
        else
          modify (fun s => set_g_buf (aset len 0 (g_buf s)) s) ;;
          let want := u32 (h1 << 4) .| h2 in
          let ack := if (sum .& 0xff) =? want then 43 else 45 in
          ok ← write_all [ack];
          if negb ok then mret (-1)
          else if ack =? 43 then mret len
          else read_packet_loop fuel
      end
  end.
(** [src/gdbstub.c 181-211] read_packet *)
Definition read_packet : st GdbStub Z :=
  l ← gets g_link;
  read_packet_loop (S (length (lk_recv l))).

(** [src/gdbstub.c 215-225] interrupt_pending *)
Definition interrupt_pending : st GdbStub Z :=
  l ← gets g_link;
  match lk_poll l with
  | true :: polls =>
    modify (upd_link (set_lk_poll polls)) ;;
    c ← read_byte;
    mret (if c <? 0 then -1 else if c =? 0x03 then 1 else 0)
  | _ => modify (upd_link (set_lk_poll (tail (lk_poll l)))) ;; mret 0
  end.

(** ** Breakpoints *)

Definition bp_is_used (s : GdbStub) (i : Z) : bool := default false (g_bp_used s !! i).
Definition bp_slots : list Z := zseq 0 (Z.to_nat GDB_MAX_BP).
Definition bp_at (s : GdbStub) (addr i : Z) : bool := bp_is_used s i && ((g_bp s).[i] =? addr).

(** [src/gdbstub.c 229-233] bp_match *)
Definition bp_match (s : GdbStub) (addr : Z) : bool := existsb (bp_at s addr) bp_slots.

(** [src/gdbstub.c 235-245] bp_add *)
Definition bp_add (addr : Z) : st GdbStub bool :=
  s ← gets id;
  if bp_match s addr then mret true
  else
    match List.find (fun i => negb (bp_is_used s i)) bp_slots with
    | Some i =>
      modify (fun s => set_g_bp_used (<[i := true]> (g_bp_used s)) s) ;;
      modify (fun s => set_g_bp (aset i addr (g_bp s)) s) ;;
      mret true
    | None => mret false
    end.

(** [src/gdbstub.c 247-250] bp_remove *)
Definition bp_remove (addr : Z) : st GdbStub unit :=
  for_ (Z.to_nat GDB_MAX_BP) 0 (fun i => s ← gets id; when (bp_at s addr i) (modify (fun s => set_g_bp_used (<[i := false]> (g_bp_used s)) s))).

(** ** Checkpoints and replay *)

(** [src/gdbstub.c 258-264] raw_step *)
Definition raw_step : st GdbStub QuantaHalt :=
  s ← gets id;
  let h := quanta_halt_reason (g_q s) in
  if negb (bool_decide (h = QUANTA_RUN)) then mret h
  else
    h ← engine quanta_step;
    modify (fun s => set_g_nsteps (u64 (g_nsteps s + 1)) s) ;;
    mret h.

Definition cp_step_at (s : GdbStub) (i : Z) : Z := from_option cp_step 0 (g_cp s !! i).
(** The slot a full ring gives up: the oldest but for slot 0.
    [src/gdbstub.c 278-280] cp_add *)
Definition cp_victim (s : GdbStub) : Z :=
  foldl (fun slot i => if cp_step_at s i <? cp_step_at s slot then i else slot) 1 (zseq 2 (Z.to_nat (g_ncp s - 2))).
(** [src/gdbstub.c 271-286] cp_add *)
Definition cp_add (step : Z) : st GdbStub unit :=
  s ← gets id;
  match quanta_snapshot (g_q s) with
  | None => mret tt
  | Some snap =>
    slot ← (if g_ncp s <? GDB_MAX_CP then modify (set_g_ncp (g_ncp s + 1)) ;; mret (g_ncp s) else mret (cp_victim s));
    modify (fun s => set_g_cp (<[slot := mkGdbCheckpoint step snap]> (g_cp s)) s) ;;
    modify (set_g_last_cp_step step)
  end.

(** [src/gdbstub.c 291-297] stub_step *)
Definition stub_step : st GdbStub QuantaHalt :=
  h ← raw_step;
  s ← gets id;
  when (g_reverse_used s && bool_decide (h = QUANTA_RUN) && (GDB_CP_INTERVAL <=? u64 (g_nsteps s - g_last_cp_step s)))
    (cp_add (g_nsteps s)) ;;
  mret h.

(** [src/gdbstub.c 304-308] goto_step *)
Definition cp_best (s : GdbStub) (target : Z) : Z :=
  foldl (fun best i => if (cp_step_at s i <=? target) && ((best <? 0) || (cp_step_at s best <? cp_step_at s i)) then i else best)
    (-1) (zseq 0 (Z.to_nat (g_ncp s))).
(** Each round counts one step or is the last.
    [src/gdbstub.c 312-313] goto_step *)
Fixpoint replay (fuel : nat) (target : Z) : st GdbStub unit :=
  match fuel with
  | O => mret tt
  | S fuel =>
    s ← gets id;
    if g_nsteps s <? target then
      h ← raw_step;
      if negb (bool_decide (h = QUANTA_RUN)) then mret tt else replay fuel target
    else mret tt
  end.
(** [src/gdbstub.c 303-314] goto_step *)
Definition goto_step (target : Z) : st GdbStub unit :=
  s ← gets id;
  let best := cp_best s target in
  match g_cp s !! best with
  | None => mret tt
  | Some c =>
    if best <? 0 then mret tt
    else
      r ← engine (quanta_restore (cp_snap c));
      if negb (bool_decide (r = QUANTA_OK)) then mret tt
      else
        modify (set_g_nsteps (cp_step c)) ;;
        replay (Z.to_nat (target - cp_step c)) target
  end.

(** ** Stopping and running *)

(** [src/gdbstub.c 321-345] stop_reply *)
Definition stop_reply (s : GdbStub) (outsz sig : Z) (swbreak_hit : bool) : list Z :=
  let q := g_q s in
  match quanta_halt_reason q with
  | QUANTA_HALT_EXIT => snprintf outsz (chars "W" ++ fmt_02x (quanta_exit_code q .& 0xff))
  | QUANTA_RUN =>
    if swbreak_hit && g_feat_swbreak s then snprintf outsz (chars "T" ++ fmt_02x (u32 sig) ++ chars "swbreak:;")
    else snprintf outsz (chars "S" ++ fmt_02x (u32 sig))
  | h =>
    let hs := match h with
      | QUANTA_HALT_MEM_FAULT => SIG_SEGV
      | QUANTA_HALT_ILLEGAL_INSN | QUANTA_HALT_UNIMP_SYSTEM | QUANTA_HALT_UNKNOWN_SYSCALL => SIG_ILL
      | _ => SIG_TRAP
      end in
    snprintf outsz (chars "S" ++ fmt_02x hs)
  end.

(** [src/gdbstub.c 347-351] send_stop *)
Definition send_stop (sig : Z) (swbreak_hit : bool) : st GdbStub Z :=
  s ← gets id;
  send_packet (stop_reply s 32 sig swbreak_hit).

(** [CONT_RUNNING] is not an outcome of the code: the guest was still running when the
    number of rounds under consideration ran out.
    [src/gdbstub.c 78-78] CONT_HALTED *)
Inductive ContResult := CONT_HALTED | CONT_BREAK | CONT_INTR | CONT_DEAD | CONT_RUNNING.

(** [src/gdbstub.c 359-367] do_continue *)
Fixpoint continue_loop (fuel : nat) (h : QuantaHalt) (guard : Z) : st GdbStub ContResult :=
  if negb (bool_decide (h = QUANTA_RUN)) then mret CONT_HALTED
  else match fuel with
  | O => mret CONT_RUNNING
  | S fuel =>
    s ← gets id;
    if bp_match s (quanta_pc (g_q s)) then mret CONT_BREAK
    else
      let guard := u64 (guard + 1) in
      ip ← (if (guard .& 0xffff) =? 0 then interrupt_pending else mret 0);
      if ip <? 0 then mret CONT_DEAD
      else if 0 <? ip then mret CONT_INTR
      else h ← stub_step; continue_loop fuel h guard
  end.
(** [src/gdbstub.c 356-369] do_continue *)
Definition do_continue (fuel : nat) : st GdbStub ContResult :=
  h ← stub_step;
  continue_loop fuel h 0.

(** [src/gdbstub.c 371-378] continue_and_reply *)
Definition continue_and_reply (fuel : nat) : st GdbStub Z :=
  r ← do_continue fuel;
  match r with
  | CONT_BREAK => send_stop SIG_TRAP true
  | CONT_INTR => send_stop SIG_INT false
  | CONT_DEAD => modify (set_g_dead true) ;; mret (-1)
  | CONT_HALTED => send_stop SIG_TRAP false
  | CONT_RUNNING => modify (set_g_running true) ;; mret (-1)
  end.

(** [src/gdbstub.c 382-386] handle_reverse_step *)
Definition handle_reverse_step : st GdbStub Z :=
  modify (set_g_reverse_used true) ;;
  s ← gets id;
  when (0 <? g_nsteps s) (goto_step (g_nsteps s - 1)) ;;
  send_stop SIG_TRAP false.

(** The last breakpoint met strictly before step [cur], as [found ? hit : 0] keeps it.
    [src/gdbstub.c 398-401] handle_reverse_continue *)
Fixpoint scan_back (fuel : nat) (cur hit : Z) (found : bool) : st GdbStub (Z * bool) :=
  match fuel with
  | O => mret (hit, found)
  | S fuel =>
    s ← gets id;
    if g_nsteps s <? cur then
      let '(hit, found) := if bp_match s (quanta_pc (g_q s)) then (g_nsteps s, true) else (hit, found) in
      h ← raw_step;
      if negb (bool_decide (h = QUANTA_RUN)) then mret (hit, found) else scan_back fuel cur hit found
    else mret (hit, found)
  end.
(** [src/gdbstub.c 391-404] handle_reverse_continue *)
Definition handle_reverse_continue : st GdbStub Z :=
  modify (set_g_reverse_used true) ;;
  s ← gets id;
  let cur := g_nsteps s in
  if cur =? 0 then send_stop SIG_TRAP false
  else
    goto_step 0 ;;
    s ← gets id;
    r ← scan_back (Z.to_nat (cur - g_nsteps s)) cur 0 false;
    let '(hit, found) := r in
    goto_step (if found : bool then hit else 0) ;;
    send_stop SIG_TRAP false.

(** ** Registers and memory *)

(** [src/gdbstub.c 408-416] handle_read_regs *)
Definition handle_read_regs : st GdbStub Z :=
  s ← gets id;
  let nb := reg_bytes s in
  send_packet (concat (map (fun i => val_to_hex_le (quanta_reg (g_q s) i) nb) (zseq 0 32)) ++ val_to_hex_le (quanta_pc (g_q s)) nb).

(** [src/gdbstub.c 421-426] handle_write_regs *)
Fixpoint write_regs_loop (n : nat) (args nb i : Z) : st GdbStub bool :=
  match n with
  | O => mret true
  | S n =>
    v ← hex_to_val_le (args + i * (nb * 2)) nb;
    match v with
    | None => mret false
    | Some v => engine (quanta_set_reg i v) ;; write_regs_loop n args nb (i + 1)
    end
  end.
(** [src/gdbstub.c 418-432] handle_write_regs *)
Definition handle_write_regs (args : Z) : st GdbStub Z :=
  s ← gets id;
  let nb := reg_bytes s in let nc := nb * 2 in
  str ← buf_string args;
  if Z.of_nat (length str) <? 33 * nc then reply "E22"
  else
    ok ← write_regs_loop 32 args nb 0;
    if negb ok then reply "E22"
    else
      pc ← hex_to_val_le (args + 32 * nc) nb;
      match pc with
      | None => reply "E22"
      | Some pc => engine (quanta_set_pc pc) ;; reply "OK"
      end.

(** [strtoul(buf + p, &end, 16)]: the value and [end]. *)
Definition buf_strtoul (p : Z) : st GdbStub (Z * Z) :=
  str ← buf_string p;
  let '(v, n) := strtoul 16 str in
  mret (v, p + Z.of_nat n).

(** [src/gdbstub.c 434-443] handle_read_reg *)
Definition handle_read_reg (args : Z) : st GdbStub Z :=
  s ← gets id;
  let nb := reg_bytes s in
  '(n, _) ← buf_strtoul args;
  if n <? 32 then send_packet (val_to_hex_le (quanta_reg (g_q s) n) nb)
  else if n =? 32 then send_packet (val_to_hex_le (quanta_pc (g_q s)) nb)
  else reply "E01".

(** [src/gdbstub.c 445-456] handle_write_reg *)
Definition handle_write_reg (args : Z) : st GdbStub Z :=
  s ← gets id;
  let nb := reg_bytes s in
  '(n, p) ← buf_strtoul args;
  c ← buf_get p;
  if negb (c =? 61) then reply "E22"
  else
    v ← hex_to_val_le (p + 1) nb;
    match v with
    | None => reply "E22"
    | Some v =>
      if n <? 32 then engine (quanta_set_reg n v) ;; reply "OK"
      else if n =? 32 then engine (quanta_set_pc v) ;; reply "OK"
      else reply "E01"
    end.

(** [src/gdbstub.c 458-477] handle_read_mem *)
Definition handle_read_mem (args : Z) : st GdbStub Z :=
  '(addr, p) ← buf_strtoul args;
  c ← buf_get p;
  if negb (c =? 44) then reply "E22"
  else
    '(len, _) ← buf_strtoul (p + 1);
    if len =? 0 then send_packet []
    else
      let len := if GDB_MAX_PAYLOAD <? len then GDB_MAX_PAYLOAD else len in
      s ← gets id;
      match quanta_mem_read (g_q s) addr len with
      | None => reply "E0e"
      | Some tmp => send_packet (concat (map hex_byte tmp))
      end.

(** [src/gdbstub.c 489-494] handle_write_mem *)
Fixpoint read_hex_bytes (n : nat) (p i : Z) : st GdbStub (option (list Z)) :=
  match n with
  | O => mret (Some [])
  | S n =>
    c1 ← buf_get (p + 2 * i); c2 ← buf_get (p + 2 * i + 1);
    let hi := hex_nibble c1 in let lo := hex_nibble c2 in
    if (hi <? 0) || (lo <? 0) then mret None
    else
      rest ← read_hex_bytes n p (i + 1);
      mret (cons (u8 (hi << 4 .| lo)) <$> rest)
  end.
(** [src/gdbstub.c 479-498] handle_write_mem *)
Definition handle_write_mem (args : Z) : st GdbStub Z :=
  '(addr, p) ← buf_strtoul args;
  c ← buf_get p;
  if negb (c =? 44) then reply "E22"
  else
    '(len, p) ← buf_strtoul (p + 1);
    c ← buf_get p;
    if negb (c =? 58) then reply "E22"
    else if GDB_MAX_PAYLOAD <? len then reply "E22"
    else
      tmp ← read_hex_bytes (Z.to_nat len) (p + 1) 0;
      match tmp with
      | None => reply "E22"
      | Some tmp =>
        ok ← (if len =? 0 then mret QUANTA_OK else engine (quanta_mem_write addr tmp));
        if negb (bool_decide (ok = QUANTA_OK)) then reply "E0e" else reply "OK"
      end.

(** [src/gdbstub.c 503-513] handle_bp *)
Definition handle_bp (args : Z) (set : bool) : st GdbStub Z :=
  '(type, p) ← buf_strtoul args;
  c ← buf_get p;
  if negb (c =? 44) then reply "E22"
  else
    '(addr, _) ← buf_strtoul (p + 1);
    if 1 <? type then reply ""
    else if set then ok ← bp_add addr; if ok : bool then reply "OK" else reply "E22"
    else bp_remove addr ;; reply "OK".

(** ** The target description *)

(** [src/gdbstub.c 519-523] build_target_xml *)
Definition reg_names : list string :=
  ["zero"; "ra"; "sp"; "gp"; "tp"; "t0"; "t1"; "t2"; "fp"; "s1";
   "a0"; "a1"; "a2"; "a3"; "a4"; "a5"; "a6"; "a7"; "s2"; "s3";
   "s4"; "s5"; "s6"; "s7"; "s8"; "s9"; "s10"; "s11"; "t3"; "t4"; "t5"; "t6"; "pc"]%string.
(** [src/gdbstub.c 524-528] build_target_xml *)
Definition reg_types : list string :=
  (["int"; "code_ptr"; "data_ptr"; "data_ptr"; "data_ptr"; "int"; "int"; "int"; "data_ptr"; "int"]%string
   ++ repeat "int"%string 22 ++ ["code_ptr"%string]).
Definition newline : list Z := [10].

(** [src/gdbstub.c 531-536] build_target_xml *)
Definition xml_head (bits : Z) : list Z :=
  chars "<?xml version='1.0'?>" ++ newline ++ chars "<!DOCTYPE target SYSTEM 'gdb-target.dtd'>" ++ newline
  ++ chars "<target version='1.0'>" ++ newline
  ++ chars "  <architecture>riscv:rv" ++ fmt_d bits ++ chars "</architecture>" ++ newline
  ++ chars "  <feature name='org.gnu.gdb.riscv.cpu'>" ++ newline.
(** [src/gdbstub.c 537-540] build_target_xml *)
Definition xml_reg (bits i : Z) : list Z :=
  chars "    <reg name='" ++ chars (nth (Z.to_nat i) reg_names EmptyString) ++ chars "' bitsize='" ++ fmt_d bits
  ++ chars "' type='" ++ chars (nth (Z.to_nat i) reg_types EmptyString) ++ chars "'"
  ++ (if i =? 0 then chars " regnum='0'" else []) ++ chars "/>" ++ newline.
(** [len += snprintf(buf + len, n - len, ..)]: the text keeps what fits, [len] counts all. *)
Definition append (n : Z) (text : list Z) (b : list Z * Z) : list Z * Z :=
  (b.1 ++ snprintf (n - b.2) text, b.2 + Z.of_nat (length text)).
(** The text and the length returned.
    [src/gdbstub.c 518-544] build_target_xml *)
Definition build_target_xml (xlen n : Z) : list Z * Z :=
  let bits := if xlen =? 64 then 64 else 32 in
  let b := append n (xml_head bits) ([], 0) in
  let b := foldl (fun b i => if b.2 <? n then append n (xml_reg bits i) b else b) b (zseq 0 33) in
  let b := if b.2 <? n then append n (chars "  </feature>" ++ newline ++ chars "</target>" ++ newline) b else b in
  (b.1, if b.2 <? n then b.2 else n).

(** [src/gdbstub.c 547-572] handle_qxfer *)
Definition handle_qxfer (args : Z) : st GdbStub Z :=
  str ← buf_string args;
  match index_of 58 str with
  | None => reply "E00"
  | Some annexlen =>
    if negb (Z.of_nat annexlen =? 10) || negb (streq (take annexlen str) (chars "target.xml")) then reply "E00"
    else
      '(off, p) ← buf_strtoul (args + Z.of_nat annexlen + 1);
      c ← buf_get p;
      if negb (c =? 44) then reply "E00"
      else
        '(length, _) ← buf_strtoul (p + 1);
        s ← gets id;
        let '(xml, total) := build_target_xml (quanta_xlen (g_q s)) 4096 in
        if total <=? off then reply "l"
        else
          let avail := total - off in
          let chunk := if length <? avail then length else avail in
          let chunk := if GDB_BUFSZ - 4 <? chunk then GDB_BUFSZ - 4 else chunk in
          send_packet ((if total <=? off + chunk then 108 else 109) :: take (Z.to_nat chunk) (drop (Z.to_nat off) xml))
  end.

(** [src/gdbstub.c 574-592] handle_query *)
Definition handle_query (args : Z) : st GdbStub Z :=
  str ← buf_string args;
  if starts_with (chars "Supported") str then
    send_packet (snprintf 160 (chars "PacketSize=" ++ fmt_x (GDB_BUFSZ - 16)
      ++ chars ";qXfer:features:read+;swbreak+;hwbreak+;vContSupported+;ReverseStep+;ReverseContinue+"))
  else if starts_with (chars "Xfer:features:read:") str then handle_qxfer (args + 19)
  else if streq str (chars "C") then reply "QC1"
  else if streq str (chars "fThreadInfo") then reply "m1"
  else if streq str (chars "sThreadInfo") then reply "l"
  else if streq str (chars "Attached") || starts_with (chars "Attached:") str then reply "1"
  else if starts_with (chars "Symbol") str then reply "OK"
  else reply "".

(** ** Execution packets *)

(** [c] and [s] with an address resume there.
    [src/gdbstub.c 595-599] handle_continue *)
Definition resume_at (args cmd plain : Z) : st GdbStub unit :=
  c ← buf_get args;
  when ((cmd =? plain) && negb (c =? 0))
    ('(addr, p) ← buf_strtoul args;
     when (negb (p =? args)) (engine (quanta_set_pc (u32 addr)))).

(** [src/gdbstub.c 594-601] handle_continue *)
Definition handle_continue (fuel : nat) (args cmd : Z) : st GdbStub Z :=
  resume_at args cmd 99 ;;
  continue_and_reply fuel.

(** [src/gdbstub.c 603-611] handle_step *)
Definition handle_step (args cmd : Z) : st GdbStub Z :=
  resume_at args cmd 115 ;;
  stub_step ;;
  send_stop SIG_TRAP false.

(** [src/gdbstub.c 613-630] handle_v *)
Definition handle_v (fuel : nat) (args : Z) : st GdbStub Z :=
  str ← buf_string args;
  if starts_with (chars "Cont?") str then reply "vCont;c;C;s;S"
  else if starts_with (chars "Cont") str then
    if contains (chars ";s") str || contains (chars ";S") str then stub_step ;; send_stop SIG_TRAP false
    else continue_and_reply fuel
  else if starts_with (chars "Kill") str then modify (set_g_want_quit true) ;; reply "OK"
  else reply "".

(** ** The session *)

(** One packet of [n] bytes that is not an interrupt and not empty.
    [src/gdbstub.c 692-722] quanta_gdb_serve *)
Definition dispatch_packet (fuel : nat) (cmd : Z) : st GdbStub unit :=
  let args := 1 in
  let quiet (m : st GdbStub Z) : st GdbStub unit := m ;; mret tt in
  if cmd =? 63 (* ? *) then quiet (send_stop SIG_TRAP false)
  else if cmd =? 103 (* g *) then quiet handle_read_regs
  else if cmd =? 71 (* G *) then quiet (handle_write_regs args)
  else if cmd =? 112 (* p *) then quiet (handle_read_reg args)
  else if cmd =? 80 (* P *) then quiet (handle_write_reg args)
  else if cmd =? 109 (* m *) then quiet (handle_read_mem args)
  else if cmd =? 77 (* M *) then quiet (handle_write_mem args)
  else if cmd =? 88 (* X *) then quiet (reply "")
  else if (cmd =? 99) || (cmd =? 67) (* c, C *) then quiet (handle_continue fuel args cmd)
  else if (cmd =? 115) || (cmd =? 83) (* s, S *) then quiet (handle_step args cmd)
  else if cmd =? 90 (* Z *) then quiet (handle_bp args true)
  else if cmd =? 122 (* z *) then quiet (handle_bp args false)
  else if cmd =? 98 (* b *) then
    c ← buf_get args;
    if c =? 115 then quiet handle_reverse_step
    else if c =? 99 then quiet handle_reverse_continue
    else quiet (reply "")
  else if cmd =? 72 (* H *) then quiet (reply "OK")
  else if cmd =? 113 (* q *) then quiet (handle_query args)
  else if cmd =? 81 (* Q *) then quiet (reply "")
  else if cmd =? 118 (* v *) then quiet (handle_v fuel args)
  else if cmd =? 68 (* D *) then reply "OK" ;; modify (set_g_want_quit true)
  else if cmd =? 107 (* k *) then modify (set_g_want_quit true)
  else if cmd =? 84 (* T *) then quiet (reply "OK")
  else quiet (reply "").

(** [fuel] bounds the instructions of one [continue]; every round reads at least one byte.
    [src/gdbstub.c 683-723] quanta_gdb_serve *)
Fixpoint serve_loop (rounds fuel : nat) : st GdbStub unit :=
  match rounds with
  | O => mret tt
  | S rounds =>
    s ← gets id;
    if g_dead s || g_want_quit s || g_running s then mret tt
    else
      n ← read_packet;
      if n <? 0 then mret tt
      else
        c ← buf_get 0;
        if (1 <=? n) && (c =? 0x03) then send_stop SIG_INT false ;; serve_loop rounds fuel
        else if n =? 0 then send_packet [] ;; serve_loop rounds fuel
        else dispatch_packet fuel c ;; serve_loop rounds fuel
  end.

(** [src/gdbstub.c 671-677] quanta_gdb_serve *)
Definition gdb_attach (q : Quanta) (l : Link) : GdbStub :=
  exec (cp_add 0) (mkGdbStub l q true false false ∅ ∅ 0 false 0 ∅ 0 ∅ false false).

(** [None] for a connection is a socket, bind, listen or accept that fails, or a packet
    buffer that cannot be allocated; the status and the state at the end of the session.
    [src/gdbstub.c 634-730] quanta_gdb_serve *)
Definition quanta_gdb_serve (q : Quanta) (port : Z) (connection : option Link) (fuel : nat) : Z * option GdbStub :=
  if (port <=? 0) || (65535 <? port) then (-1, None)
  else match connection with
  | None => (-1, None)
  | Some l => (0, Some (exec (serve_loop (S (length (lk_recv l))) fuel) (gdb_attach q l)))
  end.
