(* ===== verification/GdbWire.v ===== *)
(** * Packets on the wire

    Framing, checksums, acknowledgements and retransmission of the remote protocol, and the
    hexadecimal encodings of registers and memory. *)

From Stdlib Require Import Strings.String.
From S2P Require Import Prelude Device DeviceInv DeviceThms Memory Cache Cpu Engine CLib Gdb.

(** ** A connection that delivers given bytes *)

Definition feed (bs : list Z) (s : GdbStub) : GdbStub := upd_link (set_lk_recv (map RecvByte bs)) s.
Definition sent (bs : list Z) (s : GdbStub) : GdbStub := upd_link (fun l => set_lk_sent (lk_sent l ++ bs) l) s.
(** [send] takes whatever it is given. *)
Definition healthy (s : GdbStub) : Prop := lk_send (g_link s) = [].
Definition fill (o : Z) (bs : list Z) (s : GdbStub) : GdbStub := set_g_buf (put_bytes o bs (g_buf s)) s.

(** A packet on the wire. *)
Definition packet (data : list Z) : list Z := 36 :: data ++ packet_tail data.

Lemma read_byte_feed c bs s : rng 8 c -> read_byte (feed (c :: bs) s) = (c, feed bs s).
Proof. intros H. unfold read_byte. rewrite bind_gets. cbn [feed upd_link g_link set_g_link lk_recv set_lk_recv map recv_loop]. unfold u8. by rewrite wrap_small by (done || lia). Qed.
Lemma write_all_sent bs s : healthy s -> write_all bs s = (true, sent bs s).
Proof.
  intros H. unfold healthy in H. unfold write_all. rewrite bind_gets, H. destruct bs as [|c bs]; cbn [send_loop]; rewrite bind_modify; unfold sent, upd_link; destruct s as [[]];
    cbn in H; subst; done.
Qed.
Lemma healthy_feed bs s : healthy s -> healthy (feed bs s).
Proof. done. Qed.
Lemma sent_feed a b s : sent a (feed b s) = feed b (sent a s).
Proof. done. Qed.
Lemma sent_sent a b s : sent b (sent a s) = sent (a ++ b) s.
Proof. unfold sent, upd_link. destruct s as [[]]. cbn. by rewrite app_assoc. Qed.

(** ** Digits and sums *)

Lemma nibbles : forallb (fun v => (hex_nibble (nibble_hex v) =? v) && negb (nibble_hex v =? 35) && (0 <=? nibble_hex v) && (nibble_hex v <? 256) && negb (nibble_hex v =? 0)) (zseq 0 16) = true.
Proof. by vm_compute. Qed.
Lemma nibble_hex_land v : nibble_hex (v .& 0xf) = nibble_hex v.
Proof. unfold nibble_hex. by rewrite <- Z.land_assoc. Qed.
Lemma land_15 v : 0 <= v .& 0xf < 16.
Proof. change 0xf with (Z.ones 4). rewrite Z.land_ones by lia. apply Z.mod_pos_bound. lia. Qed.
Lemma nibble_facts v : hex_nibble (nibble_hex v) = v .& 0xf /\ nibble_hex v <> 35 /\ rng 8 (nibble_hex v) /\ nibble_hex v <> 0.
Proof.
  pose proof (land_15 v) as Hv. pose proof nibbles as H. rewrite forallb_forall in H. specialize (H (v .& 0xf)).
  rewrite nibble_hex_land in H. unfold rng. change (2 ^ 8) with 256.
  assert (In (v .& 0xf) (zseq 0 16)) as Hi by (apply list_elem_of_In, elem_of_zseq; lia). specialize (H Hi). cbv beta in H. lia.
Qed.
Lemma nibble_pair v : 0 <= v -> u32 (((v >> 4) .& 0xf) << 4) .| (v .& 0xf) = v .& 0xff.
Proof. intros H. unfold u32. zbits. Qed.
Lemma packet_sum_rng data : rng 32 (packet_sum data).
Proof.
  unfold packet_sum. assert (forall s, rng 32 s -> rng 32 (foldl (fun sum c => u32 (sum + c)) s data)) as H; [|apply H; by apply rng_const].
  induction data as [|c data IH]; intros s Hs; cbn; [done|]. apply IH, u32_rng.
Qed.

(** ** Receiving *)

(** Bytes a reader that waits for a packet skips. *)
Definition junk_ok (junk : list Z) : Prop := Forall (fun c => rng 8 c /\ c <> 3 /\ c <> 36) junk.

Lemma find_dollar_feed junk bs s fuel : junk_ok junk -> (length junk < fuel)%nat ->
  find_dollar fuel (feed (junk ++ 36 :: bs) s) = (36, feed bs s).
Proof.
  revert fuel. induction junk as [|c junk IH]; intros [|fuel] Hj Hf; cbn [length] in Hf; try lia; cbn [find_dollar app].
  - rewrite bind_run. unfold run, exec. by rewrite read_byte_feed by (by apply rng_const).
  - apply Forall_cons_1 in Hj as [(Hc & H3 & Hd) Hj]. rewrite bind_run. unfold run, exec. rewrite read_byte_feed by done. cbn [fst snd].
    rewrite (proj2 (Z.ltb_ge c 0)), (proj2 (Z.eqb_neq c 3)), (proj2 (Z.eqb_neq c 36)) by (done || unfold rng in Hc; lia).
    apply IH; [done|lia].
Qed.

(** What a payload may contain: any byte but [#]. *)
Definition payload_ok (data : list Z) : Prop := bytes data /\ ~ 35 ∈ data.
Lemma read_payload_feed data bs fuel : forall len sum s, payload_ok data -> 0 <= len -> len + Z.of_nat (length data) <= GDB_BUFSZ - 1 ->
  (length data < fuel)%nat ->
  read_payload fuel len sum (feed (data ++ 35 :: bs) s)
  = (Some (len + Z.of_nat (length data), foldl (fun sum c => u32 (sum + c)) sum data), feed bs (fill len data s)).
Proof.
  revert fuel. induction data as [|c data IH]; intros [|fuel] len sum s [Hb Hn] Hl Hm Hf; cbn [length] in *; try lia; cbn [read_payload app].
  - rewrite bind_run. unfold run, exec. rewrite read_byte_feed by (by apply rng_const). cbn [fst snd]. change (35 <? 0) with false.
    change (35 =? 35) with true. unfold fill. cbn [put_bytes foldl]. rewrite Z.add_0_r. by destruct s.
  - apply Forall_cons_1 in Hb as [Hc Hb]. apply not_elem_of_cons in Hn as [Hx Hn]. rewrite bind_run. unfold run, exec. rewrite read_byte_feed by done.
    cbn [fst snd]. rewrite (proj2 (Z.ltb_ge c 0)), (proj2 (Z.eqb_neq c 35)), (proj2 (Z.leb_gt GDB_BUFSZ (len + 1))) by (done || unfold rng in Hc; lia).
    rewrite bind_modify. change (set_g_buf _ (feed _ s)) with (feed (data ++ 35 :: bs) (fill len [c] s)). rewrite IH by (done || lia).
    f_equal. f_equal. f_equal. lia.
Qed.

(** One frame, with whatever checksum, after bytes that are skipped. *)
Record frame_ok (junk data : list Z) (c1 c2 : Z) : Prop := {
  fk_junk : junk_ok junk;
  fk_data : payload_ok data;
  fk_len : Z.of_nat (length data) <= GDB_BUFSZ - 1;
  fk_c1 : rng 8 c1 /\ 0 <= hex_nibble c1;
  fk_c2 : rng 8 c2 /\ 0 <= hex_nibble c2
}.
Definition frame (junk data : list Z) (c1 c2 : Z) : list Z := junk ++ 36 :: data ++ [35; c1; c2].
Definition frame_sum (c1 c2 : Z) : Z := u32 (hex_nibble c1 << 4) .| hex_nibble c2.
(** The stub after a frame: the payload in its buffer, the acknowledgement sent. *)
Definition received (data : list Z) (ack : Z) (s : GdbStub) : GdbStub := sent [ack] (fill 0 (data ++ [0]) s).

Lemma put_bytes_snoc o bs x a : put_bytes o (bs ++ [x]) a = aset (o + Z.of_nat (length bs)) x (put_bytes o bs a).
Proof.
  revert o a. induction bs as [|b bs IH]; intros o a; cbn [app put_bytes length]; [by rewrite Z.add_0_r|].
  rewrite IH. f_equal. lia.
Qed.
(** Up to the checksum digits. *)
Lemma read_frame_body fuel junk data c1 c2 bs s : junk_ok junk -> payload_ok data ->
  Z.of_nat (length data) <= GDB_BUFSZ - 1 -> rng 8 c1 -> rng 8 c2 ->
  read_packet_loop (S fuel) (feed (frame junk data c1 c2 ++ bs) s)
  = if (hex_nibble c1 <? 0) || (hex_nibble c2 <? 0) then (-1, feed bs (fill 0 data s))
    else (modify (fun s => set_g_buf (aset (Z.of_nat (length data)) 0 (g_buf s)) s) ;;
          let ack := if (packet_sum data .& 0xff) =? frame_sum c1 c2 then 43 else 45 in
          ok ← write_all [ack];
          if negb ok then mret (-1)
          else if ack =? 43 then mret (Z.of_nat (length data)) else read_packet_loop fuel) (feed bs (fill 0 data s)).
Proof.
  intros Hj Hd Hl Hr1 Hr2. cbn [read_packet_loop]. rewrite bind_gets.
  change (frame junk data c1 c2 ++ bs) with ((junk ++ 36 :: data ++ [35; c1; c2]) ++ bs).
  replace ((junk ++ 36 :: data ++ [35; c1; c2]) ++ bs) with (junk ++ 36 :: (data ++ 35 :: c1 :: c2 :: bs)) by (rewrite <- !app_assoc; cbn; by rewrite <- app_assoc).
  rewrite bind_run. unfold run, exec. rewrite find_dollar_feed; [|done|].
  2: { cbn. rewrite length_map, length_app. lia. }
  cbn [fst snd]. change (36 <? 0) with false. change (36 =? 3) with false. cbv iota. rewrite bind_gets, bind_run. unfold run, exec.
  rewrite read_payload_feed; [|done|lia|lia|cbn; rewrite length_map, length_app; lia]. cbn [fst snd].
  rewrite bind_run. unfold run, exec. rewrite read_byte_feed by done. cbn [fst snd]. rewrite bind_run. unfold run, exec. rewrite read_byte_feed by done.
  cbn [fst snd]. by destruct (_ || _).
Qed.
Lemma read_frame fuel junk data c1 c2 bs s : healthy s -> frame_ok junk data c1 c2 ->
  let ok := (packet_sum data .& 0xff) =? frame_sum c1 c2 in
  let s' := feed bs (received data (if ok then 43 else 45) s) in
  read_packet_loop (S fuel) (feed (frame junk data c1 c2 ++ bs) s)
  = if ok then (Z.of_nat (length data), s') else read_packet_loop fuel s'.
Proof.
  intros Hs [Hj Hd Hl [Hr1 Hh1] [Hr2 Hh2]]. cbv zeta. rewrite read_frame_body by done.
  rewrite !(proj2 (Z.ltb_ge _ 0)) by done. cbn [orb]. rewrite bind_modify. cbv zeta. rewrite bind_run. unfold run, exec.
  rewrite write_all_sent by done. cbn [fst snd negb].
  set (ok := _ =? frame_sum c1 c2). set (sx := sent _ _).
  assert (sx = feed bs (received data (if ok then 43 else 45) s)) as ->.
  { unfold sx, received, fill. rewrite put_bytes_snoc. done. }
  by destruct ok.
Qed.

(** A payload that does not fit the buffer. *)
Lemma read_payload_overlong data bs fuel : forall len sum s, payload_ok data -> 0 <= len <= GDB_BUFSZ - 1 ->
  GDB_BUFSZ - 1 < len + Z.of_nat (length data) -> (length data < fuel)%nat ->
  exists s', read_payload fuel len sum (feed (data ++ bs) s) = (None, s') /\ lk_sent (g_link s') = lk_sent (g_link s).
Proof.
  revert fuel. induction data as [|c data IH]; intros [|fuel] len sum s [Hb Hn] Hl Hm Hf; cbn [length] in *; try lia; cbn [read_payload app].
  apply Forall_cons_1 in Hb as [Hc Hb]. apply not_elem_of_cons in Hn as [Hx Hn]. rewrite bind_run. unfold run, exec. rewrite read_byte_feed by done.
  cbn [fst snd]. rewrite (proj2 (Z.ltb_ge c 0)), (proj2 (Z.eqb_neq c 35)) by (done || unfold rng in Hc; lia).
  destruct (Z.leb_spec GDB_BUFSZ (len + 1)); [by eexists|].
  rewrite bind_modify. change (set_g_buf _ (feed _ s)) with (feed (data ++ bs) (fill len [c] s)).
  destruct (IH fuel (len + 1) (u32 (sum + c)) (fill len [c] s)) as (s' & E & Es); [done|lia|lia|lia|]. exists s'. by split.
Qed.

(** A frame that cannot be read at all: its payload is overlong, or a checksum digit is not
    hexadecimal. *)
Definition unreadable (data : list Z) (c1 c2 : Z) : Prop :=
  GDB_BUFSZ - 1 < Z.of_nat (length data) \/ hex_nibble c1 < 0 \/ hex_nibble c2 < 0.
Lemma read_unreadable fuel junk data c1 c2 bs s : junk_ok junk -> payload_ok data ->
  rng 8 c1 -> rng 8 c2 -> unreadable data c1 c2 ->
  exists s', read_packet_loop (S fuel) (feed (frame junk data c1 c2 ++ bs) s) = (-1, s') /\ lk_sent (g_link s') = lk_sent (g_link s).
Proof.
  intros Hj Hd Hr1 Hr2 Hu. destruct (decide (Z.of_nat (length data) <= GDB_BUFSZ - 1)) as [Hl|Hl].
  - rewrite read_frame_body by done. assert ((hex_nibble c1 <? 0) || (hex_nibble c2 <? 0) = true) as ->; [|by eexists].
    apply orb_true_iff. destruct Hu as [Hu|[Hu|Hu]]; [lia|left; by apply Z.ltb_lt|right; by apply Z.ltb_lt].
  - cbn [read_packet_loop]. rewrite bind_gets.
    replace (frame junk data c1 c2 ++ bs) with (junk ++ 36 :: (data ++ 35 :: c1 :: c2 :: bs))
      by (unfold frame; rewrite <- !app_assoc; cbn; by rewrite <- app_assoc).
    rewrite bind_run. unfold run, exec. rewrite find_dollar_feed; [|done|cbn; rewrite length_map, length_app; lia].
    cbn [fst snd]. change (36 <? 0) with false. change (36 =? 3) with false. cbv iota. rewrite bind_gets, bind_run. unfold run, exec.
    match goal with |- context [read_payload ?n 0 0 (feed ?l s)] =>
      destruct (read_payload_overlong data (35 :: c1 :: c2 :: bs) n 0 0 s) as (s' & E & Es) end;
      [done|change GDB_BUFSZ with 8192; lia|lia|cbn; rewrite length_map, length_app; lia|].
    rewrite E. cbn [fst snd]. by exists s'.
Qed.

Lemma packet_is_frame data : packet data = frame [] data (nibble_hex (packet_sum data >> 4)) (nibble_hex (packet_sum data)).
Proof. done. Qed.
Lemma packet_frame_ok data : payload_ok data -> Z.of_nat (length data) <= GDB_BUFSZ - 1 ->
  frame_ok [] data (nibble_hex (packet_sum data >> 4)) (nibble_hex (packet_sum data))
  /\ frame_sum (nibble_hex (packet_sum data >> 4)) (nibble_hex (packet_sum data)) = packet_sum data .& 0xff.
Proof.
  intros Hd Hl. destruct (nibble_facts (packet_sum data >> 4)) as (E1 & _ & R1 & _). destruct (nibble_facts (packet_sum data)) as (E2 & _ & R2 & _).
  pose proof (land_15 (packet_sum data >> 4)). pose proof (land_15 (packet_sum data)). split.
  - constructor; [constructor|done|done|rewrite E1; split; [done|lia]|rewrite E2; split; [done|lia]].
  - unfold frame_sum. rewrite E1, E2. apply nibble_pair. apply packet_sum_rng.
Qed.
Lemma read_packet_feed data bs s : healthy s -> payload_ok data -> Z.of_nat (length data) <= GDB_BUFSZ - 1 ->
  read_packet (feed (packet data ++ bs) s) = (Z.of_nat (length data), feed bs (received data 43 s)).
Proof.
  intros Hs Hd Hl. destruct (packet_frame_ok data Hd Hl) as [Hf Hq]. unfold read_packet. rewrite bind_gets, packet_is_frame.
  pose proof (read_frame (length (lk_recv (g_link (feed (frame [] data (nibble_hex (packet_sum data >> 4)) (nibble_hex (packet_sum data)) ++ bs) s))))
    _ _ _ _ bs s Hs Hf) as E. cbv zeta in E. rewrite Hq, Z.eqb_refl in E. exact E.
Qed.

(** ** Sending *)

Lemma send_tries_step n data c bs s : healthy s -> rng 8 c ->
  send_tries (S n) data (feed (c :: bs) s)
  = if c =? 43 then (0, feed bs (sent (packet data) s)) else send_tries n data (feed bs (sent (packet data) s)).
Proof.
  intros Hs Hc. cbn [send_tries].
  assert ((ok ← write_all [36]; if negb ok then mret false
          else ok ← write_all data; if negb ok then mret false else write_all (packet_tail data)) (feed (c :: bs) s)
          = (true, feed (c :: bs) (sent (packet data) s))) as E.
  { rewrite bind_run. unfold run, exec. rewrite write_all_sent by done. cbn [fst snd negb]. rewrite bind_run. unfold run, exec.
    rewrite write_all_sent by done. cbn [fst snd negb]. rewrite write_all_sent by done. rewrite !sent_feed, !sent_sent. done. }
  rewrite bind_run. unfold run, exec. rewrite E. cbn [fst snd negb]. rewrite bind_run. unfold run, exec. rewrite read_byte_feed by done. cbn [fst snd].
  rewrite (proj2 (Z.ltb_ge c 0)) by apply Hc. by destruct (c =? 43).
Qed.
Lemma send_packet_feed data bs s : healthy s -> send_packet data (feed (43 :: bs) s) = (0, feed bs (sent (packet data) s)).
Proof. intros Hs. unfold send_packet. by rewrite send_tries_step by (done || by apply rng_const). Qed.

(** ** A transfer over a line that garbles *)

(** A frame whose checksum does not match what it carries. *)
Record garbled := mkGarbled { gb_junk : list Z; gb_data : list Z; gb_c1 : Z; gb_c2 : Z }.
Definition gb_frame (g : garbled) : list Z := frame (gb_junk g) (gb_data g) (gb_c1 g) (gb_c2 g).
Definition gb_ok (g : garbled) : Prop :=
  frame_ok (gb_junk g) (gb_data g) (gb_c1 g) (gb_c2 g) /\ packet_sum (gb_data g) .& 0xff <> frame_sum (gb_c1 g) (gb_c2 g).

Lemma send_retries k n data bs s : healthy s -> (k < n)%nat ->
  send_tries n data (feed (repeat 45 k ++ 43 :: bs) s) = (0, feed bs (sent (concat (repeat (packet data) (S k))) s)).
Proof.
  revert n s. induction k as [|k IH]; intros [|n] s Hs Hk; try lia; cbn [repeat app].
  - rewrite send_tries_step by (done || by apply rng_const). cbn [concat]. by rewrite app_nil_r.
  - rewrite send_tries_step by (done || by apply rng_const). change (45 =? 43) with false. cbv iota. rewrite IH by (done || lia).
    by rewrite sent_sent.
Qed.
Lemma read_resent gs data bs fuel : forall s, healthy s -> Forall gb_ok gs -> payload_ok data -> Z.of_nat (length data) <= GDB_BUFSZ - 1 -> (length gs < fuel)%nat ->
  exists s0, read_packet_loop fuel (feed (concat (map gb_frame gs) ++ packet data ++ bs) s)
  = (Z.of_nat (length data), feed bs (received data 43 (sent (repeat 45 (length gs)) (set_g_buf s0 s)))).
Proof.
  revert fuel. induction gs as [|g gs IH]; intros [|fuel] s Hs Hg Hd Hl Hf; cbn [length] in Hf; try lia; cbn [map concat app].
  - exists (g_buf s). destruct (packet_frame_ok data Hd Hl) as [Hfo Hq]. rewrite packet_is_frame.
    pose proof (read_frame fuel _ _ _ _ bs s Hs Hfo) as E. cbv zeta in E. rewrite Hq, Z.eqb_refl in E. rewrite E.
    f_equal. unfold received, sent, upd_link, fill. destruct s as [[]]. cbn. by rewrite app_nil_r.
  - apply Forall_cons_1 in Hg as [[Hfo Hq] Hg]. rewrite <- app_assoc. unfold gb_frame at 1.
    pose proof (read_frame fuel _ _ _ _ (concat (map gb_frame gs) ++ packet data ++ bs) s Hs Hfo) as E. cbv zeta in E.
    rewrite (proj2 (Z.eqb_neq _ _) Hq) in E. rewrite E. 
    destruct (IH fuel (received (gb_data g) 45 s)) as [s0 E0]; [done..|lia|]. exists s0. rewrite E0. f_equal. f_equal.
    unfold received, sent, upd_link, fill. destruct s as [[]]. cbn. by rewrite <- !app_assoc.
Qed.
Lemma read_resent_unreadable gs junk data c1 c2 bs fuel : forall s, healthy s -> Forall gb_ok gs -> junk_ok junk -> payload_ok data ->
  rng 8 c1 -> rng 8 c2 -> unreadable data c1 c2 -> (length gs < fuel)%nat ->
  exists s', read_packet_loop fuel (feed (concat (map gb_frame gs) ++ frame junk data c1 c2 ++ bs) s) = (-1, s') /\
    lk_sent (g_link s') = lk_sent (g_link s) ++ repeat 45 (length gs).
Proof.
  revert fuel. induction gs as [|g gs IH]; intros [|fuel] s Hs Hg Hj Hd H1 H2 Hu Hf; cbn [length] in Hf; try lia; cbn [map concat app length repeat].
  - rewrite app_nil_r. by apply read_unreadable.
  - apply Forall_cons_1 in Hg as [[Hfo Hq] Hg]. rewrite <- app_assoc. unfold gb_frame at 1.
    pose proof (read_frame fuel _ _ _ _ (concat (map gb_frame gs) ++ frame junk data c1 c2 ++ bs) s Hs Hfo) as E. cbv zeta in E.
    rewrite (proj2 (Z.eqb_neq _ _) Hq) in E. rewrite E.
    destruct (IH fuel (received (gb_data g) 45 s)) as (s' & E0 & Es); [done..|lia|]. exists s'. split; [done|].
    rewrite Es. unfold received, sent, upd_link, fill. destruct s as [[]]. cbn. by rewrite <- !app_assoc.
Qed.
Lemma frames_fuel gs bs s : (length gs < S (length (lk_recv (g_link (feed (concat (map gb_frame gs) ++ bs) s)))))%nat.
Proof.
  cbn. rewrite length_map, length_app. enough (length gs <= length (concat (map gb_frame gs)))%nat by lia.
  induction gs as [|g gs IH]; [done|]. cbn [map concat]. rewrite length_app. unfold gb_frame at 1, frame. rewrite length_app. cbn. lia.
Qed.

(** ** The packet buffer *)

(** The buffer holds [req] as a C string. *)
Record holds (req : list Z) (s : GdbStub) : Prop := {
  hd_text : slice (g_buf s) 0 (S (length req)) = req ++ [0];
  hd_nonul : Forall (fun c => c <> 0) req;
  hd_len : Z.of_nat (length req) <= GDB_BUFSZ - 1
}.
Lemma received_holds req ack s : Forall (fun c => c <> 0) req -> Z.of_nat (length req) <= GDB_BUFSZ - 1 -> holds req (received req ack s).
Proof.
  intros Hz Hl. constructor; [|done..]. change (g_buf (received req ack s)) with (put_bytes 0 (req ++ [0]) (g_buf s)).
  replace (S (length req)) with (length (req ++ [0])) by (rewrite length_app; cbn; lia). apply slice_put_bytes.
Qed.
Lemma holds_at req s i : holds req s -> 0 <= i <= Z.of_nat (length req) -> (g_buf s).[i] = nth (Z.to_nat i) req 0.
Proof.
  intros [Ht _ _] Hi. assert (nth (Z.to_nat i) (slice (g_buf s) 0 (S (length req))) 0 = (g_buf s).[i]) as E.
  { rewrite nth_slice by lia. f_equal. lia. }
  rewrite <- E, Ht. destruct (decide (Z.to_nat i < length req)%nat).
  - by rewrite app_nth1 by lia.
  - rewrite app_nth2, (nth_overflow req) by lia. by replace (Z.to_nat i - length req)%nat with 0%nat by lia.
Qed.
Lemma buf_get_holds req s i : holds req s -> 0 <= i <= Z.of_nat (length req) -> buf_get i s = (nth (Z.to_nat i) req 0, s).
Proof.
  intros Hh Hi. pose proof (hd_len _ _ Hh). unfold buf_get. rewrite bind_gets. cbn [id].
  rewrite (proj2 (Z.leb_le 0 i)), (proj2 (Z.ltb_lt i _)) by lia. cbn [andb]. by rewrite (holds_at _ _ _ Hh Hi).
Qed.
Lemma c_string_nul l r : Forall (fun c => c <> 0) l -> c_string (l ++ 0 :: r) = l.
Proof.
  intros H. apply take_while_app; [|done]. apply forallb_forall. intros c Hc. rewrite list.Forall_forall in H.
  apply negb_true_iff, Z.eqb_neq, H. by apply list_elem_of_In.
Qed.
Lemma buf_string_holds req s p : holds req s -> 0 <= p <= Z.of_nat (length req) -> buf_string p s = (drop (Z.to_nat p) req, s).
Proof.
  intros [Ht Hz Hl] Hp. unfold buf_string. rewrite bind_gets. cbn [id].
  set (room := Device.slice _ _ _).
  assert (room = drop (Z.to_nat p) req ++ 0 :: slice (g_buf s) (Z.of_nat (S (length req))) (Z.to_nat (GDB_BUFSZ - 1 - Z.of_nat (length req)))) as E.
  { assert (slice (g_buf s) 0 (Z.to_nat p) ++ room = slice (g_buf s) 0 (S (length req)) ++ slice (g_buf s) (Z.of_nat (S (length req))) (Z.to_nat (GDB_BUFSZ - 1 - Z.of_nat (length req)))) as E.
    { unfold room. rewrite <- (Z2Nat.id p) at 2 by lia. pose proof (slice_split (g_buf s) 0 (Z.to_nat p) (Z.to_nat (GDB_BUFSZ - p))) as E1.
      pose proof (slice_split (g_buf s) 0 (S (length req)) (Z.to_nat (GDB_BUFSZ - 1 - Z.of_nat (length req)))) as E2. rewrite !Z.add_0_l in E1, E2.
      rewrite <- E1, <- E2. f_equal. change GDB_BUFSZ with 8192 in *. lia. }
    rewrite Ht in E. apply (f_equal (drop (Z.to_nat p))) in E. rewrite drop_app_length' in E by (by rewrite length_slice).
    rewrite E, <- app_assoc. rewrite drop_app_le by lia. done. }
  rewrite E. set (rest := Device.slice _ (Z.of_nat (S (length req))) _). rewrite c_string_nul by (by apply Forall_drop).
  rewrite (proj2 (Nat.eqb_neq _ _)); [done|]. rewrite length_app. cbn [length]. lia.
Qed.

(** ** Hexadecimal values *)

Lemma hex_byte_decode b : rng 8 b ->
  exists c1 c2, hex_byte b = [c1; c2] /\ rng 8 c1 /\ rng 8 c2 /\ 0 <= hex_nibble c1 < 16 /\ 0 <= hex_nibble c2 < 16
  /\ c1 <> 0 /\ c2 <> 0 /\ c1 <> 35 /\ c2 <> 35 /\ hex_nibble c1 << 4 .| hex_nibble c2 = b.
Proof.
  intros Hb. destruct (nibble_facts (b >> 4)) as (E1 & ? & R1 & ?). destruct (nibble_facts b) as (E2 & ? & R2 & ?).
  pose proof (land_15 (b >> 4)). pose proof (land_15 b). exists (nibble_hex (b >> 4)), (nibble_hex b).
  rewrite E1, E2. assert ((((b >> 4) .& 0xf) << 4) .| (b .& 0xf) = b).
  { rewrite <- (wrap_small 8 b) at 3 by (done || lia). zbits. }
  repeat split; try done; try lia; try apply R1; try apply R2.
Qed.
Lemma byte_of w b : rng 8 ((w >> (8 * b)) .& 0xff).
Proof. change 0xff with (Z.ones 8). rewrite Z.land_ones by lia. apply Z.mod_pos_bound. lia. Qed.
Lemma join_byte w b : 0 <= b < 8 -> wrap (8 * b) w .| u64 (u32 ((w >> (8 * b)) .& 0xff) << (8 * b)) = wrap (8 * (b + 1)) w.
Proof.
  intros Hb. assert (b = 0 \/ b = 1 \/ b = 2 \/ b = 3 \/ b = 4 \/ b = 5 \/ b = 6 \/ b = 7) as H by lia.
  unfold u32, u64. destruct H as [->|[->|[->|[->|[->|[->|[->| ->]]]]]]]; cbn [Z.mul Z.add Pos.mul Pos.add]; zbits.
Qed.
Lemma hex_loop_holds w n : forall b pre post p s, 0 <= b -> b + Z.of_nat n <= 8 -> Z.of_nat (length pre) = p + 2 * b ->
  holds (pre ++ concat (map (fun k => hex_byte ((w >> (8 * k)) .& 0xff)) (zseq b n)) ++ post) s ->
  hex_to_val_loop n p b (wrap (8 * b) w) s = (Some (wrap (8 * (b + Z.of_nat n)) w), s).
Proof.
  induction n as [|n IH]; intros b pre post p s Hb Hn Hp Hh; cbn [hex_to_val_loop]; [by rewrite Z.add_0_r|].
  cbn [zseq map concat] in Hh. destruct (hex_byte_decode _ (byte_of w b)) as (c1 & c2 & E & R1 & R2 & H1 & H2 & _ & _ & _ & _ & Ej).
  rewrite E in Hh. cbn [app] in Hh.
  rewrite bind_run. unfold run, exec. rewrite (buf_get_holds _ s (p + 2 * b) Hh) by (rewrite length_app; cbn [length]; lia).
  cbn [fst snd]. rewrite bind_run. unfold run, exec. rewrite (buf_get_holds _ s (p + 2 * b + 1) Hh) by (rewrite length_app; cbn [length]; lia).
  cbn [fst snd]. rewrite !app_nth2 by lia. replace (Z.to_nat (p + 2 * b) - length pre)%nat with 0%nat by lia.
  replace (Z.to_nat (p + 2 * b + 1) - length pre)%nat with 1%nat by lia. cbn [nth].
  rewrite !(proj2 (Z.ltb_ge _ 0)) by lia. cbn [orb]. rewrite Ej, join_byte by lia.
  rewrite (IH (b + 1) (pre ++ [c1; c2]) post p s); [f_equal; f_equal; f_equal; lia|lia|lia|rewrite length_app; cbn [length]; lia|].
  rewrite <- app_assoc. exact Hh.
Qed.
Lemma hex_to_val_holds w nb pre post p s : 0 <= nb <= 8 -> Z.of_nat (length pre) = p -> holds (pre ++ val_to_hex_le w nb ++ post) s ->
  hex_to_val_le p nb s = (Some (wrap (8 * nb) w), s).
Proof.
  intros Hn Hp Hh. unfold hex_to_val_le. pose proof (hex_loop_holds w (Z.to_nat nb) 0 pre post p s ltac:(lia) ltac:(lia) ltac:(lia) Hh) as E.
  assert (wrap (8 * 0) w = 0) as E0 by (rewrite wrap_mod by lia; apply Z.mod_1_r). rewrite E0 in E. rewrite E. do 3 f_equal. lia.
Qed.
Lemma val_to_hex_length v nb : 0 <= nb -> length (val_to_hex_le v nb) = Z.to_nat (2 * nb).
Proof.
  intros H. unfold val_to_hex_le. assert (forall b n, length (concat (map (fun k => hex_byte ((v >> (8 * k)) .& 0xff)) (zseq b n))) = (2 * n)%nat) as E.
  { intros b n. revert b. induction n as [|n IH]; intros b; [done|]. cbn [zseq map concat]. rewrite length_app, IH. cbn. lia. }
  rewrite E. lia.
Qed.
Lemma hex_text_ok bs : bytes bs -> payload_ok (concat (map hex_byte bs)) /\ Forall (fun c => c <> 0) (concat (map hex_byte bs)).
Proof.
  induction 1 as [|b bs Hb Hbs [[IHb IHn] IHz]]; [repeat split; [constructor|apply not_elem_of_nil|constructor]|]. cbn [map concat].
  destruct (hex_byte_decode b Hb) as (c1 & c2 & -> & R1 & R2 & _ & _ & ? & ? & ? & ? & _). cbn [app].
  split; [split; [|by rewrite !not_elem_of_cons]|]; by constructor; [|constructor].
Qed.
Lemma val_to_hex_bytes v nb : val_to_hex_le v nb = concat (map hex_byte (map (fun k => (v >> (8 * k)) .& 0xff) (zseq 0 (Z.to_nat nb)))).
Proof. unfold val_to_hex_le. by rewrite map_map. Qed.
Lemma val_bytes v n : bytes (map (fun k => (v >> (8 * k)) .& 0xff) (zseq 0 n)).
Proof. apply Forall_map, Forall_forall. intros k _. apply byte_of. Qed.
