(* ===== verification/GdbSession.v ===== *)
(** * Sessions

    Requests and replies: every request is answered by exactly one packet, in order; an
    error reply means nothing has changed; registers and memory written are read back. *)

From Stdlib Require Import Strings.String.
From S2P Require Import Prelude Device DeviceInv DeviceThms Memory Cache Cpu CpuInv Dtb Engine EngineInv CLib Gdb GdbWire.

(** ** Actions that do not use the connection *)

(** While the debugger is silent ([select] finds nothing), the connection is left alone and
    the bytes to come make no difference. *)
Definition quiet (s : GdbStub) : Prop := lk_poll (g_link s) = [].
(** The connection, and whether the session goes on. *)
Definition ctl (s : GdbStub) : Link * bool * bool := (g_link s, g_dead s, g_running s).
Lemma ctl_quiet s s' : ctl s' = ctl s -> quiet s -> quiet s'.
Proof. unfold quiet. by intros [= -> _ _]. Qed.
Lemma ctl_healthy s s' : ctl s' = ctl s -> healthy s -> healthy s'.
Proof. unfold healthy. by intros [= -> _ _]. Qed.
Definition blind {A} (m : st GdbStub A) : Prop := forall s, quiet s ->
  ctl (exec m s) = ctl s /\ forall bs, m (feed bs s) = (run m s, feed bs (exec m s)).

Lemma blind_ret {A} (a : A) : blind (mret a).
Proof. done. Qed.
Lemma blind_modify (f : GdbStub -> GdbStub) : (forall s, ctl (f s) = ctl s) -> (forall bs s, f (feed bs s) = feed bs (f s)) -> blind (modify f).
Proof. intros Hl H s _. split; [apply Hl|]. intros bs. unfold modify, run, exec. cbn. by rewrite H. Qed.
Lemma blind_bind {A B} (m : st GdbStub A) (k : A -> st GdbStub B) : blind m -> (forall a, blind (k a)) -> blind (m ≫= k).
Proof.
  intros Hm Hk s Hq. destruct (Hm s Hq) as [Hl He]. pose proof (ctl_quiet _ _ Hl Hq) as Hq'.
  destruct (Hk (run m s) (exec m s) Hq') as [Hl' He']. rewrite exec_bind, run_bind. split; [congruence|]. intros bs.
  rewrite bind_run. unfold run at 1, exec at 1. rewrite He. cbn [fst snd]. apply He'.
Qed.
(** Looking at the state: the continuation must not look at the connection. *)
Lemma blind_look {A} (k : GdbStub -> st GdbStub A) : (forall bs s, k (feed bs s) = k s) -> (forall s, blind (k s)) -> blind (gets id ≫= k).
Proof.
  intros He Hk s Hq. destruct (Hk s s Hq) as [Hl Hb]. unfold run, exec in *. rewrite !bind_gets. cbn [id]. split; [done|].
  intros bs. rewrite !bind_gets. cbn [id]. by rewrite He.
Qed.
Lemma blind_if {A} (b : bool) (m m' : st GdbStub A) : blind m -> blind m' -> blind (if b then m else m').
Proof. by destruct b. Qed.
Lemma blind_when b (m : st GdbStub unit) : blind m -> blind (when b m).
Proof. intros. by apply blind_if. Qed.
Lemma blind_engine {A} (m : st Quanta A) : blind (engine m).
Proof. intros s _. unfold engine, run, exec. split; [by destruct (m (g_q s))|]. intros bs. change (g_q (feed bs s)) with (g_q s). by destruct (m (g_q s)). Qed.
Lemma blind_for n : forall i f, (forall k, blind (f k)) -> blind (for_ n i f).
Proof. induction n as [|n IH]; intros i f H; [apply blind_ret|]. apply blind_bind; [apply H|]. intros _. by apply IH. Qed.
Lemma blind_interrupt : blind interrupt_pending.
Proof.
  intros s Hq. unfold quiet in Hq. unfold interrupt_pending, run, exec. rewrite !bind_gets, Hq. rewrite !bind_modify. cbn [tail].
  assert (forall s', lk_poll (g_link s') = [] -> upd_link (set_lk_poll []) s' = s') as E by (intros [[]] E; cbn in E; by subst).
  split; [cbn [fst snd]; by rewrite E|]. intros bs. rewrite !bind_gets. change (lk_poll (g_link (feed bs s))) with (lk_poll (g_link s)).
  rewrite Hq, !bind_modify. cbn [tail]. by rewrite !E.
Qed.

Create HintDb blind discriminated.
#[export] Hint Resolve blind_ret blind_engine blind_interrupt : blind.
Ltac blind_step := first
  [ apply blind_ret | apply blind_engine | solve [auto with blind nocore]
  | apply blind_look; [done|intros ?] | apply blind_bind; [|intros ?] | apply blind_if | apply blind_when
  | apply blind_modify; done | apply blind_for; intros ?
  | match goal with
    | |- blind (match ?x with _ => _ end) => destruct x
    | |- blind (let '(_, _) := ?x in _) => destruct x
    end ].
Ltac blind_auto := repeat (cbv zeta beta; blind_step).

Lemma blind_buf_get i : blind (buf_get i).
Proof. unfold buf_get. blind_auto. Qed.
Lemma blind_buf_string p : blind (buf_string p).
Proof. unfold buf_string. blind_auto. Qed.
#[export] Hint Resolve blind_buf_get blind_buf_string : blind.
Lemma blind_strtoul p : blind (buf_strtoul p).
Proof. unfold buf_strtoul. blind_auto. Qed.
Lemma blind_hex n : forall p b v, blind (hex_to_val_loop n p b v).
Proof. induction n as [|n IH]; intros p b v; cbn [hex_to_val_loop]; blind_auto. Qed.
Lemma blind_hex_bytes n : forall p i, blind (read_hex_bytes n p i).
Proof. induction n as [|n IH]; intros p i; cbn [read_hex_bytes]; blind_auto. Qed.
Lemma blind_hex_val p nb : blind (hex_to_val_le p nb).
Proof. apply blind_hex. Qed.
#[export] Hint Resolve blind_strtoul blind_hex_bytes blind_hex_val : blind.
Lemma blind_write_regs n : forall a nb i, blind (write_regs_loop n a nb i).
Proof. induction n as [|n IH]; intros a nb i; cbn [write_regs_loop]; blind_auto. Qed.
Lemma blind_bp_add a : blind (bp_add a).
Proof. unfold bp_add. blind_auto. Qed.
Lemma blind_bp_remove a : blind (bp_remove a).
Proof. unfold bp_remove. blind_auto. Qed.
Lemma blind_raw_step : blind raw_step.
Proof. unfold raw_step. blind_auto. Qed.
Lemma blind_cp_add n : blind (cp_add n).
Proof. unfold cp_add. blind_auto. Qed.
#[export] Hint Resolve blind_write_regs blind_bp_add blind_bp_remove blind_raw_step blind_cp_add : blind.
Lemma blind_stub_step : blind stub_step.
Proof. unfold stub_step. blind_auto. Qed.
Lemma blind_replay fuel : forall t, blind (replay fuel t).
Proof. induction fuel as [|fuel IH]; intros t; cbn [replay]; blind_auto. Qed.
#[export] Hint Resolve blind_stub_step blind_replay : blind.
Lemma blind_goto t : blind (goto_step t).
Proof. unfold goto_step. blind_auto. Qed.
Lemma blind_scan fuel : forall c h f, blind (scan_back fuel c h f).
Proof. induction fuel as [|fuel IH]; intros c h f; cbn [scan_back]; blind_auto. Qed.
Lemma blind_resume a c p : blind (resume_at a c p).
Proof. unfold resume_at. blind_auto. Qed.
#[export] Hint Resolve blind_goto blind_scan blind_resume : blind.
Lemma blind_continue fuel : forall h g, blind (continue_loop fuel h g).
Proof. induction fuel as [|fuel IH]; intros h g; cbn [continue_loop]; blind_auto. Qed.
Lemma blind_do_continue fuel : blind (do_continue fuel).
Proof. unfold do_continue. apply blind_bind; [apply blind_stub_step|]. intros h. apply blind_continue. Qed.
#[export] Hint Resolve blind_do_continue : blind.

(** ** One request, one reply *)

(** The same stub, but for the record of accesses outside the buffer. *)
Definition unchanged (s s' : GdbStub) : Prop := set_g_oob false s' = set_g_oob false s.
(** Actions that only look. *)
Definition reads {A} (m : st GdbStub A) : Prop := forall s, unchanged s (exec m s).
Definition error_reply (rep : list Z) : bool := match rep with c :: _ => c =? 69 (* E *) | [] => false end.

(** [m] sends one packet that the debugger acknowledges, or the guest is still running; [P]
    relates the state before, the reply and the state after. *)
Definition replies (P : GdbStub -> list Z -> GdbStub -> Prop) (m : st GdbStub Z) (s : GdbStub) : Prop :=
  exists rep s', P s rep s' /\ ctl s' = ctl s /\ forall bs, exec m (feed (43 :: bs) s) = feed bs (sent (packet rep) s').
Definition still_running (m : st GdbStub Z) (s : GdbStub) : Prop :=
  exists s', g_running s' = true /\ g_link s' = g_link s /\ forall bs, exec m (feed bs s) = feed bs s'.
Definition answers (P : GdbStub -> list Z -> GdbStub -> Prop) (m : st GdbStub Z) : Prop :=
  forall s, healthy s -> quiet s -> still_running m s \/ replies P m s.
(** An error reply means that nothing has changed. *)
Definition atomic (s : GdbStub) (rep : list Z) (s' : GdbStub) : Prop := error_reply rep = true -> unchanged s s'.
Definition fine (s : GdbStub) (rep : list Z) (s' : GdbStub) : Prop := error_reply rep = false.
Definition anything (s : GdbStub) (rep : list Z) (s' : GdbStub) : Prop := True.

Lemma answers_weaken (P Q : GdbStub -> list Z -> GdbStub -> Prop) m : (forall s rep s', P s rep s' -> Q s rep s') -> answers P m -> answers Q m.
Proof. intros Hpq H s Hh Hq. destruct (H s Hh Hq) as [?|(rep & s' & Hf & Hr)]; [by left|]. right. exists rep, s'. split; [by apply Hpq|done]. Qed.
Lemma fine_atomic s rep s' : fine s rep s' -> atomic s rep s'.
Proof. intros H E. unfold fine in H. by rewrite H in E. Qed.
Lemma answers_send P data : (forall s, P s data s) -> answers P (send_packet data).
Proof.
  intros Hp s Hh Hq. right. exists data, s. split; [done|]. split; [done|]. intros bs. unfold exec. by rewrite send_packet_feed.
Qed.
Lemma answers_fine data : error_reply data = false -> answers fine (send_packet data).
Proof. intros H. by apply answers_send. Qed.
Lemma answers_atomic data : answers atomic (send_packet data).
Proof. by apply answers_send. Qed.
(** After an action that does not use the connection; what holds of the rest must hold of
    the whole. *)
Lemma answers_bind (Q : GdbStub -> list Z -> GdbStub -> Prop) {A} (m : st GdbStub A) k : blind m ->
  (forall s, quiet s -> exists R, (forall rep s', R (exec m s) rep s' -> Q s rep s') /\ answers R (k (run m s))) -> answers Q (m ≫= k).
Proof.
  intros Hm Hk s Hh Hq. destruct (Hm s Hq) as [Hl He]. destruct (Hk s Hq) as (R & HR & Ha). destruct (Ha (exec m s)) as [(s' & Hr & Hg & Hs)|(rep & s' & Hp & Hl' & Hr)].
  { by apply (ctl_healthy s). } { by apply (ctl_quiet s). }
  - left. exists s'. split; [done|]. split; [injection Hl as E _ _; congruence|]. intros bs. rewrite exec_bind. unfold run, exec at 2. rewrite He. apply Hs.
  - right. exists rep, s'. split; [by apply HR|]. split; [congruence|]. intros bs. rewrite exec_bind. unfold run, exec at 2. rewrite He. apply Hr.
Qed.
Lemma answers_then {A} (m : st GdbStub A) k : blind m -> (forall a, answers fine (k a)) -> answers fine (m ≫= k).
Proof. intros Hm Hk. apply answers_bind; [done|]. intros s _. by exists fine. Qed.
Lemma answers_any {A} (m : st GdbStub A) k : blind m -> (forall a, answers anything (k a)) -> answers anything (m ≫= k).
Proof. intros Hm Hk. apply answers_bind; [done|]. intros s _. by exists anything. Qed.
Lemma answers_reads {A} (m : st GdbStub A) k : blind m -> reads m -> (forall a, answers atomic (k a)) -> answers atomic (m ≫= k).
Proof.
  intros Hm Hu Hk. apply answers_bind; [done|]. intros s _. exists atomic. split; [|done].
  intros rep s' Hp E. unfold unchanged. rewrite (Hp E). apply Hu.
Qed.
(** An action that can fail without effect. *)
Lemma answers_try {A} (m : st GdbStub A) k : blind m -> (forall s, (unchanged s (exec m s) /\ answers atomic (k (run m s))) \/ answers fine (k (run m s))) ->
  answers atomic (m ≫= k).
Proof.
  intros Hm Hk. apply answers_bind; [done|]. intros s _. destruct (Hk s) as [[Hu Ha]|Ha].
  - exists atomic. split; [|done]. intros rep s' Hp E. unfold unchanged. by rewrite (Hp E).
  - exists fine. split; [|done]. intros rep s' Hf E. unfold fine in Hf. by rewrite Hf in E.
Qed.
Lemma answers_look P (k : GdbStub -> st GdbStub Z) : (forall bs s, k (feed bs s) = k s) -> (forall s, answers P (k s)) -> answers P (gets id ≫= k).
Proof.
  intros He Hk s Hh Hq. destruct (Hk s s Hh Hq) as [(s' & Hr & Hg & Hs)|(rep & s' & Hp & Hl & Hr)].
  - left. exists s'. split; [done|]. split; [done|]. intros bs. unfold exec. rewrite bind_gets. cbn [id]. rewrite He. apply Hs.
  - right. exists rep, s'. split; [done|]. split; [done|]. intros bs. unfold exec. rewrite bind_gets. cbn [id]. rewrite He. apply Hr.
Qed.
Lemma answers_if P (b : bool) m m' : answers P m -> answers P m' -> answers P (if b then m else m').
Proof. by destruct b. Qed.

Lemma reads_ret {A} (a : A) : reads (mret a).
Proof. done. Qed.
Lemma reads_bind {A B} (m : st GdbStub A) (k : A -> st GdbStub B) : reads m -> (forall a, reads (k a)) -> reads (m ≫= k).
Proof. intros Hm Hk s. rewrite exec_bind. unfold unchanged. rewrite (Hk (run m s) (exec m s)). apply Hm. Qed.
Lemma reads_look {A} (k : GdbStub -> st GdbStub A) : (forall s, reads (k s)) -> reads (gets id ≫= k).
Proof. intros Hk s. unfold exec. rewrite bind_gets. apply Hk. Qed.
Lemma reads_buf_get i : reads (buf_get i).
Proof. unfold buf_get. apply reads_look. intros s. by destruct (_ && _). Qed.
Lemma reads_buf_string p : reads (buf_string p).
Proof. unfold buf_string. apply reads_look. intros s. apply reads_bind; [|by intros]. by destruct (_ =? _)%nat. Qed.
Lemma reads_strtoul p : reads (buf_strtoul p).
Proof. unfold buf_strtoul. apply reads_bind; [apply reads_buf_string|]. intros a. by destruct (strtoul 16 a). Qed.
Lemma reads_hex n : forall p b v, reads (hex_to_val_loop n p b v).
Proof.
  induction n as [|n IH]; intros p b v; cbn [hex_to_val_loop]; [apply reads_ret|]. do 2 (apply reads_bind; [apply reads_buf_get|intros ?]).
  cbv zeta. destruct (_ || _); [apply reads_ret|apply IH].
Qed.
Lemma reads_hex_bytes n : forall p i, reads (read_hex_bytes n p i).
Proof.
  induction n as [|n IH]; intros p i; cbn [read_hex_bytes]; [apply reads_ret|]. do 2 (apply reads_bind; [apply reads_buf_get|intros ?]).
  cbv zeta. destruct (_ || _); [apply reads_ret|]. apply reads_bind; [apply IH|by intros].
Qed.
#[export] Hint Resolve reads_buf_get reads_buf_string reads_strtoul reads_hex_bytes : blind.
Lemma reads_hex_val p nb : reads (hex_to_val_le p nb).
Proof. apply reads_hex. Qed.
#[export] Hint Resolve reads_hex_val : blind.

(** ** The handlers *)

Lemma answers_stop sig b : answers fine (send_stop sig b).
Proof.
  apply answers_look; [done|]. intros s. apply answers_fine. unfold stop_reply.
  destruct (quanta_halt_reason (g_q s)); try done. by destruct (_ && _).
Qed.
(** While the debugger is silent nothing interrupts the guest. *)
Definition uninterrupted (r : ContResult) : Prop := r = CONT_HALTED \/ r = CONT_BREAK \/ r = CONT_RUNNING.
Lemma interrupt_quiet s : quiet s -> interrupt_pending s = (0, s).
Proof.
  intros Hq. unfold quiet in Hq. unfold interrupt_pending. rewrite bind_gets, Hq, bind_modify. cbn [tail].
  destruct s as [[]]. cbn in Hq. by subst.
Qed.
Lemma blind_quiet {A} (m : st GdbStub A) s : blind m -> quiet s -> quiet (exec m s).
Proof. intros Hm Hq. by apply (ctl_quiet s), Hq; apply Hm. Qed.
Lemma continue_uninterrupted fuel : forall h g s, quiet s -> uninterrupted (run (continue_loop fuel h g) s).
Proof.
  induction fuel as [|fuel IH]; intros h g s Hq; cbn [continue_loop]; destruct (negb _); [by left|by right; right|by left|].
  unfold run. rewrite bind_gets. destruct (bp_match _ _); [by right; left|]. cbv zeta. set (g' := u64 _).
  assert ((if (g' .& 0xffff) =? 0 then interrupt_pending else mret 0) s = (0, s)) as E by (destruct (_ =? 0); [by apply interrupt_quiet|done]).
  rewrite bind_run. unfold run, exec. rewrite E. cbn [fst snd Z.ltb Z.compare]. rewrite bind_run. apply IH. by apply blind_quiet; [apply blind_stub_step|].
Qed.
Lemma do_continue_uninterrupted fuel s : quiet s -> uninterrupted (run (do_continue fuel) s).
Proof. intros Hq. unfold do_continue. rewrite run_bind. by apply continue_uninterrupted, blind_quiet; [apply blind_stub_step|]. Qed.

Lemma answers_continue fuel : answers fine (continue_and_reply fuel).
Proof.
  apply answers_bind; [apply blind_do_continue|]. intros s Hq. exists fine. split; [done|].
  destruct (do_continue_uninterrupted fuel s Hq) as [-> |[-> | ->]]; [apply answers_stop..|].
  intros s' _ _. left. by exists (set_g_running true s').
Qed.
Ltac fine_step := cbv zeta beta; match goal with
  | |- answers fine (reply _) => apply answers_fine; reflexivity
  | |- answers fine (send_packet _) => apply answers_fine; reflexivity
  | |- answers fine (send_stop _ _) => apply answers_stop
  | |- answers fine (continue_and_reply _) => apply answers_continue
  | |- answers fine (gets id ≫= _) => apply answers_look; [done|intros ?]
  | |- answers fine (_ ≫= _) => apply answers_then; [solve [blind_auto]|intros ?]
  | |- answers fine (if _ then _ else _) => apply answers_if
  | |- answers fine (match ?x with _ => _ end) => destruct x
  end.
(** A reply that is an error only before anything has changed. *)
Ltac answer := cbv zeta beta; match goal with
  | |- answers fine _ => fine_step
  | |- answers atomic (reply _) => apply answers_atomic
  | |- answers atomic (send_packet _) => apply answers_atomic
  | |- answers atomic (gets id ≫= _) => apply answers_look; [done|intros ?]
  | |- answers atomic (_ ≫= _) => apply answers_reads; [solve [auto with blind nocore]..|intros ?]
  | |- answers atomic (if _ then _ else _) => apply answers_if
  | |- answers atomic (match ?x with _ => _ end) => destruct x
  | |- answers atomic _ => apply (answers_weaken _ _ _ fine_atomic); solve [repeat fine_step]
  end.
Ltac answer_auto := repeat answer.

Lemma answers_reverse_step : answers fine handle_reverse_step.
Proof. unfold handle_reverse_step. answer_auto. Qed.
Lemma answers_reverse_continue : answers fine handle_reverse_continue.
Proof. unfold handle_reverse_continue. answer_auto. Qed.
Lemma answers_read_regs : answers atomic handle_read_regs.
Proof. unfold handle_read_regs. answer_auto. Qed.
Lemma answers_read_reg a : answers atomic (handle_read_reg a).
Proof. unfold handle_read_reg. answer_auto. Qed.
Lemma answers_write_reg a : answers atomic (handle_write_reg a).
Proof. unfold handle_write_reg. answer_auto. Qed.
Lemma answers_read_mem a : answers atomic (handle_read_mem a).
Proof. unfold handle_read_mem. answer_auto. Qed.

Lemma answers_step a c : answers fine (handle_step a c).
Proof. unfold handle_step. answer_auto. Qed.
Lemma answers_resume fuel a c : answers fine (handle_continue fuel a c).
Proof. unfold handle_continue. apply answers_then; [apply blind_resume|intros _]. apply answers_continue. Qed.
Lemma answers_v fuel a : answers atomic (handle_v fuel a).
Proof.
  unfold handle_v. answer_auto.
Qed.
Lemma answers_qxfer a : answers atomic (handle_qxfer a).
Proof. unfold handle_qxfer. answer_auto. Qed.
Lemma answers_query a : answers atomic (handle_query a).
Proof. unfold handle_query. answer_auto. apply answers_qxfer. Qed.

Lemma mem_write_fails addr bs s : run (engine (quanta_mem_write addr bs)) s <> QUANTA_OK -> exec (engine (quanta_mem_write addr bs)) s = s.
Proof.
  unfold engine, quanta_mem_write, run, exec. rewrite bind_gets. cbn [id]. destruct (in_range _ _ _); [by intros []|]. intros _. by destruct s.
Qed.
Lemma answers_write_mem a : answers atomic (handle_write_mem a).
Proof.
  unfold handle_write_mem. answer_auto. apply answers_try; [solve [blind_auto]|]. intros s.
  destruct (_ =? 0); [right; rewrite run_ret, bool_decide_eq_true_2 by done; by apply answers_fine|].
  set (m := engine (quanta_mem_write _ _)). destruct (bool_decide (run m s = QUANTA_OK)) eqn:E; [right; by apply answers_fine|].
  apply bool_decide_eq_false in E. left. split; [unfold m in *; by rewrite mem_write_fails|apply answers_atomic].
Qed.
Lemma bp_add_fails addr s : run (bp_add addr) s = false -> exec (bp_add addr) s = s.
Proof. unfold bp_add, run, exec. rewrite bind_gets. cbn [id]. destruct (bp_match s addr); [done|]. by destruct (List.find _ _). Qed.
Lemma answers_bp a set : answers atomic (handle_bp a set).
Proof.
  unfold handle_bp. answer_auto. apply answers_try; [apply blind_bp_add|]. intros s. destruct (run _ s) eqn:E; [by right; answer_auto|].
  left. split; [by rewrite bp_add_fails|answer_auto].
Qed.
Lemma answers_write_regs a : answers anything (handle_write_regs a).
Proof.
  assert (forall t, answers anything (reply t)) as Hr by (intros t; by apply answers_send).
  unfold handle_write_regs. apply answers_look; [done|]. intros s. cbv zeta. apply answers_any; [apply blind_buf_string|intros str].
  apply answers_if; [apply Hr|]. apply answers_any; [apply blind_write_regs|intros ok]. apply answers_if; [apply Hr|].
  apply answers_any; [apply blind_hex_val|]. intros [pc|]; [|apply Hr]. apply answers_any; [apply blind_engine|]. intros _. apply Hr.
Qed.

(** ** Rounds of the session loop *)

Record idle (s : GdbStub) : Prop := {
  id_healthy : healthy s;
  id_quiet : quiet s;
  id_alive : g_dead s = false;
  id_stopped : g_running s = false
}.
(** A request: a command character and its arguments, short enough for the buffer.  A kill
    ([k]) is not one, since it has no reply. *)
Record request (req : list Z) : Prop := {
  rq_payload : payload_ok req;
  rq_len : Z.of_nat (length req) <= GDB_BUFSZ - 1;
  rq_some : req <> [];
  rq_cmd : hd 0 req <> 3 /\ hd 0 req <> 107
}.

Lemma idle_ctl s s' : ctl s' = ctl s -> idle s -> idle s'.
Proof. intros E []. pose proof (ctl_healthy _ _ E id_healthy0). pose proof (ctl_quiet _ _ E id_quiet0). injection E as E1 E2 E3. constructor; congruence. Qed.
Lemma serve_request rounds fuel req bs s : idle s -> g_want_quit s = false -> request req ->
  serve_loop (S rounds) fuel (feed (packet req ++ bs) s)
  = (dispatch_packet fuel (hd 0 req) ;; serve_loop rounds fuel) (feed bs (received req 43 s)).
Proof.
  intros [Hh Hq Hd Hr] Hw [Hp Hl Hne [H3 _]]. cbn [serve_loop]. rewrite bind_gets. cbn [id].
  change (g_dead (feed (packet req ++ bs) s)) with (g_dead s). change (g_want_quit (feed (packet req ++ bs) s)) with (g_want_quit s).
  change (g_running (feed (packet req ++ bs) s)) with (g_running s). rewrite Hd, Hw, Hr. cbn [orb].
  rewrite bind_run. unfold run, exec. rewrite read_packet_feed by done. cbn [fst snd].
  rewrite (proj2 (Z.ltb_ge _ 0)) by lia. rewrite bind_run. unfold run, exec. destruct req as [|c args]; [done|]. cbn [hd] in *.
  assert (buf_get 0 (feed bs (received (c :: args) 43 s)) = (c, feed bs (received (c :: args) 43 s))) as E.
  { unfold buf_get. rewrite bind_gets. cbn [id]. change ((0 <=? 0) && (0 <? GDB_BUFSZ)) with true. cbv iota.
    change (g_buf (feed bs (received (c :: args) 43 s))) with (put_bytes 0 (c :: (args ++ [0])) (g_buf s)). cbn [put_bytes].
    rewrite put_bytes_out by lia. by rewrite aget_aset_eq. }
  rewrite E. cbn [fst snd length]. rewrite (proj2 (Z.eqb_neq c 3)), andb_false_r, (proj2 (Z.eqb_neq _ 0)) by (done || lia). done.
Qed.

Lemma exec_drop {A} (m : st GdbStub A) s : exec (m ;; mret tt) s = exec m s.
Proof. by rewrite exec_bind. Qed.
Ltac answer_handler := match goal with
  | |- answers atomic (reply _) => apply answers_atomic
  | |- answers atomic handle_read_regs => apply answers_read_regs
  | |- answers atomic (handle_read_reg _) => apply answers_read_reg
  | |- answers atomic (handle_write_reg _) => apply answers_write_reg
  | |- answers atomic (handle_read_mem _) => apply answers_read_mem
  | |- answers atomic (handle_write_mem _) => apply answers_write_mem
  | |- answers atomic (handle_bp _ _) => apply answers_bp
  | |- answers atomic (handle_query _) => apply answers_query
  | |- answers atomic (handle_v _ _) => apply answers_v
  | |- answers atomic _ => apply (answers_weaken _ _ _ fine_atomic); answer_handler
  | |- answers fine (send_stop _ _) => apply answers_stop
  | |- answers fine (handle_continue _ _ _) => apply answers_resume
  | |- answers fine (handle_step _ _) => apply answers_step
  | |- answers fine handle_reverse_step => apply answers_reverse_step
  | |- answers fine handle_reverse_continue => apply answers_reverse_continue
  | |- answers fine (reply _) => apply answers_fine; reflexivity
  | |- answers fine (buf_get _ ≫= _) => apply answers_then; [apply blind_buf_get|intros ?]; answer_handler
  | |- answers fine (if _ then _ else _) => apply answers_if; answer_handler
  end.
(** The dispatcher calls one handler. *)
Lemma dispatch_answers fuel c : c <> 107 -> c <> 68 ->
  exists m, (forall s, exec (dispatch_packet fuel c) s = exec m s) /\ answers (if c =? 71 then anything else atomic) m.
Proof.
  intros Hk Hd. unfold dispatch_packet. cbv zeta. rewrite (proj2 (Z.eqb_neq c 107)), (proj2 (Z.eqb_neq c 68)) by done.
  destruct (Z.eqb_spec c 71) as [->|Hg].
  { exists (handle_write_regs 1). split; [intros s; cbn [Z.eqb Pos.eqb]; by rewrite exec_drop|apply answers_write_regs]. }
  repeat match goal with
  | |- context [if ?x =? 98 then _ else _] =>
    destruct (x =? 98);
    [eexists (buf_get 1 ≫= fun c => if c =? 115 then handle_reverse_step else if c =? 99 then handle_reverse_continue else reply "");
     split; [intros s; rewrite !exec_bind; destruct (_ =? 115); [by rewrite exec_drop|destruct (_ =? 99); by rewrite exec_drop]|]|]
  | |- context [if ?b then (_ ≫= _) else _] => destruct b; [eexists; split; [intros s; apply exec_drop|]|]
  end.
  all: first [ solve [answer_handler] | idtac ].
  eexists. split; [intros s; apply exec_drop|apply answers_atomic].
Qed.

(** What a request does: the guest is left running, or one reply is sent. *)
Lemma request_outcome fuel req s : idle s -> request req ->
  let s0 := received req 43 s in
  (exists s', g_running s' = true /\ lk_sent (g_link s') = lk_sent (g_link s0) /\ forall bs, exec (dispatch_packet fuel (hd 0 req)) (feed (43 :: bs) s0) = feed (43 :: bs) s') \/
  (exists rep s', ctl s' = ctl s0 /\ (hd 0 req <> 71 -> atomic s0 rep s') /\
    forall bs, exec (dispatch_packet fuel (hd 0 req)) (feed (43 :: bs) s0) = feed bs (sent (packet rep) s')).
Proof.
  intros [Hh Hq Hd Hr] [_ _ _ [_ Hk]]. cbv zeta. set (s0 := received req 43 s).
  assert (healthy s0 /\ quiet s0) as [Hh0 Hq0] by done. destruct (Z.eq_dec (hd 0 req) 68) as [E|Hnd].
  - right. exists (chars "OK"), (set_g_want_quit true s0). split; [done|]. split; [done|]. intros bs. rewrite E. unfold dispatch_packet.
    cbn [Z.eqb Pos.eqb orb]. rewrite exec_bind. unfold reply, exec at 2. by rewrite send_packet_feed by done.
  - destruct (dispatch_answers fuel (hd 0 req) Hk Hnd) as (m & Em & Ha). destruct (Ha s0 Hh0 Hq0) as [(s' & Hs & Hg & Hrun)|(rep & s' & Hp & Hc & Hrep)].
    + left. exists s'. split; [done|]. split; [by rewrite Hg|intros bs; rewrite Em; apply Hrun].
    + right. exists rep, s'. split; [done|]. split; [|intros bs; rewrite Em; apply Hrep]. intros H71. by rewrite (proj2 (Z.eqb_neq _ 71)) in Hp.
Qed.

(** ** Whole sessions *)

(** What a debugger sends that waits for each reply and acknowledges it. *)
Definition dialogue (reqs : list (list Z)) : list Z := concat (map (fun req => packet req ++ [43]) reqs).
(** What it receives: each request acknowledged and answered. *)
Definition answered (reps : list (list Z)) : list Z := concat (map (fun rep => 43 :: packet rep) reps).

Lemma serve_ends rounds fuel s : g_want_quit s = true \/ g_running s = true -> exec (serve_loop rounds fuel) s = s.
Proof.
  intros H. destruct rounds; [done|]. cbn [serve_loop]. unfold exec. rewrite bind_gets. cbn [id].
  assert (g_dead s || g_want_quit s || g_running s = true) as -> by (destruct H as [-> | ->]; destruct (g_dead s), (g_want_quit s); done). done.
Qed.
Lemma serve_eof rounds fuel s : idle s -> lk_sent (g_link (exec (serve_loop rounds fuel) (feed [] s))) = lk_sent (g_link s).
Proof.
  intros [_ _ Hd Hr]. destruct rounds; [done|]. cbn [serve_loop]. unfold exec. rewrite bind_gets. cbn [id].
  destruct (_ || _); [done|]. rewrite bind_run. change (run read_packet (feed [] s)) with (-1). done.
Qed.

(** C32 [gdb_session]: a debugger that sends requests one after the other gets them all
    acknowledged and answered, in order and by exactly one well-framed packet each, until the
    session ends at its own wish or the guest is left running. *)
Theorem gdb_session_answers reqs : forall rounds fuel s, idle s -> g_want_quit s = false -> Forall request reqs -> (length reqs <= rounds)%nat ->
  let s' := exec (serve_loop rounds fuel) (feed (dialogue reqs) s) in
  exists reps, (length reps <= length reqs)%nat /\
    ((length reps = length reqs /\ lk_sent (g_link s') = lk_sent (g_link s) ++ answered reps) \/
     (g_want_quit s' = true /\ lk_sent (g_link s') = lk_sent (g_link s) ++ answered reps) \/
     (g_running s' = true /\ lk_sent (g_link s') = lk_sent (g_link s) ++ answered reps ++ [43])).
Proof.
  induction reqs as [|req reqs IH]; intros rounds fuel s Hi Hw Hreq Hr; cbv zeta.
  - exists []. split; [done|]. left. split; [done|]. change (dialogue []) with (@nil Z). rewrite serve_eof by done. by rewrite app_nil_r.
  - destruct rounds as [|rounds]; [cbn in Hr; lia|]. apply Forall_cons_1 in Hreq as [Hq Hreq].
    unfold dialogue. cbn [map concat]. rewrite <- !app_assoc. cbn [app]. fold (dialogue reqs). unfold exec.
    rewrite serve_request by done. fold (exec (dispatch_packet fuel (hd 0 req);; serve_loop rounds fuel) (feed (43 :: dialogue reqs) (received req 43 s))).
    rewrite exec_bind.
    destruct (request_outcome fuel req s Hi Hq) as [(s1 & Hrun & Hl & E)|(rep & s1 & Hc & _ & E)]; rewrite E.
    + exists []. split; [cbn; lia|]. right. right. rewrite serve_ends by (by right). split; [done|]. exact Hl.
    + set (s2 := sent (packet rep) s1).
      assert (lk_sent (g_link s2) = lk_sent (g_link s) ++ 43 :: packet rep) as E2.
      { unfold s2, sent, upd_link. cbn. injection Hc as -> _ _. cbn. by rewrite <- app_assoc. }
      destruct (g_want_quit s1) eqn:Ew.
      * exists [rep]. split; [cbn; lia|]. right. left. rewrite serve_ends by (by left). split; [done|].
        change (lk_sent (g_link (feed (dialogue reqs) s2))) with (lk_sent (g_link s2)). rewrite E2. cbn. by rewrite app_nil_r.
      * assert (idle s2) as Hi2. { destruct Hi as [Hh Hqq Hd Hrn]. injection Hc as Hl Hd' Hr'. constructor; [unfold healthy, s2; cbn; by rewrite Hl|unfold quiet, s2; cbn; by rewrite Hl|..]; unfold s2; cbn; congruence. }
        destruct (IH rounds fuel s2 Hi2 Ew Hreq ltac:(cbn in Hr; lia)) as (reps & Hn & Ho). cbv zeta in Ho. rewrite E2 in Ho.
        exists (rep :: reps). split; [cbn; lia|]. unfold answered in *. cbn [map concat length]. rewrite <- !app_assoc in Ho. cbn [app] in *.
        rewrite <- !app_assoc. destruct Ho as [[? ?]|Ho]; [left; split; [lia|done]|right; exact Ho].
Qed.
