(* ===== verification/GdbThms.v ===== *)
(** * What a debugger can rely on

    Transfers over a noisy line, error replies, registers and memory through the protocol. *)

From Stdlib Require Import Strings.String.
From S2P Require Import Prelude Device DeviceInv DeviceThms Memory Cache Cpu CpuInv Dtb Engine EngineInv EngineReach EngineThms CLib Gdb GdbWire GdbSession.

(** C36 [gdb_transfer]: a packet sent over a line that damages up to four copies of it arrives,
    when the damage leaves each copy a frame ([$], a payload within the buffer, [#] and two
    hexadecimal digits, possibly after bytes other than [$] and Ctrl-C) whose checksum does not
    match: the receiver refuses each such copy with [-], the sender repeats the packet after
    each refusal, and the receiver ends with exactly the payload in its buffer.  Other damage is
    not recovered from: where the copy after those has a payload longer than the buffer or a
    checksum digit that is not hexadecimal, [read_packet] returns -1, the end of the session,
    and sends no further refusal. *)
Theorem packet_transfer data gs bs A B : healthy A -> healthy B -> payload_ok data -> Forall (fun c => c <> 0) data ->
  Z.of_nat (length data) <= GDB_BUFSZ - 1 -> Forall gb_ok gs -> (length gs < 5)%nat ->
  let acks := repeat 45 (length gs) ++ [43] in
  let A' := send_packet data (feed acks A) in let B' := read_packet (feed (concat (map gb_frame gs) ++ packet data ++ bs) B) in
  (A'.1 = 0 /\ g_dead A'.2 = g_dead A /\ lk_sent (g_link A'.2) = lk_sent (g_link A) ++ concat (repeat (packet data) (S (length gs))) /\
   B'.1 = Z.of_nat (length data) /\ holds data B'.2 /\ lk_sent (g_link B'.2) = lk_sent (g_link B) ++ acks /\ lk_recv (g_link B'.2) = map RecvByte bs) /\
  (forall junk d c1 c2, junk_ok junk -> payload_ok d -> rng 8 c1 -> rng 8 c2 -> unreadable d c1 c2 ->
   let B'' := read_packet (feed (concat (map gb_frame gs) ++ frame junk d c1 c2 ++ bs) B) in
   B''.1 = -1 /\ lk_sent (g_link B''.2) = lk_sent (g_link B) ++ repeat 45 (length gs)).
Proof.
  intros HA HB Hd Hz Hl Hg Hn. cbv zeta. split.
  - unfold send_packet. rewrite send_retries by done. cbn [fst snd]. unfold read_packet. rewrite bind_gets.
    edestruct (read_resent gs data bs) as [b ->]; [done..|apply frames_fuel|].
    cbn [fst snd]. repeat split; try done; [by apply received_holds|]. cbn. by rewrite <- app_assoc.
  - intros junk d c1 c2 Hj Hdd H1 H2 Hu. unfold read_packet. rewrite bind_gets.
    edestruct (read_resent_unreadable gs junk d c1 c2 bs) as (s' & -> & E); [done..|apply frames_fuel|done].
Qed.
Lemma packet_transfer_witness : let s := mkGdbStub (mkLink [] [] [] []) quanta_create true false false ∅ ∅ 0 false 0 ∅ 0 ∅ false false in
  let g := mkGarbled [45] (chars "mX") 48 48 in
  gb_ok g /\ (read_packet (feed (gb_frame g ++ packet (chars "m80,4")) s)).1 = 5 /\
  (read_packet (feed (gb_frame g ++ frame [] (chars "m80,4") 102 122) s)).1 = -1.
Proof.
  cbv zeta. assert (gb_ok (mkGarbled [45] (chars "mX") 48 48)) as Hg.
  { split; [constructor|by vm_compute]; [| |done|split; [by apply rng_const|done]..].
    - constructor; [by split; [apply rng_const|]|constructor].
    - split; [by apply bytes_forallb|]. by apply (bool_decide_unpack _); vm_compute. }
  split; [done|].
  destruct (packet_transfer (chars "m80,4") [mkGarbled [45] (chars "mX") 48 48] [] 
    (mkGdbStub (mkLink [] [] [] []) quanta_create true false false ∅ ∅ 0 false 0 ∅ 0 ∅ false false)
    (mkGdbStub (mkLink [] [] [] []) quanta_create true false false ∅ ∅ 0 false 0 ∅ 0 ∅ false false)) as [(_ & _ & _ & E & _) X]; [done|done| | |done| | |].
  - split; [by apply bytes_forallb|]. by apply (bool_decide_unpack _); vm_compute.
  - by apply (bool_decide_unpack _); vm_compute.
  - by constructor.
  - cbn; lia.
  - split; [exact E|]. refine (proj1 (X [] (chars "m80,4") 102 122 _ _ _ _ _)); [constructor| |by apply rng_const..|by right; right].
    split; [by apply bytes_forallb|]. by apply (bool_decide_unpack _); vm_compute.
Defined.

(** ** One exchange *)

Definition ask (fuel : nat) (req : list Z) (s : GdbStub) : GdbStub := exec (serve_loop 1 fuel) (feed (packet req ++ [43]) s).
Lemma ask_exec fuel req s : idle s -> g_want_quit s = false -> request req ->
  ask fuel req s = exec (dispatch_packet fuel (hd 0 req)) (feed [43] (received req 43 s)).
Proof.
  intros Hi Hw Hr. unfold ask, exec. rewrite serve_request by done. rewrite bind_run. done.
Qed.

(** C33 [gdb_errors]: an error reply ([E..]) to any request but [G] means that the request had
    no effect: the machine, the breakpoints, the checkpoints and the step count are the ones
    before it. *)
Theorem gdb_error_atomic fuel req s : idle s -> g_want_quit s = false -> request req -> hd 0 req <> 71 ->
  let s' := ask fuel req s in
  g_running s' = true \/ exists rep, lk_sent (g_link s') = lk_sent (g_link s) ++ 43 :: packet rep /\
    (error_reply rep = true -> g_q s' = g_q s /\ g_bp s' = g_bp s /\ g_bp_used s' = g_bp_used s /\ g_cp s' = g_cp s /\ g_nsteps s' = g_nsteps s).
Proof.
  intros Hi Hw Hr Hg. cbv zeta. rewrite ask_exec by done. destruct (request_outcome fuel req s Hi Hr) as [(s1 & Hrun & _ & E)|(rep & s1 & Hc & Ha & E)]; rewrite E.
  - by left.
  - right. exists rep. split; [cbn; injection Hc as -> _ _; cbn; by rewrite <- app_assoc|].
    intros He. pose proof (Ha Hg He) as Hu. unfold unchanged in Hu.
    assert (forall {B} (f : GdbStub -> B), (forall b x, f (set_g_oob b x) = f x) -> f s1 = f (received req 43 s)) as H.
    { intros B f Hf. rewrite <- (Hf false s1), Hu. apply Hf. }
    repeat split; [apply (H _ g_q)|apply (H _ g_bp)|apply (H _ g_bp_used)|apply (H _ g_cp)|apply (H _ g_nsteps)]; done.
Qed.

(** A debugger attached to a machine that has just been loaded. *)
Definition debugged : GdbStub := gdb_attach two_exits (mkLink [] [] [] []).
Lemma debugged_idle : idle debugged /\ g_want_quit debugged = false.
Proof. by repeat split; vm_compute. Qed.
Definition is_request (req : list Z) : bool :=
  forallb (fun c => (0 <=? c) && (c <? 256) && negb (c =? 35)) req && (Z.of_nat (length req) <=? GDB_BUFSZ - 1)
  && match req with c :: _ => negb (c =? 3) && negb (c =? 107) | [] => false end.
Lemma is_request_ok req : is_request req = true -> request req.
Proof.
  unfold is_request. intros [[H Hl%Z.leb_le]%andb_true_iff Hc]%andb_true_iff. rewrite forallb_forall in H.
  assert (forall c, c ∈ req -> rng 8 c /\ c <> 35) as Hr by (intros c Hi%list_elem_of_In%H; unfold rng; lia).
  constructor; [|done|by destruct req|destruct req; cbn in *; lia].
  split; [apply list.Forall_forall; intros c Hi; by apply Hr|]. intros Hi. by destruct (Hr _ Hi).
Qed.
Lemma gdb_error_atomic_witness : request (chars "M0,1:ff") /\
  lk_sent (g_link (ask 0 (chars "M0,1:ff") debugged)) = 43 :: packet (chars "E0e") /\
  exists rep, lk_sent (g_link (ask 0 (chars "M0,1:ff") debugged)) = lk_sent (g_link debugged) ++ 43 :: packet rep /\
    (error_reply rep = true -> g_q (ask 0 (chars "M0,1:ff") debugged) = g_q debugged).
Proof.
  assert (request (chars "M0,1:ff")) as Hr by (by apply is_request_ok; vm_compute). split; [exact Hr|]. destruct debugged_idle as [Hi Hw].
  split; [vm_compute; reflexivity|].
  destruct (gdb_error_atomic 0 (chars "M0,1:ff") debugged Hi Hw Hr ltac:(done)) as [Hx|(rep & Hs & He)].
  - assert (g_running (ask 0 (chars "M0,1:ff") debugged) = false) as Hf by (vm_compute; reflexivity). rewrite Hf in Hx. discriminate Hx.
  - exists rep. split; [exact Hs|]. intros E. apply He, E.
Defined.

(** ** Registers *)

Definition xlen_ok (q : Quanta) : Prop := q_loaded q = true /\ (c_xlen (the_hart 0 q) = 32 \/ c_xlen (the_hart 0 q) = 64).
Definition regs_text (nb : Z) (vs : list Z) : list Z := concat (map (fun v => val_to_hex_le v nb) vs).
Fixpoint set_regs (i : Z) (vs : list Z) (q : Quanta) : Quanta :=
  match vs with [] => q | v :: vs => set_regs (i + 1) vs (exec (quanta_set_reg i v) q) end.

Lemma set_reg_hart i v q : 0 <= i < 32 -> the_hart 0 (exec (quanta_set_reg i v) q) = reg_write i v (the_hart 0 q).
Proof.
  intros Hi. unfold quanta_set_reg. rewrite (proj2 (Z.leb_le 0 i)), (proj2 (Z.leb_le i 31)) by lia. cbn [andb when].
  unfold on_hart, exec. rewrite machine_run. unfold the_hart. cbn [snd set_q_world q_world]. unfold cpu_upd. rewrite exec_modify.
  by rewrite hart_upd, decide_True.
Qed.
Lemma set_reg_kept i v q : let q' := exec (quanta_set_reg i v) q in
  q_loaded q' = q_loaded q /\ c_xlen (the_hart 0 q') = c_xlen (the_hart 0 q) /\ c_pc (the_hart 0 q') = c_pc (the_hart 0 q).
Proof.
  cbv zeta. unfold quanta_set_reg. destruct (_ && _) eqn:E; [|done]. cbn [when]. unfold on_hart, exec. rewrite machine_run.
  unfold the_hart. cbn [snd set_q_world q_world q_loaded]. unfold cpu_upd. rewrite exec_modify, hart_upd, decide_True by done.
  unfold reg_write. by destruct (i =? 0).
Qed.
Lemma xlen_val_sext q v : xlen_ok q -> rng (c_xlen (the_hart 0 q)) v -> xlen_val q (sext_xlen (the_hart 0 q) v) = v.
Proof.
  intros [_ Hx] Hv. unfold xlen_val, sext_xlen. destruct Hx as [E|E]; rewrite E in *; cbn [Z.eqb Pos.eqb]; [|done].
  change 0xffffffff with (Z.ones 32). rewrite Z.land_ones, <- wrap_mod by lia. unfold u64. rewrite wrap_wrap by lia.
  unfold s32. rewrite wrap_sgn by lia. by apply wrap_small.
Qed.
Lemma quanta_reg_set i v j q : xlen_ok q -> rng (c_xlen (the_hart 0 q)) v -> 0 <= i < 32 -> 0 <= j < 32 ->
  quanta_reg (exec (quanta_set_reg i v) q) j = if (j =? i) && negb (i =? 0) then v else quanta_reg q j.
Proof.
  intros Hx Hv Hi Hj. unfold quanta_reg. rewrite (proj2 (Z.ltb_ge j 0)), (proj2 (Z.ltb_ge 31 j)) by lia. cbn [orb].
  destruct (set_reg_kept i v q) as (_ & Ex & _). pose proof (xlen_val_sext q v Hx Hv) as Es. unfold xlen_val in *. rewrite Ex.
  rewrite set_reg_hart by done. unfold reg_write, reg_read. destruct (Z.eqb_spec i 0) as [->|Hi0]; [by rewrite andb_false_r|].
  rewrite andb_true_r. destruct (Z.eqb_spec j 0) as [->|Hj0]; [by rewrite (proj2 (Z.eqb_neq 0 i)) by lia|].
  cbn [set_c_regs c_regs]. destruct (Z.eqb_spec j i) as [->|Hne]; [rewrite aget_aset_eq; exact Es|by rewrite aget_aset_ne].
Qed.
Lemma set_regs_kept vs : forall i q, let q' := set_regs i vs q in
  q_loaded q' = q_loaded q /\ c_xlen (the_hart 0 q') = c_xlen (the_hart 0 q) /\ c_pc (the_hart 0 q') = c_pc (the_hart 0 q).
Proof.
  induction vs as [|v vs IH]; intros i q; [done|]. cbn [set_regs]. destruct (IH (i + 1) (exec (quanta_set_reg i v) q)) as (E1 & E2 & E3).
  destruct (set_reg_kept i v q) as (F1 & F2 & F3). cbv zeta in *. repeat split; congruence.
Qed.
Lemma set_regs_reg vs : forall i q j, xlen_ok q -> Forall (rng (c_xlen (the_hart 0 q))) vs -> 0 <= i -> i + Z.of_nat (length vs) <= 32 -> 0 <= j < 32 ->
  quanta_reg (set_regs i vs q) j
  = if (i <=? j) && (j <? i + Z.of_nat (length vs)) && negb (j =? 0) then nth (Z.to_nat (j - i)) vs 0 else quanta_reg q j.
Proof.
  induction vs as [|v vs IH]; intros i q j Hx Hv Hi Hn Hj; cbn [set_regs length].
  { rewrite Z.add_0_r. destruct (Z.leb_spec i j), (Z.ltb_spec j i); cbn; done || lia. }
  apply Forall_cons_1 in Hv as [Hv Hvs]. cbn [length] in Hn. destruct (set_reg_kept i v q) as (El & Ex & _).
  rewrite IH; [|split; [by rewrite El; apply Hx|by rewrite Ex; apply Hx]|by rewrite Ex|lia|lia|done].
  rewrite quanta_reg_set by (done || lia).
  destruct (Z.eqb_spec j i) as [->|Hne].
  - rewrite (proj2 (Z.leb_gt (i + 1) i)), Z.leb_refl, (proj2 (Z.ltb_lt i (i + Z.of_nat (S (length vs))))), Z.sub_diag by lia.
    by destruct (i =? 0).
  - destruct (Z.leb_spec (i + 1) j).
    + rewrite (proj2 (Z.leb_le i j)) by lia. replace (i + 1 + Z.of_nat (length vs)) with (i + Z.of_nat (S (length vs))) by lia.
      replace (Z.to_nat (j - i)) with (S (Z.to_nat (j - (i + 1)))) by lia. done.
    + by rewrite (proj2 (Z.leb_gt i j)) by lia.
Qed.

(** Text that can be a payload. *)
Definition clean (l : list Z) : Prop := Forall (fun c => rng 8 c /\ c <> 0 /\ c <> 35) l.
Lemma clean_payload l : clean l -> payload_ok l /\ Forall (fun c => c <> 0) l.
Proof.
  intros H. unfold clean in H. rewrite list.Forall_forall in H. split; [split|]; [apply list.Forall_forall; intros c Hc; by apply H| |apply list.Forall_forall; intros c Hc; by apply H].
  intros Hc. by destruct (H _ Hc) as (_ & _ & ?).
Qed.
Lemma clean_hex bs : bytes bs -> clean (concat (map hex_byte bs)).
Proof.
  induction 1 as [|b bs Hb _ IH]; [constructor|]. cbn [map concat].
  destruct (hex_byte_decode b Hb) as (c1 & c2 & -> & R1 & R2 & _ & _ & ? & ? & ? & ? & _). by repeat (constructor; [done|]).
Qed.
Lemma clean_regs nb vs : clean (regs_text nb vs).
Proof.
  unfold regs_text. induction vs as [|v vs IH]; [constructor|]. cbn [map concat]. apply Forall_app. split; [|done].
  rewrite val_to_hex_bytes. apply clean_hex, val_bytes.
Qed.
Lemma regs_text_length nb vs : 0 <= nb -> length (regs_text nb vs) = (length vs * Z.to_nat (2 * nb))%nat.
Proof.
  intros H. unfold regs_text. induction vs as [|v vs IH]; [done|]. cbn [map concat length]. rewrite length_app, IH, val_to_hex_length by done. lia.
Qed.
Lemma regs_text_app nb vs ws : regs_text nb (vs ++ ws) = regs_text nb vs ++ regs_text nb ws.
Proof. unfold regs_text. by rewrite map_app, concat_app. Qed.

Lemma write_regs_holds nb vs : 0 <= nb <= 8 -> Forall (rng (8 * nb)) vs -> forall i pre post args s, 0 <= i ->
  Z.of_nat (length pre) = args + i * (nb * 2) -> holds (pre ++ regs_text nb vs ++ post) s ->
  write_regs_loop (length vs) args nb i s = (true, set_g_q (set_regs i vs (g_q s)) s).
Proof.
  intros Hnb. induction 1 as [|v vs Hv Hvs IH]; intros i pre post args s Hi Hp Hh; cbn [length write_regs_loop set_regs]; [by destruct s|].
  unfold regs_text in Hh. cbn [map concat] in Hh. rewrite <- app_assoc in Hh. fold (regs_text nb vs) in Hh.
  rewrite bind_run. unfold run, exec. rewrite (hex_to_val_holds v nb pre _ _ s Hnb Hp Hh). cbn [fst snd].
  rewrite wrap_small by (done || lia). rewrite bind_run. unfold run, exec at 1, engine. destruct (quanta_set_reg i v (g_q s)) as [[] q'] eqn:Eq.
  cbn [fst snd]. rewrite (IH (i + 1) (pre ++ val_to_hex_le v nb) post args); [|lia|rewrite length_app, val_to_hex_length by lia; lia|].
  - done.
  - rewrite <- app_assoc. destruct Hh as [H1 H2 H3]. by constructor.
Qed.
Lemma reg_bytes_xlen s : xlen_ok (g_q s) -> 8 * reg_bytes s = c_xlen (the_hart 0 (g_q s)) /\ 0 <= reg_bytes s <= 8.
Proof. intros [Hl Hx]. unfold reg_bytes, quanta_xlen. rewrite Hl. destruct Hx as [-> | ->]; cbn; lia. Qed.

(** Finishing a handler with a reply. *)
Lemma engine_reply {A} (m : st Quanta A) text bs s : healthy s ->
  (engine m ;; reply text) (feed (43 :: bs) s) = (0, feed bs (sent (packet (chars text)) (set_g_q (exec m (g_q s)) s))).
Proof.
  intros Hh. rewrite bind_run. unfold run, exec at 1, engine. change (g_q (feed (43 :: bs) s)) with (g_q s). unfold exec.
  destruct (m (g_q s)) as [a q']. cbn [fst snd]. change (set_g_q q' (feed (43 :: bs) s)) with (feed (43 :: bs) (set_g_q q' s)).
  unfold reply. by rewrite send_packet_feed.
Qed.
Lemma write_regs_ok vs pc bs s : healthy s -> xlen_ok (g_q s) -> length vs = 32%nat -> Forall (rng (8 * reg_bytes s)) (vs ++ [pc]) ->
  holds (71 :: regs_text (reg_bytes s) (vs ++ [pc])) s ->
  handle_write_regs 1 (feed (43 :: bs) s)
  = (0, feed bs (sent (packet (chars "OK")) (set_g_q (exec (quanta_set_pc pc) (set_regs 0 vs (g_q s))) s))).
Proof.
  intros Hh Hx Hv Hr Hho. destruct (reg_bytes_xlen s Hx) as [_ Hnb]. set (nb := reg_bytes s) in *. apply Forall_app in Hr as [Hvs Hpc].
  apply Forall_cons_1 in Hpc as [Hpc _].
  assert (forall q, holds (71 :: regs_text nb (vs ++ [pc])) (feed (43 :: bs) (set_g_q q s))) as Hq by (intros q; destruct Hho; by constructor).
  unfold handle_write_regs. rewrite bind_gets. cbn [id]. change (reg_bytes (feed (43 :: bs) s)) with nb. cbv zeta.
  pose proof (Hq (g_q s)) as H0. replace (set_g_q (g_q s) s) with s in H0 by (by destruct s).
  rewrite bind_run. unfold run, exec. rewrite (buf_string_holds _ _ 1 H0) by (cbn [length]; lia). cbn [fst snd]. change (drop (Z.to_nat 1) (71 :: regs_text nb (vs ++ [pc]))) with (regs_text nb (vs ++ [pc])).
  rewrite regs_text_length, length_app, Hv by lia. cbn [length]. rewrite (proj2 (Z.ltb_ge _ _)) by lia.
  rewrite regs_text_app in *. rewrite bind_run. unfold run, exec. pose proof (write_regs_holds nb vs Hnb Hvs 0 [71] (regs_text nb [pc]) 1 _ ltac:(lia) ltac:(cbn; lia) H0) as Ew.
  rewrite Hv in Ew. rewrite Ew. cbn [fst snd negb]. rewrite bind_run. unfold run, exec.
  change (set_g_q (set_regs 0 vs (g_q (feed (43 :: bs) s))) (feed (43 :: bs) s)) with (feed (43 :: bs) (set_g_q (set_regs 0 vs (g_q s)) s)).
  rewrite (hex_to_val_holds pc nb (71 :: regs_text nb vs) []); [|done| |].
  - cbn [fst snd]. rewrite wrap_small by (done || lia). by rewrite engine_reply.
  - cbn [length]. rewrite regs_text_length, Hv by lia. lia.
  - specialize (Hq (set_regs 0 vs (g_q s))). unfold regs_text in Hq at 2. cbn [map concat] in Hq. exact Hq.
Qed.

(** An exchange whose handler is known. *)
Lemma ask_handler fuel req h rep q' s : idle s -> g_want_quit s = false -> request req -> Forall (fun c => c <> 0) req ->
  (forall s0, exec (dispatch_packet fuel (hd 0 req)) s0 = exec h s0) ->
  (forall s0, g_q s0 = g_q s -> healthy s0 -> holds req s0 -> exists r, (h : st GdbStub Z) (feed [43] s0) = (r, feed [] (sent (packet rep) (set_g_q q' s0)))) ->
  let s' := ask fuel req s in
  idle s' /\ g_want_quit s' = false /\ g_q s' = q' /\ lk_sent (g_link s') = lk_sent (g_link s) ++ 43 :: packet rep.
Proof.
  intros Hi Hw Hr Hz Hd Hh. cbv zeta. rewrite ask_exec, Hd by done.
  destruct (Hh (received req 43 s)) as [r E]; [done|apply Hi|by apply received_holds; [|apply Hr]|].
  unfold exec. rewrite E. cbn [snd]. destruct Hi. split; [by constructor|]. split; [done|]. split; [done|]. cbn. by rewrite <- app_assoc.
Qed.
Lemma read_regs_ok q s : xlen_ok q -> g_q s = q -> healthy s -> forall vs, length vs = 33%nat ->
  (forall i, 0 <= i < 32 -> quanta_reg q i = nth (Z.to_nat i) vs 0) -> quanta_pc q = nth 32 vs 0 ->
  exists r, handle_read_regs (feed [43] s) = (r, feed [] (sent (packet (regs_text (reg_bytes s) vs)) (set_g_q q s))).
Proof.
  intros Hx Hq Hh vs Hv Hregs Hpc. exists 0. unfold handle_read_regs. rewrite bind_gets. cbn [id]. change (reg_bytes (feed [43] s)) with (reg_bytes s).
  change (g_q (feed [43] s)) with (g_q s). cbv zeta. rewrite Hq, Hpc.
  assert (regs_text (reg_bytes s) vs = concat (map (fun i => val_to_hex_le (quanta_reg q i) (reg_bytes s)) (zseq 0 32)) ++ val_to_hex_le (nth 32 vs 0) (reg_bytes s)) as ->.
  { do 33 (destruct vs as [|? vs]; [done|]). destruct vs; [|done]. cbn [zseq map]. unfold regs_text.
    rewrite !Hregs by lia. cbn [map concat nth]. rewrite app_nil_r, <- !app_assoc. cbn. by rewrite ?app_nil_r. }
  rewrite send_packet_feed by done. subst q. by destruct s.
Qed.

(** The machine after [G]. *)
Definition written (vs : list Z) (pc : Z) (q : Quanta) : Quanta := exec (quanta_set_pc pc) (set_regs 0 vs q).
Lemma written_regs vs pc q : xlen_ok q -> length vs = 32%nat -> Forall (rng (c_xlen (the_hart 0 q))) (vs ++ [pc]) ->
  let q' := written vs pc q in
  xlen_ok q' /\ quanta_xlen q' = quanta_xlen q /\ quanta_pc q' = pc /\
  forall i, 0 <= i < 32 -> quanta_reg q' i = nth (Z.to_nat i) (0 :: tail vs ++ [pc]) 0.
Proof.
  intros Hx Hv Hr. cbv zeta. apply Forall_app in Hr as [Hvs Hpc]. apply Forall_cons_1 in Hpc as [Hpc _].
  destruct (set_regs_kept vs 0 q) as (Kl & Kx & _). cbv zeta in Kl, Kx.
  assert (the_hart 0 (written vs pc q) = set_c_pc pc (the_hart 0 (set_regs 0 vs q))) as Eh.
  { unfold written, quanta_set_pc, on_hart, exec. rewrite machine_run. unfold the_hart. cbn [snd set_q_world q_world]. unfold cpu_upd. rewrite exec_modify.
    by rewrite hart_upd, decide_True. }
  assert (q_loaded (written vs pc q) = q_loaded q) as El by (by rewrite <- Kl).
  assert (c_xlen (the_hart 0 (written vs pc q)) = c_xlen (the_hart 0 q)) as Ex by (by rewrite Eh, <- Kx).
  split; [split; [by rewrite El; apply Hx|by rewrite Ex; apply Hx]|]. split; [unfold quanta_xlen; by rewrite El, Ex|]. split.
  - unfold quanta_pc, xlen_val. rewrite Ex, Eh. cbn [set_c_pc c_pc]. destruct Hx as [_ [E|E]]; rewrite E in *; [|done]. cbn [Z.eqb Pos.eqb].
    change 0xffffffff with (Z.ones 32). rewrite Z.land_ones by lia. by apply Z.mod_small.
  - intros i Hi. transitivity (quanta_reg (set_regs 0 vs q) i).
    { unfold quanta_reg, xlen_val. rewrite Ex, Eh, Kx. done. }
    rewrite set_regs_reg by (done || lia). rewrite Hv, (proj2 (Z.leb_le 0 i)), (proj2 (Z.ltb_lt i _)), Z.sub_0_r by lia. cbn [andb].
    destruct vs as [|v vs]; [done|]. cbn [tail]. destruct (Z.eqb_spec i 0) as [->|Hi0].
    + cbn. unfold quanta_reg, xlen_val, reg_read. cbn. by destruct (_ =? _).
    + destruct (Z.to_nat i) as [|n] eqn:En; [lia|]. cbn [nth negb]. cbn in Hv. by rewrite app_nth1 by lia.
Qed.

(** C35 [gdb_regs]: a debugger that writes all registers ([G]) and reads them back ([g]) gets
    the values it wrote, whatever the machine's width, except that [x0] stays zero; the [pc]
    is the one it wrote. *)
Theorem gdb_registers fuel vs pc s : idle s -> g_want_quit s = false -> xlen_ok (g_q s) -> length vs = 32%nat ->
  Forall (rng (8 * reg_bytes s)) (vs ++ [pc]) ->
  let nb := reg_bytes s in
  let s1 := ask fuel (71 :: regs_text nb (vs ++ [pc])) s in
  let s2 := ask fuel [103] s1 in
  lk_sent (g_link s1) = lk_sent (g_link s) ++ 43 :: packet (chars "OK") /\
  lk_sent (g_link s2) = lk_sent (g_link s1) ++ 43 :: packet (regs_text nb (0 :: tail vs ++ [pc])) /\ g_q s2 = g_q s1.
Proof.
  intros Hi Hw Hx Hv Hr. cbv zeta. destruct (reg_bytes_xlen s Hx) as [Enb Hnb]. set (nb := reg_bytes s) in *. set (req := 71 :: regs_text nb (vs ++ [pc])).
  assert (clean req) as Hcl by (constructor; [by split; [apply rng_const|]|apply clean_regs]). destruct (clean_payload _ Hcl) as [Hp Hz].
  assert (Z.of_nat (length req) = 1 + 33 * (2 * nb)) as El by (unfold req; cbn [length]; rewrite regs_text_length, length_app, Hv by lia; cbn [length]; lia).
  assert (request req) as Hrq by (constructor; [done|change GDB_BUFSZ with 8192; lia|done|done]).
  set (q1 := written vs pc (g_q s)).
  destruct (ask_handler fuel req (handle_write_regs 1) (chars "OK") q1 s Hi Hw Hrq Hz) as (Hi1 & Hw1 & Hq1 & Hs1).
  { intros s0. apply exec_drop. }
  { intros s0 Hq0 Hh0 Hho. exists 0. assert (reg_bytes s0 = nb) as Eb by (unfold reg_bytes; by rewrite Hq0).
    rewrite (write_regs_ok vs pc [] s0); [by rewrite Hq0|done|by rewrite Hq0|done|by rewrite Eb|by rewrite Eb]. }
  split; [done|]. set (s1 := ask fuel req s) in *. clearbody s1. rewrite Enb in Hr.
  destruct (written_regs vs pc (g_q s) Hx Hv Hr) as (Hx1 & Ex1 & Hpc1 & Hregs1). fold q1 in Hx1, Ex1, Hpc1, Hregs1.
  destruct (ask_handler fuel [103] handle_read_regs (regs_text nb (0 :: tail vs ++ [pc])) q1 s1) as (_ & _ & Hq2 & Hs2); [done|done|by apply is_request_ok|by constructor| | |].
  - intros s0. apply exec_drop.
  - intros s0 Hq0 Hh0 _. rewrite Hq1 in Hq0. assert (reg_bytes s0 = nb) as <- by (unfold nb, reg_bytes; by rewrite Hq0, Ex1).
    apply read_regs_ok; try done.
    + cbn [length]. rewrite length_app. destruct vs; [done|]. cbn in *. lia.
    + rewrite Hpc1. do 32 (destruct vs as [|? vs]; [done|]). by destruct vs.
  - split; [done|]. by rewrite Hq2, Hq1.
Qed.
Lemma gdb_registers_witness : let vs := zseq 100 32 in
  lk_sent (g_link (ask 0 [103] (ask 0 (71 :: regs_text 4 (vs ++ [0x80000004])) debugged)))
  = (43 :: packet (chars "OK")) ++ 43 :: packet (regs_text 4 (0 :: tail vs ++ [0x80000004])).
Proof.
  cbv zeta. destruct debugged_idle as [Hi Hw]. assert (reg_bytes debugged = 4) as Eb by (vm_compute; reflexivity).
  destruct (gdb_registers 0 (zseq 100 32) 0x80000004 debugged Hi Hw) as (E1 & E2 & _).
  - split; vm_compute; [reflexivity|by left].
  - reflexivity.
  - rewrite Eb. apply (bool_decide_unpack _). vm_compute. exact I.
  - rewrite Eb in E1, E2. rewrite E2, E1. reflexivity.
Defined.
Lemma gdb_session_answers_witness : let reqs := [chars "?"; chars "Z0,80000004,4"; chars "c"] in
  let s' := exec (serve_loop 4 10) (feed (dialogue reqs) debugged) in
  g_running s' = false /\ exists reps, length reps = 3%nat /\ lk_sent (g_link s') = answered reps.
Proof.
  cbv zeta. destruct debugged_idle as [Hi Hw]. set (reqs := [chars "?"; chars "Z0,80000004,4"; chars "c"]).
  assert (Forall request reqs) as Hr by (do 3 (constructor; [apply is_request_ok; vm_compute; reflexivity|]); constructor).
  destruct (gdb_session_answers reqs 4 10 debugged Hi Hw Hr ltac:(cbn; lia)) as (reps & Hn & Ho). cbv zeta in Ho.
  assert (g_want_quit (exec (serve_loop 4 10) (feed (dialogue reqs) debugged)) = false) as Eq by (vm_compute; reflexivity).
  assert (g_running (exec (serve_loop 4 10) (feed (dialogue reqs) debugged)) = false) as Er by (vm_compute; reflexivity).
  split; [exact Er|]. exists reps. destruct Ho as [[El E]|[[Hq _]|[Hq _]]]; [|rewrite Eq in Hq; discriminate Hq|rewrite Er in Hq; discriminate Hq].
  split; [exact El|exact E].
Defined.

(** ** Memory *)

Lemma fmt_x_digits v : rng 64 v -> forallb (is_digit 16) (fmt_x v) = true.
Proof. intros Hv. apply print_digits_are; [lia|apply Hv|done]. Qed.
Lemma clean_fmt_x v : rng 64 v -> clean (fmt_x v).
Proof.
  intros Hv. apply list.Forall_forall. intros c Hc. pose proof (fmt_x_digits v Hv) as H. rewrite forallb_forall in H.
  specialize (H c (proj1 (list_elem_of_In _ _) Hc)). unfold is_digit, digit_val in H. unfold rng. change (2 ^ 8) with 256.
  destruct (Z.leb_spec 48 c), (Z.leb_spec c 57), (Z.leb_spec 97 c), (Z.leb_spec c 122), (Z.leb_spec 65 c), (Z.leb_spec c 90); cbn in H; try lia; discriminate.
Qed.
(** A number in the buffer, followed by a separator or the end. *)
Lemma buf_strtoul_holds v pre c post p s : rng 64 v -> Z.of_nat (length pre) = p -> is_digit 16 c = false -> c <> 120 -> c <> 88 ->
  holds (pre ++ fmt_x v ++ c :: post) s -> buf_strtoul p s = ((v, p + Z.of_nat (length (fmt_x v))), s) /\
  buf_get (p + Z.of_nat (length (fmt_x v))) s = (c, s).
Proof.
  intros Hv Hp Hd Hx1 Hx2 Hh. split.
  - unfold buf_strtoul. rewrite bind_run. unfold run, exec. rewrite (buf_string_holds _ _ p Hh) by (rewrite !length_app; lia). cbn [fst snd].
    replace (Z.to_nat p) with (length pre) by lia. rewrite drop_app_length. by rewrite strtoul_fmt_x.
  - rewrite (buf_get_holds _ s _ Hh) by (rewrite !length_app; cbn [length]; lia). f_equal.
    rewrite app_assoc, app_nth2 by (rewrite length_app; lia). rewrite length_app.
    by replace (Z.to_nat (p + Z.of_nat (length (fmt_x v))) - (length pre + length (fmt_x v)))%nat with 0%nat by lia.
Qed.
Lemma buf_strtoul_end v pre p s : rng 64 v -> Z.of_nat (length pre) = p -> holds (pre ++ fmt_x v) s ->
  buf_strtoul p s = ((v, p + Z.of_nat (length (fmt_x v))), s).
Proof.
  intros Hv Hp Hh. unfold buf_strtoul. rewrite bind_run. unfold run, exec. rewrite (buf_string_holds _ _ p Hh) by (rewrite !length_app; lia). cbn [fst snd].
  replace (Z.to_nat p) with (length pre) by lia. rewrite drop_app_length. pose proof (strtoul_fmt_x v [] Hv I) as E. rewrite app_nil_r in E. by rewrite E.
Qed.
Lemma read_hex_holds bs : bytes bs -> forall pre post p i s, 0 <= i -> Z.of_nat (length pre) = p + 2 * i ->
  holds (pre ++ concat (map hex_byte bs) ++ post) s -> read_hex_bytes (length bs) p i s = (Some bs, s).
Proof.
  induction 1 as [|b bs Hb Hbs IH]; intros pre post p i s Hi Hp Hh; [done|]. cbn [length read_hex_bytes]. cbn [map concat] in Hh.
  destruct (hex_byte_decode b Hb) as (c1 & c2 & E & R1 & R2 & H1 & H2 & _ & _ & _ & _ & Ej). rewrite E in Hh. cbn [app] in Hh.
  rewrite bind_run. unfold run, exec. rewrite (buf_get_holds _ s (p + 2 * i) Hh) by (rewrite length_app; cbn [length]; lia).
  cbn [fst snd]. rewrite bind_run. unfold run, exec. rewrite (buf_get_holds _ s (p + 2 * i + 1) Hh) by (rewrite length_app; cbn [length]; lia).
  cbn [fst snd]. rewrite !app_nth2 by lia. replace (Z.to_nat (p + 2 * i) - length pre)%nat with 0%nat by lia.
  replace (Z.to_nat (p + 2 * i + 1) - length pre)%nat with 1%nat by lia. cbn [nth].
  rewrite !(proj2 (Z.ltb_ge _ 0)) by lia. cbn [orb]. rewrite Ej. rewrite bind_run. unfold run, exec.
  rewrite (IH (pre ++ [c1; c2]) post p (i + 1) s); [|lia|rewrite length_app; cbn [length]; lia|by rewrite <- app_assoc].
  cbn. unfold u8. by rewrite wrap_small by (done || lia).
Qed.

Definition mem_write_req (addr : Z) (bs : list Z) : list Z :=
  77 :: fmt_x addr ++ 44 :: fmt_x (Z.of_nat (length bs)) ++ 58 :: concat (map hex_byte bs).
Definition mem_read_req (addr len : Z) : list Z := 109 :: fmt_x addr ++ 44 :: fmt_x len.

Lemma write_mem_ok addr bs r s : healthy s -> rng 64 addr -> bytes bs -> 0 < Z.of_nat (length bs) <= GDB_MAX_PAYLOAD -> holds (mem_write_req addr bs) s ->
  handle_write_mem 1 (feed (43 :: r) s) = (0, feed r (sent (packet (if bool_decide (run (quanta_mem_write addr bs) (g_q s) = QUANTA_OK) then chars "OK" else chars "E0e"))
    (set_g_q (exec (quanta_mem_write addr bs) (g_q s)) s))).
Proof.
  intros Hh Ha Hb Hl Hho. assert (rng 64 (Z.of_nat (length bs))) as Hn by (unfold rng; change GDB_MAX_PAYLOAD with 4088 in Hl; lia).
  assert (holds (mem_write_req addr bs) (feed (43 :: r) s)) as H0 by (destruct Hho; by constructor). unfold mem_write_req in H0.
  set (la := Z.of_nat (length (fmt_x addr))). set (ln := Z.of_nat (length (fmt_x (Z.of_nat (length bs))))). set (body := concat (map hex_byte bs)) in *.
  destruct (buf_strtoul_holds addr [77] 44 (fmt_x (Z.of_nat (length bs)) ++ 58 :: body) 1 _ Ha eq_refl eq_refl ltac:(done) ltac:(done) H0) as [E1 E2].
  destruct (buf_strtoul_holds (Z.of_nat (length bs)) (77 :: fmt_x addr ++ [44]) 58 body (1 + la + 1) (feed (43 :: r) s) Hn) as [E3 E4];
    [cbn [length]; rewrite length_app; cbn [length]; lia|done|done|done|cbn [app]; rewrite <- app_assoc; exact H0|].
  pose proof (read_hex_holds bs Hb (77 :: fmt_x addr ++ 44 :: fmt_x (Z.of_nat (length bs)) ++ [58]) [] (1 + la + 1 + ln + 1) 0 (feed (43 :: r) s) ltac:(lia)) as E5.
  fold la in E1, E2. fold ln in E3, E4. fold body in E5.
  unfold handle_write_mem. rewrite bind_run. unfold run, exec. rewrite E1. cbn [fst snd]. rewrite bind_run. unfold run, exec. rewrite E2. cbn [fst snd].
  change (negb (44 =? 44)) with false. cbv iota. rewrite bind_run. unfold run, exec. rewrite E3. cbn [fst snd]. rewrite bind_run. unfold run, exec. rewrite E4.
  cbn [fst snd]. change (negb (58 =? 58)) with false. cbv iota. rewrite (proj2 (Z.ltb_ge GDB_MAX_PAYLOAD _)) by lia. rewrite Nat2Z.id, bind_run. unfold run, exec.
  rewrite E5; [|cbn [length]; rewrite !length_app; cbn [length]; rewrite length_app; cbn [length]; lia|].
  - cbn [fst snd]. rewrite (proj2 (Z.eqb_neq (Z.of_nat (length bs)) 0)) by lia. rewrite bind_run. unfold run, exec, engine.
    change (g_q (feed (43 :: r) s)) with (g_q s). destruct (quanta_mem_write addr bs (g_q s)) as [st q']. cbn [fst snd].
    change (set_g_q q' (feed (43 :: r) s)) with (feed (43 :: r) (set_g_q q' s)). unfold reply.
    destruct (bool_decide (st = QUANTA_OK)); cbn [negb]; by rewrite send_packet_feed.
  - cbn [app]. rewrite <- !app_assoc. cbn [app]. rewrite <- app_assoc, app_nil_r. exact H0.
Qed.
Lemma read_mem_ok addr len r s : healthy s -> rng 64 addr -> 0 < len <= GDB_MAX_PAYLOAD -> holds (mem_read_req addr len) s ->
  handle_read_mem 1 (feed (43 :: r) s)
  = (0, feed r (sent (packet (match quanta_mem_read (g_q s) addr len with Some tmp => concat (map hex_byte tmp) | None => chars "E0e" end)) (set_g_q (g_q s) s))).
Proof.
  intros Hh Ha Hl Hho. assert (rng 64 len) as Hn by (unfold rng; change GDB_MAX_PAYLOAD with 4088 in Hl; lia).
  assert (holds (mem_read_req addr len) (feed (43 :: r) s)) as H0 by (destruct Hho; by constructor). unfold mem_read_req in H0.
  set (la := Z.of_nat (length (fmt_x addr))).
  destruct (buf_strtoul_holds addr [109] 44 (fmt_x len) 1 _ Ha eq_refl eq_refl ltac:(done) ltac:(done) H0) as [E1 E2].
  pose proof (buf_strtoul_end len (109 :: fmt_x addr ++ [44]) (1 + la + 1) (feed (43 :: r) s) Hn ltac:(cbn [length]; rewrite length_app; cbn [length]; lia)) as E3.
  fold la in E1, E2. unfold handle_read_mem. rewrite bind_run. unfold run, exec. rewrite E1. cbn [fst snd]. rewrite bind_run. unfold run, exec. rewrite E2. cbn [fst snd].
  change (negb (44 =? 44)) with false. cbv iota. rewrite bind_run. unfold run, exec. rewrite E3 by (cbn [app]; rewrite <- app_assoc; exact H0). cbn [fst snd].
  rewrite (proj2 (Z.eqb_neq len 0)), (proj2 (Z.ltb_ge GDB_MAX_PAYLOAD len)) by lia. rewrite bind_gets. cbn [id].
  change (g_q (feed (43 :: r) s)) with (g_q s). replace (set_g_q (g_q s) s) with s by (by destruct s). unfold reply.
  destruct (quanta_mem_read (g_q s) addr len); by rewrite send_packet_feed.
Qed.

Lemma mem_write_request addr bs : rng 64 addr -> bytes bs -> Z.of_nat (length (mem_write_req addr bs)) <= GDB_BUFSZ - 1 -> rng 64 (Z.of_nat (length bs)) ->
  request (mem_write_req addr bs) /\ Forall (fun c => c <> 0) (mem_write_req addr bs).
Proof.
  intros Ha Hb Hl Hn. assert (clean (mem_write_req addr bs)) as Hc.
  { constructor; [by split; [apply rng_const|]|]. apply Forall_app. split; [by apply clean_fmt_x|]. constructor; [by split; [apply rng_const|]|].
    apply Forall_app. split; [by apply clean_fmt_x|]. constructor; [by split; [apply rng_const|]|by apply clean_hex]. }
  destruct (clean_payload _ Hc). split; [by constructor|done].
Qed.
Lemma fmt_x_length v : (length (fmt_x v) <= 20)%nat.
Proof.
  unfold fmt_x. assert (forall f v acc, length (print_digits f 16 v acc) <= f + length acc)%nat as H; [|specialize (H 20%nat v []); cbn [length] in H; lia].
  induction f as [|f IH]; intros w acc; cbn [print_digits]; [lia|]. destruct (_ =? 0); [cbn; lia|]. rewrite IH. cbn. lia.
Qed.
Lemma mem_read_request addr len : rng 64 addr -> rng 64 len -> request (mem_read_req addr len) /\ Forall (fun c => c <> 0) (mem_read_req addr len).
Proof.
  intros Ha Hn. assert (clean (mem_read_req addr len)) as Hc.
  { constructor; [by split; [apply rng_const|]|]. apply Forall_app. split; [by apply clean_fmt_x|]. constructor; [by split; [apply rng_const|]|by apply clean_fmt_x]. }
  destruct (clean_payload _ Hc). split; [constructor; try done|done]. unfold mem_read_req. cbn [length]. rewrite length_app. cbn [length].
  pose proof (fmt_x_length addr). pose proof (fmt_x_length len). change GDB_BUFSZ with 8192. lia.
Qed.
(** The engine with other contents of its RAM, and everything else as it was. *)
Definition with_ram (d : arr) (q : Quanta) : Quanta := set_q_world (set_w_bus (set_b_data d (the_bus q)) (q_world q)) q.

Lemma put_bytes_get bs : forall o a i,
  (put_bytes o bs a).[i] = if decide (o <= i < o + Z.of_nat (length bs)) then nth (Z.to_nat (i - o)) bs 0 else a.[i].
Proof.
  intros o a i. destruct (decide (o <= i < o + Z.of_nat (length bs))) as [Hi|Hi]; [|apply put_bytes_out; lia].
  pose proof (slice_put_bytes bs o a) as E. apply (f_equal (fun l => nth (Z.to_nat (i - o)) l 0)) in E. rewrite <- E. unfold slice.
  assert (forall n k j, (j < n)%nat -> nth j (map (aget (put_bytes o bs a)) (zseq k n)) 0 = (put_bytes o bs a).[k + Z.of_nat j]) as H.
  { induction n as [|n IH]; intros k j Hj; [lia|]. destruct j as [|j]; cbn; [by rewrite Z.add_0_r|]. rewrite IH by lia. f_equal. lia. }
  rewrite H by lia. f_equal. lia.
Qed.

(** The engine's memory: what is written is read, and nothing else changes. *)
Lemma mem_write_read addr bs q : mem_ok (the_bus q) -> rng 64 addr ->
  let q' := exec (quanta_mem_write addr bs) q in let n := Z.of_nat (length bs) in let base := b_base (the_bus q) in
  if decide (base <= addr /\ addr + n <= base + b_size (the_bus q))
  then run (quanta_mem_write addr bs) q = QUANTA_OK /\ quanta_mem_read q' addr n = Some bs
    /\ q' = with_ram (put_bytes (addr - base) bs (b_data (the_bus q))) q
  else run (quanta_mem_write addr bs) q = QUANTA_ERR_RANGE /\ q' = q /\ quanta_mem_read q addr n = None.
Proof.
  intros Hm Ha. cbv zeta. pose proof (in_range_spec (the_bus q) addr (Z.of_nat (length bs)) Hm Ha ltac:(lia)) as E.
  destruct (decide _) as [Hin|Hin].
  2: { unfold quanta_mem_write, run, exec, quanta_mem_read. rewrite !bind_gets. cbn [id]. by rewrite E. }
  set (off := addr - b_base (the_bus q)) in *.
  assert (quanta_mem_write addr bs q = (QUANTA_OK, with_ram (put_bytes off bs (b_data (the_bus q))) q)) as Ew.
  { unfold quanta_mem_write. rewrite bind_gets. cbn [id]. by rewrite E. }
  unfold run, exec. rewrite Ew. cbn [fst snd]. split; [done|]. split; [|done].
  unfold quanta_mem_read. change (in_range (the_bus (with_ram (put_bytes off bs (b_data (the_bus q))) q)) addr (Z.of_nat (length bs)))
    with (in_range (the_bus q) addr (Z.of_nat (length bs))).
  rewrite E. cbn [mbind option_bind]. f_equal. rewrite Nat2Z.id.
  change (b_data (the_bus (with_ram (put_bytes off bs (b_data (the_bus q))) q))) with (put_bytes off bs (b_data (the_bus q))).
  transitivity (slice (put_bytes off bs (b_data (the_bus q))) off (length bs)); [|apply slice_put_bytes]. unfold slice.
  assert (forall a n k, map (fun i => a.[off + i]) (zseq k n) = map (aget a) (zseq (off + k) n)) as H; [|rewrite H; by rewrite Z.add_0_r].
  intros a n. induction n as [|n IH]; intros k; [done|]. cbn [zseq map]. by rewrite IH, Z.add_assoc.
Qed.

(** C34 [gdb_memory]: with any machine a host program can reach, writing memory ([M]) through
    the protocol to a range of guest addresses that lies wholly in RAM (from [base] up to
    [base + size]) stores exactly the bytes sent, at their distance from [base], and changes
    nothing else of the machine, and reading it ([m]) returns them; a range that is not wholly
    in RAM is refused with [E0e] by both, and nothing changes. *)
Theorem gdb_memory fuel addr bs s : idle s -> g_want_quit s = false -> reachable (g_q s) -> rng 64 addr -> bytes bs ->
  0 < Z.of_nat (length bs) <= GDB_MAX_PAYLOAD -> Z.of_nat (length (mem_write_req addr bs)) <= GDB_BUFSZ - 1 ->
  let n := Z.of_nat (length bs) in
  let s1 := ask fuel (mem_write_req addr bs) s in let s2 := ask fuel (mem_read_req addr n) s1 in
  let base := b_base (the_bus (g_q s)) in let size := b_size (the_bus (g_q s)) in
  if decide (base <= addr /\ addr + n <= base + size)
  then lk_sent (g_link s2) = lk_sent (g_link s) ++ answered [chars "OK"; concat (map hex_byte bs)]
    /\ exists d, g_q s2 = with_ram d (g_q s)
         /\ forall i, d.[i] = if decide (addr - base <= i < addr - base + n) then nth (Z.to_nat (i - (addr - base))) bs 0
                             else (b_data (the_bus (g_q s))).[i]
  else lk_sent (g_link s2) = lk_sent (g_link s) ++ answered [chars "E0e"; chars "E0e"] /\ g_q s2 = g_q s.
Proof.
  intros Hi Hw Hre Ha Hb Hl Hfit. cbv zeta. assert (rng 64 (Z.of_nat (length bs))) as Hn by (unfold rng; change GDB_MAX_PAYLOAD with 4088 in Hl; lia).
  destruct (mem_write_request addr bs Ha Hb Hfit Hn) as [Hr Hz]. destruct (mem_read_request addr _ Ha Hn) as [Hr2 Hz2].
  destruct (ask_handler fuel (mem_write_req addr bs) (handle_write_mem 1)
    (if bool_decide (run (quanta_mem_write addr bs) (g_q s) = QUANTA_OK) then chars "OK" else chars "E0e")
    (exec (quanta_mem_write addr bs) (g_q s)) s Hi Hw Hr Hz) as (Hi1 & Hw1 & Hq1 & Hs1).
  { intros s0. apply exec_drop. }
  { intros s0 Hq0 Hh0 Hho. exists 0. rewrite (write_mem_ok addr bs [] s0) by done. by rewrite Hq0. }
  set (s1 := ask fuel (mem_write_req addr bs) s) in *. clearbody s1.
  destruct (ask_handler fuel (mem_read_req addr (Z.of_nat (length bs))) (handle_read_mem 1)
    (match quanta_mem_read (g_q s1) addr (Z.of_nat (length bs)) with Some tmp => concat (map hex_byte tmp) | None => chars "E0e" end)
    (g_q s1) s1 Hi1 Hw1 Hr2 Hz2) as (_ & _ & Hq2 & Hs2).
  { intros s0. apply exec_drop. }
  { intros s0 Hq0 Hh0 Hho. exists 0. rewrite (read_mem_ok addr (Z.of_nat (length bs)) [] s0) by done. by rewrite Hq0. }
  rewrite Hs2, Hs1, Hq2. clear Hs1 Hs2 Hq2. rewrite Hq1.
  assert (mem_ok (the_bus (g_q s))) as Hm by apply (qo_world _ (reachable_ok _ Hre)).
  pose proof (mem_write_read addr bs (g_q s) Hm Ha) as Hmr. cbv zeta in Hmr. destruct (decide _).
  - destruct Hmr as (-> & -> & ->). split; [unfold answered; cbn; by rewrite <- app_assoc, app_nil_r|].
    eexists. split; [reflexivity|]. apply put_bytes_get.
  - destruct Hmr as (-> & -> & ->). split; [|done]. unfold answered. cbn. by rewrite <- app_assoc.
Qed.
Lemma gdb_memory_witness :
  lk_sent (g_link (ask 0 (mem_read_req 0x80000100 3) (ask 0 (mem_write_req 0x80000100 [0xde; 0xad; 0x23]) debugged)))
  = answered [chars "OK"; chars "dead23"].
Proof.
  destruct debugged_idle as [Hi Hw]. assert (reachable (g_q debugged)) as Hr by exact two_exits_reachable.
  pose proof (gdb_memory 0 0x80000100 [0xde; 0xad; 0x23] debugged Hi Hw Hr ltac:(by apply rng_const) ltac:(by apply bytes_forallb)
    ltac:(vm_compute; split; congruence) ltac:(vm_compute; congruence)) as H. cbv zeta in H.
  assert (b_base (the_bus (g_q debugged)) = 0x80000000 /\ b_size (the_bus (g_q debugged)) = 0x1000) as [Eb Es] by (vm_compute; by split).
  rewrite Eb, Es in H. rewrite decide_True in H by (cbn; lia). destruct H as (Hs & _). exact Hs.
Defined.
