(* ===== verification/GdbExec.v ===== *)
(** * Breakpoints, continuing and stepping

    The breakpoint table as a finite set, and what [continue] does to the guest. *)

From Stdlib Require Import Strings.String.
From S2P Require Import Prelude Device DeviceInv Memory Cache Cpu CpuInv Engine EngineInv EngineThms CLib Gdb GdbWire GdbSession GdbThms.

(** ** The breakpoint table *)

(** The addresses in the used slots, in slot order. *)
Definition bp_of (s : GdbStub) (i : Z) : option Z := if bp_is_used s i then Some (g_bp s).[i] else None.
Definition bp_list (s : GdbStub) : list Z := omap (bp_of s) bp_slots.
Definition bp_set (s : GdbStub) : gset Z := list_to_set (bp_list s).

Lemma bp_match_list s a : bp_match s a = bool_decide (a ∈ bp_list s).
Proof.
  apply eq_true_iff_eq. rewrite bool_decide_eq_true. unfold bp_match, bp_list. rewrite existsb_exists, list_elem_of_omap.
  unfold bp_at, bp_of. split.
  - intros (i & Hi & H). exists i. split; [by apply list_elem_of_In|]. destruct (bp_is_used s i); [|done]. cbn in H. apply Z.eqb_eq in H. by rewrite H.
  - intros (i & Hi & H). exists i. split; [by apply list_elem_of_In|]. destruct (bp_is_used s i); [|done]. injection H as ->. cbn. apply Z.eqb_refl.
Qed.

(** The slots around one of them. *)
Lemma slots_split i : (i ∈ bp_slots) -> exists l1 l2, bp_slots = l1 ++ i :: l2 /\ (i ∉ l1) /\ (i ∉ l2).
Proof.
  intros Hi. apply list_elem_of_split in Hi as (l1 & l2 & E). exists l1, l2. split; [done|].
  assert (NoDup bp_slots) as Hn by apply NoDup_zseq. rewrite E in Hn. apply list.NoDup_app in Hn as (_ & H1 & H2). apply list.NoDup_cons in H2 as [H2 _].
  split; [|done]. intros Hx. by apply (H1 i Hx), list_elem_of_here.
Qed.
Lemma omap_ext_on {A B} (f g : A -> option B) (l : list A) : (forall x, x ∈ l -> f x = g x) -> omap f l = omap g l.
Proof.
  induction l as [|x l IH]; intros H; [done|]. cbn. rewrite (H x) by apply list_elem_of_here.
  rewrite IH; [done|]. intros y Hy. apply H. by apply list_elem_of_further.
Qed.
Lemma omap_full {A B} (f : A -> option B) (l : list A) : (forall x, x ∈ l -> is_Some (f x)) -> length (omap f l) = length l.
Proof.
  induction l as [|x l IH]; intros H; [done|]. cbn. destruct (H x) as [y ->]; [apply list_elem_of_here|]. cbn. f_equal. apply IH.
  intros z Hz. apply H. by apply list_elem_of_further.
Qed.
Lemma omap_le {A B} (f : A -> option B) (l : list A) : (length (omap f l) <= length l)%nat.
Proof. induction l as [|x l IH]; [done|]. cbn. destruct (f x); cbn; lia. Qed.

Definition bp_fits (s : GdbStub) : Prop := NoDup (bp_list s).

Lemma bp_add_list a s : bp_fits s ->
  let s' := exec (bp_add a) s in bp_fits s' /\
  if bool_decide (a ∈ bp_list s) then run (bp_add a) s = true /\ s' = s
  else if (length (bp_list s) =? Z.to_nat GDB_MAX_BP)%nat then run (bp_add a) s = false /\ s' = s
  else run (bp_add a) s = true /\ bp_list s' ≡ₚ a :: bp_list s.
Proof.
  intros Hf. cbv zeta. unfold bp_add, run, exec. rewrite bind_gets. cbn [id]. rewrite bp_match_list.
  destruct (bool_decide (a ∈ bp_list s)) eqn:Em; [done|]. apply bool_decide_eq_false in Em.
  destruct (List.find (fun i => negb (bp_is_used s i)) bp_slots) as [i|] eqn:Ei.
  - apply find_some in Ei as [Hi%list_elem_of_In Hu%negb_true_iff]. destruct (slots_split i Hi) as (l1 & l2 & Es & H1 & H2).
    rewrite !bind_modify. cbn [fst snd mret st_ret].
    set (s' := set_g_bp _ _).
    assert (forall j, j <> i -> bp_of s' j = bp_of s j) as Ho.
    { intros j Hj. unfold bp_of, bp_is_used, s'. cbn. rewrite lookup_insert_ne by done. by rewrite aget_aset_ne. }
    assert (bp_of s' i = Some a) as Hia by (unfold bp_of, bp_is_used, s'; cbn; rewrite lookup_insert_eq; cbn; by rewrite aget_aset_eq).
    assert (bp_of s i = None) as Hin by (unfold bp_of; by rewrite Hu).
    assert (bp_list s' ≡ₚ a :: bp_list s) as Hp.
    { unfold bp_list. rewrite Es, !omap_app. cbn [omap list_omap]. rewrite Hia, Hin.
      rewrite (omap_ext_on (bp_of s') (bp_of s) l1), (omap_ext_on (bp_of s') (bp_of s) l2) by (intros j Hj; apply Ho; congruence).
      symmetry. apply Permutation_middle. }
    assert (length (bp_list s) <> Z.to_nat GDB_MAX_BP)%nat as Hl.
    { unfold bp_list. assert (length bp_slots = Z.to_nat GDB_MAX_BP) as El by apply length_zseq. rewrite Es, omap_app, length_app in *. cbn [omap list_omap length] in *. rewrite Hin.
      pose proof (omap_le (bp_of s) l1). pose proof (omap_le (bp_of s) l2). lia. }
    split; [|by rewrite (proj2 (Nat.eqb_neq _ _) Hl)]. unfold bp_fits. rewrite Hp. apply list.NoDup_cons. done.
  - split; [done|]. assert (length (bp_list s) = Z.to_nat GDB_MAX_BP) as ->; [|by rewrite Nat.eqb_refl].
    unfold bp_list. rewrite omap_full; [apply length_zseq|]. intros i Hi. pose proof (find_none _ _ Ei i (proj1 (list_elem_of_In _ _) Hi)) as Hu.
    apply negb_false_iff in Hu. unfold bp_of. rewrite Hu. by eexists.
Qed.

(** Clearing visits every slot. *)
Definition cleared (a : Z) (n : Z) (s s' : GdbStub) : Prop :=
  g_bp s' = g_bp s /\ forall i, bp_is_used s' i = bp_is_used s i && negb ((0 <=? i) && (i <? n) && ((g_bp s).[i] =? a)).
Lemma bp_remove_cleared a s : cleared a GDB_MAX_BP s (exec (bp_remove a) s).
Proof.
  unfold bp_remove. set (body := fun i => _).
  assert (forall n k s', 0 <= k -> cleared a k s s' -> cleared a (k + Z.of_nat n) s (exec (for_ n k body) s')) as H.
  2: { apply (H (Z.to_nat GDB_MAX_BP) 0 s); [lia|]. split; [done|]. intros i. destruct (Z.leb_spec 0 i), (Z.ltb_spec i 0); cbn; try lia; by rewrite andb_true_r. }
  induction n as [|n IH]; intros k s' Hk [Hb Hu]; cbn [for_]; [by rewrite Z.add_0_r|]. rewrite exec_bind.
  replace (k + Z.of_nat (S n)) with (k + 1 + Z.of_nat n) by lia. apply IH; [lia|]. clear IH.
  unfold body, exec. rewrite bind_gets. cbn [id].
  assert (bp_at s' a k = bp_is_used s k && ((g_bp s).[k] =? a)) as Ek.
  { unfold bp_at. rewrite Hb, Hu, (proj2 (Z.ltb_ge k k)), andb_false_r by lia. cbn. by rewrite andb_true_r. }
  assert (forall i, i <> k -> (0 <=? i) && (i <? k + 1) = (0 <=? i) && (i <? k)) as Hne.
  { intros i Hi. destruct (Z.leb_spec 0 i), (Z.ltb_spec i (k + 1)), (Z.ltb_spec i k); cbn; done || lia. }
  destruct (bp_at s' a k) eqn:Ea; cbn [when]; split; [done| |done|]; intros i; unfold modify, mret, st_ret; cbn [snd].
  - unfold bp_is_used at 1. cbn. destruct (Z.eq_dec i k) as [->|Hi].
    + rewrite lookup_insert_eq. cbn. rewrite (proj2 (Z.leb_le 0 k)), (proj2 (Z.ltb_lt k (k + 1))) by lia. cbn [andb].
      destruct (bp_is_used s k), (_ =? a); done.
    + rewrite lookup_insert_ne by done. fold (bp_is_used s' i). rewrite Hu. by rewrite Hne.
  - rewrite Hu. destruct (Z.eq_dec i k) as [->|Hi]; [|by rewrite Hne].
    rewrite (proj2 (Z.ltb_ge k k)), (proj2 (Z.leb_le 0 k)), (proj2 (Z.ltb_lt k (k + 1))) by lia. cbn [andb].
    destruct (bp_is_used s k), (_ =? a); done.
Qed.
Lemma omap_filter {A B} (f g : A -> option B) (P : B -> Prop) `{forall x, Decision (P x)} (l : list A) :
  (forall x, x ∈ l -> g x = match f x with Some y => if decide (P y) then Some y else None | None => None end) -> omap g l = filter P (omap f l).
Proof.
  induction l as [|x l IH]; intros Hx; [done|]. cbn. rewrite (Hx x) by apply list_elem_of_here.
  rewrite IH by (intros y Hy; apply Hx; by apply list_elem_of_further). destruct (f x) as [y|]; [|done]. rewrite filter_cons. by destruct (decide (P y)).
Qed.
Lemma bp_remove_list a s : bp_list (exec (bp_remove a) s) = filter (fun x => x <> a) (bp_list s).
Proof.
  destruct (bp_remove_cleared a s) as [Hb Hu]. apply omap_filter. intros i Hi. apply elem_of_zseq in Hi.
  unfold bp_of. rewrite Hu, Hb, (proj2 (Z.leb_le 0 i)), (proj2 (Z.ltb_lt i GDB_MAX_BP)) by (change (Z.of_nat (Z.to_nat GDB_MAX_BP)) with GDB_MAX_BP in Hi; lia).
  cbn [andb]. destruct (bp_is_used s i); [|done]. cbn [andb]. destruct (Z.eqb_spec (g_bp s).[i] a) as [->|Hn]; cbn [negb].
  - rewrite decide_False by (intros Hx; by apply Hx). done.
  - by rewrite decide_True.
Qed.

(** The contract of the table: a set of at most [GDB_MAX_BP] addresses. *)
Inductive bp_op := BpSet (a : Z) | BpClear (a : Z).
Definition bp_do (o : bp_op) : st GdbStub bool :=
  match o with BpSet a => bp_add a | BpClear a => bp_remove a ;; mret true end.
Definition bp_spec (o : bp_op) (S : gset Z) : bool * gset Z :=
  match o with
  | BpSet a => if bool_decide (a ∈ S) then (true, S) else if (size S =? Z.to_nat GDB_MAX_BP)%nat then (false, S) else (true, {[a]} ∪ S)
  | BpClear a => (true, S ∖ {[a]})
  end.
Lemma bp_do_refines o s : bp_fits s ->
  bp_fits (exec (bp_do o) s) /\ bp_spec o (bp_set s) = (run (bp_do o) s, bp_set (exec (bp_do o) s)).
Proof.
  intros Hf. destruct o as [a|a]; cbn [bp_do bp_spec].
  - destruct (bp_add_list a s Hf) as [Hf' H]. split; [done|]. assert (size (bp_set s) = length (bp_list s)) as -> by (by apply size_list_to_set).
    rewrite (bool_decide_ext (a ∈ bp_set s) (a ∈ bp_list s)) by apply elem_of_list_to_set. destruct (bool_decide (a ∈ bp_list s)).
    + by destruct H as [-> ->].
    + destruct (length (bp_list s) =? Z.to_nat GDB_MAX_BP)%nat; [by destruct H as [-> ->]|]. destruct H as [Hr Hp]. rewrite Hr. f_equal.
      apply set_eq. intros x. unfold bp_set. rewrite elem_of_union, elem_of_singleton, !elem_of_list_to_set, Hp, elem_of_cons. tauto.
  - rewrite run_bind, exec_bind. split; [unfold bp_fits; rewrite exec_ret, bp_remove_list; by apply list.NoDup_filter|].
    rewrite run_ret, exec_ret. f_equal. apply set_eq. intros x. unfold bp_set.
    rewrite bp_remove_list, elem_of_difference, elem_of_singleton, !elem_of_list_to_set, list_elem_of_filter. tauto.
Qed.

Fixpoint bp_run (os : list bp_op) (s : GdbStub) : list bool * GdbStub :=
  match os with
  | [] => ([], s)
  | o :: os => let r := bp_run os (exec (bp_do o) s) in (run (bp_do o) s :: r.1, r.2)
  end.
Fixpoint bp_spec_run (os : list bp_op) (S : gset Z) : list bool * gset Z :=
  match os with
  | [] => ([], S)
  | o :: os => let r := bp_spec_run os (bp_spec o S).2 in ((bp_spec o S).1 :: r.1, r.2)
  end.
Lemma bp_run_refines os : forall s, bp_fits s -> bp_fits (bp_run os s).2 /\ bp_spec_run os (bp_set s) = ((bp_run os s).1, bp_set (bp_run os s).2).
Proof.
  induction os as [|o os IH]; intros s Hf; [done|]. cbn [bp_run bp_spec_run fst snd]. destruct (bp_do_refines o s Hf) as [Hf' E]. rewrite E. cbn [fst snd].
  destruct (IH _ Hf') as [Hf2 E2]. rewrite E2. done.
Qed.

(** C37 [gdb_breakpoints]: from an attached stub, any sequence of breakpoint insertions and
    removals behaves as on a set of at most 128 addresses: each is accepted or refused as the
    set says, and afterwards the test for a breakpoint ([bp_match]) succeeds at exactly the
    addresses in the set. *)
Theorem breakpoints_refine os q l : let s := (bp_run os (gdb_attach q l)).2 in let r := bp_spec_run os ∅ in
  (bp_run os (gdb_attach q l)).1 = r.1 /\ (forall a, bp_match s a = bool_decide (a ∈ r.2)) /\ (size r.2 <= Z.to_nat GDB_MAX_BP)%nat.
Proof.
  cbv zeta. assert (bp_list (gdb_attach q l) = []) as E.
  { unfold bp_list. assert (forall i, bp_of (gdb_attach q l) i = None) as Hn.
    { intros i. unfold bp_of, bp_is_used. assert (g_bp_used (gdb_attach q l) = ∅) as -> by (unfold gdb_attach, cp_add, exec; rewrite bind_gets; by destruct (quanta_snapshot _)).
      by rewrite lookup_empty. }
    generalize bp_slots as sl. induction sl as [|i sl IH]; [done|]. cbn. by rewrite Hn, IH. }
  destruct (bp_run_refines os (gdb_attach q l)) as [Hf Er]; [unfold bp_fits; rewrite E; constructor|].
  assert (bp_set (gdb_attach q l) = ∅) as Es by (unfold bp_set; by rewrite E). rewrite Es in Er. rewrite Er. cbn [fst snd]. split; [done|]. split.
  - intros a. rewrite bp_match_list. apply bool_decide_ext. unfold bp_set. by rewrite elem_of_list_to_set.
  - unfold bp_set. rewrite size_list_to_set by done. unfold bp_list. rewrite omap_le. unfold bp_slots. by rewrite length_zseq.
Qed.

(** ** Running the guest *)

Definition step (q : Quanta) : Quanta := exec quanta_step q.
Definition steps (k : nat) (q : Quanta) : Quanta := Nat.iter k step q.
Lemma steps_step k q : steps k (step q) = steps (S k) q.
Proof. unfold steps. by rewrite Nat.iter_succ_r. Qed.

Lemma step_result q : q_loaded q = true -> run quanta_step q = quanta_halt_reason (step q).
Proof.
  intros Hl. unfold step, quanta_step. st_simpl. cbn [id]. rewrite Hl. cbn [negb]. destruct (q_m_halted q) eqn:Eh; st_simpl.
  - unfold quanta_halt_reason. by rewrite Eh.
  - cbn [id]. unfold quanta_halt_reason. destruct (q_m_halted (exec sched_turn q)); reflexivity.
Qed.
Lemma step_loaded q : q_loaded (step q) = q_loaded q.
Proof.
  destruct (q_loaded q) eqn:Hl; [|unfold step, quanta_step, exec; rewrite bind_gets; cbn [id]; by rewrite Hl].
  destruct (q_m_halted q) eqn:Hh; [unfold step, quanta_step, exec; rewrite bind_gets; cbn [id]; by rewrite Hl, Hh|].
  unfold step. rewrite quanta_step_turn by done. by rewrite (proj1 (proj2 (turn_fields q))).
Qed.

(** ** Polling the connection *)

(** [n] polls for a Ctrl-C, and the answer of the next. *)
Definition polls (n : nat) (s : GdbStub) : GdbStub := Nat.iter n (exec interrupt_pending) s.
Definition answer (n : nat) (s : GdbStub) : Z := run interrupt_pending (polls n s).
Lemma polls_S n s : polls (S n) s = exec interrupt_pending (polls n s).
Proof. done. Qed.
Lemma interrupt_effect s t : g_link t = g_link s ->
  run interrupt_pending t = run interrupt_pending s /\ exec interrupt_pending t = set_g_link (g_link (exec interrupt_pending s)) t.
Proof.
  intros E. unfold interrupt_pending, run, exec. rewrite !bind_gets, E.
  destruct (lk_poll (g_link s)) as [|[] ps]; rewrite !bind_modify; [by unfold upd_link; rewrite E| |by unfold upd_link; rewrite E].
  unfold read_byte. rewrite !bind_run. unfold run, exec. rewrite !bind_gets. unfold upd_link. rewrite E. cbn [g_link set_g_link lk_recv set_lk_poll].
  destruct (recv_loop _) as [c rest]. rewrite !bind_modify. done.
Qed.
Lemma interrupt_answer s : run interrupt_pending s = -1 \/ run interrupt_pending s = 0 \/ run interrupt_pending s = 1.
Proof.
  unfold interrupt_pending, run. rewrite bind_gets. destruct (lk_poll (g_link s)) as [|[] ps]; rewrite bind_modify; [by right; left| |by right; left].
  rewrite bind_run. cbn [fst mret st_ret]. destruct (_ <? 0); [by left|]. destruct (_ =? 3); [by right; right|by right; left].
Qed.

(** The machine has made [k] steps and the connection has been polled [n] times; the
    breakpoints and the session are the same. *)
Record moved (k n : nat) (s s' : GdbStub) : Prop := {
  mv_q : g_q s' = steps k (g_q s);
  mv_nsteps : u64 (g_nsteps s') = u64 (g_nsteps s + Z.of_nat k);
  mv_bp : g_bp s' = g_bp s /\ g_bp_used s' = g_bp_used s;
  mv_ctl : ctl s' = ctl (polls n s)
}.
Lemma polls_moved n s : moved 0 n s (polls n s).
Proof.
  induction n as [|n IH]; [constructor; try done; by rewrite Z.add_0_r|]. rewrite polls_S.
  destruct (interrupt_effect _ (polls n s) eq_refl) as [_ E]. destruct IH. rewrite E. constructor; try done. unfold ctl in *. rewrite polls_S, E. cbn. congruence.
Qed.
Lemma polls_ctl n s t : ctl t = ctl s -> ctl (polls n t) = ctl (polls n s).
Proof.
  intros E. induction n as [|n IH]; [done|]. rewrite !polls_S. set (t1 := polls n t) in *. set (s1 := polls n s) in *.
  injection IH as El Ed Er. destruct (interrupt_effect s1 t1 El) as [_ ->]. destruct (interrupt_effect s1 s1 eq_refl) as [_ Es]. rewrite Es at 2.
  unfold ctl. cbn. by rewrite Ed, Er.
Qed.
Lemma moved_trans j k m n s s1 s2 : moved j m s s1 -> moved k n s1 s2 -> moved (j + k) (m + n) s s2.
Proof.
  intros [Q1 N1 [B1 U1] C1] [Q2 N2 [B2 U2] C2]. constructor.
  - rewrite Q2, Q1. unfold steps. rewrite Nat.add_comm. by rewrite Nat.iter_add.
  - rewrite N2. unfold u64 in *. rewrite <- wrap_add_l, N1, wrap_add_l by lia. f_equal. lia.
  - split; congruence.
  - rewrite C2, (polls_ctl n _ _ C1). unfold polls. by rewrite <- Nat.iter_add, Nat.add_comm.
Qed.
Definition runs (q : Quanta) : Prop := quanta_halt_reason q = QUANTA_RUN.
#[export] Instance runs_dec q : Decision (runs q) := _.

Lemma cp_add_moved n s : moved 0 0 s (exec (cp_add n) s).
Proof.
  unfold cp_add, exec. rewrite bind_gets. cbn [id]. destruct (quanta_snapshot (g_q s)) as [sn|]; [|apply (polls_moved 0)].
  destruct (_ <? _); (constructor; [done|cbn; by rewrite Z.add_0_r|done|done]).
Qed.
Lemma raw_step_moved s : q_loaded (g_q s) = true -> runs (g_q s) ->
  run raw_step s = quanta_halt_reason (step (g_q s)) /\ moved 1 0 s (exec raw_step s).
Proof.
  intros Hl Hr. unfold raw_step, run, exec. rewrite bind_gets. cbn [id]. rewrite Hr, bool_decide_eq_true_2 by done. cbn [negb].
  rewrite bind_run. unfold run, exec, engine. pose proof (step_result (g_q s) Hl) as Er. unfold run, step, exec in Er.
  unfold step, exec. destruct (quanta_step (g_q s)) as [h q'] eqn:E. cbn [fst snd] in *. rewrite bind_modify. cbn [fst snd mret st_ret]. split; [done|].
  constructor; [|cbn; unfold u64; by rewrite wrap_wrap by lia|done|done]. cbn. unfold step, exec. by rewrite E.
Qed.
Lemma stub_step_moved s : q_loaded (g_q s) = true -> runs (g_q s) ->
  run stub_step s = quanta_halt_reason (step (g_q s)) /\ moved 1 0 s (exec stub_step s).
Proof.
  intros Hl Hr. destruct (raw_step_moved s Hl Hr) as [E Hm]. unfold stub_step. rewrite run_bind, exec_bind. 
  set (s1 := exec raw_step s) in *. unfold run at 1. unfold exec. rewrite !bind_gets. cbn [id]. rewrite !bind_run. cbn [fst snd mret st_ret].
  split; [done|]. destruct (_ && _ && _); cbn [when]; [|done]. apply (moved_trans 1 0 0 0 s s1); [done|apply cp_add_moved].
Qed.
(** A halted machine does not step. *)
Lemma stub_step_halted s : ~ runs (g_q s) -> stub_step s = (quanta_halt_reason (g_q s), s).
Proof.
  unfold runs. intros Hr. assert (raw_step s = (quanta_halt_reason (g_q s), s)) as E.
  { unfold raw_step. rewrite bind_gets. cbn [id]. by rewrite bool_decide_eq_false_2. }
  unfold stub_step. rewrite bind_run. unfold run, exec. rewrite E. cbn [fst snd]. rewrite bind_gets. cbn [id].
  rewrite bool_decide_eq_false_2 by done. by rewrite andb_false_r.
Qed.
Lemma bp_match_moved k n s s' a : moved k n s s' -> bp_match s' a = bp_match s a.
Proof. intros [_ _ [Hb Hu] _]. unfold bp_match, bp_at, bp_is_used. by rewrite Hb, Hu. Qed.
Lemma steps_loaded k q : q_loaded (steps k q) = q_loaded q.
Proof. unfold steps. induction k as [|k IH]; [done|]. cbn [Nat.iter nat_rect]. by rewrite step_loaded. Qed.

(** ** [continue] *)

(** The polls made at the states 1 to [k]: one at each multiple of [2 ^ 16]. *)
Definition polls_to (k : nat) : nat := (k / Z.to_nat 0x10000)%nat.
(** What the poll at the [k]-th state says; 0 where there is none. *)
Definition polled (s : GdbStub) (k : nat) : Z := if (k mod Z.to_nat 0x10000 =? 0)%nat then answer (polls_to (k - 1)) s else 0.
(** After [k] steps the machine runs, at no breakpoint. *)
Definition between (s : GdbStub) (k : nat) : Prop := runs (steps k (g_q s)) /\ bp_match s (quanta_pc (steps k (g_q s))) = false.
(** [continue] goes past the [k]-th state. *)
Definition passes (s : GdbStub) (k : nat) : Prop := between s k /\ polled s k = 0.
(** How it ends at the [k]-th, in the state [s']; [fuel] is used up when the guest still
    runs. *)
Definition stops (s : GdbStub) (fuel k : nat) (r : ContResult) (s' : GdbStub) : Prop :=
  match r with
  | CONT_HALTED => ~ runs (steps k (g_q s)) /\ moved k (polls_to (k - 1)) s s'
  | CONT_BREAK => runs (steps k (g_q s)) /\ bp_match s (quanta_pc (steps k (g_q s))) = true /\ moved k (polls_to (k - 1)) s s'
  | CONT_INTR => between s k /\ polled s k = 1 /\ moved k (polls_to k) s s'
  | CONT_DEAD => between s k /\ polled s k = -1 /\ moved k (polls_to k) s s'
  | CONT_RUNNING => k = fuel /\ runs (steps k (g_q s)) /\ moved k (polls_to (k - 1)) s s'
  end.

Lemma polls_to_S j : (0 < j)%nat -> polls_to j = (polls_to (j - 1) + if (j mod Z.to_nat 0x10000 =? 0)%nat then 1 else 0)%nat.
Proof.
  intros Hj. unfold polls_to. assert (1 < Z.to_nat 0x10000)%nat as Hm by lia. revert Hm. generalize (Z.to_nat 0x10000) as m. intros m Hm.
  pose proof (Nat.div_mod_eq j m) as E. pose proof (Nat.mod_upper_bound j m ltac:(lia)). set (d := (j / m)%nat) in *. set (r := (j mod m)%nat) in *.
  destruct (Nat.eqb_spec r 0) as [E0|E0].
  - assert (0 < d)%nat by nia. replace (j - 1)%nat with ((m - 1) + (d - 1) * m)%nat by nia. rewrite Nat.div_add, Nat.div_small by lia. lia.
  - replace (j - 1)%nat with ((r - 1) + d * m)%nat by nia. rewrite Nat.div_add, Nat.div_small by lia. lia.
Qed.
Lemma guard_polls j : (u64 (Z.of_nat j) .& 0xffff =? 0) = (j mod Z.to_nat 0x10000 =? 0)%nat.
Proof.
  change (u64 (Z.of_nat j) .& 0xffff) with (wrap 16 (wrap 64 (Z.of_nat j))). rewrite wrap_wrap, wrap_mod by lia.
  replace (2 ^ 16) with (Z.of_nat (Z.to_nat 0x10000)) by (rewrite Z2Nat.id; done). rewrite <- Nat2Z.inj_mod.
  destruct (Nat.eqb_spec (j mod Z.to_nat 0x10000) 0) as [->|H]; [done|]. apply Z.eqb_neq. lia.
Qed.
(** The poll at the [j]-th state. *)
Lemma poll_moved s0 j s : (0 < j)%nat -> moved j (polls_to (j - 1)) s0 s ->
  let m := if (u64 (Z.of_nat j) .& 0xffff) =? 0 then interrupt_pending else mret 0 in
  run m s = polled s0 j /\ moved j (polls_to j) s0 (exec m s).
Proof.
  intros Hj Hm. cbv zeta. rewrite guard_polls. unfold polled. rewrite (polls_to_S j Hj). destruct (_ =? 0)%nat; [|by rewrite Nat.add_0_r].
  split.
  - apply interrupt_effect. by injection (mv_ctl _ _ _ _ Hm).
  - rewrite <- (Nat.add_0_r j) at 1. by apply (moved_trans _ 0 _ 1 _ s); [|apply (polls_moved 1)].
Qed.
Lemma continue_loop_stops s0 fuel : q_loaded (g_q s0) = true ->
  forall j s, (0 < j)%nat -> moved j (polls_to (j - 1)) s0 s -> (forall i, (0 < i < j)%nat -> passes s0 i) ->
  let m := continue_loop fuel (quanta_halt_reason (g_q s)) (u64 (Z.of_nat j - 1)) in
  exists k, (j <= k)%nat /\ (forall i, (0 < i < k)%nat -> passes s0 i) /\ stops s0 (j + fuel) k (run m s) (exec m s).
Proof.
  intros Hl. induction fuel as [|fuel IH]; intros j s Hj Hm Hp; cbv zeta; cbn [continue_loop]; pose proof (mv_q _ _ _ _ Hm) as Hq;
    (destruct (decide (quanta_halt_reason (g_q s) = QUANTA_RUN)) as [Hr|Hr]; [rewrite (bool_decide_eq_true_2 _ Hr)|rewrite (bool_decide_eq_false_2 _ Hr)]); cbn [negb];
    fold (runs (g_q s)) in Hr; pose proof Hr as Hr'; rewrite Hq in Hr'.
  1, 2, 4: exists j; split; [done|]; split; [done|]; cbn; rewrite ?Nat.add_0_r; done.
  unfold run, exec. rewrite bind_gets. cbn [id]. rewrite (bp_match_moved _ _ s0 s), Hq by done. destruct (bp_match s0 _) eqn:Eb; [by exists j|].
  cbv zeta. replace (u64 (u64 (Z.of_nat j - 1) + 1)) with (u64 (Z.of_nat j)) by (unfold u64; rewrite wrap_add_l by lia; f_equal; lia).
  destruct (poll_moved s0 j s Hj Hm) as [Ea Hm']. set (m := if _ =? 0 then interrupt_pending else _) in *.
  rewrite bind_run, Ea. set (s1 := exec m s) in *.
  assert (polled s0 j = -1 \/ polled s0 j = 0 \/ polled s0 j = 1) as [E|[E|E]].
  { unfold polled. destruct (_ =? 0)%nat; [apply interrupt_answer|tauto]. }
  1, 3: exists j; rewrite E; by split.
  rewrite E. cbn [Z.ltb Z.compare]. rewrite bind_run. pose proof (mv_q _ _ _ _ Hm') as Hq1.
  destruct (stub_step_moved s1) as [Er Hs]; [by rewrite Hq1, steps_loaded|by rewrite Hq1|]. rewrite Er.
  set (s2 := exec stub_step s1) in *. replace (step (g_q s1)) with (g_q s2) by apply (mv_q _ _ _ _ Hs).
  destruct (IH (S j) s2) as (k & Hk & Hpk & Hst); [lia| | |].
  - replace (S j - 1)%nat with j by lia. pose proof (moved_trans _ _ _ _ _ _ _ Hm' Hs) as Ht. by rewrite Nat.add_0_r, Nat.add_1_r in Ht.
  - intros i Hi. destruct (decide (i = j)) as [->|]; [by split|]. apply Hp. lia.
  - exists k. split; [lia|]. split; [done|]. replace (j + S fuel)%nat with (S j + fuel)%nat by lia.
    by replace (Z.of_nat (S j) - 1) with (Z.of_nat j) in Hst by lia.
Qed.


(** ** Limits of the packet handlers *)

(** A [P] packet that fills the buffer and ends in [=]: the value is decoded from the
    terminator on, and the second digit is read one byte past the buffer. *)
Definition full_write_reg : list Z := 80 :: repeat 48 (Z.to_nat (GDB_BUFSZ - 3)) ++ [61].
Lemma write_reg_reads_past : Z.of_nat (length full_write_reg) = GDB_BUFSZ - 1 /\ g_oob (ask 0 full_write_reg debugged) = true.
Proof. split; vm_compute; reflexivity. Qed.
(** [c] with an address on a 64-bit machine resumes at its low 32 bits. *)
Lemma resume_truncates : let s := exec (resume_at 1 99 99) (received (Dtb.chars "c8000000080000000") 43 debugged) in
  c_pc (the_hart 0 (g_q s)) = 0x80000000.
Proof. vm_compute. reflexivity. Qed.
(** A [G] packet with a bad digit in [x2] is refused, but [x1] has changed. *)
Lemma write_regs_partial : let req := Dtb.chars "G00000000" ++ Dtb.chars "efbeadde" ++ repeat 122 (31 * 8) in
  lk_sent (g_link (ask 0 req debugged)) = 43 :: packet (Dtb.chars "E22") /\ quanta_reg (g_q (ask 0 req debugged)) 1 = 0xdeadbeef.
Proof. cbv zeta. split; vm_compute; reflexivity. Qed.
(** A register the debugger wrote has its old value again after a step and a reverse step:
    the replay starts from the snapshot taken when the debugger attached. *)
Lemma reverse_loses_writes : let s1 := ask 0 (Dtb.chars "P5=2a000000") debugged in let s2 := ask 0 (Dtb.chars "bs") (ask 0 (Dtb.chars "s") s1) in
  quanta_reg (g_q s1) 5 = 42 /\ g_nsteps s2 = g_nsteps s1 /\ quanta_reg (g_q s2) 5 = 0.
Proof. cbv zeta. repeat split; vm_compute; reflexivity. Qed.
