(* ===== verification/Disasm.v ===== *)
(** * The disassembler ([src/disasm.c])

    The text of one instruction: register names, pseudo-instructions, the compressed forms
    through the expander.  The text is a list of characters; [disasm] keeps what fits the
    caller's buffer. *)

From Stdlib Require Import Strings.String.
From S2P Require Import Prelude Decode Rvc Dtb CLib.

(** ** Text *)

(** [snprintf(buf, n, "name op,op,..", ..)]; an instruction without operands is its name. *)
Fixpoint commas (ops : list (list Z)) : list Z :=
  match ops with [] => [] | [o] => o | o :: ops => o ++ 44 :: commas ops end.
Definition line (name : list Z) (ops : list (list Z)) : list Z :=
  match ops with [] => name | _ => name ++ 32 :: commas ops end.
Definition insn (name : string) (ops : list (list Z)) : list Z := line (chars name) ops.
(** [0x%x], [0x%08x], [0x%04x], [%d(%s)]. *)
Definition hex (v : Z) : list Z := chars "0x" ++ fmt_x v.
Definition hex08 (v : Z) : list Z := chars "0x" ++ pad 8 48 (fmt_x v).
Definition hex04 (v : Z) : list Z := chars "0x" ++ pad 4 48 (fmt_x v).
Definition based (imm : Z) (reg : list Z) : list Z := fmt_d imm ++ 40 :: reg ++ [41].
Definition word (inst : Z) : list Z := insn ".word" [hex08 inst].

(** ** Names *)

(** A [switch] or a chain of conditionals that selects a string. *)
Fixpoint pick (k : Z) (rows : list (Z * string)) : option string :=
  match rows with [] => None | (v, s) :: rows => if k =? v then Some s else pick k rows end.
Definition pick_or (dflt : string) (k : Z) (rows : list (Z * string)) : list Z := chars (default dflt (pick k rows)).

Definition abi_names : list string :=
  ["zero"; "ra"; "sp"; "gp"; "tp"; "t0"; "t1"; "t2"; "s0"; "s1"; "a0"; "a1"; "a2"; "a3"; "a4"; "a5";
   "a6"; "a7"; "s2"; "s3"; "s4"; "s5"; "s6"; "s7"; "s8"; "s9"; "s10"; "s11"; "t3"; "t4"; "t5"; "t6"]%string.
(** [src/decode.h 166-174] reg_abi_name *)
Definition reg_abi_name (i : Z) : list Z := chars (nth (Z.to_nat (i .& 0x1f)) abi_names EmptyString).
Definition fabi_names : list string :=
  ["ft0"; "ft1"; "ft2"; "ft3"; "ft4"; "ft5"; "ft6"; "ft7"; "fs0"; "fs1"; "fa0"; "fa1"; "fa2"; "fa3"; "fa4"; "fa5";
   "fa6"; "fa7"; "fs2"; "fs3"; "fs4"; "fs5"; "fs6"; "fs7"; "fs8"; "fs9"; "fs10"; "fs11"; "ft8"; "ft9"; "ft10"; "ft11"]%string.
(** [src/decode.h 177-185] freg_abi_name *)
Definition freg_abi_name (i : Z) : list Z := chars (nth (Z.to_nat (i .& 0x1f)) fabi_names EmptyString).

(** [src/disasm.c 26-65] csr_name *)
Definition csr_name (addr : Z) : option string :=
  pick addr
    [(CSR_CYCLE, "cycle"); (CSR_TIME, "time"); (CSR_INSTRET, "instret");
     (CSR_CYCLEH, "cycleh"); (CSR_TIMEH, "timeh"); (CSR_INSTRETH, "instreth");
     (CSR_SSTATUS, "sstatus"); (CSR_SIE, "sie"); (CSR_STVEC, "stvec"); (CSR_SCOUNTEREN, "scounteren");
     (CSR_SSCRATCH, "sscratch"); (CSR_SEPC, "sepc"); (CSR_SCAUSE, "scause"); (CSR_STVAL, "stval");
     (CSR_SIP, "sip"); (CSR_SATP, "satp");
     (CSR_MVENDORID, "mvendorid"); (CSR_MARCHID, "marchid"); (CSR_MIMPID, "mimpid"); (CSR_MHARTID, "mhartid");
     (CSR_MSTATUS, "mstatus"); (CSR_MISA, "misa"); (CSR_MEDELEG, "medeleg"); (CSR_MIDELEG, "mideleg");
     (CSR_MIE, "mie"); (CSR_MTVEC, "mtvec"); (CSR_MCOUNTEREN, "mcounteren"); (CSR_MSTATUSH, "mstatush");
     (CSR_MSCRATCH, "mscratch"); (CSR_MEPC, "mepc"); (CSR_MCAUSE, "mcause"); (CSR_MTVAL, "mtval"); (CSR_MIP, "mip")]%string.

(** [src/disasm.c 69-79] csr_rd_pseudo *)
Definition csr_rd_pseudo (addr : Z) : option string :=
  pick addr
    [(CSR_CYCLE, "rdcycle"); (CSR_TIME, "rdtime"); (CSR_INSTRET, "rdinstret");
     (CSR_CYCLEH, "rdcycleh"); (CSR_TIMEH, "rdtimeh"); (CSR_INSTRETH, "rdinstreth")]%string.

(** ** Control and status registers *)

(** [src/disasm.c 84-125] disasm_csr *)
Definition disasm_csr (inst f3 : Z) : list Z :=
  let addr := (inst >> 20) .& 0xfff in
  let rdn := rd inst in let rs1n := rs1 inst in
  let d := reg_abi_name rdn in let s1 := reg_abi_name rs1n in
  let csr := match csr_name addr with Some s => chars s | None => snprintf 8 (hex addr) end in
  if f3 =? 0x1 then if rdn =? 0 then insn "csrw" [csr; s1] else insn "csrrw" [d; csr; s1]
  else if f3 =? 0x2 then
    if rs1n =? 0 then match csr_rd_pseudo addr with Some p => insn p [d] | None => insn "csrr" [d; csr] end
    else if rdn =? 0 then insn "csrs" [csr; s1]
    else insn "csrrs" [d; csr; s1]
  else if f3 =? 0x3 then if rdn =? 0 then insn "csrc" [csr; s1] else insn "csrrc" [d; csr; s1]
  else if f3 =? 0x5 then if rdn =? 0 then insn "csrwi" [csr; fmt_u rs1n] else insn "csrrwi" [d; csr; fmt_u rs1n]
  else if f3 =? 0x6 then if rdn =? 0 then insn "csrsi" [csr; fmt_u rs1n] else insn "csrrsi" [d; csr; fmt_u rs1n]
  else if f3 =? 0x7 then if rdn =? 0 then insn "csrci" [csr; fmt_u rs1n] else insn "csrrci" [d; csr; fmt_u rs1n]
  else word inst.

(** ** Floating point *)

Definition dotted (name suffix : list Z) : list Z := name ++ 46 :: suffix.
(** [src/disasm.c 130-162] disasm_fp *)
Definition disasm_fp (inst : Z) : list Z :=
  let op := inst >> 27 in let fmt := (inst >> 25) .& 3 in let f3 := funct3 inst in let rs2n := rs2 inst in
  let dbl := negb (fmt =? 0) in
  let w := if dbl then chars "d" else chars "s" in
  let fd := freg_abi_name (rd inst) in let f1 := freg_abi_name (rs1 inst) in let f2 := freg_abi_name (rs2 inst) in
  let xd := reg_abi_name (rd inst) in let x1 := reg_abi_name (rs1 inst) in
  let f name ops := line (dotted (chars name) w) ops in
  let int := pick_or "lu" rs2n [(0, "w"); (1, "wu"); (2, "l")]%string in
  if op =? 0x00 then f "fadd"%string [fd; f1; f2]
  else if op =? 0x01 then f "fsub"%string [fd; f1; f2]
  else if op =? 0x02 then f "fmul"%string [fd; f1; f2]
  else if op =? 0x03 then f "fdiv"%string [fd; f1; f2]
  else if op =? 0x0b then f "fsqrt"%string [fd; f1]
  else if op =? 0x04 then
    if (f3 =? 0) && (rs1 inst =? rs2n) then f "fmv"%string [fd; f1]
    else line (dotted (pick_or "fsgnjx" f3 [(0, "fsgnj"); (1, "fsgnjn")]%string) w) [fd; f1; f2]
  else if op =? 0x05 then f (if f3 =? 0 then "fmin"%string else "fmax"%string) [fd; f1; f2]
  else if op =? 0x08 then insn (if dbl then "fcvt.d.s" else "fcvt.s.d") [fd; f1]
  else if op =? 0x14 then line (dotted (pick_or "fle" f3 [(2, "feq"); (1, "flt")]%string) w) [xd; f1; f2]
  else if op =? 0x1c then
    if f3 =? 0 then insn (if dbl then "fmv.x.d" else "fmv.x.w") [xd; f1] else f "fclass"%string [xd; f1]
  else if op =? 0x1e then insn (if dbl then "fmv.d.x" else "fmv.w.x") [fd; x1]
  else if op =? 0x18 then line (dotted (dotted (chars "fcvt") int) w) [xd; f1]
  else if op =? 0x1a then line (dotted (dotted (chars "fcvt") w) int) [fd; x1]
  else word inst.

(** ** Bit manipulation *)

(** [None] is the result 0: not one of these instructions.
    [src/disasm.c 168-260] disasm_bitmanip *)
Definition disasm_bitmanip (inst : Z) : option (list Z) :=
  let op := opcode inst in let f3 := funct3 inst in let f7 := funct7 inst in
  let f6 := (inst >> 26) .& 0x3f in let rs2f := rs2 inst in
  let d := reg_abi_name (rd inst) in let s1 := reg_abi_name (rs1 inst) in let s2 := reg_abi_name (rs2 inst) in
  let shamt := (inst >> 20) .& 0x3f in
  if op =? OP_REG then
    if (f7 =? 0x04) && (f3 =? 0x4) && (rs2f =? 0) then Some (insn "zext.h" [d; s1])
    else
      (fun name => insn name [d; s1; s2]) <$>
        (if f7 =? 0x10 then pick f3 [(0x2, "sh1add"); (0x4, "sh2add"); (0x6, "sh3add")]%string
         else if f7 =? 0x20 then pick f3 [(0x7, "andn"); (0x6, "orn"); (0x4, "xnor")]%string
         else if f7 =? 0x30 then pick f3 [(0x1, "rol"); (0x5, "ror")]%string
         else if f7 =? 0x05 then pick f3 [(0x1, "clmul"); (0x2, "clmulr"); (0x3, "clmulh"); (0x4, "min"); (0x5, "minu"); (0x6, "max"); (0x7, "maxu")]%string
         else if f7 =? 0x24 then pick f3 [(0x1, "bclr"); (0x5, "bext")]%string
         else if f7 =? 0x14 then pick f3 [(0x1, "bset")]%string
         else if f7 =? 0x34 then pick f3 [(0x1, "binv")]%string
         else None)
  else if op =? OP_REG_32 then
    if (f7 =? 0x04) && (f3 =? 0x0) then Some (insn "add.uw" [d; s1; s2])
    else if (f7 =? 0x04) && (f3 =? 0x4) && (rs2f =? 0) then Some (insn "zext.h" [d; s1])
    else
      (fun name => insn name [d; s1; s2]) <$>
        (if f7 =? 0x10 then pick f3 [(0x2, "sh1add.uw"); (0x4, "sh2add.uw"); (0x6, "sh3add.uw")]%string
         else if f7 =? 0x30 then pick f3 [(0x1, "rolw"); (0x5, "rorw")]%string
         else None)
  else if op =? OP_IMM then
    if f3 =? 0x1 then
      if f7 =? 0x30 then
        (fun name => insn name [d; s1]) <$> pick rs2f [(0x00, "clz"); (0x01, "ctz"); (0x02, "cpop"); (0x04, "sext.b"); (0x05, "sext.h")]%string
      else (fun name => insn name [d; s1; hex shamt]) <$> pick f6 [(0x12, "bclri"); (0x1a, "binvi"); (0x0a, "bseti")]%string
    else if f3 =? 0x5 then
      if f6 =? 0x18 then Some (insn "rori" [d; s1; hex shamt])
      else if f6 =? 0x12 then Some (insn "bexti" [d; s1; hex shamt])
      else if (f7 =? 0x14) && (rs2f =? 0x07) then Some (insn "orc.b" [d; s1])
      else if ((f7 =? 0x34) || (f7 =? 0x35)) && (rs2f =? 0x18) then Some (insn "rev8" [d; s1])
      else None
    else None
  else if op =? OP_IMM_32 then
    if f3 =? 0x1 then
      if f6 =? 0x02 then Some (insn "slli.uw" [d; s1; hex shamt])
      else if f7 =? 0x30 then
        (fun name => insn name [d; s1]) <$> pick rs2f [(0x00, "clzw"); (0x01, "ctzw"); (0x02, "cpopw")]%string
      else None
    else if (f3 =? 0x5) && (f7 =? 0x30) then Some (insn "roriw" [d; s1; hex ((inst >> 20) .& 0x1f)])
    else None
  else None.

(** ** The base instructions *)

Section Fields.
Context (pc inst xlen : Z).
#[local] Abbreviation op := (opcode inst).
#[local] Abbreviation f3 := (funct3 inst).
#[local] Abbreviation f7 := (funct7 inst).
#[local] Abbreviation d := (reg_abi_name (rd inst)).
#[local] Abbreviation s1 := (reg_abi_name (rs1 inst)).
#[local] Abbreviation s2 := (reg_abi_name (rs2 inst)).

(** [src/disasm.c 299-306] disasm *)
Definition disasm_jal : list Z :=
let tgt := u32 (pc + u32 (imm_j inst)) in
let r := rd inst in
if r =? 0 then insn "j" [hex08 tgt] else if r =? 1 then insn "jal" [hex08 tgt] else insn "jal" [d; hex08 tgt].

(** [src/disasm.c 308-316] disasm *)
Definition disasm_jalr : list Z :=
let imm := imm_i inst in let r := rd inst in let a := rs1 inst in
if (r =? 0) && (imm =? 0) && (a =? 1) then insn "ret" []
else if (r =? 0) && (imm =? 0) then insn "jr" [s1]
else if (r =? 1) && (imm =? 0) then insn "jalr" [s1]
else insn "jalr" [d; based imm s1].

(** [src/disasm.c 318-344] disasm *)
Definition disasm_branch : list Z :=
let tgt := hex08 (u32 (pc + u32 (imm_b inst))) in
let z1 := rs1 inst =? 0 in let z2 := rs2 inst =? 0 in
if f3 =? 0x0 then if z2 then insn "beqz" [s1; tgt] else insn "beq" [s1; s2; tgt]
else if f3 =? 0x1 then if z2 then insn "bnez" [s1; tgt] else insn "bne" [s1; s2; tgt]
else if f3 =? 0x4 then
  if z2 then insn "bltz" [s1; tgt] else if z1 then insn "bgtz" [s2; tgt] else insn "blt" [s1; s2; tgt]
else if f3 =? 0x5 then
  if z2 then insn "bgez" [s1; tgt] else if z1 then insn "blez" [s2; tgt] else insn "bge" [s1; s2; tgt]
else if f3 =? 0x6 then insn "bltu" [s1; s2; tgt]
else if f3 =? 0x7 then insn "bgeu" [s1; s2; tgt]
else word inst.

(** [src/disasm.c 346-364] disasm *)
Definition disasm_mem : list Z :=
if op =? OP_LOAD then
  match pick f3 [(0x0, "lb"); (0x1, "lh"); (0x2, "lw"); (0x3, "ld"); (0x4, "lbu"); (0x5, "lhu"); (0x6, "lwu")]%string with
  | Some m => insn m [d; based (imm_i inst) s1]
  | None => word inst
  end
else
  match pick f3 [(0x0, "sb"); (0x1, "sh"); (0x2, "sw"); (0x3, "sd")]%string with
  | Some m => insn m [s2; based (imm_s inst) s1]
  | None => word inst
  end.

(** [src/disasm.c 366-386] disasm *)
Definition disasm_amo : list Z :=
let f5 := inst >> 27 in
let aqrl := if (inst .& (3 << 25)) =? 3 << 25 then chars ".aqrl"
  else if negb ((inst .& (1 << 26)) =? 0) then chars ".aq"
  else if negb ((inst .& (1 << 25)) =? 0) then chars ".rl" else [] in
let at_ := 40 :: s1 ++ [41] in
match pick f3 [(0x2, "w"); (0x3, "d")]%string with
| None => word inst
| Some wd =>
  if f5 =? 0x02 then line (dotted (chars "lr") (chars wd) ++ aqrl) [d; at_]
  else
    match pick f5 [(0x03, "sc"); (0x01, "amoswap"); (0x00, "amoadd"); (0x04, "amoxor"); (0x0c, "amoand"); (0x08, "amoor");
                   (0x10, "amomin"); (0x14, "amomax"); (0x18, "amominu"); (0x1c, "amomaxu")]%string with
    | Some m => line (dotted (chars m) (chars wd) ++ aqrl) [d; s2; at_]
    | None => word inst
    end
end.

(** [src/disasm.c 393-414] disasm *)
Definition disasm_fp_mem : list Z :=
if op =? OP_LOAD_FP then
  match pick f3 [(0x2, "flw"); (0x3, "fld")]%string with
  | Some m => insn m [freg_abi_name (rd inst); based (imm_i inst) s1]
  | None => word inst
  end
else if op =? OP_STORE_FP then
  match pick f3 [(0x2, "fsw"); (0x3, "fsd")]%string with
  | Some m => insn m [freg_abi_name (rs2 inst); based (imm_s inst) s1]
  | None => word inst
  end
else
  line (dotted (pick_or "fnmadd" op [(OP_MADD, "fmadd"); (OP_MSUB, "fmsub"); (OP_NMSUB, "fnmsub")]%string)
               (if negb ((inst >> 25) .& 3 =? 0) then chars "d" else chars "s"))
    [freg_abi_name (rd inst); freg_abi_name (rs1 inst); freg_abi_name (rs2 inst); freg_abi_name (inst >> 27)].

(** [src/disasm.c 419-452] disasm *)
Definition disasm_op_imm : list Z :=
match disasm_bitmanip inst with
| Some t => t
| None =>
  let imm := imm_i inst in
  let shamt := hex ((inst >> 20) .& (if xlen =? 64 then 0x3f else 0x1f)) in
  if f3 =? 0x0 then
    if (rd inst =? 0) && (rs1 inst =? 0) && (imm =? 0) then insn "nop" []
    else if rs1 inst =? 0 then insn "li" [d; fmt_d imm]
    else if imm =? 0 then insn "mv" [d; s1]
    else insn "addi" [d; s1; fmt_d imm]
  else if f3 =? 0x2 then insn "slti" [d; s1; fmt_d imm]
  else if f3 =? 0x3 then if imm =? 1 then insn "seqz" [d; s1] else insn "sltiu" [d; s1; fmt_d imm]
  else if f3 =? 0x4 then if imm =? -1 then insn "not" [d; s1] else insn "xori" [d; s1; fmt_d imm]
  else if f3 =? 0x6 then insn "ori" [d; s1; fmt_d imm]
  else if f3 =? 0x7 then insn "andi" [d; s1; fmt_d imm]
  else if f3 =? 0x1 then insn "slli" [d; s1; shamt]
  else if f3 =? 0x5 then if negb ((inst >> 30) .& 1 =? 0) then insn "srai" [d; s1; shamt] else insn "srli" [d; s1; shamt]
  else word inst
end.

(** [src/disasm.c 454-470] disasm *)
Definition disasm_op_imm32 : list Z :=
match disasm_bitmanip inst with
| Some t => t
| None =>
  let imm := imm_i inst in
  let shamt := hex ((inst >> 20) .& 0x1f) in
  if f3 =? 0x0 then if imm =? 0 then insn "sext.w" [d; s1] else insn "addiw" [d; s1; fmt_d imm]
  else if f3 =? 0x1 then insn "slliw" [d; s1; shamt]
  else if f3 =? 0x5 then if negb ((inst >> 30) .& 1 =? 0) then insn "sraiw" [d; s1; shamt] else insn "srliw" [d; s1; shamt]
  else word inst
end.

(** [src/disasm.c 472-507] disasm *)
Definition disasm_op : list Z :=
match disasm_bitmanip inst with
| Some t => t
| None =>
  if f7 =? 0x01 then
    insn (nth (Z.to_nat f3) ["mul"; "mulh"; "mulhsu"; "mulhu"; "div"; "divu"; "rem"; "remu"]%string EmptyString) [d; s1; s2]
  else if f3 =? 0x0 then
    if f7 =? 0x20 then if rs1 inst =? 0 then insn "neg" [d; s2] else insn "sub" [d; s1; s2]
    else insn "add" [d; s1; s2]
  else if f3 =? 0x1 then insn "sll" [d; s1; s2]
  else if f3 =? 0x2 then
    if rs2 inst =? 0 then insn "sltz" [d; s1]
    else if rs1 inst =? 0 then insn "sgtz" [d; s2]
    else insn "slt" [d; s1; s2]
  else if f3 =? 0x3 then if rs1 inst =? 0 then insn "snez" [d; s2] else insn "sltu" [d; s1; s2]
  else if f3 =? 0x4 then insn "xor" [d; s1; s2]
  else if f3 =? 0x5 then if f7 =? 0x20 then insn "sra" [d; s1; s2] else insn "srl" [d; s1; s2]
  else if f3 =? 0x6 then insn "or" [d; s1; s2]
  else if f3 =? 0x7 then insn "and" [d; s1; s2]
  else word inst
end.

(** [src/disasm.c 509-533] disasm *)
Definition disasm_op32 : list Z :=
match disasm_bitmanip inst with
| Some t => t
| None =>
  if f7 =? 0x01 then
    match pick f3 [(0, "mulw"); (4, "divw"); (5, "divuw"); (6, "remw"); (7, "remuw")]%string with
    | Some m => insn m [d; s1; s2]
    | None => word inst
    end
  else if f3 =? 0x0 then
    if f7 =? 0x20 then if rs1 inst =? 0 then insn "negw" [d; s2] else insn "subw" [d; s1; s2]
    else insn "addw" [d; s1; s2]
  else if f3 =? 0x1 then insn "sllw" [d; s1; s2]
  else if f3 =? 0x5 then if f7 =? 0x20 then insn "sraw" [d; s1; s2] else insn "srlw" [d; s1; s2]
  else word inst
end.

(** [src/disasm.c 535-554] disasm *)
Definition disasm_system : list Z :=
let f12 := inst >> 20 in
if f3 =? 0 then
  if inst >> 25 =? 0x09 then
    if (rs1 inst =? 0) && (rs2 inst =? 0) then insn "sfence.vma" [] else insn "sfence.vma" [s1; s2]
  else
    match pick f12 [(0x000, "ecall"); (0x001, "ebreak"); (0x302, "mret"); (0x102, "sret"); (0x105, "wfi")]%string with
    | Some m => insn m []
    | None => word inst
    end
else disasm_csr inst f3.

(** A 32-bit instruction.
  [src/disasm.c 283-297] disasm *)
Definition disasm_word : list Z :=
if op =? OP_LUI then insn "lui" [d; hex (inst >> 12)]
else if op =? OP_AUIPC then insn "auipc" [d; hex (inst >> 12)]
else if op =? OP_JAL then disasm_jal
else if op =? OP_JALR then disasm_jalr
else if op =? OP_BRANCH then disasm_branch
else if (op =? OP_LOAD) || (op =? OP_STORE) then disasm_mem
else if op =? OP_AMO then disasm_amo
else if op =? OP_FENCE then if f3 =? 0x1 then insn "fence.i" [] else insn "fence" []
else if (op =? OP_LOAD_FP) || (op =? OP_STORE_FP) || (op =? OP_MADD) || (op =? OP_MSUB) || (op =? OP_NMSUB) || (op =? OP_NMADD) then disasm_fp_mem
else if op =? OP_FP then disasm_fp inst
else if op =? OP_IMM then disasm_op_imm
else if op =? OP_IMM_32 then disasm_op_imm32
else if op =? OP_REG then disasm_op
else if op =? OP_REG_32 then disasm_op32
else if op =? OP_SYSTEM then disasm_system
else word inst.
End Fields.

(** The text before it is cut to the buffer.
    [src/disasm.c 262-281] disasm *)
Definition disasm_text (pc inst xlen : Z) : list Z :=
  if negb (inst .& 0x3 =? 0x3) then
    let x := rvc_expand (u16 inst) (xlen =? 64) in
    if x =? RVC_ILLEGAL then insn ".short" [hex04 (inst .& 0xffff)]
    else if (opcode x =? OP_REG) && (funct3 x =? 0) && (funct7 x =? 0) && (rs1 x =? 0)
    then insn "mv" [reg_abi_name (rd x); reg_abi_name (rs2 x)]
    else disasm_word pc x xlen
  else disasm_word pc inst xlen.
Definition disasm (pc inst xlen buflen : Z) : list Z := snprintf buflen (disasm_text pc inst xlen).
