(* ===== verification/Asm.v ===== *)
(** * An assembler for the disassembler's notation

    The inverse the disassembler is checked against: a table of the mnemonics of the RISC-V
    manuals with their operand forms and encodings, including the usual pseudo-instructions,
    and the reading of register names, numbers and address operands. *)

From Stdlib Require Import Strings.String.
From S2P Require Import Prelude Decode Rvc Dtb CLib Disasm.

(** ** Reading operands *)

Fixpoint index_where {A} (p : A -> bool) (l : list A) : option nat :=
  match l with [] => None | x :: l => if p x then Some 0%nat else S <$> index_where p l end.
Definition reg_of (o : list Z) : option Z := Z.of_nat <$> index_where (fun s => streq (chars s) o) abi_names.
Definition num (base : Z) (l : list Z) : option Z :=
  if forallb (is_digit base) l && negb (length l =? 0)%nat then Some (digits_val base l) else None.
Definition int_of (o : list Z) : option Z :=
  if starts_with (chars "0x") o then num 16 (drop 2 o)
  else if starts_with [45] o then Z.opp <$> num 10 (drop 1 o)
  else num 10 o.
(** [(reg)] and [imm(reg)] *)
Definition paren_of (o : list Z) : option Z :=
  match o with
  | c :: o => if (c =? 40) && (last o (0 : Z) =? 41) then reg_of (removelast o) else None
  | [] => None
  end.
Definition mem_of (o : list Z) : option (Z * Z) :=
  let imm := take_while (fun c => negb (c =? 40)) o in
  i ← int_of imm; r ← paren_of (drop (length imm) o); Some (i, r).
(** A control and status register: its name or its number. *)
Definition csr_rows : list (string * Z) :=
  [("cycle", 0xc00); ("time", 0xc01); ("instret", 0xc02); ("cycleh", 0xc80); ("timeh", 0xc81); ("instreth", 0xc82);
   ("sstatus", 0x100); ("sie", 0x104); ("stvec", 0x105); ("scounteren", 0x106); ("sscratch", 0x140); ("sepc", 0x141);
   ("scause", 0x142); ("stval", 0x143); ("sip", 0x144); ("satp", 0x180);
   ("mvendorid", 0xf11); ("marchid", 0xf12); ("mimpid", 0xf13); ("mhartid", 0xf14); ("mstatus", 0x300); ("misa", 0x301);
   ("medeleg", 0x302); ("mideleg", 0x303); ("mie", 0x304); ("mtvec", 0x305); ("mcounteren", 0x306); ("mstatush", 0x310);
   ("mscratch", 0x340); ("mepc", 0x341); ("mcause", 0x342); ("mtval", 0x343); ("mip", 0x344)]%string.
Fixpoint named {A} (o : list Z) (rows : list (string * A)) : option A :=
  match rows with [] => None | (s, a) :: rows => if streq (chars s) o then Some a else named o rows end.
Definition csr_of (o : list Z) : option Z :=
  match named o csr_rows with Some a => Some a | None => int_of o end.

(** ** Lines *)

Fixpoint split_on (c : Z) (l : list Z) : list (list Z) :=
  match l with
  | [] => [[]]
  | x :: l => if x =? c then [] :: split_on c l else match split_on c l with o :: os => (x :: o) :: os | [] => [[x]] end
  end.
Definition tokens (t : list Z) : list Z * list (list Z) :=
  let name := take_while (fun c => negb (c =? 32)) t in
  (name, if (length name =? length t)%nat then [] else split_on 44 (drop (S (length name)) t)).

(** ** Encodings *)

Inductive form :=
| F_r (f7 f3 op : Z)          (* rd,rs1,rs2 *)
| F_rz1 (f7 f3 op : Z)        (* rd,rs2; rs1 is x0 *)
| F_rz2 (f7 f3 op : Z)        (* rd,rs1; rs2 is x0 *)
| F_unary (f7 r2 f3 op : Z)   (* rd,rs1 *)
| F_i (f3 op : Z)             (* rd,rs1,imm *)
| F_ik (imm f3 op : Z)        (* rd,rs1 *)
| F_li                        (* rd,imm *)
| F_shift (f7 f3 op : Z)      (* rd,rs1,shamt *)
| F_u (op : Z)                (* rd,imm20 *)
| F_load (f3 : Z) | F_store (f3 : Z)
| F_branch (f3 : Z) | F_branch_z2 (f3 : Z) | F_branch_z1 (f3 : Z)
| F_j | F_jal | F_jr | F_jalr
| F_word (w : Z)
| F_sfence
| F_amo (f5 aqrl f3 : Z) | F_lr (aqrl f3 : Z)
| F_csr (f3 : Z) | F_csr_w (f3 : Z) | F_csr_r | F_csri (f3 : Z) | F_csri_w (f3 : Z) | F_rdcsr (addr : Z).

(** The byte offset to an absolute target in an address space of [xlen] bits, when an offset
    field of [k] bits can hold it. *)
Definition offset (xlen k pc tgt : Z) : option Z :=
  let o := sgn xlen (tgt - pc) in if (- 2 ^ (k - 1) <=? o) && (o <? 2 ^ (k - 1)) then Some o else None.
Definition encode (xlen pc : Z) (f : form) (ops : list (list Z)) : option Z :=
  match f, ops with
  | F_r f7 f3 op, [a; b; c] => d ← reg_of a; s ← reg_of b; t ← reg_of c; Some (r_type f7 t s f3 d op)
  | F_rz1 f7 f3 op, [a; b] => d ← reg_of a; t ← reg_of b; Some (r_type f7 t 0 f3 d op)
  | F_rz2 f7 f3 op, [a; b] => d ← reg_of a; s ← reg_of b; Some (r_type f7 0 s f3 d op)
  | F_unary f7 r2 f3 op, [a; b] => d ← reg_of a; s ← reg_of b; Some (r_type f7 r2 s f3 d op)
  | F_i f3 op, [a; b; c] => d ← reg_of a; s ← reg_of b; i ← int_of c; Some (i_type i s f3 d op)
  | F_ik i f3 op, [a; b] => d ← reg_of a; s ← reg_of b; Some (i_type i s f3 d op)
  | F_li, [a; b] => d ← reg_of a; i ← int_of b; Some (i_type i 0 0 d OP_IMM)
  | F_shift f7 f3 op, [a; b; c] => d ← reg_of a; s ← reg_of b; k ← int_of c; Some (r_type (f7 .| (k >> 5)) (k .& 0x1f) s f3 d op)
  | F_u op, [a; b] => d ← reg_of a; i ← int_of b; Some (u_type i d op)
  | F_load f3, [a; b] => d ← reg_of a; '(i, s) ← mem_of b; Some (i_type i s f3 d OP_LOAD)
  | F_store f3, [a; b] => t ← reg_of a; '(i, s) ← mem_of b; Some (s_type i t s f3 OP_STORE)
  | F_branch f3, [a; b; c] => s ← reg_of a; t ← reg_of b; g ← int_of c; o ← offset xlen 13 pc g; Some (b_type o t s f3 OP_BRANCH)
  | F_branch_z2 f3, [a; c] => s ← reg_of a; g ← int_of c; o ← offset xlen 13 pc g; Some (b_type o 0 s f3 OP_BRANCH)
  | F_branch_z1 f3, [b; c] => t ← reg_of b; g ← int_of c; o ← offset xlen 13 pc g; Some (b_type o t 0 f3 OP_BRANCH)
  | F_j, [c] => g ← int_of c; o ← offset xlen 21 pc g; Some (j_type o 0 OP_JAL)
  | F_jal, [c] => g ← int_of c; o ← offset xlen 21 pc g; Some (j_type o 1 OP_JAL)
  | F_jal, [a; c] => d ← reg_of a; g ← int_of c; o ← offset xlen 21 pc g; Some (j_type o d OP_JAL)
  | F_jr, [a] => s ← reg_of a; Some (i_type 0 s 0 0 OP_JALR)
  | F_jalr, [a] => s ← reg_of a; Some (i_type 0 s 0 1 OP_JALR)
  | F_jalr, [a; b] => d ← reg_of a; '(i, s) ← mem_of b; Some (i_type i s 0 d OP_JALR)
  | F_word w, [] => Some w
  | F_sfence, [] => Some (r_type 0x09 0 0 0 0 OP_SYSTEM)
  | F_sfence, [a; b] => s ← reg_of a; t ← reg_of b; Some (r_type 0x09 t s 0 0 OP_SYSTEM)
  | F_amo f5 q f3, [a; b; c] => d ← reg_of a; t ← reg_of b; s ← paren_of c; Some (r_type ((f5 << 2) .| q) t s f3 d OP_AMO)
  | F_lr q f3, [a; c] => d ← reg_of a; s ← paren_of c; Some (r_type ((0x02 << 2) .| q) 0 s f3 d OP_AMO)
  | F_csr f3, [a; b; c] => d ← reg_of a; n ← csr_of b; s ← reg_of c; Some (i_type n s f3 d OP_SYSTEM)
  | F_csr_w f3, [b; c] => n ← csr_of b; s ← reg_of c; Some (i_type n s f3 0 OP_SYSTEM)
  | F_csr_r, [a; b] => d ← reg_of a; n ← csr_of b; Some (i_type n 0 2 d OP_SYSTEM)
  | F_csri f3, [a; b; c] => d ← reg_of a; n ← csr_of b; z ← int_of c; Some (i_type n z f3 d OP_SYSTEM)
  | F_csri_w f3, [b; c] => n ← csr_of b; z ← int_of c; Some (i_type n z f3 0 OP_SYSTEM)
  | F_rdcsr n, [a] => d ← reg_of a; Some (i_type n 0 2 d OP_SYSTEM)
  | _, _ => None
  end.

(** ** The mnemonics *)

Definition R f7 f3 := F_r f7 f3 OP_REG.
Definition rows : list (string * form) :=
  [("add", R 0x00 0); ("sub", R 0x20 0); ("sll", R 0x00 1); ("slt", R 0x00 2); ("sltu", R 0x00 3); ("xor", R 0x00 4);
   ("srl", R 0x00 5); ("sra", R 0x20 5); ("or", R 0x00 6); ("and", R 0x00 7);
   ("mul", R 0x01 0); ("mulh", R 0x01 1); ("mulhsu", R 0x01 2); ("mulhu", R 0x01 3);
   ("div", R 0x01 4); ("divu", R 0x01 5); ("rem", R 0x01 6); ("remu", R 0x01 7);
   ("sh1add", R 0x10 2); ("sh2add", R 0x10 4); ("sh3add", R 0x10 6); ("andn", R 0x20 7); ("orn", R 0x20 6); ("xnor", R 0x20 4);
   ("rol", R 0x30 1); ("ror", R 0x30 5); ("clmul", R 0x05 1); ("clmulr", R 0x05 2); ("clmulh", R 0x05 3);
   ("min", R 0x05 4); ("minu", R 0x05 5); ("max", R 0x05 6); ("maxu", R 0x05 7);
   ("bclr", R 0x24 1); ("bext", R 0x24 5); ("bset", R 0x14 1); ("binv", R 0x34 1);
   ("neg", F_rz1 0x20 0 OP_REG); ("sltz", F_rz2 0x00 2 OP_REG); ("sgtz", F_rz1 0x00 2 OP_REG); ("snez", F_rz1 0x00 3 OP_REG);
   ("addw", F_r 0x00 0 OP_REG_32); ("subw", F_r 0x20 0 OP_REG_32); ("sllw", F_r 0x00 1 OP_REG_32); ("srlw", F_r 0x00 5 OP_REG_32);
   ("sraw", F_r 0x20 5 OP_REG_32); ("mulw", F_r 0x01 0 OP_REG_32); ("divw", F_r 0x01 4 OP_REG_32); ("divuw", F_r 0x01 5 OP_REG_32);
   ("remw", F_r 0x01 6 OP_REG_32); ("remuw", F_r 0x01 7 OP_REG_32); ("rolw", F_r 0x30 1 OP_REG_32); ("rorw", F_r 0x30 5 OP_REG_32);
   ("add.uw", F_r 0x04 0 OP_REG_32); ("sh1add.uw", F_r 0x10 2 OP_REG_32); ("sh2add.uw", F_r 0x10 4 OP_REG_32); ("sh3add.uw", F_r 0x10 6 OP_REG_32);
   ("negw", F_rz1 0x20 0 OP_REG_32);
   ("addi", F_i 0 OP_IMM); ("slti", F_i 2 OP_IMM); ("sltiu", F_i 3 OP_IMM); ("xori", F_i 4 OP_IMM); ("ori", F_i 6 OP_IMM); ("andi", F_i 7 OP_IMM);
   ("addiw", F_i 0 OP_IMM_32); ("nop", F_word 0x13); ("li", F_li); ("mv", F_ik 0 0 OP_IMM); ("seqz", F_ik 1 3 OP_IMM); ("not", F_ik (-1) 4 OP_IMM);
   ("sext.w", F_ik 0 0 OP_IMM_32);
   ("slli", F_shift 0x00 1 OP_IMM); ("srli", F_shift 0x00 5 OP_IMM); ("srai", F_shift 0x20 5 OP_IMM); ("rori", F_shift 0x30 5 OP_IMM);
   ("bclri", F_shift 0x24 1 OP_IMM); ("bexti", F_shift 0x24 5 OP_IMM); ("bseti", F_shift 0x14 1 OP_IMM); ("binvi", F_shift 0x34 1 OP_IMM);
   ("slliw", F_shift 0x00 1 OP_IMM_32); ("srliw", F_shift 0x00 5 OP_IMM_32); ("sraiw", F_shift 0x20 5 OP_IMM_32); ("roriw", F_shift 0x30 5 OP_IMM_32);
   ("slli.uw", F_shift 0x04 1 OP_IMM_32);
   ("clz", F_unary 0x30 0 1 OP_IMM); ("ctz", F_unary 0x30 1 1 OP_IMM); ("cpop", F_unary 0x30 2 1 OP_IMM);
   ("sext.b", F_unary 0x30 4 1 OP_IMM); ("sext.h", F_unary 0x30 5 1 OP_IMM); ("orc.b", F_unary 0x14 7 5 OP_IMM);
   ("clzw", F_unary 0x30 0 1 OP_IMM_32); ("ctzw", F_unary 0x30 1 1 OP_IMM_32); ("cpopw", F_unary 0x30 2 1 OP_IMM_32);
   ("lui", F_u OP_LUI); ("auipc", F_u OP_AUIPC);
   ("lb", F_load 0); ("lh", F_load 1); ("lw", F_load 2); ("ld", F_load 3); ("lbu", F_load 4); ("lhu", F_load 5); ("lwu", F_load 6);
   ("sb", F_store 0); ("sh", F_store 1); ("sw", F_store 2); ("sd", F_store 3);
   ("beq", F_branch 0); ("bne", F_branch 1); ("blt", F_branch 4); ("bge", F_branch 5); ("bltu", F_branch 6); ("bgeu", F_branch 7);
   ("beqz", F_branch_z2 0); ("bnez", F_branch_z2 1); ("bltz", F_branch_z2 4); ("bgez", F_branch_z2 5); ("bgtz", F_branch_z1 4); ("blez", F_branch_z1 5);
   ("j", F_j); ("jal", F_jal); ("jr", F_jr); ("jalr", F_jalr); ("ret", F_word 0x8067);
   ("fence", F_word 0x0ff0000f); ("fence.i", F_word 0x100f); ("ecall", F_word 0x73); ("ebreak", F_word 0x100073); ("mret", F_word 0x30200073); ("sret", F_word 0x10200073); ("wfi", F_word 0x10500073);
   ("sfence.vma", F_sfence);
   ("csrrw", F_csr 1); ("csrrs", F_csr 2); ("csrrc", F_csr 3); ("csrw", F_csr_w 1); ("csrs", F_csr_w 2); ("csrc", F_csr_w 3); ("csrr", F_csr_r);
   ("csrrwi", F_csri 5); ("csrrsi", F_csri 6); ("csrrci", F_csri 7); ("csrwi", F_csri_w 5); ("csrsi", F_csri_w 6); ("csrci", F_csri_w 7);
   ("rdcycle", F_rdcsr 0xc00); ("rdtime", F_rdcsr 0xc01); ("rdinstret", F_rdcsr 0xc02);
   ("rdcycleh", F_rdcsr 0xc80); ("rdtimeh", F_rdcsr 0xc81); ("rdinstreth", F_rdcsr 0xc82)]%string.
(** The two mnemonics whose encoding depends on the width. *)
Definition width_rows (xlen : Z) : list (string * form) :=
  [("rev8"%string, F_unary (if xlen =? 32 then 0x34 else 0x35) 0x18 5 OP_IMM);
   ("zext.h"%string, F_unary 0x04 0 4 (if xlen =? 32 then OP_REG else OP_REG_32))].
(** The atomics: an operation, a width and an ordering suffix. *)
Definition amo_ops : list (string * Z) :=
  [("sc", 0x03); ("amoswap", 0x01); ("amoadd", 0x00); ("amoxor", 0x04); ("amoand", 0x0c); ("amoor", 0x08);
   ("amomin", 0x10); ("amomax", 0x14); ("amominu", 0x18); ("amomaxu", 0x1c)]%string.
Definition amo_suffixes : list (list Z * (Z * Z)) :=
  concat (map (fun '(w, f3) => map (fun '(o, q) => (46 :: chars w ++ chars o, (f3, q))) [(""%string, 0); (".rl"%string, 1); (".aq"%string, 2); (".aqrl"%string, 3)])
    [("w"%string, 2); ("d"%string, 3)]).
Definition amo_rows : list (list Z * form) :=
  concat (map (fun '(suffix, (f3, q)) => (chars "lr" ++ suffix, F_lr q f3) :: map (fun '(m, f5) => (chars m ++ suffix, F_amo f5 q f3)) amo_ops) amo_suffixes).

Fixpoint find_row (o : list Z) (rows : list (list Z * form)) : option form :=
  match rows with [] => None | (s, f) :: rows => if streq s o then Some f else find_row o rows end.
Definition mnemonics (xlen : Z) : list (list Z * form) := map (fun '(s, f) => (chars s, f)) (rows ++ width_rows xlen) ++ amo_rows.
Definition assemble (xlen pc : Z) (text : list Z) : option Z :=
  let '(name, ops) := tokens text in
  f ← find_row name (mnemonics xlen); encode xlen pc f ops.

(** No mnemonic is listed twice. *)
Lemma mnemonics_distinct : NoDup (mnemonics 32).*1 /\ NoDup (mnemonics 64).*1.
Proof. split; by apply (bool_decide_unpack _); vm_compute. Qed.
