(* ===== verification/DisasmRead.v ===== *)
(** * Reading the disassembler's output

    The tokens of a printed line, and the operands: a register name, a number, an address or
    a control register reads back as what was printed.  The fields of a 32-bit word put
    together by the format builders give the word. *)

From Stdlib Require Import Strings.String.
From S2P Require Import Prelude Decode Rvc Isa AluSem Dtb CLib Disasm Asm.

(** ** Lines and operands *)

Definition without (c : Z) (o : list Z) : bool := forallb (fun x => negb (x =? c)) o.

Lemma without_app c a b : without c (a ++ b) = without c a && without c b.
Proof. apply forallb_app. Qed.
Lemma split_on_last c a : without c a = true -> split_on c a = [a].
Proof.
  induction a as [|x a IH]; [done|]. unfold without. cbn [forallb split_on]. intros [Hx%negb_true_iff Ha]%andb_true_iff. rewrite Hx. by rewrite IH.
Qed.
Lemma split_on_app c a l : without c a = true -> split_on c (a ++ c :: l) = a :: split_on c l.
Proof.
  induction a as [|x a IH]; [cbn; by rewrite Z.eqb_refl|]. unfold without. cbn [forallb split_on app]. intros [Hx%negb_true_iff Ha]%andb_true_iff.
  rewrite Hx. by rewrite IH.
Qed.
Lemma split_commas ops : ops <> [] -> forallb (without 44) ops = true -> split_on 44 (commas ops) = ops.
Proof.
  induction ops as [|o ops IH]; [done|]. cbn [forallb]. intros _ [Ho Hops]%andb_true_iff. destruct ops as [|o' ops]; [by apply split_on_last|].
  change (commas (o :: o' :: ops)) with (o ++ 44 :: commas (o' :: ops)). rewrite split_on_app by done. f_equal. by apply IH.
Qed.
Lemma tokens_line name ops : without 32 name = true -> forallb (without 44) ops = true -> tokens (line name ops) = (name, ops).
Proof.
  intros Hn Ho. unfold tokens, line. destruct ops as [|o ops].
  - rewrite take_while_all by done. by rewrite Nat.eqb_refl.
  - set (cs := commas (o :: ops)). rewrite take_while_app by done. rewrite (proj2 (Nat.eqb_neq _ _)) by (rewrite length_app; cbn; lia).
    f_equal. replace (S (length name)) with (length (name ++ [32])) by (rewrite length_app; cbn; lia).
    replace (name ++ 32 :: cs) with ((name ++ [32]) ++ cs) by (by rewrite <- app_assoc). rewrite drop_app_length. unfold cs. by apply split_commas.
Qed.
Lemma assemble_line xlen pc name ops f w : without 32 name = true -> find_row name (mnemonics xlen) = Some f -> forallb (without 44) ops = true ->
  encode xlen pc f ops = Some w -> assemble xlen pc (line name ops) = Some w.
Proof. intros Hn Hf Ho He. unfold assemble. rewrite tokens_line by done. by rewrite Hf. Qed.

(** Registers. *)
Lemma reg_names_back : forallb (fun r => bool_decide (reg_of (reg_abi_name r) = Some r) && without 44 (reg_abi_name r) && without 40 (reg_abi_name r)) (zseq 0 32) = true.
Proof. by vm_compute. Qed.
Lemma reg_facts r : 0 <= r < 32 -> reg_of (reg_abi_name r) = Some r /\ without 44 (reg_abi_name r) = true /\ without 40 (reg_abi_name r) = true.
Proof.
  intros Hr. pose proof reg_names_back as H. rewrite forallb_forall in H. specialize (H r). rewrite <- list_elem_of_In, elem_of_zseq in H. specialize (H ltac:(lia)). cbv beta in H.
  apply andb_true_iff in H as [[H%bool_decide_eq_true ?]%andb_true_iff ?]. done.
Qed.
Lemma field5 w k : 0 <= (w >> k) .& 0x1f < 32.
Proof. change 0x1f with (Z.ones 5). rewrite Z.land_ones by lia. apply Z.mod_pos_bound. lia. Qed.

(** Numbers. *)
Lemma digits_plain base l : 2 <= base <= 16 -> forallb (is_digit base) l = true ->
  without 44 l = true /\ without 40 l = true /\ without 45 l = true /\ without 120 l = true.
Proof.
  intros Hb H. assert (forall c, c ∈ l -> c <> 44 /\ c <> 40 /\ c <> 45 /\ c <> 120) as Hc.
  { intros c Hc%list_elem_of_In. rewrite forallb_forall in H. specialize (H c Hc). unfold is_digit, digit_val in H.
    destruct (Z.leb_spec 48 c), (Z.leb_spec c 57), (Z.leb_spec 97 c), (Z.leb_spec c 122), (Z.leb_spec 65 c), (Z.leb_spec c 90); cbn in H; try lia; apply Z.ltb_lt in H; lia. }
  repeat split; apply forallb_forall; intros c Hi%list_elem_of_In; apply negb_true_iff, Z.eqb_neq; by apply Hc.
Qed.
Lemma num_digits base v : 2 <= base <= 16 -> 0 <= v < base ^ 20 -> num base (print_digits 20 base v []) = Some v.
Proof.
  intros Hb Hv. unfold num. rewrite print_digits_are by (done || lia). pose proof (print_digits_nonempty base 20 v [] ltac:(left; lia)) as Hne.
  destruct (print_digits 20 base v []) as [|c l] eqn:E; [done|]. cbn [length Nat.eqb negb andb]. rewrite <- E, print_digits_val by (done || lia).
  f_equal. cbn. lia.
Qed.
Lemma digits_val_zeros base k l : digits_val base (repeat 48 k ++ l) = digits_val base l.
Proof. induction k as [|k IH]; [done|]. cbn [repeat app]. rewrite digits_val_cons. change (digit_val 48) with 0. rewrite IH. lia. Qed.
Lemma num_pad v k : 0 <= v < 16 ^ 20 -> num 16 (pad k 48 (fmt_x v)) = Some v.
Proof.
  intros Hv. pose proof (num_digits 16 v ltac:(lia) Hv) as H. fold (fmt_x v) in H. unfold num, pad in *. rewrite forallb_app, digits_val_zeros, length_app.
  destruct (forallb (is_digit 16) (fmt_x v)) eqn:E; [|done]. cbn [andb] in H. rewrite (proj2 (forallb_forall _ (repeat 48 _))).
  - cbn [andb]. destruct (length (fmt_x v)) eqn:El; [done|]. cbn [Nat.eqb negb] in H. by rewrite Nat.add_succ_r.
  - intros c Hc%repeat_spec. by subst.
Qed.
Lemma hex_digits v : 0 <= v -> forallb (is_digit 16) (fmt_x v) = true.
Proof. intros Hv. by apply print_digits_are. Qed.
Lemma int_hex v : 0 <= v < 16 ^ 20 -> int_of (hex v) = Some v.
Proof. intros Hv. by apply (num_digits 16). Qed.
Lemma int_hex08 v : 0 <= v < 16 ^ 20 -> int_of (hex08 v) = Some v.
Proof. intros Hv. by apply num_pad. Qed.
Lemma without_pad c k l : c <> 48 -> without c l = true -> without c (pad k 48 l) = true.
Proof.
  intros Hc Hl. unfold pad. rewrite without_app, Hl, andb_true_r. apply forallb_forall. intros x Hx%repeat_spec. subst x. apply negb_true_iff, Z.eqb_neq. lia.
Qed.
Lemma hex_plain v : 0 <= v -> without 44 (hex v) = true.
Proof. intros Hv. unfold hex. rewrite without_app. by rewrite (proj1 (digits_plain 16 _ ltac:(lia) (hex_digits v Hv))). Qed.
Lemma hex08_plain v : 0 <= v -> without 44 (hex08 v) = true.
Proof. intros Hv. unfold hex08. rewrite without_app, without_pad; [done|lia|]. exact (proj1 (digits_plain 16 _ ltac:(lia) (hex_digits v Hv))). Qed.
Lemma not_starting c p l : without c l = true -> starts_with (c :: p) l = false.
Proof. destruct l as [|x l]; [done|]. unfold without. cbn [forallb starts_with]. intros [Hx%negb_true_iff _]%andb_true_iff. by rewrite Z.eqb_sym, Hx. Qed.
Lemma not_starting_second c x p l : without x l = true -> starts_with (c :: x :: p) l = false.
Proof.
  destruct l as [|y [|z l]]; [done|cbn; by rewrite andb_false_r|]. unfold without. cbn [forallb starts_with]. intros [_ [Hx%negb_true_iff _]%andb_true_iff]%andb_true_iff.
  by rewrite (Z.eqb_sym x z), Hx, andb_false_r.
Qed.
Lemma fmt_u_plain v : 0 <= v -> without 44 (fmt_u v) = true /\ without 40 (fmt_u v) = true /\ without 45 (fmt_u v) = true /\ without 120 (fmt_u v) = true.
Proof. intros Hv. apply (digits_plain 10); [lia|]. by apply print_digits_are. Qed.
Lemma int_u v : 0 <= v < 10 ^ 20 -> int_of (fmt_u v) = Some v.
Proof.
  intros Hv. destruct (fmt_u_plain v ltac:(lia)) as (_ & _ & H45 & H120). unfold int_of. change (chars "0x") with [48; 120].
  rewrite not_starting_second, not_starting by done. by apply (num_digits 10).
Qed.
Lemma int_d v : - 10 ^ 20 < v < 10 ^ 20 -> int_of (fmt_d v) = Some v.
Proof.
  intros Hv. unfold fmt_d. destruct (Z.ltb_spec v 0); [|apply int_u; lia].
  change (Z.opp <$> num 10 (fmt_u (- v)) = Some v). unfold fmt_u. rewrite num_digits by lia. cbn. f_equal. lia.
Qed.
Lemma fmt_d_plain v : without 44 (fmt_d v) = true /\ without 40 (fmt_d v) = true.
Proof.
  unfold fmt_d. destruct (Z.ltb_spec v 0).
  - destruct (fmt_u_plain (- v) ltac:(lia)) as (H1 & H2 & _). unfold without in *. cbn [forallb]. by rewrite H1, H2.
  - by destruct (fmt_u_plain v ltac:(lia)) as (H1 & H2 & _).
Qed.

(** Address operands. *)
Lemma paren_back r : 0 <= r < 32 -> paren_of (40 :: reg_abi_name r ++ [41]) = Some r.
Proof. intros Hr. unfold paren_of. rewrite last_last, removelast_last. by apply reg_facts. Qed.
Lemma paren_plain r : 0 <= r < 32 -> without 44 (40 :: reg_abi_name r ++ [41]) = true.
Proof. intros Hr. change (without 44 (reg_abi_name r ++ [41]) = true). rewrite without_app. by rewrite (proj1 (proj2 (reg_facts r Hr))). Qed.
Lemma mem_back imm r : - 10 ^ 20 < imm < 10 ^ 20 -> 0 <= r < 32 -> mem_of (based imm (reg_abi_name r)) = Some (imm, r).
Proof.
  intros Hi Hr. unfold mem_of, based. rewrite take_while_app by (apply fmt_d_plain || done). rewrite int_d by done. cbn [mbind option_bind].
  rewrite drop_app_length, paren_back by done. done.
Qed.
Lemma based_plain imm r : 0 <= r < 32 -> without 44 (based imm (reg_abi_name r)) = true.
Proof. intros Hr. unfold based. rewrite without_app. rewrite (proj1 (fmt_d_plain imm)). by apply paren_plain. Qed.

(** Control and status registers. *)
Definition csr_text (addr : Z) : list Z := match csr_name addr with Some s => chars s | None => snprintf 8 (hex addr) end.
Lemma csr_texts_back : forallb (fun a => bool_decide (csr_of (csr_text a) = Some a) && without 44 (csr_text a)) (zseq 0 4096) = true.
Proof. by vm_compute. Qed.
Lemma csr_facts a : 0 <= a < 4096 -> csr_of (csr_text a) = Some a /\ without 44 (csr_text a) = true.
Proof.
  intros Ha. pose proof csr_texts_back as H. rewrite forallb_forall in H. specialize (H a). rewrite <- list_elem_of_In, elem_of_zseq in H.
  specialize (H ltac:(lia)). cbv beta in H. by apply andb_true_iff in H as [H%bool_decide_eq_true ?].
Qed.

(** ** The fields of a word give the word back *)

Section Again.
Context (w : Z) (Hw : rng 32 w).

Ltac fields := unfold opcode, rd, funct3, rs1, rs2, funct7, r_type, i_type, s_type, b_type, u_type, j_type.

Lemma imm_s_field : imm_s w = sgn 12 (((w >> 25 .& 0x7f) << 5) .| (w >> 7 .& 0x1f)).
Proof. unfold imm_s; cbv zeta. apply (imm_field _ 12); [done|]. zbits. Qed.
Lemma imm_b_field : imm_b w = sgn 13 (((w >> 31 .& 1) << 12) .| ((w >> 7 .& 1) << 11) .| ((w >> 25 .& 0x3f) << 5) .| ((w >> 8 .& 0xf) << 1)).
Proof. unfold imm_b; cbv zeta. apply (imm_field _ 13); [done|]. zbits. Qed.
Lemma imm_j_field : imm_j w = sgn 21 (((w >> 31 .& 1) << 20) .| ((w >> 12 .& 0xff) << 12) .| ((w >> 20 .& 1) << 11) .| ((w >> 21 .& 0x3ff) << 1)).
Proof. unfold imm_j; cbv zeta. apply (imm_field _ 21); [done|]. zbits. Qed.

Lemma r_again : r_type (funct7 w) (rs2 w) (rs1 w) (funct3 w) (rd w) (opcode w) = w.
Proof. fields. zbits. Qed.
Lemma i_again : i_type (imm_i w) (rs1 w) (funct3 w) (rd w) (opcode w) = w.
Proof. fields. unfold imm_i. zbits. Qed.
Lemma s_again : s_type (imm_s w) (rs2 w) (rs1 w) (funct3 w) (opcode w) = w.
Proof. rewrite imm_s_field. fields. zbits. Qed.
Lemma b_again : b_type (imm_b w) (rs2 w) (rs1 w) (funct3 w) (opcode w) = w.
Proof. rewrite imm_b_field. fields. zbits. Qed.
Lemma u_again : u_type (w >> 12) (rd w) (opcode w) = w.
Proof. fields. zbits. Qed.
Lemma j_again : j_type (imm_j w) (rd w) (opcode w) = w.
Proof. rewrite imm_j_field. fields. zbits. Qed.
Lemma csr_again : i_type ((w >> 20) .& 0xfff) (rs1 w) (funct3 w) (rd w) (opcode w) = w.
Proof. fields. zbits. Qed.
End Again.

Section Back.
Context (w : Z) (Hw : rng 32 w).

Lemma field_back k : reg_of (reg_abi_name (w >> k .& 0x1f)) = Some (w >> k .& 0x1f).
Proof. apply reg_facts, field5. Qed.
Lemma rd_back : reg_of (reg_abi_name (rd w)) = Some (rd w).
Proof. apply field_back. Qed.
Lemma rs1_back : reg_of (reg_abi_name (rs1 w)) = Some (rs1 w).
Proof. apply field_back. Qed.
Lemma rs2_back : reg_of (reg_abi_name (rs2 w)) = Some (rs2 w).
Proof. apply field_back. Qed.
Lemma fields5 : 0 <= rd w < 32 /\ 0 <= rs1 w < 32 /\ 0 <= rs2 w < 32.
Proof. split_and!; apply (field5 w). Qed.
Lemma imm_range : (- 2 ^ 31 <= imm_i w < 2 ^ 31) /\ (- 2 ^ 31 <= imm_s w < 2 ^ 31) /\ (- 2 ^ 31 <= imm_b w < 2 ^ 31) /\ (- 2 ^ 31 <= imm_j w < 2 ^ 31).
Proof.
split; [|split; [|split]].
- apply imm_i_range.
- rewrite imm_s_field. pose proof (sgn_range 12 (((w >> 25 .& 0x7f) << 5) .| (w >> 7 .& 0x1f)) ltac:(lia)). lia.
- unfold imm_b; cbv zeta. apply (sgn_range 32). lia.
- unfold imm_j; cbv zeta. apply (sgn_range 32). lia.
Qed.
End Back.

Section Fits.
Context (w : Z) (Hw : rng 32 w).

Lemma r_fits f7 t s f3 d o : funct7 w = f7 -> rs2 w = t -> rs1 w = s -> funct3 w = f3 -> rd w = d -> opcode w = o -> r_type f7 t s f3 d o = w.
Proof. intros; subst. by apply r_again. Qed.
Lemma i_fits i s f3 d o : imm_i w = i -> rs1 w = s -> funct3 w = f3 -> rd w = d -> opcode w = o -> i_type i s f3 d o = w.
Proof. intros; subst. by apply i_again. Qed.
Lemma s_fits i t s f3 o : imm_s w = i -> rs2 w = t -> rs1 w = s -> funct3 w = f3 -> opcode w = o -> s_type i t s f3 o = w.
Proof. intros; subst. by apply s_again. Qed.
Lemma imm_near : (- 2 ^ 12 <= imm_b w < 2 ^ 12) /\ (- 2 ^ 20 <= imm_j w < 2 ^ 20).
Proof. rewrite imm_b_field, imm_j_field by done. split; [by apply (sgn_range 13)|by apply (sgn_range 21)]. Qed.
Lemma b_fits i t s f3 o : imm_b w = i -> rs2 w = t -> rs1 w = s -> funct3 w = f3 -> opcode w = o -> b_type i t s f3 o = w.
Proof. intros; subst. by apply b_again. Qed.
Lemma u_fits d o : rd w = d -> opcode w = o -> u_type (w >> 12) d o = w.
Proof. intros; subst. by apply u_again. Qed.
Lemma j_fits i d o : imm_j w = i -> rd w = d -> opcode w = o -> j_type i d o = w.
Proof. intros; subst. by apply j_again. Qed.
Lemma csr_fits a s f3 d o : (w >> 20) .& 0xfff = a -> rs1 w = s -> funct3 w = f3 -> rd w = d -> opcode w = o -> i_type a s f3 d o = w.
Proof. intros; subst. by apply csr_again. Qed.
(** A six-bit shift amount takes the low bit of [funct7]. *)
Lemma shift6_fits f7 s f3 d o : funct7 w .& 0x7e = f7 -> rs1 w = s -> funct3 w = f3 -> rd w = d -> opcode w = o ->
let k := (w >> 20) .& 0x3f in r_type (f7 .| (k >> 5)) (k .& 0x1f) s f3 d o = w.
Proof. intros <- <- <- <- <-; cbv zeta. apply r_fits; try done; unfold funct7, rs2; zbits. Qed.
Lemma shift5_fits f7 s f3 d o : funct7 w = f7 -> rs1 w = s -> funct3 w = f3 -> rd w = d -> opcode w = o ->
let k := (w >> 20) .& 0x1f in r_type (f7 .| (k >> 5)) (k .& 0x1f) s f3 d o = w.
Proof. intros <- <- <- <- <-; cbv zeta. apply r_fits; try done; unfold funct7, rs2; zbits. Qed.

Lemma low_bits : w .& 0x3 = opcode w .& 0x3.
Proof. unfold opcode. zbits. Qed.
Lemma top7_of : w >> 25 = funct7 w.
Proof. unfold funct7. zbits. Qed.
Lemma top5_of : w >> 27 = funct7 w >> 2.
Proof. unfold funct7. zbits. Qed.
Lemma aqrl_of : w .& (3 << 25) = (funct7 w .& 3) << 25 /\ w .& (1 << 26) = (funct7 w .& 2) << 25 /\ w .& (1 << 25) = (funct7 w .& 1) << 25.
Proof. change (3 << 25) with (Z.ones 2 << 25). change (1 << 26) with (Z.ones 1 << 26). change (1 << 25) with (Z.ones 1 << 25). unfold funct7. split_and!; zbits. Qed.
End Fits.
(** The printed target is the low half of the address. *)
Lemma offset_back x k pc i : rv_width x -> (x = 64 -> rng 32 (pc + i)) -> 0 < k <= 31 -> - 2 ^ (k - 1) <= i < 2 ^ (k - 1) ->
  offset x k pc (u32 (pc + u32 i)) = Some i.
Proof.
  intros Hx Ht Hk Hi. pose proof (Z.pow_le_mono_r 2 (k - 1) 30 ltac:(lia) ltac:(lia)) as Hp.
  assert (sgn x (u32 (pc + u32 i) - pc) = i) as E.
  - destruct Hx as [-> | ->].
    + unfold u32. rewrite <- (sgn_wrap 32 32) by lia. rewrite wrap_sub_l by lia. replace (pc + wrap 32 i - pc) with (wrap 32 i) by lia.
      rewrite wrap_wrap, sgn_wrap, sgn_small; lia.
    + unfold u32. rewrite wrap_add_r, wrap_small by (by auto || lia). rewrite sgn_small; lia.
  - unfold offset. cbv zeta. rewrite E, (proj2 (Z.leb_le _ _)), (proj2 (Z.ltb_lt _ _)) by lia. done.
Qed.
