(* ===== verification/DisasmThms.v ===== *)
(** * The disassembly can be assembled again

    The text the disassembler prints identifies the instruction: reading it back with the
    mnemonics of the manuals gives the same 32-bit word. *)

From Stdlib Require Import Strings.String.
From S2P Require Import Prelude Decode Rvc Isa AluSem Dtb CLib Disasm Asm DisasmRead.

(** ** One instruction *)

Lemma if_is {A} (c v : bool) (a b : A) : c = v -> (if c then a else b) = if v then a else b.
Proof. by intros ->. Qed.
(** Decide the closed tests and table lookups of the goal, by rewriting: the kernel then
    compares no more than the test. *)
Ltac closed c := assert_fails (idtac; match c with context [?v] => is_var v end).
Ltac decided :=
  repeat (match goal with
  | |- context [if ?c then _ else _] =>
    closed c; let v := eval vm_compute in c in rewrite (if_is c v) by (vm_compute; reflexivity)
  | |- context [?a =? ?b] =>
    closed a; closed b; let v := eval vm_compute in (a =? b) in
    let H := fresh in assert (H : (a =? b) = v) by (vm_compute; reflexivity); rewrite H; clear H
  | |- context [pick ?k ?l] =>
    closed k; let v := eval vm_compute in (pick k l) in
    let H := fresh in assert (H : pick k l = v) by (vm_compute; reflexivity); rewrite H; clear H
  end; cbn [andb orb]; cbv iota; cbn [fmap option_fmap option_map]).
Ltac rows_in H := repeat (apply elem_of_cons in H as [H|H]); [..|by apply elem_of_nil in H].
(** Case analysis on the remaining tests. *)
Ltac cases :=
  repeat (decided;
  match goal with
  | |- context [if ?a =? ?b then _ else _] => destruct (Z.eqb_spec a b)
  | |- context [if (?a =? ?b) && _ then _ else _] => destruct (Z.eqb_spec a b)
  | |- context [if _ && (?a =? ?b) then _ else _] => destruct (Z.eqb_spec a b)
  end; rewrite ?andb_true_r, ?andb_false_r; cbn [andb]); decided.

(** The 32-bit instructions of the I, M, A, Zba, Zbb, Zbc, Zbs, Zicsr and privileged
    extensions.  Of the fences, whose fields the disassembler does not print, only the ones the
    manuals write without operands. *)
Inductive legal (x w : Z) : Prop :=
| l_alu a b v : Isa.result x w a b v -> legal x w
| l_upper : opcode w ∈ [OP_LUI; OP_AUIPC] -> legal x w
| l_jal : opcode w = OP_JAL -> legal x w
| l_jalr : opcode w = OP_JALR -> funct3 w = 0 -> legal x w
| l_branch : opcode w = OP_BRANCH -> funct3 w ∈ [0; 1; 4; 5; 6; 7] -> legal x w
| l_load : opcode w = OP_LOAD -> funct3 w ∈ (if x =? 64 then [0; 1; 2; 3; 4; 5; 6] else [0; 1; 2; 4; 5]) -> legal x w
| l_store : opcode w = OP_STORE -> funct3 w ∈ (if x =? 64 then [0; 1; 2; 3] else [0; 1; 2]) -> legal x w
| l_amo : opcode w = OP_AMO -> funct3 w ∈ (if x =? 64 then [2; 3] else [2]) ->
    w >> 27 ∈ [0x02; 0x03; 0x01; 0x00; 0x04; 0x0c; 0x08; 0x10; 0x14; 0x18; 0x1c] -> (w >> 27 = 0x02 -> rs2 w = 0) -> legal x w
| l_privileged : w ∈ [0x00000073; 0x00100073; 0x30200073; 0x10200073; 0x10500073] -> legal x w
| l_fence : w ∈ [0x0ff0000f; 0x0000100f] -> legal x w
| l_sfence : opcode w = OP_SYSTEM -> funct3 w = 0 -> funct7 w = 0x09 -> rd w = 0 -> legal x w
| l_csr : opcode w = OP_SYSTEM -> funct3 w ∈ [1; 2; 3; 5; 6; 7] -> legal x w.

(** The target of a branch or jump is an address the disassembler prints in full. *)
Definition target_shown (x pc w : Z) : Prop :=
  x = 64 -> (opcode w = OP_BRANCH -> rng 32 (pc + imm_b w)) /\ (opcode w = OP_JAL -> rng 32 (pc + imm_j w)).

Section Classes.
Context (x pc w : Z) (Hx : rv_width x) (Hw : rng 32 w).

Lemma target_range i : 0 <= u32 (pc + u32 i) < 16 ^ 20.
Proof. pose proof (wrap_range 32 (pc + u32 i) ltac:(lia)). unfold rng, u32 in *. lia. Qed.
Lemma upper_range : 0 <= w >> 12 < 16 ^ 20.
Proof. unfold rng in Hw. rewrite Z.shiftr_div_pow2 by lia. split; [apply Z.div_pos|apply Z.div_lt_upper_bound]; lia. Qed.
Lemma shamt_range k : 0 <= k <= 0x3f -> 0 <= (w >> 20) .& k < 16 ^ 20.
Proof.
intros Hk. assert (rng 6 ((w >> 20) .& k)) as H by (apply land_rng_r; [lia|unfold rng; lia]). unfold rng in H. lia.
Qed.
Lemma csr_range : 0 <= (w >> 20) .& 0xfff < 4096.
Proof. change 0xfff with (Z.ones 12). rewrite Z.land_ones by lia. apply Z.mod_pos_bound. lia. Qed.

(** Side conditions of the operand lemmas. *)
Ltac small := solve [apply (field5 w) | pose proof (imm_range w); lia | apply target_range | apply upper_range | apply shamt_range; lia | apply csr_range
                  | pose proof (fields5 w); lia].
(** Read the operands of a printed line and compare the fields. *)
Ltac read1 :=
match goal with
| |- context [reg_of (reg_abi_name ?r)] => rewrite (proj1 (reg_facts r ltac:(small)))
| |- context [int_of (hex ?v)] => rewrite (int_hex v) by small
| |- context [int_of (hex08 ?v)] => rewrite (int_hex08 v) by small
| |- context [int_of (fmt_d ?v)] => rewrite (int_d v) by small
| |- context [int_of (fmt_u ?v)] => rewrite (int_u v) by small
| |- context [mem_of (based ?i (reg_abi_name ?r))] => rewrite (mem_back i r) by small
| |- context [paren_of (40 :: reg_abi_name ?r ++ [41])] => rewrite (paren_back r) by small
| |- context [csr_of (csr_text ?a)] => rewrite (proj1 (csr_facts a ltac:(small)))
| Ht : target_shown ?x _ _ |- context [offset ?x ?k pc (u32 (pc + u32 ?i))] =>
  rewrite (offset_back x k pc i) by (solve [by left|by right|done|exact (proj1 (imm_near w Hw))|exact (proj2 (imm_near w Hw))|intros E; by apply (Ht E)])
end; cbn [mbind option_bind].
Ltac plain1 :=
match goal with
| |- context [without 44 (reg_abi_name ?r)] => rewrite (proj1 (proj2 (reg_facts r ltac:(small))))
| |- context [without 44 (hex ?v)] => rewrite (hex_plain v) by small
| |- context [without 44 (hex08 ?v)] => rewrite (hex08_plain v) by small
| |- context [without 44 (fmt_d ?v)] => rewrite (proj1 (fmt_d_plain v))
| |- context [without 44 (fmt_u ?v)] => rewrite (proj1 (fmt_u_plain v ltac:(small)))
| |- context [without 44 (based ?i (reg_abi_name ?r))] => rewrite (based_plain i r) by small
| |- context [without 44 (40 :: reg_abi_name ?r ++ [41])] => rewrite (paren_plain r) by small
| |- context [without 44 (csr_text ?a)] => rewrite (proj2 (csr_facts a ltac:(small)))
end.
Ltac agree :=
first [lazymatch goal with |- ?a = ?a => reflexivity end
      |match goal with H : ?a = _ |- ?a = _ => rewrite H; reflexivity end].
Ltac fit :=
lazymatch goal with
| |- r_type (_ .| (((w >> 20) .& 0x3f) >> 5)) _ _ _ _ _ = _ => apply (shift6_fits w Hw)
| |- r_type (_ .| (((w >> 20) .& 0x1f) >> 5)) _ _ _ _ _ = _ => apply (shift5_fits w Hw)
| |- r_type _ _ _ _ _ _ = _ => apply (r_fits w Hw)
| |- i_type _ _ _ _ _ = _ => first [solve [apply (i_fits w Hw); agree] | apply (csr_fits w Hw)]
| |- s_type _ _ _ _ _ = _ => apply (s_fits w Hw)
| |- b_type _ _ _ _ _ = _ => apply (b_fits w Hw)
| |- u_type _ _ _ = _ => apply (u_fits w Hw)
| |- j_type _ _ _ = _ => apply (j_fits w Hw)
| |- Z.pos _ = _ =>
  rewrite <- (i_again w Hw); repeat match goal with H : ?a = _ |- context [?a] => lazymatch a with context [w] => rewrite H end end; reflexivity
end; agree.
Ltac back :=
unfold insn;
eapply assemble_line; [vm_compute; reflexivity|vm_compute; reflexivity|cbn [forallb]; repeat plain1; reflexivity|
  cbn [encode mbind option_bind]; repeat read1; f_equal; fit].

(** The opcode selects the printer; the fields that are known decide its tests. *)
Ltac known :=
repeat match goal with
| H : opcode w = _ |- context [opcode w] => rewrite H
| H : funct3 w = _ |- context [funct3 w] => rewrite H
| H : funct7 w = _ |- context [funct7 w] => rewrite H
| H : rs2 w = _ |- context [if _ && (rs2 w =? _) then _ else _] => rewrite H
| H : rs2 w = _ |- context [pick (rs2 w) _] => rewrite H
end.
Ltac dispatch :=
unfold disasm_text; rewrite (low_bits w); known; decided; unfold disasm_word; known; decided.
Ltac show printer :=
lazymatch goal with |- assemble x _ _ = _ => destruct Hx as [-> | ->] | _ => idtac end; dispatch; unfold printer, disasm_bitmanip; cbv zeta; rewrite ?funct6_funct7, ?arith_funct7, ?top7_of, ?top5_of by done;
known; cases; back.

Lemma upper_back : opcode w ∈ [OP_LUI; OP_AUIPC] -> assemble x pc (disasm_text pc w x) = Some w.
Proof. intros Ho. rows_in Ho; destruct Hx as [-> | ->]; dispatch; back. Qed.
Lemma jal_back : target_shown x pc w -> opcode w = OP_JAL -> assemble x pc (disasm_text pc w x) = Some w.
Proof. intros Ht Ho. show disasm_jal. Qed.
Lemma jalr_back : opcode w = OP_JALR -> funct3 w = 0 -> assemble x pc (disasm_text pc w x) = Some w.
Proof. intros Ho H3. show disasm_jalr. Qed.
Lemma branch_back : target_shown x pc w -> opcode w = OP_BRANCH -> funct3 w ∈ [0; 1; 4; 5; 6; 7] -> assemble x pc (disasm_text pc w x) = Some w.
Proof. intros Ht Ho H3. rows_in H3; show disasm_branch. Qed.
Lemma load_back : opcode w = OP_LOAD -> funct3 w ∈ [0; 1; 2; 3; 4; 5; 6] -> assemble x pc (disasm_text pc w x) = Some w.
Proof. intros Ho H3. rows_in H3; show disasm_mem. Qed.
Lemma store_back : opcode w = OP_STORE -> funct3 w ∈ [0; 1; 2; 3] -> assemble x pc (disasm_text pc w x) = Some w.
Proof. intros Ho H3. rows_in H3; show disasm_mem. Qed.
Lemma csr_back : opcode w = OP_SYSTEM -> funct3 w ∈ [1; 2; 3; 5; 6; 7] -> assemble x pc (disasm_text pc w x) = Some w.
Proof.
intros Ho H3. rows_in H3; destruct Hx as [-> | ->]; dispatch; unfold disasm_system; known; decided; unfold disasm_csr; cbv zeta;
  change (match csr_name ?a with Some s => chars s | None => snprintf 8 (hex ?a) end) with (csr_text a); decided.
all: cases; try back.
all: destruct (csr_rd_pseudo _) as [p|] eqn:Ep; [|back].
all: revert Ep; unfold csr_rd_pseudo; cbn [pick];
  repeat match goal with |- context [if ?a =? ?b then _ else _] => destruct (Z.eqb_spec a b); [injection 1 as <-; back|] end; discriminate.
Qed.
Lemma sfence_back : opcode w = OP_SYSTEM -> funct3 w = 0 -> funct7 w = 0x09 -> rd w = 0 -> assemble x pc (disasm_text pc w x) = Some w.
Proof. intros Ho H3 H7 Hd. show disasm_system. Qed.
Lemma word_only_back : w ∈ [0x00000073; 0x00100073; 0x30200073; 0x10200073; 0x10500073; 0x0ff0000f; 0x0000100f] -> assemble x pc (disasm_text pc w x) = Some w.
Proof. intros H. rows_in H; subst w; destruct Hx as [-> | ->]; vm_compute; reflexivity. Qed.
Lemma op_back m : opcode w = OP_REG -> (funct7 w, funct3 w, m) ∈ Isa.base_rows ++ Isa.m_rows ++ Isa.b_rows -> assemble x pc (disasm_text pc w x) = Some w.
Proof. unfold Isa.base_rows, Isa.m_rows, Isa.b_rows. cbn [app]. intros Ho H. rows_in H; injection H as H7 H3 _; show disasm_op. Qed.
Lemma imm_back m : opcode w = OP_IMM -> (funct3 w, m) ∈ Isa.imm_rows -> assemble x pc (disasm_text pc w x) = Some w.
Proof. unfold Isa.imm_rows. intros Ho H. rows_in H; injection H as H3 _; show disasm_op_imm. Qed.
Lemma shift32_back m : x = 32 -> opcode w = OP_IMM -> (funct7 w, funct3 w, m) ∈ Isa.shift_rows -> assemble x pc (disasm_text pc w x) = Some w.
Proof.
unfold Isa.shift_rows. intros -> Ho H. rows_in H; injection H as H7 H3 _; pose proof (f_equal (fun z => z .& 0x7e) H7) as Hs; cbv beta in Hs; show disasm_op_imm.
Qed.
Lemma shift64_back m : x = 64 -> opcode w = OP_IMM -> (funct7 w .& 0x7e, funct3 w, m) ∈ Isa.shift_rows -> assemble x pc (disasm_text pc w x) = Some w.
Proof.
unfold Isa.shift_rows. intros -> Ho H. rows_in H; injection H as Hs H3 _; destruct (funct7_even w _ Hs) as [H7|H7]; show disasm_op_imm.
Qed.
Lemma word_back m : x = 64 -> opcode w = OP_REG_32 -> (funct7 w, funct3 w, m) ∈ Isa.word_rows ++ Isa.uw_rows -> assemble x pc (disasm_text pc w x) = Some w.
Proof. unfold Isa.word_rows, Isa.uw_rows. cbn [app]. intros _ Ho H. rows_in H; injection H as H7 H3 _; show disasm_op32. Qed.
Lemma addiw_back : opcode w = OP_IMM_32 -> funct3 w = 0 -> assemble x pc (disasm_text pc w x) = Some w.
Proof. intros Ho H3. show disasm_op_imm32. Qed.
Lemma word_shift_back m : opcode w = OP_IMM_32 -> (funct7 w, funct3 w, m) ∈ Isa.word_shift_rows -> assemble x pc (disasm_text pc w x) = Some w.
Proof. unfold Isa.word_shift_rows. intros Ho H. rows_in H; injection H as H7 H3 _; show disasm_op_imm32. Qed.
Lemma slliuw_back : opcode w = OP_IMM_32 -> funct7 w .& 0x7e = 0x04 -> funct3 w = 1 -> assemble x pc (disasm_text pc w x) = Some w.
Proof. intros Ho Hs H3. destruct (funct7_even w _ Hs) as [H7|H7]; show disasm_op_imm32. Qed.
Lemma word_unary_back m : opcode w = OP_IMM_32 -> (funct7 w, rs2 w, funct3 w, m) ∈ Isa.word_unary_rows -> assemble x pc (disasm_text pc w x) = Some w.
Proof. unfold Isa.word_unary_rows. intros Ho H. rows_in H; injection H as H7 H2 H3 _; show disasm_op_imm32. Qed.
Lemma unary_back m : opcode w = OP_IMM -> (funct7 w, rs2 w, funct3 w, m) ∈ Isa.unary_rows x -> assemble x pc (disasm_text pc w x) = Some w.
Proof. unfold Isa.unary_rows. intros Ho H. rows_in H; injection H as H7 H2 H3 _; show disasm_op_imm. Qed.
Lemma zexth_back : opcode w = (if x =? 32 then OP_REG else OP_REG_32) -> funct7 w = 0x04 -> funct3 w = 4 -> rs2 w = 0 ->
assemble x pc (disasm_text pc w x) = Some w.
Proof.
intros Ho H7 H3 H2. destruct Hx as [-> | ->]; [change (opcode w = OP_REG) in Ho; show disasm_op|change (opcode w = OP_REG_32) in Ho; show disasm_op32].
Qed.
(** The five-bit operation and the two ordering bits of an atomic. *)
Lemma amo_funct7 f5 : w >> 27 = f5 -> funct7 w ∈ [4 * f5; 4 * f5 + 1; 4 * f5 + 2; 4 * f5 + 3].
Proof.
rewrite top5_of by done. intros <-. pose proof (Z.div_mod (funct7 w) 4 ltac:(lia)) as E. pose proof (Z.mod_pos_bound (funct7 w) 4 ltac:(lia)).
rewrite Z.shiftr_div_pow2 by lia. change (2 ^ 2) with 4. rewrite !elem_of_cons. lia.
Qed.
Lemma amo_back : opcode w = OP_AMO -> funct3 w ∈ [2; 3] -> w >> 27 ∈ [0x02; 0x03; 0x01; 0x00; 0x04; 0x0c; 0x08; 0x10; 0x14; 0x18; 0x1c] ->
(w >> 27 = 0x02 -> rs2 w = 0) -> assemble x pc (disasm_text pc w x) = Some w.
Proof.
intros Ho H3 H5 Hlr. destruct (aqrl_of w) as (Hq1 & Hq2 & Hq3).
rows_in H5; pose proof (amo_funct7 _ H5) as H7; try specialize (Hlr H5); rows_in H7; rows_in H3; destruct Hx as [-> | ->]; dispatch; unfold disasm_amo;
  cbv zeta; rewrite Hq1, Hq2, Hq3, top5_of by done; known; decided; back.
Qed.
End Classes.

Lemma alu_back x pc w a b v : rv_width x -> rng 32 w -> Isa.result x w a b v -> assemble x pc (disasm_text pc w x) = Some w.
Proof.
  intros Hx Hw [m Ho H|E Ho H7 H3 H2|m Ho H|m Ho H|m Ho H|m E Ho H|m E Ho H|E Ho H7 H3 H2|E Ho H3|m E Ho H|E Ho H7 H3|m E Ho H].
  - by eapply op_back.
  - subst x; by apply zexth_back.
  - by eapply imm_back.
  - destruct (Hx) as [-> | ->]; [by eapply shift32_back|by eapply shift64_back].
  - by eapply unary_back.
  - eapply word_back; try done. apply elem_of_app. by left.
  - eapply word_back; try done. apply elem_of_app. by right.
  - subst x; by apply zexth_back.
  - by apply addiw_back.
  - by eapply word_shift_back.
  - by apply slliuw_back.
  - by eapply word_unary_back.
Qed.

(** The RV32 rows are among the RV64 rows. *)
Ltac narrower H :=
  match goal with Hx : rv_width _ |- _ => destruct Hx as [-> | ->] end; [|done]; change (if 32 =? 64 then _ else ?l) with l in H;
  rows_in H; rewrite H; by apply (bool_decide_unpack _); vm_compute.

(** C39 [disasm_roundtrip]: the text the disassembler prints identifies the instruction.
    For every legal 32-bit word of the integer, multiply, atomic, bit-manipulation, CSR and
    privileged instructions, on both widths and at every address, assembling the printed
    line with the mnemonics and pseudo-instructions of the manuals gives the word back; on
    RV64 the target of a branch or jump has to lie in the first 4 GiB, as the disassembler
    prints the low 32 bits of it.  Of the fences the claim covers [fence] and [fence.i] as the
    manuals write them, without operands: a fence with other fields prints the same text. *)
Theorem disasm_assembles x pc w : rv_width x -> rng 32 w -> target_shown x pc w -> legal x w -> assemble x pc (disasm_text pc w x) = Some w.
Proof.
  intros Hx Hw Ht [a b v H | Ho | Ho | Ho H3 | Ho H3 | Ho H3 | Ho H3 | Ho H3 H5 H2 | Hp | Hp | Ho H3 H7 Hd | Ho H3].
  - by eapply alu_back.
  - by apply upper_back.
  - by apply jal_back.
  - by apply jalr_back.
  - by apply branch_back.
  - apply load_back; [done..|]. narrower H3.
  - apply store_back; [done..|]. narrower H3.
  - apply amo_back; [done..| |done|done]. narrower H3.
  - apply word_only_back; [done..|]. rewrite !elem_of_cons in *. tauto.
  - apply word_only_back; [done..|]. rewrite !elem_of_cons in *. tauto.
  - by apply sfence_back.
  - by apply csr_back.
Qed.

(** [jal 0x80000ff0], at an address in RAM *)
Lemma disasm_assembles_witness : target_shown 64 0x80000000 0x7f1000ef /\ assemble 64 0x80000000 (disasm_text 0x80000000 0x7f1000ef 64) = Some 0x7f1000ef.
Proof.
  assert (target_shown 64 0x80000000 0x7f1000ef) as Ht by (intros _; split; intros _; by apply rng_const). split; [exact Ht|].
  apply disasm_assembles; [by right|by apply rng_const|exact Ht|]. by apply l_jal.
Defined.

(** ** Where the text departs from the header's description *)

(** [funct7 = 0x7f] is no instruction (executing it traps), and it prints as [add]. *)
Lemma unknown_prints_add : disasm_text 0 0xfe000033 32 = insn "add" [reg_abi_name 0; reg_abi_name 0; reg_abi_name 0].
Proof. by vm_compute. Qed.
(** A jump at [0x100000000] prints the low half of its target. *)
Lemma target_truncated : disasm_text 0x100000000 0x0100006f 64 = insn "j" [hex08 0x10].
Proof. by vm_compute. Qed.
(** Fences with different fields print the same text. *)
Lemma fence_fields_lost : disasm_text 0 0x0330000f 32 = disasm_text 0 0x0ff0000f 32.
Proof. by vm_compute. Qed.
