(* ===== verification/MmuThms.v ===== *)
(** * Address translation is idempotent

    A translation that succeeded leaves a TLB entry and a page table under which it succeeds
    again with the same address and changes nothing; one that failed fails again.  So a
    probe before an access is invisible. *)

From S2P Require Import Prelude Decode Device DeviceInv Memory Cache Cpu Mmu See Trap Alu Exec Fpu Step CpuInv AluThms EngineInv.

(** ** Page-table accesses *)

Definition pte_width (pg : Paging) : width := if ptesize pg =? 4 then W32 else W64.
Lemma read_pte_width pg a : read_pte pg a = mem_read (pte_width pg) a.
Proof. unfold read_pte, pte_width. by destruct (_ =? 4). Qed.

(** An access to [a] does not fault. *)
Definition mapped (pg : Paging) (a : Z) (b : Bus) : Prop := mmio a b = true \/ in_ram b a (Z.of_nat (nbytes (pte_width pg))) = true.

Lemma mmio_read w a b : mem_ok b -> mmio a b = true -> inv b (exec (mem_read w a) b).
Proof.
  intros Hb Hm. assert (inv b b) as Hi by (split; [apply Hb|apply frame_refl]).
  assert (forall m : st Bus Z, pres (inv b) m -> inv b (exec m b)) as H by (intros m Hp; by apply Hp).
  destruct w; cbn [mem_read]; unfold mem_read8, mem_read16, mem_read32, mem_read64; rewrite exec_bind; unfold run, gets; cbn [fst exec snd]; rewrite Hm; apply H;
    repeat first [apply pres_plat_read | apply pres_bind; intros | apply pres_ret].
Qed.
Lemma mmio_write w a v b : mem_ok b -> store_arg w v -> mmio a b = true -> inv b (exec (mem_write w a v) b).
Proof.
  intros Hb Hv Hm. assert (inv b b) as Hi by (split; [apply Hb|apply frame_refl]).
  assert (forall m : st Bus unit, pres (inv b) m -> inv b (exec m b)) as H by (intros m Hp; by apply Hp).
  destruct w; cbn [mem_write nbytes] in *; unfold store_arg in Hv; unfold mem_write8, mem_write16, mem_write32, mem_write64; rewrite exec_bind; unfold run, gets; cbn [fst exec snd]; rewrite Hm; apply H;
    repeat first [apply pres_plat_write; first [apply u32_rng | apply (rng_mono (8 * Z.of_nat 1)); [lia|exact Hv] | apply (rng_mono (8 * Z.of_nat 2)); [lia|exact Hv] | exact Hv] | apply pres_bind; intros].
Qed.

(** Reading a word that is mapped, and writing it back, does not fault; a read outside does. *)
Lemma read_fault pg a b : mem_ok b -> rng 64 a -> b_fault b = false -> b_fault (exec (read_pte pg a) b) = false -> mapped pg a b.
Proof.
  intros Hb Ha Hf H. rewrite read_pte_width in H. destruct (mmio a b) eqn:Hm; [by left|]. right. unfold exec in H. rewrite mem_read_ram in H by done.
  by destruct (in_ram _ _ _).
Qed.
Lemma write_fault pg a v b : mem_ok b -> rng 64 a -> rng 64 v -> mapped pg a b -> b_fault (exec (write_pte pg a v) b) = b_fault b.
Proof.
  intros Hb Ha Hv Hmap. set (w := pte_width pg). assert (exists v', write_pte pg a v = mem_write w a v' /\ store_arg w v') as (v' & -> & Hs).
  { unfold write_pte, w, pte_width. destruct (_ =? 4); [exists (u32 v); split; [done|apply u32_rng]|by exists v]. }
  destruct (mmio a b) eqn:Hm; [by destruct (mmio_write w a v' b Hb Hs Hm) as [_ []]|].
  destruct Hmap as [|Hr]; [congruence|]. unfold exec. rewrite mem_write_ram by done. unfold w. by rewrite Hr.
Qed.
Lemma mapped_same pg a b b' : same_map b b' -> mapped pg a b -> mapped pg a b'.
Proof. intros [E1 E2 E3 _ _ _ _]. unfold mapped, mmio, in_ram. by rewrite E1, E2, E3. Qed.

(** ** The walk *)

Lemma pte_address_rng pg va level a : rng 64 (pte_address pg va level a).
Proof. apply u64_rng. Qed.
Lemma mem_inv_trans b b' b'' : mem_inv b b' -> mem_inv b' b'' -> mem_inv b b''.
Proof. intros [_ H] [Ho H']. split; [done|]. by apply same_map_trans with b'. Qed.
(** A walk leaves no fault behind, and the entry it found can be updated. *)
Lemma walk_ok pg va level : forall a b, mem_ok b -> b_fault b = false ->
  let '(r, b') := mmu_walk pg va level a b in
  mem_inv b b' /\ b_fault b' = false /\ match r with Some (_, _, addr) => mapped pg addr b' | None => True end.
Proof.
  induction level as [|level IH]; intros a b Hb Hf; cbn [mmu_walk]; set (p := pte_address pg va _ a);
    assert (rng 64 p) as Hp by apply pte_address_rng; unfold mbind, st_bind, gets;
    (assert (mem_inv b (exec (read_pte pg p) b)) as Hi by (rewrite read_pte_width; apply pres_mem_read; [done|split; [done|apply same_map_refl]]));
    pose proof (read_fault pg p b Hb Hp Hf) as Hm; unfold exec in *; destruct (read_pte pg p b) as [pte b1]; cbn [snd] in *;
    (destruct (b_fault b1) eqn:E1; [cbn; split; [|done]; apply (mem_inv_trans _ b1); [done|]; destruct Hi as [[[] ? ? ?] ?]; split; [constructor; [by constructor|done..]|by constructor]|]);
    (destruct (_ || _); [done|]); (destruct (has pte _); [split_and!; [done|done|]; apply (mapped_same pg p b); [apply Hi|by apply Hm]|]); [done|].
  specialize (IH (pte_next pg pte) b1 (proj1 Hi) E1). destruct (mmu_walk pg va level (pte_next pg pte) b1) as [r b2]. destruct IH as (H1 & H2 & H3).
  split; [by apply (mem_inv_trans _ b1)|done].
Qed.

(** ** Permissions in the TLB *)

Lemma has_bit x k : 0 <= k -> has x (1 << k) = Z.testbit x k.
Proof.
  intros Hk. unfold has. rewrite Z.shiftl_1_l. destruct (Z.testbit x k) eqn:E.
  - apply negb_true_iff, Z.eqb_neq. intros H. assert (Z.testbit (x .& 2 ^ k) k = false) as H' by (rewrite H; apply Z.testbit_0_l).
    rewrite Z.land_spec, E, Z.pow2_bits_true in H' by done. done.
  - apply negb_false_iff, Z.eqb_eq. apply Z.bits_inj_0. intros i. rewrite Z.land_spec, Z.pow2_bits_eqb by done.
    destruct (Z.eqb_spec k i) as [<-|]; [by rewrite E|apply andb_false_r].
Qed.
Lemma flags_bit pte d k : 0 <= k < 6 -> (d = 0 \/ d = PTE_D) -> Z.testbit (u32 ((pte .| PTE_A .| d) .& 0xff)) k = Z.testbit (u32 pte) k.
Proof.
  intros Hk Hd. unfold u32. rewrite !wrap_testbit by lia. f_equal. rewrite Z.land_spec, !Z.lor_spec. change 0xff with (Z.ones 8). rewrite Z.ones_spec_low by lia.
  assert (Z.testbit PTE_A k = false /\ Z.testbit d k = false) as [-> ->]; [|by rewrite !orb_false_r, andb_true_r].
  assert (k = 0 \/ k = 1 \/ k = 2 \/ k = 3 \/ k = 4 \/ k = 5) as Hc by lia. destruct Hc as [-> |[-> |[-> |[-> |[-> | ->]]]]]; destruct Hd as [-> | ->]; done.
Qed.
Lemma perm_flags c pte acc priv : perm_ok c (u32 (new_pte pte acc .& 0xff)) acc priv = perm_ok c (u32 pte) acc priv.
Proof.
  unfold new_pte. set (d := if bool_decide (acc = ACC_STORE) then PTE_D else 0). assert (d = 0 \/ d = PTE_D) as Hd by (unfold d; destruct (bool_decide _); tauto).
  unfold perm_ok, PTE_U, PTE_X, PTE_R, PTE_W. rewrite !has_bit by lia. by rewrite !flags_bit by (lia || done).
Qed.
Lemma dirty_flag pte acc : negb (bool_decide (acc = ACC_STORE)) || has (u32 (new_pte pte acc .& 0xff)) PTE_D = true.
Proof.
  unfold new_pte, PTE_D. destruct (bool_decide (acc = ACC_STORE)); [|done]. cbn [negb orb]. rewrite has_bit by lia.
  unfold u32. rewrite wrap_testbit by lia. rewrite Z.land_spec, !Z.lor_spec. by rewrite orb_true_r.
Qed.
Lemma asid_u32 s satp : u32 (satp_asid s satp) = satp_asid s satp.
Proof.
  apply wrap_small; [lia|]. unfold satp_asid. destruct s; apply land_rng_r; (lia || by apply rng_const).
Qed.

(** ** Translation *)

Section Translate.
Context (h va : Z) (acc : AccessType).
#[local] Abbreviation va' c := (if c_xlen c =? 32 then va .& 0xffffffff else va).
#[local] Abbreviation scheme c := (satp_mode c (csr c CSR_SATP)).

(** The walk of this translation. *)
Definition the_walk (W : World) : st Bus (option (nat * Z * Z)) :=
let c := hart h W in let pg := paging (scheme c) in
mmu_walk pg (va' c) (levels pg - 1) (u64 ((csr c CSR_SATP .& ppnmask pg) << 12)).
Definition direct (c : CPU) : option Trans :=
let s := scheme c in let priv := eff_priv c acc in
if (priv =? PRIV_M) || match s with PT_BARE | PT_UNSUPPORTED => true | _ => false end then Some (Phys (va' c))
else if negb (canonical s (va' c)) then Some (Fault (pf_cause acc))
else
let e := tlb_slot c (tlb_index (va' c >> 12)) in
if tlb_hit e (va' c >> 12) (satp_asid s (csr c CSR_SATP)) acc then
  Some (if negb (perm_ok c (t_flags e) acc priv) then Fault (pf_cause acc) else Phys (u64 (t_ppn e << 12) .| (va' c .& 0xfff)))
else None.
(** Without a walk, or with one. *)
Lemma translate_eq W : mmu_translate h va acc W =
match direct (hart h W) with
| Some t => (t, W)
| None =>
let '(leaf, b) := the_walk W (w_bus W) in let c := hart h W in
match leaf with
| None => (Fault (pf_cause acc), set_w_bus b W)
| Some l => finish_walk h (scheme c) (va' c) acc (eff_priv c acc) (satp_asid (scheme c) (csr c CSR_SATP)) l (set_w_bus b W)
end
end.
Proof.
unfold mmu_translate, direct, the_walk, mbind, st_bind, gets, bus. cbv zeta. destruct (_ || _); [done|]. destruct (negb _); [done|].
destruct (tlb_hit _ _ _ _); [by destruct (negb _)|]. destruct (mmu_walk _ _ _ _ (w_bus W)) as [[l|] b]; done.
Qed.

(** The state after a successful walk. *)
Definition filled (c : CPU) (l : nat * Z * Z) (ppn : Z) (W : World) : World :=
let '(_, pte, addr) := l in let pg := paging (scheme c) in
let W := if negb (new_pte pte acc =? pte) then set_w_bus (exec (write_pte pg addr (new_pte pte acc)) (w_bus W)) W else W in
upd_hart h (fun c0 => set_c_tlb (<[tlb_index (va' c >> 12) := mkTlbEntry true (va' c >> 12) (u32 (satp_asid (scheme c) (csr c CSR_SATP))) ppn (u32 (new_pte pte acc .& 0xff))]> (c_tlb c0)) c0) W.
Lemma finish_eq (c : CPU) (l : nat * Z * Z) W : let '(level, pte, addr) := l in
finish_walk h (scheme c) (va' c) acc (eff_priv c acc) (satp_asid (scheme c) (csr c CSR_SATP)) l W =
if negb (perm_ok (hart h W) (u32 pte) acc (eff_priv c acc)) then (Fault (pf_cause acc), W)
else match leaf_ppn (paging (scheme c)) (va' c) level pte with
   | None => (Fault (pf_cause acc), W)
   | Some ppn => (Phys (u64 (ppn << 12) .| (va' c .& 0xfff)), filled c l ppn W)
   end.
Proof.
destruct l as [[level pte] addr]. unfold finish_walk, filled, mbind, st_bind, gets. destruct (negb _); [done|]. destruct (leaf_ppn _ _ _ _) as [ppn|]; [|done].
destruct (negb _); cbn [when]; [|done]. unfold bus, exec. by destruct (write_pte _ _ _ (w_bus W)).
Qed.

(** The entry it leaves hits, with the same permissions and page. *)
Lemma filled_direct W l ppn b : direct (hart h W) = None -> perm_ok (hart h W) (u32 l.1.2) acc (eff_priv (hart h W) acc) = true ->
direct (hart h (filled (hart h W) l ppn (set_w_bus b W))) = Some (Phys (u64 (ppn << 12) .| (va' (hart h W) .& 0xfff))).
Proof.
destruct l as [[level pte] addr]. cbn [fst snd]. intros Hd Hp. unfold filled. set (W1 := if negb _ then _ else _). assert (hart h W1 = hart h W) as E1 by (unfold W1; by destruct (negb _)).
rewrite hart_after, E1. set (c := hart h W) in *. set (e := mkTlbEntry _ _ _ _ _). set (c1 := set_c_tlb _ c).
assert (tlb_slot c1 (tlb_index (va' c >> 12)) = e) as Es by (unfold tlb_slot, c1; cbn; by rewrite lookup_insert_eq).
unfold direct in *. change (c_xlen c1) with (c_xlen c). change (csr c1) with (csr c). change (eff_priv c1 acc) with (eff_priv c acc).
change (satp_mode c1) with (satp_mode c). cbv zeta in *. destruct (_ || _); [done|]. destruct (negb (canonical _ _)); [done|]. rewrite Es.
assert (tlb_hit e (va' c >> 12) (satp_asid (scheme c) (csr c CSR_SATP)) acc = true) as ->.
{ unfold tlb_hit, e. cbn [t_valid t_vpn t_asid t_flags andb]. rewrite asid_u32, !Z.eqb_refl. apply dirty_flag. }
change (perm_ok c1) with (perm_ok c). cbn [t_flags t_ppn e]. rewrite perm_flags, Hp. done.
Qed.

Lemma translate_again W pa W' : mmu_translate h va acc W = (Phys pa, W') -> mmu_translate h va acc W' = (Phys pa, W').
Proof.
rewrite (translate_eq W). destruct (direct (hart h W)) as [t|] eqn:Ed.
{ intros E. injection E as -> <-. rewrite translate_eq. by rewrite Ed. }
destruct (the_walk W (w_bus W)) as [[l|] b]; cbv zeta; [|done]. pose proof (finish_eq (hart h W) l (set_w_bus b W)) as Ef. destruct l as [[level pte] addr].
rewrite Ef. clear Ef. change (hart h (set_w_bus b W)) with (hart h W). destruct (negb (perm_ok _ _ _ _)) eqn:Ep; [done|]. apply negb_false_iff in Ep.
destruct (leaf_ppn _ _ _ _) as [ppn|]; [|done]. intros E. set (W1 := filled _ _ _ _) in E.
assert (W' = W1) as -> by congruence. rewrite translate_eq. unfold W1. rewrite (filled_direct W (level, pte, addr) ppn b Ed Ep). fold W1. congruence.
Qed.

(** Of the hart, only the TLB changes. *)
Lemma translate_hart W : exists x, hart h (exec (mmu_translate h va acc) W) = set_c_tlb x (hart h W).
Proof.
assert (forall w, hart h w = hart h W -> exists x, hart h w = set_c_tlb x (hart h W)) as H by (intros w ->; exists (c_tlb (hart h W)); by destruct (hart h W)).
unfold exec. rewrite translate_eq. destruct (direct (hart h W)) as [t|]; [by apply H|]. destruct (the_walk W (w_bus W)) as [[l|] b]; cbv zeta; [|by apply H].
pose proof (finish_eq (hart h W) l (set_w_bus b W)) as Ef. destruct l as [[level pte] addr]. rewrite Ef. destruct (negb _); [by apply H|].
destruct (leaf_ppn _ _ _ _) as [ppn|]; [|by apply H]. unfold filled. cbn [snd]. rewrite hart_after. eexists. by destruct (negb _).
Qed.
Lemma translate_no_fault W : world_ok W -> rng 64 va -> b_fault (w_bus W) = false -> b_fault (w_bus (exec (mmu_translate h va acc) W)) = false.
Proof.
intros Hw Hv Hf. unfold exec. rewrite translate_eq. destruct (direct (hart h W)) as [t|]; [done|].
assert (rng 64 (va' (hart h W))) as Hva by rng_auto. pose proof (proj1 (wi_mem _ _ Hw)) as Hm. unfold the_walk.
set (pg := paging _). set (a := u64 (_ << 12)). pose proof (walk_ok pg (va' (hart h W)) (levels pg - 1) a (w_bus W) Hm Hf) as Hk.
pose proof (keep_mmu_walk W pg (va' (hart h W)) Hva (levels pg - 1) a (w_bus W) (wi_mem _ _ Hw)) as [Hr _]. unfold run in Hr.
destruct (mmu_walk pg _ _ a (w_bus W)) as [[l|] b]; [|by apply Hk]. destruct Hk as (Hi & Hf' & Hmap). pose proof (finish_eq (hart h W) l (set_w_bus b W)) as Ef.
destruct l as [[level pte] addr]. cbv zeta. rewrite Ef. cbn [fst] in Hr. destruct (negb (perm_ok _ _ _ _)); [done|]. destruct (leaf_ppn _ _ _ _) as [ppn|]; [|done].
unfold filled. cbn [snd]. destruct (negb _); [|done]. cbn. rewrite write_fault; [done|apply Hi|apply Hr| |done]. unfold new_pte. destruct Hr. rng_auto.
Qed.
End Translate.

(** ** Walks through RAM *)

(** The entries the walk reads are not in a device window. *)
Fixpoint ram_walk (pg : Paging) (va : Z) (level : nat) (a : Z) (b : Bus) : Prop :=
  let p := pte_address pg va level a in
  mmio p b = false /\
  match level with
  | O => True
  | S level => let pte := run (read_pte pg p) b in has pte (PTE_R .| PTE_X) = false -> ram_walk pg va level (pte_next pg pte) b
  end.
Lemma ok_fault_addr_set y b : mem_ok b -> rng 64 y -> mem_ok (set_b_fault_addr y b).
Proof. intros [[] ? ? ?] Hy. by constructor. Qed.
(** One read of an entry, whatever the fault address register holds. *)
Lemma ram_read pg p b : mem_ok b -> rng 64 p -> b_fault b = false -> mmio p b = false ->
  (exists v, forall y, rng 64 y -> read_pte pg p (set_b_fault_addr y b) = (v, set_b_fault_addr y b)) \/
  (forall y, rng 64 y -> exists b1, read_pte pg p (set_b_fault_addr y b) = (0, b1) /\ b_fault b1 = true /\ set_b_fault false b1 = set_b_fault_addr p b).
Proof.
  intros Hb Hp Hf Hm. destruct (in_ram b p (Z.of_nat (nbytes (pte_width pg)))) eqn:Er; [left; exists (le_get (b_data b) (p - b_base b) (nbytes (pte_width pg)))|right]; intros y Hy;
    rewrite read_pte_width, (mem_read_ram (pte_width pg)) by (done || by apply ok_fault_addr_set);
    change (in_ram (set_b_fault_addr y b) p _) with (in_ram b p (Z.of_nat (nbytes (pte_width pg)))); rewrite Er; [done|].
  eexists. split; [done|]. split; [done|]. unfold faulted. destruct b. cbn in *. by rewrite Hf.
Qed.
Lemma walk_again pg va level : forall a b, mem_ok b -> b_fault b = false -> ram_walk pg va level a b ->
  exists r o, (is_Some r -> o = None) /\ from_option (rng 64) True o /\ forall y, rng 64 y ->
    mmu_walk pg va level a (set_b_fault_addr y b) = (r, match o with None => set_b_fault_addr y b | Some x => set_b_fault_addr x b end).
Proof.
  induction level as [|level IH]; intros a b Hb Hf [Hm Hr]; cbn [mmu_walk]; set (p := pte_address pg va _ a) in *; assert (rng 64 p) as Hp by apply pte_address_rng;
    (destruct (ram_read pg p b Hb Hp Hf Hm) as [[v Hv]|Hv];
     [|exists None, (Some p); split; [by intros [? ?]|]; split; [done|]; intros y Hy; destruct (Hv y Hy) as (b1 & E & E1 & E2); unfold mbind, st_bind, gets, modify; rewrite E, E1; cbn; by rewrite E2]);
    unfold mbind, st_bind, gets, modify.
  all: destruct (negb (has v PTE_V) || (negb (has v PTE_R) && has v PTE_W)) eqn:Ei;
    [exists None, None; split_and!; [done|done|]; intros y Hy; rewrite (Hv y Hy); cbn [b_fault set_b_fault_addr]; by rewrite Hf, Ei|].
  all: destruct (has v (PTE_R .| PTE_X)) eqn:El;
    [eexists (Some _), None; split_and!; [done|done|]; intros y Hy; rewrite (Hv y Hy); cbn [b_fault set_b_fault_addr]; by rewrite Hf, Ei, El|].
  - exists None, None. split_and!; [done|done|]. intros y Hy. rewrite (Hv y Hy). cbn [b_fault set_b_fault_addr]. by rewrite Hf, Ei, El.
  - assert (run (read_pte pg p) b = v) as Erun.
    { pose proof (Hv (b_fault_addr b) (ok_fault_addr b Hb)) as E. replace (set_b_fault_addr (b_fault_addr b) b) with b in E by by destruct b. unfold run. by rewrite E. }
    cbv zeta in Hr. rewrite Erun in Hr. destruct (IH _ _ Hb Hf (Hr El)) as (r & o & H1 & H2 & H3). exists r, o. split_and!; [done|done|]. intros y Hy. rewrite (Hv y Hy). cbn [b_fault set_b_fault_addr].
    rewrite Hf, Ei, El. by apply H3.
Qed.

Section Again.
Context (h va : Z) (acc : AccessType).

(** The page tables of the access are not in a device window. *)
Definition ram_tables (W : World) : Prop :=
let c := hart h W in let pg := paging (satp_mode c (csr c CSR_SATP)) in
ram_walk pg (if c_xlen c =? 32 then va .& 0xffffffff else va) (levels pg - 1) (u64 ((csr c CSR_SATP .& ppnmask pg) << 12)) (w_bus W).

Lemma fault_again W cause W' : world_ok W -> b_fault (w_bus W) = false -> ram_tables W ->
mmu_translate h va acc W = (Fault cause, W') -> mmu_translate h va acc W' = (Fault cause, W').
Proof.
intros Hw Hf Hr Et0. pose proof Et0 as Et. rewrite translate_eq in Et. destruct (direct va acc (hart h W)) as [t|] eqn:Ed.
{ injection Et as -> <-. by rewrite translate_eq, Ed. }
assert (set_w_bus (w_bus W) W = W) as Es by by destruct W.
unfold ram_tables in Hr. cbv zeta in Hr. destruct (walk_again _ _ _ _ _ (proj1 (wi_mem _ _ Hw)) Hf Hr) as (r & o & H1 & H2 & Hwalk).
pose proof (Hwalk (b_fault_addr (w_bus W)) (ok_fault_addr _ (proj1 (wi_mem _ _ Hw)))) as E. replace (set_b_fault_addr (b_fault_addr (w_bus W)) (w_bus W)) with (w_bus W) in E by by destruct (w_bus W).
unfold the_walk in Et. cbv zeta in Et. rewrite E in Et. destruct r as [l|].
- rewrite H1 in Et by done. pose proof (finish_eq h va acc (hart h W) l (set_w_bus (w_bus W) W)) as Ef. destruct l as [[level pte] addr]. rewrite Ef, Es in Et.
destruct (negb _); [by injection Et as <- <-|]. destruct (leaf_ppn _ _ _ _); [done|by injection Et as <- <-].
- destruct o as [x|]; [|rewrite Es in Et; by injection Et as <- <-]. assert (W' = set_w_bus (set_b_fault_addr x (w_bus W)) W) as -> by congruence.
rewrite translate_eq. change (hart h (set_w_bus _ W)) with (hart h W). rewrite Ed. unfold the_walk. cbv zeta. change (hart h (set_w_bus _ W)) with (hart h W).
change (w_bus (set_w_bus ?b W)) with b. rewrite (Hwalk x H2). by injection Et as ->.
Qed.

Lemma translate_idem W : world_ok W -> rng 64 va -> b_fault (w_bus W) = false -> ram_tables W ->
exists t W', mmu_translate h va acc W = (t, W') /\ mmu_translate h va acc W' = (t, W') /\ b_fault (w_bus W') = false.
Proof.
intros Hw Hv Hf Hr. pose proof (translate_no_fault h va acc W Hw Hv Hf) as Hn. unfold exec in Hn. destruct (mmu_translate h va acc W) as [t W'] eqn:Et. exists t, W'.
split; [done|]. split; [|done]. destruct t as [cause|pa]; [by apply (fault_again W)|by apply (translate_again h va acc W)].
Qed.

(** C18 [translate_idempotent]: translating an address twice is translating it once.  After a
translation through page tables in RAM, which may have filled the TLB and set the
accessed and dirty bits, the same access translates to the same address or page fault
and changes nothing more, so that the probe translated code makes before an access is
invisible; and no memory fault is left pending. *)
Theorem translate_idempotent W : world_ok W -> rng 64 va -> b_fault (w_bus W) = false -> ram_tables W ->
let '(t, W') := mmu_translate h va acc W in mmu_translate h va acc W' = (t, W') /\ b_fault (w_bus W') = false.
Proof. intros Hw Hv Hf Hr. destruct (translate_idem W Hw Hv Hf Hr) as (t & W' & -> & H). done. Qed.
End Again.

(** A 4 MiB page at address 0 of an RV32 supervisor, never accessed: the root table is the
    first page of RAM. *)
Definition paged_world : World :=
  upd_hart 0 (fun c => set_c_priv PRIV_S (set_csr CSR_SATP 0x80080000 c)) (boot_world 32 [0x0f; 0x00; 0x00; 0x20]).
Lemma paged_world_ok : world_ok paged_world.
Proof.
  apply (world_inv_ok (boot_world 32 [0x0f; 0x00; 0x00; 0x20])). apply (keep_upd _ 0).
  - intros c Hc. apply cinv_set_c_priv; [by apply rng_const|]. apply cinv_set_csr; [by apply rng_const|done].
  - apply boot_world_ok; [by left|]. apply bytes_forallb. reflexivity.
Qed.
Lemma ram_walk_leaf pg va level a b : let p := pte_address pg va level a in
  mmio p b = false -> has (run (read_pte pg p) b) (PTE_R .| PTE_X) = true -> ram_walk pg va level a b.
Proof. intros p Hm Hl. destruct level; cbn [ram_walk]; fold p; split; try done. by rewrite Hl. Qed.
Lemma paged_tables : ram_tables 0 0x1234 paged_world.
Proof. unfold ram_tables. apply ram_walk_leaf; vm_compute; reflexivity. Qed.
Lemma paged_store : run (mmu_translate 0 0x1234 ACC_STORE) paged_world = Phys 0x80001234.
Proof. vm_compute. reflexivity. Qed.
Lemma paged_dirty : (b_data (w_bus (exec (mmu_translate 0 0x1234 ACC_STORE) paged_world))).[0] = 0xcf.
Proof. vm_compute. reflexivity. Qed.
Lemma paged_quiet : b_fault (w_bus paged_world) = false.
Proof. vm_compute. reflexivity. Qed.
Lemma translate_idempotent_witness :
  run (mmu_translate 0 0x1234 ACC_STORE) paged_world = Phys 0x80001234 /\
  (b_data (w_bus (exec (mmu_translate 0 0x1234 ACC_STORE) paged_world))).[0] = 0xcf /\
  let '(t, W) := mmu_translate 0 0x1234 ACC_STORE paged_world in
  mmu_translate 0 0x1234 ACC_STORE W = (t, W) /\ b_fault (w_bus W) = false.
Proof.
  split; [exact paged_store|]. split; [exact paged_dirty|].
  exact (translate_idempotent 0 0x1234 ACC_STORE paged_world paged_world_ok (rng_const 64 0x1234 eq_refl) paged_quiet paged_tables).
Defined.
