(* ===== verification/X86.v ===== *)
(** * The host processor

    The x86-64 instructions the code generator emits, as the processor manuals define them:
    a decoder from bytes and the effect of each instruction.  A register without a value is
    one the calling convention leaves undefined; reading it is stuck, and so is any byte
    sequence outside this subset. *)

From S2P Require Import Prelude.

(** ** State *)

(** What the generated code shares with the C program: data at an address, and functions
    called with two arguments. *)
Class HostEnv (W : Type) := {
  load64 : Z -> W -> option Z;
  load32 : Z -> W -> option Z;
  store64 : Z -> Z -> W -> option W;
  call_fn : Z -> Z -> Z -> W -> option (Z * W)
}.

Record Flags := mkFlags { fl_z : bool; fl_s : bool; fl_c : bool; fl_o : bool }.

(** Registers by number (0 rax, 1 rcx, 3 rbx, 6 rsi, 7 rdi, 10 r10); the stack holds the
    words pushed since the call. *)
Record Host (W : Type) := mkHost {
  x_regs : gmap Z Z;
  x_flags : option Flags;
  x_stack : list Z;
  x_mem : W
}.
Arguments mkHost {W}.
Arguments x_regs {W}.
Arguments x_flags {W}.
Arguments x_stack {W}.
Arguments x_mem {W}.

(** ** Instructions *)

Inductive AluOp := A_add | A_or | A_and | A_sub | A_xor | A_cmp.
Inductive ShiftOp := S_shl | S_shr | S_sar.

(** [w64] selects the 64-bit form; a 32-bit immediate or displacement is kept as the four
    bytes encode it, and sign-extended where it is used. *)
Inductive Insn :=
| PUSH (r : Z) | POP (r : Z) | RET
| MOV (dst src : Z)
| LD64 (r base disp : Z) | LD32 (r base disp : Z) | ST64 (base disp r : Z)
| MOV_imm64 (r v : Z) | MOV_imm32 (r v : Z)
| ALU (w64 : bool) (op : AluOp) (dst src : Z)
| ALU_imm (w64 : bool) (op : AluOp) (r imm : Z)
| ADD_mem (base disp imm : Z)
| SHIFT_imm (w64 : bool) (op : ShiftOp) (r k : Z) | SHIFT_cl (w64 : bool) (op : ShiftOp) (r : Z)
| MOVSXD (dst src : Z) | SETCC (cc r : Z) | MOVZX8 (dst src : Z) | CMOV (cc dst src : Z)
| TEST32 (a b : Z)
| JMP (rel : Z) | JE (rel : Z) | CALL (r : Z).

(** ** Decoding *)

Fixpoint le_word (n : nat) (l : list Z) : option Z :=
  match n, l with
  | O, _ => Some 0
  | S n, b :: l => v ← le_word n l; Some (b + (v << 8))
  | S _, [] => None
  end.

Definition group1 (n : Z) : option AluOp :=
  if n =? 0 then Some A_add else if n =? 1 then Some A_or else if n =? 4 then Some A_and
  else if n =? 5 then Some A_sub else if n =? 6 then Some A_xor else if n =? 7 then Some A_cmp else None.
Definition group2 (n : Z) : option ShiftOp :=
  if n =? 4 then Some S_shl else if n =? 5 then Some S_shr else if n =? 7 then Some S_sar else None.

(** The ModR/M byte: mode, register (or opcode extension) and operand. *)
Definition mode (b : Z) : Z := b >> 6.
Definition reg_field (b : Z) : Z := (b >> 3) .& 7.
Definition rm_field (b : Z) : Z := b .& 7.

(** After an optional prefix with the bits W and B: the instruction and its length. *)
Definition decode_op (rex w64 : bool) (xb : Z) (l : list Z) : option (Insn * Z) :=
  match l with
  | [] => None
  | op :: l =>
    let modrm := match l with m :: _ => Some m | [] => None end in
    let tail := match l with _ :: t => t | [] => [] end in
    if (0x50 <=? op) && (op <? 0x58) then Some (PUSH (op - 0x50 + xb), 1)
    else if (0x58 <=? op) && (op <? 0x60) then Some (POP (op - 0x58 + xb), 1)
    else if op =? 0xc3 then Some (RET, 1)
    else if (0xb8 <=? op) && (op <? 0xc0) then
      if w64 then v ← le_word 8 l; Some (MOV_imm64 (op - 0xb8 + xb) v, 9)
      else v ← le_word 4 l; Some (MOV_imm32 (op - 0xb8 + xb) v, 5)
    else if op =? 0xeb then v ← le_word 1 l; Some (JMP (s8 v), 2)
    else if op =? 0xe9 then v ← le_word 4 l; Some (JMP (s32 v), 5)
    else if op =? 0x74 then v ← le_word 1 l; Some (JE (s8 v), 2)
    else if op =? 0x0f then
      match l with
      | op2 :: m :: _ =>
        if (0x90 <=? op2) && (op2 <? 0xa0) then
          if (mode m =? 3) && (rm_field m <? 4) then Some (SETCC (op2 - 0x90) (rm_field m), 3) else None
        else if op2 =? 0xb6 then
          if (mode m =? 3) && (rm_field m <? 4) then Some (MOVZX8 (reg_field m) (rm_field m), 3) else None
        else if (0x40 <=? op2) && (op2 <? 0x50) then
          if w64 && (mode m =? 3) then Some (CMOV (op2 - 0x40) (reg_field m) (rm_field m + xb), 3) else None
        else None
      | _ => None
      end
    else
      m ← modrm;
      let g := reg_field m in let r := rm_field m in
      if mode m =? 3 then
        let r := r + xb in
        if (op .& 0xc7 =? 0x01) && bool_decide (is_Some (group1 (op >> 3))) then
          o ← group1 (op >> 3); Some (ALU w64 o r g, 2)
        else if op =? 0x85 then if w64 then None else Some (TEST32 r g, 2)
        else if op =? 0x89 then if w64 then Some (MOV r g, 2) else None
        else if op =? 0x63 then if w64 then Some (MOVSXD g r, 2) else None
        else if op =? 0x81 then o ← group1 g; v ← le_word 4 tail; Some (ALU_imm w64 o r v, 6)
        else if op =? 0x83 then o ← group1 g; v ← le_word 1 tail; Some (ALU_imm w64 o r (u32 (s8 v)), 3)
        else if op =? 0xc1 then o ← group2 g; v ← le_word 1 tail; Some (SHIFT_imm w64 o r v, 3)
        else if op =? 0xd3 then o ← group2 g; Some (SHIFT_cl w64 o r, 2)
        else if op =? 0xff then if g =? 2 then Some (CALL r, 2) else None
        else None
      else if (mode m =? 2) && negb (r =? 4) then
        let r := r + xb in
        d ← le_word 4 tail;
        if op =? 0x8b then Some ((if w64 then LD64 g r d else LD32 g r d), 6)
        else if op =? 0x89 then if w64 then Some (ST64 r d g, 6) else None
        else if op =? 0x81 then
          if w64 && (g =? 0) then v ← le_word 4 (drop 4 tail); Some (ADD_mem r d v, 10) else None
        else None
      else None
  end.

Definition decode (l : list Z) : option (Insn * Z) :=
  match l with
  | b :: t =>
    if b =? 0x48 then '(i, n) ← decode_op true true 0 t; Some (i, n + 1)
    else if b =? 0x49 then '(i, n) ← decode_op true true 8 t; Some (i, n + 1)
    else if b =? 0x41 then '(i, n) ← decode_op true false 8 t; Some (i, n + 1)
    else decode_op false false 0 l
  | [] => None
  end.

(** ** Execution *)

Definition width (w64 : bool) : Z := if w64 then 64 else 32.

(** The result and the flags of an operation on [n]-bit values. *)
Definition alu_value (op : AluOp) (n a b : Z) : Z :=
  match op with
  | A_add => wrap n (a + b)
  | A_or => a .| b
  | A_and => a .& b
  | A_sub | A_cmp => wrap n (a - b)
  | A_xor => a .^ b
  end.
Definition alu_flags (op : AluOp) (n a b : Z) : Flags :=
  let r := alu_value op n a b in
  let '(cf, ovf) :=
    match op with
    | A_add => (2 ^ n <=? a + b, negb (sgn n r =? sgn n a + sgn n b))
    | A_sub | A_cmp => (a <? b, negb (sgn n r =? sgn n a - sgn n b))
    | A_or | A_and | A_xor => (false, false)
    end in
  mkFlags (r =? 0) (Z.testbit r (n - 1)) cf ovf.

(** A shift count is taken modulo the operand width. *)
Definition shift_value (op : ShiftOp) (n a k : Z) : Z :=
  let k := k mod n in
  match op with
  | S_shl => wrap n (a << k)
  | S_shr => a >> k
  | S_sar => wrap n (sgn n a >> k)
  end.

(** The conditions: below, above or equal, equal, not equal, less, greater or equal. *)
Definition holds (cc : Z) (f : Flags) : option bool :=
  if cc =? 0x2 then Some (fl_c f)
  else if cc =? 0x3 then Some (negb (fl_c f))
  else if cc =? 0x4 then Some (fl_z f)
  else if cc =? 0x5 then Some (negb (fl_z f))
  else if cc =? 0xc then Some (xorb (fl_s f) (fl_o f))
  else if cc =? 0xd then Some (negb (xorb (fl_s f) (fl_o f)))
  else None.

Inductive Outcome (W : Type) :=
| Next (h : Host W) (jump : Z)
| Return (rax rbx : Z) (mem : W)
| Stuck.
Arguments Next {W}.
Arguments Return {W}.
Arguments Stuck {W}.

Section Exec.
Context {W : Type} {env : HostEnv W} (junk : Z).

Definition or_stuck (o : option (Outcome W)) : Outcome W := default Stuck o.
Definition set_reg (r v : Z) (h : Host W) : Host W := mkHost (<[r := v]> (x_regs h)) (x_flags h) (x_stack h) (x_mem h).
Definition set_flags (f : option Flags) (h : Host W) : Host W := mkHost (x_regs h) f (x_stack h) (x_mem h).
Definition set_stack (s : list Z) (h : Host W) : Host W := mkHost (x_regs h) (x_flags h) s (x_mem h).
Definition set_mem (m : W) (h : Host W) : Host W := mkHost (x_regs h) (x_flags h) (x_stack h) m.
(** The address [base + disp]. *)
Definition ea (h : Host W) (base disp : Z) : option Z := b ← x_regs h !! base; Some (u64 (b + s32 disp)).
Definition go (h : Host W) : option (Outcome W) := Some (Next h 0).

(** One instruction; [jump] of the result is relative to the next one.  [CALL] follows the
System V convention: the arguments in rdi and esi, the result in eax, and of the other
registers only the callee-saved rbx keeps its value. *)
Definition execute (i : Insn) (h : Host W) : Outcome W :=
or_stuck
match i with
| PUSH r => v ← x_regs h !! r; go (set_stack (v :: x_stack h) h)
| POP r => match x_stack h with v :: s => go (set_reg r v (set_stack s h)) | [] => None end
| RET =>
a ← x_regs h !! 0; b ← x_regs h !! 3;
match x_stack h with [] => Some (Return a b (x_mem h)) | _ => None end
| MOV d s => v ← x_regs h !! s; go (set_reg d v h)
| LD64 r base disp => a ← ea h base disp; v ← load64 a (x_mem h); go (set_reg r v h)
| LD32 r base disp => a ← ea h base disp; v ← load32 a (x_mem h); go (set_reg r v h)
| ST64 base disp r => a ← ea h base disp; v ← x_regs h !! r; m ← store64 a v (x_mem h); go (set_mem m h)
| MOV_imm64 r v => go (set_reg r v h)
| MOV_imm32 r v => go (set_reg r v h)
| ALU w op d s =>
a ← x_regs h !! d; b ← x_regs h !! s;
let n := width w in let a := wrap n a in let b := wrap n b in
let h := set_flags (Some (alu_flags op n a b)) h in
go (match op with A_cmp => h | _ => set_reg d (alu_value op n a b) h end)
| ALU_imm w op r imm =>
a ← x_regs h !! r;
let n := width w in let a := wrap n a in let b := wrap n (s32 imm) in
let h := set_flags (Some (alu_flags op n a b)) h in
go (match op with A_cmp => h | _ => set_reg r (alu_value op n a b) h end)
| ADD_mem base disp imm =>
a ← ea h base disp; v ← load64 a (x_mem h);
let b := wrap 64 (s32 imm) in
m ← store64 a (alu_value A_add 64 v b) (x_mem h);
go (set_flags (Some (alu_flags A_add 64 v b)) (set_mem m h))
| SHIFT_imm w op r k =>
a ← x_regs h !! r; let n := width w in
go (set_flags None (set_reg r (shift_value op n (wrap n a) k) h))
| SHIFT_cl w op r =>
a ← x_regs h !! r; c ← x_regs h !! 1; let n := width w in
go (set_flags None (set_reg r (shift_value op n (wrap n a) (u8 c)) h))
| MOVSXD d s => v ← x_regs h !! s; go (set_reg d (u64 (s32 v)) h)
| SETCC cc r =>
f ← x_flags h; b ← holds cc f; v ← x_regs h !! r;
go (set_reg r ((v .& u64 (Z.lnot 0xff)) .| (if b : bool then 1 else 0)) h)
| MOVZX8 d s => v ← x_regs h !! s; go (set_reg d (u8 v) h)
| CMOV cc d s =>
f ← x_flags h; b ← holds cc f; v ← x_regs h !! s; o ← x_regs h !! d;
go (set_reg d (if b : bool then v else o) h)
| TEST32 a b =>
x ← x_regs h !! a; y ← x_regs h !! b;
go (set_flags (Some (alu_flags A_and 32 (u32 x) (u32 y))) h)
| JMP rel => Some (Next h rel)
| JE rel => f ← x_flags h; Some (Next h (if fl_z f then rel else 0))
| CALL r =>
f ← x_regs h !! r; a ← x_regs h !! 7; b ← x_regs h !! 6;
'(v, m) ← call_fn f a (u32 b) (x_mem h);
saved ← x_regs h !! 3;
go (mkHost {[0 := u32 v .| (u32 junk << 32); 3 := saved]} None (x_stack h) m)
end.

(** Run from [rip] until the function returns; [code] gives the bytes at an address. *)
Fixpoint run_from (fuel : nat) (code : Z -> list Z) (rip : Z) (h : Host W) : option (Z * Z * W) :=
match fuel with
| O => None
| S fuel =>
match decode (code rip) with
| None => None
| Some (i, n) =>
  match execute i h with
  | Next h jump => run_from fuel code (rip + n + jump) h
  | Return a b m => Some (a, b, m)
  | Stuck => None
  end
end
end.

(** [fn(arg)] for the function at [entry]: rdi is the argument, rbx a value the caller wants
back. *)
Definition call_code (fuel : nat) (code : Z -> list Z) (entry arg rbx : Z) (m : W) : option (Z * Z * W) :=
run_from fuel code entry (mkHost {[7 := arg; 3 := rbx]} None [] m).
End Exec.
