(* ===== verification/Jit.v ===== *)
(** * The code generator ([src/jit.c], [src/jit.h])

    The basic-block translator of a host with an executable code arena: the x86-64 emission
    helpers, the translation of one guest instruction and of a block, the helpers translated
    code calls back into, the table of blocks and the dispatcher.  A block runs on the host
    of [X86]; the offsets into the CPU structure are those of the System V layout. *)

From S2P Require Import Prelude Decode Rvc Device Memory Cache Cpu Mmu See Trap Alu Exec Step X86.

(** ** Geometry *)

(** [src/jit.c 69-69] JIT_SETS *)
Definition JIT_SETS : Z := 8192.
(** [src/jit.c 70-70] JIT_WAYS *)
Definition JIT_WAYS : Z := 4.
(** [src/jit.c 71-71] JIT_MAX_INSNS *)
Definition JIT_MAX_INSNS : Z := 128.
(** [src/jit.c 72-72] JIT_ARENA *)
Definition JIT_ARENA : Z := 32 << 20.
(** [src/jit.c 73-73] JIT_CODE_MAX *)
Definition JIT_CODE_MAX : Z := 16384.

(** ** Emission *)

(** [buf] holds the [len] bytes emitted so far.
    [src/jit.c 176-180] Code *)
Record Code := mkCode { cd_buf : list Z; cd_fail : bool }.
Definition cd_len (c : Code) : Z := Z.of_nat (length (cd_buf c)).

(** [src/jit.c 170-170] RAX *)
Definition RAX : Z := 0.
(** [src/jit.c 170-170] RCX *)
Definition RCX : Z := 1.
(** [src/jit.c 170-170] RBX *)
Definition RBX : Z := 3.

(** [src/jit.c 172-172] ROFF *)
Definition ROFF (i : Z) : Z := u32 (0 + i * 8).
(** [src/jit.c 173-173] PCOFF *)
Definition PCOFF : Z := 512.
(** [src/jit.c 174-174] IROFF *)
Definition IROFF : Z := 576.

(** [src/jit.c 182-185] eb *)
Definition eb (b : Z) : st Code unit :=
  modify (fun c => if cd_len c <? JIT_CODE_MAX then mkCode (cd_buf c ++ [u8 b]) (cd_fail c) else mkCode (cd_buf c) true).
(** [src/jit.c 186-189] e32 *)
Definition e32 (v : Z) : st Code unit := eb v ;; eb (v >> 8) ;; eb (v >> 16) ;; eb (v >> 24).
(** [src/jit.c 190-192] e64 *)
Definition e64 (v : Z) : st Code unit := e32 (u32 v) ;; e32 (u32 (v >> 32)).

(** [src/jit.c 195-197] x_ld *)
Definition x_ld (r off : Z) : st Code unit := eb 0x48 ;; eb 0x8B ;; eb (0x80 .| (r << 3) .| RBX) ;; e32 off.
(** [src/jit.c 198-200] x_ld32 *)
Definition x_ld32 (r off : Z) : st Code unit := eb 0x8B ;; eb (0x80 .| (r << 3) .| RBX) ;; e32 off.
(** [src/jit.c 201-203] x_st *)
Definition x_st (off r : Z) : st Code unit := eb 0x48 ;; eb 0x89 ;; eb (0x80 .| (r << 3) .| RBX) ;; e32 off.
(** [src/jit.c 205-207] x_imm64 *)
Definition x_imm64 (r v : Z) : st Code unit := eb 0x48 ;; eb (0xB8 + r) ;; e64 v.
(** [src/jit.c 210-212] x_alu *)
Definition x_alu (op dst src : Z) : st Code unit := eb 0x48 ;; eb op ;; eb (0xC0 .| (src << 3) .| dst).
(** [src/jit.c 213-215] x_alu32 *)
Definition x_alu32 (op dst src : Z) : st Code unit := eb op ;; eb (0xC0 .| (src << 3) .| dst).
(** [src/jit.c 218-220] x_alui *)
Definition x_alui (n r imm : Z) : st Code unit := eb 0x48 ;; eb 0x81 ;; eb (0xC0 .| (n << 3) .| r) ;; e32 imm.
(** [src/jit.c 221-223] x_alui32 *)
Definition x_alui32 (n r imm : Z) : st Code unit := eb 0x81 ;; eb (0xC0 .| (n << 3) .| r) ;; e32 imm.
(** [src/jit.c 225-228] x_shifti *)
Definition x_shifti (n r : Z) (w64 : bool) (sh : Z) : st Code unit :=
  when w64 (eb 0x48) ;; eb 0xC1 ;; eb (0xC0 .| (n << 3) .| r) ;; eb sh.
(** [src/jit.c 229-232] x_shiftcl *)
Definition x_shiftcl (n r : Z) (w64 : bool) : st Code unit :=
  when w64 (eb 0x48) ;; eb 0xD3 ;; eb (0xC0 .| (n << 3) .| r).
(** [src/jit.c 234-234] x_sext32 *)
Definition x_sext32 : st Code unit := eb 0x48 ;; eb 0x63 ;; eb 0xC0.
(** [src/jit.c 236-239] x_setcc *)
Definition x_setcc (cc : Z) : st Code unit := eb 0x0F ;; eb cc ;; eb 0xC0 ;; eb 0x0F ;; eb 0xB6 ;; eb 0xC0.
(** [src/jit.c 241-243] x_cmov *)
Definition x_cmov (cc dst src : Z) : st Code unit := eb 0x48 ;; eb 0x0F ;; eb cc ;; eb (0xC0 .| (dst << 3) .| src).
(** [src/jit.c 245-248] x_retire *)
Definition x_retire (n : Z) : st Code unit :=
  when (negb (n =? 0)) (eb 0x48 ;; eb 0x81 ;; eb 0x83 ;; e32 IROFF ;; e32 n).
(** [src/jit.c 250-250] x_ret_steps *)
Definition x_ret_steps (n : Z) : st Code unit := eb 0xB8 ;; e32 n.
(** [src/jit.c 252-254] x_jmp_epi *)
Definition x_jmp_epi : st Code unit := eb 0xE9 ;; len ← gets cd_len; e32 (u32 (6 - (len + 4))).
(** [src/jit.c 256-259] x_je8 *)
Definition x_je8 : st Code Z := eb 0x74 ;; at_ ← gets cd_len; eb 0 ;; mret at_.
(** [src/jit.c 260-264] x_patch8 *)
Definition x_patch8 (at_ : Z) : st Code unit :=
  modify (fun c =>
    let dist := u32 (cd_len c - (at_ + 1)) in
    if (JIT_CODE_MAX <=? at_) || (127 <? dist) then mkCode (cd_buf c) true
    else mkCode (<[Z.to_nat at_ := u8 dist]> (cd_buf c)) (cd_fail c)).

(** [fn] is the address of the helper.
    [src/jit.c 270-279] x_call *)
Definition x_call (fn inst pc_stored : Z) : st Code unit :=
  x_imm64 RAX pc_stored ;; x_st PCOFF RAX ;;
  eb 0x48 ;; eb 0x89 ;; eb 0xDF ;;
  eb 0xBE ;; e32 inst ;;
  eb 0x49 ;; eb 0xBA ;; e64 fn ;;
  eb 0x41 ;; eb 0xFF ;; eb 0xD2 ;;
  eb 0x85 ;; eb 0xC0.

(** ** Translation *)

(** [src/jit.c 285-285] EM_CONT *)
Inductive EM := EM_CONT | EM_TERM | EM_STOP.

(** [src/jit.c 290-292] sf *)
Definition sf (rv64 : bool) (v : Z) : Z := if rv64 then v else u64 (s32 v).

(** [src/jit.c 296-302] glue_alu *)
Definition glue_alu (k : Z) : st Code unit :=
  cont ← x_je8; x_retire k ;; x_ret_steps (k + 1) ;; x_jmp_epi ;; x_patch8 cont.

(** [src/jit.c 305-317] glue_mem *)
Definition glue_mem (k : Z) : st Code unit :=
  cont ← x_je8;
  eb 0x83 ;; eb 0xF8 ;; eb 0x03 ;;
  abort_ ← x_je8;
  x_retire k ;; x_ret_steps (k + 1) ;; x_jmp_epi ;;
  x_patch8 abort_ ;;
  x_retire k ;; x_ret_steps k ;; x_jmp_epi ;;
  x_patch8 cont.

(** [src/jit.c 321-324] put_rd *)
Definition put_rd (rv64 : bool) (rdn : Z) (needs_sext : bool) : st Code unit :=
  when (negb rv64 && needs_sext) x_sext32 ;; when (negb (rdn =? 0)) (x_st (ROFF rdn) RAX).

Section Emit.
(** The addresses of [jit_h_alu] and [jit_h_mem]. *)
Context (h_alu h_mem : Z).

(** The fallback to the interpreter's own code.
[src/jit.c 368-370] emit_op_imm *)
Definition emit_helper (inst vs k : Z) : st Code EM := x_call h_alu inst vs ;; glue_alu k ;; mret EM_CONT.

(** [src/jit.c 329-371] emit_op_imm *)
Definition emit_op_imm (rv64 : bool) (inst vs k : Z) : st Code EM :=
let f3 := funct3 inst in let f6 := (inst >> 26) .& 0x3f in let rdn := rd inst in
let immw := u32 (imm_i inst) in
let shmask := if rv64 then 0x3f else 0x1f in
let shamt := (inst >> 20) .& shmask in
if f3 =? 0x0 then
x_ld RAX (ROFF (rs1 inst)) ;; x_alui 0 RAX immw ;; put_rd rv64 rdn true ;; mret EM_CONT
else if (f3 =? 0x2) || (f3 =? 0x3) then
x_ld RAX (ROFF (rs1 inst)) ;; x_alui 7 RAX immw ;; x_setcc (if f3 =? 0x2 then 0x9C else 0x92) ;;
put_rd rv64 rdn false ;; mret EM_CONT
else if (f3 =? 0x4) || (f3 =? 0x6) || (f3 =? 0x7) then
x_ld RAX (ROFF (rs1 inst)) ;; x_alui (if f3 =? 0x4 then 6 else if f3 =? 0x6 then 1 else 4) RAX immw ;;
put_rd rv64 rdn false ;; mret EM_CONT
else if (f3 =? 0x1) && (f6 =? 0x00) then
x_ld RAX (ROFF (rs1 inst)) ;; x_shifti 4 RAX rv64 shamt ;; put_rd rv64 rdn true ;; mret EM_CONT
else if (f3 =? 0x5) && ((f6 =? 0x00) || (f6 =? 0x10)) then
x_ld RAX (ROFF (rs1 inst)) ;; x_shifti (if f6 =? 0x10 then 7 else 5) RAX rv64 shamt ;;
put_rd rv64 rdn true ;; mret EM_CONT
else emit_helper inst vs k.

(** [src/jit.c 375-401] emit_op *)
Definition emit_op (rv64 : bool) (inst vs k : Z) : st Code EM :=
let f3 := funct3 inst in let f7 := funct7 inst in let rdn := rd inst in
let base := (f7 =? 0x00) || ((f7 =? 0x20) && ((f3 =? 0x0) || (f3 =? 0x5))) in
if negb base then emit_helper inst vs k
else
x_ld RAX (ROFF (rs1 inst)) ;;
x_ld RCX (ROFF (rs2 inst)) ;;
(if f3 =? 0x0 then x_alu (if f7 =? 0x20 then 0x29 else 0x01) RAX RCX ;; put_rd rv64 rdn true
 else if f3 =? 0x1 then x_shiftcl 4 RAX rv64 ;; put_rd rv64 rdn true
 else if f3 =? 0x2 then x_alu 0x39 RAX RCX ;; x_setcc 0x9C ;; put_rd rv64 rdn false
 else if f3 =? 0x3 then x_alu 0x39 RAX RCX ;; x_setcc 0x92 ;; put_rd rv64 rdn false
 else if f3 =? 0x4 then x_alu 0x31 RAX RCX ;; put_rd rv64 rdn false
 else if f3 =? 0x5 then x_shiftcl (if f7 =? 0x20 then 7 else 5) RAX rv64 ;; put_rd rv64 rdn true
 else if f3 =? 0x6 then x_alu 0x09 RAX RCX ;; put_rd rv64 rdn false
 else x_alu 0x21 RAX RCX ;; put_rd rv64 rdn false) ;;
mret EM_CONT.

(** [src/jit.c 405-422] emit_op_imm32 *)
Definition emit_op_imm32 (inst vs k : Z) : st Code EM :=
let f3 := funct3 inst in let f6 := (inst >> 26) .& 0x3f in let rdn := rd inst in
let shamt := (inst >> 20) .& 0x1f in
let ok := (f3 =? 0x0) || ((f3 =? 0x1) && (f6 =? 0x00)) || ((f3 =? 0x5) && ((f6 =? 0x00) || (f6 =? 0x10))) in
if negb ok then emit_helper inst vs k
else
x_ld32 RAX (ROFF (rs1 inst)) ;;
(if f3 =? 0x0 then x_alui32 0 RAX (u32 (imm_i inst))
 else if f3 =? 0x1 then x_shifti 4 RAX false shamt
 else x_shifti (if f6 =? 0x10 then 7 else 5) RAX false shamt) ;;
x_sext32 ;;
when (negb (rdn =? 0)) (x_st (ROFF rdn) RAX) ;;
mret EM_CONT.

(** [src/jit.c 426-443] emit_op32 *)
Definition emit_op32 (inst vs k : Z) : st Code EM :=
let f3 := funct3 inst in let f7 := funct7 inst in let rdn := rd inst in
let ok := ((f7 =? 0x00) && ((f3 =? 0x0) || (f3 =? 0x1) || (f3 =? 0x5)))
     || ((f7 =? 0x20) && ((f3 =? 0x0) || (f3 =? 0x5))) in
if negb ok then emit_helper inst vs k
else
x_ld32 RAX (ROFF (rs1 inst)) ;;
x_ld32 RCX (ROFF (rs2 inst)) ;;
(if f3 =? 0x0 then x_alu32 (if f7 =? 0x20 then 0x29 else 0x01) RAX RCX
 else if f3 =? 0x1 then x_shiftcl 4 RAX false
 else x_shiftcl (if f7 =? 0x20 then 7 else 5) RAX false) ;;
x_sext32 ;;
when (negb (rdn =? 0)) (x_st (ROFF rdn) RAX) ;;
mret EM_CONT.

(** A constant for [rd].
[src/jit.c 456-459] emit_insn *)
Definition emit_const (rdn v : Z) : st Code unit := when (negb (rdn =? 0)) (x_imm64 RAX v ;; x_st (ROFF rdn) RAX).

(** The end of a block: store the next PC in rax and leave with [n] steps.
[src/jit.c 498-501] emit_insn *)
Definition emit_exit (n : Z) : st Code unit := x_st PCOFF RAX ;; x_retire n ;; x_ret_steps n ;; x_jmp_epi.

(** [src/jit.c 486-486] emit_insn *)
Definition branch_cc (f3 : Z) : Z :=
if f3 =? 0 then 0x44 else if f3 =? 1 then 0x45 else if f3 =? 4 then 0x4C else if f3 =? 5 then 0x4D
else if f3 =? 6 then 0x42 else if f3 =? 7 then 0x43 else 0.

(** [src/jit.c 480-503] emit_insn *)
Definition emit_branch (rv64 : bool) (inst va ilen k : Z) : st Code EM :=
let fall := sf rv64 (u64 (va + ilen)) in
let taken := sf rv64 (u64 (va + u64 (imm_b inst))) in
let f3 := funct3 inst in
(if (f3 =? 0x2) || (f3 =? 0x3) then x_imm64 RAX fall
else
 x_ld RAX (ROFF (rs1 inst)) ;; x_ld RCX (ROFF (rs2 inst)) ;; x_alu 0x39 RAX RCX ;;
 x_imm64 RAX fall ;; x_imm64 RCX taken ;; x_cmov (branch_cc f3) RAX RCX) ;;
emit_exit (k + 1) ;; mret EM_TERM.

(** [src/jit.c 517-532] emit_insn *)
Definition emit_jalr (rv64 : bool) (inst va ilen k : Z) : st Code EM :=
let rdn := rd inst in
x_ld RAX (ROFF (rs1 inst)) ;; x_alui 0 RAX (u32 (imm_i inst)) ;;
eb 0x48 ;; eb 0x83 ;; eb 0xE0 ;; eb 0xFE ;;
when (negb rv64) x_sext32 ;;
when (negb (rdn =? 0)) (x_imm64 RCX (sf rv64 (u64 (va + ilen))) ;; x_st (ROFF rdn) RCX) ;;
emit_exit (k + 1) ;; mret EM_TERM.

(** [src/jit.c 449-546] emit_insn *)
Definition emit_insn (rv64 : bool) (inst va ilen k : Z) : st Code EM :=
let op := opcode inst in let rdn := rd inst in
let vs := sf rv64 va in
if op =? OP_LUI then emit_const rdn (sf rv64 (u64 (imm_u inst))) ;; mret EM_CONT
else if op =? OP_AUIPC then emit_const rdn (sf rv64 (u64 (va + u64 (imm_u inst)))) ;; mret EM_CONT
else if op =? OP_IMM then emit_op_imm rv64 inst vs k
else if op =? OP_REG then emit_op rv64 inst vs k
else if op =? OP_IMM_32 then if rv64 then emit_op_imm32 inst vs k else mret EM_STOP
else if op =? OP_REG_32 then if rv64 then emit_op32 inst vs k else mret EM_STOP
else if (op =? OP_LOAD) || (op =? OP_STORE) then x_call h_mem inst vs ;; glue_mem k ;; mret EM_CONT
else if op =? OP_BRANCH then emit_branch rv64 inst va ilen k
else if op =? OP_JAL then
emit_const rdn (sf rv64 (u64 (va + ilen))) ;;
x_imm64 RAX (sf rv64 (u64 (va + u64 (imm_j inst)))) ;;
emit_exit (k + 1) ;; mret EM_TERM
else if op =? OP_JALR then emit_jalr rv64 inst va ilen k
else if op =? OP_FENCE then mret (if funct3 inst =? 0x1 then EM_STOP else EM_CONT)
else mret EM_STOP.
End Emit.

(** ** Blocks *)

(** [None]: not plain RAM.
    [src/jit.c 551-557] ram_fetch16 *)
Definition ram_fetch16 (b : Bus) (pa : Z) : option Z :=
  if b_has_plat b && plat_contains pa then None
  else if (pa <? b_base b) || (b_size b <? 2) || (u64 (b_size b - 2) <? u64 (pa - b_base b)) then None
  else
    let off := u64 (pa - b_base b) in
    Some (u16 ((b_data b).[off] .| u16 ((b_data b).[off + 1] << 8))).

(** The instruction at the offset [off] of a block and its length, or [None] where the block
    ends before it.
    [src/jit.c 578-592] translate *)
Definition block_fetch (b : Bus) (rv64 : bool) (va0 pa page_end off : Z) : option (Z * Z) :=
  let va := u64 (va0 + off) in
  if page_end <? u64 (va + 2) then None
  else
    lo ← ram_fetch16 b (u64 (pa + off));
    if negb (lo .& 0x3 =? 0x3) then
      let inst := rvc_expand lo rv64 in
      if inst =? RVC_ILLEGAL then None else Some (inst, 2)
    else if page_end <? u64 (va + 4) then None
    else hi ← ram_fetch16 b (u64 (u64 (pa + off) + 2)); Some (lo .| u32 (hi << 16), 4).

Section Translate.
Context (h_alu h_mem : Z).

(** The loop from instruction [n] at offset [off], [fuel] being what remains of
[JIT_MAX_INSNS]: the number of instructions, the offset behind them and whether a control
transfer ended the block.
[src/jit.c 574-598] translate *)
Fixpoint block_loop (fuel : nat) (b : Bus) (rv64 : bool) (va0 pa page_end n off : Z) : st Code (Z * Z * bool) :=
match fuel with
| O => mret (n, off, false)
| S fuel =>
match block_fetch b rv64 va0 pa page_end off with
| None => mret (n, off, false)
| Some (inst, ilen) =>
  r ← emit_insn h_alu h_mem rv64 inst (u64 (va0 + off)) ilen n;
  match r with
  | EM_STOP => mret (n, off, false)
  | EM_TERM => mret (n + 1, off + ilen, true)
  | EM_CONT => block_loop fuel b rv64 va0 pa page_end (n + 1) (off + ilen)
  end
end
end.

(** [src/jit.c 568-572] translate *)
Definition emit_prologue : st Code unit :=
eb 0x53 ;; eb 0x48 ;; eb 0x89 ;; eb 0xFB ;; eb 0xEB ;; eb 0x02 ;; eb 0x5B ;; eb 0xC3.

(** The code of the block at [va0] and its number of instructions; [None] when nothing there
can be translated.
[src/jit.c 562-608] translate *)
Definition block_code (b : Bus) (rv64 : bool) (pc pa : Z) : option (list Z * Z) :=
let va0 := if rv64 then pc else pc .& 0xffffffff in
let page_end := u64 ((va0 .| 0xfff) + 1) in
let '((n, off, term), c) :=
(emit_prologue ;; block_loop (Z.to_nat JIT_MAX_INSNS) b rv64 va0 pa page_end 0 0) (mkCode [] false) in
if n =? 0 then None
else
let c := exec (when (negb term) (x_imm64 RAX (sf rv64 (u64 (va0 + off))) ;; emit_exit n)) c in
if cd_fail c then None else Some (cd_buf c, n).
End Translate.

(** ** The block table *)

(** [fn]: the offset of the code in the arena, or NULL.
    [src/jit.c 77-83] JitEntry *)
Record JitEntry := mkJitEntry { e_gen : Z; e_pa : Z; e_va : Z; e_fn : option Z; e_ninsn : Z }.

(** The parts of [Jit] beside the generation and the arena cursor, which [World] holds for
    FENCE.I.
    [src/jit.c 85-91] Jit *)
Record JitMem := mkJitMem { jm_arena : arr; jm_victim : Z; jm_table : gmap Z JitEntry }.
Record JitState := mkJitState { js_world : World; js_mem : JitMem }.

(** [table[set][way]] *)
Definition jit_entry (m : JitMem) (set way : Z) : JitEntry :=
  default (mkJitEntry 0 0 0 None 0) (jm_table m !! (set * JIT_WAYS + way)).
Definition set_entry (set way : Z) (e : JitEntry) (m : JitMem) : JitMem :=
  mkJitMem (jm_arena m) (jm_victim m) (<[set * JIT_WAYS + way := e]> (jm_table m)).

(** [src/jit.c 101-109] jit_new *)
Definition jit_new_x86 : Jit * JitMem := (mkJit 1 0, mkJitMem ∅ 0 ∅).

Definition on_world {A} (m : st World A) : st JitState A :=
  fun s => let '(a, w) := m (js_world s) in (a, mkJitState w (js_mem s)).

(** Install the code of the block at [pa] for the entry.
    [src/jit.c 610-623] translate *)
Definition install (set way : Z) (code : list Z) (n : Z) (s : JitState) : JitState :=
  let j := w_jit (js_world s) in
  let full := JIT_ARENA <? j_used j + Z.of_nat (length code) in
  let j := if full then jit_flush j else j in
  let m := js_mem s in
  let e := jit_entry m set way in
  let e := mkJitEntry (if full then j_gen j else e_gen e) (e_pa e) (e_va e) (Some (j_used j)) n in
  let m := set_entry set way e (mkJitMem (put_bytes (j_used j) code (jm_arena m)) (jm_victim m) (jm_table m)) in
  mkJitState (set_w_jit (mkJit (j_gen j) (j_used j + Z.of_nat (length code))) (js_world s)) m.

Section Run.
(** The hart, the addresses of its structure and of the helpers, and what a call leaves in
the upper half of rax. *)
Context (h cpu_addr h_alu h_mem junk : Z).

(** [src/jit.c 146-148] jit_h_alu *)
Definition jit_h_alu (inst : Z) : st World Z := r ← cpu_exec_alu h inst; mret (if r : bool then 1 else 0).

(** [src/jit.c 150-162] jit_h_mem *)
Definition jit_h_mem (inst : Z) : st World Z :=
let is_store := opcode inst =? OP_STORE in
c ← gets (hart h);
let va := u64 (reg_read c (rs1 inst) + u64 (if is_store then imm_s inst else imm_i inst)) in
t ← mmu_translate h va (if is_store then ACC_STORE else ACC_LOAD);
b ← gets w_bus;
if match t with Phys pa => b_has_plat b && plat_contains pa | Fault _ => false end then mret 3
else r ← cpu_exec_mem h inst; mret (if r.1 : bool then 1 else 0).

(** The CPU structure as the generated code addresses it. *)
Definition cpu_load (off : Z) (w : World) : option Z :=
let c := hart h w in
if (0 <=? off) && (off <? 256) && (off mod 8 =? 0) then Some (c_regs c).[off / 8]
else if off =? PCOFF then Some (c_pc c)
else if off =? IROFF then Some (c_instret c)
else None.
Definition cpu_store (off v : Z) (w : World) : option World :=
if (0 <=? off) && (off <? 256) && (off mod 8 =? 0) then
Some (upd_hart h (fun c => set_c_regs (aset (off / 8) v (c_regs c)) c) w)
else if off =? PCOFF then Some (upd_hart h (set_c_pc v) w)
else if off =? IROFF then Some (upd_hart h (set_c_instret v) w)
else None.
#[local] Instance cpu_env : HostEnv World := {|
load64 a w := cpu_load (u64 (a - cpu_addr)) w;
load32 a w := u32 <$> cpu_load (u64 (a - cpu_addr)) w;
store64 a v w := cpu_store (u64 (a - cpu_addr)) v w;
call_fn f a i w :=
if negb (a =? cpu_addr) then None
else if f =? h_alu then Some (jit_h_alu i w)
else if f =? h_mem then Some (jit_h_mem i w)
else None
|}.

(** The bytes the host fetches at an address of the arena. *)
Definition arena_fetch (m : JitMem) (rip : Z) : list Z :=
if (0 <=? rip) && (rip <? JIT_ARENA) then slice (jm_arena m) rip 12 else [].

(** [e->fn(cpu)]
[src/jit.c 658-658] jit_run *)
Definition call_block (m : JitMem) (fn rbx : Z) (w : World) : option (Z * Z * World) :=
call_code junk (Z.to_nat JIT_CODE_MAX) (arena_fetch m) fn cpu_addr rbx w.

(** The ways of a set in the order of the scan.
[src/jit.c 641-646] jit_run *)
Fixpoint find_way (p : Z -> bool) (ways : list Z) : option Z :=
match ways with [] => None | w :: ways => if p w then Some w else find_way p ways end.

(** The live entry for [pa] and [pc], if the set holds one.
[src/jit.c 639-646] jit_run *)
Definition find_block (gen : Z) (m : JitMem) (set pa pc : Z) : option Z :=
find_way (fun w => let e := jit_entry m set w in (e_gen e =? gen) && (e_pa e =? pa) && (e_va e =? pc))
(zseq 0 (Z.to_nat JIT_WAYS)).

(** The way to replace: a stale one, else the next victim.
[src/jit.c 648-650] jit_run *)
Definition choose_way (gen : Z) (set : Z) : st JitState Z := fun s =>
let m := js_mem s in
match find_way (fun w => negb (e_gen (jit_entry m set w) =? gen)) (zseq 0 (Z.to_nat JIT_WAYS)) with
| Some w => (w, s)
| None =>
let v := jm_victim m in
(v .& (JIT_WAYS - 1), mkJitState (js_world s) (mkJitMem (jm_arena m) (u32 (v + 1)) (jm_table m)))
end.

(** [src/jit.c 647-654] jit_run *)
Definition add_block (set pa : Z) : st JitState Z :=
w ← gets js_world;
let c := hart h w in
let gen := j_gen (w_jit w) in
way ← choose_way gen set;
modify (fun s => mkJitState (js_world s) (set_entry set way (mkJitEntry gen pa (c_pc c) None 0) (js_mem s))) ;;
match block_code h_alu h_mem (w_bus w) (c_xlen c =? 64) (c_pc c) pa with
| None => mret way
| Some (code, n) => modify (install set way code n) ;; mret way
end.

(** The steps consumed and what the call leaves in rbx; [None] when the generated code is
stuck.
[src/jit.c 626-659] jit_run *)
Definition jit_run_x86 (max_steps rbx : Z) : st JitState (option (Z * Z)) :=
on_world (bus (modify (set_b_fault false))) ;;
on_world (cpu_upd h (set_c_trapped false)) ;;
consumed ← on_world (cpu_pre_step h);
if consumed : bool then mret (Some (1, rbx))
else
w ← gets js_world;
t ← on_world (mmu_translate h (c_pc (hart h w)) ACC_FETCH);
match t with
| Fault _ => mret (Some (0, rbx))
| Phys pa =>
  w ← gets js_world;
  m ← gets js_mem;
  let set := (pa >> 1) .& (JIT_SETS - 1) in
  way ← match find_block (j_gen (w_jit w)) m set pa (c_pc (hart h w)) with
        | Some way => mret way
        | None => add_block set pa
        end;
  s ← gets id;
  let w := js_world s in
  let e := jit_entry (js_mem s) set way in
  match e_fn e with
  | None => mret (Some (0, rbx))
  | Some fn =>
    if max_steps <? e_ninsn e then mret (Some (0, rbx))
    else if cpu_interrupt_horizon (hart h w) (w_bus w) <? e_ninsn e then mret (Some (0, rbx))
    else match call_block (js_mem s) fn rbx w with
         | None => mret None
         | Some (steps, rbx, w) => modify (fun s => mkJitState w (js_mem s)) ;; mret (Some (steps, rbx))
         end
  end
end.
End Run.
