(* ===== verification/JitCode.v ===== *)
(** * What the emission helpers write

    [emits n m a l]: on a buffer of [n] bytes with room for it, the emission [m] appends the
    encodings of the host instructions [l] and returns [a].  Every encoding decodes to its
    instruction whatever follows. *)

From S2P Require Import Prelude Decode Rvc Device DeviceThms X86 Jit.

(** ** Encodings *)

Definition encoded (p : list Z * Insn) : Prop := forall rest, decode (p.1 ++ rest) = Some (p.2, Z.of_nat (length p.1)).
Definition bytes_of (l : list (list Z * Insn)) : list Z := concat l.*1.
Definition size (l : list (list Z * Insn)) : Z := Z.of_nat (length (bytes_of l)).

Lemma bytes_of_app l l' : bytes_of (l ++ l') = bytes_of l ++ bytes_of l'.
Proof. unfold bytes_of. by rewrite fmap_app, concat_app. Qed.
Lemma size_app l l' : size (l ++ l') = size l + size l'.
Proof. unfold size. rewrite bytes_of_app, length_app. lia. Qed.
Lemma size_nonneg l : 0 <= size l.
Proof. unfold size. lia. Qed.

Definition le (n : nat) (v : Z) : list Z := map (fun i => u8 (v >> (8 * i))) (zseq 0 n).
Lemma le_word_app n v rest : le_word n (le n v ++ rest) = Some (wrap (8 * Z.of_nat n) v).
Proof.
  unfold le. enough (forall i, 0 <= i -> le_word n (map (fun i => u8 (v >> (8 * i))) (zseq i n) ++ rest) = Some (wrap (8 * Z.of_nat n) (v >> (8 * i)))) as H.
  { rewrite H by lia. by rewrite Z.shiftr_0_r. }
  induction n as [|n IH]; intros i Hi; cbn [zseq map app le_word]; [f_equal; zbits|].
  rewrite IH by lia. cbn [mbind option_bind]. f_equal. rewrite <- lor_add.
  - rewrite Nat2Z.inj_succ. zbits.
  - zbits.
Qed.

Lemma length_le n v : length (le n v) = n.
Proof. unfold le. by rewrite length_map, length_zseq. Qed.
Lemma drop_le n v rest : drop n (le n v ++ rest) = rest.
Proof. rewrite <- (length_le n v) at 1. apply drop_app_length. Qed.

(** Evaluate the decoder on known bytes; immediates stay symbolic. *)
Ltac literals :=
  repeat match goal with
  | |- context [u8 ?x] => let v := eval vm_compute in (u8 x) in lazymatch v with Z0 => change (u8 x) with v | Zpos _ => change (u8 x) with v end
  end.
Ltac reduce := lazy -[le_word le app wrap sgn u8 u16 u32 u64 s8 s16 s32 s64 Z.of_nat drop].
(** ** Emission *)

Definition writes (m : st Code unit) (bs : list Z) : Prop := forall c,
  cd_fail c = false -> cd_len c + Z.of_nat (length bs) <= JIT_CODE_MAX -> m c = (tt, mkCode (cd_buf c ++ bs) false).
Definition emits {A} (n : Z) (m : st Code A) (a : A) (l : list (list Z * Insn)) : Prop :=
  Forall encoded l /\ forall c, cd_fail c = false -> cd_len c = n -> n + size l <= JIT_CODE_MAX -> m c = (a, mkCode (cd_buf c ++ bytes_of l) false).

Lemma writes_eb b : writes (eb b) [u8 b].
Proof.
  intros c Hf Hr. unfold eb, modify. cbn [length] in Hr. rewrite (proj2 (Z.ltb_lt _ _)) by lia. by rewrite Hf.
Qed.
Lemma writes_seq m m' bs bs' : writes m bs -> writes m' bs' -> writes (m ;; m') (bs ++ bs').
Proof.
  intros H H' c Hf Hr. rewrite length_app in Hr. unfold mbind, st_bind. rewrite H by (done || lia).
  rewrite H'; [by cbn; rewrite app_assoc|done|]. unfold cd_len in *. cbn. rewrite length_app. lia.
Qed.
Lemma writes_e32 v : writes (e32 v) (le 4 v).
Proof.
  change (le 4 v) with ([u8 (v >> 0)] ++ [u8 (v >> 8)] ++ [u8 (v >> 16)] ++ [u8 (v >> 24)]). rewrite Z.shiftr_0_r.
  repeat (apply writes_seq; [apply writes_eb|]). apply writes_eb.
Qed.
Lemma le_split v : le 8 v = le 4 (u32 v) ++ le 4 (u32 (v >> 32)).
Proof. unfold le. cbn [zseq map app]. repeat (apply (f_equal2 cons); [zbits|]). done. Qed.
Lemma writes_e64 v : writes (e64 v) (le 8 v).
Proof. rewrite le_split. apply writes_seq; apply writes_e32. Qed.
Lemma writes_nothing : writes (mret tt) [].
Proof. intros [buf f] Hf _. cbn in *. by rewrite app_nil_r, Hf. Qed.

Lemma emits_insn n m bs i : writes m bs -> encoded (bs, i) -> emits n m tt [(bs, i)].
Proof.
  intros H He. split; [by repeat constructor|]. intros c Hf Hn Hr. rewrite H; [|done|].
  - unfold bytes_of. cbn. by rewrite app_nil_r.
  - unfold size, bytes_of in Hr. cbn in Hr. rewrite app_nil_r in Hr. lia.
Qed.
Lemma emits_seq {A} n m (m' : st Code A) a l l' : emits n m tt l -> emits (n + size l) m' a l' -> emits n (m ;; m') a (l ++ l').
Proof.
  intros [He H] [He' H']. split; [by apply Forall_app|]. intros c Hf Hn Hr. rewrite size_app in Hr. pose proof (size_nonneg l').
  unfold mbind, st_bind. rewrite H by (done || lia). rewrite H'.
  - cbn. by rewrite bytes_of_app, app_assoc.
  - done.
  - unfold cd_len, size in *. cbn. rewrite length_app. lia.
  - lia.
Qed.
Lemma emits_ret {A} n (a : A) : emits n (mret a) a [].
Proof. split; [constructor|]. intros [buf f] Hf _ _. cbn in *. by rewrite app_nil_r, Hf. Qed.
Lemma emits_when n (b : bool) m l : (b = true -> emits n m tt l) -> emits n (when b m) tt (if b then l else []).
Proof. destruct b; cbn; [auto|intros _; apply emits_ret]. Qed.

(** *** One host instruction per helper *)

Definition k_ld (r off : Z) := ([0x48; 0x8B; u8 (0x80 .| (r << 3) .| 3)] ++ le 4 off, LD64 r 3 (u32 off)).
Definition k_ld32 (r off : Z) := ([0x8B; u8 (0x80 .| (r << 3) .| 3)] ++ le 4 off, LD32 r 3 (u32 off)).
Definition k_st (off r : Z) := ([0x48; 0x89; u8 (0x80 .| (r << 3) .| 3)] ++ le 4 off, ST64 3 (u32 off) r).
Definition k_imm64 (r v : Z) := ([0x48; u8 (0xB8 + r)] ++ le 8 v, MOV_imm64 r (u64 v)).
Definition alu_code (op : AluOp) : Z :=
  match op with A_add => 0x01 | A_or => 0x09 | A_and => 0x21 | A_sub => 0x29 | A_xor => 0x31 | A_cmp => 0x39 end.
Definition alu_group (op : AluOp) : Z := match op with A_add => 0 | A_or => 1 | A_and => 4 | A_sub => 5 | A_xor => 6 | A_cmp => 7 end.
Definition shift_group (op : ShiftOp) : Z := match op with S_shl => 4 | S_shr => 5 | S_sar => 7 end.
Definition rex (w64 : bool) : list Z := if w64 then [0x48] else [].
Definition k_alu (w64 : bool) (op : AluOp) := (rex w64 ++ [u8 (alu_code op); 0xC8], ALU w64 op 0 1).
Definition k_alui (w64 : bool) (op : AluOp) (imm : Z) :=
  (rex w64 ++ [0x81; u8 (0xC0 .| (alu_group op << 3) .| 0)] ++ le 4 imm, ALU_imm w64 op 0 (u32 imm)).
Definition k_shifti (w64 : bool) (op : ShiftOp) (k : Z) :=
  (rex w64 ++ [0xC1; u8 (0xC0 .| (shift_group op << 3) .| 0)] ++ le 1 k, SHIFT_imm w64 op 0 (u8 k)).
Definition k_shiftcl (w64 : bool) (op : ShiftOp) := (rex w64 ++ [0xD3; u8 (0xC0 .| (shift_group op << 3) .| 0)], SHIFT_cl w64 op 0).
Definition k_sext32 := ([0x48; 0x63; 0xC0], MOVSXD 0 0).
Definition k_setcc (cc : Z) := [([0x0F; u8 (0x90 + cc); 0xC0], SETCC cc 0); ([0x0F; 0xB6; 0xC0], MOVZX8 0 0)].
Definition k_cmov (cc : Z) := ([0x48; 0x0F; u8 (0x40 + cc); 0xC1], CMOV cc 0 1).
Definition k_retire (n : Z) := if n =? 0 then [] else [([0x48; 0x81; 0x83] ++ le 4 IROFF ++ le 4 n, ADD_mem 3 IROFF (u32 n))].
Definition k_ret_steps (n : Z) := ([0xB8] ++ le 4 n, MOV_imm32 0 (u32 n)).
(** The jump at [n] back to the exit at offset 6. *)
Definition k_jmp_epi (n : Z) := ([0xE9] ++ le 4 (u32 (6 - (n + 5))), JMP (s32 (u32 (6 - (n + 5))))).

Ltac decoding :=
  intros rest; cbv beta iota delta [alu_code alu_group shift_group k_alu k_alui k_shifti k_shiftcl rex fst snd]; literals; rewrite <- ?app_assoc; cbn [app]; rewrite ?length_app; cbn [length]; rewrite ?length_le;
  unfold decode; reduce;
  repeat first [progress (rewrite !le_word_app; reduce) | progress (rewrite drop_le; reduce)]; try reflexivity.
Lemma writes_byte b x m bs : u8 b = x -> writes m bs -> writes (eb b ;; m) (x :: bs).
Proof. intros <- H. apply (writes_seq _ _ [_]); [apply writes_eb|done]. Qed.
Lemma writes_last b x : u8 b = x -> writes (eb b) [x].
Proof. intros <-. apply writes_eb. Qed.
Lemma writes_imm8 b : writes (eb b) (le 1 b).
Proof. unfold le. cbn [zseq map]. rewrite Z.shiftr_0_r. apply writes_eb. Qed.
Lemma writes_skip m bs : writes m bs -> writes (mret tt ;; m) bs.
Proof. intros H c. apply H. Qed.
Ltac writing :=
  cbn [app];
  repeat lazymatch goal with
  | |- writes (mret tt ;; _) _ => apply writes_skip
  | |- writes (eb _ ;; _) (_ :: _) => apply writes_byte; [reflexivity|]
  | |- writes (e32 _ ;; _) (le 4 _ ++ _) => apply writes_seq; [apply writes_e32|]
  | |- writes (e32 _) _ => apply writes_e32
  | |- writes (e64 _) _ => apply writes_e64
  | |- writes (eb _) (le 1 _) => apply writes_imm8
  | |- writes (eb _) _ => apply writes_last; reflexivity
  end.

Lemma emits_ld n r off : r = 0 \/ r = 1 -> emits n (x_ld r off) tt [k_ld r off].
Proof. intros Hr. apply emits_insn; [unfold x_ld; writing|destruct Hr as [-> | ->]; decoding]. Qed.
Lemma emits_ld32 n r off : r = 0 \/ r = 1 -> emits n (x_ld32 r off) tt [k_ld32 r off].
Proof. intros Hr. apply emits_insn; [unfold x_ld32; writing|destruct Hr as [-> | ->]; decoding]. Qed.
Lemma emits_st n r off : r = 0 \/ r = 1 -> emits n (x_st off r) tt [k_st off r].
Proof. intros Hr. apply emits_insn; [unfold x_st; writing|destruct Hr as [-> | ->]; decoding]. Qed.
Lemma emits_imm64 n r v : r = 0 \/ r = 1 -> emits n (x_imm64 r v) tt [k_imm64 r v].
Proof. intros Hr. apply emits_insn; [unfold x_imm64; writing|destruct Hr as [-> | ->]; decoding]. Qed.
Lemma emits_sext32 n : emits n x_sext32 tt [k_sext32].
Proof. apply emits_insn; [unfold x_sext32; writing|decoding]. Qed.
Lemma emits_ret_steps n k : emits n (x_ret_steps k) tt [k_ret_steps k].
Proof. apply emits_insn; [unfold x_ret_steps; writing|decoding]. Qed.
Lemma emits_retire n k : emits n (x_retire k) tt (k_retire k).
Proof.
  unfold x_retire, k_retire. destruct (k =? 0); cbn [negb when]; [apply emits_ret|]. apply emits_insn; [writing|decoding].
Qed.
Lemma emits_alu n op : emits n (x_alu (alu_code op) RAX RCX) tt [k_alu true op].
Proof. destruct op; (apply emits_insn; [unfold x_alu, rex; writing|decoding]). Qed.
Lemma emits_alu32 n op : emits n (x_alu32 (alu_code op) RAX RCX) tt [k_alu false op].
Proof. destruct op; (apply emits_insn; [unfold x_alu32, rex; writing|decoding]). Qed.
Lemma emits_alui n op imm : emits n (x_alui (alu_group op) RAX imm) tt [k_alui true op imm].
Proof. destruct op; (apply emits_insn; [unfold x_alui, rex; writing|decoding]). Qed.
Lemma emits_alui32 n op imm : emits n (x_alui32 (alu_group op) RAX imm) tt [k_alui false op imm].
Proof. destruct op; (apply emits_insn; [unfold x_alui32, rex; writing|decoding]). Qed.
Lemma emits_shifti n (w64 : bool) op k : emits n (x_shifti (shift_group op) RAX w64 k) tt [k_shifti w64 op k].
Proof. destruct w64, op; (apply emits_insn; [unfold x_shifti, rex; cbn [when]; writing|decoding]). Qed.
Lemma emits_shiftcl n (w64 : bool) op : emits n (x_shiftcl (shift_group op) RAX w64) tt [k_shiftcl w64 op].
Proof. destruct w64, op; (apply emits_insn; [unfold x_shiftcl, rex; cbn [when]; writing|decoding]). Qed.
Lemma emits_setcc n cc : cc = 0x2 \/ cc = 0xc -> emits n (x_setcc (0x90 + cc)) tt (k_setcc cc).
Proof.
  intros Hc. split; [destruct Hc as [-> | ->]; (repeat constructor; decoding)|].
  intros c Hf Hn Hr. enough (writes (x_setcc (0x90 + cc)) (bytes_of (k_setcc cc))) as H by (apply H; [done|unfold size in Hr; lia]).
  destruct Hc as [-> | ->]; unfold x_setcc, k_setcc, bytes_of; cbn [fmap list_fmap concat fst]; writing.
Qed.
Lemma emits_cmov n cc : cc ∈ [0x2; 0x3; 0x4; 0x5; 0xc; 0xd] -> emits n (x_cmov (0x40 + cc) RAX RCX) tt [k_cmov cc].
Proof.
  intros Hc. repeat (apply elem_of_cons in Hc as [-> |Hc]); [..|by apply elem_of_nil in Hc]; (apply emits_insn; [unfold x_cmov; writing|decoding]).
Qed.

(** *** Exits and calls *)

Lemma writes_at_jmp n c : cd_fail c = false -> cd_len c = n -> n + 5 <= JIT_CODE_MAX -> x_jmp_epi c = (tt, mkCode (cd_buf c ++ (k_jmp_epi n).1) false).
Proof.
  intros Hf Hn Hr. unfold x_jmp_epi, mbind, st_bind. rewrite (writes_eb 0xE9 c Hf) by (cbn [length]; lia). unfold gets. cbn [fst].
  assert (cd_len (mkCode (cd_buf c ++ [u8 0xE9]) false) = n + 1) as El by (unfold cd_len in *; cbn; rewrite length_app; cbn; lia).
  rewrite El. rewrite writes_e32; [|done|rewrite El, length_le; lia]. cbn [cd_buf]. rewrite <- app_assoc. by replace (n + 1 + 4) with (n + 5) by lia.
Qed.
Lemma enc_jmp v : encoded ([0xE9] ++ le 4 v, JMP (s32 v)).
Proof. decoding. do 3 f_equal. apply (sgn_wrap 32 32). lia. Qed.
Lemma enc_je d : 0 <= d <= 127 -> encoded ([0x74] ++ le 1 d, JE d).
Proof. intros Hd. decoding. do 3 f_equal. transitivity (sgn 8 d); [apply (sgn_wrap 8 8); lia|apply sgn_small; lia]. Qed.
Lemma emits_jmp_epi n : emits n x_jmp_epi tt [k_jmp_epi n].
Proof.
  split; [repeat constructor; apply enc_jmp|].
  - intros c Hf Hn Hr. rewrite (writes_at_jmp n c Hf Hn).
    + unfold bytes_of. cbn [fmap list_fmap concat]. by rewrite app_nil_r.
    + unfold size, bytes_of in Hr. cbn [fmap list_fmap concat] in Hr. by rewrite app_nil_r in Hr.
Qed.

(** Leave the block with [s] steps, [k] instructions having retired. *)
Definition k_leave (n k s : Z) := k_retire k ++ [k_ret_steps s; k_jmp_epi (n + size (k_retire k) + 5)].
Lemma size_cons b i l : size ((b, i) :: l) = Z.of_nat (length b) + size l.
Proof. unfold size, bytes_of. cbn [fmap list_fmap concat fst]. rewrite length_app. lia. Qed.
Lemma size_leave n k s : size (k_leave n k s) = size (k_retire k) + 10.
Proof. unfold k_leave. rewrite size_app. unfold k_ret_steps, k_jmp_epi. rewrite !size_cons, !length_app, !length_le. change (size []) with 0. cbn [length]. lia. Qed.
Lemma size_retire k : 0 <= size (k_retire k) <= 11.
Proof. unfold k_retire. destruct (k =? 0); [by vm_compute|]. rewrite size_cons, !length_app, !length_le. change (size []) with 0. cbn [length]. lia. Qed.
Lemma emits_leave n k s : emits n (x_retire k ;; x_ret_steps s ;; x_jmp_epi) tt (k_leave n k s).
Proof.
  apply emits_seq; [apply emits_retire|]. apply (emits_seq _ _ _ _ [_]); [apply emits_ret_steps|].
  unfold k_ret_steps. rewrite size_cons, length_app, length_le. apply emits_jmp_epi.
Qed.

Lemma emits_ext {A} n (m m' : st Code A) a l : (forall c, m c = m' c) -> emits n m' a l -> emits n m a l.
Proof. intros E [He H]. split; [done|]. intros c ???. rewrite E. by apply H. Qed.

(** A forward jump over what follows. *)
Definition k_je (l : list (list Z * Insn)) := ([0x74] ++ le 1 (size l), JE (size l)).
Lemma emits_over n m l : size l <= 127 -> emits (n + 2) m tt l -> emits n (at_ ← x_je8; m ;; x_patch8 at_) tt (k_je l :: l).
Proof.
  intros Hs [He H]. pose proof (size_nonneg l) as H0. split.
  - constructor; [|done]. apply enc_je. lia.
  - intros c Hf Hn Hr. unfold k_je in Hr. rewrite size_cons, length_app, length_le in Hr. cbn [length] in Hr.
    unfold mbind, st_bind, x_je8. unfold mbind, st_bind. rewrite (writes_eb 0x74 c Hf) by (cbn [length]; lia). unfold gets.
    assert (cd_len (mkCode (cd_buf c ++ [u8 0x74]) false) = n + 1) as El by (unfold cd_len in *; cbn; rewrite length_app; cbn; lia).
    rewrite (writes_eb 0 (mkCode _ false)); [|done|rewrite El; cbn [length]; lia]. rewrite El. cbn [cd_buf mret st_ret]. rewrite <- app_assoc. cbn [app].
    assert (cd_len (mkCode (cd_buf c ++ [u8 0x74; u8 0]) false) = n + 2) as El2 by (unfold cd_len in *; cbn; rewrite length_app; cbn; lia).
    rewrite H by (done || lia). unfold x_patch8, modify. cbn [cd_buf].
    assert (cd_len (mkCode ((cd_buf c ++ [u8 0x74; u8 0]) ++ bytes_of l) false) = n + 2 + size l) as El3
      by (unfold cd_len, size in *; cbn in *; rewrite length_app; lia).
    rewrite El3. replace (n + 2 + size l - (n + 1 + 1)) with (size l) by lia. unfold u32. rewrite (wrap_small 32) by (unfold rng; lia).
    rewrite (proj2 (Z.leb_gt _ _)), (proj2 (Z.ltb_ge _ _)) by (unfold JIT_CODE_MAX in *; lia). cbn [orb cd_fail]. f_equal. f_equal.
    replace (Z.to_nat (n + 1)) with (length (cd_buf c) + 1)%nat by (unfold cd_len in Hn; lia). rewrite <- app_assoc.
    rewrite insert_app_r. done.
Qed.

Definition k_call (fn inst pc : Z) :=
  [k_imm64 0 pc; k_st PCOFF 0; ([0x48; 0x89; 0xDF], MOV 7 3); ([0xBE] ++ le 4 inst, MOV_imm32 6 (u32 inst));
   ([0x49; 0xBA] ++ le 8 fn, MOV_imm64 10 (u64 fn)); ([0x41; 0xFF; 0xD2], CALL 10); ([0x85; 0xC0], TEST32 0 0)].
(** Two nestings of the same sequence. *)
Ltac reassoc :=
  let c := fresh "c" in intros c; unfold mbind, st_bind; cbv beta;
  repeat match goal with |- context [match ?m ?c with (_, _) => _ end] => is_var c; destruct (m c) as [? ?] end; reflexivity.
(** An instruction of several [eb] calls in the middle of an emission. *)
Lemma emits_group {A} n m bs i (m' m'' : st Code A) a l : writes m bs -> encoded (bs, i) -> (forall c, m'' c = (m ;; m') c) ->
  emits (n + Z.of_nat (length bs)) m' a l -> emits n m'' a ((bs, i) :: l).
Proof.
  intros Hw He E H. apply (emits_ext _ _ (m ;; m')); [done|]. apply (emits_seq _ _ _ _ [_]); [by apply emits_insn|].
  rewrite size_cons. change (size []) with 0. by rewrite Z.add_0_r.
Qed.
Lemma emits_call n fn inst pc : emits n (x_call fn inst pc) tt (k_call fn inst pc).
Proof.
  unfold x_call, k_call. apply (emits_seq _ _ _ _ [_]); [apply emits_imm64; by left|]. apply (emits_seq _ _ _ _ [_]); [apply emits_st; by left|].
  apply (emits_group _ (eb 0x48 ;; eb 0x89 ;; eb 0xDF) _ _ (eb 0xBE ;; e32 inst ;; eb 0x49 ;; eb 0xBA ;; e64 fn ;; eb 0x41 ;; eb 0xFF ;; eb 0xD2 ;; eb 0x85 ;; eb 0xC0));
    [writing|decoding|reassoc|].
  apply (emits_group _ (eb 0xBE ;; e32 inst) _ _ (eb 0x49 ;; eb 0xBA ;; e64 fn ;; eb 0x41 ;; eb 0xFF ;; eb 0xD2 ;; eb 0x85 ;; eb 0xC0));
    [writing|decoding|reassoc|].
  apply (emits_group _ (eb 0x49 ;; eb 0xBA ;; e64 fn) _ _ (eb 0x41 ;; eb 0xFF ;; eb 0xD2 ;; eb 0x85 ;; eb 0xC0));
    [writing|decoding|reassoc|].
  apply (emits_group _ (eb 0x41 ;; eb 0xFF ;; eb 0xD2) _ _ (eb 0x85 ;; eb 0xC0)); [writing|decoding|reassoc|].
  apply emits_insn; [writing|decoding].
Qed.
Lemma size_call fn inst pc : size (k_call fn inst pc) = 40.
Proof. unfold k_call, k_imm64, k_st. rewrite !size_cons, !length_app, !length_le. done. Qed.

Definition k_glue_alu (n k : Z) := k_je (k_leave (n + 2) k (k + 1)) :: k_leave (n + 2) k (k + 1).
Lemma emits_glue_alu n k : emits n (glue_alu k) tt (k_glue_alu n k).
Proof.
  eapply (emits_ext _ _ (at_ ← x_je8; (x_retire k ;; x_ret_steps (k + 1) ;; x_jmp_epi) ;; x_patch8 at_)).
  - unfold glue_alu. reassoc.
  - apply emits_over; [rewrite size_leave; pose proof (size_retire k); lia|apply emits_leave].
Qed.
Definition k_abort (n k : Z) := let l := k_leave (n + 2) k (k + 1) in k_je l :: l ++ k_leave (n + 2 + size l) k k.
Definition k_glue_mem (n k : Z) := let l := ([0x83; 0xF8; 0x03], ALU_imm false A_cmp 0 3) :: k_abort (n + 5) k in k_je l :: l.
Lemma size_abort n k : size (k_abort n k) = 2 + 2 * (size (k_retire k) + 10).
Proof. unfold k_abort, k_je. rewrite size_cons, size_app, !size_leave, length_app, length_le. cbn [length]. lia. Qed.
Lemma emits_glue_mem n k : emits n (glue_mem k) tt (k_glue_mem n k).
Proof.
  pose proof (size_retire k). set (leave s := x_retire k ;; x_ret_steps s ;; x_jmp_epi).
  eapply (emits_ext _ _ (cont ← x_je8; ((eb 0x83 ;; eb 0xF8 ;; eb 0x03) ;; (abort_ ← x_je8; leave (k + 1) ;; x_patch8 abort_) ;; leave k) ;; x_patch8 cont)).
  { unfold glue_mem, leave. reassoc. }
  apply emits_over.
  { rewrite size_cons, size_abort. cbn [length]. lia. }
  apply (emits_seq _ _ _ _ [_] (k_abort _ _)); [apply emits_insn; [writing|decoding]|].
  rewrite size_cons. change (size []) with 0. cbn [length]. replace (n + 2 + (Z.of_nat 3 + 0)) with (n + 5) by lia.
  unfold k_abort; cbv zeta. set (l := k_leave _ _ (k + 1)). apply (emits_seq _ _ _ _ (k_je l :: l)).
  - apply (emits_over _ (leave (k + 1)) l); [|].
    + unfold l. rewrite size_leave. lia.
    + apply (emits_leave (n + 5 + 2) k (k + 1)).
  - unfold k_je. rewrite size_cons, length_app, length_le. cbn [length].
    replace (n + 5 + (Z.of_nat (1 + 1) + size l)) with (n + 5 + 2 + size l) by lia. apply (emits_leave _ k k).
Qed.
Lemma size_glue_alu n k : size (k_glue_alu n k) <= 23.
Proof. unfold k_glue_alu, k_je. rewrite size_cons, size_leave, length_app, length_le. cbn [length]. pose proof (size_retire k). lia. Qed.
Lemma size_glue_mem n k : size (k_glue_mem n k) <= 49.
Proof. unfold k_glue_mem, k_je. rewrite !size_cons, size_abort, length_app, length_le. cbn [length]. pose proof (size_retire k). lia. Qed.
