(* ===== verification/JitExec.v ===== *)
(** * Running the emitted code

    Host execution of located code: straight-line stretches, exits through the epilogue and
    the helper calls, and the accesses to the CPU structure in between. *)

From S2P Require Import Prelude Decode Rvc Device Memory Cache Cpu Mmu See Trap Alu Exec Fpu Step CpuInv AluSem AluThms X86 Jit JitCode.

(** ** Located code *)

(** The chunks [l] lie at [p]. *)
Fixpoint located (code : Z -> list Z) (p : Z) (l : list (list Z * Insn)) : Prop :=
  match l with
  | [] => True
  | c :: l => (exists rest, code p = c.1 ++ rest) /\ located code (p + Z.of_nat (length c.1)) l
  end.

Lemma located_app code l l' : forall p, located code p (l ++ l') <-> located code p l /\ located code (p + size l) l'.
Proof.
  induction l as [|[b i] l IH]; intros p; cbn [app located fst].
  - change (size []) with 0. rewrite Z.add_0_r. tauto.
  - rewrite IH, size_cons, Z.add_assoc. tauto.
Qed.

(** ** Host arithmetic *)

Lemma sign_bit r : rng 64 r -> Z.testbit r 63 = (sgn 64 r <? 0).
Proof.
  intros Hr. rewrite (sgn_wrap_cases 64 r) by (done || lia). unfold rng in Hr. destruct (Z.ltb_spec r (2 ^ (64 - 1))).
  - rewrite (rng_testbit 63 r 63) by (unfold rng; lia). symmetry. apply Z.ltb_ge. lia.
  - rewrite (proj2 (Z.ltb_lt (r - 2 ^ 64) 0)) by lia. apply Z.testbit_true; [lia|].
    by replace (r / 2 ^ 63) with 1 by (apply (Z.div_unique _ _ _ (r - 2 ^ 63)); lia).
Qed.
(** The signed value of a difference is the difference of the signed values, give or take [2^64]. *)
Lemma sgn_sub a b : exists k, sgn 64 (wrap 64 (a - b)) = sgn 64 a - sgn 64 b + k * 2 ^ 64 /\
  (sgn 64 (wrap 64 (a - b)) = sgn 64 a - sgn 64 b -> k = 0).
Proof.
  exists ((sgn 64 (wrap 64 (a - b)) - (sgn 64 a - sgn 64 b)) / 2 ^ 64). split; [|intros ->; by rewrite Z.sub_diag].
  assert ((sgn 64 (wrap 64 (a - b)) - (sgn 64 a - sgn 64 b)) mod 2 ^ 64 = 0) as H.
  { rewrite <- wrap_mod by lia. change (eqw 64 (sgn 64 (wrap 64 (a - b)) - (sgn 64 a - sgn 64 b)) 0). rewrite !eqw_sgn, eqw_wrap by (lia || done). by rewrite Z.sub_diag. }
  apply Z.div_exact in H; lia.
Qed.
Lemma cmp_less a b : rng 64 a -> rng 64 b -> holds 0xc (alu_flags A_cmp 64 a b) = Some (s64 a <? s64 b).
Proof.
  intros Ha Hb. unfold holds, alu_flags. cbn [Z.eqb Pos.eqb alu_value fl_s fl_o]. f_equal. unfold s64. change (64 - 1) with 63.
  pose proof (sgn_range 64 a ltac:(lia)). pose proof (sgn_range 64 b ltac:(lia)). pose proof (sgn_range 64 (wrap 64 (a - b)) ltac:(lia)).
  destruct (sgn_sub a b) as (k & Ek & Hk). rewrite sign_bit by (apply wrap_range; lia).
  destruct (Z.eqb_spec (sgn 64 (wrap 64 (a - b))) (sgn 64 a - sgn 64 b)) as [E|E]; cbn [negb].
  - rewrite xorb_false_r, E. destruct (Z.ltb_spec (sgn 64 a - sgn 64 b) 0), (Z.ltb_spec (sgn 64 a) (sgn 64 b)); lia.
  - rewrite xorb_true_r. destruct (Z.ltb_spec (sgn 64 (wrap 64 (a - b))) 0), (Z.ltb_spec (sgn 64 a) (sgn 64 b)); cbn; lia.
Qed.

Section Exec.
Context (h cpu_addr h_alu h_mem junk : Z).
#[local] Existing Instance cpu_env.
#[local] Instance env : HostEnv World := cpu_env h cpu_addr h_alu h_mem.
#[local] Abbreviation Host := (Host World).
#[local] Abbreviation run := (run_from (env := env) junk).
#[local] Abbreviation exec1 := (execute (env := env) junk).

(** [c] host instructions lead from [p] to [p']. *)
Definition reach (code : Z -> list Z) (c : nat) (p : Z) (s : Host) (p' : Z) (s' : Host) : Prop :=
forall f, run (c + f) code p s = run f code p' s'.
Lemma reach_refl code p s : reach code 0 p s p s.
Proof. done. Qed.
Lemma reach_trans code c c' p s p' s' p'' s'' : reach code c p s p' s' -> reach code c' p' s' p'' s'' -> reach code (c + c') p s p'' s''.
Proof. intros H H' f. by rewrite <- Nat.add_assoc, H, H'. Qed.
Lemma reach_one code p b i s s' j : encoded (b, i) -> (exists rest, code p = b ++ rest) -> exec1 i s = Next s' j ->
reach code 1 p s (p + Z.of_nat (length b) + j) s'.
Proof. intros He [rest Hc] Hx f. cbn [run_from Nat.add]. rewrite Hc. specialize (He rest). cbn [fst snd] in He. by rewrite He, Hx. Qed.

(** The straight-line effect of a list of instructions. *)
Fixpoint straight (l : list (list Z * Insn)) (s : Host) : option Host :=
match l with
| [] => Some s
| c :: l => match exec1 c.2 s with Next s' 0 => straight l s' | _ => None end
end.
Lemma straight_app l l' s : straight (l ++ l') s = s' ← straight l s; straight l' s'.
Proof. revert s. induction l as [|c l IH]; intros s; [done|]. cbn. destruct (exec1 c.2 s) as [s' [|?|?]|?|]; done. Qed.
Lemma reach_straight code l : forall p s s', Forall encoded l -> located code p l -> straight l s = Some s' -> reach code (length l) p s (p + size l) s'.
Proof.
induction l as [|[b i] l IH]; intros p s s' He Hl Hs.
- cbn in Hs. injection Hs as <-. change (size []) with 0. rewrite Z.add_0_r. apply reach_refl.
- cbn [straight snd] in Hs. destruct (exec1 i s) as [s1 [|?|?]|?|] eqn:Ei; try done. apply Forall_cons_1 in He as [He Hes]. destruct Hl as [Hc Hl]. cbn [fst] in *.
pose proof (reach_one code p b i s s1 0 He Hc Ei) as H1. rewrite Z.add_0_r in H1. rewrite size_cons, Z.add_assoc.
exact (reach_trans _ 1 (length l) _ _ _ _ _ _ H1 (IH _ _ _ Hes Hl Hs)).
Qed.

(** ** The CPU structure *)

Lemma field_addr off : 0 <= off < 2 ^ 31 -> u64 (u64 (cpu_addr + s32 (u32 off)) - cpu_addr) = off.
Proof.
intros Ho. unfold s32, u32, u64. rewrite sgn_wrap, sgn_small, wrap_sub_l by lia. replace (cpu_addr + off - cpu_addr) with off by lia.
apply wrap_small; [lia|unfold rng; lia].
Qed.
Lemma load_reg i w : 0 <= i < 32 -> cpu_load h (ROFF i) w = Some (c_regs (hart h w)).[i].
Proof.
intros Hi. unfold cpu_load, ROFF, u32. rewrite wrap_small by (lia || (unfold rng; lia)).
rewrite (proj2 (Z.leb_le _ _)), (proj2 (Z.ltb_lt _ _)) by lia. replace (0 + i * 8) with (i * 8) by lia. rewrite Z.mod_mul, Z.div_mul by lia. done.
Qed.
Definition put (i v : Z) (w : World) : World := if i =? 0 then w else upd_hart h (fun c => set_c_regs (aset i v (c_regs c)) c) w.
Lemma store_reg i v w : 0 < i < 32 -> cpu_store h (ROFF i) v w = Some (put i v w).
Proof.
intros Hi. unfold cpu_store, put, ROFF, u32. rewrite wrap_small by (lia || (unfold rng; lia)).
rewrite (proj2 (Z.leb_le _ _)), (proj2 (Z.ltb_lt _ _)), (proj2 (Z.eqb_neq i 0)) by lia. replace (0 + i * 8) with (i * 8) by lia.
rewrite Z.mod_mul, Z.div_mul by lia. done.
Qed.
Lemma ROFF_range i : 0 <= i < 32 -> 0 <= ROFF i < 2 ^ 31.
Proof. intros Hi. unfold ROFF, u32. rewrite wrap_small by (lia || (unfold rng; lia)). lia. Qed.

Section State.
Context (R : gmap Z Z) (F : option Flags) (S : list Z) (W : World) (HR : R !! 3 = Some cpu_addr).

Lemma x_load r i : 0 <= i < 32 -> exec1 (k_ld r (ROFF i)).2 (mkHost R F S W) = Next (mkHost (<[r := (c_regs (hart h W)).[i]]> R) F S W) 0.
Proof.
intros Hi. unfold k_ld, execute, ea. cbn [snd x_regs x_mem]. rewrite HR. cbn [mbind option_bind load64 env cpu_env].
rewrite field_addr, load_reg by (by apply ROFF_range || done). done.
Qed.
Lemma x_load32 r i : 0 <= i < 32 -> exec1 (k_ld32 r (ROFF i)).2 (mkHost R F S W) = Next (mkHost (<[r := u32 (c_regs (hart h W)).[i]]> R) F S W) 0.
Proof.
intros Hi. unfold k_ld32, execute, ea. cbn [snd x_regs x_mem]. rewrite HR. cbn [mbind option_bind load32 env cpu_env].
rewrite field_addr, load_reg by (by apply ROFF_range || done). done.
Qed.
Lemma x_store r i v : 0 < i < 32 -> R !! r = Some v -> exec1 (k_st (ROFF i) r).2 (mkHost R F S W) = Next (mkHost R F S (put i v W)) 0.
Proof.
intros Hi Hv. unfold k_st, execute, ea. cbn [snd x_regs x_mem]. rewrite HR, Hv. cbn [mbind option_bind store64 env cpu_env].
rewrite field_addr, store_reg by ((apply ROFF_range; lia) || done). done.
Qed.
Lemma x_store_pc r v : R !! r = Some v -> exec1 (k_st PCOFF r).2 (mkHost R F S W) = Next (mkHost R F S (upd_hart h (set_c_pc v) W)) 0.
Proof.
intros Hv. unfold k_st, execute, ea. cbn [snd x_regs x_mem]. rewrite HR, Hv. cbn [mbind option_bind store64 env cpu_env].
rewrite field_addr by (unfold PCOFF; lia). done.
Qed.
(** Add [n] retired instructions. *)
Definition credit (n : Z) : World -> World := upd_hart h (fun c => set_c_instret (u64 (c_instret c + n)) c).
Lemma x_credit n : 0 < n < 2 ^ 31 -> rng 64 (c_instret (hart h W)) ->
exists F', straight (k_retire n) (mkHost R F S W) = Some (mkHost R F' S (credit n W)).
Proof.
intros Hn Hi. unfold k_retire. rewrite (proj2 (Z.eqb_neq n 0)) by lia. cbn [straight snd]. unfold execute, ea. cbn [x_regs x_mem]. rewrite HR.
cbn [mbind option_bind load64 store64 env cpu_env]. change IROFF with (u32 IROFF) at 1 2. rewrite field_addr by (unfold IROFF; lia).
change (cpu_load h IROFF W) with (Some (c_instret (hart h W))). cbn [mbind option_bind].
assert (alu_value A_add 64 (c_instret (hart h W)) (wrap 64 (s32 (u32 n))) = u64 (c_instret (hart h W) + n)) as ->.
{ unfold alu_value, s32, u32. rewrite (sgn_wrap 32 32), sgn_small, wrap_add_r by lia. done. }
by eexists.
Qed.
End State.

(** ** Values in rax *)

(** [body] replaces [a] in rax by [f a]; with two operands, [b] is in rcx. *)
Definition unary (body : list (list Z * Insn)) (f : Z -> Z) : Prop := forall R F S W a,
R !! 0 = Some a -> exists R' F', straight body (mkHost R F S W) = Some (mkHost R' F' S W) /\ R' !! 0 = Some (f a) /\ R' !! 3 = R !! 3.
Definition binary (body : list (list Z * Insn)) (f : Z -> Z -> Z) : Prop := forall R F S W a b,
R !! 0 = Some a -> R !! 1 = Some b ->
exists R' F', straight body (mkHost R F S W) = Some (mkHost R' F' S W) /\ R' !! 0 = Some (f a b) /\ R' !! 3 = R !! 3.

Ltac host := cbn [straight snd app k_alui k_alu k_setcc k_shifti k_shiftcl k_sext32 k_cmov]; unfold execute; cbn [x_regs x_flags x_stack x_mem mbind option_bind].
Ltac regs := rewrite ?lookup_insert_eq, ?lookup_insert_ne by done; cbn [mbind option_bind].

Lemma unary_seq l l' f g : unary l f -> unary l' g -> unary (l ++ l') (fun a => g (f a)).
Proof.
intros H H' R F S W a Ha. destruct (H R F S W a Ha) as (R1 & F1 & E1 & Ha1 & H31). destruct (H' R1 F1 S W _ Ha1) as (R2 & F2 & E2 & Ha2 & H32).
exists R2, F2. rewrite straight_app, E1. cbn. split; [done|]. split; [done|]. congruence.
Qed.
Lemma binary_seq l l' f g : binary l f -> unary l' g -> binary (l ++ l') (fun a b => g (f a b)).
Proof.
intros H H' R F S W a b Ha Hb. destruct (H R F S W a b Ha Hb) as (R1 & F1 & E1 & Ha1 & H31). destruct (H' R1 F1 S W _ Ha1) as (R2 & F2 & E2 & Ha2 & H32).
exists R2, F2. rewrite straight_app, E1. cbn. split; [done|]. split; [done|]. congruence.
Qed.
Lemma unary_alui w64 op imm : op <> A_cmp -> unary [k_alui w64 op imm] (fun a => alu_value op (width w64) (wrap (width w64) a) (wrap (width w64) (s32 (u32 imm)))).
Proof. intros Hop R F S W a Ha. host. rewrite Ha. cbn [mbind option_bind]. destruct op; try done; (do 2 eexists; split; [done|]; by regs). Qed.
Lemma unary_shifti w64 op k : unary [k_shifti w64 op k] (fun a => shift_value op (width w64) (wrap (width w64) a) (u8 k)).
Proof. intros R F S W a Ha. host. rewrite Ha. do 2 eexists; split; [done|]. cbn. by regs. Qed.
Lemma unary_sext32 : unary [k_sext32] (fun a => u64 (s32 a)).
Proof. intros R F S W a Ha. host. rewrite Ha. do 2 eexists; split; [done|]. cbn. by regs. Qed.
Lemma binary_alu w64 op : op <> A_cmp -> binary [k_alu w64 op] (fun a b => alu_value op (width w64) (wrap (width w64) a) (wrap (width w64) b)).
Proof. intros Hop R F S W a b Ha Hb. host. rewrite Ha, Hb. cbn [mbind option_bind]. destruct op; try done; (do 2 eexists; split; [done|]; by regs). Qed.
Lemma binary_shiftcl w64 op : binary [k_shiftcl w64 op] (fun a b => shift_value op (width w64) (wrap (width w64) a) (u8 b)).
Proof. intros R F S W a b Ha Hb. host. rewrite Ha, Hb. do 2 eexists; split; [done|]. cbn. by regs. Qed.
(** Materialise a condition. *)
Lemma setcc_value v (b : bool) : u8 ((v .& u64 (Z.lnot 0xff)) .| (if b then 1 else 0)) = if b then 1 else 0.
Proof. change 0xff with (Z.ones 8). change 1 with (Z.ones 1). destruct b; zbits. Qed.
Lemma straight_setcc cc f b R S W v : holds cc f = Some b -> R !! 0 = Some v ->
exists R', straight (k_setcc cc) (mkHost R (Some f) S W) = Some (mkHost R' (Some f) S W) /\ R' !! 0 = Some (if b : bool then 1 else 0) /\ R' !! 3 = R !! 3.
Proof.
intros Hc Hv. host. rewrite Hc, Hv. cbn [mbind option_bind]. unfold go, set_reg. cbn [or_stuck default from_option id x_regs x_flags x_stack x_mem]. 
regs. eexists. split; [done|]. regs. by rewrite setcc_value.
Qed.
Lemma unary_cmp imm cc g : (forall a, holds cc (alu_flags A_cmp 64 (wrap 64 a) (wrap 64 (s32 (u32 imm)))) = Some (g a)) ->
unary (k_alui true A_cmp imm :: k_setcc cc) (fun a => if g a : bool then 1 else 0).
Proof.
intros Hg R F S W a Ha. destruct (straight_setcc cc _ _ R S W a (Hg a) Ha) as (R' & E & H0 & H3). exists R'. eexists. split; [|done].
cbn [straight snd k_alui]. unfold execute. cbn [x_regs]. rewrite Ha. apply E.
Qed.
Lemma binary_cmp cc g : (forall a b, holds cc (alu_flags A_cmp 64 (wrap 64 a) (wrap 64 b)) = Some (g a b)) ->
binary (k_alu true A_cmp :: k_setcc cc) (fun a b => if g a b : bool then 1 else 0).
Proof.
intros Hg R F S W a b Ha Hb. destruct (straight_setcc cc _ _ R S W a (Hg a b) Ha) as (R' & E & H0 & H3). exists R'. eexists. split; [|done].
cbn [straight snd k_alu]. unfold execute. cbn [x_regs]. rewrite Ha, Hb. apply E.
Qed.

(** ** Inline instructions *)

(** [l] turns the machine [W] into [W']. *)
Definition does (l : list (list Z * Insn)) (W W' : World) : Prop := forall R F S, R !! 3 = Some cpu_addr ->
exists R' F', straight l (mkHost R F S W) = Some (mkHost R' F' S W') /\ R' !! 3 = Some cpu_addr.

Definition k_put (rv64 : bool) (rdn : Z) (sext : bool) :=
(if negb rv64 && sext then [k_sext32] else []) ++ (if negb (rdn =? 0) then [k_st (ROFF rdn) 0] else []).
Lemma emits_put_rd n rv64 rdn sext : emits n (put_rd rv64 rdn sext) tt (k_put rv64 rdn sext).
Proof. apply emits_seq; apply emits_when; intros _; [apply emits_sext32|apply emits_st; by left]. Qed.
Lemma straight_store R F S W i v : 0 <= i < 32 -> R !! 0 = Some v -> R !! 3 = Some cpu_addr ->
straight (if negb (i =? 0) then [k_st (ROFF i) 0] else []) (mkHost R F S W) = Some (mkHost R F S (put i v W)).
Proof.
intros Hi Hv H3. unfold put. destruct (Z.eqb_spec i 0) as [->|Hne]; [done|]. cbn [negb straight].
rewrite (x_store R F S W H3 0 i v) by (done || lia). unfold put. by rewrite (proj2 (Z.eqb_neq i 0)).
Qed.
Lemma straight_put rv64 rdn sext R F S W v : 0 <= rdn < 32 -> R !! 0 = Some v -> R !! 3 = Some cpu_addr ->
exists R' F', straight (k_put rv64 rdn sext) (mkHost R F S W) = Some (mkHost R' F' S (put rdn (if negb rv64 && sext then u64 (s32 v) else v) W)) /\ R' !! 3 = Some cpu_addr.
Proof.
intros Hi Hv H3. unfold k_put. rewrite straight_app. destruct (negb rv64 && sext).
- destruct (unary_sext32 R F S W v Hv) as (R' & F' & E & H0 & H3'). rewrite E. cbn [mbind option_bind]. exists R', F'.
rewrite (straight_store R' F' S W rdn _ Hi H0) by congruence. split; [done|congruence].
- cbn [straight mbind option_bind]. exists R, F. by rewrite (straight_store R F S W rdn _ Hi Hv H3).
Qed.
#[local] Abbreviation reg W i := ((c_regs (hart h W)).[i]).
Lemma does_unary rs rdn rv64 sext body f W : unary body f -> 0 <= rs < 32 -> 0 <= rdn < 32 ->
does (k_ld 0 (ROFF rs) :: body ++ k_put rv64 rdn sext) W (put rdn (if negb rv64 && sext then u64 (s32 (f (reg W rs))) else f (reg W rs)) W).
Proof.
intros Hb Hs Hd R F S H3. cbn [straight]. rewrite x_load by done. cbn [mbind option_bind].
destruct (Hb (<[0 := reg W rs]> R) F S W (reg W rs)) as (R' & F' & E & H0 & H3'); [by rewrite lookup_insert_eq|].
rewrite straight_app, E. cbn [mbind option_bind]. apply straight_put; [done..|]. rewrite H3'. by rewrite lookup_insert_ne.
Qed.
Lemma does_binary rs rt rdn rv64 sext body f W : binary body f -> 0 <= rs < 32 -> 0 <= rt < 32 -> 0 <= rdn < 32 ->
does (k_ld 0 (ROFF rs) :: k_ld 1 (ROFF rt) :: body ++ k_put rv64 rdn sext) W
(put rdn (if negb rv64 && sext then u64 (s32 (f (reg W rs) (reg W rt))) else f (reg W rs) (reg W rt)) W).
Proof.
intros Hb Hs Ht Hd R F S H3. cbn [straight]. rewrite x_load by done.
rewrite x_load; [|by rewrite lookup_insert_ne|done]. cbn [mbind option_bind].
destruct (Hb (<[1 := reg W rt]> (<[0 := reg W rs]> R)) F S W (reg W rs) (reg W rt)) as (R' & F' & E & H0 & H3');
[by rewrite lookup_insert_ne, lookup_insert_eq|by rewrite lookup_insert_eq|].
rewrite straight_app, E. cbn [mbind option_bind]. apply straight_put; [done..|]. rewrite H3'. by rewrite !lookup_insert_ne.
Qed.
(** The word forms load the low halves; the 64-bit machine stores rax as it is. *)
Lemma does_unary32 rs rdn body f W : unary body f -> 0 <= rs < 32 -> 0 <= rdn < 32 ->
does (k_ld32 0 (ROFF rs) :: body ++ k_put true rdn false) W (put rdn (f (u32 (reg W rs))) W).
Proof.
intros Hb Hs Hd R F S H3. cbn [straight]. rewrite x_load32 by done. cbn [mbind option_bind].
destruct (Hb (<[0 := u32 (reg W rs)]> R) F S W (u32 (reg W rs))) as (R' & F' & E & H0 & H3'); [by rewrite lookup_insert_eq|].
rewrite straight_app, E. cbn [mbind option_bind]. apply (straight_put true rdn false R'); [done..|]. rewrite H3'. by rewrite lookup_insert_ne.
Qed.
Lemma does_binary32 rs rt rdn body f W : binary body f -> 0 <= rs < 32 -> 0 <= rt < 32 -> 0 <= rdn < 32 ->
does (k_ld32 0 (ROFF rs) :: k_ld32 1 (ROFF rt) :: body ++ k_put true rdn false) W (put rdn (f (u32 (reg W rs)) (u32 (reg W rt))) W).
Proof.
intros Hb Hs Ht Hd R F S H3. cbn [straight]. rewrite x_load32 by done. rewrite x_load32; [|by rewrite lookup_insert_ne|done]. cbn [mbind option_bind].
destruct (Hb (<[1 := u32 (reg W rt)]> (<[0 := u32 (reg W rs)]> R)) F S W (u32 (reg W rs)) (u32 (reg W rt))) as (R' & F' & E & H0 & H3');
[by rewrite lookup_insert_ne, lookup_insert_eq|by rewrite lookup_insert_eq|].
rewrite straight_app, E. cbn [mbind option_bind]. apply (straight_put true rdn false R'); [done..|]. rewrite H3'. by rewrite !lookup_insert_ne.
Qed.
End Exec.
