(* ===== verification/JitSim.v ===== *)
(** * Integer instructions of a block

    The code emitted for the integer instructions that are inlined, in their 64-bit and
    32-bit forms, computes from the registers what the interpreter's handler computes. *)

From S2P Require Import Prelude Decode Rvc Device Memory Cache Cpu Mmu See Trap Alu Exec Fpu Step CpuInv AluSem AluThms X86 Jit JitCode JitExec.

(** ** Stored values *)

Lemma imm_i_s32 inst : s32 (u32 (u32 (imm_i inst))) = imm_i inst.
Proof. unfold s32, u32. rewrite !sgn_wrap by lia. pose proof (imm_i_range inst). by rewrite sgn_small by lia. Qed.
Lemma sext_logic a b : u64 (s32 (a .& b)) = u64 (s32 a) .& u64 (s32 b) /\ u64 (s32 (a .| b)) = u64 (s32 a) .| u64 (s32 b) /\
  u64 (s32 (a .^ b)) = u64 (s32 a) .^ u64 (s32 b).
Proof. split_and!; zbits. Qed.
Lemma sext_imm inst : u64 (s32 (u64 (imm_i inst))) = u64 (imm_i inst).
Proof. unfold s32, u64. rewrite sgn_wrap by lia. pose proof (imm_i_range inst). by rewrite sgn_small by lia. Qed.

Section Stored.
Context (rv64 : bool) (c : CPU) (Hx : c_xlen c = if rv64 then 64 else 32).

Lemma stored_sext v r : (rv64 = true -> v = r) -> (rv64 = false -> eqw 32 v r) -> (if negb rv64 && true then u64 (s32 v) else v) = sext_xlen c r.
Proof.
intros H64 H32. unfold sext_xlen. rewrite Hx. destruct rv64; cbn; [by apply H64|]. unfold s32. by rewrite (sgn_eqw 32 v r ltac:(lia) (H32 eq_refl)).
Qed.
Lemma stored_plain v r : v = r -> (rv64 = false -> u64 (s32 r) = r) -> (if negb rv64 && false then u64 (s32 v) else v) = sext_xlen c r.
Proof. intros -> H32. unfold sext_xlen. rewrite Hx. destruct rv64; cbn; [done|]. by rewrite H32. Qed.
End Stored.

Lemma shift_count n k : 0 <= k < 64 -> (n = 64 \/ n = 32) -> (k < n) -> u8 k mod n = k.
Proof. intros Hk Hn Hl. unfold u8. rewrite wrap_small by (lia || (unfold rng; lia)). apply Z.mod_small. lia. Qed.
Lemma shl_value rv64 a k : 0 <= k < width rv64 -> rng 64 a ->
  (rv64 = true -> shift_value S_shl (width rv64) (wrap (width rv64) a) (u8 k) = u64 (a << k)) /\
  (rv64 = false -> eqw 32 (shift_value S_shl (width rv64) (wrap (width rv64) a) (u8 k)) (u64 (a << k))).
Proof.
  intros Hk Ha. split; intros ->; cbn [width] in *; unfold shift_value; rewrite shift_count by lia.
  - by rewrite (wrap_small 64 a).
  - unfold eqw, u64. zbits.
Qed.
Lemma shr_value rv64 a k : 0 <= k < width rv64 -> rng 64 a ->
  shift_value S_shr (width rv64) (wrap (width rv64) a) (u8 k) = if rv64 then a >> k else u32 a >> k.
Proof.
  intros Hk Ha. destruct rv64; cbn [width] in *; unfold shift_value; rewrite shift_count by lia; [by rewrite (wrap_small 64 a)|done].
Qed.
Lemma sar_value rv64 a k : 0 <= k < width rv64 -> rng 64 a ->
  (rv64 = true -> shift_value S_sar (width rv64) (wrap (width rv64) a) (u8 k) = u64 (s64 a >> k)) /\
  (rv64 = false -> eqw 32 (shift_value S_sar (width rv64) (wrap (width rv64) a) (u8 k)) (u64 (s32 a >> k))).
Proof.
  intros Hk Ha. split; intros ->; cbn [width] in *; unfold shift_value; rewrite shift_count, sgn_wrap by lia; [done|].
  unfold eqw, u64. by rewrite !wrap_wrap by lia.
Qed.

Lemma bitmanip_imm_base x inst a : let f3 := funct3 inst in let f6 := (inst >> 26) .& 0x3f in
  (f3 <> 1 /\ f3 <> 5) \/ (f3 = 1 /\ f6 = 0) \/ (f3 = 5 /\ (f6 = 0 \/ f6 = 0x10)) -> bitmanip_imm x inst a = None.
Proof.
  cbv zeta. unfold bitmanip_imm. pose proof (funct6_funct7 inst) as E6. generalize dependent ((inst >> 26) .& 0x3f). generalize (funct3 inst).
  intros f3 f6 E6 H.
  assert (forall v, f6 <> v >> 1 -> (funct7 inst =? v) = false) as H7 by (intros v Hv; apply Z.eqb_neq; congruence).
  destruct H as [[H1 H5]|[[-> ->]|[-> E]]].
  - by rewrite (proj2 (Z.eqb_neq f3 1)), (proj2 (Z.eqb_neq f3 5)).
  - by rewrite (H7 0x30).
  - cbn [Z.eqb Pos.eqb]. rewrite !H7 by (destruct E as [-> | ->]; done). by destruct E as [-> | ->].
Qed.

Lemma size_put rv64 rdn sext : size (k_put rv64 rdn sext) <= 10.
Proof. unfold k_put. destruct (negb rv64 && sext), (negb (rdn =? 0)); by vm_compute. Qed.

Section Sim.
Context (h cpu_addr h_alu h_mem junk : Z).
#[local] Abbreviation does := (does h cpu_addr h_alu h_mem junk).
#[local] Abbreviation put := (put h).

(** A hart a block of this width runs on. *)
Record fit (rv64 : bool) (W : World) : Prop := {
fit_here : is_Some (w_harts W !! h);
fit_ok : cpu_ok (hart h W);
fit_x0 : (c_regs (hart h W)).[0] = 0;
fit_xlen : c_xlen (hart h W) = if rv64 then 64 else 32
}.

Lemma upd_hart_same (f : CPU -> CPU) W : is_Some (w_harts W !! h) -> f (hart h W) = hart h W -> upd_hart h f W = W.
Proof. intros [c Hc] Hf. unfold upd_hart. rewrite Hf. unfold hart. rewrite Hc. cbn. rewrite insert_id by done. by destruct W. Qed.
Lemma put_write rv64 W i v r : fit rv64 W -> v = sext_xlen (hart h W) r -> put i v W = upd_hart h (reg_write i r) W.
Proof.
intros Hf ->. unfold put, reg_write. destruct (Z.eqb_spec i 0); [|done]. symmetry. apply upd_hart_same; [apply Hf|done].
Qed.
Lemma reg_slot rv64 W i : fit rv64 W -> (c_regs (hart h W)).[i] = reg_read (hart h W) i.
Proof. intros Hf. unfold reg_read. destruct (Z.eqb_spec i 0) as [-> |]; [apply Hf|done]. Qed.

(** The code of an integer instruction: inlined, or a call of the handler. *)
Definition alu_code_ok (rv64 : bool) (inst vs k n : Z) (l : list (list Z * Insn)) : Prop :=
size l <= 63 /\
((forall W, fit rv64 W -> exists r,
  alu_result (c_xlen (hart h W)) inst (reg_read (hart h W) (rs1 inst)) (reg_read (hart h W) (rs2 inst)) = Some r /\
  does l W (upd_hart h (reg_write (rd inst) r) W))
\/ l = k_call h_alu inst vs ++ k_glue_alu (n + 40) k).

Lemma emit_helper_ok rv64 inst vs k n : exists l, emits n (emit_helper h_alu inst vs k) EM_CONT l /\ alu_code_ok rv64 inst vs k n l.
Proof.
exists (k_call h_alu inst vs ++ k_glue_alu (n + 40) k). split.
- apply emits_seq; [apply emits_call|]. rewrite size_call. rewrite <- (app_nil_r (k_glue_alu _ _)). apply emits_seq; [apply emits_glue_alu|apply emits_ret].
- split; [|by right]. rewrite size_app, size_call. pose proof (size_glue_alu (n + 40) k). lia.
Qed.

Lemma fields_range inst : 0 <= rd inst < 32 /\ 0 <= rs1 inst < 32 /\ 0 <= rs2 inst < 32.
Proof. assert (forall k, 0 <= (inst >> k) .& 0x1f < 32) as H by (intros; change 0x1f with (Z.ones 5); rewrite Z.land_ones by lia; apply Z.mod_pos_bound; lia). split_and!; apply H. Qed.

(** An inlined unary instruction: load, compute, store. *)
Lemma inline_unary rv64 inst vs k n m body f sext : unary h cpu_addr h_alu h_mem junk body f -> (forall n, emits n m tt body) -> size body <= 20 ->
(forall W, fit rv64 W -> exists r,
 alu_result (c_xlen (hart h W)) inst (reg_read (hart h W) (rs1 inst)) (reg_read (hart h W) (rs2 inst)) = Some r /\
 let v := f (reg_read (hart h W) (rs1 inst)) in (if negb rv64 && sext then u64 (s32 v) else v) = sext_xlen (hart h W) r) ->
exists l, emits n (x_ld RAX (ROFF (rs1 inst)) ;; m ;; put_rd rv64 (rd inst) sext ;; mret EM_CONT) EM_CONT l /\ alu_code_ok rv64 inst vs k n l.
Proof.
intros Hb Hm Hs Hv. pose proof (fields_range inst) as (Hd & H1 & H2). exists (k_ld 0 (ROFF (rs1 inst)) :: body ++ k_put rv64 (rd inst) sext). split.
- apply (emits_seq _ _ _ _ [_]); [apply emits_ld; by left|]. apply emits_seq; [apply Hm|]. rewrite <- (app_nil_r (k_put _ _ _)).
apply emits_seq; [apply emits_put_rd|apply emits_ret].
- split.
+ unfold k_ld. rewrite size_cons, size_app, length_app, length_le. pose proof (size_put rv64 (rd inst) sext). cbn [length]. lia.
+ left. intros W Hf. destruct (Hv W Hf) as (r & Er & E). exists r. split; [done|].
  pose proof (does_unary h cpu_addr h_alu h_mem junk (rs1 inst) (rd inst) rv64 sext body f W Hb H1 Hd) as H.
  rewrite (reg_slot rv64 W (rs1 inst) Hf) in H. by rewrite (put_write rv64 W (rd inst) _ r Hf E) in H.
Qed.
Lemma inline_binary rv64 inst vs k n m body f sext : binary h cpu_addr h_alu h_mem junk body f -> (forall n, emits n m tt body) -> size body <= 20 ->
(forall W, fit rv64 W -> exists r,
 alu_result (c_xlen (hart h W)) inst (reg_read (hart h W) (rs1 inst)) (reg_read (hart h W) (rs2 inst)) = Some r /\
 let v := f (reg_read (hart h W) (rs1 inst)) (reg_read (hart h W) (rs2 inst)) in (if negb rv64 && sext then u64 (s32 v) else v) = sext_xlen (hart h W) r) ->
exists l, emits n (x_ld RAX (ROFF (rs1 inst)) ;; x_ld RCX (ROFF (rs2 inst)) ;; (m ;; put_rd rv64 (rd inst) sext) ;; mret EM_CONT) EM_CONT l /\ alu_code_ok rv64 inst vs k n l.
Proof.
intros Hb Hm Hs Hv. pose proof (fields_range inst) as (Hd & H1 & H2).
exists (k_ld 0 (ROFF (rs1 inst)) :: k_ld 1 (ROFF (rs2 inst)) :: body ++ k_put rv64 (rd inst) sext). split.
- apply (emits_seq _ _ _ _ [_]); [apply emits_ld; by left|]. apply (emits_seq _ _ _ _ [_]); [apply emits_ld; by right|].
rewrite <- (app_nil_r (body ++ _)). apply emits_seq; [|apply emits_ret]. apply emits_seq; [apply Hm|apply emits_put_rd].
- split.
+ unfold k_ld. rewrite !size_cons, size_app, !length_app, !length_le. pose proof (size_put rv64 (rd inst) sext). cbn [length]. lia.
+ left. intros W Hf. destruct (Hv W Hf) as (r & Er & E). exists r. split; [done|].
  pose proof (does_binary h cpu_addr h_alu h_mem junk (rs1 inst) (rs2 inst) (rd inst) rv64 sext body f W Hb H1 H2 Hd) as H.
  rewrite (reg_slot rv64 W (rs1 inst) Hf), (reg_slot rv64 W (rs2 inst) Hf) in H. by rewrite (put_write rv64 W (rd inst) _ r Hf E) in H.
Qed.

Lemma emits_code_ext rv64 inst vs k n (m m' : st Code EM) : (forall c, m c = m' c) ->
(exists l, emits n m' EM_CONT l /\ alu_code_ok rv64 inst vs k n l) -> exists l, emits n m EM_CONT l /\ alu_code_ok rv64 inst vs k n l.
Proof. intros E (l & He & Hl). exists l. split; [|done]. by apply (emits_ext _ _ m'). Qed.

Section OpImm.
Context (rv64 : bool) (inst vs k n : Z) (Ho : opcode inst = OP_IMM).

Lemma op_imm_base W : fit rv64 W -> let f3 := funct3 inst in let f6 := (inst >> 26) .& 0x3f in
(f3 <> 1 /\ f3 <> 5) \/ (f3 = 1 /\ f6 = 0) \/ (f3 = 5 /\ (f6 = 0 \/ f6 = 0x10)) ->
alu_result (c_xlen (hart h W)) inst (reg_read (hart h W) (rs1 inst)) (reg_read (hart h W) (rs2 inst)) =
Some (op_imm_result (if rv64 then 64 else 32) inst (reg_read (hart h W) (rs1 inst))).
Proof. intros Hf f3 f6 H. unfold alu_result. rewrite Ho, (fit_xlen rv64 W Hf). cbn [Z.eqb Pos.eqb OP_IMM]. by rewrite bitmanip_imm_base. Qed.

Lemma rs_rng W : fit rv64 W -> rng 64 (reg_read (hart h W) (rs1 inst)) /\ rng 64 (reg_read (hart h W) (rs2 inst)).
Proof. intros Hf. split; apply reg_read_rng, Hf. Qed.
Lemma rs_sext W r : fit rv64 W -> rv64 = false -> u64 (s32 (reg_read (hart h W) r)) = reg_read (hart h W) r.
Proof.
intros Hf E. pose proof (reg_read_sx (hart h W) r (fit_ok _ _ Hf)) as H. rewrite (fit_xlen rv64 W Hf), E in H. symmetry. apply H. by left.
Qed.
Lemma imm_operand : wrap 64 (s32 (u32 (u32 (imm_i inst)))) = u64 (imm_i inst).
Proof. by rewrite imm_i_s32. Qed.

(** The result of the instruction is [value]; what rax holds is what [reg_write] stores. *)
Ltac result Hf := intros W Hf; eexists; split; [apply (op_imm_base W Hf); lia|]; cbv zeta; pose proof (fit_xlen rv64 W Hf) as Hx; unfold op_imm_result;
destruct (rs_rng W Hf) as [Ha _].

Lemma addi_ok : funct3 inst = 0 ->
exists l, emits n (x_ld RAX (ROFF (rs1 inst)) ;; x_alui 0 RAX (u32 (imm_i inst)) ;; put_rd rv64 (rd inst) true ;; mret EM_CONT) EM_CONT l /\ alu_code_ok rv64 inst vs k n l.
Proof.
intros H3. apply (inline_unary _ _ _ _ _ _ [k_alui true A_add (u32 (imm_i inst))] _ _ (unary_alui _ _ _ _ _ true A_add _ ltac:(done))); [intros; apply (emits_alui _ A_add)|by vm_compute|].
result Hf. rewrite H3. cbn [Z.eqb Pos.eqb]. apply stored_sext; [done|..]; intros _; cbn [width alu_value]; rewrite imm_operand; [by rewrite wrap_add_l by lia|].
unfold eqw, u64. by rewrite wrap_add_l by lia.
Qed.
Lemma slti_ok : funct3 inst = 2 \/ funct3 inst = 3 ->
exists l, emits n (x_ld RAX (ROFF (rs1 inst)) ;; x_alui 7 RAX (u32 (imm_i inst)) ;; x_setcc (if funct3 inst =? 2 then 0x9C else 0x92) ;;
put_rd rv64 (rd inst) false ;; mret EM_CONT) EM_CONT l /\ alu_code_ok rv64 inst vs k n l.
Proof.
intros H3. set (cc := if funct3 inst =? 2 then 0xc else 0x2). assert (Hcc : cc = 0x2 \/ cc = 0xc) by (unfold cc; destruct (funct3 inst =? 2); [by right|by left]).
apply (emits_code_ext _ _ _ _ _ _ (x_ld RAX (ROFF (rs1 inst)) ;; (x_alui 7 RAX (u32 (imm_i inst)) ;; x_setcc (if funct3 inst =? 2 then 0x9C else 0x92)) ;;
put_rd rv64 (rd inst) false ;; mret EM_CONT)); [reassoc|].
eapply (inline_unary _ _ _ _ _ _ (k_alui true A_cmp (u32 (imm_i inst)) :: k_setcc cc)
(fun a => if (if funct3 inst =? 2 then s64 (wrap 64 a) <? imm_i inst else wrap 64 a <? u64 (imm_i inst)) then 1 else 0)).
- apply unary_cmp. intros a. rewrite imm_operand. unfold cc. destruct (funct3 inst =? 2); [|done].
rewrite cmp_less by (apply wrap_range; lia). do 2 f_equal. unfold s64, u64. rewrite sgn_wrap by lia. apply sgn_small; [lia|]. pose proof (imm_i_range inst). lia.
- intros n'. apply (emits_seq _ _ _ _ [_]); [apply (emits_alui _ A_cmp)|]. replace (if funct3 inst =? 2 then 0x9C else 0x92) with (0x90 + cc) by (unfold cc; by destruct (_ =? 2)).
by apply emits_setcc.
- destruct Hcc as [E|E]; rewrite E; by vm_compute.
- result Hf. apply stored_plain; [done|..].
+ rewrite (wrap_small 64 _ (ltac:(lia)) Ha). by destruct H3 as [-> | ->].
+ intros _. destruct H3 as [-> | ->]; cbn [Z.eqb Pos.eqb]; by destruct (_ <? _).
Qed.
Lemma logic_ok : funct3 inst = 4 \/ funct3 inst = 6 \/ funct3 inst = 7 ->
exists l, emits n (x_ld RAX (ROFF (rs1 inst)) ;; x_alui (if funct3 inst =? 4 then 6 else if funct3 inst =? 6 then 1 else 4) RAX (u32 (imm_i inst)) ;;
put_rd rv64 (rd inst) false ;; mret EM_CONT) EM_CONT l /\ alu_code_ok rv64 inst vs k n l.
Proof.
intros H3. set (op := if funct3 inst =? 4 then A_xor else if funct3 inst =? 6 then A_or else A_and).
replace (if funct3 inst =? 4 then 6 else if funct3 inst =? 6 then 1 else 4) with (alu_group op) by (unfold op; by repeat destruct (_ =? _)).
assert (op <> A_cmp) as Hop by (unfold op; by repeat destruct (_ =? _)).
apply (inline_unary _ _ _ _ _ _ [k_alui true op (u32 (imm_i inst))] _ _ (unary_alui _ _ _ _ _ true op _ Hop)); [intros; apply emits_alui|by destruct op; vm_compute|].
result Hf. unfold op. destruct (sext_logic (reg_read (hart h W) (rs1 inst)) (u64 (imm_i inst))) as (Ea & Eo & Ex).
apply stored_plain; [done|..]; destruct H3 as [-> |[-> | ->]]; cbn [Z.eqb Pos.eqb alu_value width]; rewrite ?imm_operand, ?(wrap_small 64 _ (ltac:(lia)) Ha); try done;
intros E; rewrite ?Ea, ?Eo, ?Ex, sext_imm; by rewrite rs_sext.
Qed.
Lemma shift_range : 0 <= (inst >> 20) .& (if rv64 then 0x3f else 0x1f) < width rv64.
Proof. destruct rv64; [change 0x3f with (Z.ones 6)|change 0x1f with (Z.ones 5)]; rewrite Z.land_ones by lia; cbn [width]; [apply (Z.mod_pos_bound _ 64)|apply (Z.mod_pos_bound _ 32)]; lia. Qed.
Lemma shamt_guest : u32 (imm_i inst) .& (if (if rv64 then 64 else 32) =? 64 then 0x3f else 0x1f) = (inst >> 20) .& (if rv64 then 0x3f else 0x1f).
Proof. destruct rv64; cbn [Z.eqb Pos.eqb]; [apply (shamt_imm inst 6)|apply (shamt_imm inst 5)]; lia. Qed.
Lemma slli_ok : funct3 inst = 1 -> (inst >> 26) .& 0x3f = 0 ->
exists l, emits n (x_ld RAX (ROFF (rs1 inst)) ;; x_shifti 4 RAX rv64 ((inst >> 20) .& (if rv64 then 0x3f else 0x1f)) ;; put_rd rv64 (rd inst) true ;; mret EM_CONT) EM_CONT l /\
alu_code_ok rv64 inst vs k n l.
Proof.
intros H3 H6. apply (inline_unary _ _ _ _ _ _ [k_shifti rv64 S_shl ((inst >> 20) .& (if rv64 then 0x3f else 0x1f))] _ _ (unary_shifti _ _ _ _ _ rv64 S_shl _)); [intros; apply (emits_shifti _ _ S_shl)|by destruct rv64; vm_compute|].
result Hf. rewrite shamt_guest, H3. cbn [Z.eqb Pos.eqb]. destruct (shl_value rv64 _ _ shift_range Ha) as [E64 E32]. by apply stored_sext.
Qed.
Lemma srxi_ok : funct3 inst = 5 -> (inst >> 26) .& 0x3f = 0 \/ (inst >> 26) .& 0x3f = 0x10 ->
exists l, emits n (x_ld RAX (ROFF (rs1 inst)) ;; x_shifti (if (inst >> 26) .& 0x3f =? 0x10 then 7 else 5) RAX rv64 ((inst >> 20) .& (if rv64 then 0x3f else 0x1f)) ;;
put_rd rv64 (rd inst) true ;; mret EM_CONT) EM_CONT l /\ alu_code_ok rv64 inst vs k n l.
Proof.
intros H3 H6. set (op := if (inst >> 26) .& 0x3f =? 0x10 then S_sar else S_shr).
replace (if (inst >> 26) .& 0x3f =? 0x10 then 7 else 5) with (shift_group op) by (unfold op; by destruct (_ =? 0x10)).
apply (inline_unary _ _ _ _ _ _ [k_shifti rv64 op ((inst >> 20) .& (if rv64 then 0x3f else 0x1f))] _ _ (unary_shifti _ _ _ _ _ rv64 op _)); [intros; apply emits_shifti|by destruct rv64, op; vm_compute|].
assert ((inst >> 30) .& 1 = if (inst >> 26) .& 0x3f =? 0x10 then 1 else 0) as Eb.
{ replace ((inst >> 30) .& 1) with ((((inst >> 26) .& 0x3f) >> 4) .& 1) by zbits. by destruct H6 as [-> | ->]. }
result Hf. rewrite shamt_guest, H3, Eb. cbn [Z.eqb Pos.eqb]. pose proof (shr_value rv64 _ _ shift_range Ha) as Es. destruct (sar_value rv64 _ _ shift_range Ha) as [E64 E32].
unfold op. destruct (_ =? 0x10); cbn [Z.eqb Pos.eqb negb].
- apply stored_sext; [done|..]; intros E; rewrite E in *; cbn [Z.eqb Pos.eqb]; [by apply E64|by apply E32].
- apply stored_sext; [done|..]; intros E; rewrite Es, E; done.
Qed.
Lemma emit_op_imm_ok : exists l, emits n (emit_op_imm h_alu rv64 inst vs k) EM_CONT l /\ alu_code_ok rv64 inst vs k n l.
Proof.
unfold emit_op_imm; cbv zeta. destruct (Z.eqb_spec (funct3 inst) 0); [by apply addi_ok|].
destruct ((funct3 inst =? 2) || (funct3 inst =? 3)) eqn:E23; [apply slti_ok; lia|].
destruct ((funct3 inst =? 4) || (funct3 inst =? 6) || (funct3 inst =? 7)) eqn:E467; [apply logic_ok; lia|].
destruct ((funct3 inst =? 1) && _) eqn:E1; [apply andb_true_iff in E1 as [?%Z.eqb_eq ?%Z.eqb_eq]; by apply slli_ok|].
destruct ((funct3 inst =? 5) && _) eqn:E5; [apply andb_true_iff in E5 as [?%Z.eqb_eq ?]; apply srxi_ok; [done|lia]|].
apply emit_helper_ok.
Qed.
End OpImm.

Section Op.
Context (rv64 : bool) (inst vs k n : Z) (Ho : opcode inst = OP_REG).
Context (Hbase : funct7 inst = 0 \/ (funct7 inst = 0x20 /\ (funct3 inst = 0 \/ funct3 inst = 5))).

Lemma op_base W : fit rv64 W ->
alu_result (c_xlen (hart h W)) inst (reg_read (hart h W) (rs1 inst)) (reg_read (hart h W) (rs2 inst)) =
Some (op_result (if rv64 then 64 else 32) inst (reg_read (hart h W) (rs1 inst)) (reg_read (hart h W) (rs2 inst))).
Proof.
intros Hf. unfold alu_result. rewrite Ho, (fit_xlen rv64 W Hf). cbn [Z.eqb Pos.eqb OP_IMM OP_IMM_32 OP_REG].
assert (forall x a b, bitmanip_op x inst a b = None) as E by (intros; unfold bitmanip_op; by destruct Hbase as [-> |[-> [-> | ->]]]).
rewrite E. by destruct Hbase as [-> |[-> _]].
Qed.
Ltac result Hf := intros W Hf; eexists; split; [apply (op_base W Hf)|]; cbv zeta; pose proof (fit_xlen rv64 W Hf) as Hx; unfold op_result;
destruct (rs_rng rv64 inst W Hf) as [Ha Hb].
#[local] Abbreviation two m := (x_ld RAX (ROFF (rs1 inst)) ;; x_ld RCX (ROFF (rs2 inst)) ;; m ;; mret EM_CONT).
#[local] Abbreviation code_ok m := (exists l, emits n (two m) EM_CONT l /\ alu_code_ok rv64 inst vs k n l).

Lemma add_ok : funct3 inst = 0 -> code_ok (x_alu (if funct7 inst =? 0x20 then 0x29 else 0x01) RAX RCX ;; put_rd rv64 (rd inst) true).
Proof.
intros H3. set (op := if funct7 inst =? 0x20 then A_sub else A_add).
replace (if funct7 inst =? 0x20 then 0x29 else 0x01) with (alu_code op) by (unfold op; by destruct (_ =? 0x20)).
assert (op <> A_cmp) as Hop by (unfold op; by destruct (_ =? 0x20)).
apply (inline_binary _ _ _ _ _ _ [k_alu true op] _ _ (binary_alu _ _ _ _ _ true op Hop)); [intros; apply emits_alu|by destruct op; vm_compute|].
result Hf. rewrite H3. cbn [Z.eqb Pos.eqb]. cbn [width]. rewrite (wrap_small 64 _ ltac:(lia) Ha), (wrap_small 64 _ ltac:(lia) Hb).
unfold op. by destruct (_ =? 0x20); apply stored_sext.
Qed.
Lemma slt_ok (cc : Z) : (funct3 inst = 2 /\ cc = 0xc) \/ (funct3 inst = 3 /\ cc = 0x2) -> code_ok (x_alu 0x39 RAX RCX ;; x_setcc (0x90 + cc) ;; put_rd rv64 (rd inst) false).
Proof.
intros H3. apply (emits_code_ext _ _ _ _ _ _ (two ((x_alu 0x39 RAX RCX ;; x_setcc (0x90 + cc)) ;; put_rd rv64 (rd inst) false))); [reassoc|].
eapply (inline_binary _ _ _ _ _ _ (k_alu true A_cmp :: k_setcc cc)
(fun a b => if (if funct3 inst =? 2 then s64 (wrap 64 a) <? s64 (wrap 64 b) else wrap 64 a <? wrap 64 b) then 1 else 0)).
- apply binary_cmp. intros a b. destruct H3 as [[-> ->]|[-> ->]]; cbn [Z.eqb Pos.eqb]; [|done]. by rewrite cmp_less by (apply wrap_range; lia).
- intros n'. apply (emits_seq _ _ _ _ [_]); [apply (emits_alu _ A_cmp)|]. apply emits_setcc. lia.
- destruct H3 as [[_ ->]|[_ ->]]; by vm_compute.
- result Hf. rewrite (wrap_small 64 _ ltac:(lia) Ha), (wrap_small 64 _ ltac:(lia) Hb).
apply stored_plain; [done|..]; destruct H3 as [[-> _]|[-> _]]; cbn [Z.eqb Pos.eqb]; try done; intros _; by destruct (_ <? _).
Qed.
Lemma logic_op_ok (op : AluOp) : (funct3 inst, op) ∈ [(4, A_xor); (6, A_or); (7, A_and)] -> code_ok (x_alu (alu_code op) RAX RCX ;; put_rd rv64 (rd inst) false).
Proof.
intros H3. assert (op <> A_cmp) as Hop by (intros ->; by apply list_elem_of_In in H3 as [?|[?|[?|[]]]]).
apply (inline_binary _ _ _ _ _ _ [k_alu true op] _ _ (binary_alu _ _ _ _ _ true op Hop)); [intros; apply emits_alu|by destruct op; vm_compute|].
result Hf. cbn [width]. rewrite (wrap_small 64 _ ltac:(lia) Ha), (wrap_small 64 _ ltac:(lia) Hb).
destruct (sext_logic (reg_read (hart h W) (rs1 inst)) (reg_read (hart h W) (rs2 inst))) as (Ea & Eo & Ex).
repeat (apply elem_of_cons in H3 as [H3|H3]); [..|by apply elem_of_nil in H3]; injection H3 as -> ->; (apply stored_plain; [done..|]);
intros E; cbn [Z.eqb Pos.eqb]; rewrite ?Ea, ?Eo, ?Ex; by rewrite !(rs_sext rv64 W).
Qed.
Lemma count_range b : 0 <= u32 b .& (if (if rv64 then 64 else 32) =? 64 then 0x3f else 0x1f) < width rv64.
Proof. destruct rv64; cbn [Z.eqb Pos.eqb width]; [change 0x3f with (Z.ones 6)|change 0x1f with (Z.ones 5)]; rewrite Z.land_ones by lia; [apply (Z.mod_pos_bound _ 64)|apply (Z.mod_pos_bound _ 32)]; lia. Qed.
(** The count in cl, modulo the width, is the guest's shift amount. *)
Lemma count_cl op a b : shift_value op (width rv64) a (u8 b) = shift_value op (width rv64) a (u8 (u32 b .& (if (if rv64 then 64 else 32) =? 64 then 0x3f else 0x1f))).
Proof.
pose proof (count_range b) as Hk. assert (width rv64 <= 64) by (destruct rv64; cbn; lia).
unfold shift_value. rewrite (shift_count (width rv64) (u32 b .& _)); [|lia|by destruct rv64; [left|right]|apply Hk].
replace (u8 b mod width rv64) with (u32 b .& (if (if rv64 then 64 else 32) =? 64 then 0x3f else 0x1f)); [done|].
destruct rv64; cbn [Z.eqb Pos.eqb width]; [change 0x3f with (Z.ones 6); change (u8 b mod 64) with (u8 b mod 2 ^ 6)|change 0x1f with (Z.ones 5); change (u8 b mod 32) with (u8 b mod 2 ^ 5)]; rewrite <- Z.land_ones by lia; zbits.
Qed.
Lemma sll_ok : funct3 inst = 1 -> code_ok (x_shiftcl 4 RAX rv64 ;; put_rd rv64 (rd inst) true).
Proof.
intros H3. apply (inline_binary _ _ _ _ _ _ [k_shiftcl rv64 S_shl] _ _ (binary_shiftcl _ _ _ _ _ rv64 S_shl)); [intros; apply (emits_shiftcl _ _ S_shl)|by destruct rv64; vm_compute|].
result Hf. rewrite count_cl, H3. cbn [Z.eqb Pos.eqb]. destruct (shl_value rv64 _ _ (count_range (reg_read (hart h W) (rs2 inst))) Ha) as [E64 E32]. by apply stored_sext.
Qed.
Lemma srx_ok : funct3 inst = 5 -> code_ok (x_shiftcl (if funct7 inst =? 0x20 then 7 else 5) RAX rv64 ;; put_rd rv64 (rd inst) true).
Proof.
intros H3. set (op := if funct7 inst =? 0x20 then S_sar else S_shr).
replace (if funct7 inst =? 0x20 then 7 else 5) with (shift_group op) by (unfold op; by destruct (_ =? 0x20)).
apply (inline_binary _ _ _ _ _ _ [k_shiftcl rv64 op] _ _ (binary_shiftcl _ _ _ _ _ rv64 op)); [intros; apply emits_shiftcl|by destruct rv64, op; vm_compute|].
result Hf. rewrite count_cl, H3. cbn [Z.eqb Pos.eqb]. pose proof (count_range (reg_read (hart h W) (rs2 inst))) as Hk.
pose proof (shr_value rv64 _ _ Hk Ha) as Es. destruct (sar_value rv64 _ _ Hk Ha) as [E64 E32].
unfold op. destruct (_ =? 0x20).
- apply stored_sext; [done|..]; intros E; rewrite E in *; cbn [Z.eqb Pos.eqb] in *; [by apply E64|by apply E32].
- apply stored_sext; [done|..]; intros E; rewrite Es, E; done.
Qed.
End Op.
Lemma emit_op_ok rv64 inst vs k n : opcode inst = OP_REG -> exists l, emits n (emit_op h_alu rv64 inst vs k) EM_CONT l /\ alu_code_ok rv64 inst vs k n l.
Proof.
intros Ho. unfold emit_op; cbv zeta. destruct ((funct7 inst =? 0) || _) eqn:Eb; cbn [negb]; [|apply emit_helper_ok].
assert (funct7 inst = 0 \/ (funct7 inst = 0x20 /\ (funct3 inst = 0 \/ funct3 inst = 5))) as Hb by lia.
assert (0 <= funct3 inst < 8) as H3 by (unfold funct3; change 0x7 with (Z.ones 3); rewrite Z.land_ones by lia; apply Z.mod_pos_bound; lia).
destruct (Z.eqb_spec (funct3 inst) 0); [by apply add_ok|].
destruct (Z.eqb_spec (funct3 inst) 1); [by apply sll_ok|].
destruct (Z.eqb_spec (funct3 inst) 2); [apply (slt_ok rv64 inst vs k n Ho Hb 0xc); by left|].
destruct (Z.eqb_spec (funct3 inst) 3); [apply (slt_ok rv64 inst vs k n Ho Hb 0x2); by right|].
destruct (Z.eqb_spec (funct3 inst) 4) as [E|]; [apply (logic_op_ok rv64 inst vs k n Ho Hb A_xor); rewrite E; apply list_elem_of_In; by left|].
destruct (Z.eqb_spec (funct3 inst) 5); [by apply srx_ok|].
destruct (Z.eqb_spec (funct3 inst) 6) as [E|]; [apply (logic_op_ok rv64 inst vs k n Ho Hb A_or); rewrite E; apply list_elem_of_In; right; by left|].
apply (logic_op_ok rv64 inst vs k n Ho Hb A_and). replace (funct3 inst) with 7 by lia. apply list_elem_of_In. right. right. by left.
Qed.

(** *** Word instructions (RV64) *)

Lemma emits_store n rdn : emits n (when (negb (rdn =? 0)) (x_st (ROFF rdn) RAX)) tt (k_put true rdn false).
Proof. apply emits_when. intros _. apply emits_st. by left. Qed.
#[local] Abbreviation word_result W inst :=
(alu_result (c_xlen (hart h W)) inst (reg_read (hart h W) (rs1 inst)) (reg_read (hart h W) (rs2 inst))).
Lemma inline_unary32 inst vs k n m body f : unary h cpu_addr h_alu h_mem junk body f -> (forall n, emits n m tt body) -> size body <= 20 ->
(forall W, fit true W -> word_result W inst = Some (u64 (s32 (f (u32 (reg_read (hart h W) (rs1 inst))))))) ->
exists l, emits n (x_ld32 RAX (ROFF (rs1 inst)) ;; m ;; x_sext32 ;; when (negb (rd inst =? 0)) (x_st (ROFF (rd inst)) RAX) ;; mret EM_CONT) EM_CONT l /\ alu_code_ok true inst vs k n l.
Proof.
intros Hb Hm Hs Hv. pose proof (fields_range inst) as (Hd & H1 & H2). exists (k_ld32 0 (ROFF (rs1 inst)) :: (body ++ [k_sext32]) ++ k_put true (rd inst) false). split.
- apply (emits_seq _ _ _ _ [_]); [apply emits_ld32; by left|]. rewrite <- app_assoc. apply emits_seq; [apply Hm|]. apply emits_seq; [apply emits_sext32|].
rewrite <- (app_nil_r (k_put _ _ _)). apply emits_seq; [apply emits_store|apply emits_ret].
- split.
+ unfold k_ld32. rewrite size_cons, !size_app, length_app, length_le. pose proof (size_put true (rd inst) false). change (size [k_sext32]) with 3. cbn [length]. lia.
+ left. intros W Hf. eexists. split; [by apply Hv|].
  pose proof (does_unary32 h cpu_addr h_alu h_mem junk (rs1 inst) (rd inst) _ _ W (unary_seq _ _ _ _ _ _ _ _ _ Hb (unary_sext32 _ _ _ _ _)) H1 Hd) as H.
  rewrite (reg_slot true W (rs1 inst) Hf) in H. erewrite (put_write true W (rd inst)) in H; [exact H|done|]. unfold sext_xlen. by rewrite (fit_xlen true W Hf).
Qed.
Lemma inline_binary32 inst vs k n m body f : binary h cpu_addr h_alu h_mem junk body f -> (forall n, emits n m tt body) -> size body <= 20 ->
(forall W, fit true W -> word_result W inst = Some (u64 (s32 (f (u32 (reg_read (hart h W) (rs1 inst))) (u32 (reg_read (hart h W) (rs2 inst))))))) ->
exists l, emits n (x_ld32 RAX (ROFF (rs1 inst)) ;; x_ld32 RCX (ROFF (rs2 inst)) ;; m ;; x_sext32 ;; when (negb (rd inst =? 0)) (x_st (ROFF (rd inst)) RAX) ;; mret EM_CONT) EM_CONT l /\
alu_code_ok true inst vs k n l.
Proof.
intros Hb Hm Hs Hv. pose proof (fields_range inst) as (Hd & H1 & H2).
exists (k_ld32 0 (ROFF (rs1 inst)) :: k_ld32 1 (ROFF (rs2 inst)) :: (body ++ [k_sext32]) ++ k_put true (rd inst) false). split.
- apply (emits_seq _ _ _ _ [_]); [apply emits_ld32; by left|]. apply (emits_seq _ _ _ _ [_]); [apply emits_ld32; by right|].
rewrite <- app_assoc. apply emits_seq; [apply Hm|]. apply emits_seq; [apply emits_sext32|].
rewrite <- (app_nil_r (k_put _ _ _)). apply emits_seq; [apply emits_store|apply emits_ret].
- split.
+ unfold k_ld32. rewrite !size_cons, !size_app, !length_app, !length_le. pose proof (size_put true (rd inst) false). change (size [k_sext32]) with 3. cbn [length]. lia.
+ left. intros W Hf. eexists. split; [by apply Hv|].
  pose proof (does_binary32 h cpu_addr h_alu h_mem junk (rs1 inst) (rs2 inst) (rd inst) _ _ W (binary_seq _ _ _ _ _ _ _ _ _ Hb (unary_sext32 _ _ _ _ _)) H1 H2 Hd) as H.
  rewrite (reg_slot true W (rs1 inst) Hf), (reg_slot true W (rs2 inst) Hf) in H. erewrite (put_write true W (rd inst)) in H; [exact H|done|].
  unfold sext_xlen. by rewrite (fit_xlen true W Hf).
Qed.

Lemma word_sar a k : 0 <= k < 32 -> s32 (shift_value S_sar 32 (wrap 32 (u32 a)) (u8 k)) = s32 (u32 a) >> k.
Proof.
intros Hk. unfold shift_value. rewrite shift_count by lia. unfold s32, u32. rewrite !sgn_wrap by lia.
apply sgn_small; [lia|]. apply (shiftr_sgn_range 32); lia.
Qed.
Lemma word_shr a k : 0 <= k < 32 -> s32 (shift_value S_shr 32 (wrap 32 (u32 a)) (u8 k)) = s32 (u32 a >> k).
Proof. intros Hk. unfold shift_value. rewrite shift_count by lia. unfold u32. by rewrite wrap_wrap by lia. Qed.
Lemma word_shl a k : 0 <= k < 32 -> s32 (shift_value S_shl 32 (wrap 32 (u32 a)) (u8 k)) = s32 (u32 (u32 a << k)).
Proof. intros Hk. unfold shift_value. rewrite shift_count by lia. unfold u32. by rewrite wrap_wrap by lia. Qed.
Lemma shamt5 v : 0 <= v .& 0x1f < 32.
Proof. change 0x1f with (Z.ones 5). rewrite Z.land_ones by lia. apply Z.mod_pos_bound. lia. Qed.

Lemma op_imm32_base inst W r : opcode inst = OP_IMM_32 -> fit true W -> let f3 := funct3 inst in let f6 := (inst >> 26) .& 0x3f in
f3 = 0 \/ (f3 = 1 /\ f6 = 0) \/ (f3 = 5 /\ (f6 = 0 \/ f6 = 0x10)) ->
op_imm32_result inst (u32 (reg_read (hart h W) (rs1 inst))) = Some r -> word_result W inst = Some (u64 r).
Proof.
cbv zeta. intros Ho Hf H Hr. unfold alu_result. rewrite Ho, (fit_xlen true W Hf). cbn [Z.eqb Pos.eqb OP_IMM OP_IMM_32 negb]. rewrite Hr.
assert (bitmanip_imm32 inst (reg_read (hart h W) (rs1 inst)) = None) as ->; [|done]. unfold bitmanip_imm32.
pose proof (funct6_funct7 inst) as E6. assert ((inst >> 26) .& 0x3f <> 0x30 >> 1 -> (funct7 inst =? 0x30) = false) as H7 by (intros; apply Z.eqb_neq; congruence).
destruct H as [-> |[[-> E]|[-> E]]]; cbn [Z.eqb Pos.eqb andb]; rewrite ?H7 by (rewrite ?E; destruct E as [E|E] || idtac; rewrite ?E; done); [done|by rewrite E|done].
Qed.
Lemma emit_op_imm32_ok inst vs k n : opcode inst = OP_IMM_32 -> exists l, emits n (emit_op_imm32 h_alu inst vs k) EM_CONT l /\ alu_code_ok true inst vs k n l.
Proof.
intros Ho. unfold emit_op_imm32; cbv zeta. destruct ((funct3 inst =? 0) || _ || _) eqn:Eb; cbn [negb]; [|apply emit_helper_ok].
assert (let f3 := funct3 inst in let f6 := (inst >> 26) .& 0x3f in f3 = 0 \/ (f3 = 1 /\ f6 = 0) \/ (f3 = 5 /\ (f6 = 0 \/ f6 = 0x10))) as Hb by (cbv zeta; lia).
pose proof (shamt5 (inst >> 20)) as Hk. assert (u32 (imm_i inst) .& 0x1f = (inst >> 20) .& 0x1f) as Es by (apply (shamt_imm inst 5); lia).
destruct (Z.eqb_spec (funct3 inst) 0) as [E0|E0]; [|destruct (Z.eqb_spec (funct3 inst) 1) as [E1|E1]].
- apply (inline_unary32 _ _ _ _ _ [k_alui false A_add (u32 (imm_i inst))] _ (unary_alui _ _ _ _ _ false A_add _ ltac:(done))); [intros; apply (emits_alui32 _ A_add)|by vm_compute|].
intros W Hf. apply op_imm32_base; [done..|]. unfold op_imm32_result. rewrite E0. cbn [Z.eqb Pos.eqb width alu_value]. do 2 f_equal. rewrite imm_i_s32.
unfold u32. by rewrite wrap_wrap by lia.
- apply (inline_unary32 _ _ _ _ _ [k_shifti false S_shl ((inst >> 20) .& 0x1f)] _ (unary_shifti _ _ _ _ _ false S_shl _)); [intros; apply (emits_shifti _ false S_shl)|by vm_compute|].
intros W Hf. apply op_imm32_base; [done..|]. unfold op_imm32_result. rewrite E1, Es. cbn [Z.eqb Pos.eqb width]. f_equal. symmetry. by apply word_shl.
- assert (funct3 inst = 5 /\ ((inst >> 26) .& 0x3f = 0 \/ (inst >> 26) .& 0x3f = 0x10)) as [E5 E6] by lia.
set (op := if (inst >> 26) .& 0x3f =? 0x10 then S_sar else S_shr).
replace (if (inst >> 26) .& 0x3f =? 0x10 then 7 else 5) with (shift_group op) by (unfold op; by destruct (_ =? 0x10)).
apply (inline_unary32 _ _ _ _ _ [k_shifti false op ((inst >> 20) .& 0x1f)] _ (unary_shifti _ _ _ _ _ false op _)); [intros; apply emits_shifti|by destruct op; vm_compute|].
assert ((inst >> 30) .& 1 = if (inst >> 26) .& 0x3f =? 0x10 then 1 else 0) as Ea.
{ replace ((inst >> 30) .& 1) with ((((inst >> 26) .& 0x3f) >> 4) .& 1) by zbits. by destruct E6 as [-> | ->]. }
intros W Hf. apply op_imm32_base; [done..|]. unfold op_imm32_result. rewrite E5, Es, Ea. cbn [Z.eqb Pos.eqb width]. f_equal. symmetry. unfold op.
destruct (_ =? 0x10); cbn [Z.eqb negb]; [by apply word_sar|by apply word_shr].
Qed.

Lemma op32_base inst W r : opcode inst = OP_REG_32 -> fit true W -> funct7 inst = 0 \/ funct7 inst = 0x20 ->
op32_result inst (u32 (reg_read (hart h W) (rs1 inst))) (u32 (reg_read (hart h W) (rs2 inst))) = Some r -> word_result W inst = Some (u64 r).
Proof.
intros Ho Hf H Hr. unfold alu_result. rewrite Ho, (fit_xlen true W Hf). cbn [Z.eqb Pos.eqb OP_IMM OP_IMM_32 OP_REG OP_REG_32 negb]. rewrite Hr.
unfold bitmanip_op32. by destruct H as [-> | ->].
Qed.
Lemma word_count op a b : shift_value op 32 a (u8 b) = shift_value op 32 a (u8 (b .& 0x1f)).
Proof.
unfold shift_value. rewrite (shift_count 32 (b .& 0x1f)) by (pose proof (shamt5 b); lia).
replace (u8 b mod 32) with (b .& 0x1f); [done|]. change 0x1f with (Z.ones 5). change (u8 b mod 32) with (u8 b mod 2 ^ 5). rewrite <- Z.land_ones by lia. zbits.
Qed.
Lemma emit_op32_ok inst vs k n : opcode inst = OP_REG_32 -> exists l, emits n (emit_op32 h_alu inst vs k) EM_CONT l /\ alu_code_ok true inst vs k n l.
Proof.
intros Ho. unfold emit_op32; cbv zeta. destruct ((funct7 inst =? 0) && _ || _) eqn:Eb; cbn [negb]; [|apply emit_helper_ok].
assert (funct7 inst = 0 \/ funct7 inst = 0x20) as H7 by lia. assert (funct3 inst = 0 \/ funct3 inst = 1 \/ funct3 inst = 5) as H3 by lia.
destruct (Z.eqb_spec (funct3 inst) 0) as [E0|E0]; [|destruct (Z.eqb_spec (funct3 inst) 1) as [E1|E1]].
- set (op := if funct7 inst =? 0x20 then A_sub else A_add).
replace (if funct7 inst =? 0x20 then 0x29 else 0x01) with (alu_code op) by (unfold op; by destruct (_ =? 0x20)).
assert (op <> A_cmp) as Hop by (unfold op; by destruct (_ =? 0x20)).
apply (inline_binary32 _ _ _ _ _ [k_alu false op] _ (binary_alu _ _ _ _ _ false op Hop)); [intros; apply emits_alu32|by destruct op; vm_compute|].
intros W Hf. apply op32_base; [done..|]. unfold op32_result. rewrite E0. cbn [Z.eqb Pos.eqb width]. do 2 f_equal. unfold op.
destruct (_ =? 0x20); cbn [alu_value]; unfold u32; by rewrite !(wrap_wrap 32 32) by lia.
- apply (inline_binary32 _ _ _ _ _ [k_shiftcl false S_shl] _ (binary_shiftcl _ _ _ _ _ false S_shl)); [intros; apply (emits_shiftcl _ false S_shl)|by vm_compute|].
intros W Hf. apply op32_base; [done..|]. unfold op32_result. rewrite E1. cbn [Z.eqb Pos.eqb width]. rewrite word_count. f_equal. symmetry. apply word_shl, shamt5.
- set (op := if funct7 inst =? 0x20 then S_sar else S_shr).
replace (if funct7 inst =? 0x20 then 7 else 5) with (shift_group op) by (unfold op; by destruct (_ =? 0x20)).
apply (inline_binary32 _ _ _ _ _ [k_shiftcl false op] _ (binary_shiftcl _ _ _ _ _ false op)); [intros; apply emits_shiftcl|by destruct op; vm_compute|].
intros W Hf. apply op32_base; [done..|]. unfold op32_result. replace (funct3 inst) with 5 by lia. cbn [Z.eqb Pos.eqb width]. rewrite word_count. f_equal. symmetry.
unfold op. destruct (_ =? 0x20); [apply word_sar, shamt5|apply word_shr, shamt5].
Qed.
End Sim.
