(* ===== verification/JitCall.v ===== *)
(** * Calls and exits of generated code

    How the code of a block leaves it: the jump back to the epilogue with the steps consumed,
    and the glue after a call into the interpreter, which continues, leaves after a trap or
    leaves before a device access, by the status the helper returned. *)

From S2P Require Import Prelude Decode Rvc Device Memory Cache Cpu Mmu See Trap Alu Exec Fpu Step CpuInv AluSem AluThms X86 Jit JitCode JitExec.

Section Call.
Context (h cpu_addr h_alu h_mem junk : Z).
#[local] Abbreviation env := (JitExec.env h cpu_addr h_alu h_mem).
#[local] Abbreviation run := (run_from (env := env) junk).
#[local] Abbreviation exec1 := (execute (env := env) junk).
#[local] Abbreviation reach := (reach h cpu_addr h_alu h_mem junk).
#[local] Abbreviation straight := (straight h cpu_addr h_alu h_mem junk).

(** At most [n] host instructions lead from [p] to the return with [res]. *)
Definition stops (code : Z -> list Z) (n : nat) (p : Z) (s : Host World) (res : Z * Z * World) : Prop :=
exists c, (c <= n)%nat /\ forall f, run (c + f) code p s = Some res.
Lemma reach_stops code c n p s p' s' res : reach code c p s p' s' -> stops code n p' s' res -> stops code (c + n) p s res.
Proof.
intros H (c' & Hc & H'). exists (c + c')%nat. split; [lia|]. intros f. rewrite <- Nat.add_assoc, H. apply H'.
Qed.
Lemma stops_more code n n' p s res : (n <= n')%nat -> stops code n p s res -> stops code n' p s res.
Proof. intros Hn (c & Hc & H). exists c. split; [lia|done]. Qed.

(** Account for [k] retired instructions. *)
Definition adds (k : Z) (W : World) : World := if k =? 0 then W else credit h k W.

Definition k_epilogue : list (list Z * Insn) := [([0x5B], POP 3); ([0xC3], RET)].
Lemma encoded_epilogue : Forall encoded k_epilogue.
Proof. repeat constructor; decoding. Qed.

Section Block.
Context (code : Z -> list Z) (base rbx : Z) (Hepi : located code (base + 6) k_epilogue).

Lemma stops_epilogue R F W s : R !! 0 = Some s -> stops code 2 (base + 6) (mkHost R F [rbx] W) (s, rbx, W).
Proof.
intros H0. pose proof encoded_epilogue as He. destruct Hepi as (Hp & Hr & _). cbn [fst length] in Hp, Hr.
apply Forall_cons_1 in He as [He1 He]. apply Forall_cons_1 in He as [He2 _]. apply (reach_stops _ 1 1 _ _ (base + 6 + 1 + 0) (mkHost (<[3 := rbx]> R) F [] W)).
- apply (reach_one _ _ _ _ _ code (base + 6) [0x5B] (POP 3) _ (mkHost (<[3 := rbx]> R) F [] W) 0 He1 Hp). done.
- exists 1%nat. split; [done|]. intros f. rewrite Z.add_0_r. cbn [run_from Nat.add]. destruct Hr as [rest Hr]. change (Z.of_nat 1) with 1 in Hr. rewrite Hr.
specialize (He2 rest). cbn [fst snd] in He2. rewrite He2. unfold execute. cbn [x_regs x_stack x_mem].
rewrite (lookup_insert_ne R 3 0), H0 by done. cbn [mbind option_bind]. by rewrite lookup_insert_eq.
Qed.

Lemma straight_adds R F S W k : R !! 3 = Some cpu_addr -> 0 <= k < 2 ^ 31 -> rng 64 (c_instret (hart h W)) ->
exists F', straight (k_retire k) (mkHost R F S W) = Some (mkHost R F' S (adds k W)).
Proof.
intros H3 Hk Hi. unfold adds. destruct (Z.eqb_spec k 0) as [-> |Hne]; [by exists F|]. apply x_credit; [done|lia|done].
Qed.
Lemma encoded_retire k : Forall encoded (k_retire k).
Proof. apply (emits_retire 0 k). Qed.
Lemma length_retire k : (length (k_retire k) <= 1)%nat.
Proof. unfold k_retire. destruct (k =? 0); cbn; lia. Qed.
Lemma encoded_ret_steps s : encoded (k_ret_steps s).
Proof. destruct (emits_ret_steps 0 s) as [He _]. by apply Forall_cons_1 in He as [He _]. Qed.

Lemma stops_leave R F W n k s : R !! 3 = Some cpu_addr -> 0 <= n < 2 ^ 20 -> 0 <= k < 2 ^ 31 -> rng 64 (c_instret (hart h W)) ->
located code (base + n) (k_leave n k s) -> stops code 5 (base + n) (mkHost R F [rbx] W) (u32 s, rbx, adds k W).
Proof.
intros H3 Hn Hk Hi Hl. unfold k_leave in Hl. apply located_app in Hl as [Hl1 Hl2]. destruct (straight_adds R F [rbx] W k H3 Hk Hi) as (F' & E).
pose proof (reach_straight _ _ _ _ _ code _ _ _ _ (encoded_retire k) Hl1 E) as Hr. pose proof (size_retire k). pose proof (length_retire k).
apply (stops_more _ (length (k_retire k) + (1 + (1 + 2)))); [lia|]. apply (reach_stops _ _ _ _ _ _ _ _ Hr).
destruct Hl2 as (Hs & Hj & _). cbn [fst k_ret_steps] in Hs, Hj. rewrite length_app, length_le in Hj. cbn [length] in Hj.
eapply reach_stops; [apply (reach_one _ _ _ _ _ code _ _ _ _ (mkHost (<[0 := u32 s]> R) F' [rbx] (adds k W)) 0 (encoded_ret_steps s) Hs); done|].
rewrite length_app, length_le. cbn [length]. rewrite Z.add_0_r. change (Z.of_nat (1 + 4)) with 5 in *.
eapply reach_stops; [eapply (reach_one _ _ _ _ _ code _ _ _ _ _ _ (enc_jmp _) Hj); done|].
rewrite length_app, length_le. cbn [length]. change (Z.of_nat (1 + 4)) with 5.
match goal with |- stops _ _ ?p _ _ => replace p with (base + 6) end.
- apply stops_epilogue. by rewrite lookup_insert_eq.
- unfold s32, u32. rewrite (sgn_wrap 32 32), sgn_small by lia. lia.
Qed.

(** ** Calls *)

(** rax after a call that returned [v]. *)
Definition eax (v : Z) : Z := u32 v .| (u32 junk << 32).
Lemma eax_low v : wrap 32 (eax v) = u32 v.
Proof. unfold eax. zbits. Qed.
Definition status (v : Z) : Flags := alu_flags A_and 32 (u32 v) (u32 v).
Lemma status_zero v : fl_z (status v) = (u32 v =? 0).
Proof. unfold status, alu_flags. cbn [fl_z alu_value]. by rewrite Z.land_diag. Qed.

Lemma encoded_call fn inst pc : Forall encoded (k_call fn inst pc).
Proof. apply (emits_call 0). Qed.
Lemma x_mov d r v R F S W : R !! r = Some v -> exec1 (MOV d r) (mkHost R F S W) = Next (mkHost (<[d := v]> R) F S W) 0.
Proof. intros E. unfold execute. cbn [x_regs]. by rewrite E. Qed.
Lemma x_callee fn inst v W' R F S W : R !! 10 = Some fn -> R !! 7 = Some cpu_addr -> R !! 6 = Some inst -> R !! 3 = Some cpu_addr ->
call_fn (HostEnv := env) fn cpu_addr (u32 inst) W = Some (v, W') ->
exec1 (CALL 10) (mkHost R F S W) = Next (mkHost {[0 := eax v; 3 := cpu_addr]} None S W') 0.
Proof.
intros E10 E7 E6 E3 Hc. unfold execute. cbn [x_regs x_mem]. rewrite E10, E7, E6. cbn [mbind option_bind]. rewrite Hc. cbn [mbind option_bind]. by rewrite E3.
Qed.
Lemma straight_call fn inst pc v W' R F S W : R !! 3 = Some cpu_addr ->
call_fn (HostEnv := env) (u64 fn) cpu_addr (u32 (u32 inst)) (upd_hart h (set_c_pc (u64 pc)) W) = Some (v, W') ->
straight (k_call fn inst pc) (mkHost R F S W) = Some (mkHost {[0 := eax v; 3 := cpu_addr]} (Some (status v)) S W').
Proof.
intros H3 Hc. unfold k_call. cbn [straight snd k_imm64].
change (exec1 (MOV_imm64 0 (u64 pc)) (mkHost R F S W)) with (Next (mkHost (<[0 := u64 pc]> R) F S W) 0). cbv beta iota.
rewrite (x_store_pc h cpu_addr h_alu h_mem junk (<[0 := u64 pc]> R) F S W ltac:(by rewrite lookup_insert_ne) 0 (u64 pc)) by by rewrite lookup_insert_eq.
rewrite (x_mov 7 3 cpu_addr) by by rewrite lookup_insert_ne.
set (R1 := <[7 := _]> _). set (W1 := upd_hart h _ W) in *.
change (exec1 (MOV_imm32 6 (u32 inst)) (mkHost R1 F S W1)) with (Next (mkHost (<[6 := u32 inst]> R1) F S W1) 0). cbv beta iota.
change (exec1 (MOV_imm64 10 (u64 fn)) (mkHost (<[6 := u32 inst]> R1) F S W1)) with (Next (mkHost (<[10 := u64 fn]> (<[6 := u32 inst]> R1)) F S W1) 0). cbv beta iota.
rewrite (x_callee (u64 fn) (u32 inst) v W'); [| |unfold R1..|done]; [|rewrite ?lookup_insert_ne by done; by rewrite ?lookup_insert_eq, ?H3..].
unfold execute. cbn [x_regs]. rewrite lookup_insert_eq. cbn. change (u32 (eax v)) with (wrap 32 (eax v)). by rewrite eax_low.
Qed.

(** A conditional jump over [l]. *)
Lemma reach_over l R f S W p : size l <= 127 -> fl_z f = true -> located code p (k_je l :: l) ->
reach code 1 p (mkHost R (Some f) S W) (p + size (k_je l :: l)) (mkHost R (Some f) S W).
Proof.
intros Hs Hz [Hl _]. pose proof (size_nonneg l). unfold k_je in *. rewrite size_cons, Z.add_assoc.
apply (reach_one _ _ _ _ _ code p _ _ _ _ _ (enc_je (size l) ltac:(lia)) Hl). unfold execute. cbn. by rewrite Hz.
Qed.
Lemma reach_into l R f S W p : size l <= 127 -> fl_z f = false -> located code p (k_je l :: l) ->
reach code 1 p (mkHost R (Some f) S W) (p + 2) (mkHost R (Some f) S W).
Proof.
intros Hs Hz [Hl _]. pose proof (size_nonneg l). unfold k_je in *.
pose proof (reach_one h cpu_addr h_alu h_mem junk code p _ _ (mkHost R (Some f) S W) (mkHost R (Some f) S W) 0 (enc_je (size l) ltac:(lia)) Hl) as H1.
rewrite length_app, length_le, Z.add_0_r in H1. apply H1. unfold execute. cbn. by rewrite Hz.
Qed.

Section Glue.
Context (n k : Z) (R : gmap Z Z) (W : World) (Hn : 0 <= n < 2 ^ 19) (Hk : 0 <= k < 2 ^ 20) (HR : R !! 3 = Some cpu_addr) (Hi : rng 64 (c_instret (hart h W))).

(** After status 0 the glue is skipped; any other status of an integer instruction leaves. *)
Lemma glue_alu_retired v : u32 v = 0 -> located code (base + n) (k_glue_alu n k) ->
reach code 1 (base + n) (mkHost R (Some (status v)) [rbx] W) (base + n + size (k_glue_alu n k)) (mkHost R (Some (status v)) [rbx] W).
Proof.
intros Hv Hl. apply reach_over; [rewrite size_leave; pose proof (size_retire k); lia|by rewrite status_zero, Hv|done].
Qed.
Lemma glue_alu_left v : u32 v <> 0 -> located code (base + n) (k_glue_alu n k) ->
stops code 6 (base + n) (mkHost R (Some (status v)) [rbx] W) (k + 1, rbx, adds k W).
Proof.
intros Hv Hl. apply (reach_stops _ 1 5 _ _ (base + n + 2) (mkHost R (Some (status v)) [rbx] W)).
- apply (reach_into (k_leave (n + 2) k (k + 1))); [rewrite size_leave; pose proof (size_retire k); lia|rewrite status_zero; by apply Z.eqb_neq|done].
- destruct Hl as [_ Hl]. unfold k_je in Hl. cbn [fst] in Hl. rewrite length_app, length_le in Hl. change (Z.of_nat (length [0x74] + 1)) with 2 in Hl. rewrite <- Z.add_assoc in Hl |- *.
replace (k + 1) with (u32 (k + 1)) at 1 by (apply wrap_small; [lia|unfold rng; lia]). by apply stops_leave; try lia.
Qed.

Lemma glue_mem_size : size (([0x83; 0xF8; 0x03], ALU_imm false A_cmp 0 3) :: k_abort (n + 5) k) <= 127.
Proof. rewrite size_cons, size_abort. pose proof (size_retire k). cbn [length]. lia. Qed.
Lemma glue_mem_retired v : u32 v = 0 -> located code (base + n) (k_glue_mem n k) ->
reach code 1 (base + n) (mkHost R (Some (status v)) [rbx] W) (base + n + size (k_glue_mem n k)) (mkHost R (Some (status v)) [rbx] W).
Proof. intros Hv Hl. apply reach_over; [apply glue_mem_size|by rewrite status_zero, Hv|done]. Qed.
(** The other statuses of a memory instruction leave, with the step consumed or, for a device
access, before it. *)
Lemma glue_mem_left v : R !! 0 = Some (eax v) -> u32 v <> 0 -> located code (base + n) (k_glue_mem n k) ->
stops code 8 (base + n) (mkHost R (Some (status v)) [rbx] W) (if u32 v =? 3 then k else k + 1, rbx, adds k W).
Proof.
intros H0 Hv Hl. pose proof glue_mem_size as Hs. pose proof (size_retire k). apply (reach_stops _ 1 7 _ _ (base + n + 2) (mkHost R (Some (status v)) [rbx] W)).
{ apply (reach_into (([0x83; 0xF8; 0x03], ALU_imm false A_cmp 0 3) :: k_abort (n + 5) k)); [done|rewrite status_zero; by apply Z.eqb_neq|done]. }
destruct Hl as [_ [Hc Hl]]. unfold k_je in Hc, Hl. cbn [fst length app] in Hc, Hl. rewrite length_le in Hc, Hl.
change (Z.of_nat (S 1)) with 2 in *. set (f := alu_flags A_cmp 32 (u32 v) 3).
apply (reach_stops _ 1 6 _ _ (base + n + 2 + 3 + 0) (mkHost R (Some f) [rbx] W)).
{ apply (reach_one _ _ _ _ _ code _ [0x83; 0xF8; 0x03] (ALU_imm false A_cmp 0 3)); [decoding|done|]. unfold execute. cbn [x_regs]. rewrite H0.
cbn [mbind option_bind width]. by rewrite eax_low. }
change (Z.of_nat 3) with 3 in Hl. replace (base + n + 2 + 3 + 0) with (base + (n + 5)) by lia. replace (base + n + 2 + 3) with (base + (n + 5)) in Hl by lia.
assert (fl_z f = (u32 v =? 3)) as Hz.
{ unfold f, alu_flags. cbn [fl_z alu_value]. pose proof (u32_rng v) as Hr. unfold rng in Hr. destruct (Z.eqb_spec (u32 v) 3) as [-> |Hne]; [done|].
apply Z.eqb_neq. intros E. apply Hne. assert (u32 v = wrap 32 (u32 v - 3 + 3)) as -> by (rewrite Z.sub_add; symmetry; apply wrap_small; [lia|unfold rng; lia]).
rewrite <- wrap_add_l, E by lia. done. }
unfold k_abort in Hl; cbv zeta in Hl. set (l := k_leave (n + 5 + 2) k (k + 1)) in *. assert (size l = size (k_retire k) + 10) as El by apply size_leave.
change (k_je l :: l ++ k_leave (n + 5 + 2 + size l) k k) with ((k_je l :: l) ++ k_leave (n + 5 + 2 + size l) k k) in Hl. apply located_app in Hl as [Hl1 Hl2].
destruct (Z.eqb_spec (u32 v) 3) as [E3|E3].
- eapply (reach_stops _ 1 5); [apply (reach_over l); [lia|done|done]|].
unfold k_je in Hl2 |- *. rewrite size_cons, length_app, length_le in Hl2 |- *. change (Z.of_nat (length [0x74] + 1)) with 2 in *.
replace (base + (n + 5) + (2 + size l)) with (base + (n + 5 + 2 + size l)) in Hl2 |- * by lia.
replace k with (u32 k) at 1 by (apply wrap_small; [lia|unfold rng; lia]). by apply stops_leave; try lia.
- eapply (reach_stops _ 1 5); [apply (reach_into l); [lia|done|done]|].
destruct Hl1 as [_ Hl1]. unfold k_je in Hl1. cbn [fst] in Hl1. rewrite length_app, length_le in Hl1. change (Z.of_nat (length [0x74] + 1)) with 2 in Hl1.
replace (base + (n + 5) + 2) with (base + (n + 5 + 2)) in Hl1 |- * by lia.
replace (k + 1) with (u32 (k + 1)) at 1 by (apply wrap_small; [lia|unfold rng; lia]). by apply stops_leave; try lia.
Qed.
End Glue.
End Block.
End Call.
