(* ===== verification/JitRef.v ===== *)
(** * The interpreter on the instructions of a block

    The reference for generated code: each instruction of the block in turn through
    [dispatch] and [retire] of the interpreter, until one traps or would access a device.
    The handlers a block runs do not look at the count of retired instructions, so a block
    may account for them when it leaves. *)

From S2P Require Import Prelude Decode Rvc Device Memory Cache Cpu Mmu See Trap Alu Exec Fpu Step CpuInv AluSem AluThms EngineInv MmuThms X86 Jit JitCode JitExec JitCall.

Section Ref.
Context (h : Z).

(** ** The reference *)

Inductive Verdict := Retired | Trapped | Deferred.

(** The address of the access and whether it belongs to a device. *)
Definition accesses (inst : Z) : bool := (opcode inst =? OP_LOAD) || (opcode inst =? OP_STORE).
Definition probe (inst : Z) : st World bool :=
let is_store := opcode inst =? OP_STORE in
c ← gets (hart h);
let va := u64 (reg_read c (rs1 inst) + u64 (if is_store then imm_s inst else imm_i inst)) in
t ← mmu_translate h va (if is_store then ACC_STORE else ACC_LOAD);
b ← gets w_bus;
mret (match t with Phys pa => b_has_plat b && plat_contains pa | Fault _ => false end).

(** [cpu_step] from the fetched instruction on. *)
Definition interp_step (inst ilen : Z) : st World Verdict :=
bus (modify (set_b_fault false)) ;;
cpu_upd h (set_c_trapped false) ;;
next ← dispatch h inst ilen;
retire h inst next ;;
gets (fun w => if c_trapped (hart h w) || c_halted (hart h w) then Trapped else Retired).
Definition interp_insn (inst ilen : Z) : st World Verdict :=
dev ← (if accesses inst then probe inst else mret false);
if dev : bool then mret Deferred else interp_step inst ilen.

(** The steps consumed: those of the retired instructions and of the one that trapped. *)
Fixpoint interp_block (l : list (Z * Z)) (steps : Z) : st World Z :=
match l with
| [] => mret steps
| (inst, ilen) :: l =>
v ← interp_insn inst ilen;
match v with
| Retired => interp_block l (steps + 1)
| Trapped => mret (steps + 1)
| Deferred => mret steps
end
end.

(** ** Accounting later *)

#[local] Abbreviation adds := (adds h).
Definition slides {A} (m : st World A) : Prop := forall k W, m (adds k W) = (run m W, adds k (exec m W)).
(** A change of the hart that does not look at the count. *)
Definition blind (f : CPU -> CPU) : Prop := forall c v, f (set_c_instret v c) = set_c_instret v (f c) /\ c_instret (f c) = c_instret c.

Lemma slides_ret {A} (a : A) : slides (mret a).
Proof. by intros k W. Qed.
Lemma slides_bind {A B} (m : st World A) (F : A -> st World B) : slides m -> (forall a, slides (F a)) -> slides (m ≫= F).
Proof.
intros Hm HF k W. unfold mbind, st_bind. rewrite Hm. unfold run, exec. destruct (m W) as [a W1]. cbn. by rewrite (HF a).
Qed.
Lemma slides_bind_post {A B} (P : A -> Prop) (m : st World A) (F : A -> st World B) : (forall W, P (run m W)) -> slides m ->
(forall a, P a -> slides (F a)) -> slides (m ≫= F).
Proof.
intros HP Hm HF k W. unfold mbind, st_bind. rewrite Hm. specialize (HP W). unfold run, exec in *. destruct (m W) as [a W1]. cbn in *. by rewrite (HF a).
Qed.
Lemma slides_bus {A} (m : st Bus A) : slides (bus m).
Proof.
intros k W. unfold bus, run, exec, adds, credit. destruct (k =? 0); [by destruct (m (w_bus W))|].
unfold upd_hart, set_w_harts. cbn [w_bus]. by destruct (m (w_bus W)).
Qed.
Lemma hart_adds k W : hart h (adds k W) = if k =? 0 then hart h W else set_c_instret (u64 (c_instret (hart h W) + k)) (hart h W).
Proof. unfold adds, credit. destruct (k =? 0); [done|]. by rewrite hart_upd, decide_True. Qed.
Lemma slides_read {A} (F : CPU -> st World A) : (forall c v, F (set_c_instret v c) = F c) -> (forall c, slides (F c)) -> slides (c ← gets (hart h); F c).
Proof.
intros HF Hs k W. unfold mbind, st_bind, gets. rewrite hart_adds. destruct (k =? 0) eqn:E; [|rewrite HF]; rewrite Hs; done.
Qed.
Lemma slides_bus_read {A} (F : Bus -> st World A) : (forall b, slides (F b)) -> slides (b ← gets w_bus; F b).
Proof.
intros Hs k W. unfold mbind, st_bind, gets. replace (w_bus (adds k W)) with (w_bus W) by (unfold adds; by destruct (k =? 0)). rewrite Hs. done.
Qed.
Lemma upd_hart_at i f g W : f (hart i W) = g (hart i W) -> upd_hart i f W = upd_hart i g W.
Proof. intros E. unfold upd_hart. by rewrite E. Qed.
Lemma slides_upd i f : blind f -> slides (cpu_upd i f).
Proof.
intros Hf k W. unfold cpu_upd, modify, run, exec. cbn [fst snd]. f_equal. unfold adds. destruct (k =? 0); [done|].
unfold credit. destruct (decide (i = h)) as [-> |Hne].
- rewrite !upd_hart_twice. apply upd_hart_at. by destruct (Hf (hart h W) (u64 (c_instret (hart h W) + k))) as [-> ->].
- unfold upd_hart at 1 3. rewrite !hart_upd, !decide_False by done. unfold upd_hart, set_w_harts. cbn. by rewrite insert_insert_ne.
Qed.
Lemma slides_cache f : slides (modify (fun w => set_w_cache (f (w_cache w)) w)).
Proof. intros k W. unfold modify, run, exec, adds, credit. by destruct (k =? 0). Qed.
Lemma slides_for m : (forall i, slides (m i)) -> forall n i, slides (for_ n i m).
Proof. intros Hm n. induction n as [|n IH]; intros i; cbn [for_]; [apply slides_ret|]. apply slides_bind; [done|]. intros _. apply IH. Qed.
Lemma slides_if {A} (b : bool) (m m' : st World A) : slides m -> slides m' -> slides (if b then m else m').
Proof. by destruct b. Qed.
Lemma slides_when b m : slides m -> slides (when b m).
Proof. destruct b; cbn; [done|]. intros _. apply slides_ret. Qed.

Lemma blind_reg_write i v : blind (reg_write i v).
Proof. intros c x. unfold reg_write. by destruct (i =? 0). Qed.
Lemma blind_break word : blind (break_one word).
Proof. intros c x. unfold break_one. cbn [c_reserve_valid c_reserve_addr set_c_instret]. by destruct (_ && _). Qed.
Lemma blind_enter_trap cause tval to_s : blind (enter_trap cause tval to_s).
Proof. intros c x. by destruct to_s. Qed.

Ltac slide :=
repeat (cbv zeta; match goal with
| |- slides (mbind _ (gets (hart h))) => apply slides_read; [intros; reflexivity|intros ?]
| |- slides (mbind _ (gets w_bus)) => apply slides_bus_read; intros ?
| |- slides (mbind _ _) => apply slides_bind; [|intros ?]
| |- slides (mret _) => apply slides_ret
| |- slides (bus _) => apply slides_bus
| |- slides (host _) => apply slides_bus
| |- slides (cpu_upd _ (reg_write _ _)) => apply slides_upd, blind_reg_write
| |- slides (cpu_upd _ (break_one _)) => apply slides_upd, blind_break
| |- slides (cpu_upd _ (enter_trap _ _ _)) => apply slides_upd, blind_enter_trap
| |- slides (cpu_upd _ _) => apply slides_upd; by intros ? ?
| |- slides (modify (fun w => set_w_cache _ w)) => apply slides_cache
| |- slides (when _ _) => apply slides_when
| |- slides (for_ _ _ _) => apply slides_for; intros ?
| |- slides (if _ then _ else _) => apply slides_if
| |- slides (match ?x with _ => _ end) => destruct x
end).

Definition synchronous (cause : Z) : Prop := cause <> CAUSE_ECALL_S /\ cause <> CAUSE_ECALL_U /\ cause <> CAUSE_ECALL_M.
Lemma slides_raise cause tval : synchronous cause -> slides (raise_trap h cause tval).
Proof.
intros (H1 & H2 & H3). unfold raise_trap, legacy_trap. rewrite (proj2 (Z.eqb_neq cause _) H1), (proj2 (Z.eqb_neq cause _) H2), (proj2 (Z.eqb_neq cause _) H3). cbn [orb]. slide.
Qed.
Lemma sync_pf acc : synchronous (pf_cause acc).
Proof. by destruct acc. Qed.
Lemma slides_translate va acc : slides (mmu_translate h va acc).
Proof. unfold mmu_translate, finish_walk. slide. Qed.
Lemma slides_break a : slides (break_reservation h a).
Proof. unfold break_reservation. slide. Qed.
Lemma slides_observe pa s : slides (observe_cache h pa s).
Proof. unfold observe_cache. slide. Qed.

(** A failed translation gives the page fault of the access. *)
Definition faults (acc : AccessType) (t : Trans) : Prop := match t with Fault cause => cause = pf_cause acc | Phys _ => True end.
Lemma translate_faults va acc W : faults acc (run (mmu_translate h va acc) W).
Proof.
assert (keeps (fun _ => True) (mmu_translate h va acc) (faults acc)) as H by (unfold mmu_translate, finish_walk;
repeat (cbv zeta; match goal with
| |- keeps _ (mbind _ _) _ => apply (keeps_bind _ _ _ (fun _ => True)); [by intros ? ?|intros ? _]
| |- keeps _ (mret _) _ => by apply keeps_ret
| |- keeps _ (if _ then _ else _) _ => apply keeps_if
| |- keeps _ (match ?x with _ => _ end) _ => destruct x
end)).
by destruct (H W I).
Qed.
Lemma slides_access va acc {A} (F : Trans -> st World A) : (forall cause, synchronous cause -> slides (F (Fault cause))) -> (forall pa, slides (F (Phys pa))) ->
slides (t ← mmu_translate h va acc; F t).
Proof.
intros Hf Hp. apply (slides_bind_post (faults acc)); [apply translate_faults|apply slides_translate|]. intros [cause|pa] Ht; [|done].
apply Hf. cbn in Ht. rewrite Ht. apply sync_pf.
Qed.
Lemma slides_load inst : slides (exec_load h inst).
Proof.
unfold exec_load. apply slides_read; [by intros|]. intros c. apply slides_access.
- intros cause Hc. apply slides_bind; [by apply slides_raise|]. intros _. apply slides_ret.
- intros pa. apply slides_bind; [apply slides_observe|]. intros _. slide.
Qed.
Lemma slides_store inst : slides (exec_store h inst).
Proof.
unfold exec_store. apply slides_read; [by intros|]. intros c. apply slides_access.
- intros cause Hc. apply slides_bind; [by apply slides_raise|]. intros _. apply slides_ret.
- intros pa. apply slides_bind; [apply slides_break|]. intros _. apply slides_bind; [apply slides_observe|]. intros _. slide.
Qed.
Lemma slides_exec_mem inst : slides (cpu_exec_mem h inst).
Proof.
unfold cpu_exec_mem. apply slides_bind; [apply slides_bus|]. intros _. apply slides_bind; [apply slides_upd; by intros ? ?|]. intros _.
apply slides_bind; [apply slides_if; [apply slides_load|apply slides_store]|]. intros pa. apply slides_bus_read. intros b. apply slides_if.
- apply slides_bind; [|intros _; apply slides_ret]. apply slides_raise. by destruct (_ =? _).
- apply slides_read; [by intros|]. intros c. apply slides_ret.
Qed.
Lemma slides_probe inst : slides (probe inst).
Proof.
unfold probe. apply slides_read; [by intros|]. intros c. apply slides_bind; [apply slides_translate|]. intros t. slide.
Qed.

(** ** Handlers as equations *)

Definition calm (W : World) : Prop := b_fault (w_bus W) = false /\ c_trapped (hart h W) = false /\ c_halted (hart h W) = false.
Definition present (W : World) : Prop := is_Some (w_harts W !! h).
(** Retire with the next program counter [v]. *)
Definition advance (v : Z) : World -> World :=
upd_hart h (fun c => set_c_pc (sext_xlen c v) (set_c_instret (u64 (c_instret c + 1)) c)).
(** The machine of the interpreter where the block has run [k] instructions and comes to [v]. *)
Definition now (v k : Z) (W : World) : World := adds k (upd_hart h (set_c_pc v) W).

Definition alu_handler (inst : Z) : st World unit :=
let op := opcode inst in
if op =? OP_IMM then exec_op_imm h inst
else if op =? OP_IMM_32 then exec_op_imm32 h inst
else if op =? OP_REG then exec_op h inst
else if op =? OP_REG_32 then exec_op32 h inst
else raise_trap h CAUSE_ILLEGAL_INSN inst.
#[local] Abbreviation value W inst := (alu_result (c_xlen (hart h W)) inst (reg_read (hart h W) (rs1 inst)) (reg_read (hart h W) (rs2 inst))).
Lemma alu_handler_eq inst W : alu_handler inst W =
match value W inst with Some r => (tt, upd_hart h (reg_write (rd inst) r) W) | None => raise_trap h CAUSE_ILLEGAL_INSN inst W end.
Proof.
unfold alu_handler, alu_result, exec_op_imm, exec_op_imm32, exec_op, exec_op32, exec_muldiv, exec_muldiv64, exec_muldivw, exec_bitmanip_imm, exec_bitmanip_imm32,
exec_bitmanip_op, exec_bitmanip_op32, mbind, st_bind, gets. cbv zeta.
destruct (opcode inst =? OP_IMM); [by destruct (bitmanip_imm _ _ _)|]. destruct (opcode inst =? OP_IMM_32).
{ destruct (negb _); [done|]. destruct (bitmanip_imm32 _ _); [done|]. cbn. by destruct (op_imm32_result _ _). }
destruct (opcode inst =? OP_REG).
{ destruct (funct7 inst =? 1); [by destruct (_ =? 64)|]. by destruct (bitmanip_op _ _ _ _). }
destruct (opcode inst =? OP_REG_32); [|done]. destruct (negb _); [done|]. destruct (funct7 inst =? 1); [by destruct (muldivw _ _ _)|].
destruct (bitmanip_op32 _ _ _); [done|]. cbn. by destruct (op32_result _ _ _).
Qed.

(** A synchronous trap redirects or halts the hart; the fault latch is untouched. *)
Lemma raise_stops cause tval W : synchronous cause -> let W' := exec (raise_trap h cause tval) W in
c_trapped (hart h W') || c_halted (hart h W') = true /\ b_fault (w_bus W') = b_fault (w_bus W).
Proof.
intros (H1 & H2 & H3). unfold raise_trap, legacy_trap. rewrite (proj2 (Z.eqb_neq cause _) H1), (proj2 (Z.eqb_neq cause _) H2), (proj2 (Z.eqb_neq cause _) H3). cbn [orb].
unfold mbind, st_bind, gets, exec, cpu_upd, modify, host, bus. cbv zeta beta iota.
repeat match goal with |- context [if ?b then _ else _] => destruct b end; cbn; rewrite ?hart_after; cbn; rewrite ?orb_true_r; done.
Qed.

Lemma fault_same b : b_fault b = false -> set_b_fault false b = b.
Proof. intros E. destruct b. cbn in *. by rewrite E. Qed.
Lemma upd_same f W : present W -> f (hart h W) = hart h W -> upd_hart h f W = W.
Proof. intros [c Hc] Hf. unfold upd_hart. rewrite Hf. unfold hart. rewrite Hc. cbn. rewrite insert_id by done. by destruct W. Qed.
Lemma trapped_same W : present W -> c_trapped (hart h W) = false -> upd_hart h (set_c_trapped false) W = W.
Proof. intros Hp Ht. apply upd_same; [done|]. destruct (hart h W). cbn in *. by rewrite Ht. Qed.
Lemma clears_calm {A} (m : st World A) W : present W -> calm W -> (bus (modify (set_b_fault false)) ;; cpu_upd h (set_c_trapped false) ;; m) W = m W.
Proof.
intros Hp (Hb & Ht & _). unfold mbind, st_bind, bus, modify, cpu_upd, modify. rewrite fault_same by done. cbn.
replace (set_w_bus (w_bus W) W) with W by by destruct W. by rewrite trapped_same.
Qed.
Lemma retire_calm inst v W : calm W -> has v 1 = false -> retire h inst v W = (tt, advance v W).
Proof. intros (Hb & Ht & Hh) Hv. unfold retire, mbind, st_bind, gets. by rewrite Hb, Ht, Hh, Hv. Qed.
Lemma retire_stopped inst v W : b_fault (w_bus W) = false -> c_trapped (hart h W) || c_halted (hart h W) = true -> retire h inst v W = (tt, W).
Proof. intros Hb Hs. unfold retire, mbind, st_bind, gets. rewrite Hb. destruct (c_trapped _); [done|]. cbn in Hs. by rewrite Hs. Qed.

Lemma interp_retired inst ilen next W W' : present W -> calm W -> dispatch h inst ilen W = (next, W') -> calm W' -> has next 1 = false ->
interp_step inst ilen W = (Retired, advance next W').
Proof.
intros Hp Hc Hd Hc' He. unfold interp_step. rewrite clears_calm by done. unfold mbind, st_bind. rewrite Hd, retire_calm by done.
unfold gets, advance. rewrite hart_after. destruct Hc' as (_ & Ht & Hh). cbn [c_trapped c_halted set_c_pc set_c_instret]. by rewrite Ht, Hh.
Qed.
Definition integer (inst : Z) : Prop := opcode inst = OP_IMM \/ opcode inst = OP_IMM_32 \/ opcode inst = OP_REG \/ opcode inst = OP_REG_32.
Lemma dispatch_alu inst ilen W : integer inst -> dispatch h inst ilen W = (u64 (c_pc (hart h W) + ilen), exec (alu_handler inst) W).
Proof.
intros Hi. unfold dispatch, alu_handler, mbind, st_bind, gets, exec.
destruct Hi as [E|[E|[E|E]]]; rewrite E; cbn [Z.eqb Pos.eqb OP_IMM OP_IMM_32 OP_REG OP_REG_32];
match goal with |- context [?m h inst W] => by destruct (m h inst W) end.
Qed.
Lemma interp_alu inst ilen W : present W -> calm W -> integer inst -> has (u64 (c_pc (hart h W) + ilen)) 1 = false ->
interp_step inst ilen W = match value W inst with
| Some r => (Retired, advance (u64 (c_pc (hart h W) + ilen)) (upd_hart h (reg_write (rd inst) r) W))
| None => (Trapped, exec (raise_trap h CAUSE_ILLEGAL_INSN inst) W)
end.
Proof.
intros Hp Hc Hi He. pose proof (dispatch_alu inst ilen W Hi) as Hd. unfold exec in Hd. rewrite alu_handler_eq in Hd. destruct (value W inst) as [r|].
- cbn [snd] in Hd. apply (interp_retired _ _ _ W _ Hp Hc Hd); [|done]. destruct Hc as (Hb & Ht & Hh). split; [done|]. rewrite hart_after. unfold reg_write. by destruct (_ =? 0).
- unfold interp_step. rewrite clears_calm by done. unfold mbind, st_bind. rewrite Hd.
destruct (raise_stops CAUSE_ILLEGAL_INSN inst W) as [Hs Hb]; [done|]. unfold exec in *. rewrite retire_stopped; [|rewrite Hb; apply Hc|done].
unfold gets. by rewrite Hs.
Qed.

Lemma dispatch_mem inst ilen W : accesses inst = true ->
dispatch h inst ilen W = (u64 (c_pc (hart h W) + ilen), exec (if opcode inst =? OP_LOAD then exec_load h inst else exec_store h inst) W).
Proof.
intros Ha. unfold dispatch, mbind, st_bind, gets, exec. unfold accesses in Ha. apply orb_prop in Ha as [E|E]; apply Z.eqb_eq in E; rewrite E;
cbn [Z.eqb Pos.eqb OP_IMM OP_IMM_32 OP_REG OP_REG_32 OP_LUI OP_AUIPC OP_JAL OP_JALR OP_BRANCH OP_LOAD OP_STORE];
match goal with |- context [?m h inst W] => by destruct (m h inst W) end.
Qed.
Lemma interp_mem inst ilen W : accesses inst = true -> has (u64 (c_pc (hart h W) + ilen)) 1 = false ->
interp_step inst ilen W = let '(r, W') := cpu_exec_mem h inst W in
if r.1 : bool then (Trapped, W') else (Retired, advance (u64 (c_pc (hart h W) + ilen)) W').
Proof.
intros Ha He. unfold interp_step, cpu_exec_mem, mbind, st_bind, cpu_upd, modify, bus, modify. cbn [fst snd].
set (W1 := upd_hart h (set_c_trapped false) _). assert (c_pc (hart h W1) = c_pc (hart h W)) as Epc by (unfold W1; by rewrite hart_after).
rewrite (dispatch_mem inst ilen W1 Ha), Epc. set (m := if opcode inst =? OP_LOAD then _ else _). unfold exec. destruct (m W1) as [pa W2]. cbn [fst snd].
unfold retire, mbind, st_bind, gets. destruct (b_fault (w_bus W2)) eqn:Eb.
- set (cause := if opcode inst =? OP_STORE then _ else _).
replace (if (opcode inst =? OP_STORE) || (opcode inst =? OP_AMO) || (opcode inst =? OP_STORE_FP) then CAUSE_STORE_ACCESS else CAUSE_LOAD_ACCESS) with cause.
+ assert (synchronous cause) as Hsy by (unfold cause; destruct (opcode inst =? OP_STORE); by repeat split).
  destruct (raise_stops cause (b_fault_addr (w_bus W2)) W2 Hsy) as [Hs _]. unfold exec in Hs.
  destruct (raise_trap h cause _ W2) as [u W3]. cbn in *. by rewrite Hs.
+ unfold accesses in Ha. apply orb_prop in Ha as [E|E]; apply Z.eqb_eq in E; unfold cause; by rewrite E.
- destruct (c_trapped (hart h W2)) eqn:Et; [cbn; by rewrite Et|]. destruct (c_halted (hart h W2)) eqn:Eh; [cbn; by rewrite Et, Eh|]. rewrite He.
unfold advance. cbn. rewrite hart_after. cbn. by rewrite Et, Eh.
Qed.

(** ** The zero register *)

Definition zero (W : World) : Prop := present W /\ (c_regs (hart h W)).[0] = 0.
Lemma zero_upd i f : (forall c, (c_regs c).[0] = 0 -> (c_regs (f c)).[0] = 0) -> keeps zero (cpu_upd i f) (fun _ => True).
Proof.
intros Hf. apply keeps_modify; [done|]. intros W [Hp Hz]. destruct (decide (i = h)) as [-> |Hne].
- split; [unfold present, upd_hart; cbn; rewrite lookup_insert_eq; by eexists|]. rewrite hart_after. by apply Hf.
- split; [unfold present, upd_hart; cbn; by rewrite lookup_insert_ne|]. by rewrite hart_upd, decide_False.
Qed.
Lemma zero_bus {A} (m : st Bus A) : keeps zero (bus m) (fun _ => True).
Proof. intros W HW. split; [done|]. unfold exec, bus. by destruct (m (w_bus W)). Qed.
Lemma zero_reg_write i v c : (c_regs c).[0] = 0 -> (c_regs (reg_write i v c)).[0] = 0.
Proof. intros Hz. unfold reg_write. destruct (Z.eqb_spec i 0); [done|]. cbn. by rewrite aget_aset_ne. Qed.

Ltac zero :=
repeat (cbv zeta; match goal with
| |- keeps _ (mbind _ _) _ => apply (keeps_bind _ _ _ (fun _ => True)); [|intros ? _]
| |- keeps _ (mret _) _ => by apply keeps_ret
| |- keeps _ (gets _) _ => by intros ? ?
| |- keeps _ (bus _) _ => apply zero_bus
| |- keeps _ (host _) _ => apply zero_bus
| |- keeps _ (cpu_upd _ (reg_write _ _)) _ => apply zero_upd; intros; by apply zero_reg_write
| |- keeps _ (cpu_upd _ (break_one _)) _ => apply zero_upd; intros; unfold break_one; by destruct (_ && _)
| |- keeps _ (cpu_upd _ (enter_trap _ _ ?b)) _ => apply zero_upd; intros; by destruct b
| |- keeps _ (cpu_upd _ _) _ => apply zero_upd; by intros
| |- keeps _ (modify _) _ => by intros ? ?
| |- keeps _ (when _ _) _ => apply keeps_when; [done|]
| |- keeps _ (for_ _ _ _) _ => apply keeps_for; intros ? ?
| |- keeps _ (if _ then _ else _) _ => apply keeps_if
| |- keeps _ (match ?x with _ => _ end) _ => destruct x
end).
Lemma zero_translate va acc : keeps zero (mmu_translate h va acc) (faults acc).
Proof.
intros W HW. split; [apply translate_faults|]. revert W HW. enough (keeps zero (mmu_translate h va acc) (fun _ => True)) as H by (intros W HW; by apply H).
unfold mmu_translate, finish_walk. zero.
Qed.
Lemma zero_raise cause tval : synchronous cause -> keeps zero (raise_trap h cause tval) (fun _ => True).
Proof.
intros (H1 & H2 & H3). unfold raise_trap, legacy_trap. rewrite (proj2 (Z.eqb_neq cause _) H1), (proj2 (Z.eqb_neq cause _) H2), (proj2 (Z.eqb_neq cause _) H3). cbn [orb]. zero.
Qed.
Lemma zero_exec_mem inst : keeps zero (cpu_exec_mem h inst) (fun _ => True).
Proof.
assert (forall acc cause tval, faults acc (Fault cause) -> keeps zero (raise_trap h cause tval) (fun _ => True)) as Hr
by (intros acc cause tval Hf; apply zero_raise; cbn in Hf; rewrite Hf; apply sync_pf).
unfold cpu_exec_mem, exec_load, exec_store, observe_cache, break_reservation.
apply (keeps_bind _ _ _ (fun _ => True)); [zero|intros _ _]. apply (keeps_bind _ _ _ (fun _ => True)); [zero|intros _ _].
apply (keeps_bind _ _ _ (fun _ => True)).
- apply keeps_if; (apply (keeps_bind _ _ _ (fun _ => True)); [zero|intros c _]; cbv zeta; eapply keeps_bind; [apply zero_translate|intros [cause|pa] Hf; cbv beta in Hf]; [|zero];
  (apply (keeps_bind _ _ _ (fun _ => True)); [by eapply Hr|zero]); by intros ? ?).
- intros pa _. zero. apply zero_raise. destruct (opcode inst =? OP_STORE); by repeat split.
Qed.

(** ** The probe *)

(** The address a memory instruction accesses. *)
Definition target (inst : Z) (W : World) : Z :=
u64 (reg_read (hart h W) (rs1 inst) + u64 (if opcode inst =? OP_STORE then imm_s inst else imm_i inst)).
#[local] Abbreviation kind inst := (if opcode inst =? OP_STORE then ACC_STORE else ACC_LOAD).
Lemma exec_mem_again inst W t W' : accesses inst = true -> zero W -> calm W ->
mmu_translate h (target inst W) (kind inst) W = (t, W') -> mmu_translate h (target inst W) (kind inst) W' = (t, W') -> b_fault (w_bus W') = false ->
cpu_exec_mem h inst W' = cpu_exec_mem h inst W.
Proof.
intros Ha Hz Hc Et Et' Hf. destruct (translate_hart h (target inst W) (kind inst) W) as [x Ex]. destruct (zero_translate (target inst W) (kind inst) W Hz) as [_ [Hp' _]].
unfold exec in *. rewrite Et in *. cbn [snd] in *.
assert (calm W') as Hc' by (destruct Hc as (_ & Ht & Hh); split; [done|]; by rewrite Ex).
unfold cpu_exec_mem. rewrite !clears_calm by (done || apply Hz).
assert ((if opcode inst =? OP_LOAD then exec_load h inst else exec_store h inst) W' = (if opcode inst =? OP_LOAD then exec_load h inst else exec_store h inst) W) as E;
[|unfold mbind, st_bind; by rewrite E].
unfold target in *. unfold accesses in Ha. apply orb_prop in Ha as [Eo|Eo]; apply Z.eqb_eq in Eo; rewrite Eo in *; cbn [Z.eqb Pos.eqb OP_LOAD OP_STORE] in *;
unfold exec_load, exec_store, mbind, st_bind, gets; rewrite Et, Ex; cbn [c_xlen set_c_tlb];
change (reg_read (set_c_tlb x (hart h W))) with (reg_read (hart h W)); by rewrite Et'.
Qed.

(** Where the page tables are in RAM, the probe of a block does not show: the instruction is
deferred, or the interpreter executes it from the very state before the probe. *)
Lemma probe_invisible inst ilen W : world_ok W -> zero W -> calm W -> (accesses inst = true -> ram_tables h (target inst W) W) ->
has (u64 (c_pc (hart h W) + ilen)) 1 = false ->
interp_insn inst ilen W =
if accesses inst && run (probe inst) W then (Deferred, exec (probe inst) W) else interp_step inst ilen W.
Proof.
intros Hw Hz Hc Hr He. unfold interp_insn, mbind, st_bind. destruct (accesses inst) eqn:Ha; [|done]. cbn [andb]. specialize (Hr eq_refl).
destruct (translate_idem h (target inst W) (kind inst) W Hw (u64_rng _) (proj1 Hc) Hr) as (t & W' & Et & Et' & Hf).
assert (probe inst W = (match t with Phys pa => b_has_plat (w_bus W') && plat_contains pa | Fault _ => false end, W')) as Ep
by (unfold probe, mbind, st_bind, gets; fold (target inst W); by rewrite Et).
rewrite Ep. unfold run, exec. rewrite Ep. cbn [fst snd]. destruct (match t with Phys _ => _ | Fault _ => false end); [done|].
destruct (translate_hart h (target inst W) (kind inst) W) as [x Ex]. unfold exec in Ex. rewrite Et in Ex. cbn [snd] in Ex.
rewrite !interp_mem by (done || by rewrite Ex). by rewrite (exec_mem_again inst W t W'), Ex.
Qed.
End Ref.
