(* ===== verification/JitInsn.v ===== *)
(** * One guest instruction of a block

    What it means that the code emitted for an instruction simulates it: the code takes the
    CPU structure where the interpreter takes it, falls through behind itself when the
    instruction retires, and leaves the block with the right number of steps when it traps or
    must be deferred.  Shown here for the integer instructions, inlined or called, and for
    loads and stores. *)

From S2P Require Import Prelude Decode Rvc Device Memory Cache Cpu Mmu See Trap Alu Exec Fpu Step CpuInv AluSem AluThms EngineInv MmuThms X86 Jit JitCode JitExec JitSim JitCall JitRef.

(** ** Stored program counters *)

Lemma sext_sf (c : CPU) (rv64 : bool) v : c_xlen c = (if rv64 then 64 else 32) -> sext_xlen c v = sf rv64 v.
Proof. intros E. unfold sext_xlen, sf. rewrite E. by destruct rv64. Qed.
Lemma sf_add rv64 va x : sf rv64 (u64 (sf rv64 va + x)) = sf rv64 (u64 (va + x)).
Proof.
  unfold sf. destruct rv64; [done|]. f_equal. apply sgn_eqw; [lia|]. unfold eqw, u64. rewrite !(wrap_wrap 32 64) by lia.
  rewrite <- (wrap_add_l 32), (wrap_wrap 32 64), wrap_sgn, wrap_add_l by lia. done.
Qed.
Lemma sf_rng rv64 v : rng 64 v -> rng 64 (sf rv64 v).
Proof. intros. unfold sf. destruct rv64; [done|apply u64_rng]. Qed.
Definition even (v : Z) : Prop := has v 1 = false.
Lemma even_bit v : even v <-> Z.testbit v 0 = false.
Proof.
  unfold even, has. change 1 with (Z.ones 1). rewrite Z.land_ones by lia. change (2 ^ 1) with 2. rewrite Z.bit0_odd, Zmod_odd. by destruct (Z.odd v).
Qed.
Lemma even_u64 v : even (u64 v) <-> even v.
Proof. rewrite !even_bit. unfold u64, wrap. rewrite Z.land_spec. change (Z.testbit (Z.ones 64) 0) with true. by rewrite andb_true_r. Qed.
Lemma even_sf rv64 v : even v -> even (sf rv64 v).
Proof.
  intros H. unfold sf. destruct rv64; [done|]. apply even_u64. rewrite even_bit in *. rewrite <- H. unfold s32. by rewrite sgn_testbit by lia.
Qed.
Lemma even_add a b : even a -> even b -> even (a + b).
Proof. rewrite !even_bit, !Z.bit0_odd, Z.odd_add. by intros -> ->. Qed.
(** Branch and jump offsets are even. *)
Lemma even_lor a b : even a -> even b -> even (a .| b).
Proof. rewrite !even_bit, Z.lor_spec. by intros -> ->. Qed.
Lemma even_shiftl a k : 0 < k -> even (a << k).
Proof. intros. rewrite even_bit. apply Z.shiftl_spec_low. lia. Qed.
Lemma even_u32 a : even a -> even (u32 a).
Proof. rewrite !even_bit. unfold u32. intros H. by rewrite wrap_testbit by lia. Qed.
Lemma even_s32 a : even a -> even (s32 a).
Proof. rewrite !even_bit. unfold s32. intros H. by rewrite sgn_testbit by lia. Qed.
Ltac even_offset := cbv zeta; apply even_s32; destruct (_ =? 0); repeat apply even_lor; try (apply even_u32, even_shiftl; lia); done.
Lemma even_imm_b inst : even (imm_b inst).
Proof. unfold imm_b. even_offset. Qed.
Lemma even_imm_j inst : even (imm_j inst).
Proof. unfold imm_j. even_offset. Qed.

Section Insn.
Context (h cpu_addr h_alu h_mem junk : Z) (Halu : rng 64 h_alu) (Hmem : rng 64 h_mem) (Hne : h_alu <> h_mem).
#[local] Abbreviation reach := (reach h cpu_addr h_alu h_mem junk).
#[local] Abbreviation straight := (straight h cpu_addr h_alu h_mem junk).
#[local] Abbreviation stops := (stops h cpu_addr h_alu h_mem junk).
#[local] Abbreviation adds := (adds h).
#[local] Abbreviation now := (now h).
#[local] Abbreviation calm := (calm h).
#[local] Abbreviation present := (present h).
#[local] Abbreviation set_pc v := (upd_hart h (set_c_pc v)).

(** A machine the next instruction of a block can run on. *)
Record ready (rv64 : bool) (W : World) : Prop := {
rd_world : world_ok W;
rd_zero : zero h W;
rd_xlen : c_xlen (hart h W) = if rv64 then 64 else 32;
rd_calm : calm W
}.
Lemma ready_fit rv64 W : ready rv64 W -> fit h rv64 W.
Proof. intros [Hw [Hp Hz] Hx _]. constructor; [done|apply Hw|done|done]. Qed.

Lemma world_upd (f : CPU -> CPU) W : world_ok W -> (forall c, cpu_inv (hart h W) c -> cpu_inv (hart h W) (f c)) -> world_ok (upd_hart h f W).
Proof. intros Hw Hf. apply (world_inv_ok W). by apply (keep_upd W h f Hf). Qed.
Lemma zero_hart (f : CPU -> CPU) W : zero h W -> (forall c, (c_regs c).[0] = 0 -> (c_regs (f c)).[0] = 0) -> zero h (upd_hart h f W).
Proof. intros Hz Hf. by apply (zero_upd h h f Hf). Qed.
Lemma ready_pc rv64 v W : rng 64 v -> ready rv64 W -> ready rv64 (set_pc v W).
Proof.
intros Hv [Hw Hz Hx Hc]. constructor.
- apply world_upd; [done|]. intros c. by apply cinv_set_c_pc.
- by apply zero_hart.
- by rewrite hart_after.
- destruct Hc as (? & ? & ?). split; [done|]. by rewrite hart_after.
Qed.
Lemma ready_write rv64 i v W : rng 64 v -> ready rv64 W -> ready rv64 (upd_hart h (reg_write i v) W).
Proof.
intros Hv [Hw Hz Hx Hc]. constructor.
- apply world_upd; [done|]. intros c. by apply cinv_reg_write.
- apply zero_hart; [done|]. intros c. apply zero_reg_write.
- rewrite hart_after. unfold reg_write. by destruct (i =? 0).
- destruct Hc as (? & ? & ?). split; [done|]. rewrite hart_after. unfold reg_write. by destruct (i =? 0).
Qed.

(** ** The accounting machine *)

Lemma hart_now v k W : exists x, hart h (now v k W) = set_c_instret x (set_c_pc v (hart h W)).
Proof. unfold now. rewrite hart_adds, hart_after. destruct (k =? 0); [exists (c_instret (hart h W)); by destruct (hart h W)|by eexists]. Qed.
Lemma present_upd f W : present (upd_hart h f W).
Proof. unfold present, upd_hart. cbn. rewrite lookup_insert_eq. by eexists. Qed.
Lemma present_now v k W : present (now v k W).
Proof. unfold now, adds, credit. destruct (k =? 0); apply present_upd. Qed.
Lemma calm_now v k W : calm W -> calm (now v k W).
Proof.
intros (Hb & Ht & Hh). destruct (hart_now v k W) as [x E]. split; [unfold now, adds; by destruct (k =? 0)|]. by rewrite E.
Qed.
Lemma advance_adds v k W : 0 <= k -> advance h v (adds k W) = now (sext_xlen (hart h W) v) (k + 1) W.
Proof.
intros Hk. unfold now, advance, adds. rewrite (proj2 (Z.eqb_neq (k + 1) 0)) by lia. unfold credit. destruct (Z.eqb_spec k 0) as [-> |Hk0].
- rewrite upd_hart_twice. by apply upd_hart_at.
- rewrite !upd_hart_twice. apply upd_hart_at. cbn. unfold u64. by rewrite wrap_add_l, <- Z.add_assoc by lia.
Qed.
(** What the block stored as program counter is overwritten. *)
Lemma now_pc v v' k W : now v k (set_pc v' W) = now v k W.
Proof. unfold now. f_equal. rewrite upd_hart_twice. by apply upd_hart_at. Qed.
Lemma now_write_pc v v' k i r W : now v k (upd_hart h (reg_write i r) (set_pc v' W)) = now v k (upd_hart h (reg_write i r) W).
Proof. unfold now. f_equal. rewrite !upd_hart_twice. apply upd_hart_at. unfold reg_write. by destruct (i =? 0). Qed.
Lemma adds_upd f k W : blind f -> upd_hart h f (adds k W) = adds k (upd_hart h f W).
Proof. intros Hf. pose proof (slides_upd h h f Hf k W) as H. unfold cpu_upd, modify, run, exec in H. cbn in H. congruence. Qed.
Lemma now_set v k W : now v k W = adds k (set_pc v W).
Proof. done. Qed.

(** ** Memory access *)

Lemma translate_pc va acc W : c_pc (hart h (exec (mmu_translate h va acc) W)) = c_pc (hart h W).
Proof. by destruct (translate_hart h va acc W) as [x ->]. Qed.
Lemma keep_exec_mem inst w0 : rng 32 inst -> keeps (world_inv w0) (cpu_exec_mem h inst) (fun _ => True).
Proof.
intros Hi. unfold cpu_exec_mem. kstep. kstep. apply (keeps_bind _ _ _ (fun _ => True)); [apply keeps_if; [by apply keep_exec_load|by apply keep_exec_store]|]. intros pa _.
kstep. match goal with H : mem_inv _ ?b |- _ => assert (rng 64 (b_fault_addr b)) by apply H end. keep_auto.
Qed.
Lemma mem_calm inst W : let '(r, W') := cpu_exec_mem h inst W in r.1 = false -> calm W'.
Proof.
unfold cpu_exec_mem, mbind, st_bind, gets. destruct (bus _ W) as [u W1]. destruct (cpu_upd h _ W1) as [u' W2].
destruct ((if opcode inst =? OP_LOAD then exec_load h inst else exec_store h inst) W2) as [pa W3]. destruct (b_fault (w_bus W3)) eqn:Eb.
- destruct (raise_trap h _ _ W3) as [u'' W4]. done.
- cbn. intros Hs. apply orb_false_elim in Hs. by split.
Qed.

(** ** Simulation *)

Lemma length_size l : Forall encoded l -> Z.of_nat (length l) <= size l.
Proof.
induction 1 as [|[b i] l He _ IH]; [done|]. rewrite size_cons. cbn [length]. destruct b; [by specialize (He [])|]. cbn [length]. lia.
Qed.

Section Block.
Context (code : Z -> list Z) (base rbx : Z) (Hepi : located code (base + 6) k_epilogue).

Definition goes_on (rv64 : bool) (p : Z) (s : Host World) (p' v k : Z) (W : World) : Prop :=
exists c R' F' W', (c <= 64)%nat /\ reach code c p s p' (mkHost R' F' [rbx] W') /\ R' !! 3 = Some cpu_addr /\ ready rv64 W' /\ W = now v k W'.
Definition simulates (rv64 : bool) (inst va ilen k n : Z) (l : list (list Z * Insn)) (em : EM) : Prop := forall R F W,
R !! 3 = Some cpu_addr -> ready rv64 W -> located code (base + n) l ->
let s := mkHost R F [rbx] W in
let '(v, W') := interp_insn h inst ilen (now (sf rv64 va) k W) in
match v, em with
| Retired, EM_CONT => goes_on rv64 (base + n) s (base + n + size l) (sf rv64 (u64 (va + ilen))) (k + 1) W'
| Retired, _ | Trapped, _ => stops code 64 (base + n) s (k + 1, rbx, W')
| Deferred, _ => stops code 64 (base + n) s (k, rbx, W')
end.

Section One.
Context (rv64 : bool) (inst va ilen k n : Z) (Hinst : rng 32 inst) (Hva : rng 64 va) (Heven : even va) (Hilen : even ilen)
(Hn : 0 <= n < 2 ^ 18) (Hk : 0 <= k < 2 ^ 19).
#[local] Abbreviation vs := (sf rv64 va).
#[local] Abbreviation value W := (alu_result (c_xlen (hart h W)) inst (reg_read (hart h W) (rs1 inst)) (reg_read (hart h W) (rs2 inst))).

Lemma next_even : has (u64 (vs + ilen)) 1 = false.
Proof. apply even_u64, even_add; [by apply even_sf|done]. Qed.
Lemma pc_now W : c_pc (hart h (now vs k W)) = vs.
Proof. by destruct (hart_now vs k W) as [x ->]. Qed.
Lemma value_now W : value (now vs k W) = value W.
Proof. by destruct (hart_now vs k W) as [x ->]. Qed.
(** Retiring after a change that does not look at the program counter. *)
Lemma advance_write r W : ready rv64 W -> advance h (u64 (vs + ilen)) (upd_hart h (reg_write (rd inst) r) (now vs k W)) =
now (sf rv64 (u64 (va + ilen))) (k + 1) (upd_hart h (reg_write (rd inst) r) W).
Proof.
intros Hr. rewrite now_set, adds_upd by apply blind_reg_write. rewrite advance_adds by lia. rewrite now_write_pc. f_equal.
rewrite (sext_sf _ rv64), sf_add; [done|]. rewrite !hart_after. unfold reg_write. destruct (_ =? 0); apply Hr.
Qed.
Lemma advance_now W : c_xlen (hart h W) = (if rv64 then 64 else 32) -> advance h (u64 (vs + ilen)) (adds k W) = now (sf rv64 (u64 (va + ilen))) (k + 1) W.
Proof. intros Hx. rewrite advance_adds by lia. by rewrite (sext_sf _ rv64), sf_add. Qed.

Lemma helper_alu W : ready rv64 W -> integer inst -> jit_h_alu h inst W =
match value W with Some r => (0, upd_hart h (reg_write (rd inst) r) W) | None => (1, exec (raise_trap h CAUSE_ILLEGAL_INSN inst) W) end.
Proof.
intros Hr Hi. destruct (rd_calm _ _ Hr) as (Hb & Ht & Hh).
assert (cpu_exec_alu h inst W = let '(_, W') := alu_handler h inst W in (c_trapped (hart h W') || c_halted (hart h W'), W')) as E.
{ change (cpu_exec_alu h inst) with (cpu_upd h (set_c_trapped false) ;; alu_handler h inst ;; gets (fun w => c_trapped (hart h w) || c_halted (hart h w))).
unfold mbind, st_bind, cpu_upd, modify, gets. rewrite trapped_same; [|apply Hr|done]. by destruct (alu_handler h inst W). }
unfold jit_h_alu, mbind, st_bind. rewrite E, alu_handler_eq. destruct (value W) as [r|].
- rewrite hart_after. unfold reg_write. cbn. destruct (rd inst =? 0); cbn; by rewrite Ht, Hh.
- destruct (raise_stops h CAUSE_ILLEGAL_INSN inst W) as [Hs _]; [by repeat split|]. unfold exec in *. destruct (raise_trap h _ _ W) as [u W']. cbn in *. by rewrite Hs.
Qed.

Lemma goes_inline l v j R F W W' : Forall encoded l -> size l <= 64 -> R !! 3 = Some cpu_addr -> located code (base + n) l ->
does h cpu_addr h_alu h_mem junk l W W' -> ready rv64 W' ->
goes_on rv64 (base + n) (mkHost R F [rbx] W) (base + n + size l) v j (now v j W').
Proof.
intros He Hs HR Hl Hd Hr. destruct (Hd R F [rbx] HR) as (R' & F' & Hst & HR'). exists (length l), R', F', W'. split_and!; [|by apply reach_straight|done..].
pose proof (length_size l He). lia.
Qed.
Lemma interp_plain : accesses inst = false -> interp_insn h inst ilen = interp_step h inst ilen.
Proof. intros E. unfold interp_insn. by rewrite E. Qed.
Lemma integer_plain : integer inst -> accesses inst = false.
Proof. unfold accesses. by intros [-> |[-> |[-> | ->]]]. Qed.
Lemma u64_alu : u64 h_alu = h_alu.
Proof. apply wrap_small; [lia|done]. Qed.
Lemma u32_inst : u32 (u32 inst) = inst.
Proof. unfold u32. rewrite wrap_wrap by lia. apply wrap_small; [lia|done]. Qed.

(** The call of a helper that returns [v]. *)
Lemma call_reach fn l R F W v W' : R !! 3 = Some cpu_addr -> located code (base + n) (k_call fn inst vs ++ l) ->
call_fn (HostEnv := JitExec.env h cpu_addr h_alu h_mem) (u64 fn) cpu_addr inst (set_pc vs W) = Some (v, W') ->
reach code 7 (base + n) (mkHost R F [rbx] W) (base + (n + 40)) (mkHost {[0 := eax junk v; 3 := cpu_addr]} (Some (status v)) [rbx] W') /\
located code (base + (n + 40)) l.
Proof.
intros HR Hl Hc. apply located_app in Hl as [Hl1 Hl2]. rewrite size_call, <- Z.add_assoc in Hl2. split; [|done].
pose proof (straight_call h cpu_addr h_alu h_mem junk fn inst vs v W' R F [rbx] W HR) as Hst. rewrite u32_inst in Hst.
replace (u64 vs) with vs in Hst by (symmetry; apply wrap_small; [lia|by apply sf_rng]).
pose proof (reach_straight h cpu_addr h_alu h_mem junk code _ _ _ _ (encoded_call fn inst vs) Hl1 (Hst Hc)) as H. by rewrite size_call, <- Z.add_assoc in H.
Qed.

Lemma instret_raise cause W : rng 64 cause -> world_ok W -> rng 64 (c_instret (hart h (exec (raise_trap h cause inst) W))).
Proof.
intros Hc Hw. destruct (keep_raise_trap W h cause inst Hc ltac:(by apply (rng_mono 32)) W Hw) as [_ Hi]. by apply Hi.
Qed.
Lemma alu_sim l : integer inst -> Forall encoded l -> alu_code_ok h cpu_addr h_alu h_mem junk rv64 inst vs k n l -> simulates rv64 inst va ilen k n l EM_CONT.
Proof.
intros Hi He [Hs Hok] R F W HR Hr Hl. cbv zeta. rewrite interp_plain by by apply integer_plain.
rewrite interp_alu; [|apply present_now|apply calm_now, Hr|done|rewrite pc_now; apply next_even]. rewrite value_now, pc_now.
assert (forall r, value W = Some r -> rng 64 r) as Hv by (intros r; apply alu_result_rng, Hr). destruct Hok as [Hin| ->].
- destruct (Hin W (ready_fit _ _ Hr)) as (r & Er & Hd). rewrite Er, advance_write by done.
apply goes_inline; [done|lia|done|done|done|]. apply ready_write; [by apply Hv|done].
- pose proof (ready_pc rv64 vs W (sf_rng _ _ Hva) Hr) as Hr1. pose proof (helper_alu (set_pc vs W) Hr1 Hi) as Hh. rewrite hart_after in Hh. cbn [c_xlen set_c_pc] in Hh.
change (reg_read (set_c_pc vs (hart h W))) with (reg_read (hart h W)) in Hh.
destruct (value W) as [r|] eqn:Er.
+ destruct (call_reach h_alu (k_glue_alu (n + 40) k) R F W 0 (upd_hart h (reg_write (rd inst) r) (set_pc vs W))) as [Hc Hl2]; [done|done| |].
{ cbn [call_fn JitExec.env cpu_env]. rewrite Z.eqb_refl, u64_alu, Z.eqb_refl. cbn [negb]. by rewrite Hh. }
rewrite advance_write, <- (now_write_pc _ vs) by done. eexists 8%nat, _, _, _. split_and!; [lia| | |by apply ready_write; [apply Hv|]|done].
* apply (reach_trans _ _ _ _ _ _ 7 1 _ _ _ _ _ _ Hc). rewrite size_app, size_call. replace (base + n + (40 + size (k_glue_alu (n + 40) k))) with (base + (n + 40) + size (k_glue_alu (n + 40) k)) by lia.
apply glue_alu_retired; [lia..|done|done].
* done.
+ destruct (call_reach h_alu (k_glue_alu (n + 40) k) R F W 1 (exec (raise_trap h CAUSE_ILLEGAL_INSN inst) (set_pc vs W))) as [Hc Hl2]; [done|done| |].
{ cbn [call_fn JitExec.env cpu_env]. rewrite Z.eqb_refl, u64_alu, Z.eqb_refl. cbn [negb]. by rewrite Hh. }
rewrite now_set. pose proof (slides_raise h CAUSE_ILLEGAL_INSN inst ltac:(by repeat split) k (set_pc vs W)) as Hsl. unfold exec at 1. rewrite Hsl. cbn [snd].
apply (stops_more _ _ _ _ _ _ (7 + 6)); [lia|]. apply (reach_stops _ _ _ _ _ _ _ _ _ _ _ _ _ Hc). apply glue_alu_left; [done|lia|lia|done| |done|done].
apply instret_raise; [done|apply Hr1].
Qed.

(** *** Memory instructions *)

Lemma probe_keeps W : world_ok W -> zero h W -> let W' := exec (probe h inst) W in
world_inv W W' /\ zero h W' /\ c_pc (hart h W') = c_pc (hart h W).
Proof.
intros Hw Hz. unfold probe, mbind, st_bind, gets, exec. cbv zeta. set (va' := u64 (_ + _)). set (acc := if opcode inst =? OP_STORE then _ else _).
assert (rng 64 va') as Hr by apply u64_rng. pose proof (keep_mmu_translate W h va' acc Hr W Hw) as [_ Kw]. pose proof (zero_translate h va' acc W Hz) as [_ Kz].
pose proof (translate_pc va' acc W) as Hp. unfold exec in *. by destruct (mmu_translate h va' acc W).
Qed.
Lemma mem_keeps W : world_ok W -> zero h W -> let '(r, W') := cpu_exec_mem h inst W in
world_inv W W' /\ zero h W' /\ (r.1 = false -> calm W').
Proof.
intros Hw Hz. pose proof (keep_exec_mem inst W Hinst W Hw) as Kw. pose proof (zero_exec_mem h inst W Hz) as [_ Kz]. pose proof (mem_calm inst W) as Hc.
unfold exec in *. destruct (cpu_exec_mem h inst W) as [r W']. split_and!; [apply Kw|done|done].
Qed.
Lemma helper_mem W : jit_h_mem h inst W = let '(d, W1) := probe h inst W in
if d : bool then (3, W1) else let '(r, W2) := cpu_exec_mem h inst W1 in (if r.1 : bool then 1 else 0, W2).
Proof.
unfold jit_h_mem, probe, mbind, st_bind, gets. cbv zeta. destruct (mmu_translate h _ _ W) as [t W1]. cbn [mret st_ret].
destruct t as [cause|pa]; [by destruct (cpu_exec_mem h inst W1)|]. destruct (_ && _); [done|]. by destruct (cpu_exec_mem h inst W1).
Qed.

Lemma mem_ready W W' : ready rv64 W -> world_inv W W' -> zero h W' -> calm W' -> ready rv64 W'.
Proof.
intros Hr Hi Hz Hc. constructor; [by apply (world_inv_ok W)|done| |done]. rewrite (ci_xlen _ _ (wi_harts _ _ Hi h)). apply Hr.
Qed.
Lemma world_inv_trans W W' W'' : world_inv W W' -> world_inv W' W'' -> world_inv W W''.
Proof.
intros [[_ Hs] Hh _] [[Ho Hs'] Hh' Hd]. constructor; [split; [done|]| |done].
- destruct Hs, Hs'. constructor; congruence.
- intros i. destruct (Hh i), (Hh' i). constructor; [done|congruence..].
Qed.
Lemma mem_call R F W v W' : R !! 3 = Some cpu_addr -> located code (base + n) (k_call h_mem inst vs ++ k_glue_mem (n + 40) k) ->
jit_h_mem h inst (set_pc vs W) = (v, W') ->
reach code 7 (base + n) (mkHost R F [rbx] W) (base + (n + 40)) (mkHost {[0 := eax junk v; 3 := cpu_addr]} (Some (status v)) [rbx] W') /\
located code (base + (n + 40)) (k_glue_mem (n + 40) k).
Proof.
intros HR Hl Hh. apply (call_reach h_mem); [done|done|]. cbn [call_fn JitExec.env cpu_env]. rewrite Z.eqb_refl. cbn [negb].
replace (u64 h_mem) with h_mem by (symmetry; apply wrap_small; [lia|done]). rewrite (proj2 (Z.eqb_neq h_mem h_alu)), Z.eqb_refl by done. by rewrite Hh.
Qed.
Lemma mem_sim : accesses inst = true -> simulates rv64 inst va ilen k n (k_call h_mem inst vs ++ k_glue_mem (n + 40) k) EM_CONT.
Proof.
intros Ha R F W HR Hr Hl. cbv zeta. pose proof (ready_pc rv64 vs W (sf_rng _ _ Hva) Hr) as Hr1. rewrite now_set. pose proof (helper_mem (set_pc vs W)) as Hh.
unfold interp_insn, mbind, st_bind. rewrite Ha, slides_probe. destruct (probe_keeps (set_pc vs W) (rd_world _ _ Hr1) (rd_zero _ _ Hr1)) as (Hw & Hz & Hp).
rewrite hart_after in Hp. cbn [c_pc set_c_pc] in Hp. unfold run, exec in *. destruct (probe h inst (set_pc vs W)) as [d W2]. cbn [fst snd] in *.
assert (forall w, world_inv (set_pc vs W) w -> rng 64 (c_instret (hart h w))) as Hin by (intros w Hi; apply Hi).
destruct d.
- destruct (mem_call R F W 3 W2 HR Hl Hh) as [Hc Hl2]. cbn. apply (stops_more _ _ _ _ _ _ (7 + 8)); [lia|]. apply (reach_stops _ _ _ _ _ _ _ _ _ _ _ _ _ Hc).
exact (glue_mem_left h cpu_addr h_alu h_mem junk code base rbx Hepi (n + 40) k {[0 := eax junk 3; 3 := cpu_addr]} W2 ltac:(lia) ltac:(lia) ltac:(done) (Hin _ Hw) 3 ltac:(done) ltac:(done) Hl2).
- assert (c_pc (hart h (adds k W2)) = vs) as Hpc by (rewrite hart_adds; by destruct (k =? 0)).
rewrite interp_mem by (done || rewrite Hpc; apply next_even). rewrite Hpc, slides_exec_mem.
pose proof (mem_keeps W2 (world_inv_ok _ _ Hw) Hz) as Hm. unfold run, exec. destruct (cpu_exec_mem h inst W2) as [[st pa] W3]. cbn [fst snd] in *. destruct Hm as (Hw' & Hz' & Hcalm).
pose proof (world_inv_trans _ _ _ Hw Hw') as Hw3. destruct st.
+ destruct (mem_call R F W 1 W3 HR Hl Hh) as [Hc Hl2]. apply (stops_more _ _ _ _ _ _ (7 + 8)); [lia|]. apply (reach_stops _ _ _ _ _ _ _ _ _ _ _ _ _ Hc).
exact (glue_mem_left h cpu_addr h_alu h_mem junk code base rbx Hepi (n + 40) k {[0 := eax junk 1; 3 := cpu_addr]} W3 ltac:(lia) ltac:(lia) ltac:(done) (Hin _ Hw3) 1 ltac:(done) ltac:(done) Hl2).
+ pose proof (mem_ready _ W3 Hr1 Hw3 Hz' (Hcalm eq_refl)) as Hr3. destruct (mem_call R F W 0 W3 HR Hl Hh) as [Hc Hl2]. rewrite advance_now by apply Hr3.
exists 8%nat, {[0 := eax junk 0; 3 := cpu_addr]}, (Some (status 0)), W3. split_and!; [lia| |done|exact Hr3|done]. apply (reach_trans _ _ _ _ _ _ 7 1 _ _ _ _ _ _ Hc).
rewrite size_app, size_call. replace (base + n + (40 + size (k_glue_mem (n + 40) k))) with (base + (n + 40) + size (k_glue_mem (n + 40) k)) by lia.
apply glue_mem_retired; done.
Qed.
End One.
End Block.
End Insn.
