(* ===== verification/JitTerm.v ===== *)
(** * Constants and control transfers of a block

    The instructions that need no arithmetic of the guest: LUI, AUIPC and FENCE fall through;
    branches, JAL and JALR store the next program counter and end the block.  With [JitInsn]
    this covers every instruction [emit_insn] translates. *)

From S2P Require Import Prelude Decode Rvc Device Memory Cache Cpu Mmu See Trap Alu Exec Fpu Step CpuInv AluSem AluThms EngineInv X86 Jit JitCode JitExec JitSim JitCall JitRef JitInsn.

(** ** Emission *)

Definition k_const (rdn v : Z) := if negb (rdn =? 0) then [k_imm64 0 v; k_st (ROFF rdn) 0] else [].
Lemma emits_const n rdn v : emits n (emit_const rdn v) tt (k_const rdn v).
Proof.
  apply emits_when. intros _. apply (emits_seq _ _ _ _ [_]); [apply emits_imm64; by left|apply emits_st; by left].
Qed.
Definition k_exit (n j : Z) := k_st PCOFF 0 :: k_leave (n + 7) j j.
Lemma emits_exit n j : emits n (emit_exit j) tt (k_exit n j).
Proof.
  apply (emits_seq _ _ _ _ [_]); [apply emits_st; by left|]. unfold k_st. rewrite size_cons, length_app, length_le. change (size []) with 0.
  replace (n + (Z.of_nat (length [0x48; 0x89; u8 (0x80 .| (0 << 3) .| 3)] + 4) + 0)) with (n + 7) by (cbn [length]; lia). apply emits_leave.
Qed.
Lemma size_exit n j : size (k_exit n j) <= 28.
Proof. unfold k_exit, k_st. rewrite size_cons, length_app, length_le, size_leave. cbn [length]. pose proof (size_retire j). lia. Qed.
Definition branch_cond (f3 : Z) : Z := if f3 =? 0 then 0x4 else if f3 =? 1 then 0x5 else if f3 =? 4 then 0xc else if f3 =? 5 then 0xd else if f3 =? 6 then 0x2 else 0x3.
Definition k_branch (inst fall taken : Z) :=
  if (funct3 inst =? 2) || (funct3 inst =? 3) then [k_imm64 0 fall]
  else [k_ld 0 (ROFF (rs1 inst)); k_ld 1 (ROFF (rs2 inst)); k_alu true A_cmp; k_imm64 0 fall; k_imm64 1 taken; k_cmov (branch_cond (funct3 inst))].
Definition k_and := ([0x48; 0x83; 0xE0; 0xFE], ALU_imm true A_and 0 (u32 (s8 0xFE))).
Definition k_jalr (rv64 : bool) (inst link : Z) :=
  k_ld 0 (ROFF (rs1 inst)) :: k_alui true A_add (u32 (imm_i inst)) :: k_and :: (if negb rv64 then [k_sext32] else []) ++
  (if negb (rd inst =? 0) then [k_imm64 1 link; k_st (ROFF (rd inst)) 1] else []).

Lemma funct3_range inst : 0 <= funct3 inst < 8.
Proof. unfold funct3. change 0x7 with (Z.ones 3). rewrite Z.land_ones by lia. apply Z.mod_pos_bound. lia. Qed.
Lemma branch_cc_cond inst : (funct3 inst =? 2) || (funct3 inst =? 3) = false ->
  branch_cc (funct3 inst) = 0x40 + branch_cond (funct3 inst) /\ branch_cond (funct3 inst) ∈ [0x2; 0x3; 0x4; 0x5; 0xc; 0xd].
Proof.
  intros H. pose proof (funct3_range inst). assert (funct3 inst ∈ [0; 1; 4; 5; 6; 7]) as He by (rewrite !elem_of_cons; lia).
  repeat (apply elem_of_cons in He as [-> |He]); [..|by apply elem_of_nil in He]; (split; [done|]); rewrite !elem_of_cons; vm_compute; tauto.
Qed.
Lemma emits_branch n rv64 inst va ilen k : let l := k_branch inst (sf rv64 (u64 (va + ilen))) (sf rv64 (u64 (va + u64 (imm_b inst)))) in
  emits n (emit_branch rv64 inst va ilen k) EM_TERM (l ++ k_exit (n + size l) (k + 1)).
Proof.
  cbv zeta. unfold emit_branch, k_branch; cbv zeta. set (fall := sf rv64 (u64 (va + ilen))). set (taken := sf rv64 _). rewrite <- (app_nil_r (k_exit _ _)).
  apply emits_seq; [|apply emits_seq; [apply emits_exit|apply emits_ret]]. destruct ((_ =? 2) || _) eqn:E; [apply emits_imm64; by left|].
  destruct (branch_cc_cond inst E) as [-> Hc]. apply (emits_seq _ _ _ _ [_]); [apply emits_ld; by left|]. apply (emits_seq _ _ _ _ [_]); [apply emits_ld; by right|].
  apply (emits_seq _ _ _ _ [_]); [apply (emits_alu _ A_cmp)|]. apply (emits_seq _ _ _ _ [_]); [apply emits_imm64; by left|].
  apply (emits_seq _ _ _ _ [_]); [apply emits_imm64; by right|]. by apply emits_cmov.
Qed.
Lemma emits_jalr n rv64 inst va ilen k : let l := k_jalr rv64 inst (sf rv64 (u64 (va + ilen))) in
  emits n (emit_jalr rv64 inst va ilen k) EM_TERM (l ++ k_exit (n + size l) (k + 1)).
Proof.
  cbv zeta. set (link := sf rv64 (u64 (va + ilen))).
  eapply (emits_ext _ _ ((x_ld RAX (ROFF (rs1 inst)) ;; x_alui 0 RAX (u32 (imm_i inst)) ;; (eb 0x48 ;; eb 0x83 ;; eb 0xE0 ;; eb 0xFE) ;; when (negb rv64) x_sext32 ;;
    when (negb (rd inst =? 0)) (x_imm64 RCX link ;; x_st (ROFF (rd inst)) RCX)) ;; emit_exit (k + 1) ;; mret EM_TERM)).
  { unfold emit_jalr, link. reassoc. }
  rewrite <- (app_nil_r (k_exit _ _)). apply emits_seq; [|apply emits_seq; [apply emits_exit|apply emits_ret]]. unfold k_jalr.
  apply (emits_seq _ _ _ _ [_]); [apply emits_ld; by left|]. apply (emits_seq _ _ _ _ [_]); [apply (emits_alui _ A_add)|].
  apply (emits_seq _ _ _ _ [_]); [apply emits_insn; [writing|decoding]|].
  apply emits_seq; apply emits_when; intros _; [apply emits_sext32|]. apply (emits_seq _ _ _ _ [_]); [apply emits_imm64; by right|apply emits_st; by right].
Qed.
Lemma emits_jal n rdn link target k :
  emits n (emit_const rdn link ;; x_imm64 RAX target ;; emit_exit (k + 1) ;; mret EM_TERM) EM_TERM
    ((k_const rdn link ++ [k_imm64 0 target]) ++ k_exit (n + size (k_const rdn link ++ [k_imm64 0 target])) (k + 1)).
Proof.
  eapply (emits_ext _ _ ((emit_const rdn link ;; x_imm64 RAX target) ;; emit_exit (k + 1) ;; mret EM_TERM)); [reassoc|].
  rewrite <- (app_nil_r (k_exit _ _)). apply emits_seq; [|apply emits_seq; [apply emits_exit|apply emits_ret]].
  apply emits_seq; [apply emits_const|apply emits_imm64; by left].
Qed.

Section Term.
Context (h cpu_addr h_alu h_mem junk : Z).
#[local] Abbreviation straight := (straight h cpu_addr h_alu h_mem junk).
#[local] Abbreviation stops := (stops h cpu_addr h_alu h_mem junk).
#[local] Abbreviation adds := (adds h).
#[local] Abbreviation now := (now h).
#[local] Abbreviation set_pc v := (upd_hart h (set_c_pc v)).
#[local] Abbreviation ready := (ready h).
#[local] Abbreviation reg W i := ((c_regs (hart h W)).[i]).

(** ** Values *)

(** [l] turns [W] into [W'] and leaves [v] in rax. *)
Definition computes (l : list (list Z * Insn)) (W : World) (v : Z) (W' : World) : Prop := forall R F S, R !! 3 = Some cpu_addr ->
exists R' F', straight l (mkHost R F S W) = Some (mkHost R' F' S W') /\ R' !! 3 = Some cpu_addr /\ R' !! 0 = Some v.
Lemma computes_imm l v W W' : does h cpu_addr h_alu h_mem junk l W W' -> rng 64 v -> computes (l ++ [k_imm64 0 v]) W v W'.
Proof.
intros Hd Hv R F S HR. destruct (Hd R F S HR) as (R' & F' & E & HR'). exists (<[0 := u64 v]> R'), F'. rewrite straight_app, E.
split; [done|]. rewrite lookup_insert_ne, lookup_insert_eq by done. split; [done|]. f_equal. by apply wrap_small; [lia|].
Qed.
Lemma does_const rdn v W : 0 <= rdn < 32 -> rng 64 v -> does h cpu_addr h_alu h_mem junk (k_const rdn v) W (put h rdn v W).
Proof.
intros Hd Hv R F S HR. unfold k_const, put. destruct (Z.eqb_spec rdn 0) as [-> |Hne]; cbn [negb]; [by exists R, F|].
exists (<[0 := u64 v]> R), F. cbn [straight snd k_imm64].
change (execute junk (MOV_imm64 0 (u64 v)) (mkHost R F S W)) with (Next (mkHost (<[0 := u64 v]> R) F S W) 0). cbv beta iota.
rewrite (x_store h cpu_addr h_alu h_mem junk (<[0 := u64 v]> R) F S W ltac:(by rewrite lookup_insert_ne) 0 rdn v); [|lia|].
- unfold put. rewrite (proj2 (Z.eqb_neq rdn 0)) by done. split; [done|by rewrite lookup_insert_ne].
- rewrite lookup_insert_eq. f_equal. by apply wrap_small; [lia|].
Qed.
(** The conditions of the guest's branches. *)
Lemma branch_holds f3 a b : 0 <= f3 < 8 -> (f3 =? 2) || (f3 =? 3) = false -> rng 64 a -> rng 64 b ->
holds (branch_cond f3) (alu_flags A_cmp 64 a b) = Some (branch_taken f3 a b).
Proof.
intros Hf H Ha Hb. assert (fl_z (alu_flags A_cmp 64 a b) = (a =? b)) as Hz.
{ unfold alu_flags. cbn [fl_z alu_value]. unfold rng in *. destruct (Z.eqb_spec a b) as [-> |Hne]; [by rewrite Z.sub_diag|].
apply Z.eqb_neq. intros E. apply Hne. rewrite <- (wrap_small 64 a), <- (wrap_small 64 b) by (lia || done). replace a with (a - b + b) by lia.
rewrite <- wrap_add_l, E by lia. done. }
pose proof (cmp_less a b Ha Hb) as Hl.
assert (f3 ∈ [0; 1; 4; 5; 6; 7]) as He by (rewrite !elem_of_cons; lia).
repeat (apply elem_of_cons in He as [-> |He]); [..|by apply elem_of_nil in He];
unfold branch_taken, branch_cond; cbn [Z.eqb Pos.eqb]; [unfold holds; cbn [Z.eqb Pos.eqb]; by rewrite Hz..|done| | |].
- change (holds 0xd (alu_flags A_cmp 64 a b)) with (negb <$> holds 0xc (alu_flags A_cmp 64 a b)). rewrite Hl. cbn. f_equal. rewrite Z.leb_antisym. done.
- done.
- unfold holds. cbn [Z.eqb Pos.eqb]. f_equal. unfold alu_flags. cbn [fl_c]. by rewrite Z.leb_antisym.
Qed.

Lemma computes_branch rv64 inst fall taken W : fit h rv64 W -> rng 64 fall -> rng 64 taken ->
computes (k_branch inst fall taken) W (if branch_taken (funct3 inst) (reg_read (hart h W) (rs1 inst)) (reg_read (hart h W) (rs2 inst)) then taken else fall) W.
Proof.
intros Hf Hr Ht R F S HR. pose proof (fields_range inst) as (_ & H1 & H2). pose proof (funct3_range inst) as H3. unfold k_branch. destruct ((_ =? 2) || _) eqn:E.
- exists (<[0 := u64 fall]> R), F. split; [done|]. rewrite lookup_insert_ne, lookup_insert_eq by done. split; [done|]. f_equal.
replace (branch_taken (funct3 inst) _ _) with false; [by apply wrap_small; [lia|]|]. unfold branch_taken. apply orb_prop in E as [E|E]; apply Z.eqb_eq in E; by rewrite E.
- set (a := reg_read (hart h W) (rs1 inst)). set (b := reg_read (hart h W) (rs2 inst)). cbn [straight]. rewrite x_load by done. rewrite x_load by (by rewrite ?lookup_insert_ne).
rewrite !(reg_slot h rv64 W _ Hf). fold a b. set (R1 := <[1 := b]> _).
assert (execute (env := JitExec.env h cpu_addr h_alu h_mem) junk (k_alu true A_cmp).2 (mkHost R1 F S W) = Next (mkHost R1 (Some (alu_flags A_cmp 64 a b)) S W) 0) as ->.
{ unfold execute, k_alu. cbn [snd x_regs]. unfold R1. rewrite (lookup_insert_ne _ 1 0), !lookup_insert_eq by done. cbn [mbind option_bind width].
  rewrite !(wrap_small 64) by (lia || (apply reg_read_rng, Hf)). done. }
cbn [snd k_imm64]. set (fl := alu_flags A_cmp 64 a b).
change (execute junk (MOV_imm64 0 (u64 fall)) (mkHost R1 (Some fl) S W)) with (Next (mkHost (<[0 := u64 fall]> R1) (Some fl) S W) 0). cbv beta iota.
change (execute junk (MOV_imm64 1 (u64 taken)) (mkHost (<[0 := u64 fall]> R1) (Some fl) S W)) with (Next (mkHost (<[1 := u64 taken]> (<[0 := u64 fall]> R1)) (Some fl) S W) 0). cbv beta iota.
unfold execute, k_cmov. cbn [snd x_regs x_flags mbind option_bind]. unfold fl.
rewrite branch_holds by (done || (apply reg_read_rng, Hf)). cbn [mbind option_bind]. rewrite lookup_insert_eq, lookup_insert_ne, lookup_insert_eq by done. cbn [mbind option_bind].
eexists _, _. split; [done|]. cbn [x_regs]. rewrite lookup_insert_ne, lookup_insert_eq by done. unfold R1. rewrite !lookup_insert_ne by done. split; [done|].
f_equal. destruct (branch_taken _ _ _); by apply wrap_small; [lia|].
Qed.

Lemma and_value a : rng 64 a -> alu_value A_and 64 (wrap 64 a) (wrap 64 (s32 (u32 (s8 0xFE)))) = a .& u64 (Z.lnot 1).
Proof. intros Ha. cbn [alu_value]. rewrite wrap_small by (lia || done). by change (wrap 64 (s32 (u32 (s8 0xFE)))) with (u64 (Z.lnot 1)). Qed.
Lemma jalr_target rv64 inst : unary h cpu_addr h_alu h_mem junk
([k_alui true A_add (u32 (imm_i inst))] ++ [k_and] ++ (if negb rv64 then [k_sext32] else []))
(fun a => sf rv64 (u64 (a + u64 (imm_i inst)) .& u64 (Z.lnot 1))).
Proof.
assert (unary h cpu_addr h_alu h_mem junk [k_and] (fun x => alu_value A_and 64 (wrap 64 x) (wrap 64 (s32 (u32 (s8 0xFE)))))) as Hand.
{ intros R F S W x Hx. cbn [straight snd k_and]. unfold execute. cbn [x_regs]. rewrite Hx. cbn. eexists _, _. split; [done|]. by rewrite lookup_insert_eq, lookup_insert_ne. }
assert (unary h cpu_addr h_alu h_mem junk (if negb rv64 then [k_sext32] else []) (sf rv64)) as Hsf.
{ unfold sf. destruct rv64; cbn [negb]; [|apply unary_sext32]. intros R F S W x Hx. by exists R, F. }
intros R F S W a Ha.
destruct (unary_seq _ _ _ _ _ _ _ _ _ (unary_alui h cpu_addr h_alu h_mem junk true A_add (u32 (imm_i inst)) ltac:(done)) (unary_seq _ _ _ _ _ _ _ _ _ Hand Hsf) R F S W a Ha)
as (R1 & F1 & E1 & H0 & H3). exists R1, F1. split; [done|]. split; [|done]. rewrite H0. cbv beta. cbn [width].
assert (alu_value A_add 64 (wrap 64 a) (wrap 64 (s32 (u32 (u32 (imm_i inst))))) = u64 (a + u64 (imm_i inst))) as ->.
{ rewrite imm_i_s32. cbn [alu_value]. unfold u64. by rewrite wrap_add_l by lia. }
by rewrite and_value by apply u64_rng.
Qed.
Lemma computes_jalr rv64 inst link W : fit h rv64 W -> rng 64 link ->
computes (k_jalr rv64 inst link) W (sf rv64 (u64 (reg_read (hart h W) (rs1 inst) + u64 (imm_i inst)) .& u64 (Z.lnot 1))) (put h (rd inst) link W).
Proof.
intros Hf Hl R F S HR. pose proof (fields_range inst) as (Hd & H1 & _).
set (body := [k_alui true A_add (u32 (imm_i inst))] ++ [k_and] ++ (if negb rv64 then [k_sext32] else [])).
set (tail := if negb (rd inst =? 0) then [k_imm64 1 link; k_st (ROFF (rd inst)) 1] else []).
change (k_jalr rv64 inst link) with (k_ld 0 (ROFF (rs1 inst)) :: body ++ tail). cbn [straight]. rewrite x_load by done. rewrite (reg_slot h rv64 W _ Hf).
set (a := reg_read (hart h W) (rs1 inst)). destruct (jalr_target rv64 inst (<[0 := a]> R) F S W a) as (R1 & F1 & E1 & H0 & H3); [by rewrite lookup_insert_eq|].
rewrite lookup_insert_ne, HR in H3 by done. fold body in E1. rewrite straight_app, E1. cbn [mbind option_bind]. unfold tail, put. destruct (Z.eqb_spec (rd inst) 0) as [E|Hne]; cbn [negb].
{ by exists R1, F1. }
cbn [straight snd k_imm64]. change (execute junk (MOV_imm64 1 (u64 link)) (mkHost R1 F1 S W)) with (Next (mkHost (<[1 := u64 link]> R1) F1 S W) 0). cbv beta iota.
rewrite (x_store h cpu_addr h_alu h_mem junk (<[1 := u64 link]> R1) F1 S W ltac:(by rewrite lookup_insert_ne) 1 (rd inst) link); [|lia|].
- unfold put. rewrite (proj2 (Z.eqb_neq (rd inst) 0)) by done. eexists _, _. split; [done|]. by rewrite !lookup_insert_ne.
- rewrite lookup_insert_eq. f_equal. by apply wrap_small; [lia|].
Qed.

(** ** Simulation *)

Section Block.
Context (code : Z -> list Z) (base rbx : Z) (Hepi : located code (base + 6) k_epilogue).
#[local] Abbreviation simulates := (simulates h cpu_addr h_alu h_mem junk code base rbx).

Lemma stops_computed l n j R F W v W' : computes l W v W' -> Forall encoded l -> (length l <= 50)%nat -> 0 <= n < 2 ^ 18 -> 0 <= j < 2 ^ 20 -> size l <= 1000 ->
rng 64 (c_instret (hart h W')) -> R !! 3 = Some cpu_addr -> located code (base + n) (l ++ k_exit (n + size l) j) ->
stops code 64 (base + n) (mkHost R F [rbx] W) (j, rbx, adds j (set_pc v W')).
Proof.
intros Hc He Hlen Hn Hj Hs Hi HR Hl. pose proof (size_nonneg l). destruct (Hc R F [rbx] HR) as (R' & F' & E & H3 & H0).
change (k_exit (n + size l) j) with ([k_st PCOFF 0] ++ k_leave (n + size l + 7) j j) in Hl. rewrite app_assoc in Hl. apply located_app in Hl as [Hl1 Hl2].
assert (size (l ++ [k_st PCOFF 0]) = size l + 7) as Es by by rewrite size_app. rewrite Es in Hl2.
replace (base + n + (size l + 7)) with (base + (n + size l + 7)) in Hl2 by lia.
assert (straight (l ++ [k_st PCOFF 0]) (mkHost R F [rbx] W) = Some (mkHost R' F' [rbx] (set_pc v W'))) as E'.
{ rewrite straight_app, E. cbn [mbind option_bind straight]. by rewrite (x_store_pc h cpu_addr h_alu h_mem junk R' F' [rbx] W' H3 0 v H0). }
pose proof (reach_straight h cpu_addr h_alu h_mem junk code _ _ _ _ (proj2 (Forall_app _ _ _) (conj He (proj1 (emits_st 0 0 PCOFF (or_introl eq_refl))))) Hl1 E') as Hr.
apply (stops_more _ _ _ _ _ _ (length (l ++ [k_st PCOFF 0%Z]) + 5)); [rewrite length_app; cbn; lia|]. apply (reach_stops _ _ _ _ _ _ _ _ _ _ _ _ _ Hr).
rewrite Es. replace (base + n + (size l + 7)) with (base + (n + size l + 7)) by lia.
assert (u32 j = j) as Ej by (apply wrap_small; [lia|unfold rng; lia]).
assert (rng 64 (c_instret (hart h (set_pc v W')))) as Hi' by by rewrite hart_after.
pose proof (stops_leave h cpu_addr h_alu h_mem junk code base rbx Hepi R' F' (set_pc v W') (n + size l + 7) j j H3 ltac:(lia) ltac:(lia) Hi' Hl2) as Hst. by rewrite Ej in Hst.
Qed.

Section One.
Context (rv64 : bool) (inst va ilen k n : Z) (Hva : rng 64 va) (Heven : even va) (Hilen : even ilen)
(Hn : 0 <= n < 2 ^ 18) (Hk : 0 <= k < 2 ^ 19) (Hplain : accesses inst = false).
#[local] Abbreviation vs := (sf rv64 va).

Lemma calm_write i r W : ready rv64 W -> calm h (upd_hart h (reg_write i r) (now vs k W)).
Proof.
intros Hr. pose proof (calm_now h vs k W (rd_calm _ _ _ Hr)) as (Hb & Ht & Hh). split; [done|]. rewrite hart_after. unfold reg_write. by destruct (i =? 0).
Qed.

(** An instruction that writes [r] to [rd] and falls through. *)
Lemma write_sim (r : World -> Z) l : Forall encoded l -> size l <= 64 ->
(forall W, ready rv64 W -> rng 64 (r W) /\
dispatch h inst ilen (now vs k W) = (u64 (vs + ilen), upd_hart h (reg_write (rd inst) (r W)) (now vs k W)) /\
does h cpu_addr h_alu h_mem junk l W (upd_hart h (reg_write (rd inst) (r W)) W)) ->
simulates rv64 inst va ilen k n l EM_CONT.
Proof.
intros He Hs H R F W HR Hr Hl. destruct (H W Hr) as (Hrr & Hd & Hdo). cbv zeta. rewrite (interp_plain h inst ilen Hplain).
rewrite (interp_retired h inst ilen _ _ _ (present_now h vs k W) (calm_now h vs k W (rd_calm _ _ _ Hr)) Hd); [|by apply calm_write|by apply next_even].
rewrite advance_write by (done || lia). apply goes_inline; [done..|]. by apply ready_write.
Qed.
(** A control transfer to [next W] that writes [r W] to the register [i]. *)
Lemma transfer_sim (i : Z) (r next : World -> Z) l : Forall encoded l -> (length l <= 50)%nat -> size l <= 1000 ->
(forall W, ready rv64 W -> rng 64 (r W) /\ even (next W) /\
dispatch h inst ilen (now vs k W) = (next W, upd_hart h (reg_write i (r W)) (now vs k W)) /\
computes l W (sf rv64 (next W)) (upd_hart h (reg_write i (r W)) W)) ->
simulates rv64 inst va ilen k n (l ++ k_exit (n + size l) (k + 1)) EM_TERM.
Proof.
intros He Hlen Hs H R F W HR Hr Hl. destruct (H W Hr) as (Hrr & Hev & Hd & Hc). cbv zeta. rewrite (interp_plain h inst ilen Hplain).
rewrite (interp_retired h inst ilen _ _ _ (present_now h vs k W) (calm_now h vs k W (rd_calm _ _ _ Hr)) Hd); [|by apply calm_write|done].
pose proof (ready_write h rv64 i (r W) W Hrr Hr) as Hr'.
rewrite now_set, adds_upd by apply blind_reg_write. rewrite advance_adds by lia. rewrite now_write_pc.
replace (sext_xlen _ (next W)) with (sf rv64 (next W)) by (symmetry; apply sext_sf; rewrite !hart_after; unfold reg_write; destruct (i =? 0); apply Hr).
apply (stops_computed l n (k + 1)); [done|done|done|done|lia|done|apply Hr'|done|done].
Qed.

Lemma now_hart W : exists x, hart h (now vs k W) = set_c_instret x (set_c_pc vs (hart h W)).
Proof. apply hart_now. Qed.
Ltac opcodes E := unfold dispatch, mbind, st_bind, gets; rewrite E;
cbn [Z.eqb Pos.eqb OP_IMM OP_IMM_32 OP_REG OP_REG_32 OP_LUI OP_AUIPC OP_JAL OP_JALR OP_BRANCH OP_LOAD OP_STORE OP_AMO OP_LOAD_FP OP_STORE_FP OP_FP OP_MADD OP_MSUB OP_NMSUB OP_NMADD OP_FENCE].

Lemma does_write v r W : ready rv64 W -> rng 64 v -> v = sext_xlen (hart h W) r ->
does h cpu_addr h_alu h_mem junk (k_const (rd inst) v) W (upd_hart h (reg_write (rd inst) r) W).
Proof.
intros Hr Hv E. pose proof (fields_range inst) as (Hd & _). pose proof (does_const (rd inst) v W Hd Hv) as H.
by rewrite (put_write h rv64 W (rd inst) v r (ready_fit _ _ _ Hr) E) in H.
Qed.
Lemma size_const rdn v : size (k_const rdn v) <= 17.
Proof. unfold k_const. destruct (negb _); [|done]. unfold k_imm64, k_st. rewrite !size_cons, !length_app, !length_le. done. Qed.
Lemma encoded_const rdn v : Forall encoded (k_const rdn v).
Proof. apply (emits_const 0). Qed.
Lemma const_sim v (r : Z) : rng 64 r -> v = sf rv64 r ->
(forall W, dispatch h inst ilen (now vs k W) = (u64 (vs + ilen), upd_hart h (reg_write (rd inst) r) (now vs k W))) ->
simulates rv64 inst va ilen k n (k_const (rd inst) v) EM_CONT.
Proof.
intros Hr -> Hd. apply (write_sim (fun _ => r)); [apply encoded_const|pose proof (size_const (rd inst) (sf rv64 r)); lia|]. intros W Hready. split_and!; [done|done|].
apply does_write; [done|by apply sf_rng|]. symmetry. apply sext_sf, Hready.
Qed.
Lemma lui_sim : opcode inst = OP_LUI -> simulates rv64 inst va ilen k n (k_const (rd inst) (sf rv64 (u64 (imm_u inst)))) EM_CONT.
Proof. intros E. apply (const_sim _ (u64 (imm_u inst))); [apply u64_rng|done|]. intros W. opcodes E. by destruct (now_hart W) as [x ->]. Qed.
Lemma auipc_sim : opcode inst = OP_AUIPC -> simulates rv64 inst va ilen k n (k_const (rd inst) (sf rv64 (u64 (va + u64 (imm_u inst))))) EM_CONT.
Proof.
intros E. apply (const_sim _ (u64 (vs + u64 (imm_u inst)))); [apply u64_rng|by rewrite sf_add|]. intros W. opcodes E. by destruct (now_hart W) as [x ->].
Qed.
Lemma write_none W : present h W -> upd_hart h (reg_write 0 0) W = W.
Proof. intros Hp. by apply upd_same. Qed.
Lemma fence_sim : opcode inst = OP_FENCE -> funct3 inst <> 1 -> simulates rv64 inst va ilen k n [] EM_CONT.
Proof.
intros E H3 R F W HR Hr Hl. cbv zeta. rewrite (interp_plain h inst ilen Hplain).
rewrite (interp_retired h inst ilen (u64 (vs + ilen)) _ (now vs k W) (present_now h vs k W) (calm_now h vs k W (rd_calm _ _ _ Hr))).
- rewrite now_set, advance_now by (rewrite ?hart_after; apply Hr || lia). rewrite now_pc. exists 0%nat, R, F, W. split_and!; [lia| |done|done|done].
change (size []) with 0. rewrite Z.add_0_r. apply reach_refl.
- opcodes E. unfold exec_fence, mbind, st_bind, gets. rewrite (proj2 (Z.eqb_neq _ _) H3). by destruct (now_hart W) as [x ->].
- apply calm_now, Hr.
- by apply next_even.
Qed.

Lemma even_u64_add x : even x -> even (u64 (vs + u64 x)).
Proof. intros Hx. apply even_u64, even_add; [by apply even_sf|by apply even_u64]. Qed.
Lemma length_branch fall taken : (length (k_branch inst fall taken) <= 6)%nat.
Proof. unfold k_branch. destruct (_ || _); cbn; lia. Qed.
Lemma size_branch fall taken : size (k_branch inst fall taken) <= 41.
Proof. unfold k_branch. destruct (_ || _); [by vm_compute|]. unfold k_ld, k_imm64, k_alu, k_cmov. rewrite !size_cons, !length_app, !length_le. done. Qed.
Lemma branch_sim : opcode inst = OP_BRANCH -> let l := k_branch inst (sf rv64 (u64 (va + ilen))) (sf rv64 (u64 (va + u64 (imm_b inst)))) in
simulates rv64 inst va ilen k n (l ++ k_exit (n + size l) (k + 1)) EM_TERM.
Proof.
intros E l. pose proof (size_branch (sf rv64 (u64 (va + ilen))) (sf rv64 (u64 (va + u64 (imm_b inst))))) as Hs.
pose proof (length_branch (sf rv64 (u64 (va + ilen))) (sf rv64 (u64 (va + u64 (imm_b inst))))) as Hlen. fold l in Hs, Hlen.
assert (Forall encoded l) as He by (pose proof (proj1 (emits_branch 0 rv64 inst va ilen 0)) as Hb; cbv zeta in Hb; by apply Forall_app in Hb as [Hb _]).
pose proof (even_imm_b inst) as Hb.
apply (transfer_sim 0 (fun _ => 0) (fun W => if branch_taken (funct3 inst) (reg_read (hart h W) (rs1 inst)) (reg_read (hart h W) (rs2 inst)) then u64 (vs + u64 (imm_b inst)) else u64 (vs + ilen)));
[done|lia|lia|]. intros W Hr. split_and!.
- done.
- destruct (branch_taken _ _ _); [by apply even_u64_add|by apply next_even].
- rewrite write_none by apply present_now. opcodes E. destruct (now_hart W) as [x ->]. unfold exec_branch. cbn [c_pc set_c_pc set_c_instret]. done.
- rewrite write_none by apply Hr. pose proof (computes_branch rv64 inst _ _ W (ready_fit _ _ _ Hr) (sf_rng rv64 _ (u64_rng (va + ilen))) (sf_rng rv64 _ (u64_rng (va + u64 (imm_b inst))))) as Hc.
fold l in Hc. destruct (branch_taken _ _ _); by rewrite sf_add.
Qed.
Lemma jal_sim : opcode inst = OP_JAL -> let l := k_const (rd inst) (sf rv64 (u64 (va + ilen))) ++ [k_imm64 0 (sf rv64 (u64 (va + u64 (imm_j inst))))] in
simulates rv64 inst va ilen k n (l ++ k_exit (n + size l) (k + 1)) EM_TERM.
Proof.
intros E l. pose proof (size_const (rd inst) (sf rv64 (u64 (va + ilen)))) as Hs.
pose proof (even_imm_j inst) as Hj.
apply (transfer_sim (rd inst) (fun _ => u64 (vs + ilen)) (fun _ => u64 (vs + u64 (imm_j inst)))).
- apply Forall_app. split; [apply encoded_const|apply (emits_imm64 0); by left].
- unfold l, k_const. destruct (negb _); cbn; lia.
- unfold l. rewrite size_app. change (size [k_imm64 0 _]) with 10. lia.
- intros W Hr. split_and!; [apply u64_rng|by apply even_u64_add| |].
+ opcodes E. by destruct (now_hart W) as [x ->].
+ rewrite sf_add. apply computes_imm; [|apply sf_rng, u64_rng]. apply does_write; [done|apply sf_rng, u64_rng|]. rewrite (sext_sf _ rv64) by apply Hr. by rewrite sf_add.
Qed.
Lemma size_jalr link : size (k_jalr rv64 inst link) <= 38.
Proof.
unfold k_jalr, k_ld, k_alui, k_and. rewrite !size_cons, !length_app, !length_le, size_app. unfold k_imm64, k_st, k_sext32.
destruct rv64, (rd inst =? 0); cbn [negb]; rewrite ?size_cons, ?length_app, ?length_le; done.
Qed.
Lemma jalr_sim : opcode inst = OP_JALR -> let l := k_jalr rv64 inst (sf rv64 (u64 (va + ilen))) in
simulates rv64 inst va ilen k n (l ++ k_exit (n + size l) (k + 1)) EM_TERM.
Proof.
intros E l. apply (transfer_sim (rd inst) (fun _ => u64 (vs + ilen)) (fun W => u64 (reg_read (hart h W) (rs1 inst) + u64 (imm_i inst)) .& u64 (Z.lnot 1))).
- pose proof (proj1 (emits_jalr 0 rv64 inst va ilen 0)) as Hb. cbv zeta in Hb. by apply Forall_app in Hb as [Hb _].
- unfold l, k_jalr. destruct rv64, (rd inst =? 0); cbn; lia.
- unfold l. pose proof (size_jalr (sf rv64 (u64 (va + ilen)))). lia.
- intros W Hr. split_and!; [apply u64_rng| | |].
+ apply even_bit. rewrite Z.land_spec. change (Z.testbit (u64 (Z.lnot 1)) 0) with false. apply andb_false_r.
+ opcodes E. by destruct (now_hart W) as [x ->].
+ pose proof (computes_jalr rv64 inst (sf rv64 (u64 (va + ilen))) W (ready_fit _ _ _ Hr) (sf_rng rv64 _ (u64_rng _))) as Hc.
rewrite (put_write h rv64 W (rd inst) _ (u64 (vs + ilen)) (ready_fit _ _ _ Hr)) in Hc; [done|]. rewrite (sext_sf _ rv64) by apply Hr. by rewrite sf_add.
Qed.
End One.
End Block.
End Term.
