(* ===== verification/JitBlock.v ===== *)
(** * A whole block

    The code of a block, called as a function, consumes the steps and leaves the machine the
    interpreter does on the instructions the block was translated from; emission never
    overflows its buffer and the code always returns. *)

From S2P Require Import Prelude Decode Rvc Device DeviceThms Memory Cache Cpu Mmu See Trap Alu Exec Fpu Step CpuInv AluSem AluThms EngineInv X86 Jit JitCode JitExec JitSim JitCall JitRef JitInsn JitTerm.

(** ** The instructions of a block *)

(** What [emit_insn] does with an instruction. *)
Definition insn_kind (rv64 : bool) (inst : Z) : EM :=
  let op := opcode inst in
  if (op =? OP_LUI) || (op =? OP_AUIPC) || (op =? OP_IMM) || (op =? OP_REG) then EM_CONT
  else if (op =? OP_IMM_32) || (op =? OP_REG_32) then if rv64 then EM_CONT else EM_STOP
  else if (op =? OP_LOAD) || (op =? OP_STORE) then EM_CONT
  else if (op =? OP_BRANCH) || (op =? OP_JAL) || (op =? OP_JALR) then EM_TERM
  else if op =? OP_FENCE then if funct3 inst =? 1 then EM_STOP else EM_CONT
  else EM_STOP.

Section Insns.
Context (b : Bus) (rv64 : bool) (va0 pa page_end : Z).

(** The instructions from the offset [off] on, at most [fuel]. *)
Fixpoint block_insns (fuel : nat) (off : Z) : list (Z * Z) :=
match fuel with
| O => []
| S fuel =>
match block_fetch b rv64 va0 pa page_end off with
| None => []
| Some (inst, ilen) =>
  match insn_kind rv64 inst with
  | EM_STOP => []
  | EM_TERM => [(inst, ilen)]
  | EM_CONT => (inst, ilen) :: block_insns fuel (off + ilen)
  end
end
end.
End Insns.

Section Block.
Context (h cpu_addr h_alu h_mem junk : Z) (Halu : rng 64 h_alu) (Hmem : rng 64 h_mem) (Hne : h_alu <> h_mem).
Context (code : Z -> list Z) (base rbx : Z) (Hepi : located code (base + 6) k_epilogue).
#[local] Abbreviation simulates := (simulates h cpu_addr h_alu h_mem junk code base rbx).

(** ** One instruction *)

Lemma emits_then {A} n m (a : A) l : emits n m tt l -> emits n (m ;; mret a) a l.
Proof. intros H. rewrite <- (app_nil_r l). apply emits_seq; [done|apply emits_ret]. Qed.
Lemma emit_insn_ok rv64 inst va ilen k n : rng 32 inst -> rng 64 va -> even va -> even ilen -> 0 <= n < 2 ^ 18 -> 0 <= k < 2 ^ 19 ->
exists l, emits n (emit_insn h_alu h_mem rv64 inst va ilen k) (insn_kind rv64 inst) l /\ size l <= 89 /\
match insn_kind rv64 inst with EM_STOP => l = [] | em => simulates rv64 inst va ilen k n l em end.
Proof.
intros Hi Hva Hev Hil Hn Hk.
assert (forall em m, (exists l, emits n m EM_CONT l /\ alu_code_ok h cpu_addr h_alu h_mem junk rv64 inst (sf rv64 va) k n l) -> integer inst -> em = EM_CONT ->
exists l, emits n m em l /\ size l <= 89 /\ match em with EM_STOP => l = [] | em => simulates rv64 inst va ilen k n l em end) as Hint.
{ intros em m (l & He & Hok) Hint ->. exists l. split; [done|]. split; [destruct Hok; lia|]. apply alu_sim; [done..|apply He|done]. }
unfold emit_insn, insn_kind; cbv zeta.
destruct (Z.eqb_spec (opcode inst) OP_LUI) as [E|E1]; cbn [orb].
{ eexists. split; [apply emits_then, emits_const|]. split; [pose proof (size_const (rd inst) (sf rv64 (u64 (imm_u inst)))); lia|]. apply lui_sim; try done. unfold accesses. by rewrite E. }
destruct (Z.eqb_spec (opcode inst) OP_AUIPC) as [E|E2]; cbn [orb].
{ eexists. split; [apply emits_then, emits_const|]. split; [pose proof (size_const (rd inst) (sf rv64 (u64 (va + u64 (imm_u inst))))); lia|]. apply auipc_sim; try done. unfold accesses. by rewrite E. }
destruct (Z.eqb_spec (opcode inst) OP_IMM) as [E|E3]; cbn [orb].
{ apply Hint; [by apply emit_op_imm_ok|by left|done]. }
destruct (Z.eqb_spec (opcode inst) OP_REG) as [E|E4]; cbn [orb].
{ apply Hint; [by apply emit_op_ok|unfold integer; tauto|done]. }
destruct (Z.eqb_spec (opcode inst) OP_IMM_32) as [E|E5]; cbn [orb].
{ destruct rv64; [|exists []; split; [apply emits_ret|done]]. apply Hint; [by apply emit_op_imm32_ok|unfold integer; tauto|done]. }
destruct (Z.eqb_spec (opcode inst) OP_REG_32) as [E|E6]; cbn [orb].
{ destruct rv64; [|exists []; split; [apply emits_ret|done]]. apply Hint; [by apply emit_op32_ok|unfold integer; tauto|done]. }
destruct ((opcode inst =? OP_LOAD) || (opcode inst =? OP_STORE)) eqn:Em.
{ exists (k_call h_mem inst (sf rv64 va) ++ k_glue_mem (n + 40) k). split.
- apply emits_seq; [apply emits_call|]. rewrite size_call. apply emits_then, emits_glue_mem.
- split; [rewrite size_app, size_call; pose proof (size_glue_mem (n + 40) k); lia|by apply mem_sim]. }
assert (accesses inst = false) as Hp by done.
destruct (Z.eqb_spec (opcode inst) OP_BRANCH) as [E|E7]; cbn [orb].
{ eexists. split; [apply emits_branch|]. split; [|by apply branch_sim]. rewrite size_app. set (l := k_branch _ _ _).
pose proof (size_branch inst (sf rv64 (u64 (va + ilen))) (sf rv64 (u64 (va + u64 (imm_b inst))))) as Hs. fold l in Hs. pose proof (size_exit (n + size l) (k + 1)). lia. }
destruct (Z.eqb_spec (opcode inst) OP_JAL) as [E|E8]; cbn [orb].
{ eexists. split; [apply emits_jal|]. split; [|by apply jal_sim]. rewrite !size_app. change (size [k_imm64 0 _]) with 10.
pose proof (size_const (rd inst) (sf rv64 (u64 (va + ilen)))). match goal with |- context [k_exit ?p _] => pose proof (size_exit p (k + 1)) end. lia. }
destruct (Z.eqb_spec (opcode inst) OP_JALR) as [E|E9]; cbn [orb].
{ eexists. split; [apply emits_jalr|]. split; [|by apply jalr_sim]. rewrite size_app. pose proof (size_jalr rv64 inst (sf rv64 (u64 (va + ilen)))).
match goal with |- context [k_exit ?p _] => pose proof (size_exit p (k + 1)) end. lia. }
destruct (Z.eqb_spec (opcode inst) OP_FENCE) as [E|E10]; [|exists []; split; [apply emits_ret|done]].
destruct (Z.eqb_spec (funct3 inst) 1) as [E'|E']; exists []; (split; [apply emits_ret|]); [done|]. split; [done|]. by apply fence_sim.
Qed.

(** ** The loop *)

Section Loop.
Context (b : Bus) (rv64 : bool) (va0 pa page_end : Z) (Hva0 : even va0).
#[local] Abbreviation loop := (block_loop h_alu h_mem).
#[local] Abbreviation insns := (block_insns b rv64 va0 pa page_end).
#[local] Abbreviation pc off := (sf rv64 (u64 (va0 + off))).
#[local] Abbreviation ready := (ready h).
#[local] Abbreviation reach := (reach h cpu_addr h_alu h_mem junk).
#[local] Abbreviation stops := (stops h cpu_addr h_alu h_mem junk).
#[local] Abbreviation now := (now h).

(** What running the code [L] of the instructions [l] from index [k] at [off] comes to: the
end of the block, or its fall-through behind [off']. *)
Definition block_sim (l : list (Z * Z)) (L : list (list Z * Insn)) (k off off' n : Z) (term : bool) : Prop := forall R F W,
R !! 3 = Some cpu_addr -> ready rv64 W -> located code (base + n) L ->
let s := mkHost R F [rbx] W in
let '(steps, W') := interp_block h l k (now (pc off) k W) in
stops code (64 * length l) (base + n) s (steps, rbx, W') \/
(term = false /\ steps = k + Z.of_nat (length l) /\ exists c R' F' W'', (c <= 64 * length l)%nat /\
reach code c (base + n) s (base + n + size L) (mkHost R' F' [rbx] W'') /\ R' !! 3 = Some cpu_addr /\ ready rv64 W'' /\ W' = now (pc off') steps W'').

Lemma block_sim_nil k off n : block_sim [] [] k off off n false.
Proof.
intros R F W HR Hr _. cbv zeta. cbn [interp_block]. right. split; [done|]. split; [cbn; lia|]. exists 0%nat, R, F, W. split_and!; [cbn; lia| |done|done|done].
change (size []) with 0. rewrite Z.add_0_r. apply reach_refl.
Qed.
Lemma block_sim_term inst ilen L k off off' n : simulates rv64 inst (u64 (va0 + off)) ilen k n L EM_TERM -> block_sim [(inst, ilen)] L k off off' n true.
Proof.
intros Hs R F W HR Hr Hl. specialize (Hs R F W HR Hr Hl). cbv zeta in *. cbn [interp_block]. unfold mbind, st_bind.
destruct (interp_insn h inst ilen _) as [[] W']; by left.
Qed.
Lemma block_sim_cons inst ilen l L L' k off off' n term : even ilen ->
simulates rv64 inst (u64 (va0 + off)) ilen k n L EM_CONT -> block_sim l L' (k + 1) (off + ilen) off' (n + size L) term ->
block_sim ((inst, ilen) :: l) (L ++ L') k off off' n term.
Proof.
intros Hil Hs Hb R F W HR Hr Hl. apply located_app in Hl as [Hl Hl']. rewrite <- Z.add_assoc in Hl'. specialize (Hs R F W HR Hr Hl). cbv zeta in *.
cbn [interp_block]. unfold mbind, st_bind. replace (64 * length ((inst, ilen) :: l))%nat with (64 + 64 * length l)%nat by (cbn [length]; lia).
destruct (interp_insn h inst ilen _) as [[] W']; [|left; by apply (stops_more _ _ _ _ _ _ 64); [lia|]..].
destruct Hs as (c & R' & F' & W1 & Hc & Hreach & HR' & Hr' & ->). replace (sf rv64 (u64 (u64 (va0 + off) + ilen))) with (pc (off + ilen)).
2:{ f_equal. unfold u64. by rewrite wrap_add_l, Z.add_assoc by lia. }
specialize (Hb R' F' W1 HR' Hr' Hl'). cbv zeta in Hb. rewrite <- Z.add_assoc in Hreach. destruct (interp_block h l (k + 1) _) as [steps W2]. destruct Hb as [Hb|(Ht & Hst & c' & R2 & F2 & W3 & Hc' & Hreach' & HR2 & Hr2 & ->)].
- left. apply (stops_more _ _ _ _ _ _ (c + 64 * length l)); [lia|]. by apply (reach_stops _ _ _ _ _ _ _ _ _ _ _ _ _ Hreach).
- right. split; [done|]. split; [cbn [length]; lia|]. exists (c + c')%nat, R2, F2, W3. split; [lia|]. split; [|done].
rewrite size_app. replace (base + n + (size L + size L')) with (base + (n + size L) + size L') by lia. by apply (reach_trans _ _ _ _ _ _ _ _ _ _ _ _ _ _ Hreach).
Qed.

Lemma fetch_ok off inst ilen : block_fetch b rv64 va0 pa page_end off = Some (inst, ilen) -> rng 32 inst /\ (ilen = 2 \/ ilen = 4).
Proof.
assert (forall a lo, ram_fetch16 b a = Some lo -> rng 16 lo) as Hf.
{ intros a lo. unfold ram_fetch16. destruct (_ && _); [done|]. destruct (_ || _); [done|]. cbv zeta. intros E. injection E as <-. apply wrap_range. lia. }
unfold block_fetch. cbv zeta. destruct (_ <? _); [done|]. destruct (ram_fetch16 b (u64 (pa + off))) as [lo|] eqn:Elo; cbn [mbind option_bind]; [|done].
pose proof (Hf _ _ Elo) as Hlo. destruct (negb _).
- destruct (_ =? RVC_ILLEGAL); [done|]. intros E. injection E as <- <-. split; [by apply rvc_expand_rng|by left].
- destruct (_ <? _); [done|]. destruct (ram_fetch16 b (u64 (u64 (pa + off) + 2))) as [hi|] eqn:Ehi; cbn [mbind option_bind]; [|done]. intros E. injection E as <- <-. split; [|by right].
apply lor_rng; [lia|by apply (rng_mono 16)|apply u32_rng].
Qed.

Lemma block_loop_ok fuel : forall k off c, even off -> cd_fail c = false -> cd_len c + 89 * Z.of_nat fuel <= 16000 -> 0 <= k -> k + Z.of_nat fuel <= 128 ->
let l := insns fuel off in
exists L off' term, loop fuel b rv64 va0 pa page_end k off c = (k + Z.of_nat (length l), off', term, mkCode (cd_buf c ++ bytes_of L) false) /\
Forall encoded L /\ size L <= 89 * Z.of_nat (length l) /\ block_sim l L k off off' (cd_len c) term.
Proof.
induction fuel as [|fuel IH]; intros k off c Hoff Hc Hroom Hk Hk'; cbv zeta.
all: assert (exists L off' term, (k, off, false, c) = (k + Z.of_nat (@length (Z * Z) []), off', term, mkCode (cd_buf c ++ bytes_of L) false) /\
Forall encoded L /\ size L <= 89 * Z.of_nat (@length (Z * Z) []) /\ block_sim [] L k off off' (cd_len c) term) as Hend.
1,3: exists [], off, false; split_and!; [|done|done|apply block_sim_nil]; cbn; rewrite app_nil_r, Z.add_0_r; destruct c; cbn in *; by rewrite Hc.
1: done.
cbn [block_loop block_insns]. destruct (block_fetch b rv64 va0 pa page_end off) as [[inst ilen]|] eqn:Ef; [|done].
destruct (fetch_ok off inst ilen Ef) as [Hi Hil]. assert (even ilen) as Hev by by destruct Hil as [-> | ->].
destruct (emit_insn_ok rv64 inst (u64 (va0 + off)) ilen k (cd_len c)) as (l & [He Hem] & Hs & Hsim); [done|apply u64_rng|apply even_u64; by apply even_add|done|unfold cd_len in *; lia|lia|].
unfold mbind, st_bind. rewrite (Hem c Hc eq_refl) by (unfold JIT_CODE_MAX; lia). destruct (insn_kind rv64 inst).
- set (c1 := mkCode (cd_buf c ++ bytes_of l) false). assert (cd_len c1 = cd_len c + size l) as El by (unfold cd_len, size; cbn; rewrite length_app; lia).
destruct (IH (k + 1) (off + ilen) c1) as (L & off' & term & -> & HeL & HsL & Hb); [by apply even_add|done|lia|lia|lia|]. rewrite El in Hb.
exists (l ++ L), off', term. split_and!.
+ cbn [cd_buf c1 length]. rewrite bytes_of_app, app_assoc, Nat2Z.inj_succ, <- Z.add_1_l, Z.add_assoc. done.
+ by apply Forall_app.
+ rewrite size_app. cbn [length]. lia.
+ by apply block_sim_cons.
- exists l, (off + ilen), true. split_and!; [done|done|cbn [length]; lia|by apply block_sim_term].
- rewrite Hsim. rewrite app_nil_r. destruct c as [buf f]; cbn in Hc; subst f. exact Hend.
Qed.
End Loop.
End Block.
