(* ===== verification/JitRun.v ===== *)
(** * Translated blocks in the machine

    The code in the arena is the code that was translated; calling it is running the
    interpreter on the block's instructions. *)

From S2P Require Import Prelude Decode Rvc Device DeviceInv DeviceThms Memory Cache Cpu Mmu See Trap Alu Exec Fpu Step CpuInv AluSem AluThms EngineInv X86 Jit JitCode JitExec JitSim JitCall JitRef JitInsn JitTerm JitBlock.

(** ** Code in the arena *)

(** No instruction is longer than the bytes the host fetches. *)
Lemma decode_op_len rex w xb l i n : decode_op rex w xb l = Some (i, n) -> n <= 10.
Proof.
  intros H. destruct l as [|op l]; [done|]. unfold decode_op in H; cbv zeta in H.
  repeat match type of H with
  | (if ?b then _ else _) = _ => destruct b
  | mbind _ ?o = _ => destruct o; cbn [mbind option_bind] in H
  | match ?l with _ => _ end = _ => destruct l
  end; try done; injection H as <- <-; lia.
Qed.
Lemma encoded_len b i : encoded (b, i) -> Z.of_nat (length b) <= 11.
Proof.
  intros He. specialize (He []). cbn [fst snd] in He. destruct (b ++ []) as [|x t]; [done|]. unfold decode in He.
  repeat match type of He with
  | (if ?c then _ else _) = _ => destruct c
  | mbind _ ?o = _ => let E := fresh "E" in destruct o as [[? ?]|] eqn:E; cbn [mbind option_bind] in He; [apply decode_op_len in E|]
  end; try done; [injection He as <- <-; lia..|]. apply decode_op_len in He. lia.
Qed.

(** The arena holds [bs] at [p]. *)
Definition in_arena (m : JitMem) (p : Z) (bs : list Z) : Prop :=
  0 <= p /\ p + Z.of_nat (length bs) <= JIT_ARENA /\ slice (jm_arena m) p (length bs) = bs.
Lemma in_arena_app m p bs bs' : in_arena m p (bs ++ bs') -> in_arena m p bs /\ in_arena m (p + Z.of_nat (length bs)) bs'.
Proof.
  intros (H0 & H1 & H2). rewrite length_app in H1, H2. rewrite slice_split in H2. apply app_inj_1 in H2 as [E1 E2]; [|apply length_slice].
  split; (split_and!; [lia|lia|done]).
Qed.
Lemma located_arena m L : forall p, Forall encoded L -> in_arena m p (bytes_of L) -> located (arena_fetch m) p L.
Proof.
  induction L as [|[bs i] L IH]; intros p He Ha; [done|]. apply Forall_cons_1 in He as [Hb He]. unfold bytes_of in Ha. cbn [fmap list_fmap concat fst] in Ha.
  apply in_arena_app in Ha as [(H0 & H1 & H2) Ha']. cbn [located fst]. split; [|by apply IH].
  pose proof (encoded_len bs i Hb) as Hlen. assert (0 < Z.of_nat (length bs)) as Hpos by (destruct bs; [by specialize (Hb [])|cbn; lia]).
  unfold arena_fetch. rewrite (proj2 (Z.leb_le 0 p)), (proj2 (Z.ltb_lt p JIT_ARENA)) by lia. cbn [andb].
  replace 12%nat with (length bs + (12 - length bs))%nat by lia. rewrite slice_split, H2. by eexists.
Qed.

(** ** Calling a block *)

Definition block_start (rv64 : bool) (pc : Z) : Z := if rv64 then pc else pc .& 0xffffffff.
(** The instructions of the block at [pc], as [b] holds them. *)
Definition block_of (b : Bus) (rv64 : bool) (pc pa : Z) : list (Z * Z) :=
  let va0 := block_start rv64 pc in
  block_insns b rv64 va0 pa (u64 ((va0 .| 0xfff) + 1)) (Z.to_nat JIT_MAX_INSNS) 0.

Section Run.
Context (h cpu_addr h_alu h_mem junk : Z) (Halu : rng 64 h_alu) (Hmem : rng 64 h_mem) (Hne : h_alu <> h_mem).
#[local] Abbreviation ready := (ready h).
#[local] Abbreviation stops := (stops h cpu_addr h_alu h_mem junk).
#[local] Abbreviation now := (now h).

Definition k_prologue : list (list Z * Insn) := [([0x53], PUSH 3); ([0x48; 0x89; 0xFB], MOV 3 7); ([0xEB; 0x02], JMP 2)].
Lemma encoded_prologue : Forall encoded k_prologue.
Proof. repeat constructor; decoding. Qed.

Section At.
Context (b : Bus) (rv64 : bool) (pc pa : Z) (Hpc : even pc).
#[local] Abbreviation va0 := (block_start rv64 pc).
#[local] Abbreviation l := (block_of b rv64 pc pa).

Lemma start_even : even va0.
Proof. unfold block_start. destruct rv64; [done|]. rewrite even_bit in *. by rewrite Z.land_spec, Hpc. Qed.
Lemma start_stored : sf rv64 (u64 (va0 + 0)) = sf rv64 (u64 pc).
Proof.
rewrite Z.add_0_r. unfold block_start, sf. destruct rv64; [done|]. f_equal. apply sgn_eqw; [lia|]. unfold eqw, u64. rewrite !(wrap_wrap 32 64) by lia.
change (pc .& 0xffffffff) with (wrap 32 pc). by rewrite (wrap_wrap 32 32) by lia.
Qed.
Lemma insns_len fuel : forall off, (length (block_insns b rv64 va0 pa (u64 ((va0 .| 0xfff) + 1)) fuel off) <= fuel)%nat.
Proof.
induction fuel as [|fuel IH]; intros off; cbn [block_insns length]; [lia|]. destruct (block_fetch _ _ _ _ _ _) as [[inst ilen]|]; [|cbn; lia].
destruct (insn_kind rv64 inst); cbn [length]; [|lia..]. specialize (IH (off + ilen)). lia.
Qed.
Lemma block_len : Z.of_nat (length l) <= 128.
Proof. assert (length l <= Z.to_nat 128)%nat as H by apply insns_len. lia. Qed.

(** The fall-through tail hands the next program counter to the dispatcher. *)
Definition k_tail (n v j : Z) : list (list Z * Insn) := [k_imm64 0 v] ++ k_exit (n + 10) j.
Lemma emits_tail n v j : emits n (x_imm64 RAX v ;; emit_exit j) tt (k_tail n v j).
Proof. apply emits_seq; [apply emits_imm64; by left|apply emits_exit]. Qed.
Lemma size_tail n v j : size (k_tail n v j) <= 38.
Proof. unfold k_tail. rewrite size_app. change (size [k_imm64 0 v]) with 10. pose proof (size_exit (n + 10) j). lia. Qed.
Lemma stops_tail code base rbx n v j R F W : located code (base + 6) k_epilogue -> 0 <= n < 2 ^ 18 -> 0 <= j < 2 ^ 20 -> rng 64 v -> ready rv64 W ->
R !! 3 = Some cpu_addr -> located code (base + n) (k_tail n v j) -> stops code 64 (base + n) (mkHost R F [rbx] W) (j, rbx, now v j W).
Proof.
intros Hepi Hn Hj Hv Hr HR Hl. apply (stops_computed h cpu_addr h_alu h_mem junk code base rbx Hepi [k_imm64 0 v]); [|apply (emits_imm64 0); by left|cbn; lia|done|done|done|apply Hr|done|done].
apply (computes_imm _ _ _ _ _ []); [|done]. intros R0 F0 S0 H0. by exists R0, F0.
Qed.

(** The code of a block: the prologue and epilogue, then code that runs the instructions. *)
Lemma block_code_ok code base rbx : located code (base + 6) k_epilogue ->
block_code h_alu h_mem b rv64 pc pa = None /\ l = [] \/
exists L, block_code h_alu h_mem b rv64 pc pa = Some (bytes_of (k_prologue ++ k_epilogue ++ L), Z.of_nat (length l)) /\
l <> [] /\ Forall encoded L /\ size L <= 89 * Z.of_nat (length l) + 38 /\
forall R F W, R !! 3 = Some cpu_addr -> ready rv64 W -> located code (base + 8) L ->
let '(steps, W') := interp_block h l 0 (now (sf rv64 (u64 (va0 + 0))) 0 W) in
stops code (64 * 129) (base + 8) (mkHost R F [rbx] W) (steps, rbx, W').
Proof.
intros Hepi. unfold block_code. fold va0. set (page_end := u64 ((va0 .| 0xfff) + 1)). cbv zeta.
set (c0 := mkCode [0x53; 0x48; 0x89; 0xFB; 0xEB; 0x02; 0x5B; 0xC3] false).
destruct (block_loop_ok h cpu_addr h_alu h_mem junk Halu Hmem Hne code base rbx Hepi b rv64 va0 pa page_end start_even (Z.to_nat JIT_MAX_INSNS) 0 0 c0)
as (L & off' & term & Eq & He & Hs & Hsim); [done|done|change (cd_len c0) with 8; unfold JIT_MAX_INSNS; lia|done|unfold JIT_MAX_INSNS; lia|].
change (block_insns b rv64 va0 pa page_end (Z.to_nat JIT_MAX_INSNS) 0) with l in *. change (cd_len c0) with 8 in Hsim. pose proof block_len as Hlen. rewrite Z.add_0_l in Eq.
assert (forall {A} (m : st Code A), (emit_prologue ;; m) (mkCode [] false) = m c0) as -> by done. rewrite Eq.
destruct (Z.eqb_spec (Z.of_nat (length l)) 0) as [E|E]; [left; split; [done|]; apply nil_length_inv; lia|]. right. pose proof (size_nonneg L) as HL.
assert (l <> []) as Hnil by (intros E'; by rewrite E' in E).
set (c1 := mkCode (cd_buf c0 ++ bytes_of L) false). assert (cd_len c1 = 8 + size L) as El1 by (unfold cd_len, size; cbn [cd_buf c1]; rewrite length_app; cbn [length cd_buf c0]; lia).
destruct term; cbn [negb].
- exists L. split; [by rewrite !bytes_of_app|]. split; [done|]. split; [done|]. split; [lia|]. intros R F W HR Hr Hl. specialize (Hsim R F W HR Hr Hl). cbv zeta in Hsim.
destruct (interp_block h l 0 _) as [steps W']. destruct Hsim as [Hst|[Hf _]]; [|done]. apply (stops_more _ _ _ _ _ _ (64 * length l)); [lia|done].
- set (v := sf rv64 (u64 (va0 + off'))). destruct (emits_tail (8 + size L) v (Z.of_nat (length l))) as [HeT HT]. set (T := k_tail _ _ _) in *.
assert (size T <= 38) as HsT by apply size_tail.
exists (L ++ T). unfold exec, when. rewrite (HT c1 eq_refl El1) by (unfold JIT_CODE_MAX; lia). split; [|split; [done|split; [by apply Forall_app|split; [rewrite size_app; lia|]]]].
+ cbn [snd cd_fail cd_buf c1]. by rewrite !bytes_of_app, <- app_assoc.
+ intros R F W HR Hr Hl. apply located_app in Hl as [Hl HlT]. specialize (Hsim R F W HR Hr Hl). cbv zeta in Hsim.
destruct (interp_block h l 0 _) as [steps W']. destruct Hsim as [Hst|(_ & -> & c & R' & F' & W1 & Hc & Hreach & HR' & Hr' & ->)]; [apply (stops_more _ _ _ _ _ _ (64 * length l)); [lia|done]|].
apply (stops_more _ _ _ _ _ _ (c + 64)); [lia|]. apply (reach_stops _ _ _ _ _ _ _ _ _ _ _ _ _ Hreach). rewrite Z.add_0_l.
rewrite <- Z.add_assoc in HlT |- *. apply stops_tail; [done|lia|lia|apply sf_rng, u64_rng|done|done|done].
Qed.

(** A block with at least one instruction always has its code, of bounded size. *)
Lemma block_code_shape : block_code h_alu h_mem b rv64 pc pa = None /\ l = [] \/
exists bs, block_code h_alu h_mem b rv64 pc pa = Some (bytes_of k_prologue ++ bytes_of k_epilogue ++ bs, Z.of_nat (length l)) /\
l <> [] /\ Z.of_nat (length bs) <= 89 * Z.of_nat (length l) + 38.
Proof.
destruct (block_code_ok (fun p => if p =? 6 then [0x5B; 0xC3] else [0xC3]) 0 0) as [Hn|(L & Hc & Hnil & He & Hs & _)].
- split; [by exists [0xC3]|]. split; [by exists []|done].
- by left.
- right. exists (bytes_of L). by rewrite Hc, !bytes_of_app.
Qed.

Lemma stops_prologue code base rbx N W res : located code base k_prologue ->
stops code N (base + 8) (mkHost (<[3 := cpu_addr]> {[7 := cpu_addr; 3 := rbx]}) None [rbx] W) res ->
stops code (3 + N) base (mkHost {[7 := cpu_addr; 3 := rbx]} None [] W) res.
Proof.
intros (H1 & H2 & H3 & _) Hst. cbn [fst length] in *. pose proof encoded_prologue as He.
apply Forall_cons_1 in He as [E1 He]. apply Forall_cons_1 in He as [E2 He]. apply Forall_cons_1 in He as [E3 _].
apply (reach_stops _ _ _ _ _ code 1 _ _ _ (base + 1 + 0) (mkHost {[7 := cpu_addr; 3 := rbx]} None [rbx] W)).
{ by apply (reach_one _ _ _ _ _ code base [0x53] (PUSH 3)). }
apply (reach_stops _ _ _ _ _ code 1 _ _ _ (base + 1 + 3 + 0) (mkHost (<[3 := cpu_addr]> {[7 := cpu_addr; 3 := rbx]}) None [rbx] W)).
{ rewrite Z.add_0_r. by apply (reach_one _ _ _ _ _ code (base + 1) [0x48; 0x89; 0xFB] (MOV 3 7)). }
apply (reach_stops _ _ _ _ _ code 1 _ _ _ (base + 1 + 3 + 2 + 2) (mkHost (<[3 := cpu_addr]> {[7 := cpu_addr; 3 := rbx]}) None [rbx] W)).
{ rewrite Z.add_0_r. by apply (reach_one _ _ _ _ _ code (base + 1 + 3) [0xEB; 0x02] (JMP 2)). }
by replace (base + 1 + 3 + 2 + 2) with (base + 8) by lia.
Qed.

Lemma block_code_fits code n : block_code h_alu h_mem b rv64 pc pa = Some (code, n) -> Z.of_nat (length code) <= JIT_CODE_MAX.
Proof.
intros Hc. destruct block_code_shape as [[E _]|(bs & E & _ & Hbs)]; [congruence|]. assert (code = bytes_of k_prologue ++ bytes_of k_epilogue ++ bs) as -> by congruence.
rewrite !length_app, !Nat2Z.inj_add. pose proof block_len.
change (Z.of_nat (length (bytes_of k_prologue))) with 6. change (Z.of_nat (length (bytes_of k_epilogue))) with 2. unfold JIT_CODE_MAX. lia.
Qed.
Lemma call_block_ok m fn rbx code n W : block_code h_alu h_mem b rv64 pc pa = Some (code, n) -> in_arena m fn code ->
ready rv64 W -> c_pc (hart h W) = pc -> sf rv64 pc = pc ->
let '(steps, W') := interp_block h l 0 W in call_block h cpu_addr h_alu h_mem junk m fn rbx W = Some (steps, rbx, W').
Proof.
intros Hcode Ha Hr Epc Hsf. destruct block_code_shape as [[E _]|(bs & E & _)]; [congruence|]. assert (code = bytes_of k_prologue ++ bytes_of k_epilogue ++ bs) as -> by congruence. rewrite app_assoc in Ha.
apply in_arena_app in Ha as [Ha0 Ha1]. pose proof Ha0 as Ha2. apply in_arena_app in Ha2 as [Hp He].
apply (located_arena m _ _ encoded_prologue) in Hp. apply (located_arena m _ _ encoded_epilogue) in He.
change (Z.of_nat (length (bytes_of k_prologue))) with 6 in He. change (Z.of_nat (length (bytes_of k_prologue ++ bytes_of k_epilogue))) with 8 in Ha1.
destruct (block_code_ok (arena_fetch m) fn rbx He) as [[E' _]|(L & E' & _ & HeL & _ & Hrun)]; [congruence|].
assert (bytes_of k_prologue ++ bytes_of k_epilogue ++ bs = bytes_of (k_prologue ++ k_epilogue ++ L)) as Eb by congruence.
rewrite !bytes_of_app in Eb. apply app_inv_head, app_inv_head in Eb. subst bs. apply (located_arena m _ _ HeL) in Ha1.
specialize (Hrun (<[3 := cpu_addr]> {[7 := cpu_addr; 3 := rbx]}) None W ltac:(by rewrite lookup_insert_eq) Hr Ha1).
replace (now (sf rv64 (u64 (va0 + 0))) 0 W) with W in Hrun.
- destruct (interp_block h l 0 W) as [steps W']. destruct (stops_prologue _ _ _ _ _ _ Hp Hrun) as (c & Hc & H). unfold call_block, call_code.
replace (Z.to_nat JIT_CODE_MAX) with (c + (Z.to_nat JIT_CODE_MAX - c))%nat; [apply H|]. unfold JIT_CODE_MAX. lia.
- rewrite start_stored. unfold u64. rewrite (wrap_small 64 pc), Hsf; [|lia|].
+ unfold now, adds. cbn [Z.eqb]. symmetry. apply upd_same; [apply Hr|]. rewrite <- Epc. by destruct (hart h W).
+ rewrite <- Epc. apply (ok_pc (hart h W)), Hr.
Qed.

(** C2 [jit_block_interprets]: the code [translate] generates for a basic block does what the
interpreter does.  Whenever a block starts at the program counter, its translation never
runs out of the buffer and counts its instructions; and wherever in the arena that code is
placed, calling it terminates, restores rbx and returns the number of instructions retired
or consumed and the machine state that [dispatch] and [retire] of [cpu_step] give on
the same instructions, up to the first trap, device access or end of the block.  The program
counter is even and in the form the generated code stores (on RV32 sign-extended to 64 bits,
which the reset value 0x80000000 is not). *)
Theorem jit_block_interprets m fn rbx W : ready rv64 W -> c_pc (hart h W) = pc -> sf rv64 pc = pc -> l <> [] ->
exists code, block_code h_alu h_mem b rv64 pc pa = Some (code, Z.of_nat (length l)) /\ Z.of_nat (length code) <= JIT_CODE_MAX /\
(in_arena m fn code -> let '(steps, W') := interp_block h l 0 W in
call_block h cpu_addr h_alu h_mem junk m fn rbx W = Some (steps, rbx, W')).
Proof.
intros Hr Epc Hsf Hl. destruct block_code_shape as [[_ E]|(bs & E & _)]; [done|]. eexists. split; [exact E|]. split; [exact (block_code_fits _ _ E)|].
intros Ha. exact (call_block_ok m fn rbx _ _ W E Ha Hr Epc Hsf).
Qed.
End At.
End Run.

(** addi a0, zero, 5; add a1, a0, a0; sw a1, 0(sp) to address 0, which is not mapped; jal to
    itself. *)
Definition sample_code : list Z := [0x13; 0x05; 0x50; 0x00; 0xb3; 0x05; 0xa5; 0x00; 0x23; 0x20; 0xb1; 0x00; 0x6f; 0x00; 0x00; 0x00].
Definition sample_world : World := boot_world 64 sample_code.
Lemma sample_ready : ready 0 true sample_world.
Proof.
  constructor; [|split; [by eexists|vm_compute; reflexivity]|vm_compute; reflexivity|split_and!; vm_compute; reflexivity].
  apply boot_world_ok; [by right|]. apply bytes_forallb. reflexivity.
Qed.
Definition sample_block : list (Z * Z) := Eval vm_compute in block_of (w_bus sample_world) true 0x80000000 0x80000000.
Lemma sample_block_eq : block_of (w_bus sample_world) true 0x80000000 0x80000000 = sample_block.
Proof. vm_compute. reflexivity. Qed.
Lemma sample_pc : c_pc (hart 0 sample_world) = 0x80000000.
Proof. vm_compute. reflexivity. Qed.
Definition sample_mem : JitMem :=
  mkJitMem (put_bytes 64 (match block_code 1 2 (w_bus sample_world) true 0x80000000 0x80000000 with Some (code, _) => code | None => [] end) ∅) 0 ∅.
Lemma jit_block_interprets_witness :
  length sample_block = 4%nat /\
  exists code, block_code 1 2 (w_bus sample_world) true 0x80000000 0x80000000 = Some (code, 4) /\
    Z.of_nat (length code) <= JIT_CODE_MAX /\
    let '(steps, W') := interp_block 0 sample_block 0 sample_world in
    call_block 0 0x7000 1 2 0 sample_mem 64 9 sample_world = Some (steps, 9, W').
Proof.
  split; [reflexivity|].
  destruct (jit_block_interprets 0 0x7000 1 2 0 (rng_const 64 1 eq_refl) (rng_const 64 2 eq_refl) ltac:(done) (w_bus sample_world) true 0x80000000 0x80000000 eq_refl
    sample_mem 64 9 sample_world sample_ready sample_pc eq_refl ltac:(by rewrite sample_block_eq)) as (code & Hc & Hl & H).
  rewrite sample_block_eq in Hc, H. exists code. split; [exact Hc|]. split; [exact Hl|]. apply H.
  split; [done|]. split; [unfold JIT_CODE_MAX in Hl; change JIT_ARENA with 33554432; lia|]. unfold sample_mem. rewrite Hc. apply slice_put_bytes.
Defined.
