(* ===== verification/JitTable.v ===== *)
(** * The block table

    The invariant of the table and the arena, and the dispatcher: a live entry always points
    to the intact code of a block that was translated in this generation. *)

From S2P Require Import Prelude Decode Rvc Device DeviceThms Memory Cache Cpu Mmu See Trap Alu Exec Fpu Step CpuInv AluSem AluThms EngineInv MmuThms X86 Jit JitCode JitExec JitSim JitCall JitRef JitInsn JitTerm JitBlock JitRun.

Section Table.
Context (h cpu_addr h_alu h_mem junk : Z) (Halu : rng 64 h_alu) (Hmem : rng 64 h_mem) (Hne : h_alu <> h_mem) (rv64 : bool).

(** ** The invariant *)

(** The entry is the translation of the block at its addresses in the memory [b]. *)
Definition installed (j : Jit) (m : JitMem) (b : Bus) (e : JitEntry) : Prop :=
match e_fn e with
| None => block_code h_alu h_mem b rv64 (e_va e) (e_pa e) = None
| Some off => exists code, block_code h_alu h_mem b rv64 (e_va e) (e_pa e) = Some (code, e_ninsn e) /\
  in_arena m off code /\ off + Z.of_nat (length code) <= j_used j
end.
(** [P] holds of the memories blocks of this generation were translated from. *)
Record table_ok (P : Bus -> Prop) (j : Jit) (m : JitMem) : Prop := {
tb_used : 0 <= j_used j <= JIT_ARENA;
tb_gen : 0 < j_gen j;
tb_old : forall k e, jm_table m !! k = Some e -> e_gen e <= j_gen j;
tb_live : forall k e, jm_table m !! k = Some e -> e_gen e = j_gen j -> even (e_va e) ->
exists b, P b /\ installed j m b e
}.
Lemma table_mono (P Q : Bus -> Prop) j m : (forall b, P b -> Q b) -> table_ok P j m -> table_ok Q j m.
Proof. intros HPQ [H1 H2 H3 H4]. constructor; [done..|]. intros k e Hk He Hv. destruct (H4 k e Hk He Hv) as (b & Hb & Hc). exists b. auto. Qed.

(** A new handle has an empty table. *)
Lemma table_new P : let '(j, m) := jit_new_x86 in table_ok P j m.
Proof. constructor; cbn; [done|lia|..]; intros *; by rewrite lookup_empty. Qed.
(** A flush makes every entry stale. *)
Lemma table_flush P Q j m : table_ok P j m -> j_gen j + 1 < 2 ^ 64 -> table_ok Q (jit_flush j) m.
Proof.
intros [H1 H2 H3 H4] Hg. assert (u64 (j_gen j + 1) = j_gen j + 1) as E by (apply wrap_small; [lia|unfold rng; lia]). constructor; cbn; rewrite ?E.
- done.
- lia.
- intros k e Hk. specialize (H3 k e Hk). lia.
- intros k e Hk He. specialize (H3 k e Hk). lia.
Qed.
(** An entry for a block that cannot be translated. *)
Lemma table_claim (P : Bus -> Prop) j m set way pa va b : table_ok P j m -> P b -> block_code h_alu h_mem b rv64 va pa = None ->
table_ok P j (set_entry set way (mkJitEntry (j_gen j) pa va None 0) m).
Proof.
intros [H1 H2 H3 H4] HP Hn. constructor; [done|done|..]; intros k e; unfold set_entry; cbn [jm_table jm_arena]; (destruct (decide (set * JIT_WAYS + way = k)) as [<-|Hk];
[rewrite lookup_insert_eq; intros|rewrite lookup_insert_ne by done]); simplify_eq/=; [done|by apply H3|by exists b|]. apply H4.
Qed.
Lemma table_victim P j m v : table_ok P j m -> table_ok P j (mkJitMem (jm_arena m) v (jm_table m)).
Proof. intros [H1 H2 H3 H4]. by constructor. Qed.

(** ** Installing a block *)

Definition live (P : Bus -> Prop) (pa va : Z) (j : Jit) (m : JitMem) (e : JitEntry) : Prop :=
e_gen e = j_gen j /\ e_pa e = pa /\ e_va e = va /\ (even va -> exists b, P b /\ installed j m b e).
Lemma entry_set set way e m : jit_entry (set_entry set way e m) set way = e.
Proof. unfold jit_entry, set_entry. cbn. by rewrite lookup_insert_eq. Qed.

(** Code at the end of the arena. *)
Lemma table_append (P : Bus -> Prop) j m set way pa va b code n : table_ok P j m -> P b -> block_code h_alu h_mem b rv64 va pa = Some (code, n) ->
j_used j + Z.of_nat (length code) <= JIT_ARENA ->
let m' := set_entry set way (mkJitEntry (j_gen j) pa va (Some (j_used j)) n) (mkJitMem (put_bytes (j_used j) code (jm_arena m)) (jm_victim m) (jm_table m)) in
table_ok P (mkJit (j_gen j) (j_used j + Z.of_nat (length code))) m' /\ in_arena m' (j_used j) code.
Proof.
intros [H1 H2 H3 H4] HP Hcode Hroom. cbv zeta. set (m' := set_entry _ _ _ _).
assert (in_arena m' (j_used j) code) as Hin by (split_and!; [lia|done|apply slice_put_bytes]). split; [|done]. constructor; cbn [j_used j_gen]; [lia|done|..].
- intros k e. unfold m', set_entry. cbn [jm_table]. destruct (decide (set * JIT_WAYS + way = k)) as [<-|Hk]; [rewrite lookup_insert_eq|rewrite lookup_insert_ne by done; apply H3].
intros E. injection E as <-. cbn. lia.
- intros k e. unfold m' at 1, set_entry. cbn [jm_table]. destruct (decide (set * JIT_WAYS + way = k)) as [<-|Hk].
+ rewrite lookup_insert_eq. intros E _ _. injection E as <-. exists b. split; [done|]. exists code. split_and!; [done|done|cbn; lia].
+ rewrite lookup_insert_ne by done. intros Hk' He Hv. destruct (H4 k e Hk' He Hv) as (b' & Hb & Hi). exists b'. split; [done|]. unfold installed in *.
  destruct (e_fn e) as [off|]; [|done]. destruct Hi as (code' & Hc & (Ha1 & Ha2 & Ha3) & Hu). exists code'. split_and!; [done| |cbn; lia].
  split_and!; [done|done|]. rewrite <- Ha3 at 2. apply slice_ext. intros i Hi. apply put_bytes_out. lia.
Qed.

Lemma find_way_in p ways w : find_way p ways = Some w -> p w = true /\ w ∈ ways.
Proof.
induction ways as [|w' ways IH]; cbn [find_way]; [done|]. destruct (p w') eqn:E; [|intros H; destruct (IH H); split; [done|by right]].
intros H. injection H as <-. split; [done|by left].
Qed.
Lemma way_range w : w ∈ zseq 0 (Z.to_nat JIT_WAYS) -> 0 <= w < JIT_WAYS.
Proof. intros H. apply elem_of_zseq in H. unfold JIT_WAYS in *. lia. Qed.
Lemma choose_way_ok P gen set s : table_ok P (w_jit (js_world s)) (js_mem s) -> let '(w, s') := choose_way gen set s in
0 <= w < JIT_WAYS /\ js_world s' = js_world s /\ table_ok P (w_jit (js_world s)) (js_mem s').
Proof.
intros Ht. unfold choose_way. destruct (find_way _ _) as [w|] eqn:Ew.
- split; [|done]. by apply way_range, (find_way_in _ _ _ Ew).
- split; [|split; [done|by apply table_victim]]. change (JIT_WAYS - 1) with (Z.ones 2). rewrite Z.land_ones by lia. apply Z.mod_pos_bound. done.
Qed.

Lemma install_ok (P : Bus -> Prop) set way pa va b code n W m : let j := w_jit W in
table_ok P j m -> P b -> block_code h_alu h_mem b rv64 va pa = Some (code, n) -> even va -> j_gen j + 1 < 2 ^ 64 ->
let s' := install set way code n (mkJitState W (set_entry set way (mkJitEntry (j_gen j) pa va None 0) m)) in
exists j', js_world s' = set_w_jit j' W /\ table_ok P j' (js_mem s') /\ live P pa va j' (js_mem s') (jit_entry (js_mem s') set way).
Proof.
cbv zeta. intros Ht HP Hc Hv Hg. unfold install. cbn [js_world js_mem]. rewrite entry_set. cbn [e_gen e_pa e_va].
pose proof (block_code_fits h cpu_addr h_alu h_mem junk Halu Hmem Hne _ _ _ _ Hv _ _ Hc) as Hlen. unfold JIT_CODE_MAX in Hlen. set (full := JIT_ARENA <? _).
set (j := if full then jit_flush (w_jit W) else w_jit W). assert (table_ok P j m) as Htj by (unfold j; destruct full; [by apply (table_flush P)|done]).
assert (j_used j + Z.of_nat (length code) <= JIT_ARENA) as Hroom.
{ unfold j, full. destruct (Z.ltb_spec JIT_ARENA (j_used (w_jit W) + Z.of_nat (length code))); [cbn [jit_flush j_used]; change JIT_ARENA with 33554432; lia|done]. }
destruct (table_append P j m set way pa va b code n Htj HP Hc Hroom) as [Ht' Hin].
replace (if full then j_gen j else j_gen (w_jit W)) with (j_gen j) by (unfold j; by destruct full).
eexists. split; [done|]. unfold set_entry in *. cbn [jm_arena jm_victim jm_table] in *. rewrite insert_insert_eq. split; [exact Ht'|].
unfold jit_entry. cbn [jm_table]. rewrite lookup_insert_eq. split_and!; [done..|]. intros _. exists b. split; [done|]. exists code. split_and!; [done|done|cbn; lia].
Qed.
Lemma add_block_ok (P : Bus -> Prop) set pa s : let w := js_world s in let j := w_jit w in let pc := c_pc (hart h w) in
table_ok P j (js_mem s) -> P (w_bus w) -> even pc -> c_xlen (hart h w) = (if rv64 then 64 else 32) -> j_gen j + 1 < 2 ^ 64 ->
let '(way, s') := add_block h h_alu h_mem set pa s in
0 <= way < JIT_WAYS /\ exists j', js_world s' = set_w_jit j' w /\ table_ok P j' (js_mem s') /\ live P pa pc j' (js_mem s') (jit_entry (js_mem s') set way).
Proof.
cbv zeta. intros Ht HP Hv Hx Hg. unfold add_block, mbind, st_bind, gets, modify. cbv zeta.
pose proof (choose_way_ok P (j_gen (w_jit (js_world s))) set s Ht) as Hw. destruct (choose_way _ set s) as [way s1]. destruct Hw as (Hw & Ew & Ht1). rewrite Ew.
replace (c_xlen (hart h (js_world s)) =? 64) with rv64 by (rewrite Hx; by destruct rv64).
destruct (block_code h_alu h_mem _ rv64 _ pa) as [[code n]|] eqn:Ec; (split; [done|]).
- by apply (install_ok P set way pa (c_pc (hart h (js_world s))) (w_bus (js_world s)) code n (js_world s) (js_mem s1)).
- exists (w_jit (js_world s)). split; [cbn; by destruct (js_world s)|]. cbn [js_mem]. split; [by apply (table_claim P _ _ _ _ _ _ (w_bus (js_world s)))|].
rewrite entry_set. split_and!; [done..|]. intros _. by exists (w_bus (js_world s)).
Qed.

(** ** The boundary before a block *)

(** The prologue of [cpu_step] and the translation of the program counter. *)
Inductive Boundary := Consumed | Unmapped | Start (pa : Z).
Definition boundary : st World Boundary :=
bus (modify (set_b_fault false)) ;;
cpu_upd h (set_c_trapped false) ;;
consumed ← cpu_pre_step h;
if consumed : bool then mret Consumed
else
c ← gets (hart h);
t ← mmu_translate h (c_pc c) ACC_FETCH;
mret (match t with Fault _ => Unmapped | Phys pa => Start pa end).

(** ** What runs leaves the translator alone *)

Section Kept.
Context (j : Jit).
#[local] Abbreviation K := (fun w => w_jit w = j).
#[local] Abbreviation kept m := (keeps K m (fun _ => True)).

Lemma kept_bus {A} (m : st Bus A) : kept (bus m).
Proof. intros w Hw. split; [done|]. unfold exec, bus. by destruct (m (w_bus w)). Qed.
Ltac keep :=
repeat (cbv zeta; match goal with
| |- keeps _ (mbind _ _) _ => apply (keeps_bind _ _ _ (fun _ => True)); [|intros ? _]
| |- keeps _ (mret _) _ => by apply keeps_ret
| |- keeps _ (gets _) _ => by intros ? ?
| |- keeps _ (bus _) _ => apply kept_bus
| |- keeps _ (host _) _ => apply kept_bus
| |- keeps _ (cpu_upd _ _) _ => by intros ? ?
| |- keeps _ (modify _) _ => by intros ? ?
| |- keeps _ (when _ _) _ => apply keeps_when; [done|]
| |- keeps _ (for_ _ _ _) _ => apply keeps_for; intros ? ?
| |- keeps _ (if _ then _ else _) _ => apply keeps_if
| |- keeps _ (match ?x with _ => _ end) _ => destruct x
end).
Lemma kept_raise cause tval : synchronous cause -> kept (raise_trap h cause tval).
Proof.
intros (H1 & H2 & H3). unfold raise_trap, legacy_trap. rewrite (proj2 (Z.eqb_neq cause _) H1), (proj2 (Z.eqb_neq cause _) H2), (proj2 (Z.eqb_neq cause _) H3). cbn [orb]. keep.
Qed.
Lemma kept_translate va acc : keeps K (mmu_translate h va acc) (faults acc).
Proof.
intros W HW. split; [apply translate_faults|]. revert W HW. enough (kept (mmu_translate h va acc)) as H by (intros W HW; by apply H). unfold mmu_translate, finish_walk. keep.
Qed.
Lemma kept_access {A} va acc (F : Trans -> st World A) : (forall cause, synchronous cause -> kept (F (Fault cause))) -> (forall pa, kept (F (Phys pa))) ->
kept (t ← mmu_translate h va acc; F t).
Proof.
intros Hf Hp. eapply keeps_bind; [apply kept_translate|]. intros [cause|pa] Ht; [|done]. apply Hf. cbn in Ht. rewrite Ht. apply sync_pf.
Qed.
Lemma kept_mem inst : kept (if opcode inst =? OP_LOAD then exec_load h inst else exec_store h inst).
Proof.
unfold exec_load, exec_store, observe_cache, break_reservation.
apply keeps_if; (apply (keeps_bind _ _ _ (fun _ => True)); [by intros ? ?|intros c _]; cbv zeta; apply kept_access; [intros cause Hc|intros pa; keep];
apply (keeps_bind _ _ _ (fun _ => True)); [by apply kept_raise|keep; by intros ? ?]).
Qed.
Lemma kept_dispatch inst ilen : insn_kind rv64 inst <> EM_STOP -> kept (dispatch h inst ilen).
Proof.
intros Hk. assert (kept (alu_handler h inst)) as Ha.
{ intros w Hw. split; [done|]. unfold exec. rewrite alu_handler_eq. destruct (alu_result _ _ _ _); [done|by apply kept_raise]. }
destruct (decide (integer inst)) as [Hi|Hi].
{ intros w Hw. split; [done|]. unfold exec. rewrite dispatch_alu by done. by apply Ha. }
destruct (accesses inst) eqn:Em.
{ intros w Hw. split; [done|]. unfold exec. rewrite dispatch_mem by done. by apply kept_mem. }
unfold insn_kind, accesses, integer in *. cbv zeta in Hk. rewrite Em in Hk.
assert (opcode inst = OP_LUI \/ opcode inst = OP_AUIPC \/ opcode inst = OP_BRANCH \/ opcode inst = OP_JAL \/ opcode inst = OP_JALR \/
(opcode inst = OP_FENCE /\ funct3 inst <> 1)) as Ho.
{ repeat match type of Hk with context [opcode inst =? ?o] => destruct (Z.eqb_spec (opcode inst) o); [tauto|] end; cbn [orb] in Hk.
destruct (Z.eqb_spec (opcode inst) OP_FENCE); [|done]. destruct (Z.eqb_spec (funct3 inst) 1); [done|tauto]. }
unfold dispatch. destruct Ho as [Ho|[Ho|[Ho|[Ho|[Ho|[Ho H3]]]]]]; rewrite Ho;
cbn [Z.eqb Pos.eqb OP_IMM OP_IMM_32 OP_REG OP_REG_32 OP_LUI OP_AUIPC OP_JAL OP_JALR OP_BRANCH OP_LOAD OP_STORE OP_AMO OP_LOAD_FP OP_STORE_FP OP_FP OP_MADD OP_MSUB OP_NMSUB OP_NMADD OP_FENCE]; [keep..|].
unfold exec_fence. rewrite (proj2 (Z.eqb_neq _ _) H3). cbn [when]. keep.
Qed.
Lemma kept_insn inst ilen : insn_kind rv64 inst <> EM_STOP -> kept (interp_insn h inst ilen).
Proof.
intros Hk. unfold interp_insn, interp_step, probe, retire. apply (keeps_bind _ _ _ (fun _ => True)).
- apply keeps_if; [|by apply keeps_ret]. apply (keeps_bind _ _ _ (fun _ => True)); [by intros ? ?|intros c _]. cbv zeta. apply kept_access; intros; keep.
- intros dev _. apply keeps_if; [by apply keeps_ret|]. keep; [by apply kept_dispatch|..]; apply kept_raise; [by destruct (_ || _)|done].
Qed.
Lemma kept_block b va0 pa page_end fuel : forall off k, kept (interp_block h (block_insns b rv64 va0 pa page_end fuel off) k).
Proof.
induction fuel as [|fuel IH]; intros off k; cbn [block_insns interp_block]; [by apply keeps_ret|].
destruct (block_fetch _ _ _ _ _ _) as [[inst ilen]|]; [|by apply keeps_ret].
destruct (insn_kind rv64 inst) eqn:Ek; cbn [interp_block]; [| |by apply keeps_ret];
(apply (keeps_bind _ _ _ (fun _ => True)); [apply kept_insn; by rewrite Ek|]; intros [] _); try (by apply keeps_ret). apply IH.
Qed.
Lemma kept_boundary : kept boundary.
Proof.
unfold boundary, cpu_pre_step, take_interrupt. keep. intros w Hw. split; [done|]. by apply kept_translate.
Qed.
End Kept.

(** ** The dispatcher *)

(** What a boundary that does not consume the step leaves alone. *)
Definition quiet (c c' : CPU) : Prop := c_regs c' = c_regs c /\ c_pc c' = c_pc c /\ c_halted c' = c_halted c /\ c_trapped c' = c_trapped c.
Lemma quiet_effective b c : quiet c (effective_mip b c).
Proof. unfold effective_mip. by destruct (b_has_plat b). Qed.
Lemma quiet_tick b c : quiet c (sstc_tick (firmware_timer_tick b c)).
Proof.
assert (quiet c (firmware_timer_tick b c)) as (H1 & H2 & H3 & H4) by (unfold firmware_timer_tick; destruct (negb _); [done|]; by destruct (has _ _)).
unfold sstc_tick. destruct (negb _); [by split_and!|]. destruct (_ <=? _); by split_and!.
Qed.
Lemma pre_step_quiet W W' : cpu_pre_step h W = (false, W') -> w_bus W' = w_bus W /\ quiet (hart h W) (hart h W') /\ (present h W -> present h W').
Proof.
unfold cpu_pre_step, mbind, st_bind, gets, cpu_upd, modify. destruct (negb _); [intros E; by injection E as <-|]. destruct (plat_poweroff_requested _); [done|].
unfold take_interrupt, mbind, st_bind, gets, cpu_upd, modify. set (W1 := upd_hart h (effective_mip _) _).
assert (w_bus W1 = w_bus W /\ quiet (hart h W) (hart h W1) /\ (present h W -> present h W1)) as H1.
{ unfold W1. rewrite !hart_after. split; [done|]. split; [|intros _; apply present_upd]. destruct (quiet_tick (w_bus W) (hart h W)) as (A1 & A2 & A3 & A4).
match goal with |- quiet _ (effective_mip ?b ?c) => destruct (quiet_effective b c) as (B1 & B2 & B3 & B4) end. split_and!; congruence. }
destruct (_ =? 0); [intros E; by injection E as <-|]. destruct (irq_scan _ _ _); [done|]. intros E. by injection E as <-.
Qed.
Lemma boundary_ready W pa W' : world_ok W -> zero h W -> c_xlen (hart h W) = (if rv64 then 64 else 32) -> c_halted (hart h W) = false ->
boundary W = (Start pa, W') -> ready h rv64 W' /\ c_pc (hart h W') = c_pc (hart h W).
Proof.
intros Hw Hz Hx Hh. unfold boundary, mbind, st_bind, bus, modify, cpu_upd, gets. cbn [fst snd].
set (W0 := upd_hart h (set_c_trapped false) (set_w_bus (set_b_fault false (w_bus W)) W)).
assert (world_inv W W0) as Hw0 by (apply (keep_upd W h); [intros; by apply cinv_set_c_trapped|]; by apply (keep_fault W false)).
change (modify (upd_hart h (set_c_trapped false)) (set_w_bus (set_b_fault false (w_bus W)) W)) with (tt, W0). cbv beta iota.
pose proof (keep_pre_step W h W0 Hw0) as [_ Hw1]. unfold exec in Hw1. destruct (cpu_pre_step h W0) as [consumed W1] eqn:Ep. destruct consumed; [done|]. cbn [snd] in Hw1.
destruct (pre_step_quiet _ _ Ep) as (Eb & (Q1 & Q2 & Q3 & Q4) & Hp1). unfold W0 in Q1, Q2, Q3, Q4. rewrite hart_after in Q1, Q2, Q3, Q4.
cbn [c_regs c_pc c_halted c_trapped set_c_trapped] in Q1, Q2, Q3, Q4. change (hart h (set_w_bus _ W)) with (hart h W) in *.
assert (b_fault (w_bus W1) = false) as Hf by by rewrite Eb. assert (zero h W1) as Hz1 by (split; [apply Hp1, present_upd|rewrite Q1; apply Hz]).
assert (rng 64 (c_pc (hart h W1))) as Hpc by apply (ok_pc _ (ci_ok _ _ (wi_harts _ _ Hw1 h))). set (va := c_pc (hart h W1)) in *.
pose proof (translate_no_fault h va ACC_FETCH W1 (world_inv_ok _ _ Hw1) Hpc Hf) as Hf2. pose proof (zero_translate h va ACC_FETCH W1 Hz1) as [_ Hz2].
pose proof (keep_mmu_translate W h va ACC_FETCH Hpc W1 Hw1) as [_ Hw2]. destruct (translate_hart h va ACC_FETCH W1) as [x Ex]. unfold exec in *.
destruct (mmu_translate h va ACC_FETCH W1) as [[cause|pa'] W2]; [done|]. intros E. injection E as <- <-. cbn [snd] in *. split.
- constructor; [by apply (world_inv_ok W)|done|by rewrite (ci_xlen _ _ (wi_harts _ _ Hw2 h))|]. split; [done|]. rewrite Ex. cbn. rewrite Q3, Q4. done.
- rewrite Ex. done.
Qed.

Definition block_set (pa : Z) : Z := (pa >> 1) .& (JIT_SETS - 1).
(** The entry for [pa], translated if there is none. *)
Definition lookup_block (pa : Z) : st JitState Z :=
w ← gets js_world;
m ← gets js_mem;
match find_block (j_gen (w_jit w)) m (block_set pa) pa (c_pc (hart h w)) with
| Some way => mret way
| None => add_block h h_alu h_mem (block_set pa) pa
end.
Lemma lookup_block_ok (P : Bus -> Prop) pa s : let w := js_world s in let j := w_jit w in let pc := c_pc (hart h w) in
table_ok P j (js_mem s) -> P (w_bus w) -> even pc -> c_xlen (hart h w) = (if rv64 then 64 else 32) -> j_gen j + 1 < 2 ^ 64 ->
let '(way, s') := lookup_block pa s in
0 <= way < JIT_WAYS /\ exists j', js_world s' = set_w_jit j' w /\ table_ok P j' (js_mem s') /\ live P pa pc j' (js_mem s') (jit_entry (js_mem s') (block_set pa) way).
Proof.
cbv zeta. intros Ht HP Hv Hx Hg. unfold lookup_block, mbind, st_bind, gets. destruct (find_block _ _ _ _ _) as [way|] eqn:Ef; [|by apply add_block_ok].
cbn [mret st_ret]. destruct (find_way_in _ _ _ Ef) as [Hf Hin]. cbv zeta in Hf. set (e := jit_entry (js_mem s) (block_set pa) way) in *.
split; [by apply way_range|]. exists (w_jit (js_world s)). split; [by destruct (js_world s)|]. split; [done|].
apply andb_prop in Hf as [Hf Hva]. apply andb_prop in Hf as [Hge Hpa]. apply Z.eqb_eq in Hge, Hpa, Hva. split_and!; [done..|]. intros He.
destruct (jm_table (js_mem s) !! (block_set pa * JIT_WAYS + way)) as [e'|] eqn:El.
- assert (e = e') as E by (unfold e, jit_entry; by rewrite El). rewrite E in *. apply (tb_live _ _ _ Ht _ _ El Hge). by rewrite Hva.
- pose proof (tb_gen _ _ _ Ht). assert (e = mkJitEntry 0 0 0 None 0) as E by (unfold e, jit_entry; by rewrite El). rewrite E in Hge. cbn in Hge. lia.
Qed.

Lemma jit_run_eq max rbx s : jit_run_x86 h cpu_addr h_alu h_mem junk max rbx s =
let '(e, W) := boundary (js_world s) in let s1 := mkJitState W (js_mem s) in
match e with
| Consumed => (Some (1, rbx), s1)
| Unmapped => (Some (0, rbx), s1)
| Start pa =>
let '(way, s2) := lookup_block pa s1 in
let w := js_world s2 in let e := jit_entry (js_mem s2) (block_set pa) way in
match e_fn e with
| None => (Some (0, rbx), s2)
| Some fn =>
  if (max <? e_ninsn e) || (cpu_interrupt_horizon (hart h w) (w_bus w) <? e_ninsn e) then (Some (0, rbx), s2)
  else match call_block h cpu_addr h_alu h_mem junk (js_mem s2) fn rbx w with
       | None => (None, s2)
       | Some (steps, rbx, w) => (Some (steps, rbx), mkJitState w (js_mem s2))
       end
end
end.
Proof.
unfold jit_run_x86, boundary, lookup_block, on_world, mbind, st_bind, gets, modify, bus, cpu_upd, modify. destruct s as [w m]. cbn [js_world js_mem fst snd].
destruct (cpu_pre_step h _) as [consumed W1]. cbn [js_world js_mem]. destruct consumed; [done|]. cbn [js_world js_mem].
destruct (mmu_translate h _ ACC_FETCH W1) as [[cause|pa] W2]; cbn [mret st_ret js_world js_mem]; [done|]. fold (block_set pa).
match goal with |- context [match find_block ?g ?m ?s ?p ?c with Some w => mret w | None => _ end] => destruct (find_block g m s p c) as [way|] end; cbn [mret st_ret].
- cbn [id js_world js_mem]. destruct (e_fn _); [|done]. destruct (max <? _); [done|]. cbn [orb]. destruct (_ <? _); [done|].
by destruct (call_block _ _ _ _ _ _ _ _ _) as [[[steps rbx'] w']|].
- destruct (add_block h h_alu h_mem (block_set pa) pa _) as [way s2]. cbn [id js_world js_mem]. destruct (e_fn _); [|done]. destruct (max <? _); [done|]. cbn [orb]. destruct (_ <? _); [done|].
by destruct (call_block _ _ _ _ _ _ _ _ _) as [[[steps rbx'] w']|].
Qed.

Lemma steps_range l : forall k W, k <= (interp_block h l k W).1 <= k + Z.of_nat (length l).
Proof.
induction l as [|[inst ilen] l IH]; intros k W; cbn [interp_block]; [cbn; lia|]. unfold mbind, st_bind. destruct (interp_insn h inst ilen W) as [[] W'].
- specialize (IH (k + 1) W'). cbn [length]. lia.
- cbn [fst mret st_ret length]. lia.
- cbn [fst mret st_ret length]. lia.
Qed.
Lemma ready_jit j W : ready h rv64 W -> ready h rv64 (set_w_jit j W).
Proof. intros [[Hm Hh Hd] Hz Hx Hc]. by constructor. Qed.

(** Calling the entry that was found or made. *)
Lemma call_entry_ok b pc m e fn rbx j W : ready h rv64 W -> c_pc (hart h W) = pc -> even pc -> sf rv64 pc = pc -> e_va e = pc -> installed j m b e ->
let l := block_of b rv64 pc (e_pa e) in
match e_fn e with None => l = [] | Some fn' => l <> [] /\ e_ninsn e = Z.of_nat (length l) /\ (fn' = fn ->
call_block h cpu_addr h_alu h_mem junk m fn rbx W = let '(steps, W') := interp_block h l 0 W in Some (steps, rbx, W')) end.
Proof.
intros Hr Epc Hv Hsf Hva Hi. unfold installed in Hi. rewrite Hva in Hi. pose proof (block_code_shape h cpu_addr h_alu h_mem junk Halu Hmem Hne b rv64 pc (e_pa e) Hv) as Hs. cbv zeta.
destruct (e_fn e) as [off|]; [|destruct Hs as [[_ E]|(bs & E & _)]; [done|congruence]].
destruct Hi as (code & Hc & Hi & _). destruct Hs as [[E _]|(bs & E & Hnil & _)]; [congruence|]. split; [done|]. split; [congruence|]. intros ->.
pose proof (call_block_ok h cpu_addr h_alu h_mem junk Halu Hmem Hne b rv64 pc (e_pa e) Hv m fn rbx code (e_ninsn e) W Hc Hi Hr Epc Hsf) as H.
by destruct (interp_block h _ 0 W).
Qed.

(** What a run of the dispatcher comes to: nothing more than the boundary when there is no
block to run or no room for the whole of it, else what the interpreter does on its
instructions. *)
Definition run_result (P : Bus -> Prop) (max rbx pc : Z) (W : World) (e : Boundary) (r : option (Z * Z)) (W' : World) : Prop :=
match e with
| Consumed => r = Some (1, rbx) /\ W' = W
| Unmapped => r = Some (0, rbx) /\ W' = W
| Start pa => exists j b, P b /\
  let W1 := set_w_jit j W in let l := block_of b rv64 pc pa in let n := Z.of_nat (length l) in
  if (n =? 0) || (max <? n) || (cpu_interrupt_horizon (hart h W) (w_bus W) <? n) then r = Some (0, rbx) /\ W' = W1
  else exists steps, interp_block h l 0 W1 = (steps, W') /\ r = Some (steps, rbx) /\ 0 <= steps <= max
end.
Lemma run_entry_ok (P : Bus -> Prop) pa max rbx pc W j m e : ready h rv64 W -> w_jit W = j -> c_pc (hart h W) = pc -> even pc -> sf rv64 pc = pc ->
table_ok P j m -> live P pa pc j m e ->
let '(r, W') := match e_fn e with
| None => (Some (0, rbx), W)
| Some fn =>
  if (max <? e_ninsn e) || (cpu_interrupt_horizon (hart h W) (w_bus W) <? e_ninsn e) then (Some (0, rbx), W)
  else match call_block h cpu_addr h_alu h_mem junk m fn rbx W with None => (None, W) | Some (steps, rbx, w) => (Some (steps, rbx), w) end
end in
w_jit W' = j /\ exists b, P b /\ let l := block_of b rv64 pc pa in let n := Z.of_nat (length l) in
if (n =? 0) || (max <? n) || (cpu_interrupt_horizon (hart h W) (w_bus W) <? n) then r = Some (0, rbx) /\ W' = W
else exists steps, interp_block h l 0 W = (steps, W') /\ r = Some (steps, rbx) /\ 0 <= steps <= max.
Proof.
intros Hr Hj Epc Hv Hsf Ht (_ & Hpa & Hva & Hi). destruct (Hi Hv) as (b & HP & Hb). pose proof (fun fn => call_entry_ok b pc m e fn rbx j W Hr Epc Hv Hsf Hva Hb) as Hc. rewrite Hpa in Hc. cbv zeta in Hc.
set (l := block_of b rv64 pc pa) in *. destruct (e_fn e) as [fn|]; [|split; [done|]; exists b; cbv zeta; fold l; by rewrite (Hc 0)].
destruct (Hc fn) as (Hnil & -> & Hcall). rewrite Hcall by done. clear Hc Hcall. destruct ((max <? _) || _) eqn:Eg.
{ split; [done|]. exists b. cbv zeta. fold l. by rewrite <- orb_assoc, Eg, orb_true_r. }
pose proof (kept_block j b (block_start rv64 pc) pa (u64 ((block_start rv64 pc .| 0xfff) + 1)) (Z.to_nat JIT_MAX_INSNS) 0 0 W Hj) as [_ Hk].
fold (block_of b rv64 pc pa) in Hk. fold l in Hk. unfold exec in Hk. pose proof (steps_range l 0 W) as Hsteps. destruct (interp_block h l 0 W) as [steps W'] eqn:Ei. cbn [fst snd] in *.
split; [done|]. exists b. split; [done|]. cbv zeta. fold l. rewrite <- orb_assoc, Eg. apply orb_false_iff in Eg as [Eg _]. apply Z.ltb_ge in Eg.
destruct (Z.eqb_spec (Z.of_nat (length l)) 0) as [E0|_]; [destruct l; [done|cbn in E0; lia]|]. cbn [orb]. exists steps. split_and!; [done|done|lia|lia].
Qed.

(** C3 [jit_run_interprets]: a run of the dispatcher on the x86-64 build is a run of the
interpreter.  From a table whose live entries hold translations made in this generation,
[jit_run] does the prologue of [cpu_step] and the translation of the program counter;
then, unless no block starts there or the block is longer than the steps left or than the
interrupt horizon, the generated code comes back, rbx restored, with the steps and the
state the interpreter has after the instructions of the block, as read from memory at
some lookup since the last flush.  The code is never stuck, and the table invariant is
kept whatever the arena, the ways and the victim counter hold.  The program counter is
assumed even (the interpreter traps on an odd one, the generated code does not look) and in
the form the generated code stores, sign-extended on RV32. *)
Theorem jit_run_interprets (P : Bus -> Prop) max rbx s : let w := js_world s in
world_ok w -> zero h w -> c_xlen (hart h w) = (if rv64 then 64 else 32) -> c_halted (hart h w) = false ->
even (c_pc (hart h w)) -> sf rv64 (c_pc (hart h w)) = c_pc (hart h w) ->
table_ok P (w_jit w) (js_mem s) -> j_gen (w_jit w) + 1 < 2 ^ 64 ->
let '(e, W) := boundary w in
let '(r, s') := jit_run_x86 h cpu_addr h_alu h_mem junk max rbx s in
let P' b := P b \/ b = w_bus W in
run_result P' max rbx (c_pc (hart h w)) W e r (js_world s') /\ table_ok P' (w_jit (js_world s')) (js_mem s').
Proof.
cbv zeta. intros Hw Hz Hx Hh Hv Hsf Ht Hg. rewrite jit_run_eq. pose proof (boundary_ready (js_world s)) as Hb. destruct (kept_boundary (w_jit (js_world s)) (js_world s) eq_refl) as [_ Hj].
unfold exec in Hj. destruct (boundary (js_world s)) as [e W]. cbn [snd] in Hj. cbv zeta. set (P' := fun b => P b \/ b = w_bus W). set (s1 := mkJitState W (js_mem s)).
assert (table_ok P' (w_jit W) (js_mem s)) as Ht' by (rewrite Hj; apply (table_mono P); [by left|done]). destruct e as [| |pa]; [by split..|].
destruct (Hb pa W Hw Hz Hx Hh eq_refl) as [Hr Epc]. rewrite <- Epc in *. assert (j_gen (w_jit W) + 1 < 2 ^ 64) as Hg' by by rewrite Hj.
pose proof (lookup_block_ok P' pa s1 Ht' (or_intror eq_refl) Hv (rd_xlen _ _ _ Hr) Hg') as Hl.
destruct (lookup_block pa s1) as [way s2]. destruct Hl as (_ & j & E2 & Ht2 & Hlive). cbv zeta. set (en := jit_entry (js_mem s2) (block_set pa) way) in *.
cbn [js_world s1] in E2. pose proof (run_entry_ok P' pa max rbx (c_pc (hart h W)) (js_world s2) j (js_mem s2) en) as H. rewrite E2 in H. specialize (H (ready_jit j W Hr) eq_refl eq_refl Hv Hsf Ht2 Hlive).
rewrite E2.
destruct (e_fn en) as [fn|]; [destruct (_ || _); [|destruct (call_block _ _ _ _ _ _ _ _ _) as [[[steps rbx'] w']|]]|];
(destruct H as (Hk & b & HP & H); cbn [js_world js_mem] in *; rewrite ?E2; split; [exists j, b; split; [done|exact H]|by rewrite Hk]).
Qed.
End Table.

Definition sample_state : JitState := mkJitState sample_world jit_new_x86.2.
Lemma sample_run : (jit_run_x86 0 0x7000 1 2 0 100 9 sample_state).1 = Some (3, 9).
Proof. vm_compute. reflexivity. Qed.
Lemma sample_running : c_halted (hart 0 sample_world) = false /\ even (c_pc (hart 0 sample_world)) /\
  sf true (c_pc (hart 0 sample_world)) = c_pc (hart 0 sample_world).
Proof. by rewrite sample_pc. Qed.
Lemma jit_run_interprets_witness :
  (jit_run_x86 0 0x7000 1 2 0 100 9 sample_state).1 = Some (3, 9) /\
  let '(e, W) := boundary 0 sample_world in
  let '(r, s) := jit_run_x86 0 0x7000 1 2 0 100 9 sample_state in
  let P b := False \/ b = w_bus W in
  run_result 0 true P 100 9 (c_pc (hart 0 sample_world)) W e r (js_world s) /\ table_ok 1 2 true P (w_jit (js_world s)) (js_mem s).
Proof.
  split; [exact sample_run|].
  exact (jit_run_interprets 0 0x7000 1 2 0 (rng_const 64 1 eq_refl) (rng_const 64 2 eq_refl) ltac:(done) true (fun _ => False) 100 9 sample_state
    (rd_world _ _ _ sample_ready) (rd_zero _ _ _ sample_ready) (rd_xlen _ _ _ sample_ready) (proj1 sample_running) (proj1 (proj2 sample_running)) (proj2 (proj2 sample_running))
    (table_new 1 2 true (fun _ => False)) eq_refl).
Defined.
